(* ===== verification/_CoqProject ===== *)
-Q . S2P
Prelude.v
GoStrings.v
GoNum.v
InternalApi.v
Kube.v
RateLimit.v
QuotaController.v
TokenUsage.v
GoHttp.v
GoUrl.v
Crypto.v
IdCodec.v
McpAuthz.v
McpCrypto.v
McpConfig.v
McpController.v
McpSse.v
McpSession.v
McpRouting.v
McpReload.v
GoCodec.v
McpIds.v
McpEra.v
McpStream.v
McpPost.v
McpAnswer.v
FilterApi.v
ConfigBundle.v
HeaderMutator.v
EnvoyTypes.v
QuotaRoutes.v
QuotaProps.v
BackendAuth.v
Costs.v
ExtProc.v
ExtProcProps.v
MetricsImpl.v
Passthrough.v
PassthroughProps.v
Billing.v
Redaction.v
Server.v
Models.v
ExtProcBuilder.v
FilterConfig.v
FilterConfigProps.v
Rotation.v
RotationProps.v
AiRoute.v
AiRouteProps.v
ExtServer.v
XdsListeners.v
EndpointProps.v
XdsProps.v
Rollout.v
RolloutProps.v
Files.v
FilesProps.v
