(* ===== verification/Prelude.v ===== *)
(** * Agent Router: verification development

    The program under [src/] is an AI gateway: a Kubernetes controller that
    writes the configuration of an Envoy proxy, an extension server that edits what
    Envoy Gateway makes of it, an external processor that Envoy calls for every LLM
    request, and an MCP proxy that puts several MCP servers behind one endpoint.
    This library models the parts that decide what a client may reach, what an
    upstream receives, what it is charged for and what is recorded about it.

    ** Parts and their files

    Foundations.  [Prelude]: errors, outcomes (value, error, panic), loops that
    can fail, maps and the order of ranging over them, automation.  [GoStrings],
    [GoNum], [GoCodec], [GoHttp], [GoUrl]: what the code uses of the packages strings,
    strconv, math, encoding, net/http and net/url, with the laws the proofs need.
    [Crypto]: the primitives of crypto as a class with their laws; base64.

    Controller ([internal/controller]).  [Kube]: resources, index keys, finalizers and
    reference grants.  [FilterConfig], [FilterConfigProps]: the configuration a Gateway
    gets from its routes, backends and policies (gateway.go).  [ExtProcBuilder],
    [Rollout], [RolloutProps]: the container of the external processor
    (extproc_builder.go, gateway_mutator.go) and the reconciler of Gateways with its
    rollouts.  [AiRoute], [AiRouteProps]: the HTTPRoutes of AIGatewayRoutes
    (ai_gateway_route.go).  [Rotation], [RotationProps]: the credentials of security
    policies (backend_security_policy.go, [rotators], [tokenprovider]).
    [QuotaController]: quota policies (quota_policy.go).  [McpController]: the
    translation of MCP routes (gateway.go, mcp_route.go).

    Quotas.  [RateLimit]: [internal/ratelimit], the configuration of the rate limit
    service.  [QuotaRoutes]: the actions on Envoy routes
    ([internal/extensionserver/quota_ratelimit.go]).  [QuotaProps]: both against each
    other.

    Extension server ([internal/extensionserver]).  [ExtServer]: clusters and endpoints,
    inference pools, forward proxies.  [XdsListeners]: listeners and routes, MCP
    backends, and [PostTranslateModify] as a whole.  [EndpointProps]: endpoints against
    the configuration of [FilterConfig] and the routes of [AiRoute].  [XdsProps]: the
    filters of listeners.

    Configuration.  [FilterApi]: [internal/filterapi] (filterconfig.go, runtime.go)
    and [internal/llmcostcel].  [ConfigBundle]: the sharded Secrets the controller
    writes and the watcher that reassembles them ([internal/controller],
    [internal/filterapi]).  [InternalApi]: names, headers and parsers shared by
    both sides ([internal/internalapi], [internal/requestheaderattrs]).

    External processor.  [EnvoyTypes]: the messages of Envoy.  [ExtProc] models
    the router and upstream processors of [internal/extproc/processor_impl.go] and
    util.go, one definition per handler, on a state record with a trace of the
    recorded metrics; [ExtProcProps] has their theorems.  They call [HeaderMutator]
    ([internal/headermutator], [internal/bodymutator], header_value_filter.go),
    [BackendAuth] ([internal/backendauth]), [Costs] (dynamic metadata of
    processor_impl.go) and [TokenUsage] ([internal/metrics/metrics.go]).
    [MetricsImpl]: the recorder behind the trace (metrics_impl.go).  [Passthrough],
    [PassthroughProps], [Billing]: the translators of [internal/translator] that keep
    the client's schema, and what a stream is billed for.  [Server] models
    [internal/extproc/server.go] as a system of streams that share a map.  [Files],
    [FilesProps]: files_processor.go with its translators.  [Models] and [Redaction]
    model models_processor.go and [internal/redaction] with the log redaction of
    server.go.  [IdCodec] models [internal/idcodec].

    MCP proxy ([internal/mcpproxy]).  [McpCrypto]: crypto.go.  [McpConfig]:
    config.go and filterapi/mcpconfig.go.  [McpAuthz]: authorization.go.
    [McpSession]: sessions of session.go and mcpproxy.go, names and URIs of
    handlers.go.  [McpRouting]: lists and routing of handlers.go and legacy.go.
    [McpIds]: request ids and progress tokens.  [McpSse]: sse.go.  [McpStream]:
    broadcast answers and the notification stream.  [McpAnswer]: the answer of one
    backend.  [McpPost]: the endpoint.  [McpEra]: era.go and modern.go.
    [McpReload]: configuration changes seen by clients, across [McpController],
    [McpConfig] and [McpRouting].

    ** How code becomes definitions

    A function that returns an error is an [outcome]; a method on a pointer takes
    and returns the record; a loop is a fold with its body as a definition of its
    own.  A reconciler takes and returns the cluster; [Rotation] has a state and
    error monad for it, since its calls also move the clock.  Ranging over a map takes
    the order as an argument, and the theorems hold for every order ([RangeOrder]).
    Widths are written out: the 32-bit token counters wrap, durations saturate, a
    float64 is a binary64 number of [SpecFloat].  Concurrency is a step relation:
    streams of the external processor in [Server], reloads against the notification
    stream in [McpStream].  What the sources only call is a class or an argument:
    Envoy, Envoy Gateway, Kubernetes, the cloud SDKs, CEL, JWT and JSON codecs,
    regular expressions, cryptography, the clock, randomness, the file system and
    the HTTP exchange with a backend.  Where a law of such code is needed it is a
    field of a class ([CryptoLaws], [JsonRpcLaws], [RegexpLaws], [KubeSecretsLaws],
    [GrantClientLaws], [WorldLaws]) with an instance in a [Sample] or [Toy] module, on
    which the witnesses run.

    ** What the theorems show

    External processor: one completion is recorded per upstream attempt, the map
    of live requests is exact in every interleaving, headers that steer routing
    cannot be supplied by a client and do not leave the gateway, header mutation
    and retries give each upstream exactly the configured headers, decompression
    loses nothing, a finished response stays finished, costs follow the two-tier
    rule, credentials are used whole or not at all and are not logged, usage does not
    depend on how the network cuts a stream.  Controller: a backend is published only
    from a permitted reference and with the credentials of the one policy for it, what
    the controller writes is what the processor loads and is there before workloads
    are rolled, a rollout settles, a credential is replaced before it expires and only
    by what a cloud issued to its policy, only permitted Secrets are read.  Quotas:
    what is checked is charged, and the rate limit service has a limit for it.
    Extension server: an endpoint is called with the credentials of its backend, MCP
    backends are only reachable by loopback, the external processor runs on exactly
    the generated routes.  Ids: an issued id decodes to its backend and no other text
    does.  MCP proxy: a backend is reached only under a session of
    the caller's own route and subject, a call only passes when selector and
    authorization allow it, authorization is first-match and fails closed, a
    listed tool can be called and reaches its backend, a silent reload changes no
    list, event streams are passed on whole and can be resumed, ids given to
    clients find the way back.  Statements that describe what the code does not
    manage (an announcement that can be missed, an answer cut short, a wakeup that is
    lost) are lemmas too.

    ** Bounds and fuel

    [McpSse.drain] and [McpAnswer.relay] are given one step more than the bytes of
    the input, and every step but the last takes at least two of them (proved);
    [GoCodec.SplitStr], [GoStrings.strip_all], [McpAuthz.fields_go],
    [ConfigBundle.split_loop], [Passthrough.scanEvents] and [Passthrough.convertEvents]
    get the length of their text, or more, of which every step takes at least one byte;
    [RateLimit.mergeFuel] gets one more than the height of its trees, and more changes
    nothing ([RateLimit.mergeFuel_enough]).
    All other recursion is structural.

    ** Not modelled

    The translators between provider schemas (most of [internal/translator]) and the
    request parsers of [internal/endpointspec] are conversions of large data types
    with few decisions of the gateway's own: the processor takes them as the classes
    [Translator] and [EndpointSpec], and its theorems hold for every instance.  The
    reconcilers of MCP routes and their security policies, backends, Secrets,
    inference pools and reference grants build Kubernetes objects and pass on events.
    Logging, spans and their attributes ([internal/tracing]), generated code, the data
    types of [internal/apischema] without logic, the decoding of extension resources,
    the health service, command line front ends and tests are left out. *)

From stdpp Require Import base gmap strings list pretty.

(** ** Error values

    A Go [error] is a message together with the sentinel values that
    [errors.Is] and [errors.As] find in its chain.  [fmt.Errorf] with [%w]
    prefixes the message and keeps the chain. *)
Inductive sentinel :=
| ErrMalformedRequest
| ErrInvalidRequestBody
| ErrCredentialMissing
| ErrIncompleteAWSCredential
| ErrNoProcessor
| ErrBundleChecksumMismatch
| ErrBundlePartNotFound
| ErrInvalidID
| ErrNoMatchingBackendSelector
| ErrSessionSubjectMismatch
| ErrSessionRouteMismatch
| ErrSessionNotFound
| ErrBackendNotFound
| ErrInvalidToolName
| ErrInvalidPromptName
| StreamOverloadedError
| IoEOF
| IoErrUnexpectedEOF
| OsErrNotExist
| KubeNotFound
| ReferenceNotPermittedError
| ContextCanceled
| ContextDeadlineExceeded.

#[global] Instance sentinel_eq_dec : EqDecision sentinel.
Proof. solve_decision. Defined.

Record error := Err { err_msg : string; err_chain : list sentinel }.

#[global] Instance error_eq_dec : EqDecision error.
Proof. solve_decision. Defined.

(** [errors.New] for an error that is not one of the sentinels. *)
Definition errors_New (msg : string) : error := Err msg [].

(** [errors.New] for a package-level sentinel. *)
Definition errors_Sentinel (msg : string) (s : sentinel) : error := Err msg [s].

(** [fmt.Errorf("prefix: %w", err)]. *)
Definition Errorf_w (prefix : string) (e : error) : error :=
  Err (prefix +:+ err_msg e) (err_chain e).

Definition errors_Is (e : error) (s : sentinel) : bool := bool_decide (s ∈ err_chain e).

Lemma errors_Is_w prefix e s : errors_Is (Errorf_w prefix e) s = errors_Is e s.
Proof. done. Qed.

(** ** Outcomes of a Go call

    A call returns a value, returns an error or panics. *)
Inductive outcome (A : Type) :=
| Ok (a : A)
| Fail (e : error)
| Panic (msg : string).
Arguments Ok {A} a.
Arguments Fail {A} e.
Arguments Panic {A} msg.

Definition obind {A B} (m : outcome A) (k : A → outcome B) : outcome B :=
  match m with
  | Ok a => k a
  | Fail e => Fail e
  | Panic s => Panic s
  end.

(** [x, err := f(); if err != nil { return fmt.Errorf("p: %w", err) }]. *)
Definition owrap {A} (prefix : string) (m : outcome A) : outcome A :=
  match m with
  | Fail e => Fail (Errorf_w prefix e)
  | m => m
  end.

Definition is_ok {A} (m : outcome A) : bool := match m with Ok _ => true | _ => false end.
Definition is_fail {A} (m : outcome A) : bool := match m with Fail _ => true | _ => false end.

Declare Scope go_scope.
Delimit Scope go_scope with go.
Notation "'let!' x ':=' m 'in' k" := (obind m (λ x, k))
  (at level 10, x binder, m at level 100, k at level 200) : go_scope.
Open Scope go_scope.

Lemma obind_ok_inv {A B} (m : outcome A) (k : A → outcome B) b :
  obind m k = Ok b → ∃ a, m = Ok a ∧ k a = Ok b.
Proof. destruct m; simpl; naive_solver. Qed.

Lemma owrap_ok_inv {A} p (m : outcome A) a : owrap p m = Ok a → m = Ok a.
Proof. by destruct m. Qed.

Lemma owrap_ok_iff {A} p (m : outcome A) a : owrap p m = Ok a ↔ m = Ok a.
Proof. by destruct m. Qed.

(** Splits the successful runs of an outcome computation in the hypotheses. *)
Ltac outcome_inv :=
  repeat match goal with
  | H : obind _ _ = Ok _ |- _ =>
      apply obind_ok_inv in H; destruct H as (? & ? & ?)
  | H : owrap _ _ = Ok _ |- _ => apply owrap_ok_inv in H
  | H : Ok _ = Ok _ |- _ => injection H as H
  | H : Fail _ = Ok _ |- _ => discriminate H
  | H : Panic _ = Ok _ |- _ => discriminate H
  end.

(** A loop whose body can fail: [for _, a := range l { acc, err = f(acc, a) }]. *)
Fixpoint ofold {A B} (f : B → A → outcome B) (b : B) (l : list A) : outcome B :=
  match l with
  | [] => Ok b
  | a :: l => let! b' := f b a in ofold f b' l
  end.

Lemma foldl_ext {A B} (f g : B → A → B) b l : (∀ b a, f b a = g b a) → foldl f b l = foldl g b l.
Proof. intros H. revert b. induction l as [|a l IH]; intros b; simpl; [done|]. by rewrite H. Qed.

(** A loop that appends to one list and folds into another. *)
Lemma foldl_collect {A B C D} (f : A → list B) (g : C → D → C) (h : A → list D) (acc : list B * C) (l : list A) :
  foldl (λ acc x, (acc.1 ++ f x, foldl g acc.2 (h x))) acc l = (acc.1 ++ (l ≫= f), foldl g acc.2 (l ≫= h)).
Proof.
  revert acc. induction l as [|x l IH]; intros acc; cbn [foldl]; [destruct acc; cbn; by rewrite app_nil_r|].
  rewrite IH. cbn. by rewrite <-app_assoc, foldl_app.
Qed.

(** A loop that collects the results of its body. *)
Fixpoint omapM {A B} (f : A → outcome B) (l : list A) : outcome (list B) :=
  match l with
  | [] => Ok []
  | a :: l => let! b := f a in let! bs := omapM f l in Ok (b :: bs)
  end.

Lemma omapM_ok {A B} (f : A → outcome B) l bs : omapM f l = Ok bs ↔ Forall2 (λ a b, f a = Ok b) l bs.
Proof.
  revert bs. induction l as [|a l IH]; intros bs; simpl.
  - split; [intros [= <-]; constructor|by intros ->%Forall2_nil_inv_l].
  - split.
    + intros H. outcome_inv. subst. constructor; [done|]. by apply IH.
    + intros (b & bs' & Hb & Hbs & ->)%Forall2_cons_inv_l. rewrite Hb. simpl. apply IH in Hbs as ->. done.
Qed.

Lemma ofold_app {A B} (f : B → A → outcome B) b l1 l2 :
  ofold f b (l1 ++ l2) = obind (ofold f b l1) (λ b', ofold f b' l2).
Proof. revert b; induction l1 as [|a l1 IH]; intros b; simpl; [done|]. destruct (f b a); simpl; auto. Qed.

(** An invariant of the accumulator is an invariant of a loop that returns. *)
Lemma ofold_inv {A B} (P : B → Prop) (f : B → A → outcome B) b l b' :
  P b → (∀ x a x', P x → a ∈ l → f x a = Ok x' → P x') → ofold f b l = Ok b' → P b'.
Proof.
  revert b; induction l as [|a l IH]; simpl; intros b Hb Hf H; [by simplify_eq|].
  outcome_inv. eapply IH; [|by eauto using list_elem_of_further|done].
  eapply Hf; [done|by left|done].
Qed.

(** A loop body that never panics gives a loop that never panics. *)
Lemma ofold_no_panic {A B} (f : B → A → outcome B) b l s :
  (∀ x a s', f x a ≠ Panic s') → ofold f b l ≠ Panic s.
Proof.
  intros Hf. revert b; induction l as [|a l IH]; intros b; simpl; [done|].
  destruct (f b a) eqn:E; simpl; [apply IH|done|]. by destruct (Hf b a msg).
Qed.

(** ** Go maps

    [m[k]] on a Go map of strings yields the zero value for a missing key. *)
Definition mget (m : gmap string string) (k : string) : string := default "" (m !! k).

Lemma mget_insert m k v : mget (<[k:=v]> m) k = v.
Proof. unfold mget. by rewrite lookup_insert_eq. Qed.

Lemma mget_insert_ne m k k' v : k ≠ k' → mget (<[k:=v]> m) k' = mget m k'.
Proof. intros. unfold mget. by rewrite lookup_insert_ne. Qed.

(** The last binding of a key in a list of pairs: what is left in a map after
    storing the pairs in order. *)
Definition last_binding {V} (k : string) (l : list (string * V)) : option V :=
  foldl (λ acc p, if decide (p.1 = k) then Some p.2 else acc) None l.

Lemma last_binding_snoc {V} k (l : list (string * V)) p :
  last_binding k (l ++ [p]) = if decide (p.1 = k) then Some p.2 else last_binding k l.
Proof. unfold last_binding. by rewrite foldl_app. Qed.

Lemma last_binding_app {V} k (l1 l2 : list (string * V)) :
  last_binding k (l1 ++ l2) = match last_binding k l2 with Some v => Some v | None => last_binding k l1 end.
Proof.
  induction l2 as [|p l2 IH] using rev_ind; [by rewrite app_nil_r|].
  rewrite app_assoc, !last_binding_snoc, IH. by case_decide.
Qed.

Lemma last_binding_None {V} k (l : list (string * V)) :
  last_binding k l = None ↔ k ∉ l.*1.
Proof.
  induction l as [|p l IH] using rev_ind; [by split; [set_solver|]|].
  rewrite last_binding_snoc, fmap_app, not_elem_of_app; simpl.
  case_decide; set_solver.
Qed.

Lemma last_binding_elem {V} k (l : list (string * V)) v :
  last_binding k l = Some v → (k, v) ∈ l.
Proof.
  induction l as [|[k' v'] l IH] using rev_ind; [done|].
  rewrite last_binding_snoc; simpl. case_decide; set_solver.
Qed.

(** [for _, p := range l { m[p.key] = p.value }]. *)
Definition insert_all {V} (l : list (string * V)) (m : gmap string V) : gmap string V :=
  foldl (λ acc p, <[p.1 := p.2]> acc) m l.

Lemma insert_all_snoc {V} l p (m : gmap string V) :
  insert_all (l ++ [p]) m = <[p.1 := p.2]> (insert_all l m).
Proof. unfold insert_all. by rewrite foldl_app. Qed.

Lemma lookup_insert_all {V} l (m : gmap string V) k :
  insert_all l m !! k = match last_binding k l with Some v => Some v | None => m !! k end.
Proof.
  induction l as [|p l IH] using rev_ind; [done|].
  rewrite insert_all_snoc, last_binding_snoc, lookup_insert.
  repeat case_decide; by simplify_eq.
Qed.

#[export] Hint Rewrite @lookup_insert_all @last_binding_snoc : goma.

Create HintDb router.
#[export] Hint Resolve list_elem_of_here list_elem_of_further : router.

(** When the success of the body depends on the element only, the loop
    succeeds exactly when every element does. *)
Lemma ofold_is_ok {A B} (P : A → Prop) (f : B → A → outcome B) b l :
  (∀ x a, is_ok (f x a) = true ↔ P a) → is_ok (ofold f b l) = true ↔ Forall P l.
Proof.
  intros Hf. revert b; induction l as [|a l IH]; intros b; simpl; [by split|].
  rewrite Forall_cons, <-(Hf b a). destruct (f b a) eqn:E; simpl; [|naive_solver..].
  rewrite IH. naive_solver.
Qed.

(** A loop that appends one result per element. *)
Lemma ofold_append {A B} (R : A → B → Prop) (f : list B → A → outcome (list B)) l0 l l' :
  (∀ acc a acc', f acc a = Ok acc' → ∃ b, acc' = acc ++ [b] ∧ R a b) →
  ofold f l0 l = Ok l' → ∃ bs, l' = l0 ++ bs ∧ Forall2 R l bs.
Proof.
  intros Hf. revert l0; induction l as [|a l IH]; intros l0 H; simpl in H.
  { exists []. simplify_eq. by rewrite app_nil_r. }
  outcome_inv. destruct (Hf _ _ _ H) as (b & -> & Hb).
  destruct (IH _ H0) as (bs & -> & Hbs). exists (b :: bs).
  rewrite <-app_assoc. auto.
Qed.

Lemma is_ok_obind {A B} (m : outcome A) (k : A → outcome B) :
  is_ok (obind m k) = true ↔ ∃ a, m = Ok a ∧ is_ok (k a) = true.
Proof. destruct m; simpl; naive_solver. Qed.

Lemma is_ok_owrap {A} p (m : outcome A) : is_ok (owrap p m) = is_ok m.
Proof. by destruct m. Qed.

Lemma is_ok_exists {A} (m : outcome A) : is_ok m = true ↔ ∃ a, m = Ok a.
Proof. destruct m; simpl; naive_solver. Qed.

(** ** Ranging over a Go map

    [for k, v := range m] visits every binding once, in an order the language
    does not fix: the order is a function that enumerates the bindings. *)
Class RangeOrder {V} (range : gmap string V → list (string * V)) : Prop :=
  range_perm m : range m ≡ₚ map_to_list m.

#[export] Instance map_to_list_range {V} : RangeOrder (V := V) map_to_list.
Proof. by intros m. Qed.

Section Range.
Context {V : Type} (range : gmap string V → list (string * V)) `{!RangeOrder range}.

Lemma range_NoDup m : NoDup (range m).*1.
Proof. rewrite (range_perm m). apply NoDup_fst_map_to_list. Qed.

Lemma elem_of_range m k v : (k, v) ∈ range m ↔ m !! k = Some v.
Proof. rewrite (range_perm m). apply elem_of_map_to_list. Qed.
End Range.

Lemma filter_none {A} (P : A → Prop) `{∀ x, Decision (P x)} (l : list A) :
  (∀ x, x ∈ l → ¬ P x) → filter P l = [].
Proof.
  intros Hn. destruct (filter P l) as [|x l'] eqn:E; [done|].
  assert (x ∈ filter P l) as Hx by (rewrite E; left).
  apply list_elem_of_filter in Hx as [HP Hx]. by destruct (Hn x Hx).
Qed.

(** A loop whose body touches one key: what it leaves at a key is what the body
    does at the one element that has this key. *)
Lemma foldl_local {S A W K} `{EqDecision K} (step : S → A → S) (key : A → K)
    (view : S → W) (k : K) (f : W → A → W) s l :
  (∀ s a, key a ≠ k → view (step s a) = view s) →
  (∀ s a, key a = k → view (step s a) = f (view s) a) →
  NoDup (key <$> l) →
  view (foldl step s l) =
    match filter (λ a, key a = k) l with a :: _ => f (view s) a | [] => view s end.
Proof.
  intros Hne Heq. revert s. induction l as [|a l IH]; intros s Hnd; simpl; [done|].
  apply NoDup_cons in Hnd as [Hni Hnd]. rewrite (IH _ Hnd), filter_cons.
  case_decide as Hk; [|by rewrite Hne].
  replace (filter (λ a, key a = k) l) with (@nil A); [by apply Heq|].
  symmetry. apply filter_none. intros b Hb Hkb.
  apply Hni. rewrite Hk, <-Hkb. by apply list_elem_of_fmap_2.
Qed.

(** The element of a range at a key. *)
Lemma filter_range {V} (range : gmap string V → list (string * V)) `{!RangeOrder range} m k :
  filter (λ p, p.1 = k) (range m) = match m !! k with Some v => [(k, v)] | None => [] end.
Proof.
  pose proof (range_NoDup range m) as Hnd.
  destruct (m !! k) as [v|] eqn:E.
  - apply (elem_of_range range) in E. revert E Hnd. generalize (range m) as l.
    induction l as [|[k' v'] l IH]; [by intros H%elem_of_nil|]. intros E Hnd.
    apply NoDup_cons in Hnd as [Hni Hnd]. rewrite filter_cons. simpl. apply elem_of_cons in E as [E|E].
    + injection E as -> ->. rewrite decide_True by done. f_equal.
      apply filter_none. intros [k2 v2] Hb Hk. simpl in Hk. subst.
      apply Hni. apply list_elem_of_fmap. by exists (k', v2).
    + rewrite decide_False; [by apply IH|]. intros ->. apply Hni.
      apply list_elem_of_fmap. by exists (k, v).
  - apply filter_none. intros [k2 v2] Hb Hk. simpl in Hk. subst.
    apply (elem_of_range range) in Hb. congruence.
Qed.
