(* ===== verification/GoStrings.v ===== *)
(** * The parts of Go's [strings], [bytes], [strconv] and [fmt] the program uses

    A Go string and a Go byte slice are both sequences of bytes; both are
    modelled by [string].  The separators the program splits on are single
    bytes, so [Split], [SplitN], [Contains] and [Join] take an [ascii].
    [ToLower] and [EqualFold] act on ASCII letters: the keys they are applied
    to are HTTP header names, hosts and media types. *)

From Stdlib Require Import Ascii.
From stdpp Require Import base gmap strings list pretty.
From S2P Require Import Prelude.

Implicit Types s t p q : string.

(** ** Concatenation and length *)

Lemma sapp_nil_r s : s +:+ "" = s.
Proof. unfold String.app. induction s; simpl; congruence. Qed.

Lemma sapp_nil_l s : "" +:+ s = s.
Proof. done. Qed.

Lemma sapp_cons c s t : String c s +:+ t = String c (s +:+ t).
Proof. done. Qed.

Lemma sapp_assoc s t p : s +:+ (t +:+ p) = (s +:+ t) +:+ p.
Proof. induction s; rewrite ?sapp_cons, ?sapp_nil_l; [done|]. by f_equal. Qed.

Lemma slength_app s t : String.length (s +:+ t) = String.length s + String.length t.
Proof. induction s; rewrite ?sapp_cons, ?sapp_nil_l; simpl; lia. Qed.

Lemma sapp_inj_l s t p : s +:+ t = s +:+ p → t = p.
Proof. apply String.app_inj. Qed.

Lemma sapp_inj_len s s' t t' :
  String.length s = String.length s' → s +:+ t = s' +:+ t' → s = s' ∧ t = t'.
Proof.
  revert s'; induction s as [|c s IH]; intros [|c' s']; simpl; intros Hl He; try lia; [done|].
  rewrite !sapp_cons in He. injection He as -> He. destruct (IH s') as [-> ->]; [lia|done|done].
Qed.

Lemma sapp_inj_r s t p : s +:+ p = t +:+ p → s = t.
Proof.
  intros H. assert (String.length s = String.length t) as Hl.
  { apply (f_equal String.length) in H. rewrite !slength_app in H. lia. }
  by destruct (sapp_inj_len _ _ _ _ Hl H).
Qed.

Lemma slength_0 s : String.length s = 0 ↔ s = "".
Proof. destruct s; simpl; naive_solver. Qed.

(** [s[:n]] and [s[n:]]. *)
Fixpoint str_take (n : nat) s : string :=
  match n, s with
  | 0, _ | _, "" => ""
  | S n, String c s => String c (str_take n s)
  end.

Fixpoint str_drop (n : nat) s : string :=
  match n, s with
  | 0, _ => s
  | _, "" => ""
  | S n, String c s => str_drop n s
  end.

Lemma str_take_drop n s : str_take n s +:+ str_drop n s = s.
Proof. revert n; induction s as [|c s IH]; intros [|n]; simpl; try done. rewrite sapp_cons. by f_equal. Qed.

Lemma str_drop_app s t : str_drop (String.length s) (s +:+ t) = t.
Proof. induction s; rewrite ?sapp_cons, ?sapp_nil_l; simpl; auto. Qed.

Lemma str_take_app s t : str_take (String.length s) (s +:+ t) = s.
Proof. induction s; rewrite ?sapp_cons, ?sapp_nil_l; simpl; [by destruct t|]. by f_equal. Qed.

Lemma str_drop_app' n s t : String.length s = n → str_drop n (s +:+ t) = t.
Proof. intros <-. apply str_drop_app. Qed.

Lemma str_take_app' n s t : String.length s = n → str_take n (s +:+ t) = s.
Proof. intros <-. apply str_take_app. Qed.

Lemma str_drop_0 s : str_drop 0 s = s.
Proof. by destruct s. Qed.

Lemma str_drop_drop n m s : str_drop n (str_drop m s) = str_drop (m + n) s.
Proof. revert s; induction m as [|m IH]; intros [|c s]; simpl; try done; by destruct n. Qed.

Lemma slength_drop n s : String.length (str_drop n s) = String.length s - n.
Proof. revert n; induction s; intros [|n]; simpl; auto. Qed.

Lemma slength_take n s : String.length (str_take n s) = Nat.min n (String.length s).
Proof. revert n; induction s; intros [|n]; simpl; auto. Qed.

(** ** Prefixes and suffixes *)

Fixpoint HasPrefix s p : bool :=
  match p, s with
  | "", _ => true
  | String c p, String d s => bool_decide (c = d) && HasPrefix s p
  | _, _ => false
  end.

Lemma HasPrefix_spec s p : HasPrefix s p = true ↔ ∃ t, s = p +:+ t.
Proof.
  revert s; induction p as [|c p IH]; intros s; simpl.
  - split; [by exists s|by destruct s].
  - destruct s as [|d s]; simpl.
    + split; [done|]. intros [t Ht]. by rewrite sapp_cons in Ht.
    + rewrite andb_true_iff, bool_decide_eq_true, IH. split.
      * intros [-> [t ->]]. by exists t.
      * intros [t Ht]. rewrite sapp_cons in Ht. injection Ht as -> ->. eauto.
Qed.

#[global] Arguments HasPrefix : simpl never.

Lemma HasPrefix_app p t : HasPrefix (p +:+ t) p = true.
Proof. apply HasPrefix_spec. eauto. Qed.

Definition HasSuffix s p : bool :=
  bool_decide (String.length p ≤ String.length s) &&
  bool_decide (str_drop (String.length s - String.length p) s = p).

Lemma HasSuffix_spec s p : HasSuffix s p = true ↔ ∃ t, s = t +:+ p.
Proof.
  unfold HasSuffix. rewrite andb_true_iff, !bool_decide_eq_true. split.
  - intros [Hl Hd]. exists (str_take (String.length s - String.length p) s).
    rewrite <-Hd at 2. by rewrite str_take_drop.
  - intros [t ->]. rewrite slength_app. split; [lia|].
    apply str_drop_app'. lia.
Qed.

Lemma HasSuffix_app t p : HasSuffix (t +:+ p) p = true.
Proof. apply HasSuffix_spec. eauto. Qed.

Definition TrimPrefix s p : string :=
  if HasPrefix s p then str_drop (String.length p) s else s.
Definition TrimSuffix s p : string :=
  if HasSuffix s p then str_take (String.length s - String.length p) s else s.

Lemma TrimPrefix_app p t : TrimPrefix (p +:+ t) p = t.
Proof. unfold TrimPrefix. rewrite HasPrefix_app. apply str_drop_app. Qed.

Lemma TrimSuffix_app t p : TrimSuffix (t +:+ p) p = t.
Proof. unfold TrimSuffix. rewrite HasSuffix_app, slength_app. apply str_take_app'. lia. Qed.

(** ** Searching *)

(** [strings.Index]; [None] stands for -1. *)
Fixpoint Index s p : option nat :=
  if HasPrefix s p then Some 0
  else match s with "" => None | String _ s => S <$> Index s p end.

Lemma Index_Some s p n :
  Index s p = Some n → s = str_take n s +:+ p +:+ str_drop (n + String.length p) s.
Proof.
  revert n; induction s as [|c s IH]; intros n; simpl.
  - destruct p; simpl; [|done]. intros Hn. by simplify_eq/=.
  - destruct (HasPrefix (String c s) p) eqn:E.
    + intros Hn. injection Hn as <-. apply HasPrefix_spec in E as [t E]. simpl.
      rewrite E at 2. by rewrite str_drop_app.
    + destruct (Index s p) as [m|]; [|done]. intros Hn. simplify_eq/=.
      rewrite sapp_cons. f_equal. by apply IH.
Qed.

Lemma Index_None s p : Index s p = None → ∀ t q, s ≠ t +:+ p +:+ q.
Proof.
  induction s as [|c s IH]; simpl; intros H t q Hs.
  - destruct p; [done|]. destruct t; done.
  - destruct (HasPrefix (String c s) p) eqn:E; [done|].
    destruct (Index s p) eqn:E'; [done|]. destruct t as [|d t].
    + rewrite Hs in E. change ("" +:+ p +:+ q) with (p +:+ q) in E.
      by rewrite HasPrefix_app in E.
    + rewrite sapp_cons in Hs. injection Hs as -> Hs. by apply (IH eq_refl t q).
Qed.

(** Bytes of a string. *)
Fixpoint schars s : list Ascii.ascii :=
  match s with "" => [] | String c s => c :: schars s end.

Lemma schars_app s t : schars (s +:+ t) = schars s ++ schars t.
Proof. induction s; rewrite ?sapp_cons, ?sapp_nil_l; simpl; [done|]. by f_equal. Qed.

(** [strings.Contains] for a one-byte needle. *)
Definition Contains s (c : Ascii.ascii) : bool := bool_decide (c ∈ schars s).

Lemma Contains_app s t c : Contains (s +:+ t) c = Contains s c || Contains t c.
Proof.
  unfold Contains. rewrite schars_app.
  apply eq_bool_prop_intro. rewrite orb_True, !bool_decide_spec. apply elem_of_app.
Qed.

Lemma Contains_false_cons c d s : Contains (String c s) d = false ↔ c ≠ d ∧ Contains s d = false.
Proof. unfold Contains. rewrite !bool_decide_eq_false. simpl. rewrite not_elem_of_cons. naive_solver. Qed.

(** ** Splitting and joining on a one-byte separator *)

(** The text before and after the first separator. *)
Fixpoint cut_at (c : Ascii.ascii) s : option (string * string) :=
  match s with
  | "" => None
  | String d s =>
      if bool_decide (d = c) then Some ("", s)
      else prod_map (String d) id <$> cut_at c s
  end.

Fixpoint SplitN_go (n : nat) s (c : Ascii.ascii) : list string :=
  match n with
  | 0 => [s]
  | S n => match cut_at c s with
           | None => [s]
           | Some (a, b) => a :: SplitN_go n b c
           end
  end.

(** [strings.SplitN(s, c, n)] for [n > 0]: at most [n] pieces. *)
Definition SplitN s (c : Ascii.ascii) (n : nat) : list string := SplitN_go (n - 1) s c.

(** [strings.Split(s, c)]: a string of length [k] has at most [k] separators. *)
Definition Split s (c : Ascii.ascii) : list string := SplitN_go (String.length s) s c.

Definition Join (l : list string) (c : Ascii.ascii) : string :=
  match l with
  | [] => ""
  | s :: l => foldl (λ acc t, acc +:+ String c t) s l
  end.

Lemma cut_at_app c s t : Contains s c = false → cut_at c (s +:+ String c t) = Some (s, t).
Proof.
  induction s as [|d s IH]; intros Hs.
  - simpl. by rewrite bool_decide_true.
  - apply Contains_false_cons in Hs as [Hd Hs]. rewrite sapp_cons. simpl.
    rewrite bool_decide_false by done. by rewrite (IH Hs).
Qed.

Lemma cut_at_None c s : cut_at c s = None ↔ Contains s c = false.
Proof.
  induction s as [|d s IH]; simpl; [done|].
  rewrite Contains_false_cons. case_bool_decide; [naive_solver|].
  rewrite <-IH. destruct (cut_at c s); naive_solver.
Qed.

Lemma cut_at_Some c s a b :
  cut_at c s = Some (a, b) ↔ s = a +:+ String c b ∧ Contains a c = false.
Proof.
  split; [|by intros [-> ?]; apply cut_at_app].
  revert a; induction s as [|d s IH]; simpl; intros a; [done|].
  case_bool_decide as Hd; [intros [= <- <-]; by subst|].
  destruct (cut_at c s) as [[a' b']|]; [|done]. intros Hc. simplify_eq/=.
  destruct (IH a' eq_refl) as [-> ?]. by rewrite Contains_false_cons.
Qed.

Lemma SplitN_go_fuel n m s c :
  String.length s ≤ n → String.length s ≤ m → SplitN_go n s c = SplitN_go m s c.
Proof.
  revert m s; induction n as [|n IH]; intros [|m] s Hn Hm; simpl; [done|..].
  - assert (s = "") as -> by (apply slength_0; lia). done.
  - assert (s = "") as -> by (apply slength_0; lia). done.
  - destruct (cut_at c s) as [[a b]|] eqn:E; [|done].
    apply cut_at_Some in E as [-> _]. rewrite slength_app in *. simpl in *.
    f_equal. apply IH; lia.
Qed.

(** The recursion equation of [Split]. *)
Lemma Split_unfold s c :
  Split s c = match cut_at c s with None => [s] | Some (a, b) => a :: Split b c end.
Proof.
  unfold Split. destruct (cut_at c s) as [[a b]|] eqn:E.
  - apply cut_at_Some in E as [-> Ha]. rewrite slength_app. simpl.
    rewrite Nat.add_succ_r. simpl. rewrite cut_at_app by done. f_equal.
    apply SplitN_go_fuel; lia.
  - by destruct (String.length s); simpl; rewrite ?E.
Qed.

Lemma Split_no_sep s c : Contains s c = false → Split s c = [s].
Proof. intros H. rewrite Split_unfold. by apply cut_at_None in H as ->. Qed.

Lemma Split_app s t c : Contains s c = false → Split (s +:+ String c t) c = s :: Split t c.
Proof. intros H. rewrite Split_unfold. by rewrite cut_at_app. Qed.

Lemma SplitN_app s t c n :
  Contains s c = false → SplitN (s +:+ String c t) c (S (S n)) = s :: SplitN t c (S n).
Proof. intros H. unfold SplitN. simpl. rewrite cut_at_app by done. by rewrite Nat.sub_0_r. Qed.

Lemma SplitN_no_sep s c n : Contains s c = false → SplitN s c n = [s].
Proof. intros H. unfold SplitN. destruct (n - 1); simpl; [done|]. by apply cut_at_None in H as ->. Qed.

Lemma SplitN_1 s c : SplitN s c 1 = [s].
Proof. done. Qed.

Lemma foldl_sep_acc (c : Ascii.ascii) (l : list string) (a s : string) :
  foldl (λ acc t, acc +:+ String c t) (a +:+ s) l = a +:+ foldl (λ acc t, acc +:+ String c t) s l.
Proof. revert s; induction l as [|t l IH]; intros s; simpl; [done|]. by rewrite <-sapp_assoc, IH. Qed.

Lemma Join_cons s t l c : Join (s :: t :: l) c = s +:+ String c (Join (t :: l) c).
Proof.
  simpl. rewrite foldl_sep_acc. f_equal.
  change (String c t) with (String c "" +:+ t). by rewrite foldl_sep_acc.
Qed.

Lemma Join_nonempty s l c : s ≠ "" → Join (s :: l) c ≠ "".
Proof. destruct s; [done|]. destruct l; [done|]. by rewrite Join_cons, sapp_cons. Qed.

(** Splitting undoes joining when no piece contains the separator. *)
Lemma Split_Join l c :
  l ≠ [] → Forall (λ s, Contains s c = false) l → Split (Join l c) c = l.
Proof.
  induction l as [|s l IH]; [done|]. intros _ Hl.
  apply Forall_cons in Hl as [Hs Hl]. destruct l as [|t l].
  - by apply Split_no_sep.
  - rewrite Join_cons, Split_app by done. by rewrite IH.
Qed.

(** Joining undoes splitting. *)
Lemma Join_Split s c : Join (Split s c) c = s.
Proof.
  remember (String.length s) as n eqn:Hn. revert s Hn.
  induction n as [n IH] using lt_wf_ind; intros s ->.
  rewrite Split_unfold. destruct (cut_at c s) as [[a b]|] eqn:E; [|done].
  apply cut_at_Some in E as [-> _].
  pose proof (IH (String.length b)) as IHb. rewrite slength_app in IHb. simpl in IHb.
  specialize (IHb ltac:(lia) b eq_refl).
  destruct (Split b c) as [|t l] eqn:E.
  { exfalso. rewrite Split_unfold in E. by destruct (cut_at c b) as [[]|]. }
  by rewrite Join_cons, IHb.
Qed.

(** ** White space *)

Definition chr (n : nat) : Ascii.ascii := Ascii.ascii_of_nat n.
Definition bytes_of (l : list nat) : string := foldr (λ n s, String (chr n) s) "" l.

(** The UTF-8 encodings of the code points [unicode.IsSpace] accepts. *)
Definition space_seqs : list string :=
  bytes_of <$>
    [[9]; [10]; [11]; [12]; [13]; [32]; [194; 133]; [194; 160]; [225; 154; 128];
     [226; 128; 128]; [226; 128; 129]; [226; 128; 130]; [226; 128; 131]; [226; 128; 132];
     [226; 128; 133]; [226; 128; 134]; [226; 128; 135]; [226; 128; 136]; [226; 128; 137];
     [226; 128; 138]; [226; 128; 168]; [226; 128; 169]; [226; 128; 175]; [226; 129; 159];
     [227; 128; 128]].

(** The rest of the string after one leading element of [seqs]. *)
Fixpoint strip_one (seqs : list string) s : option string :=
  match seqs with
  | [] => None
  | p :: seqs => if HasPrefix s p then Some (str_drop (String.length p) s) else strip_one seqs s
  end.

Fixpoint strip_all (fuel : nat) (seqs : list string) s : string :=
  match fuel with
  | 0 => s
  | S n => match strip_one seqs s with None => s | Some s' => strip_all n seqs s' end
  end.

Definition TrimLeftSpace s : string := strip_all (String.length s) space_seqs s.
Definition TrimRightSpace s : string :=
  String.rev (strip_all (String.length s) (String.rev <$> space_seqs) (String.rev s)).

(** [strings.TrimSpace] and [bytes.TrimSpace]. *)
Definition TrimSpace s : string := TrimRightSpace (TrimLeftSpace s).

Lemma strip_all_none n seqs s : strip_one seqs s = None → strip_all n seqs s = s.
Proof. intros H. destruct n; simpl; by rewrite ?H. Qed.

Lemma rev_app_spec s t : String.rev_app s t = String.rev s +:+ t.
Proof.
  unfold String.rev. revert t; induction s as [|c s IH]; intros t; simpl; [done|].
  rewrite (IH (String c t)), (IH (String c "")), <-sapp_assoc. done.
Qed.

Lemma rev_cons c s : String.rev (String c s) = String.rev s +:+ String c "".
Proof. unfold String.rev. simpl. by rewrite rev_app_spec. Qed.

Lemma rev_app s t : String.rev (s +:+ t) = String.rev t +:+ String.rev s.
Proof.
  induction s as [|c s IH]; rewrite ?sapp_nil_l.
  - by rewrite sapp_nil_r.
  - by rewrite sapp_cons, !rev_cons, IH, sapp_assoc.
Qed.

Lemma rev_rev s : String.rev (String.rev s) = s.
Proof. induction s as [|c s IH]; [done|]. by rewrite rev_cons, rev_app, IH. Qed.

Lemma slength_rev s : String.length (String.rev s) = String.length s.
Proof. induction s as [|c s IH]; [done|]. rewrite rev_cons, slength_app, IH. simpl. lia. Qed.

(** A string that starts and ends with no white space is left unchanged. *)
Definition no_space_edges s : bool :=
  match strip_one space_seqs s, strip_one (String.rev <$> space_seqs) (String.rev s) with
  | None, None => true
  | _, _ => false
  end.

Lemma TrimSpace_id s : no_space_edges s = true → TrimSpace s = s.
Proof.
  unfold no_space_edges, TrimSpace, TrimRightSpace, TrimLeftSpace. intros H.
  destruct (strip_one space_seqs s) eqn:E; [done|].
  destruct (strip_one _ (String.rev s)) eqn:E'; [done|].
  rewrite (strip_all_none _ _ _ E), (strip_all_none _ _ _ E'). apply rev_rev.
Qed.

Lemma strip_one_length seqs s s' :
  Forall (λ p, p ≠ "") seqs → strip_one seqs s = Some s' → String.length s' < String.length s.
Proof.
  induction seqs as [|p seqs IH]; simpl; [done|].
  intros [Hp Hs]%Forall_cons. destruct (HasPrefix s p) eqn:E; [|by auto].
  intros [= <-]. apply HasPrefix_spec in E as [t ->]. rewrite slength_drop, slength_app.
  destruct p; [done|]. simpl. lia.
Qed.

Lemma strip_all_stops n seqs s :
  Forall (λ p, p ≠ "") seqs → String.length s ≤ n → strip_one seqs (strip_all n seqs s) = None.
Proof.
  intros Hseqs. revert s; induction n as [|n IH]; intros s Hn; simpl.
  - assert (s = "") as -> by (apply slength_0; lia).
    clear Hn. induction seqs as [|p seqs IHs]; simpl; [done|].
    apply Forall_cons in Hseqs as [Hp Hs]. destruct p; [done|]. by apply IHs.
  - destruct (strip_one seqs s) as [s'|] eqn:E; [|done].
    apply IH. apply strip_one_length in E; [lia|done].
Qed.

(** One leading space byte before a string. *)
Lemma strip_one_space s : strip_one space_seqs (String " "%char s) = Some s.
Proof. by destruct s. Qed.

Lemma TrimSpace_cons_space s : TrimSpace (String " "%char s) = TrimSpace s.
Proof.
  unfold TrimSpace. f_equal. unfold TrimLeftSpace.
  cbn [strip_all String.length]. by rewrite strip_one_space.
Qed.

(** ** Letter case *)

Definition lower_byte (c : Ascii.ascii) : Ascii.ascii :=
  let n := Ascii.nat_of_ascii c in
  if bool_decide (65 ≤ n ∧ n ≤ 90) then chr (n + 32) else c.

Fixpoint ToLower s : string :=
  match s with "" => "" | String c s => String (lower_byte c) (ToLower s) end.

Definition EqualFold s t : bool := bool_decide (ToLower s = ToLower t).

Lemma lower_byte_idemp c : lower_byte (lower_byte c) = lower_byte c.
Proof. destruct c as [[][][][][][][][]]; vm_compute; done. Qed.

Lemma ToLower_idemp s : ToLower (ToLower s) = ToLower s.
Proof. induction s; simpl; [done|]. by rewrite lower_byte_idemp, IHs. Qed.

Lemma ToLower_app s t : ToLower (s +:+ t) = ToLower s +:+ ToLower t.
Proof. induction s; rewrite ?sapp_cons, ?sapp_nil_l; simpl; [done|]. rewrite sapp_cons. by f_equal. Qed.

Lemma slength_ToLower s : String.length (ToLower s) = String.length s.
Proof. induction s; simpl; auto. Qed.

(** ** Numbers *)

Local Open Scope Z_scope.

Definition max_int64 : Z := 2 ^ 63 - 1.
Definition min_int64 : Z := - 2 ^ 63.

Definition digit_of (c : Ascii.ascii) : option Z :=
  let n := Ascii.nat_of_ascii c in
  if bool_decide (48 ≤ n ∧ n ≤ 57)%nat then Some (Z.of_nat n - 48) else None.

Fixpoint parse_digits (acc : Z) s : option Z :=
  match s with
  | "" => Some acc
  | String c s => match digit_of c with Some d => parse_digits (acc * 10 + d) s | None => None end
  end.

(** [strconv.Atoi] with the error dropped: 0 on a syntax error, the nearest
    64-bit integer when out of range. *)
Definition Atoi_value s : Z :=
  let '(neg, digits) := match s with
                        | String "+"%char t => (false, t)
                        | String "-"%char t => (true, t)
                        | _ => (false, s)
                        end in
  match digits with
  | "" => 0
  | _ => match parse_digits 0 digits with
         | None => 0
         | Some n => if neg then Z.max min_int64 (- n) else Z.min max_int64 n
         end
  end.

Definition Itoa (n : Z) : string := pretty n.
Definition itoa (n : nat) : string := pretty n.

Example Atoi_200 : Atoi_value "200" = 200.
Proof. reflexivity. Qed.
Example Atoi_bad : Atoi_value "2x" = 0.
Proof. reflexivity. Qed.

Local Close Scope Z_scope.

(** [%03d] for a non-negative integer. *)
Definition pad3 (n : nat) : string :=
  let s := pretty n in
  match String.length s with
  | 0 | 1 => "00" +:+ s
  | 2 => "0" +:+ s
  | _ => s
  end.

Definition hex_digit (n : nat) : Ascii.ascii :=
  default "0"%char ((schars "0123456789abcdef") !! n).

(** [strconv.Quote] ([%q]); bytes of valid printable UTF-8 sequences are kept. *)
Definition quote_byte (c : Ascii.ascii) : string :=
  let n := Ascii.nat_of_ascii c in
  if bool_decide (n = 34) then bytes_of [92; 34]
  else if bool_decide (n = 92) then bytes_of [92; 92]
  else if bool_decide (n = 7) then bytes_of [92; 97]
  else if bool_decide (n = 8) then bytes_of [92; 98]
  else if bool_decide (n = 9) then bytes_of [92; 116]
  else if bool_decide (n = 10) then bytes_of [92; 110]
  else if bool_decide (n = 11) then bytes_of [92; 118]
  else if bool_decide (n = 12) then bytes_of [92; 102]
  else if bool_decide (n = 13) then bytes_of [92; 114]
  else if bool_decide (n < 32 ∨ n = 127) then
    bytes_of [92; 120] +:+ String (hex_digit (n / 16)) (String (hex_digit (n mod 16)) "")
  else String c "".

Definition dquote : string := bytes_of [34].

Definition Quote s : string :=
  dquote +:+ foldr (λ c acc, quote_byte c +:+ acc) "" (schars s) +:+ dquote.

(** No decimal numeral contains a slash. *)
Lemma pretty_N_go_no_char (x : N) (c : Ascii.ascii) s :
  (∀ d : N, pretty_N_char d ≠ c) → Contains s c = false → Contains (pretty_N_go x s) c = false.
Proof.
  intros Hc. revert s. induction (N.lt_wf_0 x) as [x _ IH]; intros s Hs.
  destruct (decide (0 < x)%N) as [Hx|Hx].
  - rewrite pretty_N_go_step by done. apply IH; [apply N.div_lt; done|].
    apply Contains_false_cons. eauto.
  - assert (x = 0)%N as -> by lia. by rewrite pretty_N_go_0.
Qed.

Lemma pretty_digits_no_char (x : N) (c : Ascii.ascii) :
  (∀ d : N, pretty_N_char d ≠ c) → Contains (pretty x) c = false.
Proof.
  intros Hc. unfold pretty, pretty_N. case_decide.
  - apply Contains_false_cons. split; [apply (Hc 0%N)|done].
  - by apply pretty_N_go_no_char.
Qed.

Lemma pretty_nat_no_char (n : nat) (c : Ascii.ascii) :
  (∀ d : N, pretty_N_char d ≠ c) → Contains (pretty n) c = false.
Proof. intros Hc. apply pretty_digits_no_char, Hc. Qed.

Lemma pretty_N_char_digit (d : N) : is_Some (digit_of (pretty_N_char d)).
Proof. unfold pretty_N_char. repeat case_match; by vm_compute; eauto. Qed.

Lemma pretty_nat_no_nondigit (n : nat) c : digit_of c = None → Contains (pretty n) c = false.
Proof.
  intros Hc. apply pretty_nat_no_char. intros d <-.
  destruct (pretty_N_char_digit d) as [x Hx]. congruence.
Qed.

Lemma pretty_nat_no_slash (n : nat) : Contains (pretty n) "/"%char = false.
Proof. by apply pretty_nat_no_nondigit. Qed.

(** A prefix with no [c] cannot reach across a [c]. *)
Lemma HasPrefix_sep s t p c :
  Contains p c = false → HasPrefix (s +:+ String c t) p = HasPrefix s p.
Proof.
  revert p; induction s as [|d s IH]; intros [|e p] Hp; try done.
  - apply Contains_false_cons in Hp as [He _]. unfold HasPrefix. simpl.
    by rewrite bool_decide_false.
  - apply Contains_false_cons in Hp as [_ Hp]. rewrite sapp_cons.
    unfold HasPrefix; fold HasPrefix. by rewrite IH.
Qed.

Lemma strip_one_None seqs s :
  strip_one seqs s = None ↔ Forall (λ p, HasPrefix s p = false) seqs.
Proof.
  induction seqs as [|p seqs IH]; simpl; [by split|].
  rewrite Forall_cons, <-IH. destruct (HasPrefix s p); naive_solver.
Qed.

Lemma strip_one_sep seqs s t c :
  Forall (λ p, Contains p c = false) seqs →
  strip_one seqs s = None → strip_one seqs (s +:+ String c t) = None.
Proof.
  rewrite !strip_one_None, !Forall_forall. intros Hc Hs p Hp.
  rewrite HasPrefix_sep; auto.
Qed.

Lemma no_space_edges_spec s :
  no_space_edges s = true ↔
  strip_one space_seqs s = None ∧ strip_one (String.rev <$> space_seqs) (String.rev s) = None.
Proof.
  unfold no_space_edges. generalize (strip_one space_seqs s), (strip_one (String.rev <$> space_seqs) (String.rev s)).
  intros [] []; naive_solver.
Qed.

(** Gluing trimmed strings with a colon gives a trimmed string. *)
Lemma no_space_edges_colon s t :
  no_space_edges s = true → no_space_edges t = true →
  no_space_edges (s +:+ ":" +:+ t) = true.
Proof.
  rewrite !no_space_edges_spec. intros [Hs _] [_ Ht]. change (":" +:+ t) with (String ":" t).
  split.
  - apply strip_one_sep; [|done]. by vm_compute; repeat constructor.
  - rewrite rev_app, rev_cons, <-sapp_assoc. apply strip_one_sep; [|done].
    by vm_compute; repeat constructor.
Qed.

(** [strings.LastIndex]. *)
Fixpoint LastIndex s p : option nat :=
  match s with
  | "" => if HasPrefix s p then Some 0 else None
  | String _ s' => match LastIndex s' p with Some i => Some (S i) | None => if HasPrefix s p then Some 0 else None end
  end.

(** ** Hexadecimal ([encoding/hex]) and trimming of one byte *)

Definition hex_byte (c : ascii) : string :=
  let n := nat_of_ascii c in String (hex_digit (n / 16)) (String (hex_digit (n mod 16)) "").

Fixpoint hex_EncodeToString s : string :=
  match s with "" => "" | String c s => hex_byte c +:+ hex_EncodeToString s end.

Definition is_hex_char (c : ascii) : bool := bool_decide (c ∈ schars "0123456789abcdef").

Lemma hex_byte_ok c :
  ∃ a b, hex_byte c = String a (String b "") ∧ is_hex_char a = true ∧ is_hex_char b = true.
Proof. do 2 eexists. split; [reflexivity|]. by destruct c as [[][][][][][][][]]. Qed.

Lemma slength_hex s : String.length (hex_EncodeToString s) = 2 * String.length s.
Proof.
  induction s as [|c s IH]; [done|]. cbn [hex_EncodeToString]. rewrite slength_app, IH.
  destruct (hex_byte_ok c) as (a & b & -> & _). simpl. lia.
Qed.

Lemma hex_chars s : Forall (λ c, is_hex_char c = true) (schars (hex_EncodeToString s)).
Proof.
  induction s as [|c s IH]; [constructor|]. cbn [hex_EncodeToString]. rewrite schars_app.
  destruct (hex_byte_ok c) as (a & b & -> & ? & ?). by repeat constructor.
Qed.

Lemma hex_not_contains s c : is_hex_char c = false → Contains (hex_EncodeToString s) c = false.
Proof.
  intros Hc. unfold Contains. apply bool_decide_eq_false. intros Hin.
  pose proof (hex_chars s) as H. rewrite Forall_forall in H. specialize (H _ Hin). congruence.
Qed.

Lemma ToLower_hex s : ToLower (hex_EncodeToString s) = hex_EncodeToString s.
Proof.
  induction s as [|c s IH]; [done|]. cbn [hex_EncodeToString]. rewrite ToLower_app, IH. f_equal.
  by destruct c as [[][][][][][][][]].
Qed.

(** [strings.TrimLeft(s, c)], [strings.TrimRight(s, c)] and [strings.Trim(s, c)]. *)
Fixpoint TrimLeft s (c : ascii) : string :=
  match s with
  | "" => ""
  | String d s' => if bool_decide (d = c) then TrimLeft s' c else s
  end.
Definition TrimRight s (c : ascii) : string := String.rev (TrimLeft (String.rev s) c).
Definition Trim s (c : ascii) : string := TrimRight (TrimLeft s c) c.

Lemma slength_TrimLeft s c : String.length (TrimLeft s c) ≤ String.length s.
Proof. induction s; simpl; [done|]. case_bool_decide; simpl; lia. Qed.

Lemma slength_TrimRight s c : String.length (TrimRight s c) ≤ String.length s.
Proof.
  unfold TrimRight. rewrite slength_rev.
  pose proof (slength_TrimLeft (String.rev s) c). rewrite slength_rev in *. done.
Qed.

Lemma slength_Trim s c : String.length (Trim s c) ≤ String.length s.
Proof.
  unfold Trim. pose proof (slength_TrimRight (TrimLeft s c) c). pose proof (slength_TrimLeft s c). lia.
Qed.

(** ** Printable ASCII *)

Definition is_graphic (c : ascii) : bool := (33 <=? nat_of_ascii c) && (nat_of_ascii c <=? 126).

Lemma schars_rev s : schars (String.rev s) = reverse (schars s).
Proof. induction s as [|c s IH]; [done|]. rewrite rev_cons, schars_app, IH. simpl. by rewrite reverse_cons. Qed.

Definition starts_graphic (p : string) : bool :=
  match p with String c _ => is_graphic c | _ => true end.

Lemma strip_one_graphic seqs s :
  forallb (λ p, negb (starts_graphic p)) seqs = true →
  Forall (λ c, is_graphic c = true) (schars s) → strip_one seqs s = None.
Proof.
  rewrite forallb_forall. intros Hseqs Hs. apply strip_one_None, Forall_forall. intros p Hp.
  specialize (Hseqs p). rewrite <-list_elem_of_In in Hseqs. specialize (Hseqs Hp).
  destruct p as [|c p]; [done|]. destruct s as [|c' s]; [done|].
  apply Forall_cons in Hs as [Hs _]. destruct (HasPrefix _ _) eqn:E; [|done].
  apply HasPrefix_spec in E as [t Ht]. rewrite sapp_cons in Ht. injection Ht as -> _.
  simpl in Hseqs. by rewrite Hs in Hseqs.
Qed.

(** A string of printable non-space ASCII bytes has nothing to trim. *)
Lemma TrimSpace_graphic s : Forall (λ c, is_graphic c = true) (schars s) → TrimSpace s = s.
Proof.
  intros Hs. apply TrimSpace_id, no_space_edges_spec. split; apply strip_one_graphic.
  - vm_compute. reflexivity.
  - done.
  - vm_compute. reflexivity.
  - rewrite schars_rev. by apply Forall_reverse.
Qed.

(** ** UTF-8 *)

Definition in_range (lo hi : nat) (c : ascii) : bool :=
  (lo <=? nat_of_ascii c) && (nat_of_ascii c <=? hi).

(** The bytes of one well-formed UTF-8 sequence after its first byte: the range
    of the second one and how many continuation bytes follow it. *)
Definition utf8_lead (c : ascii) : option (nat * nat * nat) :=
  let n := nat_of_ascii c in
  if (194 <=? n) && (n <=? 223) then Some (128, 191, 0)
  else if n =? 224 then Some (160, 191, 1)
  else if n =? 237 then Some (128, 159, 1)
  else if (225 <=? n) && (n <=? 239) then Some (128, 191, 1)
  else if n =? 240 then Some (144, 191, 2)
  else if (241 <=? n) && (n <=? 243) then Some (128, 191, 2)
  else if n =? 244 then Some (128, 143, 2)
  else None.

(** [utf8.Valid]. *)
Fixpoint utf8_Valid (s : string) : bool :=
  match s with
  | "" => true
  | String c s1 =>
      if nat_of_ascii c <? 128 then utf8_Valid s1
      else
        match utf8_lead c, s1 with
        | Some (lo, hi, 0), String c1 s2 => in_range lo hi c1 && utf8_Valid s2
        | Some (lo, hi, 1), String c1 (String c2 s3) =>
            in_range lo hi c1 && in_range 128 191 c2 && utf8_Valid s3
        | Some (lo, hi, 2), String c1 (String c2 (String c3 s4)) =>
            in_range lo hi c1 && in_range 128 191 c2 && in_range 128 191 c3 && utf8_Valid s4
        | _, _ => false
        end
  end.

Example utf8_euro : utf8_Valid (bytes_of [226; 130; 172; 65]) = true.
Proof. reflexivity. Qed.
Example utf8_surrogate : utf8_Valid (bytes_of [237; 160; 128]) = false.
Proof. reflexivity. Qed.

(** ** Concatenation of pieces *)

Definition sconcat (l : list string) : string := foldr (λ s acc, s +:+ acc) "" l.

Lemma sconcat_cons s l : sconcat (s :: l) = s +:+ sconcat l.
Proof. done. Qed.

Lemma sconcat_app l1 l2 : sconcat (l1 ++ l2) = sconcat l1 +:+ sconcat l2.
Proof.
  induction l1 as [|s l1 IH]; [by rewrite sapp_nil_l|].
  change ((s :: l1) ++ l2) with (s :: (l1 ++ l2)). by rewrite !sconcat_cons, IH, sapp_assoc.
Qed.

Lemma str_drop_le n s t : n ≤ String.length s → str_drop n (s +:+ t) = str_drop n s +:+ t.
Proof.
  revert n. induction s as [|c s IH]; intros [|n] Hn; simpl in Hn; try lia; rewrite ?str_drop_0; try done.
  rewrite sapp_cons. simpl. apply IH. lia.
Qed.

(** Cutting a text in two at the end of one of its prefixes. *)
Lemma str_drop_split n d s :
  HasPrefix s d = true → n ≤ String.length d →
  str_drop n d +:+ str_drop (String.length d) s = str_drop n s.
Proof. intros [t ->]%HasPrefix_spec Hn. by rewrite str_drop_app, str_drop_le. Qed.

(** ** Searching *)

Lemma HasPrefix_cons c s d p : HasPrefix (String c s) (String d p) = bool_decide (d = c) && HasPrefix s p.
Proof. reflexivity. Qed.

Lemma HasPrefix_app_l s t p : String.length p ≤ String.length s → HasPrefix (s +:+ t) p = HasPrefix s p.
Proof.
  revert p. induction s as [|c s IH]; intros [|d p] Hl; simpl in Hl; try lia; [by destruct t|done|].
  rewrite sapp_cons, !HasPrefix_cons. f_equal. apply IH. lia.
Qed.

Lemma Index_le s p n : Index s p = Some n → n + String.length p ≤ String.length s.
Proof.
  assert (∀ s, HasPrefix s p = true → String.length p ≤ String.length s) as Hp.
  { intros s' [t ->]%HasPrefix_spec. rewrite slength_app. lia. }
  revert n. induction s as [|c s IH]; intros n; simpl.
  - destruct (HasPrefix "" p) eqn:E; [|done]. intros [= <-]. by apply (Hp "").
  - destruct (HasPrefix (String c s) p) eqn:E; [intros [= <-]; by apply Hp in E|].
    destruct (Index s p) as [m|]; [|done]. intros [= <-]. specialize (IH m eq_refl). lia.
Qed.

Lemma Index_app_l s t p n : Index s p = Some n → Index (s +:+ t) p = Some n.
Proof.
  revert n. induction s as [|c s IH]; intros n Hn.
  - apply Index_le in Hn as Hl. simpl in Hl. assert (p = "") as -> by (apply slength_0; lia).
    simpl in Hn. injection Hn as <-. by destruct t.
  - pose proof (Index_le _ _ _ Hn) as Hl. simpl in Hn. rewrite sapp_cons. simpl.
    rewrite <-(sapp_cons c), HasPrefix_app_l by lia.
    destruct (HasPrefix (String c s) p); [done|].
    destruct (Index s p) as [m|] eqn:E; [|done]. by rewrite (IH m).
Qed.

Lemma Index_app_fresh s c p t :
  Contains s c = false → Index (s +:+ String c p +:+ t) (String c p) = Some (String.length s).
Proof.
  induction s as [|d s IH]; intros Hs.
  - rewrite sapp_nil_l. pose proof (HasPrefix_app (String c p) t) as H. rewrite sapp_cons in *. cbn [Index]. by rewrite H.
  - apply Contains_false_cons in Hs as [Hd Hs]. rewrite sapp_cons. cbn [Index String.length].
    rewrite (IH Hs). destruct (HasPrefix _ _) eqn:E; [|done].
    apply HasPrefix_spec in E as [q E]. rewrite sapp_cons in E. by injection E as ->.
Qed.
