(* ===== verification/GoNum.v ===== *)
(** * Go's machine integers and [float64]

    Integers are [Z] with the wrap-around of their width written out; a
    [float64] is the Standard Library's specification of IEEE-754 binary64. *)

From Stdlib Require Import ZArith Lia SpecFloat.
From stdpp Require Import base numbers.
From S2P Require Import Prelude.

Local Open Scope Z_scope.

(** ** Integers *)

Definition uint32 (x : Z) : Z := x mod 2 ^ 32.
Definition uint64 (x : Z) : Z := x mod 2 ^ 64.
Definition int64 (x : Z) : Z := (x + 2 ^ 63) mod 2 ^ 64 - 2 ^ 63.

Definition in_uint32 (x : Z) : Prop := 0 ≤ x < 2 ^ 32.
Definition in_int64 (x : Z) : Prop := - 2 ^ 63 ≤ x < 2 ^ 63.

Lemma uint32_range x : in_uint32 (uint32 x).
Proof. unfold in_uint32, uint32. apply Z.mod_pos_bound. lia. Qed.

Lemma uint32_id x : in_uint32 x → uint32 x = x.
Proof. unfold in_uint32, uint32. apply Z.mod_small. Qed.

Lemma int64_id x : in_int64 x → int64 x = x.
Proof. unfold in_int64, int64. intros. rewrite Z.mod_small; lia. Qed.

Lemma uint32_add_l x y : uint32 (uint32 x + y) = uint32 (x + y).
Proof. unfold uint32. apply Zplus_mod_idemp_l. Qed.

(** Truncating a wrapped 64-bit sum to 32 bits is truncating the sum. *)
Lemma uint32_int64 x : uint32 (int64 x) = uint32 x.
Proof.
  unfold uint32, int64. rewrite (Z.mod_eq (x + 2 ^ 63)) by lia.
  replace (x + 2 ^ 63 - 2 ^ 64 * ((x + 2 ^ 63) / 2 ^ 64) - 2 ^ 63)
    with (x + (- 2 ^ 32 * ((x + 2 ^ 63) / 2 ^ 64)) * 2 ^ 32) by lia.
  apply Z_mod_plus_full.
Qed.

(** ** Floating point *)

Definition float64 : Type := spec_float.

Definition f64_of_Z (z : Z) : float64 := binary_normalize 53 1024 z 0 false.
Definition f64_add : float64 → float64 → float64 := SFadd 53 1024.
Definition f64_mul : float64 → float64 → float64 := SFmul 53 1024.
Definition f64_div : float64 → float64 → float64 := SFdiv 53 1024.

#[global] Instance float64_eq_dec : EqDecision float64.
Proof. unfold float64. solve_decision. Defined.

(** The numerator and binary exponent of a finite float. *)
Definition f64_is_Z (f : float64) (z : Z) : Prop :=
  match f with
  | S754_zero _ => z = 0
  | S754_finite s m e => e ≤ 0 ∧ (if s then Z.neg m else Z.pos m) = z * 2 ^ (- e)
  | _ => False
  end.

Lemma digits2_pos_bounds m :
  2 ^ (Z.pos (digits2_pos m) - 1) ≤ Z.pos m < 2 ^ Z.pos (digits2_pos m).
Proof.
  induction m as [m IH|m IH|]; cbn [digits2_pos]; [..|done];
    rewrite Pos2Z.inj_succ, <-Z.add_1_r;
    replace (Z.pos (digits2_pos m) + 1 - 1) with (Z.pos (digits2_pos m) - 1 + 1) by lia;
    rewrite !Z.pow_add_r by lia; lia.
Qed.

Lemma digits2_pos_unique m n :
  0 < n → 2 ^ (n - 1) ≤ Z.pos m < 2 ^ n → Z.pos (digits2_pos m) = n.
Proof.
  intros Hn Hm. pose proof (digits2_pos_bounds m) as Hd.
  destruct (Z.lt_trichotomy (Z.pos (digits2_pos m)) n) as [H|[H|H]]; [exfalso|done|exfalso].
  - assert (2 ^ Z.pos (digits2_pos m) ≤ 2 ^ (n - 1)) by (apply Z.pow_le_mono_r; lia). lia.
  - assert (2 ^ n ≤ 2 ^ (Z.pos (digits2_pos m) - 1)) by (apply Z.pow_le_mono_r; lia). lia.
Qed.

(** A 53-digit significand is already normalised. *)
Lemma binary_round_aux_53 m e :
  Z.pos (digits2_pos m) = 53 → -1074 ≤ e ≤ 971 →
  binary_round_aux 53 1024 false (Z.pos m) e loc_Exact = S754_finite false m e.
Proof.
  intros Hd He. unfold binary_round_aux, shr_fexp, fexp, emin. cbn [Zdigits2].
  rewrite Hd. replace (Z.max (53 + e - 53) (3 - 1024 - 53) - e) with 0 by lia.
  cbn. rewrite Hd. replace (Z.max (53 + e - 53) _ - e) with 0 by lia.
  cbn. rewrite Zle_imp_le_bool by lia. done.
Qed.

Lemma Pos_iter_xO m p : Z.pos (Pos.iter xO m p) = Z.pos m * 2 ^ Z.pos p.
Proof.
  induction p as [|p IH] using Pos.peano_ind; [simpl; lia|].
  rewrite Pos.iter_succ, Pos2Z.inj_succ, Z.pow_succ_r by lia. lia.
Qed.

(** The significand of an integer below 2^53, shifted to 53 digits. *)
Lemma normal_bounds m :
  Z.pos m < 2 ^ 53 →
  Z.pos (digits2_pos m) ≤ 53 ∧ 2 ^ 52 ≤ Z.pos m * 2 ^ (53 - Z.pos (digits2_pos m)) < 2 ^ 53.
Proof.
  intros Hm. pose proof (digits2_pos_bounds m) as Hb. set (d := Z.pos (digits2_pos m)) in *.
  assert (0 < d) by lia.
  assert (d ≤ 53) as Hd.
  { destruct (Z.le_gt_cases d 53) as [|Hgt]; [done|].
    assert (2 ^ 53 ≤ 2 ^ (d - 1)) by (apply Z.pow_le_mono_r; lia). lia. }
  split_and!; [done|..].
  - replace (2 ^ 52) with (2 ^ (d - 1) * 2 ^ (53 - d)); [|rewrite <-Z.pow_add_r; [f_equal|..]; lia].
    apply Z.mul_le_mono_nonneg_r; lia.
  - replace (2 ^ 53) with (2 ^ d * 2 ^ (53 - d)); [|rewrite <-Z.pow_add_r; [f_equal|..]; lia].
    apply Z.mul_lt_mono_pos_r; lia.
Qed.

Lemma f64_of_pos m :
  Z.pos m < 2 ^ 53 →
  f64_of_Z (Z.pos m) =
    S754_finite false (Z.to_pos (Z.pos m * 2 ^ (53 - Z.pos (digits2_pos m))))
      (Z.pos (digits2_pos m) - 53).
Proof.
  intros Hm. unfold f64_of_Z, binary_normalize, binary_round.
  destruct (normal_bounds m Hm) as [Hd Hr]. set (d := Z.pos (digits2_pos m)) in *.
  assert (Z.pos (digits2_pos (Z.to_pos (Z.pos m * 2 ^ (53 - d)))) = 53) as H53.
  { apply digits2_pos_unique; [lia|]. rewrite Z2Pos.id; lia. }
  replace (fexp 53 1024 (d + 0)) with (d - 53) by (unfold fexp, emin; lia).
  unfold shl_align. rewrite Z.sub_0_r.
  destruct (d - 53) as [|p|p] eqn:E; [..|]; [|lia|].
  - replace (53 - d) with 0 in * by lia. rewrite Z.mul_1_r in *. simpl in H53.
    apply binary_round_aux_53; [done|lia].
  - assert (Z.pos (Pos.iter xO m p) = Z.pos m * 2 ^ (53 - d)) as Hs.
    { replace (53 - d) with (Z.pos p) by lia. apply Pos_iter_xO. }
    rewrite <-Hs in H53 |- *. simpl in H53 |- *. apply binary_round_aux_53; [done|lia].
Qed.

(** Integers below 2^53 convert to [float64] exactly. *)
Lemma f64_of_Z_exact z : 0 ≤ z < 2 ^ 53 → f64_is_Z (f64_of_Z z) z.
Proof.
  intros Hz. destruct z as [|m|m]; [done| |lia].
  destruct (normal_bounds m) as [Hd _]; [lia|].
  rewrite f64_of_pos by lia. simpl. split; [lia|].
  rewrite Z2Pos.id; [f_equal; f_equal; lia|].
  apply Z.mul_pos_pos; [lia|]. apply Z.pow_pos_nonneg; lia.
Qed.

Lemma f64_is_Z_inj f z z' : f64_is_Z f z → f64_is_Z f z' → z = z'.
Proof.
  destruct f as [|?| |s m e]; simpl; [congruence|done|done|].
  intros [He H] [_ H']. rewrite H in H'.
  apply Z.mul_cancel_r in H'; [done|]. apply Z.pow_nonzero; lia.
Qed.

(** Distinct integers below 2^53 have distinct conversions. *)
Lemma f64_of_Z_inj z z' :
  0 ≤ z < 2 ^ 53 → 0 ≤ z' < 2 ^ 53 → f64_of_Z z = f64_of_Z z' → z = z'.
Proof.
  intros Hz Hz' H. apply (f64_is_Z_inj (f64_of_Z z)); [by apply f64_of_Z_exact|].
  rewrite H. by apply f64_of_Z_exact.
Qed.
