(* ===== verification/InternalApi.v ===== *)
(** * Shared names and small parsers

    Models [internal/internalapi] (header names, backend names, the
    header-to-attribute mappings, the endpoint prefixes, user-facing errors)
    and [internal/requestheaderattrs].  A nil Go map and an empty one are not
    distinguished by any caller and are both the empty [gmap]. *)

From Stdlib Require Import Ascii.
From stdpp Require Import base gmap strings list pretty sorting.
From S2P Require Import Prelude GoStrings.

(** ** Constants *)

Definition EnvoyAIGatewayHeaderPrefix : string := "x-ai-eg-".
Definition EnvoyOriginalPathHeader : string := "x-envoy-original-path".
Definition OriginalPathHeader : string := EnvoyAIGatewayHeaderPrefix +:+ "original-path".
Definition UpstreamHostHeader : string := EnvoyAIGatewayHeaderPrefix +:+ "upstream-host".
Definition ModelNameHeaderKeyDefault : string := "x-ai-eg-model".
Definition AIGatewayFilterMetadataNamespace : string := "io.envoy.ai_gateway".
Definition EndpointPickerHeaderKey : string := "x-gateway-destination-endpoint".
Definition XDSClusterMetadataBackendNamePath : string :=
  "xds.cluster_metadata.filter_metadata['aigateway.envoy.io']['per_route_rule_backend_name']".
Definition XDSUpstreamHostMetadataBackendNamePath : string :=
  "xds.upstream_host_metadata.filter_metadata['aigateway.envoy.io']['per_route_rule_backend_name']".
Definition XDSUpstreamHostMetadataUpstreamHostPath : string :=
  "xds.upstream_host_metadata.filter_metadata['aigateway.envoy.io']['upstream_host']".
Definition XDSRouteMetadataRouteNamePath : string :=
  "xds.route_metadata.filter_metadata['aigateway.envoy.io']['aigw_route_name']".

(** A header of a translation or auth result: [type Header [2]string]. *)
Notation Header := (string * string)%type.

Definition AWSCredentialOverrideHeaderNames (prefix : string) : string * string * string :=
  (prefix +:+ "access-key-id", prefix +:+ "secret-access-key", prefix +:+ "session-token").

(** ** User-facing errors *)

Definition GetUserFacingError (e : error) : option error :=
  if errors_Is e ErrMalformedRequest then Some e
  else if errors_Is e ErrInvalidRequestBody then Some e
  else None.

Definition ValidateLogFormat (format : string) : outcome unit :=
  if bool_decide (format ≠ "text") && bool_decide (format ≠ "json") then
    Fail (errors_New ("invalid log format: " +:+ Quote format +:+ ", must be " +:+
                      Quote "text" +:+ " or " +:+ Quote "json"))
  else Ok tt.

(** ** Backend names *)

Definition PerRouteRuleRefBackendName
    (namespace name routeName : string) (routeRuleIndex refIndex : nat) : string :=
  namespace +:+ "/" +:+ name +:+ "/route/" +:+ routeName +:+
  "/rule/" +:+ itoa routeRuleIndex +:+ "/ref/" +:+ itoa refIndex.

Definition AIServiceBackendName (perRouteRuleRefBackendName : string) : string :=
  match SplitN perRouteRuleRefBackendName "/" 3 with
  | a :: b :: _ => a +:+ "/" +:+ b
  | _ => perRouteRuleRefBackendName
  end.

Definition NamespaceAndNameFromBackendName (backendName : string) : string * string * bool :=
  match SplitN backendName "/" 3 with
  | ns :: name :: _ =>
      if bool_decide (ns = "") || bool_decide (name = "") then ("", "", false)
      else (ns, name, true)
  | _ => ("", "", false)
  end.

(** ** The Bedrock host pattern

    [(?:^|\.)bedrock-runtime(?:-fips)?\.([a-z0-9-]+)\.(?:vpce\.amazonaws\.com|amazonaws\.com|api\.aws)$].
    The region class has no dot and is followed by one, so at each position
    there is at most one match; [FindStringSubmatch] reports the leftmost. *)

Definition region_byte (c : ascii) : bool :=
  let n := nat_of_ascii c in
  bool_decide (97 ≤ n ∧ n ≤ 122) || bool_decide (48 ≤ n ∧ n ≤ 57) || bool_decide (n = 45).

Definition awsHostSuffixes : list string := ["vpce.amazonaws.com"; "amazonaws.com"; "api.aws"].

(** The part of the pattern after the left anchor, at the start of [s]. *)
Definition awsBedrockHost_here (s : string) : option string :=
  if HasPrefix s "bedrock-runtime" then
    let s1 := TrimPrefix (TrimPrefix s "bedrock-runtime") "-fips" in
    if HasPrefix s1 "." then
      match cut_at "." (TrimPrefix s1 ".") with
      | Some (region, rest) =>
          if negb (bool_decide (region = "")) && forallb region_byte (schars region)
             && bool_decide (rest ∈ awsHostSuffixes)
          then Some region else None
      | None => None
      end
    else None
  else None.

(** A match that starts at a dot, leftmost first. *)
Fixpoint awsBedrockHost_dots (s : string) : option string :=
  match s with
  | "" => None
  | String c s' =>
      if bool_decide (c = "."%char) then
        match awsBedrockHost_here s' with
        | Some r => Some r
        | None => awsBedrockHost_dots s'
        end
      else awsBedrockHost_dots s'
  end.

Definition AWSBedrockRegionFromHost (host : string) : string :=
  match awsBedrockHost_here host with
  | Some r => r
  | None => default "" (awsBedrockHost_dots host)
  end.

Example region_vpce :
  AWSBedrockRegionFromHost "vpce-1.bedrock-runtime.us-east-1.vpce.amazonaws.com" = "us-east-1".
Proof. reflexivity. Qed.
Example region_fips :
  AWSBedrockRegionFromHost "bedrock-runtime-fips.us-east-1.amazonaws.com" = "us-east-1".
Proof. reflexivity. Qed.
Example region_spoof :
  AWSBedrockRegionFromHost "bedrock-runtime.us-east-1.amazonaws.com.evil.com" = "".
Proof. reflexivity. Qed.

(** ** Header-to-attribute mappings *)

(** One iteration of the loop over the comma-separated pairs; the accumulator
    carries the loop index. *)
Definition parseMappingPair (acc : nat * gmap string string) (pair0 : string) :
    outcome (nat * gmap string string) :=
  let '(i, result) := acc in
  let pair := TrimSpace pair0 in
  let pos := itoa (i + 1) in
  if bool_decide (pair = "") then
    Fail (errors_New ("empty header-attribute pair at position " +:+ pos))
  else match SplitN pair ":" 2 with
  | [h; a] =>
      let header := TrimSpace h in
      let attribute := TrimSpace a in
      if bool_decide (header = "") || bool_decide (attribute = "") then
        Fail (errors_New ("empty header or attribute at position " +:+ pos +:+ ": " +:+ Quote pair))
      else Ok (S i, <[header := attribute]> result)
  | _ => Fail (errors_New ("invalid header-attribute pair at position " +:+ pos +:+ ": " +:+
               Quote pair +:+ " (expected format: header:attribute)"))
  end.

Definition ParseRequestHeaderAttributeMapping (s : string) : outcome (gmap string string) :=
  if bool_decide (s = "") then Ok ∅
  else let! r := ofold parseMappingPair (0, ∅) (Split s ",") in Ok r.2.

(** [maps.Copy(merged, base); maps.Copy(merged, override)]. *)
Definition MergeRequestHeaderAttributeMappings (base override : gmap string string) :
    gmap string string := override ∪ base.

Definition sorted_keys (m : gmap string string) : list string :=
  merge_sort String.le (map_to_list m).*1.

Definition FormatRequestHeaderAttributeMapping (m : gmap string string) : string :=
  (foldl (λ '(i, b) k,
     (S i, (if bool_decide (0 < i) then b +:+ "," else b) +:+ k +:+ ":" +:+ mget m k))
     (0, "") (sorted_keys m)).2.

(** ** Endpoint prefixes *)

Record EndpointPrefixes := {
  ep_OpenAI : string;
  ep_Cohere : string;
  ep_Anthropic : string;
  ep_TypeSafe : string;
}.

Definition defaultEndpointPrefixes : EndpointPrefixes :=
  {| ep_OpenAI := "/"; ep_Cohere := "/cohere"; ep_Anthropic := "/anthropic"; ep_TypeSafe := "/typesafe" |}.

Definition parseEndpointPair (acc : nat * EndpointPrefixes) (pair0 : string) :
    outcome (nat * EndpointPrefixes) :=
  let '(i, out) := acc in
  let pair := TrimSpace pair0 in
  let pos := itoa (i + 1) in
  if bool_decide (pair = "") then
    Fail (errors_New ("empty endpointPrefixes pair at position " +:+ pos))
  else match SplitN pair ":" 2 with
  | [k; v] =>
      let key := TrimSpace k in
      let value := TrimSpace v in
      if bool_decide (key = "openai") then
        Ok (S i, {| ep_OpenAI := value; ep_Cohere := ep_Cohere out;
                    ep_Anthropic := ep_Anthropic out; ep_TypeSafe := ep_TypeSafe out |})
      else if bool_decide (key = "cohere") then
        Ok (S i, {| ep_OpenAI := ep_OpenAI out; ep_Cohere := value;
                    ep_Anthropic := ep_Anthropic out; ep_TypeSafe := ep_TypeSafe out |})
      else if bool_decide (key = "anthropic") then
        Ok (S i, {| ep_OpenAI := ep_OpenAI out; ep_Cohere := ep_Cohere out;
                    ep_Anthropic := value; ep_TypeSafe := ep_TypeSafe out |})
      else if bool_decide (key = "typesafe") then
        Ok (S i, {| ep_OpenAI := ep_OpenAI out; ep_Cohere := ep_Cohere out;
                    ep_Anthropic := ep_Anthropic out; ep_TypeSafe := value |})
      else Fail (errors_New ("unknown endpointPrefixes key " +:+ Quote key +:+ " at position " +:+ pos +:+
                 " (allowed: openai, cohere, anthropic, typesafe)"))
  | _ => Fail (errors_New ("invalid endpointPrefixes pair at position " +:+ pos +:+ ": " +:+
               Quote pair +:+ " (expected format: key:value)"))
  end.

Definition ParseEndpointPrefixes (s : string) : outcome EndpointPrefixes :=
  if bool_decide (s = "") then Ok defaultEndpointPrefixes
  else let! r := ofold parseEndpointPair (0, defaultEndpointPrefixes) (Split s ",") in Ok r.2.

(** ** Resolution of the span, metrics and log mappings *)

Definition DefaultSessionIDHeaderMapping : string := "agent-session-id:session.id".

Definition parseOptional (v : option string) (def : string) : outcome (gmap string string) :=
  let m := default def v in
  if bool_decide (m = "") then Ok ∅
  else match ParseRequestHeaderAttributeMapping m with
       | Ok attrs => Ok attrs
       | Fail _ => Fail (errors_New m)
       | Panic p => Panic p
       end.

Definition ResolveAll (base span metrics log : option string) :
    outcome (gmap string string * gmap string string * gmap string string) :=
  let! baseAttrs := owrap "invalid request header attributes: " (parseOptional base "") in
  let! spanAttrs := owrap "invalid span request header attributes: "
                      (parseOptional span DefaultSessionIDHeaderMapping) in
  let! metricsAttrs := owrap "invalid metrics request header attributes: " (parseOptional metrics "") in
  let! logAttrs := owrap "invalid log request header attributes: "
                     (parseOptional log DefaultSessionIDHeaderMapping) in
  Ok (MergeRequestHeaderAttributeMappings baseAttrs spanAttrs,
      MergeRequestHeaderAttributeMappings baseAttrs metricsAttrs,
      MergeRequestHeaderAttributeMappings baseAttrs logAttrs).

Definition ResolveLog (base log : option string) : outcome (gmap string string) :=
  let! baseAttrs := owrap "invalid request header attributes: " (parseOptional base "") in
  let! logAttrs := owrap "invalid log request header attributes: "
                     (parseOptional log DefaultSessionIDHeaderMapping) in
  Ok (MergeRequestHeaderAttributeMappings baseAttrs logAttrs).

Example parse_two :
  ParseRequestHeaderAttributeMapping "a:b, c : d " = Ok {[ "a" := "b"; "c" := "d" ]}.
Proof. vm_compute. reflexivity. Qed.
Example format_two :
  FormatRequestHeaderAttributeMapping {[ "c" := "d"; "a" := "b" ]} = "a:b,c:d".
Proof. vm_compute. reflexivity. Qed.

(** ** Properties of backend names *)

Lemma Split_BackendName ns name route i j :
  Contains ns "/" = false → Contains name "/" = false → Contains route "/" = false →
  Split (PerRouteRuleRefBackendName ns name route i j) "/" =
    [ns; name; "route"; route; "rule"; pretty i; "ref"; pretty j].
Proof.
  intros Hns Hname Hroute. unfold PerRouteRuleRefBackendName, itoa.
  pose proof (pretty_nat_no_slash i) as Hi. pose proof (pretty_nat_no_slash j) as Hj.
  change ("/route/" +:+ ?x) with (String "/" ("route" +:+ String "/" x)).
  change ("/rule/" +:+ ?x) with (String "/" ("rule" +:+ String "/" x)).
  change ("/ref/" +:+ ?x) with (String "/" ("ref" +:+ String "/" x)).
  change ("/" +:+ ?x) with (String "/" x).
  repeat (rewrite Split_app by done). by rewrite Split_no_sep.
Qed.

(** The per-route backend name identifies its parts: two names built from
    slash-free Kubernetes names are equal only when namespace, backend, route,
    rule index and reference index all agree. *)
Theorem PerRouteRuleRefBackendName_inj ns name route i j ns' name' route' i' j' :
  Contains ns "/" = false → Contains name "/" = false → Contains route "/" = false →
  Contains ns' "/" = false → Contains name' "/" = false → Contains route' "/" = false →
  PerRouteRuleRefBackendName ns name route i j =
    PerRouteRuleRefBackendName ns' name' route' i' j' →
  ns = ns' ∧ name = name' ∧ route = route' ∧ i = i' ∧ j = j'.
Proof.
  intros ?????? H. apply (f_equal (λ s, Split s "/")) in H.
  rewrite !Split_BackendName in H by done. by simplify_eq.
Qed.

Lemma PerRouteRuleRefBackendName_inj_witness :
  Contains "default" "/" = false ∧
  (PerRouteRuleRefBackendName "default" "b" "r" 0 1 =
     PerRouteRuleRefBackendName "default" "b" "r" 0 1 → 1 = 1).
Proof.
  split; [reflexivity|]. intros H.
  apply (PerRouteRuleRefBackendName_inj "default" "b" "r" 0 1 "default" "b" "r" 0 1);
    first [reflexivity|exact H].
Defined.

Lemma SplitN_BackendName ns name route i j :
  Contains ns "/" = false → Contains name "/" = false →
  ∃ rest, SplitN (PerRouteRuleRefBackendName ns name route i j) "/" 3 = [ns; name; rest].
Proof.
  intros Hns Hname. unfold PerRouteRuleRefBackendName.
  change ("/route/" +:+ ?x) with (String "/" ("route/" +:+ x)).
  change ("/" +:+ ?x) with (String "/" x).
  rewrite !SplitN_app by done. rewrite SplitN_1. eauto.
Qed.

(** The AIServiceBackend identity is recovered from a per-route backend
    name: [NamespaceAndNameFromBackendName] gives back the namespace and name,
    and [AIServiceBackendName] gives their joined form. *)
Theorem backend_name_roundtrip ns name route i j :
  ns ≠ "" → name ≠ "" → Contains ns "/" = false → Contains name "/" = false →
  NamespaceAndNameFromBackendName (PerRouteRuleRefBackendName ns name route i j) = (ns, name, true) ∧
  AIServiceBackendName (PerRouteRuleRefBackendName ns name route i j) = ns +:+ "/" +:+ name.
Proof.
  intros Hn Hm Hns Hname. unfold NamespaceAndNameFromBackendName, AIServiceBackendName.
  destruct (SplitN_BackendName ns name route i j Hns Hname) as [rest ->].
  by rewrite !bool_decide_false.
Qed.

Lemma backend_name_roundtrip_witness :
  NamespaceAndNameFromBackendName (PerRouteRuleRefBackendName "default" "b" "r" 0 1)
    = ("default", "b", true).
Proof. apply (backend_name_roundtrip "default" "b" "r" 0 1); done. Defined.

(** ** Properties of the Bedrock host pattern *)

(** The hosts the pattern accepts at its left anchor. *)
Definition bedrock_host_shape (s region : string) : Prop :=
  ∃ fips suffix, (fips = "" ∨ fips = "-fips") ∧ suffix ∈ awsHostSuffixes ∧
    region ≠ "" ∧ Forall (λ c, region_byte c = true) (schars region) ∧
    s = "bedrock-runtime" +:+ fips +:+ "." +:+ region +:+ "." +:+ suffix.

Lemma region_byte_no_dot region :
  Forall (λ c, region_byte c = true) (schars region) → Contains region "." = false.
Proof.
  intros H. unfold Contains. apply bool_decide_eq_false. intros Hin.
  rewrite Forall_forall in H. by specialize (H _ Hin).
Qed.

Lemma awsBedrockHost_here_spec s region :
  awsBedrockHost_here s = Some region ↔ bedrock_host_shape s region.
Proof.
  unfold awsBedrockHost_here, bedrock_host_shape. split.
  - destruct (HasPrefix s "bedrock-runtime") eqn:Hp; [|done].
    apply HasPrefix_spec in Hp as [t ->]. rewrite TrimPrefix_app.
    assert (∃ fips t', (fips = "" ∨ fips = "-fips") ∧ t = fips +:+ t' ∧ TrimPrefix t "-fips" = t')
      as (fips & t' & Hf & -> & ->).
    { destruct (HasPrefix t "-fips") eqn:Hf.
      - apply HasPrefix_spec in Hf as [t' ->]. exists "-fips", t'.
        rewrite TrimPrefix_app. auto.
      - exists "", t. unfold TrimPrefix. rewrite Hf. auto. }
    destruct (HasPrefix t' ".") eqn:Hd; [|done]. apply HasPrefix_spec in Hd as [u ->].
    rewrite TrimPrefix_app. destruct (cut_at "." u) as [[r rest]|] eqn:Hc; [|done].
    apply cut_at_Some in Hc as [-> _]. case_match eqn:Hb; [|done]. intros Hr. simplify_eq/=.
    rewrite !andb_true_iff, negb_true_iff, bool_decide_eq_false, bool_decide_eq_true in Hb.
    destruct Hb as [[Hne Hall] Hin]. exists fips, rest.
    split_and!; try done.
    apply Forall_forall. intros c Hcin. rewrite forallb_forall in Hall.
    apply Hall. by apply list_elem_of_In.
  - intros (fips & suffix & Hf & Hs & Hne & Hall & ->).
    rewrite HasPrefix_app, TrimPrefix_app.
    assert (TrimPrefix (fips +:+ "." +:+ region +:+ "." +:+ suffix) "-fips" =
            "." +:+ region +:+ "." +:+ suffix) as ->.
    { destruct Hf as [-> | ->]; [done|]. apply TrimPrefix_app. }
    rewrite HasPrefix_app, TrimPrefix_app.
    change ("." +:+ suffix) with (String "." suffix).
    rewrite cut_at_app by (by apply region_byte_no_dot).
    rewrite !bool_decide_false, bool_decide_true by done. simpl.
    assert (forallb region_byte (schars region) = true) as ->; [|done].
    apply forallb_forall. rewrite Forall_forall in Hall. intros c Hc. apply Hall.
    by apply list_elem_of_In.
Qed.

Lemma awsBedrockHost_dots_sound s region :
  awsBedrockHost_dots s = Some region →
  ∃ pre t, s = pre +:+ "." +:+ t ∧ bedrock_host_shape t region.
Proof.
  induction s as [|c s IH]; simpl; [done|]. case_bool_decide as Hc.
  - destruct (awsBedrockHost_here s) as [r|] eqn:E.
    + intros [= <-]. subst c. exists "", s. split; [done|]. by apply awsBedrockHost_here_spec.
    + intros H. destruct (IH H) as (pre & t & -> & ?). by exists (String c pre), t.
  - intros H. destruct (IH H) as (pre & t & -> & ?). by exists (String c pre), t.
Qed.

(** A region is only ever taken from a Bedrock endpoint name: when
    [AWSBedrockRegionFromHost] returns a non-empty region, the whole host is an
    optional dot-terminated prefix followed by [bedrock-runtime], optionally
    [-fips], the region as one label, and one of the three AWS suffixes at the
    very end.  A host with anything appended after the AWS suffix yields no
    region. *)
Theorem AWSBedrockRegionFromHost_sound host region :
  AWSBedrockRegionFromHost host = region → region ≠ "" →
  ∃ pre t, host = pre +:+ t ∧ (pre = "" ∨ HasSuffix pre "." = true) ∧ bedrock_host_shape t region.
Proof.
  unfold AWSBedrockRegionFromHost. intros <- Hne.
  destruct (awsBedrockHost_here host) as [r|] eqn:E.
  - exists "", host. split; [done|]. split; [by left|]. by apply awsBedrockHost_here_spec.
  - destruct (awsBedrockHost_dots host) as [r|] eqn:E'; [|done].
    apply awsBedrockHost_dots_sound in E' as (pre & t & -> & Hs).
    exists (pre +:+ "."), t. rewrite <-sapp_assoc. split; [done|]. split; [|done].
    right. apply HasSuffix_app.
Qed.

Lemma AWSBedrockRegionFromHost_sound_witness :
  ∃ pre t, "vpce-1.bedrock-runtime.us-east-1.vpce.amazonaws.com" = pre +:+ t ∧
    (pre = "" ∨ HasSuffix pre "." = true) ∧ bedrock_host_shape t "us-east-1".
Proof. apply AWSBedrockRegionFromHost_sound; [reflexivity|done]. Defined.

(** ** Properties of the header-to-attribute mappings *)

(** What the textual form can carry: no comma, no colon in the header name,
    no white space at the edges, nothing empty. *)
Definition mapping_entry_ok (k v : string) : Prop :=
  k ≠ "" ∧ v ≠ "" ∧ no_space_edges k = true ∧ no_space_edges v = true ∧
  Contains k "," = false ∧ Contains v "," = false ∧ Contains k ":" = false.

Lemma parseMappingPair_ok i m k v :
  mapping_entry_ok k v →
  parseMappingPair (i, m) (k +:+ ":" +:+ v) = Ok (S i, <[k := v]> m).
Proof.
  intros (Hk & Hv & Tk & Tv & _ & _ & Hc). unfold parseMappingPair.
  rewrite TrimSpace_id by (by apply no_space_edges_colon).
  rewrite bool_decide_false; [|by destruct k].
  change (":" +:+ v) with (String ":" v). rewrite SplitN_app by done. rewrite SplitN_1.
  rewrite !TrimSpace_id by done. by rewrite !bool_decide_false.
Qed.

#[local] Arguments parseMappingPair : simpl never.

Lemma parseMappingPairs_ok i m (l : list (string * string)) :
  Forall (λ p, mapping_entry_ok p.1 p.2) l →
  ofold parseMappingPair (i, m) ((λ p, p.1 +:+ ":" +:+ p.2) <$> l) =
    Ok (i + length l, insert_all l m).
Proof.
  revert i m; induction l as [|[k v] l IH]; intros i m Hl; simpl.
  { by rewrite Nat.add_0_r. }
  apply Forall_cons in Hl as [Hp Hl]. rewrite parseMappingPair_ok by done. simpl.
  rewrite IH by done. by rewrite Nat.add_succ_r.
Qed.

(** The loop of [FormatRequestHeaderAttributeMapping] joins with commas. *)
Lemma format_loop (f : string → string) (ks : list string) i b :
  (foldl (λ '(i, b) k, (S i, (if bool_decide (0 < i) then b +:+ "," else b) +:+ f k))
     (S i, b) ks).2 = foldl (λ acc t, acc +:+ String "," t) b (f <$> ks).
Proof.
  revert i b; induction ks as [|k ks IH]; intros i b; simpl; [done|].
  rewrite IH. by rewrite <-sapp_assoc.
Qed.

Lemma FormatRequestHeaderAttributeMapping_Join m :
  FormatRequestHeaderAttributeMapping m =
    Join ((λ k, k +:+ ":" +:+ mget m k) <$> sorted_keys m) ",".
Proof.
  unfold FormatRequestHeaderAttributeMapping. destruct (sorted_keys m) as [|k ks]; [done|].
  simpl. rewrite (format_loop (λ k, k +:+ ":" +:+ mget m k)). done.
Qed.

Lemma elem_of_sorted_keys m k : k ∈ sorted_keys m ↔ is_Some (m !! k).
Proof.
  unfold sorted_keys. rewrite merge_sort_Permutation, list_elem_of_fmap. split.
  - intros ([k' v] & -> & Hin). apply elem_of_map_to_list in Hin. eauto.
  - intros [v Hv]. exists (k, v). by rewrite elem_of_map_to_list.
Qed.

Lemma sorted_keys_NoDup m : NoDup (sorted_keys m).
Proof. unfold sorted_keys. rewrite merge_sort_Permutation. apply NoDup_fst_map_to_list. Qed.

Lemma last_binding_keys (m : gmap string string) ks k :
  NoDup ks → last_binding k ((λ k, (k, mget m k)) <$> ks) =
    if decide (k ∈ ks) then Some (mget m k) else None.
Proof.
  intros _. induction ks as [|k' ks IH] using rev_ind; [done|].
  rewrite fmap_app. simpl. rewrite last_binding_snoc. simpl.
  rewrite IH. repeat case_decide; set_solver.
Qed.

Lemma insert_all_sorted_keys m :
  insert_all ((λ k, (k, mget m k)) <$> sorted_keys m) ∅ = m.
Proof.
  apply map_eq. intros k. rewrite lookup_insert_all, last_binding_keys by apply sorted_keys_NoDup.
  case_decide as Hin; rewrite elem_of_sorted_keys in Hin.
  - destruct Hin as [v Hv]. unfold mget. by rewrite Hv.
  - rewrite lookup_empty. symmetry. by apply eq_None_not_Some.
Qed.

Lemma schars_no_comma k v :
  mapping_entry_ok k v → Contains (k +:+ ":" +:+ v) "," = false.
Proof. intros (_ & _ & _ & _ & Hk & Hv & _). by rewrite !Contains_app, Hk, Hv. Qed.

(** Formatting a header-to-attribute mapping and parsing the text gives
    the mapping back, for every mapping whose entries the text can carry. *)
Theorem mapping_format_parse_roundtrip m :
  map_Forall mapping_entry_ok m →
  ParseRequestHeaderAttributeMapping (FormatRequestHeaderAttributeMapping m) = Ok m.
Proof.
  intros Hm. rewrite FormatRequestHeaderAttributeMapping_Join.
  destruct (sorted_keys m) as [|k0 ks0] eqn:Ek.
  { simpl. unfold ParseRequestHeaderAttributeMapping. rewrite bool_decide_true by done.
    f_equal. symmetry. by rewrite <-(insert_all_sorted_keys m), Ek. }
  rewrite <-Ek. set (ks := sorted_keys m) in *.
  assert (Forall (λ p, mapping_entry_ok p.1 p.2) ((λ k, (k, mget m k)) <$> ks)) as Hks.
  { apply Forall_fmap, Forall_forall. intros k Hk. apply elem_of_sorted_keys in Hk as [v Hv].
    simpl. unfold mget. rewrite Hv. by apply Hm. }
  unfold ParseRequestHeaderAttributeMapping. rewrite bool_decide_false.
  2: { rewrite Ek. apply Forall_fmap in Hks. rewrite Ek in Hks.
       apply Forall_cons in Hks as [(Hk & _) _]. simpl in Hk. apply Join_nonempty.
       by destruct k0. }
  rewrite Split_Join.
  - replace ((λ k, k +:+ ":" +:+ mget m k) <$> ks)
      with ((λ p, p.1 +:+ ":" +:+ p.2) <$> ((λ k, (k, mget m k)) <$> ks))
      by (by rewrite <-list_fmap_compose).
    rewrite parseMappingPairs_ok by done. simpl. unfold ks. by rewrite insert_all_sorted_keys.
  - by rewrite Ek.
  - apply Forall_fmap. apply Forall_fmap in Hks. eapply Forall_impl; [exact Hks|].
    intros k Hk. by apply schars_no_comma.
Qed.

Lemma mapping_format_parse_roundtrip_witness :
  ParseRequestHeaderAttributeMapping
    (FormatRequestHeaderAttributeMapping {[ "x-tenant-id" := "tenant.id"; "agent-session-id" := "session.id" ]})
  = Ok {[ "x-tenant-id" := "tenant.id"; "agent-session-id" := "session.id" ]}.
Proof.
  apply mapping_format_parse_roundtrip. intros k v H.
  apply lookup_insert_Some in H as [[<- <-]|[_ H]]; [by vm_compute|].
  apply lookup_singleton_Some in H as [<- <-]. by vm_compute.
Defined.

(** No accepted header-to-attribute text yields an empty header name or an
    empty attribute name. *)
Theorem ParseRequestHeaderAttributeMapping_nonempty s m :
  ParseRequestHeaderAttributeMapping s = Ok m →
  map_Forall (λ k v, k ≠ "" ∧ v ≠ "") m.
Proof.
  unfold ParseRequestHeaderAttributeMapping. case_bool_decide.
  { intros [= <-]. apply map_Forall_empty. }
  intros H'. outcome_inv. subst.
  match goal with E : ofold _ _ _ = _ |- _ =>
    refine (ofold_inv (λ r : nat * gmap string string,
              map_Forall (λ k v : string, k ≠ "" ∧ v ≠ "") r.2) _ _ _ _ _ _ E)
  end; [apply map_Forall_empty|].
  intros [i r] a [i' r'] Hr _ Hstep. unfold parseMappingPair in Hstep.
  case_bool_decide; [done|]. repeat (case_match; try done). simplify_eq/=.
  apply map_Forall_insert_2; [|done].
  match goal with E : _ || _ = false |- _ => apply orb_false_iff in E as [E1 E2] end.
  by apply bool_decide_eq_false in E1, E2.
Qed.

Lemma ParseRequestHeaderAttributeMapping_nonempty_witness :
  ∃ m, ParseRequestHeaderAttributeMapping "x-user:user.id, x-team:team" = Ok m ∧
    map_Forall (λ k v, k ≠ "" ∧ v ≠ "") m ∧ m !! "x-team" = Some "team".
Proof.
  eexists. split; [vm_compute; reflexivity|]. split; [|vm_compute; reflexivity].
  apply (ParseRequestHeaderAttributeMapping_nonempty "x-user:user.id, x-team:team"). vm_compute. reflexivity.
Defined.

Lemma lookup_Merge base override k :
  MergeRequestHeaderAttributeMappings base override !! k =
    match override !! k with Some v => Some v | None => base !! k end.
Proof.
  unfold MergeRequestHeaderAttributeMappings. rewrite lookup_union.
  by destruct (override !! k), (base !! k).
Qed.

Lemma parseOptional_default :
  parseOptional None DefaultSessionIDHeaderMapping = Ok {[ "agent-session-id" := "session.id" ]}.
Proof. vm_compute. reflexivity. Qed.

(** The resolved span, metrics and log mappings are their own entries laid
    over the shared base; metrics get no default, and an unset span or log
    source gets the session-id default. *)
Theorem ResolveAll_precedence base span metrics log s m l :
  ResolveAll base span metrics log = Ok (s, m, l) →
  ∃ b sp me lo,
    parseOptional base "" = Ok b ∧ parseOptional span DefaultSessionIDHeaderMapping = Ok sp ∧
    parseOptional metrics "" = Ok me ∧ parseOptional log DefaultSessionIDHeaderMapping = Ok lo ∧
    (∀ k, s !! k = match sp !! k with Some v => Some v | None => b !! k end) ∧
    (∀ k, m !! k = match me !! k with Some v => Some v | None => b !! k end) ∧
    (∀ k, l !! k = match lo !! k with Some v => Some v | None => b !! k end) ∧
    (metrics = None → m = b) ∧
    (span = None → b = ∅ → s = {[ "agent-session-id" := "session.id" ]}).
Proof.
  unfold ResolveAll. intros H. outcome_inv. simplify_eq.
  do 4 eexists. split_and!; try done; try (intros k; apply lookup_Merge);
    unfold MergeRequestHeaderAttributeMappings.
  - intros ->. match goal with E : parseOptional None "" = Ok _ |- _ => injection E as <- end.
    apply (left_id_L ∅ (∪)).
  - intros -> ->. match goal with E : parseOptional None DefaultSessionIDHeaderMapping = Ok _ |- _ =>
      rewrite parseOptional_default in E; injection E as <- end. apply (right_id_L ∅ (∪)).
Qed.

Example ResolveAll_clear_log :
  ResolveAll None None None (Some "") = Ok ({[ "agent-session-id" := "session.id" ]}, ∅, ∅).
Proof. vm_compute. reflexivity. Qed.

Lemma ResolveAll_precedence_witness :
  ∃ b sp : gmap string string,
    parseOptional None "" = Ok b ∧ parseOptional None DefaultSessionIDHeaderMapping = Ok sp.
Proof.
  destruct (ResolveAll_precedence _ _ _ _ _ _ _ ResolveAll_clear_log)
    as (b & sp & _ & _ & Hb & Hsp & _).
  exists b, sp. exact (conj Hb Hsp).
Defined.

(** ** Endpoint prefixes *)

Definition prefix_keys : list string := ["openai"; "cohere"; "anthropic"; "typesafe"].

(** What is left in a field after storing the pairs in order. *)
Definition prefix_of (key def : string) (l : list (string * string)) : string :=
  default def (last_binding key l).

#[local] Arguments parseEndpointPair : simpl never.

Definition set_prefixes (l : list (string * string)) : EndpointPrefixes :=
  {| ep_OpenAI := prefix_of "openai" "/" l; ep_Cohere := prefix_of "cohere" "/cohere" l;
     ep_Anthropic := prefix_of "anthropic" "/anthropic" l;
     ep_TypeSafe := prefix_of "typesafe" "/typesafe" l |}.

Lemma parseEndpointPair_ok i l k v :
  k ∈ prefix_keys → no_space_edges v = true →
  parseEndpointPair (i, set_prefixes l) (k +:+ ":" +:+ v) = Ok (S i, set_prefixes (l ++ [(k, v)])).
Proof.
  intros Hk Hv. unfold parseEndpointPair.
  assert (no_space_edges k = true ∧ Contains k ":" = false ∧ k ≠ "") as (Tk & Ck & Nk).
  { unfold prefix_keys in Hk. by repeat (apply elem_of_cons in Hk as [->|Hk]; [by vm_compute|]);
      apply not_elem_of_nil in Hk. }
  rewrite TrimSpace_id by (by apply no_space_edges_colon).
  rewrite bool_decide_false by (by destruct k).
  change (":" +:+ v) with (String ":" v). rewrite SplitN_app, SplitN_1 by done.
  rewrite !TrimSpace_id by done. unfold set_prefixes, prefix_of. rewrite !last_binding_snoc.
  unfold prefix_keys in Hk.
  repeat (apply elem_of_cons in Hk as [->|Hk]; [by simpl|]). by apply not_elem_of_nil in Hk.
Qed.

Lemma parseEndpointPairs_ok i l0 l :
  Forall (λ p, p.1 ∈ prefix_keys ∧ no_space_edges p.2 = true) l →
  ofold parseEndpointPair (i, set_prefixes l0) ((λ p, p.1 +:+ ":" +:+ p.2) <$> l) =
    Ok (i + length l, set_prefixes (l0 ++ l)).
Proof.
  revert i l0; induction l as [|[k v] l IH]; intros i l0 Hl.
  { simpl. by rewrite Nat.add_0_r, app_nil_r. }
  apply Forall_cons in Hl as [[Hk Hv] Hl]. simpl in *. rewrite parseEndpointPair_ok by done.
  simpl. rewrite IH by done. rewrite Nat.add_succ_r, <-app_assoc. done.
Qed.

(** An endpoint-prefix text made of recognised keys is always accepted,
    the last value given for a key wins and a key that is not given keeps its
    default.  The values range over every trimmed comma-free text, the empty
    one included. *)
Theorem ParseEndpointPrefixes_last_wins (l : list (string * string)) :
  l ≠ [] →
  Forall (λ p, p.1 ∈ prefix_keys ∧ no_space_edges p.2 = true ∧ Contains p.2 "," = false) l →
  ParseEndpointPrefixes (Join ((λ p, p.1 +:+ ":" +:+ p.2) <$> l) ",") = Ok (set_prefixes l).
Proof.
  intros Hne Hl. unfold ParseEndpointPrefixes. rewrite bool_decide_false.
  2: { destruct l as [|[k v] l]; [done|]. apply Forall_cons in Hl as [[Hk _] _]. simpl in Hk.
       apply Join_nonempty. simpl. destruct k; [by vm_compute in Hk|done]. }
  rewrite Split_Join.
  - change defaultEndpointPrefixes with (set_prefixes []).
    rewrite parseEndpointPairs_ok; [done|]. eapply Forall_impl; [exact Hl|]. naive_solver.
  - by destruct l.
  - apply Forall_fmap. eapply Forall_impl; [exact Hl|]. intros [k v] (Hk & _ & Hv). simpl in *.
    rewrite !Contains_app, Hv.
    unfold prefix_keys in Hk.
    repeat (apply elem_of_cons in Hk as [->|Hk]; [by vm_compute|]). by apply not_elem_of_nil in Hk.
Qed.

Lemma ParseEndpointPrefixes_last_wins_witness :
  ParseEndpointPrefixes "openai:" = Ok (set_prefixes [("openai", "")]) ∧
  ep_OpenAI (set_prefixes [("openai", "")]) = "".
Proof.
  split; [|reflexivity]. apply (ParseEndpointPrefixes_last_wins [("openai", "")]); [done|].
  constructor; [|constructor]. split_and!; [set_solver|reflexivity|reflexivity].
Defined.
