(* ===== verification/Kube.v ===== *)
(** * Resources of the controller and references between them

    Models the parts of [internal/controller] that several reconcilers share: the
    keys of the field indexes of [controller.go], [handleFinalizer], and the
    validation of references across namespaces of [referencegrant.go].  The
    Kubernetes client is a class of the calls that are used; its [List] with a
    field selector returns the objects the index function gives that key. *)

From Stdlib Require Import Ascii ZArith Lia.
From stdpp Require Import base gmap strings list.
From S2P Require Import Prelude GoStrings.

(** ** Keys *)

Definition NamespacedNameKey (namespace name : string) : string := namespace +:+ "/" +:+ name.
Definition namespacedNameIndexKey (name namespace : string) : string := name +:+ "." +:+ namespace.
Definition getReferenceGrantIndexKey (namespace kind : string) : string := namespace +:+ "." +:+ kind.

(** ** Resources *)

(** The mutations and costs of the API, as a name or path with a value. *)
Record aigHTTPHeaderMutation := { ahm_Set : list (string * string); ahm_Remove : list string }.
Record aigHTTPBodyMutation := { abm_Set : list (string * string); abm_Remove : list string }.
Record aigLLMRequestCost := { alc_MetadataKey : string; alc_Type : string; alc_CEL : option string }.

(** A reference of an [AIGatewayRoute] rule to a backend. *)
Record AIGatewayRouteRuleBackendRef := {
  rb_Name : string;
  rb_Namespace : option string;
  rb_Group : option string;
  rb_Kind : option string;
  rb_ModelNameOverride : string;
  rb_HeaderMutation : option aigHTTPHeaderMutation;
  rb_BodyMutation : option aigHTTPBodyMutation;
  rb_Weight : option Z;
  rb_Priority : option Z;
}.

Definition inferencePoolGroup : string := "inference.networking.k8s.io".
Definition inferencePoolKind : string := "InferencePool".

Definition IsInferencePool (ref : AIGatewayRouteRuleBackendRef) : bool :=
  match rb_Group ref, rb_Kind ref with
  | Some g, Some k => bool_decide (g = inferencePoolGroup) && bool_decide (k = inferencePoolKind)
  | _, _ => false
  end.

(** The namespace of a reference: an omitted or empty one is the default. *)
Definition namespaceOr (ns : option string) (defaultNamespace : string) : string :=
  match ns with
  | Some n => if bool_decide (n = "") then defaultNamespace else n
  | None => defaultNamespace
  end.

Definition GetNamespace (ref : AIGatewayRouteRuleBackendRef) (defaultNamespace : string) : string :=
  namespaceOr (rb_Namespace ref) defaultNamespace.

Definition IsCrossNamespace (ref : AIGatewayRouteRuleBackendRef) (routeNamespace : string) : bool :=
  match rb_Namespace ref with
  | Some n => bool_decide (n ≠ "") && bool_decide (n ≠ routeNamespace)
  | None => false
  end.

(** Timeouts are durations in text. *)
Record HTTPRouteTimeouts := { to_Request : option string; to_BackendRequest : option string }.

Record HTTPHeaderMatch := { hx_Type : option string; hx_Name : string; hx_Value : string }.

(** A match is its header matches. *)
Record AIGatewayRouteRule := {
  ru_BackendRefs : list AIGatewayRouteRuleBackendRef;
  ru_Matches : list (list HTTPHeaderMatch);
  ru_ModelsOwnedBy : option string;
  ru_ModelsCreatedAt : option Z;
  ru_ExcludeFromModelsEndpoint : bool;
  ru_Name : option string;
  ru_Timeouts : option HTTPRouteTimeouts;
  ru_StreamIdleTimeout : option string;
}.

Definition defaultRequestTimeout : string := "60s".

Definition GetTimeoutsOrDefault (r : AIGatewayRouteRule) : HTTPRouteTimeouts :=
  match ru_Timeouts r with
  | None => {| to_Request := Some defaultRequestTimeout; to_BackendRequest := None |}
  | Some t => match to_Request t with
              | None => {| to_Request := Some defaultRequestTimeout; to_BackendRequest := to_BackendRequest t |}
              | Some _ => t
              end
  end.

(** A reference to a gateway. *)
Record ParentReference := { pa_Name : string; pa_Namespace : option string }.

Record AIGatewayRoute := {
  ar_Namespace : string;
  ar_Name : string;
  ar_Deleted : bool;
  ar_CreationTimestamp : Z;
  ar_ParentRefs : list ParentReference;
  ar_Hostnames : list string;
  ar_Rules : list AIGatewayRouteRule;
  ar_LLMRequestCosts : list aigLLMRequestCost;
  ar_HasFinalizer : bool;
  ar_Labels : gmap string string;
  ar_Annotations : gmap string string;
}.

Definition aiGatewayRouteIndexFunc (r : AIGatewayRoute) : list string :=
  rule ← ar_Rules r; backend ← ru_BackendRefs rule; [namespacedNameIndexKey (rb_Name backend) (GetNamespace backend (ar_Namespace r))].

Definition aiGatewayRouteToAttachedGatewayIndexFunc (r : AIGatewayRoute) : list string :=
  (λ ref, namespacedNameIndexKey (pa_Name ref) (namespaceOr (pa_Namespace ref) (ar_Namespace r))) <$> ar_ParentRefs r.

(** ** Finalizers *)

(** On the state of the world: the deletion callback and the update of the object
    with or without the finalizer; their errors are logged. *)
Definition handleFinalizer {St} (deleted hasFinalizer : bool) (onDeletionFn : St → St) (client_Update : bool → St → St) (s : St) :
    St * bool :=
  if negb deleted then (if hasFinalizer then s else client_Update true s, false)
  else (if hasFinalizer then client_Update false (onDeletionFn s) else s, true).

(** ** Reference grants *)

Record ReferenceGrantFrom := { gf_Group : string; gf_Kind : string; gf_Namespace : string }.
Record ReferenceGrantTo := { gt_Group : string; gt_Kind : string; gt_Name : option string }.
Record ReferenceGrant := {
  rg_Namespace : string;
  rg_Name : string;
  rg_Deleted : bool;
  rg_From : list ReferenceGrantFrom;
  rg_To : list ReferenceGrantTo;
}.

Definition referenceGrantToTargetKindIndexFunc (g : ReferenceGrant) : list string :=
  (λ to, getReferenceGrantIndexKey (rg_Namespace g) (gt_Kind to)) <$> rg_To g.

(** [client.List] of the reference grants with an index key. *)
Class GrantClient := { list_ReferenceGrants : string → outcome (list ReferenceGrant) }.

(** A list with an index key holds the objects with that key. *)
Class GrantClientLaws (GC : GrantClient) (grants : list ReferenceGrant) := {
  list_ReferenceGrants_index key l :
    list_ReferenceGrants key = Ok l → l = filter (λ g, key ∈ referenceGrantToTargetKindIndexFunc g) grants;
}.

Definition aiServiceBackendGroup : string := "aigateway.envoyproxy.io".
Definition aiServiceBackendKind : string := "AIServiceBackend".
Definition aiGatewayRouteKind : string := "AIGatewayRoute".
Definition backendSecurityPolicyKind : string := "BackendSecurityPolicy".
Definition quotaPolicyKind : string := "QuotaPolicy".
Definition secretGroup : string := "".
Definition secretKind : string := "Secret".

(** The kind of a resource with its group. *)
Record resourceKind := { rk_Group : string; rk_Kind : string }.

Definition referenceNotPermitted (from : resourceKind) (fromNamespace : string) (target : resourceKind)
    (targetNamespace targetName : string) : error :=
  errors_Sentinel
    ("cross-namespace reference from " +:+ rk_Kind from +:+ " in namespace " +:+ fromNamespace +:+ " to " +:+ rk_Kind target +:+ " " +:+
     targetName +:+ " in namespace " +:+ targetNamespace +:+ " is not permitted: no valid ReferenceGrant found in namespace " +:+
     targetNamespace +:+ ". A ReferenceGrant must allow " +:+ rk_Kind from +:+ " from namespace " +:+ fromNamespace +:+
     " to reference " +:+ rk_Kind target +:+ " in namespace " +:+ targetNamespace)
    ReferenceNotPermittedError.

Definition matchesFrom (f : ReferenceGrantFrom) (from : resourceKind) (fromNamespace : string) : bool :=
  bool_decide (gf_Group f = rk_Group from) && bool_decide (gf_Kind f = rk_Kind from) && bool_decide (gf_Namespace f = fromNamespace).

Definition matchesTo (to : ReferenceGrantTo) (target : resourceKind) (targetName : string) : bool :=
  bool_decide (gt_Group to = rk_Group target) && bool_decide (gt_Kind to = rk_Kind target) &&
  match gt_Name to with Some n => bool_decide (n = targetName) | None => true end.

Definition isReferenceGrantValid (grant : ReferenceGrant) (from : resourceKind) (fromNamespace : string) (target : resourceKind)
    (targetName : string) : bool :=
  if rg_Deleted grant then false
  else if negb (existsb (λ f, matchesFrom f from fromNamespace) (rg_From grant)) then false
  else existsb (λ to, matchesTo to target targetName) (rg_To grant).

Section Validation.
Context `{GC : !GrantClient}.

Definition validateReference (from : resourceKind) (fromNamespace : string) (target : resourceKind)
    (targetNamespace targetName : string) : outcome unit :=
  if bool_decide (fromNamespace = targetNamespace) then Ok tt
  else
    let! grants :=
      owrap ("failed to list ReferenceGrants in namespace " +:+ targetNamespace +:+ " for kind " +:+ rk_Kind target +:+ ": ")
        (list_ReferenceGrants (getReferenceGrantIndexKey targetNamespace (rk_Kind target))) in
    if existsb (λ grant, isReferenceGrantValid grant from fromNamespace target targetName) grants then Ok tt
    else Fail (referenceNotPermitted from fromNamespace target targetNamespace targetName).

Definition routeKind : resourceKind := {| rk_Group := aiServiceBackendGroup; rk_Kind := aiGatewayRouteKind |}.
Definition backendKind : resourceKind := {| rk_Group := aiServiceBackendGroup; rk_Kind := aiServiceBackendKind |}.
Definition policyKind : resourceKind := {| rk_Group := aiServiceBackendGroup; rk_Kind := quotaPolicyKind |}.
Definition securityPolicyKind : resourceKind := {| rk_Group := aiServiceBackendGroup; rk_Kind := backendSecurityPolicyKind |}.
Definition poolKind : resourceKind := {| rk_Group := inferencePoolGroup; rk_Kind := inferencePoolKind |}.
Definition coreSecretKind : resourceKind := {| rk_Group := secretGroup; rk_Kind := secretKind |}.

Definition validateAIServiceBackendReference (routeNamespace backendNamespace backendName : string) : outcome unit :=
  validateReference routeKind routeNamespace backendKind backendNamespace backendName.

Definition validateQuotaPolicyAIServiceBackendReference (policyNamespace backendNamespace backendName : string) : outcome unit :=
  validateReference policyKind policyNamespace backendKind backendNamespace backendName.

Definition validateInferencePoolReference (routeNamespace poolNamespace poolName : string) : outcome unit :=
  validateReference routeKind routeNamespace poolKind poolNamespace poolName.

Definition validateSecretReference (bspNamespace secretNamespace secretName : string) : outcome unit :=
  validateReference securityPolicyKind bspNamespace coreSecretKind secretNamespace secretName.
End Validation.

(** ** Which references are permitted *)

(** A grant that permits a reference. *)
Definition permits (g : ReferenceGrant) (from : resourceKind) (fromNamespace : string) (target : resourceKind)
    (targetNamespace targetName : string) : Prop :=
  rg_Namespace g = targetNamespace ∧ rg_Deleted g = false ∧
  (∃ f, f ∈ rg_From g ∧ gf_Group f = rk_Group from ∧ gf_Kind f = rk_Kind from ∧ gf_Namespace f = fromNamespace) ∧
  ∃ to, to ∈ rg_To g ∧ gt_Group to = rk_Group target ∧ gt_Kind to = rk_Kind target ∧ (gt_Name to = None ∨ gt_Name to = Some targetName).

Lemma existsb_iff {A} (f : A → bool) l : existsb f l = true ↔ ∃ x, x ∈ l ∧ f x = true.
Proof. rewrite existsb_exists. by setoid_rewrite <-list_elem_of_In. Qed.

Lemma isReferenceGrantValid_iff g from fromNamespace target targetName :
  isReferenceGrantValid g from fromNamespace target targetName = true ↔
  permits g from fromNamespace target (rg_Namespace g) targetName.
Proof.
  unfold isReferenceGrantValid, permits. destruct (rg_Deleted g); [split; [done|]; by intros (_ & ? & _)|].
  destruct (existsb _ (rg_From g)) eqn:Ef; cbn [negb].
  - apply existsb_iff in Ef as (f & Hf & Hm). unfold matchesFrom in Hm. rewrite !andb_true_iff, !bool_decide_eq_true in Hm.
    rewrite existsb_iff. split.
    + intros (to & Hto & Hm'). split_and!; [done|done|by exists f; naive_solver|]. exists to. unfold matchesTo in Hm'.
      rewrite !andb_true_iff, !bool_decide_eq_true in Hm'. destruct Hm' as [[? ?] Hn]. split_and!; [done..|].
      destruct (gt_Name to); [|by left]. rewrite bool_decide_eq_true in Hn. right. by subst.
    + intros (_ & _ & _ & to & Hto & Hg & Hk & Hn). exists to. split; [done|]. unfold matchesTo.
      rewrite !bool_decide_true by done. destruct Hn as [-> | ->]; [done|]. by apply bool_decide_true.
  - split; [done|]. intros (_ & _ & (f & Hf & Hg & Hk & Hn) & _). rewrite <-Ef. apply existsb_iff. exists f. split; [done|].
    unfold matchesFrom. by rewrite !bool_decide_true.
Qed.

Lemma IndexKey_inj ns kind ns' kind' :
  Contains ns "." = false → Contains ns' "." = false →
  getReferenceGrantIndexKey ns kind = getReferenceGrantIndexKey ns' kind' → ns = ns' ∧ kind = kind'.
Proof.
  unfold getReferenceGrantIndexKey. change ("." +:+ kind) with (String "." kind). change ("." +:+ kind') with (String "." kind').
  intros Hn Hn' He. assert (ns = ns') as <-.
  { apply (f_equal (λ s, Split s "."%char)) in He. rewrite !Split_app in He by done. by simplify_eq. }
  split; [done|]. apply sapp_inj_l in He. by injection He.
Qed.

Section Permitted.
Context `{GC : !GrantClient} (grants : list ReferenceGrant) `{GL : !GrantClientLaws GC grants}.
Context (namespaces : Forall (λ g, Contains (rg_Namespace g) "." = false) grants).

(** A reference is permitted exactly within a namespace or by a grant. *)
Lemma validateReference_spec from fromNamespace target targetNamespace targetName :
  Contains targetNamespace "." = false →
  match validateReference from fromNamespace target targetNamespace targetName with
  | Ok _ => fromNamespace = targetNamespace ∨
            ∃ g, g ∈ grants ∧ permits g from fromNamespace target targetNamespace targetName
  | Fail e => fromNamespace ≠ targetNamespace ∧
              (is_ok (list_ReferenceGrants (getReferenceGrantIndexKey targetNamespace (rk_Kind target))) = false ∨
               errors_Is e ReferenceNotPermittedError = true ∧
               ¬ ∃ g, g ∈ grants ∧ permits g from fromNamespace target targetNamespace targetName)
  | Panic _ => fromNamespace ≠ targetNamespace
  end.
Proof using GL namespaces.
  intros Hdot. unfold validateReference. case_bool_decide as Hns; [by left|].
  destruct (list_ReferenceGrants _) as [l| |] eqn:El; cbn; [|split; [done|by left]|done]. apply list_ReferenceGrants_index in El as ->.
  destruct (existsb _ _) eqn:Ee.
  - right. apply existsb_iff in Ee as (g & [Hk Hg]%list_elem_of_filter & Hv). apply isReferenceGrantValid_iff in Hv.
    exists g. split; [done|]. replace targetNamespace with (rg_Namespace g); [done|].
    apply list_elem_of_fmap in Hk as (to & Hk & _). rewrite Forall_forall in namespaces.
    apply IndexKey_inj in Hk as [-> _]; auto.
  - split; [done|right]. split; [done|]. intros (g & Hg & Hp). assert (rg_Namespace g = targetNamespace) as Hgn by apply Hp.
    assert (existsb (λ grant, isReferenceGrantValid grant from fromNamespace target targetName)
      (filter (λ g, getReferenceGrantIndexKey targetNamespace (rk_Kind target) ∈ referenceGrantToTargetKindIndexFunc g) grants) = true)
      as Ht; [|by rewrite Ht in Ee].
    apply existsb_iff. exists g. split; [|apply isReferenceGrantValid_iff; by rewrite Hgn].
    apply list_elem_of_filter. split; [|done]. apply list_elem_of_fmap. destruct Hp as (_ & _ & _ & to & Hto & _ & Hk & _).
    exists to. by rewrite Hgn, Hk.
Qed.
End Permitted.
