(* ===== verification/RateLimit.v ===== *)
(** * The configuration of the rate limit service

    Models [internal/ratelimit/translator]: how a QuotaPolicy becomes a tree of
    rate limit descriptors, and how the trees of several policies are merged; and
    [UpdateConfigs] of [internal/ratelimit/runner].  The records are the fields of
    the resource types of [api/v1alpha1/quota_policy.go] that are read.  [sort.Slice]
    is not stable, so the sorting of headers is a class with its laws. *)

From Stdlib Require Import Ascii ZArith NArith Lia.
From stdpp Require Import base gmap strings list sorting.
From S2P Require Import Prelude GoStrings InternalApi Kube.

(** ** Quota policies *)

(** [egv1a1.HeaderMatch]. *)
Record HeaderMatch := {
  hm_Type : option string;
  hm_Name : string;
  hm_Value : option string;
  hm_Invert : option bool;
}.

Definition HeaderMatchExact : string := "Exact".
Definition HeaderMatchRegularExpression : string := "RegularExpression".
Definition HeaderMatchDistinct : string := "Distinct".

Definition isDistinct (header : HeaderMatch) : bool := bool_decide (hm_Type header = Some HeaderMatchDistinct).

(** [egv1a1.RateLimitSelectCondition], of which only the headers are used. *)
Record RateLimitSelectCondition := { sel_Headers : list HeaderMatch }.

Record QuotaLimitFromMetadata := { fm_Namespace : string; fm_Key : string }.

(** [Limit] is a [uint] of 64 bits. *)
Record QuotaValue := { qv_Limit : N; qv_Duration : string; qv_FromMetadata : option QuotaLimitFromMetadata }.

Record QuotaRule := {
  qr_ClientSelectors : list RateLimitSelectCondition;
  qr_Quota : QuotaValue;
  qr_ShadowMode : option bool;
}.

Record QuotaDefinition := { qd_CostExpression : option string; qd_DefaultBucket : QuotaValue; qd_BucketRules : list QuotaRule }.
Record PerModelQuota := { pm_ModelName : option string; pm_Quota : QuotaDefinition }.

(** [gwapiv1a2.NamespacedPolicyTargetReference]. *)
Record TargetReference := { tg_Group : string; tg_Kind : string; tg_Namespace : option string; tg_Name : string }.

Record QuotaPolicy := {
  qp_Namespace : string;
  qp_Name : string;
  qp_UID : string;
  qp_Deleted : bool;
  qp_HasFinalizer : bool;
  qp_TargetRefs : list TargetReference;
  qp_ServiceQuota : QuotaValue;
  qp_PerModelQuotas : list PerModelQuota;
}.

Record AIServiceBackend := { sb_Namespace : string; sb_Name : string }.

Definition TargetNamespace (ref : TargetReference) (policyNamespace : string) : string :=
  namespaceOr (tg_Namespace ref) policyNamespace.

Definition quotaPolicyTargetRefsIndexFunc (p : QuotaPolicy) : list string :=
  (λ ref, namespacedNameIndexKey (tg_Name ref) (TargetNamespace ref (qp_Namespace p))) <$> qp_TargetRefs p.

Definition quotaPolicyTargetNamespaceIndexFunc (p : QuotaPolicy) : list string :=
  foldl (λ seen ref, let ns := TargetNamespace ref (qp_Namespace p) in if bool_decide (ns ∈ seen) then seen else seen ++ [ns])
    [] (qp_TargetRefs p).

(** ** Descriptors *)

Inductive RateLimitUnit := SECOND | MINUTE | HOUR | DAY | WEEK | MONTH | YEAR.

Record RateLimitPolicy := { rl_RequestsPerUnit : N; rl_Unit : RateLimitUnit }.

(** [rlsconfv3.RateLimitDescriptor]. *)
Inductive RateLimitDescriptor := Descriptor {
  d_Key : string;
  d_Value : string;
  d_RateLimit : option RateLimitPolicy;
  d_Descriptors : list RateLimitDescriptor;
  d_ShadowMode : bool;
  d_QuotaMode : bool;
}.

Record RateLimitConfig := { rc_Name : string; rc_Domain : string; rc_Descriptors : list RateLimitDescriptor }.
Record KeyedDescriptor := { kd_ComparableKey : string; kd_Descriptor : RateLimitDescriptor }.

Definition QuotaDomain : string := "ai-gateway-quota".
Definition BackendNameDescriptorKey : string := "backend_name".
Definition ModelNameDescriptorKey : string := "model_name_override".

Definition ComparableKeySegment (key : string) (depth : nat) (value : string) : string := key +:+ "_" +:+ itoa depth +:+ "_" +:+ value.
Definition BackendDomainValue (namespace backendName : string) : string := namespace +:+ "/" +:+ backendName.

(** The value of a header match that is known before a request. *)
Definition headerMatchValue (header : HeaderMatch) : string := if isDistinct header then "" else default "" (hm_Value header).
Definition headerComparableValue (header : HeaderMatch) : string := if isDistinct header then "" else default "" (hm_Value header).

Definition BucketRuleDescriptorKey (ruleIndex matchIndex : nat) (headerName headerValue : string) : string :=
  if bool_decide (headerName = "") then "rule-" +:+ itoa ruleIndex +:+ "-match-" +:+ itoa matchIndex
  else if bool_decide (headerValue = "") then "rule-" +:+ itoa ruleIndex +:+ "-" +:+ headerName +:+ "-match-" +:+ itoa matchIndex
  else "rule-" +:+ itoa ruleIndex +:+ "-" +:+ headerName +:+ "|" +:+ headerValue +:+ "-match-" +:+ itoa matchIndex.

Definition DefaultBucketDescriptorKey (numRules : nat) : string := "rule-" +:+ itoa numRules +:+ "-match--1".

Definition parseDuration (s : string) : outcome RateLimitUnit :=
  if bool_decide (s = "1s") then Ok SECOND
  else if bool_decide (s = "1m") then Ok MINUTE
  else if bool_decide (s = "1h") then Ok HOUR
  else if bool_decide (s = "1d") then Ok DAY
  else if bool_decide (s = "1w") then Ok WEEK
  else if bool_decide (s = "1mo") then Ok MONTH
  else if bool_decide (s = "1y") then Ok YEAR
  else Fail (errors_New ("unsupported duration " +:+ Quote s +:+ ": must be one of 1s, 1m, 1h, 1d, 1w, 1mo, 1y")).

(** The limit is converted to 32 bits. *)
Definition quotaValueToPolicy (qv : QuotaValue) : outcome RateLimitPolicy :=
  let! unit := owrap ("invalid duration " +:+ Quote (qv_Duration qv) +:+ ": ") (parseDuration (qv_Duration qv)) in
  Ok {| rl_RequestsPerUnit := (qv_Limit qv mod 2 ^ 32)%N; rl_Unit := unit |}.

(** [sort.Slice] by header name. *)
Class SortHeaders := { sort_headers : list HeaderMatch → list HeaderMatch }.
Definition name_le (a b : HeaderMatch) : Prop := String.le (hm_Name a) (hm_Name b).
Class SortHeadersLaws (SH : SortHeaders) := {
  sort_headers_perm l : sort_headers l ≡ₚ l;
  sort_headers_sorted l : Sorted name_le (sort_headers l);
}.

(** The leaf of a rule, or the nodes above it. *)
Definition leafDescriptor (key value : string) (policy : RateLimitPolicy) (shadowMode : bool) : RateLimitDescriptor :=
  {| d_Key := key; d_Value := value; d_RateLimit := Some policy; d_Descriptors := []; d_ShadowMode := shadowMode; d_QuotaMode := true |}.
Definition innerDescriptor (key value : string) (nested : list RateLimitDescriptor) : RateLimitDescriptor :=
  {| d_Key := key; d_Value := value; d_RateLimit := None; d_Descriptors := nested; d_ShadowMode := false; d_QuotaMode := false |}.

(** One level for each header, the limit on the last. *)
Fixpoint headerChain (ruleIndex mIdx : nat) (header : HeaderMatch) (headers : list HeaderMatch) (policy : RateLimitPolicy)
    (shadowMode : bool) : RateLimitDescriptor :=
  let key := BucketRuleDescriptorKey ruleIndex mIdx (hm_Name header) (headerMatchValue header) in
  let value := if isDistinct header then "" else key in
  match headers with
  | [] => leafDescriptor key value policy shadowMode
  | next :: headers => innerDescriptor key value [headerChain ruleIndex (S mIdx) next headers policy shadowMode]
  end.

(** The first of the deepest descriptors. *)
Fixpoint findLeafDescriptor (desc : RateLimitDescriptor) : RateLimitDescriptor :=
  match d_Descriptors desc with
  | [] => desc
  | d :: _ => findLeafDescriptor d
  end.

Section Translator.
Context `{SH : !SortHeaders}.

Definition flattenAndSortHeaders (selectors : list RateLimitSelectCondition) : list HeaderMatch :=
  sort_headers (selectors ≫= sel_Headers).

Definition buildBucketRuleDescriptors (ruleIndex : nat) (rule : QuotaRule) : outcome (list RateLimitDescriptor) :=
  let! policy := quotaValueToPolicy (qr_Quota rule) in
  let shadowMode := bool_decide (qr_ShadowMode rule = Some true) in
  match flattenAndSortHeaders (qr_ClientSelectors rule) with
  | [] =>
      let key := BucketRuleDescriptorKey ruleIndex 0 "" "" in
      Ok [leafDescriptor key key policy shadowMode]
  | header :: headers => Ok [headerChain ruleIndex 0 header headers policy shadowMode]
  end.

Definition leafKey (modelPrefix : string) (rule : QuotaRule) : string :=
  match flattenAndSortHeaders (qr_ClientSelectors rule) with
  | [] => modelPrefix +:+ "/" +:+ ComparableKeySegment "__catch_all" 2 ""
  | headers =>
      (foldl (λ '(depth, key) header,
          (S depth, key +:+ "/" +:+ ComparableKeySegment (hm_Name header) (depth + 2) (headerComparableValue header)))
        (0, modelPrefix) headers).2
  end.

Definition buildServiceQuotaDescriptor (sq : QuotaValue) : outcome RateLimitDescriptor :=
  let! policy := quotaValueToPolicy sq in Ok (leafDescriptor ModelNameDescriptorKey "" policy false).

(** The descriptors of the rules from index [rIdx] on. *)
Fixpoint buildRules (modelPrefix : string) (rIdx : nat) (rules : list QuotaRule) : outcome (list RateLimitDescriptor * list KeyedDescriptor) :=
  match rules with
  | [] => Ok ([], [])
  | rule :: rules =>
      let! ruleDescs := owrap ("bucket rule " +:+ itoa rIdx +:+ ": ") (buildBucketRuleDescriptors rIdx rule) in
      let keyed := (λ rd, {| kd_ComparableKey := leafKey modelPrefix rule; kd_Descriptor := findLeafDescriptor rd |}) <$> ruleDescs in
      let! rest := buildRules modelPrefix (S rIdx) rules in
      Ok (ruleDescs ++ rest.1, keyed ++ rest.2)
  end.

Definition buildPerModelDescriptorKeyed (descriptorModelName : string) (quota : QuotaDefinition) (parentKeyPrefix : string) :
    outcome (RateLimitDescriptor * list KeyedDescriptor) :=
  let modelSegment := ComparableKeySegment ModelNameDescriptorKey 1 descriptorModelName in
  let modelPrefix := if bool_decide (parentKeyPrefix ≠ "") then parentKeyPrefix +:+ "/" +:+ modelSegment else modelSegment in
  match qd_BucketRules quota with
  | [] =>
      let! policy := quotaValueToPolicy (qd_DefaultBucket quota) in
      let desc := leafDescriptor ModelNameDescriptorKey descriptorModelName policy false in
      Ok (desc, [{| kd_ComparableKey := modelPrefix; kd_Descriptor := desc |}])
  | rules =>
      let! rules' := buildRules modelPrefix 0 rules in
      let! default' :=
        if (0 <? qv_Limit (qd_DefaultBucket quota))%N then
          let! defaultPolicy := quotaValueToPolicy (qd_DefaultBucket quota) in
          let defaultKey := DefaultBucketDescriptorKey (length rules) in
          let defaultDesc := leafDescriptor defaultKey defaultKey defaultPolicy false in
          Ok ([defaultDesc],
              [{| kd_ComparableKey := modelPrefix +:+ "/" +:+ ComparableKeySegment "__default" 2 ""; kd_Descriptor := defaultDesc |}])
        else Ok ([], []) in
      Ok (innerDescriptor ModelNameDescriptorKey descriptorModelName (rules'.1 ++ default'.1), rules'.2 ++ default'.2)
  end.

Definition buildModels (backendKeySegment : string) (quotas : list PerModelQuota) : outcome (list RateLimitDescriptor * list KeyedDescriptor) :=
  ofold (λ acc pmq,
      match pm_ModelName pmq with
      | None => Ok acc
      | Some modelName =>
          let! d := owrap ("model " +:+ Quote modelName +:+ ": ")
                      (buildPerModelDescriptorKeyed modelName (pm_Quota pmq) backendKeySegment) in
          Ok (acc.1 ++ [d.1], acc.2 ++ d.2)
      end) ([], []) quotas.

(** [None] when the policy sets no quota. *)
Definition buildBackendDescriptorKeyed (policy : QuotaPolicy) (backend : AIServiceBackend) :
    outcome (option (RateLimitDescriptor * list KeyedDescriptor)) :=
  let backendValue := BackendDomainValue (sb_Namespace backend) (sb_Name backend) in
  let backendKeySegment := ComparableKeySegment BackendNameDescriptorKey 0 backendValue in
  let! models := buildModels backendKeySegment (qp_PerModelQuotas policy) in
  let! service :=
    if (0 <? qv_Limit (qp_ServiceQuota policy))%N then
      let! desc := owrap "service quota: " (buildServiceQuotaDescriptor (qp_ServiceQuota policy)) in
      Ok ([desc], [{| kd_ComparableKey := backendKeySegment +:+ "/" +:+ ComparableKeySegment ModelNameDescriptorKey 1 "";
                      kd_Descriptor := desc |}])
    else Ok ([], []) in
  match models.1 ++ service.1 with
  | [] => Ok None
  | modelDescriptors =>
      Ok (Some (innerDescriptor BackendNameDescriptorKey backendValue modelDescriptors, models.2 ++ service.2))
  end.

Definition buildBackendDescriptor (policy : QuotaPolicy) (backend : AIServiceBackend) : outcome (option RateLimitDescriptor) :=
  let! d := buildBackendDescriptorKeyed policy backend in Ok (fst <$> d).

Definition BuildRateLimitConfigs (policy : QuotaPolicy) (backends : list AIServiceBackend) : outcome (list RateLimitConfig) :=
  let! backendDescriptors :=
    ofold (λ acc backend,
        let! desc := owrap ("failed to build descriptors for backend " +:+ sb_Namespace backend +:+ "/" +:+ sb_Name backend +:+ ": ")
                       (buildBackendDescriptor policy backend) in
        Ok (acc ++ option_list desc)) [] backends in
  match backendDescriptors with
  | [] => Ok []
  | _ => Ok [{| rc_Name := QuotaDomain; rc_Domain := QuotaDomain; rc_Descriptors := backendDescriptors |}]
  end.
End Translator.

Definition BackendNameFromDomain (domain : string) : option (string * string) :=
  match SplitN domain "/" 2 with
  | [ns; name] => Some (ns, name)
  | _ => None
  end.

(** ** Merging *)

Definition nodeKey (d : RateLimitDescriptor) : string := d_Key d +:+ String zero (d_Value d).

(** The descriptors seen so far, by key, in the order they were first seen. *)
Definition entries := list (string * RateLimitDescriptor).

Definition mergeInto (mergeAll : list RateLimitDescriptor → list RateLimitDescriptor) (existing d : RateLimitDescriptor) : RateLimitDescriptor :=
  {| d_Key := d_Key existing; d_Value := d_Value existing;
     d_RateLimit := match d_RateLimit existing with Some l => Some l | None => d_RateLimit d end;
     d_Descriptors :=
       match d_Descriptors d with
       | [] => d_Descriptors existing
       | children => mergeAll (d_Descriptors existing ++ children)
       end;
     d_ShadowMode := d_ShadowMode existing || d_ShadowMode d;
     d_QuotaMode := d_QuotaMode existing || d_QuotaMode d |}.

Fixpoint mergeEntry (mergeAll : list RateLimitDescriptor → list RateLimitDescriptor) (byKey : entries) (d : RateLimitDescriptor) : entries :=
  match byKey with
  | [] => [(nodeKey d, d)]
  | (key, existing) :: rest =>
      if bool_decide (key = nodeKey d) then (key, mergeInto mergeAll existing d) :: rest
      else (key, existing) :: mergeEntry mergeAll rest d
  end.

(** The recursion is on the children of two descriptors; its depth is at most that
    of the trees. *)
Fixpoint mergeFuel (fuel : nat) (descs : list RateLimitDescriptor) : list RateLimitDescriptor :=
  match fuel with
  | 0 => descs
  | S fuel => (foldl (mergeEntry (mergeFuel fuel)) [] descs).*2
  end.

Fixpoint height (d : RateLimitDescriptor) : nat := S (list_max (map height (d_Descriptors d))).
Definition forestHeight (ds : list RateLimitDescriptor) : nat := list_max (map height ds).

Definition MergeDescriptors (descs : list RateLimitDescriptor) : list RateLimitDescriptor := mergeFuel (S (forestHeight descs)) descs.

Definition MergeKeyedDescriptors (es : list KeyedDescriptor) : list KeyedDescriptor :=
  (foldl (λ '(seen, result) e,
      if bool_decide (kd_ComparableKey e ∈ (seen : gset string)) then (seen, result)
      else ({[kd_ComparableKey e]} ∪ seen, result ++ [e])) (∅, []) es).2.

(** ** The runner *)

(** The snapshot of the configuration server: [None] before [Start]. *)
Record Runner := { rn_started : bool; rn_snapshotVersion : Z; rn_snapshot : option (Z * list RateLimitConfig) }.

(** [cachev3.NewSnapshot] and [SetSnapshot]. *)
Class SnapshotCache := {
  NewSnapshot : Z → list RateLimitConfig → outcome unit;
  SetSnapshot : Z → list RateLimitConfig → outcome unit;
}.

Definition UpdateConfigs `{SnapshotCache} (r : Runner) (configs : list RateLimitConfig) : Runner * outcome unit :=
  if negb (rn_started r) then (r, Fail (errors_New "snapshot cache not initialized"))
  else
    let version := ((if bool_decide (rn_snapshotVersion r = 2 ^ 63 - 1) then 0 else rn_snapshotVersion r) + 1)%Z in
    let r := {| rn_started := rn_started r; rn_snapshotVersion := version; rn_snapshot := rn_snapshot r |} in
    match owrap "failed to create xDS snapshot: " (NewSnapshot version configs) with
    | Ok _ =>
        match owrap "failed to set xDS snapshot: " (SetSnapshot version configs) with
        | Ok _ => ({| rn_started := rn_started r; rn_snapshotVersion := version; rn_snapshot := Some (version, configs) |}, Ok tt)
        | e => (r, e)
        end
    | e => (r, e)
    end.

(** ** What the merge keeps *)

Section descriptor_ind.
Context (P : RateLimitDescriptor → Prop).
Context (node : ∀ k v l ds s q, Forall P ds → P (Descriptor k v l ds s q)).

(** Induction on descriptors with their children. *)
Fixpoint descriptor_nested_ind (d : RateLimitDescriptor) : P d :=
  match d with
  | Descriptor k v l ds s q =>
      node k v l ds s q ((fix go ds := match ds return Forall P ds with
                                       | [] => List.Forall_nil P
                                       | d :: ds => List.Forall_cons P d ds (descriptor_nested_ind d) (go ds)
                                       end) ds)
  end.
End descriptor_ind.

Lemma forestHeight_cons d ds : forestHeight (d :: ds) = height d `max` forestHeight ds.
Proof. done. Qed.

Lemma forestHeight_app l1 l2 : forestHeight (l1 ++ l2) = forestHeight l1 `max` forestHeight l2.
Proof. unfold forestHeight. by rewrite map_app, list_max_app. Qed.

Lemma height_children d : forestHeight (d_Descriptors d) < height d.
Proof. destruct d as [k v l ds sh q]. change (forestHeight ds < S (forestHeight ds)). lia. Qed.

Lemma entries_height_cons (key : string) d (acc : entries) : forestHeight ((key, d) :: acc).*2 = height d `max` forestHeight acc.*2.
Proof. done. Qed.

Section Heights.
Context (f : list RateLimitDescriptor → list RateLimitDescriptor) (smaller : ∀ ds, forestHeight (f ds) ≤ forestHeight ds).

Lemma mergeInto_height e d : height (mergeInto f e d) ≤ height e `max` height d.
Proof using smaller.
  pose proof (height_children e) as He. pose proof (height_children d) as Hd. change (height (mergeInto f e d)) with
    (S (forestHeight (d_Descriptors (mergeInto f e d)))). cbn [mergeInto d_Descriptors].
  destruct (d_Descriptors d) as [|c cs]; [lia|]. specialize (smaller (d_Descriptors e ++ c :: cs)). rewrite forestHeight_app in smaller. lia.
Qed.

Lemma mergeEntry_height acc d : forestHeight (mergeEntry f acc d).*2 ≤ forestHeight acc.*2 `max` height d.
Proof using smaller.
  induction acc as [|[key e] acc IH]; cbn [mergeEntry]; [cbn; lia|]. case_bool_decide; rewrite !entries_height_cons; [|lia].
  pose proof (mergeInto_height e d). lia.
Qed.

Lemma foldl_merge_height acc ds : forestHeight (foldl (mergeEntry f) acc ds).*2 ≤ forestHeight acc.*2 `max` forestHeight ds.
Proof using smaller.
  revert acc. induction ds as [|d ds IH]; intros acc; cbn [foldl]; [lia|]. rewrite IH. pose proof (mergeEntry_height acc d).
  rewrite forestHeight_cons. lia.
Qed.

(** The merge of children is only called below the height of the trees. *)
Lemma foldl_merge_ext g n acc ds :
  (∀ cs, forestHeight cs < n → f cs = g cs) → forestHeight acc.*2 ≤ n → forestHeight ds ≤ n →
  foldl (mergeEntry f) acc ds = foldl (mergeEntry g) acc ds.
Proof using smaller.
  intros Hfg. revert acc. induction ds as [|d ds IH]; intros acc Ha Hd; [done|]. cbn [foldl].
  rewrite forestHeight_cons in Hd.
  assert (mergeEntry f acc d = mergeEntry g acc d) as He.
  { clear IH. induction acc as [|[key e] acc IH]; [done|]. rewrite entries_height_cons in Ha. cbn [mergeEntry].
    rewrite IH by lia. case_bool_decide; [|done]. do 2 f_equal. unfold mergeInto. f_equal.
    destruct (d_Descriptors d) as [|c cs] eqn:Ec; [done|]. apply Hfg. rewrite forestHeight_app, <-Ec.
    pose proof (height_children e). pose proof (height_children d). lia. }
  rewrite <-He. apply IH; [|lia]. pose proof (mergeEntry_height acc d). lia.
Qed.
End Heights.

Lemma mergeFuel_height n ds : forestHeight (mergeFuel n ds) ≤ forestHeight ds.
Proof.
  revert ds. induction n as [|n IH]; intros ds; [done|]. cbn [mergeFuel]. rewrite (foldl_merge_height _ IH). cbn. lia.
Qed.

(** The depth of the recursion: more fuel than the height changes nothing. *)
Lemma mergeFuel_enough n m ds : forestHeight ds < n → forestHeight ds < m → mergeFuel n ds = mergeFuel m ds.
Proof.
  revert m ds. induction n as [|n IH]; intros [|m] ds Hn Hm; try lia. cbn [mergeFuel]. f_equal.
  apply (foldl_merge_ext _ (mergeFuel_height n) _ (forestHeight ds)); [|cbn; lia|done]. intros cs Hcs. apply IH; lia.
Qed.

(** The equation of the code. *)
Lemma MergeDescriptors_unfold ds : MergeDescriptors ds = (foldl (mergeEntry MergeDescriptors) [] ds).*2.
Proof.
  unfold MergeDescriptors at 1. cbn [mergeFuel]. f_equal.
  apply (foldl_merge_ext _ (mergeFuel_height _) _ (forestHeight ds)); [|cbn; lia|done]. intros cs Hcs. apply mergeFuel_enough; lia.
Qed.

(** *** What can be observed of a forest *)

(** The nodes with a key, and those under a path of keys. *)
Definition nodesOf (k : string) (ds : list RateLimitDescriptor) : list RateLimitDescriptor := filter (λ d, nodeKey d = k) ds.
Definition under (k : string) (ds : list RateLimitDescriptor) : list RateLimitDescriptor := nodesOf k ds ≫= d_Descriptors.
Definition nodesAt (path : list string) (k : string) (ds : list RateLimitDescriptor) : list RateLimitDescriptor :=
  nodesOf k (foldl (λ ds k, under k ds) ds path).

(** Whether there is a node, its first limit and its modes. *)
Definition firstLimit (ds : list RateLimitDescriptor) : option RateLimitPolicy := head (omap d_RateLimit ds).
Definition observe (ds : list RateLimitDescriptor) : bool * option RateLimitPolicy * bool * bool :=
  (bool_decide (ds = []), firstLimit ds, existsb d_QuotaMode ds, existsb d_ShadowMode ds).

(** Forests with the same limits and modes at every path. *)
Definition same_limits (ds1 ds2 : list RateLimitDescriptor) : Prop :=
  ∀ path k, observe (nodesAt path k ds1) = observe (nodesAt path k ds2).

#[export] Instance same_limits_equivalence : Equivalence same_limits.
Proof.
  split; [done|intros ? ? Hs path k; by rewrite Hs|intros ? ? ? H1 H2 path k; by rewrite H1].
Qed.

Lemma nodesOf_app k l1 l2 : nodesOf k (l1 ++ l2) = nodesOf k l1 ++ nodesOf k l2.
Proof. apply filter_app. Qed.

Lemma under_app k l1 l2 : under k (l1 ++ l2) = under k l1 ++ under k l2.
Proof. unfold under. by rewrite nodesOf_app, bind_app. Qed.

Lemma nodesAt_app path k l1 l2 : nodesAt path k (l1 ++ l2) = nodesAt path k l1 ++ nodesAt path k l2.
Proof.
  unfold nodesAt. revert l1 l2. induction path as [|k' path IH]; intros l1 l2; cbn [foldl]; [apply nodesOf_app|]. by rewrite under_app, IH.
Qed.

Lemma firstLimit_app l1 l2 : firstLimit (l1 ++ l2) = match firstLimit l1 with Some l => Some l | None => firstLimit l2 end.
Proof. unfold firstLimit. rewrite omap_app. by destruct (omap d_RateLimit l1). Qed.

Lemma observe_app l1 l2 :
  observe (l1 ++ l2) =
    let '(e1, r1, q1, s1) := observe l1 in let '(e2, r2, q2, s2) := observe l2 in
    (e1 && e2, match r1 with Some l => Some l | None => r2 end, q1 || q2, s1 || s2).
Proof. unfold observe. rewrite !existsb_app, firstLimit_app. by destruct l1, l2. Qed.

#[export] Instance same_limits_app : Proper (same_limits ==> same_limits ==> same_limits) app.
Proof. intros l1 l2 Hl m1 m2 Hm path k. rewrite !nodesAt_app, !observe_app. by rewrite Hl, Hm. Qed.

(** Equal nodes at the top and the same limits below. *)
Lemma same_limits_intro ds1 ds2 :
  (∀ k, observe (nodesOf k ds1) = observe (nodesOf k ds2) ∧ same_limits (under k ds1) (under k ds2)) → same_limits ds1 ds2.
Proof. intros Hk [|k' path] k; [apply Hk|]. apply (Hk k'). Qed.

(** *** The merge *)

(** The entries hold each key once, with a descriptor of that key. *)
Definition entries_ok (acc : entries) : Prop := NoDup acc.*1 ∧ Forall (λ e, e.1 = nodeKey e.2) acc.

Lemma mergeEntry_keys f acc d :
  (mergeEntry f acc d).*1 = if bool_decide (nodeKey d ∈ acc.*1) then acc.*1 else acc.*1 ++ [nodeKey d].
Proof.
  induction acc as [|[key e] acc IH]; [done|]. cbn [mergeEntry]. destruct (decide (key = nodeKey d)) as [Hk|Hk].
  - rewrite (bool_decide_true (key = _)) by done. cbn. rewrite bool_decide_true; [done|]. rewrite <-Hk. apply elem_of_cons. by left.
  - rewrite (bool_decide_false (key = _)) by done. cbn. rewrite IH. assert (nodeKey d ∈ key :: acc.*1 ↔ nodeKey d ∈ acc.*1) as Hiff.
    { rewrite elem_of_cons. naive_solver. }
    rewrite (bool_decide_ext _ _ Hiff). by destruct (bool_decide (nodeKey d ∈ acc.*1)).
Qed.

Lemma mergeEntry_ok f acc d : entries_ok acc → entries_ok (mergeEntry f acc d).
Proof.
  intros [Hn Hk]. split.
  - rewrite mergeEntry_keys. case_bool_decide as Hd; [done|]. apply NoDup_app. split_and!; [done| |apply NoDup_singleton].
    by intros k Hk' ->%list_elem_of_singleton.
  - clear Hn. induction Hk as [|[key e] acc He Hk IH]; cbn [mergeEntry]; [by repeat constructor|].
    case_bool_decide; (constructor; [exact He|done]).
Qed.

Lemma nodesOf_cons k d ds : nodesOf k (d :: ds) = if bool_decide (nodeKey d = k) then d :: nodesOf k ds else nodesOf k ds.
Proof. unfold nodesOf. rewrite filter_cons. case_bool_decide as Hd; [by rewrite decide_True|by rewrite decide_False]. Qed.

Lemma nodesOf_absent k (acc : entries) : Forall (λ e, e.1 = nodeKey e.2) acc → k ∉ acc.*1 → nodesOf k acc.*2 = [].
Proof.
  induction 1 as [|[key e] acc He Hk IH]; [done|]. rewrite !fmap_cons. cbn [fst snd] in *.
  intros [Hne Hin]%not_elem_of_cons. rewrite nodesOf_cons.
  rewrite bool_decide_false by congruence. auto.
Qed.

(** One more descriptor: as if it was appended. *)
Lemma mergeEntry_same f acc d :
  (∀ e, e ∈ acc.*2 → same_limits (f (d_Descriptors e ++ d_Descriptors d)) (d_Descriptors e ++ d_Descriptors d)) →
  entries_ok acc → same_limits (mergeEntry f acc d).*2 (acc.*2 ++ [d]).
Proof.
  intros Hf [Hn Hk]. induction Hk as [|[key e] acc He Hk IH]; [done|]. cbn in He, Hn. apply NoDup_cons in Hn as [Hin Hn].
  cbn [mergeEntry]. case_bool_decide as Hd.
  - cbn. apply same_limits_intro. intros k. unfold under.
    assert (nodesOf k (mergeInto f e d :: acc.*2) =
      if bool_decide (key = k) then [mergeInto f e d] else nodesOf k acc.*2) as ->.
    { rewrite nodesOf_cons. change (nodeKey (mergeInto f e d)) with (nodeKey e). rewrite <-He.
      case_bool_decide as Hkey; [|done]. subst k. by rewrite nodesOf_absent. }
    assert (nodesOf k (e :: acc.*2 ++ [d]) = if bool_decide (key = k) then [e; d] else nodesOf k acc.*2) as ->.
    { rewrite nodesOf_cons, nodesOf_app, nodesOf_cons. rewrite <-He, <-Hd. case_bool_decide as Hkey; [|by rewrite app_nil_r].
      subst k. by rewrite nodesOf_absent. }
    case_bool_decide as Hkey; [|done]. split.
    + unfold observe, firstLimit. cbn. destruct (d_RateLimit e), (d_RateLimit d); cbn; by rewrite ?orb_false_r.
    + cbn. rewrite !app_nil_r. specialize (Hf e ltac:(apply elem_of_cons; by left)).
      destruct (d_Descriptors d); [by rewrite app_nil_r|done].
  - cbn. change (e :: (mergeEntry f acc d).*2) with ([e] ++ (mergeEntry f acc d).*2).
    change (e :: acc.*2 ++ [d]) with ([e] ++ (acc.*2 ++ [d])).
    rewrite IH; [done| |done]. intros e' He'. apply Hf. apply elem_of_cons. by right.
Qed.

Lemma height_in d ds : d ∈ ds → height d ≤ forestHeight ds.
Proof.
  induction 1 as [d ds|d d' ds ? IH]; rewrite forestHeight_cons; lia.
Qed.

(** Merging keeps the first limit and the modes at every path. *)
Lemma merge_same ds : same_limits (MergeDescriptors ds) ds.
Proof.
  remember (forestHeight ds) as n eqn:En. revert ds En. induction (lt_wf n) as [n _ IH]. intros ds ->.
  rewrite MergeDescriptors_unfold.
  assert (∀ acc ds', forestHeight acc.*2 ≤ forestHeight ds → forestHeight ds' ≤ forestHeight ds → entries_ok acc →
    same_limits (foldl (mergeEntry MergeDescriptors) acc ds').*2 (acc.*2 ++ ds')) as Hfold.
  2:{ apply (Hfold []); [cbn; lia|done|]. split; constructor. }
  intros acc ds'. revert acc. induction ds' as [|d ds' IHd]; intros acc Ha Hd Hok; [by rewrite app_nil_r|].
  rewrite forestHeight_cons in Hd. cbn [foldl]. rewrite IHd; [| |lia|by apply mergeEntry_ok].
  - rewrite mergeEntry_same; [by rewrite <-app_assoc| |done]. intros e He. eapply IH; [|done].
    apply height_in in He. rewrite forestHeight_app. pose proof (height_children e). pose proof (height_children d). lia.
  - pose proof (mergeEntry_height MergeDescriptors (λ cs, mergeFuel_height _ cs) acc d). lia.
Qed.

(** Every level holds each key once. *)
Inductive unique_keys : list RateLimitDescriptor → Prop :=
| unique_keys_intro ds : NoDup (nodeKey <$> ds) → (∀ d, d ∈ ds → unique_keys (d_Descriptors d)) → unique_keys ds.

Lemma entries_nodeKey acc : Forall (λ e, e.1 = nodeKey e.2) acc → nodeKey <$> acc.*2 = acc.*1.
Proof. induction 1 as [|[key e] acc He Hk IH]; [done|]. cbn in *. by rewrite IH, He. Qed.

Lemma merge_entries_ok f acc ds : entries_ok acc → entries_ok (foldl (mergeEntry f) acc ds).
Proof. revert acc. induction ds as [|d ds IH]; intros acc Hok; [done|]. by apply IH, mergeEntry_ok. Qed.

Lemma merge_NoDup ds : NoDup (nodeKey <$> MergeDescriptors ds).
Proof.
  rewrite MergeDescriptors_unfold. destruct (merge_entries_ok MergeDescriptors [] ds) as [Hn Hk]; [split; constructor|].
  by rewrite entries_nodeKey.
Qed.

Lemma mergeEntry_children (P : list RateLimitDescriptor → Prop) f acc d :
  (∀ e, e ∈ acc.*2 → P (d_Descriptors e)) → P (d_Descriptors d) →
  (∀ e, e ∈ acc.*2 → P (f (d_Descriptors e ++ d_Descriptors d))) →
  ∀ e, e ∈ (mergeEntry f acc d).*2 → P (d_Descriptors e).
Proof.
  intros Ha Hd Hf. induction acc as [|[key e] acc IH]; cbn [mergeEntry]; [by intros e' ->%list_elem_of_singleton|].
  rewrite !fmap_cons in *. cbn [snd] in *. assert (e ∈ e :: acc.*2) as Hin by (apply elem_of_cons; by left).
  assert (∀ e', e' ∈ (mergeEntry f acc d).*2 → P (d_Descriptors e')) as IH'.
  { apply IH; intros e' He'; [apply Ha|apply Hf]; apply elem_of_cons; by right. }
  case_bool_decide; rewrite fmap_cons; intros e' [->|He']%elem_of_cons; auto.
  - cbn. specialize (Hf e Hin). destruct (d_Descriptors d); auto.
  - apply Ha. apply elem_of_cons. by right.
Qed.

Lemma unique_children ds1 ds2 d :
  unique_keys ds1 → unique_keys ds2 → d ∈ ds1 ++ ds2 → unique_keys (d_Descriptors d).
Proof. intros [? _ H1] [? _ H2] [?|?]%elem_of_app; auto. Qed.

Lemma merge_unique ds : (∀ d, d ∈ ds → unique_keys (d_Descriptors d)) → unique_keys (MergeDescriptors ds).
Proof.
  remember (forestHeight ds) as n eqn:En. revert ds En. induction (lt_wf n) as [n _ IH]. intros ds -> Hu.
  constructor; [apply merge_NoDup|]. rewrite MergeDescriptors_unfold.
  assert (∀ acc ds', forestHeight acc.*2 ≤ forestHeight ds → forestHeight ds' ≤ forestHeight ds →
    (∀ e, e ∈ acc.*2 → unique_keys (d_Descriptors e)) → (∀ e, e ∈ ds' → unique_keys (d_Descriptors e)) →
    ∀ e, e ∈ (foldl (mergeEntry MergeDescriptors) acc ds').*2 → unique_keys (d_Descriptors e)) as Hfold.
  2:{ apply (Hfold []); [cbn; lia|done| |done]. by intros e ?%elem_of_nil. }
  intros acc ds'. revert acc. induction ds' as [|d ds' IHd]; intros acc Ha Hd Hua Hud; [done|].
  rewrite forestHeight_cons in Hd. cbn [foldl]. assert (unique_keys (d_Descriptors d)) as Hd1 by (apply Hud, elem_of_cons; by left).
  apply IHd; [|lia| |intros e He; apply Hud, elem_of_cons; by right].
  - pose proof (mergeEntry_height MergeDescriptors (λ cs, mergeFuel_height _ cs) acc d). lia.
  - apply mergeEntry_children; [done..|]. intros e He. eapply IH; [|done|intros e' He'; apply (unique_children (d_Descriptors e) (d_Descriptors d)); auto].
    apply height_in in He. rewrite forestHeight_app. pose proof (height_children e). pose proof (height_children d). lia.
Qed.

(** Merging the trees of several policies keeps, at every path of keys, the
    first limit that any of them sets and every quota or shadow mode; the result
    holds each key once at its top level, and at every level when no tree that goes
    in repeats a key below its root. *)
Theorem MergeDescriptors_spec ds :
  same_limits (MergeDescriptors ds) ds ∧ NoDup (nodeKey <$> MergeDescriptors ds) ∧
  ((∀ d, d ∈ ds → unique_keys (d_Descriptors d)) → unique_keys (MergeDescriptors ds)).
Proof. split_and!; [apply merge_same|apply merge_NoDup|apply merge_unique]. Qed.

(** A key without a NUL stands for the key and the value. *)
Lemma nodeKey_inj d d' :
  Contains (d_Key d) zero = false → Contains (d_Key d') zero = false →
  nodeKey d = nodeKey d' ↔ d_Key d = d_Key d' ∧ d_Value d = d_Value d'.
Proof.
  intros Hd Hd'. unfold nodeKey. split; [|by intros [-> ->]]. intros He. assert (d_Key d = d_Key d') as Hk.
  { apply (f_equal (λ s, Split s zero)) in He. rewrite !Split_app in He by done. by simplify_eq. }
  split; [done|]. rewrite Hk in He. apply sapp_inj_l in He. by injection He.
Qed.

(** ** Permitted targets *)

(** The policy may refer to the target. *)
Definition targetPermitted (grants : list ReferenceGrant) (policy : QuotaPolicy) (target : TargetReference) : Prop :=
  let ns := TargetNamespace target (qp_Namespace policy) in
  qp_Namespace policy = ns ∨ ∃ g, g ∈ grants ∧ permits g policyKind (qp_Namespace policy) backendKind ns (tg_Name target).

(** Namespaces are labels, which have no dot. *)
Definition validTargets (policy : QuotaPolicy) : Prop :=
  Forall (λ target, Contains (TargetNamespace target (qp_Namespace policy)) "." = false) (qp_TargetRefs policy).

(** The value of the node of a backend. *)
Definition backendValue (backend : AIServiceBackend) : string := BackendDomainValue (sb_Namespace backend) (sb_Name backend).

Lemma build_backend_key `{SH : !SortHeaders} policy backend d :
  buildBackendDescriptor policy backend = Ok (Some d) → d_Key d = BackendNameDescriptorKey ∧ d_Value d = backendValue backend.
Proof.
  unfold buildBackendDescriptor, buildBackendDescriptorKeyed. intros (o & (ms & _ & (sv & _ & Ho)%obind_ok_inv)%obind_ok_inv & Hd)%obind_ok_inv.
  revert Ho. destruct (ms.1 ++ sv.1); intros [= <-]; [done|]. injection Hd as <-. done.
Qed.

Lemma buildConfigs_nodes `{SH : !SortHeaders} policy backends cfgs :
  BuildRateLimitConfigs policy backends = Ok cfgs →
  ∃ os, Forall2 (λ backend o, buildBackendDescriptor policy backend = Ok o) backends os ∧ (cfgs ≫= rc_Descriptors) = os ≫= option_list.
Proof.
  unfold BuildRateLimitConfigs. intros (ds & Hds & Hc)%obind_ok_inv.
  assert (∃ os, Forall2 (λ backend o, buildBackendDescriptor policy backend = Ok o) backends os ∧ ds = os ≫= option_list) as (os & Hos & ->).
  2:{ exists os. split; [done|]. destruct (os ≫= option_list); injection Hc as <-; [done|]. cbn. by rewrite app_nil_r. }
  clear Hc. revert Hds. set (f := λ acc backend, _).
  assert (∀ acc, ofold f acc backends = Ok ds → ∃ os, Forall2 (λ backend o, buildBackendDescriptor policy backend = Ok o) backends os ∧
    ds = acc ++ (os ≫= option_list)) as Hgen; [|apply Hgen].
  induction backends as [|backend backends IH]; intros acc; [intros [= <-]; exists []; by rewrite app_nil_r|].
  cbn [ofold]. unfold f at 1. intros (acc' & (o & Ho%owrap_ok_inv & [= <-])%obind_ok_inv & Hr)%obind_ok_inv.
  destruct (IH _ Hr) as (os & Hos & ->). exists (o :: os). split; [by constructor|]. cbn. by rewrite app_assoc.
Qed.
