(* ===== verification/QuotaController.v ===== *)
(** * The reconciler of quota policies

    Models [internal/controller/quota_policy.go] on the runner of [RateLimit]: the
    cache of rate limit configurations by policy, their merge and the snapshot the
    rate limit service is served, and the notification of routes.  The Kubernetes
    client is a class of the calls that are used, which stands for the cluster as it
    is when one reconciliation runs; status updates, finalizer updates and events
    are recorded in order.  The lock is held over each update of the cache with its
    snapshot, so a reconciliation is one step. *)

From Stdlib Require Import Ascii ZArith NArith Lia.
From stdpp Require Import base gmap strings list sorting.
From S2P Require Import Prelude GoStrings Kube RateLimit.

Definition ConditionTypeAccepted : string := "Accepted".
Definition ConditionTypeNotAccepted : string := "NotAccepted".
Definition ConditionReasonRefNotPermitted : string := "RefNotPermitted".

(** What a reconciliation does to the cluster and to other controllers. *)
Inductive qevent :=
| RouteEvent (route : AIGatewayRoute)
| StatusUpdate (namespace name conditionType reason : string)
| FinalizerUpdate (namespace name : string) (present : bool).

Record QuotaPolicyController := {
  qc_configCache : gmap string (list RateLimitConfig);
  qc_policyBackendKeys : gmap string (list string);
  qc_runner : Runner;
  qc_events : list qevent;
}.

Class QuotaKube := {
  get_QuotaPolicy : string → string → outcome QuotaPolicy;
  get_AIServiceBackend : string → string → outcome AIServiceBackend;
  list_AIGatewayRoutes : outcome (list AIGatewayRoute);
  list_AIGatewayRoutes_by_backend : string → outcome (list AIGatewayRoute);
  list_QuotaPolicies_by_backend : string → outcome (list QuotaPolicy);
}.

Definition setCache (cache : gmap string (list RateLimitConfig)) (c : QuotaPolicyController) : QuotaPolicyController :=
  {| qc_configCache := cache; qc_policyBackendKeys := qc_policyBackendKeys c; qc_runner := qc_runner c; qc_events := qc_events c |}.
Definition setBackendKeys (keys : gmap string (list string)) (c : QuotaPolicyController) : QuotaPolicyController :=
  {| qc_configCache := qc_configCache c; qc_policyBackendKeys := keys; qc_runner := qc_runner c; qc_events := qc_events c |}.
Definition setRunner (r : Runner) (c : QuotaPolicyController) : QuotaPolicyController :=
  {| qc_configCache := qc_configCache c; qc_policyBackendKeys := qc_policyBackendKeys c; qc_runner := r; qc_events := qc_events c |}.
Definition emit (es : list qevent) (c : QuotaPolicyController) : QuotaPolicyController :=
  {| qc_configCache := qc_configCache c; qc_policyBackendKeys := qc_policyBackendKeys c; qc_runner := qc_runner c;
     qc_events := qc_events c ++ es |}.

(** ** The merged configuration *)

(** The policies in the order of their keys. *)
Definition sortedPolicies (cache : gmap string (list RateLimitConfig)) : list string := merge_sort String.le (map_to_list cache).*1.
Definition cachedDescriptors (cache : gmap string (list RateLimitConfig)) (key : string) : list RateLimitDescriptor :=
  default [] (cache !! key) ≫= rc_Descriptors.

Definition getMergedConfigsLocked (cache : gmap string (list RateLimitConfig)) : list RateLimitConfig :=
  match sortedPolicies cache ≫= cachedDescriptors cache with
  | [] => []
  | allDescriptors => [{| rc_Name := QuotaDomain; rc_Domain := QuotaDomain; rc_Descriptors := MergeDescriptors allDescriptors |}]
  end.

(** [errors.Join]: the messages, one a line. *)
Definition errors_Join (errs : list error) : error := Err (Join (err_msg <$> errs) (chr 10)) (errs ≫= err_chain).

Section Controller.
Context `{SH : !SortHeaders} `{SC : !SnapshotCache} `{GC : !GrantClient} `{QK : !QuotaKube}.

Definition updateConfigs (c : QuotaPolicyController) : QuotaPolicyController * outcome unit :=
  let '(r, o) := UpdateConfigs (qc_runner c) (getMergedConfigsLocked (qc_configCache c)) in (setRunner r c, o).

(** The backends of the permitted targets that exist, and the errors of targets. *)
Definition resolveTarget (policy : QuotaPolicy) (acc : list AIServiceBackend * list error) (ref : TargetReference) :
    outcome (list AIServiceBackend * list error) :=
  let targetNamespace := TargetNamespace ref (qp_Namespace policy) in
  match validateQuotaPolicyAIServiceBackendReference (qp_Namespace policy) targetNamespace (tg_Name ref) with
  | Fail err => Ok (acc.1, acc.2 ++ [Errorf_w ("QuotaPolicy target " +:+ targetNamespace +:+ "/" +:+ tg_Name ref +:+ " is not permitted: ") err])
  | Panic m => Panic m
  | Ok _ =>
      match get_AIServiceBackend targetNamespace (tg_Name ref) with
      | Ok backend => Ok (acc.1 ++ [backend], acc.2)
      | Fail err =>
          if errors_Is err KubeNotFound then Ok acc
          else Fail (Errorf_w ("failed to get AIServiceBackend " +:+ NamespacedNameKey targetNamespace (tg_Name ref) +:+ ": ") err)
      | Panic m => Panic m
      end
  end.

Definition resolveTargets (policy : QuotaPolicy) : outcome (list AIServiceBackend * list error) :=
  let! r := ofold (resolveTarget policy) ([], []) (qp_TargetRefs policy) in
  match r.1, qp_TargetRefs policy with
  | [], (_ :: _) as refs =>
      Ok ([], r.2 ++ [errors_New ("none of the " +:+ itoa (length refs) +:+ " authorized target AIServiceBackends were found for QuotaPolicy " +:+
                                  qp_Namespace policy +:+ "/" +:+ qp_Name policy)])
  | _, _ => Ok r
  end.

Definition buildConfigs (policy : QuotaPolicy) (backends : list AIServiceBackend) : outcome (list RateLimitConfig) :=
  match backends with
  | [] => Ok []
  | _ => owrap ("failed to build rate limit configs for QuotaPolicy " +:+ qp_Namespace policy +:+ "/" +:+ qp_Name policy +:+ ": ")
           (BuildRateLimitConfigs policy backends)
  end.

Definition syncQuotaPolicy (c : QuotaPolicyController) (policy : QuotaPolicy) : QuotaPolicyController * outcome unit :=
  match (let! r := resolveTargets policy in let! configs := buildConfigs policy r.1 in Ok (configs, r.2)) with
  | Fail e => (c, Fail e)
  | Panic m => (c, Panic m)
  | Ok (configs, targetErrors) =>
      let cacheKey := NamespacedNameKey (qp_Namespace policy) (qp_Name policy) in
      let c := setCache (<[cacheKey := configs]> (qc_configCache c)) c in
      let c := setBackendKeys (<[cacheKey := quotaPolicyTargetRefsIndexFunc policy]> (qc_policyBackendKeys c)) c in
      let '(c, o) := updateConfigs c in
      (c, match o with
          | Ok _ => match targetErrors with [] => Ok tt | errs => Fail (errors_Join errs) end
          | e => e
          end)
  end.

Definition deleteQuotaPolicyConfig (c : QuotaPolicyController) (namespace name : string) : QuotaPolicyController * outcome unit :=
  updateConfigs (setCache (delete (NamespacedNameKey namespace name) (qc_configCache c)) c).

(** ** Notifications *)

(** Stops at the first list that fails. *)
Fixpoint notifyQuotaPolicyRoutesForKeys (c : QuotaPolicyController) (targetKeys : list string) : QuotaPolicyController * outcome unit :=
  match targetKeys with
  | [] => (c, Ok tt)
  | backendKey :: targetKeys =>
      match owrap ("failed to list AIGatewayRoutes for QuotaPolicy backend " +:+ backendKey +:+ ": ") (list_AIGatewayRoutes_by_backend backendKey) with
      | Ok routes => notifyQuotaPolicyRoutesForKeys (emit (RouteEvent <$> routes) c) targetKeys
      | Fail e => (c, Fail e)
      | Panic m => (c, Panic m)
      end
  end.

(** Goes on after a list that fails. *)
Definition notifyAIGatewayRoutes (c : QuotaPolicyController) (policy : QuotaPolicy) : QuotaPolicyController :=
  foldl (λ c key, match list_AIGatewayRoutes_by_backend key with Ok routes => emit (RouteEvent <$> routes) c | _ => c end)
    c (quotaPolicyTargetRefsIndexFunc policy).

Definition notifyAllAIGatewayRoutes (c : QuotaPolicyController) : QuotaPolicyController * outcome unit :=
  match owrap "failed to list AIGatewayRoutes for QuotaPolicy deletion recovery: " list_AIGatewayRoutes with
  | Ok routes => (emit (RouteEvent <$> routes) c, Ok tt)
  | Fail e => (c, Fail e)
  | Panic m => (c, Panic m)
  end.

(** Whether there were targets to notify. *)
Definition notifyQuotaPolicyRoutesOnDeletion (c : QuotaPolicyController) (namespace name : string) : QuotaPolicyController * outcome bool :=
  let cacheKey := NamespacedNameKey namespace name in
  let targetKeys := default [] (qc_policyBackendKeys c !! cacheKey) in
  let forget c := setBackendKeys (delete cacheKey (qc_policyBackendKeys c)) c in
  match targetKeys with
  | [] => (forget c, Ok false)
  | _ =>
      match notifyQuotaPolicyRoutesForKeys c targetKeys with
      | (c, Ok _) => (forget c, Ok true)
      | (c, Fail e) => (c, Fail e)
      | (c, Panic m) => (c, Panic m)
      end
  end.

Definition BackendToQuotaPolicy (name namespace : string) : list (string * string) :=
  match list_QuotaPolicies_by_backend (namespacedNameIndexKey name namespace) with
  | Ok policies => (λ p, (qp_Namespace p, qp_Name p)) <$> policies
  | _ => []
  end.

(** ** Reconciliation *)

Definition reconcileDeleted (c : QuotaPolicyController) (namespace name : string) : QuotaPolicyController * outcome unit :=
  match deleteQuotaPolicyConfig c namespace name with
  | (c, Ok _) =>
      match notifyQuotaPolicyRoutesOnDeletion c namespace name with
      | (c, Ok true) => (c, Ok tt)
      | (c, Ok false) => notifyAllAIGatewayRoutes c
      | (c, Fail e) => (c, Fail e)
      | (c, Panic m) => (c, Panic m)
      end
  | r => r
  end.

Definition statusOf (r : outcome unit) : string * string :=
  match r with
  | Fail e =>
      (ConditionTypeNotAccepted, if errors_Is e ReferenceNotPermittedError then ConditionReasonRefNotPermitted else "ReconciliationFailed")
  | _ => (ConditionTypeAccepted, "ReconciliationSucceeded")
  end.

Definition Reconcile (c : QuotaPolicyController) (namespace name : string) : QuotaPolicyController * outcome unit :=
  match get_QuotaPolicy namespace name with
  | Fail err => if errors_Is err KubeNotFound then reconcileDeleted c namespace name else (c, Fail err)
  | Panic m => (c, Panic m)
  | Ok policy =>
      let onDeletion c := (deleteQuotaPolicyConfig (notifyAIGatewayRoutes c policy) namespace name).1 in
      let update present := emit [FinalizerUpdate namespace name present] in
      let '(c, deleted) := handleFinalizer (qp_Deleted policy) (qp_HasFinalizer policy) onDeletion update c in
      if deleted then (c, Ok tt)
      else
        let cacheKey := NamespacedNameKey (qp_Namespace policy) (qp_Name policy) in
        let previousTargetKeys := default [] (qc_policyBackendKeys c !! cacheKey) in
        let '(c, r) := syncQuotaPolicy c policy in
        let '(conditionType, reason) := statusOf r in
        let c := emit [StatusUpdate (qp_Namespace policy) (qp_Name policy) conditionType reason] c in
        let c := notifyAIGatewayRoutes c policy in
        ((notifyQuotaPolicyRoutesForKeys c previousTargetKeys).1, r)
  end.
End Controller.

(** ** Precedence of policies *)

Lemma nodesAt_bind {A} path k (f : A → list RateLimitDescriptor) l : nodesAt path k (l ≫= f) = l ≫= λ x, nodesAt path k (f x).
Proof.
  induction l as [|x l IH]; [|cbn; by rewrite nodesAt_app, IH]. cbn. unfold nodesAt. by induction path as [|k' path IHp].
Qed.

Lemma firstLimit_bind {A} (f : A → list RateLimitDescriptor) l : firstLimit (l ≫= f) = head (omap (λ x, firstLimit (f x)) l).
Proof. induction l as [|x l IH]; [done|]. cbn. rewrite firstLimit_app, IH. by destruct (firstLimit (f x)). Qed.

(** The descriptors that are served. *)
Definition servedDescriptors (cache : gmap string (list RateLimitConfig)) : list RateLimitDescriptor :=
  getMergedConfigsLocked cache ≫= rc_Descriptors.

Lemma served_eq cache : servedDescriptors cache = MergeDescriptors (sortedPolicies cache ≫= cachedDescriptors cache).
Proof.
  unfold servedDescriptors, getMergedConfigsLocked. destruct (sortedPolicies cache ≫= cachedDescriptors cache); [done|]. cbn. by rewrite app_nil_r.
Qed.

(** When several policies limit the same path, the policy whose
    namespace and name come first in the order of strings decides: the limit that
    is served at any path of descriptors is the first one among the policies in
    that order, and which policies are reconciled first does not matter. *)
Theorem first_policy_decides cache path k :
  Sorted String.le (sortedPolicies cache) ∧ (∀ key, key ∈ sortedPolicies cache ↔ is_Some (cache !! key)) ∧
  firstLimit (nodesAt path k (servedDescriptors cache)) =
    head (omap (λ key, firstLimit (nodesAt path k (cachedDescriptors cache key))) (sortedPolicies cache)).
Proof.
  split_and!.
  - apply (Sorted_merge_sort String.le).
  - intros key. unfold sortedPolicies. rewrite merge_sort_Permutation, list_elem_of_fmap. split.
    + intros ([k' v] & -> & ?%elem_of_map_to_list). by exists v.
    + intros [v ?]. exists (key, v). split; [done|]. by apply elem_of_map_to_list.
  - rewrite served_eq. pose proof (merge_same (sortedPolicies cache ≫= cachedDescriptors cache) path k) as Hs.
    unfold observe in Hs. injection Hs as _ Hs _ _. rewrite Hs, nodesAt_bind. apply firstLimit_bind.
Qed.

(** ** What is served *)

(** Each reconciliation finds the cluster as it is then. *)
Inductive reachable `{SH : !SortHeaders} `{SC : !SnapshotCache} : QuotaPolicyController → Prop :=
| reachable_init r :
    rn_started r = true → rn_snapshot r = None →
    reachable {| qc_configCache := ∅; qc_policyBackendKeys := ∅; qc_runner := r; qc_events := [] |}
| reachable_step (GC : GrantClient) (QK : QuotaKube) c namespace name : reachable c → reachable (Reconcile c namespace name).1.

(** The snapshot of the service is that of the cache. *)
Definition snapshot_current (c : QuotaPolicyController) : Prop :=
  rn_started (qc_runner c) = true ∧
  (qc_configCache c = ∅ ∧ rn_snapshot (qc_runner c) = None ∨
   ∃ version, rn_snapshot (qc_runner c) = Some (version, getMergedConfigsLocked (qc_configCache c))).

Section Served.
Context `{SH : !SortHeaders} `{SC : !SnapshotCache}.
Context (snapshots_succeed : ∀ version configs, NewSnapshot version configs = Ok tt ∧ SetSnapshot version configs = Ok tt).

Lemma updateConfigs_current c : rn_started (qc_runner c) = true → snapshot_current (updateConfigs c).1 ∧ (updateConfigs c).2 = Ok tt.
Proof using snapshots_succeed.
  intros Hs. unfold updateConfigs, UpdateConfigs. rewrite Hs. cbn [negb]. set (v := (_ + 1)%Z).
  destruct (snapshots_succeed v (getMergedConfigsLocked (qc_configCache c))) as [-> ->]. cbn. split; [|done]. split; [done|right]. by exists v.
Qed.

Lemma emit_current es c : snapshot_current c → snapshot_current (emit es c).
Proof using Type. done. Qed.

Lemma keys_current keys c : snapshot_current c → snapshot_current (setBackendKeys keys c).
Proof using Type. done. Qed.

Section Step.
Context `{GC : !GrantClient} `{QK : !QuotaKube}.

Lemma notify_current c policy : snapshot_current c → snapshot_current (notifyAIGatewayRoutes c policy).
Proof using Type.
  unfold notifyAIGatewayRoutes. generalize (quotaPolicyTargetRefsIndexFunc policy). intros l. revert c.
  induction l as [|key l IH]; intros c Hc; [done|]. cbn [foldl]. apply IH. by destruct (list_AIGatewayRoutes_by_backend key).
Qed.

Lemma notifyKeys_current c keys : snapshot_current c → snapshot_current (notifyQuotaPolicyRoutesForKeys c keys).1.
Proof using Type.
  revert c. induction keys as [|key keys IH]; intros c Hc; [done|]. cbn. destruct (list_AIGatewayRoutes_by_backend key); [|done..].
  cbn. by apply IH, emit_current.
Qed.

Lemma delete_current c namespace name : snapshot_current c → snapshot_current (deleteQuotaPolicyConfig c namespace name).1.
Proof using snapshots_succeed. intros [Hs _]. by apply updateConfigs_current. Qed.

Lemma sync_current c policy : snapshot_current c → snapshot_current (syncQuotaPolicy c policy).1.
Proof using snapshots_succeed.
  intros Hc. unfold syncQuotaPolicy. destruct (obind _ _) as [[configs errs]| |]; [|done..].
  set (c1 := setBackendKeys _ _). destruct (updateConfigs_current c1) as [Hu _]; [apply Hc|]. by destruct (updateConfigs c1).
Qed.

Lemma reconcileDeleted_current c namespace name : snapshot_current c → snapshot_current (reconcileDeleted c namespace name).1.
Proof using snapshots_succeed.
  intros Hc. apply (delete_current _ namespace name) in Hc. unfold reconcileDeleted.
  destruct (deleteQuotaPolicyConfig c namespace name) as [c1 [[]| |]]; [|done..]. cbn in Hc. unfold notifyQuotaPolicyRoutesOnDeletion.
  destruct (default [] _) as [|k ks].
  - unfold notifyAllAIGatewayRoutes. by destruct (owrap _ _).
  - pose proof (notifyKeys_current c1 (k :: ks) Hc) as Hk. by destruct (notifyQuotaPolicyRoutesForKeys c1 (k :: ks)) as [c2 [[]| |]].
Qed.

Lemma Reconcile_current c namespace name : snapshot_current c → snapshot_current (Reconcile c namespace name).1.
Proof using snapshots_succeed.
  intros Hc. unfold Reconcile. destruct (get_QuotaPolicy namespace name) as [policy|e|]; [|destruct (errors_Is e KubeNotFound)|done].
  2:{ by apply reconcileDeleted_current. } 2:{ done. }
  unfold handleFinalizer. destruct (qp_Deleted policy); cbn [negb].
  - destruct (qp_HasFinalizer policy); [|done]. cbn. by apply emit_current, delete_current, notify_current.
  - set (c1 := if qp_HasFinalizer policy then _ else _). assert (snapshot_current c1) as H1 by (by destruct (qp_HasFinalizer policy)).
    apply (sync_current c1 policy) in H1. destruct (syncQuotaPolicy c1 policy) as [c2 r]. destruct (statusOf r) as [ct reason]. cbn [fst] in *.
    by apply notifyKeys_current, notify_current, emit_current.
Qed.
End Step.

(** The rate limit service is served what the policies say: in every
    sequence of reconciliations, of policies that are created, changed, refused and
    deleted in any order while the cluster changes, the snapshot is the merge of the
    configurations of exactly the policies in the cache. *)
Theorem snapshot_is_merged_cache c : reachable c → snapshot_current c.
Proof using snapshots_succeed.
  induction 1 as [r Hs Hn|GC QK c namespace name _ IH]; [|by apply Reconcile_current]. split; [done|]. by left.
Qed.
End Served.

Section Permitted.
Context `{SH : !SortHeaders} `{SC : !SnapshotCache} `{GC : !GrantClient} `{QK : !QuotaKube}.
Context (grants : list ReferenceGrant) `{GL : !GrantClientLaws GC grants}.
Context (namespaces : Forall (λ g, Contains (rg_Namespace g) "." = false) grants).
Context (get_named : ∀ ns name b, get_AIServiceBackend ns name = Ok b → b = {| sb_Namespace := ns; sb_Name := name |}).

Lemma resolveTargets_permitted policy backends errs b :
  validTargets policy → resolveTargets policy = Ok (backends, errs) → b ∈ backends →
  ∃ target, target ∈ qp_TargetRefs policy ∧ targetPermitted grants policy target ∧
    b = {| sb_Namespace := TargetNamespace target (qp_Namespace policy); sb_Name := tg_Name target |}.
Proof using GL namespaces get_named.
  unfold resolveTargets, validTargets. rewrite Forall_forall. intros Hv (r & Hr & Ho)%obind_ok_inv Hb.
  set (P := λ b, ∃ target, target ∈ qp_TargetRefs policy ∧ targetPermitted grants policy target ∧
    b = {| sb_Namespace := TargetNamespace target (qp_Namespace policy); sb_Name := tg_Name target |}).
  assert (∀ b, b ∈ r.1 → P b) as HP.
  { refine (ofold_inv (λ acc : list AIServiceBackend * list error, ∀ b, b ∈ acc.1 → P b) _ _ _ _ _ _ Hr); [by intros ? ?%elem_of_nil|].
    intros acc ref acc' Ha Href. unfold resolveTarget.
    pose proof (validateReference_spec grants namespaces policyKind (qp_Namespace policy) backendKind
      (TargetNamespace ref (qp_Namespace policy)) (tg_Name ref) (Hv _ Href)) as Hspec.
    unfold validateQuotaPolicyAIServiceBackendReference. destruct (validateReference _ _ _ _ _); [|by intros [= <-]|done].
    destruct (get_AIServiceBackend _ _) as [b'|e|] eqn:Eg; [|destruct (errors_Is e KubeNotFound); [|done]; by intros [= <-]|done].
    intros [= <-] b0 [Hb0| ->%list_elem_of_singleton]%elem_of_app; [auto|]. exists ref. split_and!; [done|exact Hspec|by apply get_named]. }
  destruct r as [bs es]. cbn [fst] in *. destruct bs; [|injection Ho as <- _; by apply HP].
  destruct (qp_TargetRefs policy); injection Ho as <- _; by apply elem_of_nil in Hb.
Qed.

(** The rate limit service holds no limit for a backend a policy may not
    refer to: after a policy was synchronized, either nothing of it was changed and
    the error is reported, or every descriptor cached for it is that of an existing
    backend it targets in its own namespace or by leave of a reference grant. *)
Theorem served_backends_permitted c policy c' r :
  validTargets policy → syncQuotaPolicy c policy = (c', r) →
  (c' = c ∧ is_ok r = false) ∨
  ∀ d, d ∈ cachedDescriptors (qc_configCache c') (NamespacedNameKey (qp_Namespace policy) (qp_Name policy)) →
    ∃ target, target ∈ qp_TargetRefs policy ∧ targetPermitted grants policy target ∧
      d_Key d = BackendNameDescriptorKey ∧ d_Value d = NamespacedNameKey (TargetNamespace target (qp_Namespace policy)) (tg_Name target).
Proof using GL namespaces get_named.
  intros Hv. unfold syncQuotaPolicy. destruct (obind _ _) as [[configs errs]| |] eqn:E; [|intros [= <- <-]; by left..].
  apply obind_ok_inv in E as ([backends errs'] & Hres & (configs' & Hcfg & [= <- <-])%obind_ok_inv). cbn [fst snd] in Hcfg.
  set (key := NamespacedNameKey _ _). set (c1 := setBackendKeys _ _).
  assert (qc_configCache (updateConfigs c1).1 = <[key := configs']> (qc_configCache c)) as Hcache.
  { unfold updateConfigs. by destruct (UpdateConfigs _ _). }
  destruct (updateConfigs c1) as [c2 o]. cbn [fst] in Hcache. intros [= <- _]. right. intros d.
  unfold cachedDescriptors. rewrite Hcache, lookup_insert_eq. cbn [default]. intros Hd.
  destruct backends as [|b0 bs]; [injection Hcfg as <-; by apply elem_of_nil in Hd|].
  apply owrap_ok_inv in Hcfg. apply buildConfigs_nodes in Hcfg as (os & Hos & Hds). cbn in Hd. unfold id in Hd. rewrite Hds in Hd.
  apply list_elem_of_bind in Hd as (o' & Ho' & Hin). apply list_elem_of_lookup_1 in Hin as (i & Hi).
  destruct (Forall2_lookup_r _ _ _ _ _ Hos Hi) as (b & Hb & Hbuild). destruct o' as [d'|]; [|by apply elem_of_nil in Ho'].
  apply list_elem_of_singleton in Ho' as ->. destruct (build_backend_key _ _ _ Hbuild) as [Hk Hval].
  destruct (resolveTargets_permitted _ _ _ _ Hv Hres (list_elem_of_lookup_2 _ _ _ Hb)) as (target & Ht & Hp & ->). exists target. done.
Qed.
End Permitted.

(** ** Samples *)
Module Sample.

#[export] Instance sortHeaders : SortHeaders := {| sort_headers := merge_sort name_le |}.
#[export] Instance name_le_dec : RelDecision name_le.
Proof. intros a b. unfold name_le. apply _. Defined.
#[export] Instance name_le_total : Total name_le.
Proof. intros a b. apply (total String.le). Qed.
#[export] Instance sortHeadersLaws : SortHeadersLaws sortHeaders.
Proof. split; intros l; [apply merge_sort_Permutation|apply (Sorted_merge_sort name_le)]. Qed.

#[export] Instance snapshots : SnapshotCache := {| NewSnapshot _ _ := Ok tt; SetSnapshot _ _ := Ok tt |}.

Definition grant : ReferenceGrant :=
  {| rg_Namespace := "infra"; rg_Name := "quotas"; rg_Deleted := false;
     rg_From := [{| gf_Group := aiServiceBackendGroup; gf_Kind := quotaPolicyKind; gf_Namespace := "team" |}];
     rg_To := [{| gt_Group := aiServiceBackendGroup; gt_Kind := aiServiceBackendKind; gt_Name := Some "shared" |}] |}.
#[export] Instance grantClient : GrantClient :=
  {| list_ReferenceGrants key := Ok (filter (λ g, key ∈ referenceGrantToTargetKindIndexFunc g) [grant]) |}.
#[export] Instance grantClientLaws : GrantClientLaws grantClient [grant].
Proof. split. by intros key l [= <-]. Qed.

Definition value (limit : N) (duration : string) : QuotaValue := {| qv_Limit := limit; qv_Duration := duration; qv_FromMetadata := None |}.
Definition header (type name value : string) : HeaderMatch :=
  {| hm_Type := Some type; hm_Name := name; hm_Value := Some value; hm_Invert := None |}.
Definition ruleOn (hs : list HeaderMatch) : QuotaRule :=
  {| qr_ClientSelectors := [{| sel_Headers := hs |}]; qr_Quota := value 10 "1h"; qr_ShadowMode := None |}.
Definition quotaOn (hs : list HeaderMatch) : QuotaDefinition := {| qd_CostExpression := None; qd_DefaultBucket := value 100 "1d"; qd_BucketRules := [ruleOn hs] |}.
Definition tierAndUser : QuotaDefinition := quotaOn [header HeaderMatchDistinct "x-user" ""; header HeaderMatchExact "x-tier" "gold"].

Definition target (ns : option string) (name : string) : TargetReference :=
  {| tg_Group := aiServiceBackendGroup; tg_Kind := aiServiceBackendKind; tg_Namespace := ns; tg_Name := name |}.

(** A policy of namespace team on a backend of its own, one it may refer to and
    one it may not. *)
Definition policy (quotas : list PerModelQuota) : QuotaPolicy :=
  {| qp_Namespace := "team"; qp_Name := "quota"; qp_UID := "1"; qp_Deleted := false; qp_HasFinalizer := true;
     qp_TargetRefs := [target None "openai"; target (Some "infra") "shared"; target (Some "infra") "private"];
     qp_ServiceQuota := value 0 "1d"; qp_PerModelQuotas := quotas |}.
Definition model (name : string) (quota : QuotaDefinition) : PerModelQuota := {| pm_ModelName := Some name; pm_Quota := quota |}.
Definition quotaPolicy : QuotaPolicy :=
  policy [model "gpt-4" tierAndUser; model "gpt-3" {| qd_CostExpression := None; qd_DefaultBucket := value 5 "1m"; qd_BucketRules := [] |}].

#[export] Instance quotaKube : QuotaKube :=
  {| get_QuotaPolicy ns name := if bool_decide (name = "quota") then Ok quotaPolicy else Fail (errors_Sentinel "not found" KubeNotFound);
     get_AIServiceBackend ns name := Ok {| sb_Namespace := ns; sb_Name := name |};
     list_AIGatewayRoutes := Ok []; list_AIGatewayRoutes_by_backend _ := Ok []; list_QuotaPolicies_by_backend _ := Ok [quotaPolicy] |}.

Definition start : QuotaPolicyController :=
  {| qc_configCache := ∅; qc_policyBackendKeys := ∅;
     qc_runner := {| rn_started := true; rn_snapshotVersion := 2 ^ 63 - 1; rn_snapshot := None |}; qc_events := [] |}.

(** Served after a reconciliation, gone after the policy is deleted. *)
Definition reconciled : QuotaPolicyController := (Reconcile start "team" "quota").1.

Lemma snapshot_is_merged_cache_witness :
  snapshot_current reconciled ∧ rn_snapshotVersion (qc_runner reconciled) = 1%Z ∧
  d_Value <$> servedDescriptors (qc_configCache reconciled) = ["team/openai"; "infra/shared"].
Proof.
  split; [|split; vm_compute; reflexivity].
  apply snapshot_is_merged_cache; [done|]. apply reachable_step, reachable_init; reflexivity.
Defined.

Lemma served_backends_permitted_witness :
  Forall (λ d, d_Value d ≠ "infra/private") (cachedDescriptors (qc_configCache (syncQuotaPolicy start quotaPolicy).1) "team/quota").
Proof.
  destruct (served_backends_permitted [grant] ltac:(by repeat constructor) ltac:(by intros ? ? ? [= <-]) start quotaPolicy
    (syncQuotaPolicy start quotaPolicy).1 (syncQuotaPolicy start quotaPolicy).2) as [[Hc _]|Hp].
  - by repeat constructor.
  - by destruct (syncQuotaPolicy start quotaPolicy).
  - apply (f_equal (λ c, length (map_to_list (qc_configCache c)))) in Hc. vm_compute in Hc. discriminate.
  - apply Forall_forall. intros d Hd. destruct (Hp d Hd) as (t & Ht & Hperm & _ & ->). vm_compute in Ht |- *.
    apply elem_of_cons in Ht as [->|[->|[->|[]%elem_of_nil]%elem_of_cons]%elem_of_cons]; [discriminate..|].
    exfalso. destruct Hperm as [He|(g & Hg & Hperm)]; [discriminate|]. apply list_elem_of_singleton in Hg as ->.
    destruct Hperm as (_ & _ & _ & to & Hto & _ & _ & Hn). apply list_elem_of_singleton in Hto as ->.
    destruct Hn as [Hn|Hn]; discriminate.
Defined.

(** A limit of 2^32 wraps around to a limit of zero. *)
Lemma large_limit_wraps : quotaValueToPolicy (value (2 ^ 32) "1d") = Ok {| rl_RequestsPerUnit := 0; rl_Unit := DAY |}.
Proof. reflexivity. Qed.

(** A model that a policy names twice is not merged when no other policy shares
    the backend. *)
Lemma repeated_model_not_merged :
  let p := policy [model "gpt-4" tierAndUser; model "gpt-4" {| qd_CostExpression := None; qd_DefaultBucket := value 5 "1m"; qd_BucketRules := [] |}] in
  (λ d, d_Value <$> d_Descriptors d) <$> servedDescriptors (qc_configCache (syncQuotaPolicy start p).1) =
    [["gpt-4"; "gpt-4"]; ["gpt-4"; "gpt-4"]].
Proof. vm_compute. reflexivity. Qed.
End Sample.
