(* ===== verification/TokenUsage.v ===== *)
(** * Token usage

    Models the [TokenUsage] value of [internal/metrics/metrics.go]: six
    [uint32] counters, each with a flag saying whether it was reported. *)

From Stdlib Require Import ZArith Lia.
From stdpp Require Import base numbers list.
From S2P Require Import Prelude GoNum.

Local Open Scope Z_scope.

Record TokenUsage := mkUsage {
  inputTokens : Z;
  outputTokens : Z;
  totalTokens : Z;
  cachedInputTokens : Z;
  cacheCreationInputTokens : Z;
  reasoningTokens : Z;
  inputTokenSet : bool;
  outputTokenSet : bool;
  totalTokenSet : bool;
  cachedInputTokenSet : bool;
  cacheCreationInputTokenSet : bool;
  reasoningTokenSet : bool;
}.

#[global] Instance TokenUsage_eq_dec : EqDecision TokenUsage.
Proof. solve_decision. Defined.

(** The zero value of the struct. *)
Definition zeroUsage : TokenUsage :=
  mkUsage 0 0 0 0 0 0 false false false false false false.

(** ** Accessors *)

Definition InputTokens (u : TokenUsage) : Z * bool := (inputTokens u, inputTokenSet u).
Definition OutputTokens (u : TokenUsage) : Z * bool := (outputTokens u, outputTokenSet u).
Definition TotalTokens (u : TokenUsage) : Z * bool := (totalTokens u, totalTokenSet u).
Definition CachedInputTokens (u : TokenUsage) : Z * bool :=
  (cachedInputTokens u, cachedInputTokenSet u).
Definition CacheCreationInputTokens (u : TokenUsage) : Z * bool :=
  (cacheCreationInputTokens u, cacheCreationInputTokenSet u).
Definition ReasoningTokens (u : TokenUsage) : Z * bool := (reasoningTokens u, reasoningTokenSet u).

(** ** Setters.  The arguments have type [uint32]. *)

Definition SetInputTokens (t : Z) (u : TokenUsage) : TokenUsage :=
  mkUsage t (outputTokens u) (totalTokens u) (cachedInputTokens u) (cacheCreationInputTokens u)
    (reasoningTokens u) true (outputTokenSet u) (totalTokenSet u) (cachedInputTokenSet u)
    (cacheCreationInputTokenSet u) (reasoningTokenSet u).

Definition SetOutputTokens (t : Z) (u : TokenUsage) : TokenUsage :=
  mkUsage (inputTokens u) t (totalTokens u) (cachedInputTokens u) (cacheCreationInputTokens u)
    (reasoningTokens u) (inputTokenSet u) true (totalTokenSet u) (cachedInputTokenSet u)
    (cacheCreationInputTokenSet u) (reasoningTokenSet u).

Definition SetTotalTokens (t : Z) (u : TokenUsage) : TokenUsage :=
  mkUsage (inputTokens u) (outputTokens u) t (cachedInputTokens u) (cacheCreationInputTokens u)
    (reasoningTokens u) (inputTokenSet u) (outputTokenSet u) true (cachedInputTokenSet u)
    (cacheCreationInputTokenSet u) (reasoningTokenSet u).

Definition SetCachedInputTokens (t : Z) (u : TokenUsage) : TokenUsage :=
  mkUsage (inputTokens u) (outputTokens u) (totalTokens u) t (cacheCreationInputTokens u)
    (reasoningTokens u) (inputTokenSet u) (outputTokenSet u) (totalTokenSet u) true
    (cacheCreationInputTokenSet u) (reasoningTokenSet u).

Definition SetCacheCreationInputTokens (t : Z) (u : TokenUsage) : TokenUsage :=
  mkUsage (inputTokens u) (outputTokens u) (totalTokens u) (cachedInputTokens u) t
    (reasoningTokens u) (inputTokenSet u) (outputTokenSet u) (totalTokenSet u)
    (cachedInputTokenSet u) true (reasoningTokenSet u).

Definition SetReasoningTokens (t : Z) (u : TokenUsage) : TokenUsage :=
  mkUsage (inputTokens u) (outputTokens u) (totalTokens u) (cachedInputTokens u)
    (cacheCreationInputTokens u) t (inputTokenSet u) (outputTokenSet u) (totalTokenSet u)
    (cachedInputTokenSet u) (cacheCreationInputTokenSet u) true.

(** ** Increments, with [uint32] wrap-around *)

Definition AddInputTokens (t : Z) (u : TokenUsage) : TokenUsage :=
  SetInputTokens (uint32 (inputTokens u + t)) u.
Definition AddOutputTokens (t : Z) (u : TokenUsage) : TokenUsage :=
  SetOutputTokens (uint32 (outputTokens u + t)) u.
Definition AddCachedInputTokens (t : Z) (u : TokenUsage) : TokenUsage :=
  SetCachedInputTokens (uint32 (cachedInputTokens u + t)) u.
Definition AddCacheCreationInputTokens (t : Z) (u : TokenUsage) : TokenUsage :=
  SetCacheCreationInputTokens (uint32 (cacheCreationInputTokens u + t)) u.
Definition AddReasoningTokens (t : Z) (u : TokenUsage) : TokenUsage :=
  SetReasoningTokens (uint32 (reasoningTokens u + t)) u.

Definition IsZero (u : TokenUsage) : bool :=
  negb (inputTokenSet u) && negb (outputTokenSet u) && negb (totalTokenSet u) &&
  negb (cachedInputTokenSet u) && negb (cacheCreationInputTokenSet u) && negb (reasoningTokenSet u).

(** [u.Override(other)]: the fields set in [other] replace those of [u]. *)
Definition Override (u other : TokenUsage) : TokenUsage :=
  let u := if inputTokenSet other then SetInputTokens (inputTokens other) u else u in
  let u := if outputTokenSet other then SetOutputTokens (outputTokens other) u else u in
  let u := if totalTokenSet other then SetTotalTokens (totalTokens other) u else u in
  let u := if cachedInputTokenSet other
           then SetCachedInputTokens (cachedInputTokens other) u else u in
  let u := if cacheCreationInputTokenSet other
           then SetCacheCreationInputTokens (cacheCreationInputTokens other) u else u in
  let u := if reasoningTokenSet other then SetReasoningTokens (reasoningTokens other) u else u in
  u.

(** The sums are [int64] sums; the counters are truncated to [uint32]. *)
Definition ExtractTokenUsageFromExplicitCaching
    (input output : Z) (cacheRead cacheCreation : option Z) : TokenUsage :=
  let usage := zeroUsage in
  let totalInput := input in
  let '(totalInput, usage) :=
    match cacheCreation with
    | Some c => (int64 (totalInput + c), SetCacheCreationInputTokens (uint32 c) usage)
    | None => (totalInput, usage)
    end in
  let '(totalInput, usage) :=
    match cacheRead with
    | Some c => (int64 (totalInput + c), SetCachedInputTokens (uint32 c) usage)
    | None => (totalInput, usage)
    end in
  let usage := SetInputTokens (uint32 totalInput) usage in
  let usage := SetOutputTokens (uint32 output) usage in
  SetTotalTokens (uint32 (int64 (totalInput + output))) usage.

(** ** The fields by name *)

Inductive token_field :=
| FInput | FOutput | FTotal | FCached | FCacheCreation | FReasoning.

(** What the accessor of a field reports, [None] when it is not set. *)
Definition reported (f : token_field) (u : TokenUsage) : option Z :=
  let r := match f with
           | FInput => InputTokens u
           | FOutput => OutputTokens u
           | FTotal => TotalTokens u
           | FCached => CachedInputTokens u
           | FCacheCreation => CacheCreationInputTokens u
           | FReasoning => ReasoningTokens u
           end in
  if r.2 then Some r.1 else None.

Definition usage_wf (u : TokenUsage) : Prop :=
  in_uint32 (inputTokens u) ∧ in_uint32 (outputTokens u) ∧ in_uint32 (totalTokens u) ∧
  in_uint32 (cachedInputTokens u) ∧ in_uint32 (cacheCreationInputTokens u) ∧
  in_uint32 (reasoningTokens u).

(** ** Properties *)

Lemma zeroUsage_wf : usage_wf zeroUsage.
Proof. by vm_compute. Qed.

Lemma Override_wf u o : usage_wf u → usage_wf o → usage_wf (Override u o).
Proof.
  intros Hu Ho. unfold Override, usage_wf in *.
  destruct Hu as (?&?&?&?&?&?), Ho as (?&?&?&?&?&?).
  repeat case_match; simpl; done.
Qed.

Lemma reported_Override f u o :
  reported f (Override u o) = match reported f o with Some t => Some t | None => reported f u end.
Proof.
  destruct o as [i1 o1 t1 c1 cc1 r1 [][][][][][]], f; reflexivity.
Qed.

Lemma IsZero_spec u : IsZero u = true ↔ ∀ f, reported f u = None.
Proof.
  unfold IsZero. split.
  - intros H. rewrite !andb_true_iff, !negb_true_iff in H.
    destruct H as [[[[[H1 H2] H3] H4] H5] H6].
    intros []; unfold reported; simpl; by rewrite ?H1, ?H2, ?H3, ?H4, ?H5, ?H6.
  - intros H. rewrite !andb_true_iff, !negb_true_iff.
    pose proof (H FInput) as H1; pose proof (H FOutput) as H2; pose proof (H FTotal) as H3;
    pose proof (H FCached) as H4; pose proof (H FCacheCreation) as H5;
    pose proof (H FReasoning) as H6. unfold reported in *. simpl in *.
    repeat case_match; done.
Qed.

(** The last reported value of a field in a sequence of usages. *)
Definition last_reported (f : token_field) (us : list TokenUsage) : option Z :=
  foldl (λ acc u, match reported f u with Some t => Some t | None => acc end) None us.

Lemma reported_foldl f us u0 :
  reported f (foldl Override u0 us) =
    foldl (λ acc u, match reported f u with Some t => Some t | None => acc end) (reported f u0) us.
Proof.
  revert u0; induction us as [|u us IH]; intros u0; simpl; [done|].
  by rewrite IH, reported_Override.
Qed.

(** Accumulating a stream of cumulative usage reports with [Override]
    keeps, for every counter, exactly the last value the provider reported,
    and a counter no report set stays unset. *)
Theorem Override_accumulates f us :
  reported f (foldl Override zeroUsage us) = last_reported f us.
Proof. rewrite reported_foldl. by destruct f. Qed.

(** Overriding is idempotent and a usage that reports nothing changes
    nothing. *)
Theorem Override_idemp_unit u o :
  Override (Override u o) o = Override u o ∧ (IsZero o = true → Override u o = u).
Proof.
  split.
  - destruct u, o as [? ? ? ? ? ? [][][][][][]]; reflexivity.
  - unfold IsZero, Override. rewrite !andb_true_iff, !negb_true_iff.
    intros [[[[[-> ->] ->] ->] ->] ->]. reflexivity.
Qed.

(** The operations of a [TokenUsage]. *)
Inductive usage_op :=
| OpSetInput (t : Z) | OpSetOutput (t : Z) | OpSetTotal (t : Z) | OpSetCached (t : Z)
| OpSetCacheCreation (t : Z) | OpSetReasoning (t : Z)
| OpAddInput (t : Z) | OpAddOutput (t : Z) | OpAddCached (t : Z) | OpAddCacheCreation (t : Z)
| OpAddReasoning (t : Z)
| OpOverride (o : TokenUsage).

Definition run_usage_op (u : TokenUsage) (op : usage_op) : TokenUsage :=
  match op with
  | OpSetInput t => SetInputTokens t u
  | OpSetOutput t => SetOutputTokens t u
  | OpSetTotal t => SetTotalTokens t u
  | OpSetCached t => SetCachedInputTokens t u
  | OpSetCacheCreation t => SetCacheCreationInputTokens t u
  | OpSetReasoning t => SetReasoningTokens t u
  | OpAddInput t => AddInputTokens t u
  | OpAddOutput t => AddOutputTokens t u
  | OpAddCached t => AddCachedInputTokens t u
  | OpAddCacheCreation t => AddCacheCreationInputTokens t u
  | OpAddReasoning t => AddReasoningTokens t u
  | OpOverride o => Override u o
  end.

(** The arguments of an operation have the types of the Go signature. *)
Definition usage_op_ok (op : usage_op) : Prop :=
  match op with
  | OpSetInput t | OpSetOutput t | OpSetTotal t | OpSetCached t | OpSetCacheCreation t
  | OpSetReasoning t | OpAddInput t | OpAddOutput t | OpAddCached t | OpAddCacheCreation t
  | OpAddReasoning t => in_uint32 t
  | OpOverride o => usage_wf o
  end.

Lemma run_usage_op_wf u op : usage_wf u → usage_op_ok op → usage_wf (run_usage_op u op).
Proof.
  intros Hu Hop. destruct op; simpl in *; try (by apply Override_wf);
    destruct Hu as (?&?&?&?&?&?); unfold usage_wf; simpl; split_and!; try done; apply uint32_range.
Qed.

(** Whatever sequence of set, add and override operations is applied, all
    six counters stay [uint32] values: additions wrap and never escape the
    width. *)
Theorem usage_ops_wf ops :
  Forall usage_op_ok ops → usage_wf (foldl run_usage_op zeroUsage ops).
Proof.
  generalize zeroUsage_wf. generalize zeroUsage.
  induction ops as [|op ops IH]; intros u Hu Hops; [done|]. simpl.
  apply Forall_cons in Hops as [Hop Hops]. apply IH; [by apply run_usage_op_wf|done].
Qed.

Lemma usage_ops_wf_witness :
  usage_wf (foldl run_usage_op zeroUsage [OpSetInput (2 ^ 32 - 1); OpAddInput 5]).
Proof. apply usage_ops_wf. repeat constructor; vm_compute; done. Defined.

(** The counters of the provider, mathematically. *)
Definition total_input (input : Z) (cacheRead cacheCreation : option Z) : Z :=
  input + default 0 cacheCreation + default 0 cacheRead.

Lemma Extract_fields input output cr cc :
  let u := ExtractTokenUsageFromExplicitCaching input output cr cc in
  reported FInput u = Some (uint32 (total_input input cr cc)) ∧
  reported FOutput u = Some (uint32 output) ∧
  reported FTotal u = Some (uint32 (total_input input cr cc + output)) ∧
  reported FCached u = uint32 <$> cr ∧ reported FCacheCreation u = uint32 <$> cc ∧
  reported FReasoning u = None.
Proof.
  unfold ExtractTokenUsageFromExplicitCaching, total_input, reported.
  assert (∀ a b, uint32 (int64 a + b) = uint32 (a + b)) as Hw.
  { intros a b. by rewrite <-(uint32_add_l (int64 a)), uint32_int64, uint32_add_l. }
  assert (∀ a b c, uint32 (int64 a + b + c) = uint32 (a + b + c)) as Hw2.
  { intros a b c. by rewrite <-!Z.add_assoc, Hw. }
  destruct cr, cc; simpl; rewrite ?Z.add_0_r; split_and!; try done; f_equal;
    by rewrite ?uint32_int64, ?Hw, ?Hw2, ?Z.add_0_r.
Qed.

(** C40: token accounting for explicit caching: when the provider's counters
    are non-negative and the grand total fits 32 bits, the reported input is
    the sum of plain, cache-creation and cache-read input tokens and the
    reported total is input plus output, with no truncation anywhere. *)
Theorem Extract_accounting input output cr cc :
  0 ≤ input → 0 ≤ output → 0 ≤ default 0 cr → 0 ≤ default 0 cc →
  total_input input cr cc + output < 2 ^ 32 →
  let u := ExtractTokenUsageFromExplicitCaching input output cr cc in
  reported FInput u = Some (total_input input cr cc) ∧
  reported FOutput u = Some output ∧
  reported FTotal u = Some (total_input input cr cc + output) ∧
  reported FCached u = cr ∧ reported FCacheCreation u = cc.
Proof.
  intros Hi Ho Hr Hc Hs u. destruct (Extract_fields input output cr cc) as (H1&H2&H3&H4&H5&_).
  fold u in H1, H2, H3, H4, H5. rewrite H1, H2, H3, H4, H5.
  unfold total_input in *.
  rewrite !uint32_id by (unfold in_uint32; lia). split_and!; try done.
  - destruct cr as [r|]; simpl in *; [|done]. by rewrite uint32_id by (unfold in_uint32; lia).
  - destruct cc as [r|]; simpl in *; [|done]. by rewrite uint32_id by (unfold in_uint32; lia).
Qed.

Lemma Extract_accounting_witness :
  reported FTotal (ExtractTokenUsageFromExplicitCaching 10 20 (Some 3) (Some 4)) = Some 37.
Proof. apply (Extract_accounting 10 20 (Some 3) (Some 4)); vm_compute; congruence. Defined.
