(* ===== verification/GoHttp.v ===== *)
(** * HTTP headers of Go

    [net/http.Header]: a map from canonical header names to the list of their
    values, with the operations the MCP proxy uses. *)

From Stdlib Require Import Ascii Lia.
From stdpp Require Import base gmap strings list.
From S2P Require Import Prelude GoStrings.

(** The bytes of a header name ([validHeaderFieldByte]). *)
Definition is_lower (c : ascii) : bool := in_range 97 122 c.
Definition is_upper (c : ascii) : bool := in_range 65 90 c.
Definition validHeaderFieldByte (c : ascii) : bool :=
  is_lower c || is_upper c || in_range 48 57 c || bool_decide (c ∈ schars "!#$%&'*+-.^_`|~").

Definition upper_byte (c : ascii) : ascii := if is_lower c then chr (nat_of_ascii c - 32) else c.

Fixpoint canonical_go (upper : bool) (s : string) : string :=
  match s with
  | "" => ""
  | String c s => String (if upper then upper_byte c else lower_byte c) (canonical_go (bool_decide (c = "-"%char)) s)
  end.

(** [textproto.CanonicalMIMEHeaderKey]: a name with an invalid byte is left as it is. *)
Definition CanonicalHeaderKey (s : string) : string :=
  if forallb validHeaderFieldByte (schars s) then canonical_go true s else s.

Notation http_Header := (gmap string (list string)).

Definition Header_Get (h : http_Header) (key : string) : string :=
  match h !! CanonicalHeaderKey key with
  | Some (v :: _) => v
  | _ => ""
  end.

Definition Header_Set (key value : string) (h : http_Header) : http_Header := <[CanonicalHeaderKey key := [value]]> h.
Definition Header_Del (key : string) (h : http_Header) : http_Header := delete (CanonicalHeaderKey key) h.

Lemma Header_Get_Set h k v : Header_Get (Header_Set k v h) k = v.
Proof. unfold Header_Get, Header_Set. by rewrite lookup_insert_eq. Qed.

Lemma Header_Get_Set_ne h k k' v :
  CanonicalHeaderKey k ≠ CanonicalHeaderKey k' → Header_Get (Header_Set k v h) k' = Header_Get h k'.
Proof. intros H. unfold Header_Get, Header_Set. by rewrite lookup_insert_ne. Qed.

Example canonical_examples :
  CanonicalHeaderKey "mcp-session-id" = "Mcp-Session-Id" ∧ CanonicalHeaderKey "AUTHORIZATION" = "Authorization" ∧
  CanonicalHeaderKey "a b" = "a b".
Proof. repeat split; reflexivity. Qed.
