(* ===== verification/GoUrl.v ===== *)
(** * Query strings

    What the code uses of [net/url]: [QueryEscape], [QueryUnescape], [ParseQuery]
    and the methods of [Values], with the inverse laws.  [Values] is a map from a
    name to the list of its values. *)

From Stdlib Require Import Ascii Lia.
From stdpp Require Import base gmap strings list sorting.
From S2P Require Import Prelude GoStrings.

Notation url_Values := (gmap string (list string)).

(** ** Escaping *)

Definition unreserved (c : ascii) : bool :=
  in_range 97 122 c || in_range 65 90 c || in_range 48 57 c || bool_decide (c ∈ schars "-_.~").

Definition upper_hex (n : nat) : ascii := if n <? 10 then chr (48 + n) else chr (55 + n).

Definition escape_byte (c : ascii) : string :=
  if unreserved c then String c ""
  else if bool_decide (c = " "%char) then "+"
  else String "%" (String (upper_hex (nat_of_ascii c / 16)) (String (upper_hex (nat_of_ascii c mod 16)) "")).

Fixpoint QueryEscape (s : string) : string :=
  match s with "" => "" | String c s => escape_byte c +:+ QueryEscape s end.

Definition unhex (c : ascii) : option nat :=
  let n := nat_of_ascii c in
  if in_range 48 57 c then Some (n - 48)
  else if in_range 97 102 c then Some (n - 87)
  else if in_range 65 70 c then Some (n - 55)
  else None.

(** [None] is an invalid escape. *)
Fixpoint QueryUnescape (s : string) : option string :=
  match s with
  | "" => Some ""
  | String c s =>
      if bool_decide (c = "%"%char) then
        match s with
        | String a (String b s) =>
            hi ← unhex a; lo ← unhex b; String (chr (16 * hi + lo)) <$> QueryUnescape s
        | _ => None
        end
      else String (if bool_decide (c = "+"%char) then " "%char else c) <$> QueryUnescape s
  end.

(** Every byte comes back, and no byte is written as a separator. *)
Definition all_bytes : list ascii := chr <$> seq 0 256.

Lemma all_bytes_complete c : c ∈ all_bytes.
Proof.
  unfold all_bytes. apply list_elem_of_fmap. exists (nat_of_ascii c). split; [by rewrite ascii_nat_embedding|].
  apply elem_of_seq. split; [lia|]. apply nat_ascii_bounded.
Qed.

Lemma by_bytes (P : ascii → bool) : forallb P all_bytes = true → ∀ c, P c = true.
Proof. intros H c. apply forallb_forall with (x := c) in H; [done|]. apply list_elem_of_In, all_bytes_complete. Qed.

Lemma unescape_byte c : QueryUnescape (escape_byte c) = Some (String c "").
Proof.
  apply (bool_decide_eq_true (QueryUnescape (escape_byte c) = Some (String c ""))). revert c.
  apply by_bytes. vm_compute. reflexivity.
Qed.

Lemma escape_byte_shape c :
  (∃ d, escape_byte c = String d "" ∧ d ≠ "%"%char) ∨ (∃ a b, escape_byte c = String "%" (String a (String b ""))).
Proof.
  unfold escape_byte. destruct (unreserved c) eqn:E; [left; exists c; split; [done|by intros ->]|].
  case_bool_decide; [left; by exists "+"%char|right; eauto].
Qed.

Lemma unescape_app c s : QueryUnescape (escape_byte c +:+ s) = String c <$> QueryUnescape s.
Proof.
  pose proof (unescape_byte c) as H. destruct (escape_byte_shape c) as [(d & E & Hd)|(a & b & E)]; rewrite E in H |- *.
  - rewrite sapp_cons, sapp_nil_l. simpl in H |- *. rewrite bool_decide_false in H |- * by done. cbn in H.
    injection H as H. by rewrite H.
  - rewrite !sapp_cons, sapp_nil_l. simpl in H |- *. destruct (unhex a) as [hi|]; [|done].
    destruct (unhex b) as [lo|]; [|done]. cbn in H |- *. injection H as H. by rewrite H.
Qed.

Lemma query_escape_roundtrip s : QueryUnescape (QueryEscape s) = Some s.
Proof. induction s as [|c s IH]; [done|]. cbn [QueryEscape]. by rewrite unescape_app, IH. Qed.

Definition separators : list ascii := ["&"%char; "="%char; ";"%char].

Lemma escape_no_sep s c : c ∈ separators → Contains (QueryEscape s) c = false.
Proof.
  intros Hc. induction s as [|d s IH]; [done|]. cbn [QueryEscape]. rewrite Contains_app, IH, orb_false_r.
  assert (forallb (λ c, negb (Contains (escape_byte d) c)) separators = true) as H.
  { apply (by_bytes (λ d, forallb (λ c, negb (Contains (escape_byte d) c)) separators)). vm_compute. reflexivity. }
  apply forallb_forall with (x := c) in H; [by apply negb_true_iff|by apply list_elem_of_In].
Qed.

(** ** Parsing and encoding *)

Definition errSemicolon : error := errors_New "invalid semicolon separator in query".
Definition errEscape : error := errors_New "invalid URL escape".

Definition values_Add (m : url_Values) (k v : string) : url_Values := <[k := default [] (m !! k) ++ [v]]> m.

(** [strings.Cut(s, "=")]. *)
Definition cut_eq (s : string) : string * string := match cut_at "=" s with Some p => p | None => (s, "") end.

(** One pair between separators.  The source goes on after an error and returns
    the first; its callers only look at whether there is one. *)
Definition parsePair (m : url_Values) (pair : string) : outcome url_Values :=
  if Contains pair ";" then Fail errSemicolon
  else if bool_decide (pair = "") then Ok m
  else
    let '(key, value) := cut_eq pair in
    match QueryUnescape key, QueryUnescape value with
    | Some key, Some value => Ok (values_Add m key value)
    | _, _ => Fail errEscape
    end.

Definition ParseQuery (query : string) : outcome url_Values := ofold parsePair ∅ (Split query "&").

Definition values_Get (m : url_Values) (k : string) : string := default "" (m !! k ≫= head).

Definition pairsOf (m : url_Values) (k : string) : list (string * string) := (λ v, (k, v)) <$> default [] (m !! k).

Definition sortedPairs (m : url_Values) : list (string * string) :=
  flat_map (pairsOf m) (merge_sort String.le (map_to_list m).*1).

Definition pairText (p : string * string) : string := QueryEscape p.1 +:+ String "=" (QueryEscape p.2).

Definition Encode_Values (m : url_Values) : string := Join (pairText <$> sortedPairs m) "&".

Lemma parsePair_text m p : parsePair m (pairText p) = Ok (values_Add m p.1 p.2).
Proof.
  unfold parsePair, pairText, cut_eq.
  assert (∀ s, Contains (QueryEscape s) ";" = false) as Hs by (intros s; apply escape_no_sep; set_solver).
  rewrite Contains_app, Hs. cbn [orb].
  assert (Contains (String "=" (QueryEscape p.2)) ";" = false) as -> by (by apply Contains_false_cons).
  rewrite bool_decide_false by (by destruct (QueryEscape p.1)).
  rewrite cut_at_app by (apply escape_no_sep; set_solver). by rewrite !query_escape_roundtrip.
Qed.

Lemma ofold_pairs m l : ofold parsePair m (pairText <$> l) = Ok (foldl (λ m p, values_Add m p.1 p.2) m l).
Proof. revert m. induction l as [|p l IH]; intros m; [done|]. cbn [fmap list_fmap ofold foldl]. by rewrite parsePair_text, <-IH. Qed.

(** The values of a key in a list of pairs. *)
Definition valuesIn (k : string) (l : list (string * string)) : list string :=
  omap (λ p, if bool_decide (p.1 = k) then Some p.2 else None) l.

Lemma foldl_add_lookup l m k :
  foldl (λ m p, values_Add m p.1 p.2) m l !! k =
    match valuesIn k l with [] => m !! k | vs => Some (default [] (m !! k) ++ vs) end.
Proof.
  revert m. induction l as [|[j v] l IH]; intros m; [done|]. cbn [foldl]. rewrite IH. unfold values_Add, valuesIn in *. cbn.
  case_bool_decide as Hj.
  - subst j. rewrite lookup_insert_eq. destruct (omap _ l); cbn; by rewrite <-?app_assoc.
  - by rewrite lookup_insert_ne.
Qed.

Lemma valuesIn_app k l1 l2 : valuesIn k (l1 ++ l2) = valuesIn k l1 ++ valuesIn k l2.
Proof. unfold valuesIn. apply omap_app. Qed.

Lemma valuesIn_pairsOf m k j : valuesIn k (pairsOf m j) = if bool_decide (j = k) then default [] (m !! k) else [].
Proof.
  unfold valuesIn, pairsOf. case_bool_decide as H.
  - subst j. induction (default [] (m !! k)) as [|v l IH]; [done|]. cbn. rewrite bool_decide_true by done. by f_equal.
  - induction (default [] (m !! j)) as [|v l IH]; [done|]. cbn. by rewrite bool_decide_false.
Qed.

Lemma valuesIn_flat m k ks : NoDup ks → valuesIn k (flat_map (pairsOf m) ks) = if bool_decide (k ∈ ks) then default [] (m !! k) else [].
Proof.
  induction 1 as [|j ks Hj Hks IH]; [done|]. cbn [flat_map]. rewrite valuesIn_app, valuesIn_pairsOf, IH.
  repeat case_bool_decide; subst; rewrite ?app_nil_r; try done; exfalso; set_solver.
Qed.

Lemma valuesIn_sorted m k : valuesIn k (sortedPairs m) = default [] (m !! k).
Proof.
  unfold sortedPairs. rewrite valuesIn_flat by (rewrite merge_sort_Permutation; apply NoDup_fst_map_to_list).
  case_bool_decide as H; [done|]. destruct (m !! k) as [vs|] eqn:E; [|done]. exfalso. apply H.
  rewrite merge_sort_Permutation. apply list_elem_of_fmap. exists (k, vs). split; [done|]. by apply elem_of_map_to_list.
Qed.

(** Parsed values never have a name without values. *)
Definition values_ok (m : url_Values) : Prop := map_Forall (λ _ vs, vs ≠ []) m.

Lemma ParseQuery_ok q m : ParseQuery q = Ok m → values_ok m.
Proof.
  unfold ParseQuery. apply (ofold_inv values_ok); [apply map_Forall_empty|]. intros x pair x' Hx _. unfold parsePair.
  destruct (Contains pair ";"); [done|]. case_bool_decide; [by intros [= <-]|].
  destruct (cut_eq pair) as [a b]. destruct (QueryUnescape a), (QueryUnescape b); try done. intros [= <-].
  apply map_Forall_insert_2; [|done]. by destruct (default [] _).
Qed.

Lemma parse_encode m : values_ok m → ParseQuery (Encode_Values m) = Ok m.
Proof.
  intros Hm. unfold ParseQuery, Encode_Values.
  assert (foldl (λ m p, values_Add m p.1 p.2) ∅ (sortedPairs m) = m) as Hfold.
  { apply map_eq. intros k. rewrite foldl_add_lookup, lookup_empty, valuesIn_sorted. cbn.
    destruct (m !! k) as [vs|] eqn:E; [|done]. cbn. pose proof (Hm _ _ E). by destruct vs. }
  destruct (sortedPairs m) as [|p l] eqn:El.
  { cbn in Hfold. subst m. done. }
  rewrite Split_Join.
  - rewrite ofold_pairs. by rewrite Hfold.
  - done.
  - apply Forall_fmap, Forall_true. intros [k v]. cbn. unfold pairText. cbn.
    rewrite Contains_app, (escape_no_sep k) by set_solver. cbn. apply Contains_false_cons. split; [done|].
    apply escape_no_sep. set_solver.
Qed.
