(* ===== verification/Crypto.v ===== *)
(** * Base64 and authenticated encryption

    [encoding/base64] as the program uses it, and the interface of the
    cryptographic packages ([crypto/pbkdf2], [crypto/aes], [crypto/cipher],
    [crypto/hmac]) with the laws their documentation states.  Nothing here
    assumes that a key cannot be guessed: the laws are functional. *)

From Stdlib Require Import Ascii ZArith Lia ZifyNat.
From stdpp Require Import base strings list.
From S2P Require Import Prelude GoStrings.

(** ** Base64 *)

Record Encoding := { e_alphabet : list ascii; e_padded : bool }.

Definition base64_common : string := "ABCDEFGHIJKLMNOPQRSTUVWXYZabcdefghijklmnopqrstuvwxyz0123456789".

Definition StdEncoding : Encoding := {| e_alphabet := schars (base64_common +:+ "+/"); e_padded := true |}.
Definition RawURLEncoding : Encoding := {| e_alphabet := schars (base64_common +:+ "-_"); e_padded := false |}.

Definition padChar : ascii := "="%char.

Section Base64.
Context (e : Encoding).

(** The character of a 6-bit value, and back. *)
Definition enc_char (n : nat) : ascii := default zero (e_alphabet e !! n).
Definition dec_char (c : ascii) : option nat := fst <$> list_find (c =.) (e_alphabet e).

Definition pad (n : nat) : string := if e_padded e then bytes_of (replicate n 61) else "".

Fixpoint EncodeToString (s : string) : string :=
  match s with
  | "" => ""
  | String x "" =>
      let x := nat_of_ascii x in
      String (enc_char (x / 4)) (String (enc_char (x mod 4 * 16)) (pad 2))
  | String x (String y "") =>
      let x := nat_of_ascii x in let y := nat_of_ascii y in
      String (enc_char (x / 4)) (String (enc_char (x mod 4 * 16 + y / 16))
        (String (enc_char (y mod 16 * 4)) (pad 1)))
  | String x (String y (String z s)) =>
      let x := nat_of_ascii x in let y := nat_of_ascii y in let z := nat_of_ascii z in
      String (enc_char (x / 4)) (String (enc_char (x mod 4 * 16 + y / 16))
        (String (enc_char (y mod 16 * 4 + z / 64)) (String (enc_char (z mod 64)) (EncodeToString s))))
  end.

(** The first, second and third byte of a quantum of 6-bit values. *)
Definition byte1 (a b : nat) : ascii := chr (a * 4 + b / 16).
Definition byte2 (b c : nat) : ascii := chr (b mod 16 * 16 + c / 4).
Definition byte3 (c d : nat) : ascii := chr (c mod 4 * 64 + d).

Definition is_newline (c : ascii) : bool := bool_decide (c = chr 10) || bool_decide (c = chr 13).

(** A quantum of two or three characters ends the input: with padding the pad
    characters follow and nothing else, without padding nothing follows.  The
    unused low bits of its last character are not looked at. *)
Fixpoint decode_quanta (l : list ascii) : option string :=
  match l with
  | [] => Some ""
  | [_] => None
  | [a; b] =>
      if e_padded e then None
      else a ← dec_char a; b ← dec_char b; Some (String (byte1 a b) "")
  | [a; b; c] =>
      if e_padded e then None
      else a ← dec_char a; b ← dec_char b; c ← dec_char c;
           Some (String (byte1 a b) (String (byte2 b c) ""))
  | a :: b :: c :: d :: l =>
      a ← dec_char a; b ← dec_char b;
      if e_padded e && bool_decide (c = padChar) then
        if bool_decide (d = padChar) && bool_decide (l = []) then Some (String (byte1 a b) "") else None
      else
        c ← dec_char c;
        if e_padded e && bool_decide (d = padChar) then
          if bool_decide (l = []) then Some (String (byte1 a b) (String (byte2 b c) "")) else None
        else
          d ← dec_char d;
          s ← decode_quanta l;
          Some (String (byte1 a b) (String (byte2 b c) (String (byte3 c d) s)))
  end.

(** [DecodeString] skips line breaks wherever they are; [None] is an error. *)
Definition DecodeString (s : string) : option string :=
  decode_quanta (filter (λ c, is_newline c = false) (schars s)).
End Base64.

Example base64_std : EncodeToString StdEncoding "light work." = "bGlnaHQgd29yay4=".
Proof. reflexivity. Qed.
Example base64_raw : EncodeToString RawURLEncoding (bytes_of [251; 255]) = "-_8".
Proof. reflexivity. Qed.
Example base64_noncanonical : DecodeString RawURLEncoding "-_9" = Some (bytes_of [251; 255]).
Proof. reflexivity. Qed.

(** What a base64 alphabet is. *)
Definition alphabet_ok (e : Encoding) : Prop :=
  NoDup (e_alphabet e) ∧ length (e_alphabet e) = 64 ∧
  Forall (λ c, is_newline c = false ∧ c ≠ padChar) (e_alphabet e).

#[export] Instance alphabet_ok_dec e : Decision (alphabet_ok e).
Proof. unfold alphabet_ok. apply _. Defined.

Lemma StdEncoding_ok : alphabet_ok StdEncoding.
Proof. apply (bool_decide_unpack _). vm_compute. exact I. Qed.

Lemma RawURLEncoding_ok : alphabet_ok RawURLEncoding.
Proof. apply (bool_decide_unpack _). vm_compute. exact I. Qed.

(** Linear arithmetic with division by constants. *)
Ltac div_lia := zify; Z.to_euclidean_division_equations; lia.

#[local] Arguments Nat.div : simpl never.
#[local] Arguments Nat.modulo : simpl never.
#[local] Arguments byte1 : simpl never.
#[local] Arguments byte2 : simpl never.
#[local] Arguments byte3 : simpl never.

Section Base64Props.
Context (e : Encoding) (He : alphabet_ok e).

Lemma dec_enc_char n : n < 64 → dec_char e (enc_char e n) = Some n.
Proof.
  destruct He as (Hnd & Hlen & _). intros Hn. unfold dec_char, enc_char.
  destruct (lookup_lt_is_Some_2 (e_alphabet e) n) as [c Hc]; [lia|]. rewrite Hc. simpl.
  apply fmap_Some. exists (n, c). split; [|done]. apply list_find_Some. split; [done|]. split; [done|].
  intros j y Hj Hlt ->. pose proof (NoDup_lookup _ _ _ _ Hnd Hc Hj). lia.
Qed.

Lemma enc_char_plain n : n < 64 → is_newline (enc_char e n) = false ∧ enc_char e n ≠ padChar.
Proof.
  destruct He as (_ & Hlen & Hf). intros Hn. unfold enc_char.
  destruct (lookup_lt_is_Some_2 (e_alphabet e) n) as [c Hc]; [lia|]. rewrite Hc. simpl.
  by apply (Forall_lookup_1 _ _ _ _ Hf Hc).
Qed.

Lemma nat_of_ascii_lt c : nat_of_ascii c < 256.
Proof. apply nat_ascii_bounded. Qed.

Lemma sextets x y z :
  x < 256 → y < 256 → z < 256 →
  x / 4 < 64 ∧ x mod 4 * 16 + y / 16 < 64 ∧ y mod 16 * 4 + z / 64 < 64 ∧ z mod 64 < 64.
Proof. intros. repeat split; div_lia. Qed.

(** The bytes of three encoded bytes. *)
Lemma bytes_of_sextets x y z :
  x < 256 → y < 256 → z < 256 →
  x / 4 * 4 + (x mod 4 * 16 + y / 16) / 16 = x ∧
  (x mod 4 * 16 + y / 16) mod 16 * 16 + (y mod 16 * 4 + z / 64) / 4 = y ∧
  (y mod 16 * 4 + z / 64) mod 4 * 64 + z mod 64 = z.
Proof. intros. repeat split; div_lia. Qed.

Lemma filter_newline_cons n s :
  n < 64 →
  filter (λ c, is_newline c = false) (schars (String (enc_char e n) s)) =
    enc_char e n :: filter (λ c, is_newline c = false) (schars s).
Proof. intros Hn. simpl. rewrite filter_cons, decide_True by (by apply enc_char_plain). done. Qed.

Lemma chr_nat_of_ascii c : chr (nat_of_ascii c) = c.
Proof. apply ascii_nat_embedding. Qed.

(** Decodes one full quantum of encoded bytes. *)
Lemma decode_quantum x y z l :
  let x' := nat_of_ascii x in let y' := nat_of_ascii y in let z' := nat_of_ascii z in
  decode_quanta e (enc_char e (x' / 4) :: enc_char e (x' mod 4 * 16 + y' / 16) ::
                   enc_char e (y' mod 16 * 4 + z' / 64) :: enc_char e (z' mod 64) :: l) =
    (s ← decode_quanta e l; Some (String x (String y (String z s)))).
Proof.
  intros x' y' z'.
  pose proof (nat_of_ascii_lt x) as Hx. pose proof (nat_of_ascii_lt y) as Hy. pose proof (nat_of_ascii_lt z) as Hz.
  destruct (sextets _ _ _ Hx Hy Hz) as (H1 & H2 & H3 & H4).
  destruct (bytes_of_sextets _ _ _ Hx Hy Hz) as (E1 & E2 & E3).
  simpl. rewrite !dec_enc_char by done. simpl.
  rewrite (bool_decide_false (_ = padChar)) by (by apply enc_char_plain).
  rewrite (bool_decide_false (_ = padChar)) by (by apply enc_char_plain).
  rewrite !andb_false_r. simpl.
  unfold byte1, byte2, byte3, x', y', z'. by rewrite E1, E2, E3, !chr_nat_of_ascii.
Qed.

Lemma filter_pad n : filter (λ c, is_newline c = false) (schars (pad e n)) = if e_padded e then replicate n padChar else [].
Proof.
  unfold pad. destruct (e_padded e); [|done]. induction n as [|n IH]; [done|]. simpl.
  rewrite filter_cons, decide_True by reflexivity. simpl. f_equal. apply IH.
Qed.

(** The last one or two bytes. *)
Lemma decode_last1 x : DecodeString e (EncodeToString e (String x "")) = Some (String x "").
Proof.
  pose proof (nat_of_ascii_lt x) as Hx.
  destruct (sextets _ 0 0 Hx) as (H1 & H2 & _); [lia..|].
  destruct (bytes_of_sextets _ 0 0 Hx) as (E1 & _); [lia..|].
  rewrite (Nat.div_small 0 16), Nat.add_0_r in * by lia.
  unfold DecodeString. cbn [EncodeToString].
  rewrite !filter_newline_cons by done. rewrite filter_pad.
  destruct (e_padded e) eqn:Ep; simpl; rewrite !Ep; simpl; rewrite !dec_enc_char by done; simpl;
    unfold byte1; by rewrite E1, chr_nat_of_ascii.
Qed.

Lemma decode_last2 x y :
  DecodeString e (EncodeToString e (String x (String y ""))) = Some (String x (String y "")).
Proof.
  pose proof (nat_of_ascii_lt x) as Hx. pose proof (nat_of_ascii_lt y) as Hy.
  destruct (sextets _ _ 0 Hx Hy) as (H1 & H2 & H3 & _); [lia|].
  destruct (bytes_of_sextets _ _ 0 Hx Hy) as (E1 & E2 & _); [lia|].
  rewrite (Nat.div_small 0 64), Nat.add_0_r in * by lia.
  unfold DecodeString. cbn [EncodeToString].
  rewrite !filter_newline_cons by done. rewrite filter_pad.
  destruct (e_padded e) eqn:Ep; simpl; rewrite !Ep; simpl; rewrite !dec_enc_char by done; simpl.
  1: rewrite (bool_decide_false (_ = padChar)) by (by apply enc_char_plain); simpl.
  all: unfold byte1, byte2; by rewrite E1, E2, !chr_nat_of_ascii.
Qed.

(** The characters of an encoded text. *)
Lemma EncodeToString_chars s c :
  c ∈ schars (EncodeToString e s) → c ∈ e_alphabet e ∨ (e_padded e = true ∧ c = padChar).
Proof.
  assert (∀ n, n < 64 → enc_char e n ∈ e_alphabet e) as Henc.
  { intros n Hn. unfold enc_char. destruct He as (_ & Hlen & _).
    destruct (lookup_lt_is_Some_2 (e_alphabet e) n) as [d Hd]; [lia|]. rewrite Hd. by apply list_elem_of_lookup_2 in Hd. }
  assert (∀ n, c ∈ schars (pad e n) → e_padded e = true ∧ c = padChar) as Hpad.
  { intros n. unfold pad. destruct (e_padded e); [|by intros []%elem_of_nil].
    induction n as [|n IH]; [by intros []%elem_of_nil|]. cbn [replicate bytes_of foldr schars].
    intros [->|?]%elem_of_cons; [done|by apply IH]. }
  remember (String.length s) as n eqn:Hn. revert s Hn.
  induction n as [n IH] using lt_wf_ind; intros [|x [|y [|z s]]] ->; [by intros []%elem_of_nil|..];
    cbn [EncodeToString schars].
  - pose proof (nat_of_ascii_lt x) as Hx. destruct (sextets _ 0 0 Hx) as (H1 & H2 & _); [lia..|].
    rewrite (Nat.div_small 0 16), Nat.add_0_r in H2 by lia.
    intros [->|[->|H]%elem_of_cons]%elem_of_cons; eauto.
  - pose proof (nat_of_ascii_lt x) as Hx. pose proof (nat_of_ascii_lt y) as Hy.
    destruct (sextets _ _ 0 Hx Hy) as (H1 & H2 & H3 & _); [lia|].
    rewrite (Nat.div_small 0 64), Nat.add_0_r in H3 by lia.
    intros [->|[->|[->|H]%elem_of_cons]%elem_of_cons]%elem_of_cons; eauto.
  - pose proof (nat_of_ascii_lt x) as Hx. pose proof (nat_of_ascii_lt y) as Hy. pose proof (nat_of_ascii_lt z) as Hz.
    destruct (sextets _ _ _ Hx Hy Hz) as (H1 & H2 & H3 & H4).
    intros [->|[->|[->|[->|H]%elem_of_cons]%elem_of_cons]%elem_of_cons]%elem_of_cons; eauto.
    eapply (IH (String.length s)); [simpl; lia|done|done].
Qed.

(** Decoding undoes encoding. *)
Lemma base64_roundtrip s : DecodeString e (EncodeToString e s) = Some s.
Proof.
  remember (String.length s) as n eqn:Hn. revert s Hn.
  induction n as [n IH] using lt_wf_ind; intros [|x [|y [|z s]]] ->; [done|apply decode_last1|apply decode_last2|].
  pose proof (nat_of_ascii_lt x) as Hx. pose proof (nat_of_ascii_lt y) as Hy. pose proof (nat_of_ascii_lt z) as Hz.
  destruct (sextets _ _ _ Hx Hy Hz) as (H1 & H2 & H3 & H4).
  unfold DecodeString. cbn [EncodeToString]. rewrite !filter_newline_cons by done.
  rewrite decode_quantum.
  specialize (IH (String.length s) ltac:(simpl; lia) s eq_refl). unfold DecodeString in IH. by rewrite IH.
Qed.
End Base64Props.

(** A separator outside the alphabet never occurs in an encoded text. *)
Lemma EncodeToString_no_sep e s c :
  alphabet_ok e → c ∉ padChar :: e_alphabet e → Contains (EncodeToString e s) c = false.
Proof.
  intros He Hc. apply bool_decide_eq_false. intros [H|[_ ->]]%EncodeToString_chars; [|apply Hc; by left|done].
  apply Hc. by right.
Qed.

Lemma EncodeToString_empty e s : EncodeToString e s = "" ↔ s = "".
Proof. destruct s as [|x [|y [|z s]]]; done. Qed.

(** Line breaks in the encoded text make no difference. *)
Lemma DecodeString_newline e a b c :
  is_newline c = true → DecodeString e (a +:+ String c b) = DecodeString e (a +:+ b).
Proof.
  intros Hc. unfold DecodeString. f_equal. rewrite !schars_app, !filter_app. simpl.
  by rewrite filter_cons, decide_False by (by rewrite Hc).
Qed.

(** ** Authenticated encryption and key derivation *)

(** The operations of the cryptographic packages.  An [aead] is what
    [cipher.NewGCM] returns; [Seal] is called without additional data and its
    result here is what it appends to its first argument. *)
Class Crypto := {
  cipher_Block : Type;
  cipher_AEAD : Type;
  pbkdf2_Key (password salt : string) (iterations : Z) (keyLength : nat) : outcome string;
  aes_NewCipher : string → outcome cipher_Block;
  cipher_NewGCM : cipher_Block → outcome cipher_AEAD;
  aead_NonceSize : cipher_AEAD → nat;
  aead_Overhead : cipher_AEAD → nat;
  aead_Seal (g : cipher_AEAD) (nonce plaintext : string) : string;
  aead_Open (g : cipher_AEAD) (nonce ciphertext : string) : outcome string;
  hmac_sha256 (key message : string) : string;
}.

(** What the packages document: opening a sealed text gives the text back, a
    ciphertext that opens is the sealing of what it opens to, and the lengths. *)
Class CryptoLaws `(!Crypto) : Prop := {
  aead_open_seal g n p : String.length n = aead_NonceSize g → aead_Open g n (aead_Seal g n p) = Ok p;
  aead_seal_open g n c p : aead_Open g n c = Ok p → c = aead_Seal g n p;
  aead_seal_length g n p : String.length (aead_Seal g n p) = String.length p + aead_Overhead g;
  aead_nonce_length g : aead_NonceSize g ≤ 32;
  hmac_length k m : String.length (hmac_sha256 k m) = 32;
}.


(** ** A concrete instance

    Not a cipher: the key is appended to the text.  It satisfies the laws and
    lets the definitions that use the interface be evaluated. *)
Module Toy.
Definition filler : string := bytes_of (replicate 64 48).

#[export] Instance crypto : Crypto := {|
  cipher_Block := string;
  cipher_AEAD := string;
  pbkdf2_Key password _ _ n := Ok (str_take n (password +:+ filler));
  aes_NewCipher key := Ok key;
  cipher_NewGCM block := Ok block;
  aead_NonceSize _ := 12;
  aead_Overhead g := String.length g;
  aead_Seal g _ p := p +:+ g;
  aead_Open g _ c := if HasSuffix c g then Ok (TrimSuffix c g)
                     else Fail (errors_New "cipher: message authentication failed");
  hmac_sha256 k m := str_take 32 (k +:+ m +:+ filler);
|}.

#[export] Instance laws : CryptoLaws crypto.
Proof.
  split; cbn -[str_take filler Nat.min].
  - intros g n p _. by rewrite HasSuffix_app, TrimSuffix_app.
  - intros g n c p. destruct (HasSuffix c g) eqn:E; [|done]. intros [= <-].
    apply HasSuffix_spec in E as [t ->]. by rewrite TrimSuffix_app.
  - intros. apply slength_app.
  - lia.
  - intros. rewrite slength_take, !slength_app. assert (String.length filler = 64) as -> by reflexivity. lia.
Qed.
End Toy.
