(* ===== verification/IdCodec.v ===== *)
(** * Gateway-issued file and batch ids

    Models [internal/idcodec]: the id a client sees carries the backend that
    owns the resource, encrypted and authenticated with a key derived from the
    configured seed, and a fallback key for rotated seeds.  The cryptographic
    packages are the class [Crypto]. *)

From Stdlib Require Import Ascii ZArith Lia.
From stdpp Require Import base gmap strings list.
From S2P Require Import Prelude GoStrings Crypto.

Definition KindFile : string := "file".
Definition KindBatch : string := "batch".

Definition errInvalidID : error := errors_Sentinel "invalid gateway id" ErrInvalidID.

Record BackendID := {
  bid_Namespace : string;
  bid_Name : string;
  bid_Kind : string;
  bid_Model : string;
  bid_NativeID : string;
}.

Definition filePrefix : string := "file-".
Definition batchPrefix : string := "batch-".
Definition payloadSeparator : ascii := "|"%char.
Definition kdfSalt : string := "aigw-file-id-v1".

Definition prefixForKind (kind : string) : outcome string :=
  if bool_decide (kind = KindFile) then Ok filePrefix
  else if bool_decide (kind = KindBatch) then Ok batchPrefix
  else Fail (errors_New ("idcodec: unsupported kind " +:+ Quote kind)).

Section Codec.
Context `{!Crypto}.

Record key := { k_aead : cipher_AEAD; k_macKey : string }.

Record codec := { c_primary : key; c_fallback : option key }.

Definition deriveKey (seed : string) (iterations : Z) : outcome key :=
  if bool_decide (seed = "") then Fail (errors_New "idcodec: seed must not be empty")
  else
    let! keys := owrap "idcodec: derive keys: " (pbkdf2_Key seed kdfSalt iterations 64) in
    let! block := owrap "idcodec: create cipher: " (aes_NewCipher (str_take 32 keys)) in
    let! aead := owrap "idcodec: create gcm: " (cipher_NewGCM block) in
    Ok {| k_aead := aead; k_macKey := str_drop 32 keys |}.

Definition NewCodec (seed : string) (iterations : Z) (fallbackSeed : string) (fallbackIterations : Z) :
    outcome codec :=
  let! primary := deriveKey seed iterations in
  if bool_decide (fallbackSeed ≠ "") then
    let! fallback := owrap "fallback: " (deriveKey fallbackSeed fallbackIterations) in
    Ok {| c_primary := primary; c_fallback := Some fallback |}
  else Ok {| c_primary := primary; c_fallback := None |}.

Definition nonce (k : key) (plaintext : string) : string :=
  str_take (aead_NonceSize (k_aead k)) (hmac_sha256 (k_macKey k) plaintext).

Definition seal (k : key) (plaintext : string) : string :=
  let n := nonce k plaintext in n +:+ aead_Seal (k_aead k) n plaintext.

(** [None] is the [false] of the second result. *)
Definition open (k : key) (raw : string) : option string :=
  let ns := aead_NonceSize (k_aead k) in
  if bool_decide (String.length raw < ns + aead_Overhead (k_aead k)) then None
  else
    match aead_Open (k_aead k) (str_take ns raw) (str_drop ns raw) with
    | Ok p => if bool_decide (str_take ns raw = nonce k p) then Some p else None
    | _ => None
    end.

(** The text that is encrypted. *)
Definition payload (b : BackendID) : string :=
  Join [bid_Kind b; bid_Namespace b +:+ "/" +:+ bid_Name b; bid_Model b; bid_NativeID b] payloadSeparator.

Definition Encode (c : codec) (b : BackendID) : outcome string :=
  let! prefix := prefixForKind (bid_Kind b) in
  if bool_decide (bid_Namespace b = "") || bool_decide (bid_Name b = "") || bool_decide (bid_NativeID b = "") then
    Fail (errors_New "idcodec: namespace, name, and nativeID are required")
  else if Contains (bid_Model b) payloadSeparator then
    Fail (errors_New ("idcodec: model must not contain " +:+ Quote (String payloadSeparator "")))
  else Ok (prefix +:+ EncodeToString RawURLEncoding (seal (c_primary c) (payload b))).

(** The prefix of an id, as the kind and the rest. *)
Definition splitID (id : string) : option (string * string) :=
  if HasPrefix id filePrefix then Some (KindFile, str_drop (String.length filePrefix) id)
  else if HasPrefix id batchPrefix then Some (KindBatch, str_drop (String.length batchPrefix) id)
  else None.

(** The primary key, then the fallback key. *)
Definition openAny (c : codec) (raw : string) : option string :=
  match open (c_primary c) raw with
  | Some p => Some p
  | None => match c_fallback c with Some k => open k raw | None => None end
  end.

(** The checks on the decrypted text. *)
Definition parsePayload (kind p : string) : outcome BackendID :=
  match SplitN p payloadSeparator 4 with
  | [p0; p1; p2; p3] =>
      if bool_decide (p0 ≠ kind) then Fail errInvalidID
      else
        match SplitN p1 "/" 2 with
        | [n0; n1] =>
            if bool_decide (n0 = "") || bool_decide (n1 = "") || bool_decide (p3 = "") then Fail errInvalidID
            else Ok {| bid_Namespace := n0; bid_Name := n1; bid_Kind := kind; bid_Model := p2; bid_NativeID := p3 |}
        | _ => Fail errInvalidID
        end
  | _ => Fail errInvalidID
  end.

Definition Decode (c : codec) (id : string) : outcome BackendID :=
  match splitID id with
  | None => Fail errInvalidID
  | Some (kind, body) =>
      match DecodeString RawURLEncoding body with
      | None => Fail errInvalidID
      | Some raw =>
          match openAny c raw with
          | None => Fail errInvalidID
          | Some p => parsePayload kind p
          end
      end
  end.
End Codec.
Arguments key : clear implicits.
Arguments key {_}.
Arguments codec : clear implicits.
Arguments codec {_}.

(** ** Properties *)

Section CodecProps.
Context `{CR : !Crypto} `{CL : !CryptoLaws CR}.

Lemma nonce_length k p : String.length (nonce k p) = aead_NonceSize (k_aead k).
Proof. unfold nonce. rewrite slength_take, hmac_length. pose proof (aead_nonce_length (k_aead k)). lia. Qed.

Lemma open_seal k p : open k (seal k p) = Some p.
Proof.
  unfold open, seal. pose proof (nonce_length k p) as Hn.
  rewrite bool_decide_false by (rewrite slength_app, aead_seal_length; lia).
  rewrite (str_take_app' _ (nonce k p)), (str_drop_app' _ (nonce k p)) by done.
  rewrite aead_open_seal by done. by rewrite bool_decide_true.
Qed.

(** A text that opens is the sealing of what it opens to. *)
Lemma open_sound k raw p : open k raw = Some p → raw = seal k p.
Proof.
  unfold open. case_bool_decide; [done|]. destruct (aead_Open _ _ _) as [q| |] eqn:E; [|done..].
  case_bool_decide as Hn; [|done]. intros [= ->]. apply aead_seal_open in E.
  unfold seal. rewrite <-Hn, <-E. by rewrite str_take_drop.
Qed.

(** What Kubernetes guarantees of the names in an id. *)
Definition kube_names (b : BackendID) : Prop :=
  Contains (bid_Namespace b) payloadSeparator = false ∧ Contains (bid_Name b) payloadSeparator = false ∧
  Contains (bid_Namespace b) "/" = false.

Lemma payload_unfold b :
  payload b = bid_Kind b +:+ String payloadSeparator ((bid_Namespace b +:+ String "/" (bid_Name b)) +:+
                String payloadSeparator (bid_Model b +:+ String payloadSeparator (bid_NativeID b))).
Proof. unfold payload. by rewrite !Join_cons. Qed.

Lemma parsePayload_payload b :
  bid_Kind b ∈ [KindFile; KindBatch] → kube_names b → Contains (bid_Model b) payloadSeparator = false →
  bid_Namespace b ≠ "" → bid_Name b ≠ "" → bid_NativeID b ≠ "" →
  parsePayload (bid_Kind b) (payload b) = Ok b.
Proof.
  intros Hk (Hns & Hn & Hsl) Hm H1 H2 H3. unfold parsePayload. rewrite payload_unfold.
  assert (Contains (bid_Kind b) payloadSeparator = false) as Hkind.
  { apply elem_of_cons in Hk as [->|[->|[]%elem_of_nil]%elem_of_cons]; done. }
  rewrite SplitN_app by done.
  rewrite SplitN_app by (rewrite Contains_app, Hns; by apply Contains_false_cons).
  rewrite SplitN_app by done. rewrite SplitN_1.
  rewrite bool_decide_false by naive_solver. rewrite SplitN_app, SplitN_1 by done.
  rewrite !bool_decide_false by done. by destruct b.
Qed.

Lemma SplitN_cons_inv p c n a l :
  SplitN p c (S (S n)) = a :: l → l ≠ [] → ∃ q, p = a +:+ String c q ∧ Contains a c = false ∧ SplitN q c (S n) = l.
Proof.
  unfold SplitN. simpl. destruct (cut_at c p) as [[x y]|] eqn:E.
  - intros [= <- <-] _. apply cut_at_Some in E as [-> Hx]. exists y. by rewrite Nat.sub_0_r.
  - by intros [= <- <-].
Qed.

(** What the checks accept is the text of the id they return. *)
Lemma parsePayload_sound kind p b :
  parsePayload kind p = Ok b →
  p = payload b ∧ bid_Kind b = kind ∧ Contains (bid_Model b) payloadSeparator = false ∧
  bid_Namespace b ≠ "" ∧ bid_Name b ≠ "" ∧ bid_NativeID b ≠ "".
Proof.
  unfold parsePayload. destruct (SplitN p _ 4) as [|p0 [|p1 [|p2 [|p3 [|]]]]] eqn:E; try done.
  case_bool_decide as Hk; [done|]. subst p0.
  destruct (SplitN p1 _ 2) as [|n0 [|n1 [|]]] eqn:E1; try done.
  destruct (_ || _) eqn:Ez; [done|]. intros [= <-]. simpl.
  apply orb_false_iff in Ez as [[Z1 Z2]%orb_false_iff Z3]. apply bool_decide_eq_false in Z1, Z2, Z3.
  apply SplitN_cons_inv in E as (q & -> & _ & E); [|done].
  apply SplitN_cons_inv in E as (q1 & -> & _ & E); [|done].
  apply SplitN_cons_inv in E as (q2 & -> & Hm & E); [|done].
  rewrite SplitN_1 in E. injection E as ->.
  apply SplitN_cons_inv in E1 as (q3 & -> & _ & E1); [|done]. rewrite SplitN_1 in E1. injection E1 as ->.
  by rewrite payload_unfold.
Qed.

Lemma splitID_prefix kind prefix body :
  prefixForKind kind = Ok prefix → splitID (prefix +:+ body) = Some (kind, body).
Proof.
  unfold prefixForKind, splitID. case_bool_decide as Hf; [|case_bool_decide as Hb; [|done]]; intros [= <-]; subst.
  - by rewrite HasPrefix_app, str_drop_app.
  - replace (HasPrefix (batchPrefix +:+ body) filePrefix) with false by done.
    by rewrite HasPrefix_app, str_drop_app.
Qed.

Lemma splitID_kind id kind body : splitID id = Some (kind, body) → kind ∈ [KindFile; KindBatch].
Proof. unfold splitID. repeat case_match; intros; simplify_eq; set_solver. Qed.

Lemma prefixForKind_ok kind : kind ∈ [KindFile; KindBatch] → ∃ prefix, prefixForKind kind = Ok prefix.
Proof. intros [->|[->|[]%elem_of_nil]%elem_of_cons]%elem_of_cons; eexists; reflexivity. Qed.

Lemma Encode_ok_inv c b id :
  Encode c b = Ok id →
  ∃ prefix, prefixForKind (bid_Kind b) = Ok prefix ∧ bid_Kind b ∈ [KindFile; KindBatch] ∧
    bid_Namespace b ≠ "" ∧ bid_Name b ≠ "" ∧ bid_NativeID b ≠ "" ∧ Contains (bid_Model b) payloadSeparator = false ∧
    id = prefix +:+ EncodeToString RawURLEncoding (seal (c_primary c) (payload b)).
Proof.
  unfold Encode. intros (prefix & Hp & H)%obind_ok_inv. exists prefix.
  destruct (_ || _) eqn:Ez; [done|]. destruct (Contains _ _) eqn:Em; [done|]. injection H as <-.
  apply orb_false_iff in Ez as [[Z1 Z2]%orb_false_iff Z3]. apply bool_decide_eq_false in Z1, Z2, Z3.
  repeat split; try done. unfold prefixForKind in Hp. repeat case_bool_decide; [set_solver..|done].
Qed.

(** Rotating the seed: the codec of the new seed, with the old one as its
    fallback, has the old codec's key. *)
Lemma NewCodec_rotation seed it fs fi c seed' it' c' :
  NewCodec seed it fs fi = Ok c → NewCodec seed' it' seed it = Ok c' → c_fallback c' = Some (c_primary c).
Proof.
  unfold NewCodec. intros (k & Hk & Hc)%obind_ok_inv (k' & Hk' & Hc')%obind_ok_inv.
  assert (c_primary c = k) as ->.
  { revert Hc. clear. case_bool_decide; [|by intros [= <-]]. by intros (k2 & _ & [= <-])%obind_ok_inv. }
  assert (seed ≠ "") as Hs by (intros ->; done).
  rewrite bool_decide_true in Hc' by done. rewrite Hk in Hc'. simpl in Hc'. by injection Hc' as <-.
Qed.

(** Decoding inverts encoding. *)
Lemma Encode_Decode c c' b id :
  Encode c b = Ok id → kube_names b →
  (c_primary c' = c_primary c ∨
   (c_fallback c' = Some (c_primary c) ∧ open (c_primary c') (seal (c_primary c) (payload b)) = None)) →
  Decode c' id = Ok b.
Proof.
  intros (prefix & Hp & Hk & H1 & H2 & H3 & Hm & ->)%Encode_ok_inv Hn Hc.
  unfold Decode. rewrite (splitID_prefix _ _ _ Hp), (base64_roundtrip _ RawURLEncoding_ok).
  replace (openAny c' _) with (Some (payload b)); [by apply parsePayload_payload|].
  unfold openAny. destruct Hc as [->|[-> ->]]; by rewrite open_seal.
Qed.

(** An id the gateway issued is decoded to the backend it was issued for:
    by any codec with the same primary key, and after a rotation by a codec
    that has the issuing key as its fallback. *)
Theorem issued_id_decodes c c' b id :
  Encode c b = Ok id → kube_names b →
  (c_primary c' = c_primary c ∨
   (c_fallback c' = Some (c_primary c) ∧ open (c_primary c') (seal (c_primary c) (payload b)) = None)) →
  Decode c' id = Ok b.
Proof. apply Encode_Decode. Qed.

(** Only issued ids decode: whatever text a client presents, if it decodes
    then its body carries the same bytes as the id the gateway issues for the
    decoded backend under one of its two keys, with the same prefix; otherwise
    the answer is [ErrInvalidID]. *)
Theorem Decode_authentic c id :
  match Decode c id with
  | Ok b =>
      ∃ k id' body body', (k = c_primary c ∨ c_fallback c = Some k) ∧
        Encode {| c_primary := k; c_fallback := None |} b = Ok id' ∧
        splitID id = Some (bid_Kind b, body) ∧ splitID id' = Some (bid_Kind b, body') ∧
        DecodeString RawURLEncoding body = DecodeString RawURLEncoding body'
  | Fail e => e = errInvalidID
  | Panic _ => False
  end.
Proof.
  unfold Decode. destruct (splitID id) as [[kind body]|] eqn:Es; [|done].
  destruct (DecodeString _ body) as [raw|] eqn:Ed; [|done].
  destruct (openAny c raw) as [p|] eqn:Eo; [|done].
  destruct (parsePayload kind p) as [b|e|s] eqn:Ep.
  - apply parsePayload_sound in Ep as (-> & <- & Hm & H1 & H2 & H3).
    destruct (prefixForKind_ok (bid_Kind b)) as [prefix Hp]; [by eapply splitID_kind|].
    assert (∃ k, (k = c_primary c ∨ c_fallback c = Some k) ∧ raw = seal k (payload b)) as (k & Hk & ->).
    { unfold openAny in Eo. destruct (open (c_primary c) raw) eqn:E.
      - exists (c_primary c). simplify_eq. split; [by left|]. by apply open_sound.
      - destruct (c_fallback c) as [k|] eqn:Ef; [|done]. exists k. split; [by right|]. by apply open_sound. }
    exists k, (prefix +:+ EncodeToString RawURLEncoding (seal k (payload b))), body,
      (EncodeToString RawURLEncoding (seal k (payload b))).
    rewrite (base64_roundtrip _ RawURLEncoding_ok). repeat split; try done; [|by apply splitID_prefix].
    unfold Encode. rewrite Hp. simpl. by rewrite !bool_decide_false, Hm.
  - unfold parsePayload in Ep. repeat case_match; by simplify_eq.
  - unfold parsePayload in Ep. repeat case_match; by simplify_eq.
Qed.

(** The kind of an id cannot be changed: when a body decodes under one
    prefix it is refused under the other, so a file id cannot be replayed as a
    batch id. *)
Theorem Decode_kind_separation c body :
  is_ok (Decode c (filePrefix +:+ body)) = true → Decode c (batchPrefix +:+ body) = Fail errInvalidID.
Proof.
  unfold Decode. rewrite (splitID_prefix KindFile), (splitID_prefix KindBatch) by done.
  destruct (DecodeString _ _) as [raw|]; [|done]. destruct (openAny _ _) as [p|]; [|done].
  unfold parsePayload. destruct (SplitN p _ 4) as [|p0 [|p1 [|p2 [|p3 [|]]]]]; try done.
  destruct (decide (p0 = KindFile)) as [->|Hne]; [done|]. by rewrite bool_decide_true.
Qed.

(** An id is not the only text that decodes to its backend: a line break
    inserted anywhere after the prefix changes nothing. *)
Theorem Decode_ignores_newlines c a b nl :
  is_newline nl = true → Decode c (filePrefix +:+ a +:+ String nl b) = Decode c (filePrefix +:+ a +:+ b).
Proof.
  intros Hnl. unfold Decode. rewrite !(splitID_prefix KindFile) by done. by rewrite DecodeString_newline.
Qed.
End CodecProps.

(** ** Concrete ids *)

Module Sample.
Import Toy.

Definition backend : BackendID :=
  {| bid_Namespace := "default"; bid_Name := "openai"; bid_Kind := KindFile; bid_Model := "gpt-4o";
     bid_NativeID := "file|abc" |}.
Definition newKey : key := {| k_aead := "new"; k_macKey := "mac-new" |}.
Definition oldKey : key := {| k_aead := "old"; k_macKey := "mac-old" |}.
Definition before : codec := {| c_primary := oldKey; c_fallback := None |}.
Definition after : codec := {| c_primary := newKey; c_fallback := Some oldKey |}.
Definition id : string := match Encode before backend with Ok i => i | _ => "" end.

(** The id issued before the seed was rotated still decodes, native id with a
    separator included. *)
Lemma issued_id_decodes_witness : Decode after id = Ok backend ∧ Decode before id = Ok backend.
Proof.
  split; apply (issued_id_decodes before); try reflexivity.
  - repeat split.
  - right. split; vm_compute; reflexivity.
  - repeat split.
  - by left.
Defined.

Lemma Decode_authentic_witness :
  ∃ b, Decode after id = Ok b ∧ ∃ k id', Encode {| c_primary := k; c_fallback := None |} b = Ok id'.
Proof.
  pose proof (Decode_authentic after id) as H.
  replace (Decode after id) with (Ok (A := BackendID) backend) in * by (vm_compute; reflexivity).
  destruct H as (k & id' & _ & _ & _ & He & _). exists backend. split; [done|]. by exists k, id'.
Defined.

Lemma Decode_kind_separation_witness :
  Decode before (batchPrefix +:+ str_drop 5 id) = Fail errInvalidID.
Proof. apply Decode_kind_separation. vm_compute. reflexivity. Defined.

Lemma Decode_ignores_newlines_witness :
  Decode before (filePrefix +:+ "ab" +:+ String (chr 10) "cd") = Decode before (filePrefix +:+ "ab" +:+ "cd").
Proof. apply Decode_ignores_newlines. reflexivity. Defined.
End Sample.
