(* ===== verification/McpAuthz.v ===== *)
(** * MCP authorization

    Models [internal/mcpproxy/authorization.go]: the compilation of the rules of a
    route, the claims and scopes of the bearer token, the CEL activation that is
    built once per request and patched for each target, and the decision.  The
    data types are those of [internal/filterapi/mcpconfig.go].  The CEL library,
    the JWT parser and the JSON codec are arguments; logging is left out. *)

From Stdlib Require Import Ascii Lia.
From stdpp Require Import base gmap strings list sorting.
From S2P Require Import Prelude GoStrings GoHttp.

(** ** Configuration *)

(** [AuthorizationAction] and [JWTClaimValueType] are strings in the source. *)
Definition AuthorizationActionAllow : string := "Allow".
Definition AuthorizationActionDeny : string := "Deny".
Definition JWTClaimValueTypeString : string := "String".
Definition JWTClaimValueTypeStringArray : string := "StringArray".

Record ToolCall := { tl_Backend : string; tl_Tool : string }.
Record JWTClaim := { cl_Name : string; cl_ValueType : string; cl_Values : list string }.
Record JWTSource := { js_Scopes : list string; js_Claims : list JWTClaim }.
Record MCPAuthorizationSource := { as_JWT : JWTSource }.
Record MCPAuthorizationTarget := { at_Tools : list ToolCall }.

Record MCPRouteAuthorizationRule := {
  ar_Action : string;
  ar_Source : option MCPAuthorizationSource;
  ar_Target : option MCPAuthorizationTarget;
  ar_CEL : option string;
}.

Record MCPRouteAuthorization := {
  ra_DefaultAction : string;
  ra_Rules : list MCPRouteAuthorizationRule;
  ra_ResourceMetadataURL : string;
  ra_VerifiedJWT : bool;
}.

#[global] Instance ToolCall_eq_dec : EqDecision ToolCall.
Proof. solve_decision. Defined.
#[global] Instance JWTClaim_eq_dec : EqDecision JWTClaim.
Proof. solve_decision. Defined.
#[global] Instance JWTSource_eq_dec : EqDecision JWTSource.
Proof. solve_decision. Defined.
#[global] Instance MCPAuthorizationSource_eq_dec : EqDecision MCPAuthorizationSource.
Proof. solve_decision. Defined.

(** ** Values of claims *)

(** A Go [any] that a claim can hold; a map is the list of its entries. *)
Inductive value :=
| VNil
| VBool (b : bool)
| VNumber (n : string)
| VString (s : string)
| VStrings (l : list string)
| VArray (l : list value)
| VObject (l : list (string * value)).

#[local] Set Warnings "-notation-for-abbreviation".
Notation MapClaims := (list (string * value)).

(** [m[k]] with the comma-ok form. *)
Fixpoint map_get (k : string) (m : MapClaims) : option value :=
  match m with
  | [] => None
  | (j, v) :: m => if bool_decide (j = k) then Some v else map_get k m
  end.

Definition map_delete (k : string) (m : MapClaims) : MapClaims := filter (λ p, p.1 ≠ k) m.

(** The loop of [lookupClaim]. *)
Fixpoint lookupParts (current : value) (parts : list string) : option value :=
  match parts with
  | [] => Some current
  | part :: parts =>
      match current with
      | VObject m => next ← map_get part m; lookupParts next parts
      | _ => None
      end
  end.

Definition lookupClaim (claims : MapClaims) (path : string) : option value :=
  lookupParts (VObject claims) (Split path ".").

Definition claimHasAllowedString (v : value) (allowed : list string) : bool :=
  match v with
  | VStrings l => existsb (λ item, bool_decide (item ∈ allowed)) l
  | VArray l => existsb (λ item, match item with VString str => bool_decide (str ∈ allowed) | _ => false end) l
  | VString s => bool_decide (s ∈ allowed)
  | _ => false
  end.

(** One turn of the loop of [claimsSatisfied]. *)
Definition claimSatisfied (claims : MapClaims) (claim : JWTClaim) : bool :=
  match lookupClaim claims (cl_Name claim) with
  | None => false
  | Some v =>
      if bool_decide (cl_ValueType claim = JWTClaimValueTypeString) then
        match v with VString s => bool_decide (s ∈ cl_Values claim) | _ => false end
      else if bool_decide (cl_ValueType claim = JWTClaimValueTypeStringArray) then
        claimHasAllowedString v (cl_Values claim)
      else false
  end.

Definition claimsSatisfied (claims : MapClaims) (required : list JWTClaim) : bool :=
  forallb (claimSatisfied claims) required.

Definition scopesSatisfied (have : gset string) (required : list string) : bool :=
  forallb (λ scope, bool_decide (scope ∈ have)) required.

(** [strings.Fields]. *)
Definition flush (cur : string) : list string := if bool_decide (cur = "") then [] else [cur].
Fixpoint fields_go (fuel : nat) (cur s : string) : list string :=
  match fuel with
  | O => flush cur
  | S fuel =>
      match s with
      | "" => flush cur
      | String c s' =>
          match strip_one space_seqs s with
          | Some rest => flush cur ++ fields_go fuel "" rest
          | None => fields_go fuel (cur +:+ String c "") s'
          end
      end
  end.
Definition Fields (s : string) : list string := fields_go (S (String.length s)) "" s.

(** One turn of the loop of [extractScopes]. *)
Definition scopesOf (raw : option value) : list string :=
  match raw with
  | Some (VString s) => Fields s
  | Some (VStrings l) => l
  | Some (VArray l) => omap (λ item, match item with
                                     | VString s => if bool_decide (s ≠ "") then Some s else None
                                     | _ => None
                                     end) l
  | _ => []
  end.

Definition extractScopes (claims : MapClaims) : list string :=
  foldl (λ scopes key, scopes ++ scopesOf (map_get key claims)) [] ["scope"; "scp"].

Definition bearerToken (header : string) : outcome string :=
  if bool_decide (header = "") then Fail (errors_New "missing Authorization header")
  else
    match SplitN header " " 2 with
    | [scheme; rest] =>
        if negb (EqualFold scheme "bearer") then Fail (errors_New "invalid Authorization header")
        else
          let token := TrimSpace rest in
          if bool_decide (token = "") then Fail (errors_New "missing bearer token") else Ok token
    | _ => Fail (errors_New "invalid Authorization header")
    end.

Definition toolMatches (backend tool : string) (tools : list ToolCall) : bool :=
  bool_decide (tools = []) || existsb (λ t, bool_decide (tl_Backend t = backend) && bool_decide (tl_Tool t = tool)) tools.

(** ** Requests and the CEL activation *)

(** What the authorization takes from its libraries: the parsed and normalized
    parameters of a call, the JWT parser, the CEL compiler and programs. *)
Class AuthzLib := {
  Params : Type;
  CelAst : Type;
  CelProgram : Type;
  (** [jwt.NewParser().ParseUnverified]: what it leaves in the claims map, and
      whether it returns an error. *)
  ParseUnverified : string → MapClaims * option error;
  (** [json.Marshal], and [json.Unmarshal] into a map; [None] is an error. *)
  MarshalParams : Params → option string;
  UnmarshalMap : string → option MapClaims;
}.

(** What CEL sees as [request.mcp.params]. *)
Inductive celParams `{L : !AuthzLib} :=
| ParamsNil
| ParamsRaw (p : Params)
| ParamsMap (m : MapClaims).

Section Activation.
Context `{L : !AuthzLib}.

Record authorizationRequest := {
  rq_Headers : http_Header;
  rq_HTTPMethod : string;
  rq_Host : string;
  rq_HTTPPath : string;
  rq_MCPMethod : string;
  rq_Backend : string;
  rq_Tool : string;
  rq_Params : option Params;
}.

Definition normalizeParams (params : option Params) : celParams :=
  match params with
  | None => ParamsNil
  | Some p =>
      match MarshalParams p with
      | Some data => match UnmarshalMap data with Some parsed => ParamsMap parsed | None => ParamsRaw p end
      | None => ParamsRaw p
      end
  end.

Record mcpActivation := {
  ma_method : string;
  ma_backend : string;
  ma_tool : string;
  ma_params : celParams;
}.

(** The map CEL evaluates against; [request.mcp] is the map a context keeps a
    second reference to. *)
Record celActivation := {
  act_method : string;
  act_host : string;
  act_headers : gmap string string;
  act_headersAll : gmap string (list string);
  act_path : string;
  act_claims : MapClaims;
  act_scopes : list string;
  act_mcp : mcpActivation;
}.

(** [for k, v := range req.Headers]. *)
Definition headerBody (acc : gmap string string * gmap string (list string)) (p : string * list string) :
    gmap string string * gmap string (list string) :=
  match p.2 with
  | [] => acc
  | v0 :: _ => (<[ToLower p.1 := v0]> acc.1, <[ToLower p.1 := p.2]> acc.2)
  end.

Definition string_leb (s t : string) : Prop := String.leb s t = true.
#[global] Instance string_leb_dec s t : Decision (string_leb s t).
Proof. unfold string_leb. apply _. Defined.

(** [sets.List]: the elements in order. *)
Definition sets_List (s : gset string) : list string := merge_sort string_leb (elements s).

Definition mcpOf (req : authorizationRequest) : mcpActivation :=
  {| ma_method := rq_MCPMethod req; ma_backend := rq_Backend req; ma_tool := rq_Tool req;
     ma_params := normalizeParams (rq_Params req) |}.

(** [range] visits the headers. *)
Definition buildCELActivation (range : http_Header → list (string * list string)) (req : authorizationRequest)
    (claims : MapClaims) (scopes : gset string) : celActivation :=
  let hs := foldl headerBody (∅, ∅) (range (rq_Headers req)) in
  {| act_method := rq_HTTPMethod req; act_host := rq_Host req; act_headers := hs.1; act_headersAll := hs.2;
     act_path := rq_HTTPPath req; act_claims := claims; act_scopes := sets_List scopes; act_mcp := mcpOf req |}.

Record authzContext := {
  ac_claims : MapClaims;
  ac_scopes : gset string;
  ac_activation : option celActivation;
}.

Definition newAuthzContext (req : authorizationRequest) (verifiedJWT : bool) : authzContext :=
  if negb verifiedJWT then {| ac_claims := []; ac_scopes := ∅; ac_activation := None |}
  else
    match bearerToken (Header_Get (rq_Headers req) "Authorization") with
    | Ok token =>
        match ParseUnverified token with
        | (claims, Some _) => {| ac_claims := claims; ac_scopes := ∅; ac_activation := None |}
        | (claims, None) =>
            {| ac_claims := map_delete "scp" (map_delete "scope" claims);
               ac_scopes := list_to_set (extractScopes claims); ac_activation := None |}
        end
    | _ => {| ac_claims := []; ac_scopes := ∅; ac_activation := None |}
    end.

(** The first call builds the activation; later calls write the four entries of
    its [mcp] map. *)
Definition activationFor (range : http_Header → list (string * list string)) (ac : authzContext)
    (req : authorizationRequest) : authzContext * celActivation :=
  let activation :=
    match ac_activation ac with
    | None => buildCELActivation range req (ac_claims ac) (ac_scopes ac)
    | Some a =>
        {| act_method := act_method a; act_host := act_host a; act_headers := act_headers a;
           act_headersAll := act_headersAll a; act_path := act_path a; act_claims := act_claims a;
           act_scopes := act_scopes a; act_mcp := mcpOf req |}
    end in
  ({| ac_claims := ac_claims ac; ac_scopes := ac_scopes ac; ac_activation := Some activation |}, activation).
End Activation.
Arguments authorizationRequest {_}.
Arguments mcpActivation {_}.
Arguments celActivation {_}.
Arguments authzContext {_}.

(** ** Rules *)

(** The CEL environment of the rules and the evaluation of a program. *)
Inductive celResult := CelBool (b : bool) | CelOther.

Class AuthzCel `{L : !AuthzLib} := {
  cel_NewEnv : option error;
  env_Compile : string → outcome CelAst;
  env_Program : CelAst → outcome CelProgram;
  (** [None] is an evaluation error. *)
  program_Eval : CelProgram → celActivation → option celResult;
}.

Section Rules.
Context `{L : !AuthzLib} `{CE : !AuthzCel}.

(** A nil target list matches every tool: [None] and the empty list are one. *)
Record compiledAuthorizationRule := {
  cr_Source : option MCPAuthorizationSource;
  cr_Target : list ToolCall;
  cr_Action : string;
  cr_celExpression : string;
  cr_celProgram : option CelProgram;
}.

Record compiledAuthorization := {
  ca_ResourceMetadataURL : string;
  ca_Rules : list compiledAuthorizationRule;
  ca_DefaultAction : string;
  ca_VerifiedJWT : bool;
}.

(** [slices.EqualFunc]. *)
Fixpoint EqualFunc {A} (f : A → A → bool) (l1 l2 : list A) : bool :=
  match l1, l2 with
  | [], [] => true
  | a :: l1, b :: l2 => f a b && EqualFunc f l1 l2
  | _, _ => false
  end.

Definition sameRule (ra rb : compiledAuthorizationRule) : bool :=
  bool_decide (cr_Action ra = cr_Action rb) && bool_decide (cr_celExpression ra = cr_celExpression rb) &&
  bool_decide (cr_Source ra = cr_Source rb) && bool_decide (cr_Target ra = cr_Target rb).

Definition authorization_same (a other : option compiledAuthorization) : bool :=
  match a, other with
  | None, None => true
  | Some a, Some other =>
      if bool_decide (ca_ResourceMetadataURL a ≠ ca_ResourceMetadataURL other) ||
         bool_decide (ca_DefaultAction a ≠ ca_DefaultAction other) ||
         negb (Bool.eqb (ca_VerifiedJWT a) (ca_VerifiedJWT other)) then false
      else EqualFunc sameRule (ca_Rules a) (ca_Rules other)
  | _, _ => false
  end.

Definition compileRule (rule : MCPRouteAuthorizationRule) : outcome compiledAuthorizationRule :=
  let expr := TrimSpace (default "" (ar_CEL rule)) in
  let target := match ar_Target rule with Some t => at_Tools t | None => [] end in
  if bool_decide (expr ≠ "") then
    let! ast := owrap "failed to compile rule CEL: " (env_Compile expr) in
    let! program := owrap "failed to build rule CEL program: " (env_Program ast) in
    Ok {| cr_Source := ar_Source rule; cr_Target := target; cr_Action := ar_Action rule;
          cr_celExpression := expr; cr_celProgram := Some program |}
  else Ok {| cr_Source := ar_Source rule; cr_Target := target; cr_Action := ar_Action rule;
             cr_celExpression := ""; cr_celProgram := None |}.

Definition compileAuthorization (auth : option MCPRouteAuthorization) : outcome (option compiledAuthorization) :=
  match auth with
  | None => Ok None
  | Some auth =>
      match cel_NewEnv with
      | Some err => Fail (Errorf_w "failed to create CEL environment: " err)
      | None =>
          let! rules := ofold (λ rules rule, let! cr := compileRule rule in Ok (rules ++ [cr])) [] (ra_Rules auth) in
          Ok (Some {| ca_ResourceMetadataURL := ra_ResourceMetadataURL auth; ca_Rules := rules;
                      ca_DefaultAction := ra_DefaultAction auth; ca_VerifiedJWT := ra_VerifiedJWT auth |})
      end
  end.

(** [None] is an error: of the evaluation, or a result that is not a boolean. *)
Definition evalRuleCEL (program : CelProgram) (activation : celActivation) : option bool :=
  match program_Eval program activation with
  | Some (CelBool b) => Some b
  | _ => None
  end.

(** [range] visits the request headers when the activation is built. *)
Context (range : http_Header → list (string * list string)).

(** The loop over the rules; [challenge] and [activation] are its two variables. *)
Fixpoint authorizeRules (req : authorizationRequest) (defaultAction : bool) (rules : list compiledAuthorizationRule)
    (challenge : list string) (activation : option celActivation) (ac : authzContext) :
    authzContext * (bool * list string) :=
  match rules with
  | [] => (ac, (defaultAction, challenge))
  | rule :: rules =>
      let shouldAllow := bool_decide (cr_Action rule = AuthorizationActionAllow) in
      let continue := authorizeRules req defaultAction rules in
      if bool_decide (cr_Target rule ≠ []) && negb (toolMatches (rq_Backend req) (rq_Tool req) (cr_Target rule))
      then continue challenge activation ac
      else
        let claims := from_option (λ s, js_Claims (as_JWT s)) [] (cr_Source rule) in
        let requiredScopes := from_option (λ s, js_Scopes (as_JWT s)) [] (cr_Source rule) in
        if negb (claimsSatisfied (ac_claims ac) claims) then continue challenge activation ac
        else if shouldAllow && negb (scopesSatisfied (ac_scopes ac) requiredScopes) then
          continue (if bool_decide (challenge = []) || (length requiredScopes <? length challenge)
                    then requiredScopes else challenge) activation ac
        else
          match cr_celProgram rule with
          | None => (ac, (shouldAllow, []))
          | Some program =>
              let '(ac, act) := match activation with
                                | Some act => (ac, act)
                                | None => activationFor range ac req
                                end in
              match evalRuleCEL program act with
              | Some true => (ac, (shouldAllow, []))
              | Some false => continue challenge (Some act) ac
              | None => (ac, (false, []))
              end
          end
  end.

Definition authorizeRequestWith (authorization : compiledAuthorization) (req : authorizationRequest) (ac : authzContext) :
    authzContext * (bool * list string) :=
  authorizeRules req (bool_decide (ca_DefaultAction authorization = AuthorizationActionAllow))
    (ca_Rules authorization) [] None ac.

Definition authorizeRequest (authorization : option compiledAuthorization) (req : authorizationRequest) :
    bool * list string :=
  match authorization with
  | None => (true, [])
  | Some a =>
      match ca_Rules a with
      | [] => (bool_decide (ca_DefaultAction a = AuthorizationActionAllow), [])
      | _ => (authorizeRequestWith a req (newAuthzContext req (ca_VerifiedJWT a))).2
      end
  end.
End Rules.

Definition q : string := dquote.
Definition buildInsufficientScopeHeader (scopes : list string) (resourceMetadata : string) : string :=
  let sep := ", " in
  "Bearer error=" +:+ q +:+ "insufficient_scope" +:+ q +:+ sep +:+
  "scope=" +:+ q +:+ Join scopes " " +:+ q +:+
  (if bool_decide (resourceMetadata ≠ "") then sep +:+ "resource_metadata=" +:+ q +:+ resourceMetadata +:+ q else "") +:+
  sep +:+ "error_description=" +:+ q +:+ "The token is missing required scopes" +:+ q.

(** ** The decision *)

Section Decision.
Context `{L : !AuthzLib} `{CE : !AuthzCel} (range : http_Header → list (string * list string)).

(** What one rule says about a request.  The scopes count for an Allow rule only: a Deny
    rule is applied to a request without them as well. *)
Inductive verdict := NotApplicable | MissingScopes (scopes : list string) | Matches | Errs.

Definition ruleClaims (r : compiledAuthorizationRule) : list JWTClaim := from_option (λ s, js_Claims (as_JWT s)) [] (cr_Source r).
Definition ruleScopes (r : compiledAuthorizationRule) : list string := from_option (λ s, js_Scopes (as_JWT s)) [] (cr_Source r).
Definition allows (r : compiledAuthorizationRule) : Prop := cr_Action r = AuthorizationActionAllow.

Definition ruleVerdict (claims : MapClaims) (scopes : gset string) (act : celActivation) (backend tool : string)
    (r : compiledAuthorizationRule) : verdict :=
  if negb (toolMatches backend tool (cr_Target r)) || negb (claimsSatisfied claims (ruleClaims r)) then NotApplicable
  else if bool_decide (allows r) && negb (scopesSatisfied scopes (ruleScopes r)) then MissingScopes (ruleScopes r)
  else match cr_celProgram r with
       | None => Matches
       | Some program => match evalRuleCEL program act with
                         | Some true => Matches
                         | Some false => NotApplicable
                         | None => Errs
                         end
       end.

Definition passed_over (v : verdict) : bool := match v with NotApplicable | MissingScopes _ => true | _ => false end.

Definition smaller (challenge required : list string) : list string :=
  if bool_decide (challenge = []) || (length required <? length challenge) then required else challenge.

(** The first rule that matches or errs decides. *)
Fixpoint firstMatch (v : compiledAuthorizationRule → verdict) (dflt : bool) (rules : list compiledAuthorizationRule)
    (challenge : list string) : bool * list string :=
  match rules with
  | [] => (dflt, challenge)
  | r :: rules =>
      match v r with
      | NotApplicable => firstMatch v dflt rules challenge
      | MissingScopes l => firstMatch v dflt rules (smaller challenge l)
      | Matches => (bool_decide (allows r), [])
      | Errs => (false, [])
      end
  end.

(** A cached activation stands for the one of the request up to [request.mcp]. *)
Definition cache_ok (ac : authzContext) (req : authorizationRequest) : Prop :=
  ∀ a, ac_activation ac = Some a →
    (activationFor range ac req).2 = buildCELActivation range req (ac_claims ac) (ac_scopes ac).

Lemma activationFor_build ac req :
  cache_ok ac req → (activationFor range ac req).2 = buildCELActivation range req (ac_claims ac) (ac_scopes ac).
Proof. intros H. destruct (ac_activation ac) as [a|] eqn:Ea; [by eapply H|]. unfold activationFor. by rewrite Ea. Qed.

Lemma target_guard backend tool tools :
  bool_decide (tools ≠ []) && negb (toolMatches backend tool tools) = negb (toolMatches backend tool tools).
Proof. by destruct tools. Qed.

(** The loop computes the first match, and leaves the claims, the scopes and a
    usable cache. *)
Lemma authorizeRules_firstMatch req dflt rules challenge act ac :
  cache_ok ac req →
  let built := buildCELActivation range req (ac_claims ac) (ac_scopes ac) in
  (act = None ∨ (act = Some built ∧ ac_activation ac = Some built)) →
  let r := authorizeRules range req dflt rules challenge act ac in
  r.2 = firstMatch (ruleVerdict (ac_claims ac) (ac_scopes ac) built (rq_Backend req) (rq_Tool req)) dflt rules challenge ∧
  ac_claims r.1 = ac_claims ac ∧ ac_scopes r.1 = ac_scopes ac ∧
  (ac_activation r.1 = ac_activation ac ∨ ac_activation r.1 = Some built).
Proof.
  cbn zeta. revert challenge act ac. induction rules as [|r rules IH]; intros challenge act ac Hc Ha; [by auto|].
  cbn [authorizeRules firstMatch]. unfold ruleVerdict at 1. rewrite target_guard. fold (ruleClaims r) (ruleScopes r).
  destruct (toolMatches _ _ _); cbn [negb orb]; [|by apply IH].
  destruct (claimsSatisfied _ _); cbn [negb]; [|by apply IH].
  fold (allows r). destruct (bool_decide (allows r) && _); [by apply IH|].
  destruct (cr_celProgram r) as [program|]; [|by auto].
  destruct Ha as [->|[-> Hac]].
  - pose proof (activationFor_build ac req Hc) as Hb.
    destruct (activationFor range ac req) as [ac' a'] eqn:Ea. cbn in Hb. subst a'.
    assert (ac_claims ac' = ac_claims ac ∧ ac_scopes ac' = ac_scopes ac ∧
            ac_activation ac' = Some (buildCELActivation range req (ac_claims ac) (ac_scopes ac))) as (Hcl & Hs & Hac).
    { unfold activationFor in Ea. by injection Ea as <- Ea; rewrite Ea. }
    destruct (evalRuleCEL _ _) as [[]|]; [by auto| |by auto].
    destruct (IH challenge (Some (buildCELActivation range req (ac_claims ac) (ac_scopes ac))) ac') as (H1 & H2 & H3 & H4).
    { intros a Ha. rewrite Ha in Hac. injection Hac as ->. rewrite Hcl, Hs. unfold activationFor. by rewrite Ha. }
    { rewrite Hcl, Hs. auto. }
    rewrite H1, H2, H3, Hcl, Hs in *. split_and!; [done..|]. right. destruct H4 as [->| ->]; done.
  - destruct (evalRuleCEL _ _) as [[]|]; [by auto| |by auto]. by apply IH; auto.
Qed.

Lemma authorizeRequestWith_firstMatch auth req ac :
  cache_ok ac req →
  (authorizeRequestWith range auth req ac).2 =
    firstMatch (ruleVerdict (ac_claims ac) (ac_scopes ac) (buildCELActivation range req (ac_claims ac) (ac_scopes ac))
                  (rq_Backend req) (rq_Tool req))
      (bool_decide (ca_DefaultAction auth = AuthorizationActionAllow)) (ca_Rules auth) [].
Proof.
  intros Hc.
  by destruct (authorizeRules_firstMatch req (bool_decide (ca_DefaultAction auth = AuthorizationActionAllow))
      (ca_Rules auth) [] None ac Hc (or_introl eq_refl)).
Qed.

(** The verdict of a rule on a request with the token of its own. *)
Definition freshVerdict (auth : compiledAuthorization) (req : authorizationRequest) : compiledAuthorizationRule → verdict :=
  let ac := newAuthzContext req (ca_VerifiedJWT auth) in
  ruleVerdict (ac_claims ac) (ac_scopes ac) (buildCELActivation range req (ac_claims ac) (ac_scopes ac))
    (rq_Backend req) (rq_Tool req).

Lemma fresh_cache req v : cache_ok (newAuthzContext req v) req.
Proof.
  intros a. unfold newAuthzContext. destruct v; [cbn|done].
  destruct (bearerToken _); [|done..]. by destruct (ParseUnverified _) as [? []].
Qed.

Lemma authorizeRequest_firstMatch auth req :
  authorizeRequest range (Some auth) req =
    firstMatch (freshVerdict auth req) (bool_decide (ca_DefaultAction auth = AuthorizationActionAllow)) (ca_Rules auth) [].
Proof.
  unfold authorizeRequest. destruct (ca_Rules auth) eqn:Er; [done|]. rewrite <-Er.
  apply authorizeRequestWith_firstMatch, fresh_cache.
Qed.

Lemma firstMatch_ext v1 v2 dflt rules challenge :
  Forall (λ r, v1 r = v2 r) rules → firstMatch v1 dflt rules challenge = firstMatch v2 dflt rules challenge.
Proof.
  revert challenge. induction rules as [|r rules IH]; intros challenge; [done|]. intros [Hr Hrs]%Forall_cons.
  cbn. rewrite Hr. destruct (v2 r); auto.
Qed.

(** Without CEL programs the rules see only the headers, the backend and the tool. *)
Lemma authorizeRequest_no_cel a r1 r2 :
  Forall (λ r, cr_celProgram r = None) (from_option ca_Rules [] a) →
  rq_Headers r1 = rq_Headers r2 → rq_Backend r1 = rq_Backend r2 → rq_Tool r1 = rq_Tool r2 →
  authorizeRequest range a r1 = authorizeRequest range a r2.
Proof.
  intros Hc Hh Hb Ht. destruct a as [a|]; [|done]. rewrite !authorizeRequest_firstMatch. apply firstMatch_ext.
  eapply Forall_impl; [exact Hc|]. intros r Hr. unfold freshVerdict, ruleVerdict, newAuthzContext.
  by rewrite Hr, Hh, Hb, Ht.
Qed.

(** A rule is reached when every rule before it is passed over. *)
Definition decides (v : compiledAuthorizationRule → verdict) (rules : list compiledAuthorizationRule)
    (r : compiledAuthorizationRule) : Prop :=
  ∃ pre post, rules = pre ++ r :: post ∧ Forall (λ r, passed_over (v r) = true) pre ∧ passed_over (v r) = false.

Lemma decides_cons v r rules x :
  decides v (r :: rules) x ↔ (r = x ∧ passed_over (v r) = false) ∨ (passed_over (v r) = true ∧ decides v rules x).
Proof.
  split.
  - intros ([|y pre] & post & [= -> ->] & Hp & Hx); [by left|]. apply Forall_cons in Hp as [Hy Hp].
    right. split; [done|]. by exists pre, post.
  - intros [[-> Hx]|(Hr & pre & post & -> & Hp & Hx)]; [by exists [], rules|].
    exists (r :: pre), post. by rewrite Forall_cons.
Qed.

Lemma firstMatch_allowed v dflt rules challenge :
  (firstMatch v dflt rules challenge).1 = true ↔
  (∃ r, decides v rules r ∧ v r = Matches ∧ allows r) ∨ (Forall (λ r, passed_over (v r) = true) rules ∧ dflt = true).
Proof.
  revert challenge. induction rules as [|r rules IH]; intros challenge; cbn [firstMatch].
  { split; [by right|]. by intros [(r & ([] & post & H & _) & _)|[_ H]]. }
  setoid_rewrite decides_cons. rewrite Forall_cons.
  assert (passed_over (v r) = true →
    ((∃ x, decides v rules x ∧ v x = Matches ∧ allows x) ∨ (Forall (λ r, passed_over (v r) = true) rules ∧ dflt = true)) ↔
    ((∃ x, ((r = x ∧ passed_over (v r) = false) ∨ (passed_over (v r) = true ∧ decides v rules x)) ∧ v x = Matches ∧ allows x) ∨
     ((passed_over (v r) = true ∧ Forall (λ r, passed_over (v r) = true) rules) ∧ dflt = true))) as Hpass.
  { intros ->. split; (intros [(x & Hx & Hm)|H]; [left; exists x|right; tauto]); [tauto|].
    destruct Hx as [[_ ?]|[_ Hx]]; [done|tauto]. }
  destruct (v r) eqn:Ev; rewrite ?IH; try by apply Hpass.
  - cbn. rewrite bool_decide_eq_true. split; [intros Ha; left; exists r; auto|].
    by intros [(x & [[<- _]|[? _]] & _ & Ha)|[[? _] _]].
  - cbn. split; [done|]. intros [(x & [[<- _]|[? _]] & Hm & _)|[[? _] _]]; congruence.
Qed.

Lemma firstMatch_challenge v dflt rules challenge b ch :
  firstMatch v dflt rules challenge = (b, ch) → ch ≠ [] →
  (∀ r l, v r = MissingScopes l → l ≠ []) →
  b = dflt ∧ Forall (λ r, passed_over (v r) = true) rules ∧
  (ch = challenge ∨ ∃ r, r ∈ rules ∧ v r = MissingScopes ch) ∧
  (challenge ≠ [] → length ch ≤ length challenge) ∧ (∀ r l, r ∈ rules → v r = MissingScopes l → length ch ≤ length l).
Proof.
  intros H Hne Hl. revert challenge H. induction rules as [|r rules IH]; intros challenge; cbn [firstMatch].
  { intros [= -> ->]. repeat split; auto. by intros r l ?%elem_of_nil. }
  rewrite Forall_cons. setoid_rewrite elem_of_cons.
  destruct (v r) as [|l| |] eqn:Ev; [| |by intros [= <- <-]..]; intros H.
  - destruct (IH _ H) as (-> & Hp & Hin & Hle & Hmin). repeat split; auto; [destruct Hin as [?|(x & ? & ?)]; eauto|].
    intros x l [->|Hx] Hv; [congruence|eauto].
  - destruct (IH _ H) as (-> & Hp & Hin & Hle & Hmin). unfold smaller in *. pose proof (Hl _ _ Ev) as Hln.
    repeat split; auto.
    + destruct Hin as [->|(x & ? & ?)]; [|right; eauto]. destruct (_ || _); [right; eauto|by left].
    + intros Hc. rewrite bool_decide_false in Hle by done. rewrite orb_false_l in Hle. destruct (length l <? length challenge) eqn:E.
      * apply Nat.ltb_lt in E. specialize (Hle Hln). lia.
      * by apply Hle.
    + intros x l' [->|Hx] Hv; [|eauto]. rewrite Hv in Ev. injection Ev as ->.
      destruct (decide (challenge = [])) as [->|Hc]; [by apply Hle|].
      rewrite bool_decide_false in Hle by done. rewrite orb_false_l in Hle. destruct (length l <? length challenge) eqn:E.
      * by apply Hle.
      * apply Nat.ltb_ge in E. specialize (Hle Hc). lia.
Qed.

Lemma MissingScopes_inv claims scopes act backend tool r l :
  ruleVerdict claims scopes act backend tool r = MissingScopes l → l = ruleScopes r ∧ l ≠ [] ∧ allows r.
Proof.
  unfold ruleVerdict. destruct (_ || _); [done|]. destruct (bool_decide (allows r) && _) eqn:Ea.
  - intros [= <-]. apply andb_true_iff in Ea as [Ha%bool_decide_eq_true Hs]. split_and!; [done| |done].
    by intros Hn; rewrite Hn in Hs.
  - destruct (cr_celProgram r); [|done]. by destruct (evalRuleCEL _ _) as [[]|].
Qed.






(** The scopes of a challenge are worth asking for: they are those of an
    Allow rule for this target whose only obstacle was reached at the scopes, no
    such rule asks for fewer, and no rule denied the request. *)
Theorem challenge_is_smallest auth req b ch :
  authorizeRequest range (Some auth) req = (b, ch) → ch ≠ [] →
  Forall (λ r, passed_over (freshVerdict auth req r) = true) (ca_Rules auth) ∧
  (∃ r, r ∈ ca_Rules auth ∧ allows r ∧ ruleScopes r = ch ∧ freshVerdict auth req r = MissingScopes ch) ∧
  (∀ r l, r ∈ ca_Rules auth → freshVerdict auth req r = MissingScopes l → length ch ≤ length l).
Proof.
  rewrite authorizeRequest_firstMatch. intros H Hne.
  destruct (firstMatch_challenge _ _ _ _ _ _ H Hne) as (_ & Hp & [?|(r & Hr & Hv)] & _ & Hmin); [|done|].
  { by intros r l (_ & Hl & _)%MissingScopes_inv. }
  split_and!; [done| |done]. exists r. by destruct (MissingScopes_inv _ _ _ _ _ _ _ Hv) as (-> & _ & Ha).
Qed.

Lemma Split_nonempty s c : ∃ p ps, Split s c = p :: ps.
Proof. rewrite Split_unfold. destruct (cut_at c s) as [[a t]|]; eauto. Qed.

Lemma claims_need_token r claims : claims = [] → claimsSatisfied claims (ruleClaims r) = true → ruleClaims r = [].
Proof.
  intros -> H. destruct (ruleClaims r) as [|c l]; [done|]. cbn in H. unfold claimSatisfied, lookupClaim in H.
  destruct (Split_nonempty (cl_Name c) ".") as (p & ps & Hs). rewrite Hs in H. done.
Qed.

(** C24: a token Envoy has not verified grants nothing: on a route without JWT
    verification an allowed request was allowed by the default or by a rule that
    asks for no claim and no scope, and CEL conditions saw no claims. *)
Theorem unverified_token_grants_nothing auth req :
  ca_VerifiedJWT auth = false → (authorizeRequest range (Some auth) req).1 = true →
  (∃ r, r ∈ ca_Rules auth ∧ allows r ∧ ruleClaims r = [] ∧ ruleScopes r = [] ∧
     ∀ program, cr_celProgram r = Some program →
       evalRuleCEL program (buildCELActivation range req [] ∅) = Some true) ∨
  ca_DefaultAction auth = AuthorizationActionAllow.
Proof.
  intros Hv H. rewrite authorizeRequest_firstMatch, firstMatch_allowed, bool_decide_eq_true in H.
  destruct H as [(r & (pre & post & -> & _) & Hm & Ha)|[_ Hd]]; [left|by right]. exists r.
  split; [apply elem_of_app; right; left|]. split; [done|]. revert Hm.
  unfold freshVerdict, newAuthzContext. rewrite Hv. cbn. unfold ruleVerdict.
  destruct (_ || negb (claimsSatisfied [] _)) eqn:Ec; [done|].
  apply orb_false_iff in Ec as [_ Ec%negb_false_iff]. apply (claims_need_token r) in Ec; [|done].
  rewrite bool_decide_true by done. destruct (scopesSatisfied ∅ _) eqn:Es; [cbn|done]. intros Hm.
  split_and!; [done| |].
  - destruct (ruleScopes r) as [|sc l]; [done|]. cbn in Es. by rewrite bool_decide_false in Es.
  - intros program Hp. rewrite Hp in Hm. by destruct (evalRuleCEL _ _) as [[]|].
Qed.

(** ** Several targets of one request *)

(** Two checks of one HTTP request, for different targets. *)
Definition same_http (r1 r2 : authorizationRequest) : Prop :=
  rq_Headers r1 = rq_Headers r2 ∧ rq_HTTPMethod r1 = rq_HTTPMethod r2 ∧ rq_Host r1 = rq_Host r2 ∧ rq_HTTPPath r1 = rq_HTTPPath r2.

Lemma patched_activation r1 r2 claims scopes ac :
  same_http r1 r2 → ac_activation ac = Some (buildCELActivation range r1 claims scopes) →
  (activationFor range ac r2).2 = buildCELActivation range r2 claims scopes.
Proof.
  intros (Hh & Hm & Ho & Hp) Ha. unfold activationFor. rewrite Ha. cbn. unfold buildCELActivation.
  by rewrite Hh, Hm, Ho, Hp.
Qed.

(** A context that was made for the HTTP request of [req0] and used for any of
    its targets. *)
Definition shared_ok (auth : compiledAuthorization) (req0 : authorizationRequest) (ac : authzContext) : Prop :=
  let ac0 := newAuthzContext req0 (ca_VerifiedJWT auth) in
  ac_claims ac = ac_claims ac0 ∧ ac_scopes ac = ac_scopes ac0 ∧
  (ac_activation ac = None ∨ ∃ r1, same_http req0 r1 ∧
     ac_activation ac = Some (buildCELActivation range r1 (ac_claims ac0) (ac_scopes ac0))).

Lemma shared_new auth req0 : shared_ok auth req0 (newAuthzContext req0 (ca_VerifiedJWT auth)).
Proof.
  split_and!; [done..|]. left. unfold newAuthzContext. destruct (ca_VerifiedJWT auth); [cbn|done].
  destruct (bearerToken _); [|done..]. by destruct (ParseUnverified _) as [? []].
Qed.

(** Checking a target on a shared context decides it as a check of its own
    would: patching [request.mcp] in the cached activation leaks nothing from one
    target to the next. *)
Lemma shared_context_step auth req0 req ac :
  same_http req0 req → shared_ok auth req0 ac →
  (authorizeRequestWith range auth req ac).2 = authorizeRequest range (Some auth) req ∧
  shared_ok auth req0 (authorizeRequestWith range auth req ac).1.
Proof.
  intros Hreq (Hcl & Hsc & Hact).
  assert (cache_ok ac req) as Hc.
  { intros a Ha. rewrite Hcl, Hsc. destruct Hact as [Hn|(r1 & H1 & H2)]; [congruence|].
    eapply patched_activation; [|exact H2]. destruct Hreq as (?&?&?&?), H1 as (?&?&?&?). split_and!; congruence. }
  pose proof (authorizeRules_firstMatch req (bool_decide (ca_DefaultAction auth = AuthorizationActionAllow))
      (ca_Rules auth) [] None ac Hc (or_introl eq_refl)) as (Hr & Hcl' & Hsc' & Hact').
  rewrite authorizeRequest_firstMatch. unfold freshVerdict, authorizeRequestWith, shared_ok.
  replace (newAuthzContext req (ca_VerifiedJWT auth)) with (newAuthzContext req0 (ca_VerifiedJWT auth))
    by (unfold newAuthzContext; by destruct Hreq as (-> & _)).
  rewrite <-Hcl, <-Hsc. split_and!; [done..|].
  destruct Hact' as [Ha'|Ha']; rewrite Ha'.
  - by rewrite Hcl, Hsc.
  - right. by exists req.
Qed.
End Decision.

(** ** Concrete requests *)

Module Sample.
#[export] Instance lib : AuthzLib := {
  Params := string;
  CelAst := string;
  CelProgram := string;
  ParseUnverified token :=
    if bool_decide (token = "ann") then
      ([("sub", VString "ann"); ("org", VObject [("team", VArray [VString "core"])]); ("scope", VString "tools.read")], None)
    else ([], Some (errors_New "token is malformed"));
  MarshalParams p := Some p;
  UnmarshalMap _ := Some [];
}.

(** The program [p] holds for the backend [p]; the program [boom] fails. *)
#[export] Instance cel : AuthzCel := {
  cel_NewEnv := None;
  env_Compile e := Ok e;
  env_Program a := Ok a;
  program_Eval p act :=
    if bool_decide (p = "boom") then None else Some (CelBool (bool_decide (p = ma_backend (act_mcp act))));
}.

Definition team : JWTClaim := {| cl_Name := "org.team"; cl_ValueType := "StringArray"; cl_Values := ["core"] |}.
Definition source (claims : list JWTClaim) (scopes : list string) : option MCPAuthorizationSource :=
  Some {| as_JWT := {| js_Scopes := scopes; js_Claims := claims |} |}.
Definition rule (action : string) (src : option MCPAuthorizationSource) (program : option string) : compiledAuthorizationRule :=
  {| cr_Source := src; cr_Target := []; cr_Action := action; cr_celExpression := default "" program; cr_celProgram := program |}.
Definition auth (verified : bool) (rules : list compiledAuthorizationRule) : compiledAuthorization :=
  {| ca_ResourceMetadataURL := ""; ca_Rules := rules; ca_DefaultAction := "Deny"; ca_VerifiedJWT := verified |}.
Definition req (backend : string) : authorizationRequest :=
  {| rq_Headers := {["Authorization" := ["Bearer ann"]]}; rq_HTTPMethod := "POST"; rq_Host := ""; rq_HTTPPath := "/mcp";
     rq_MCPMethod := "tools/call"; rq_Backend := backend; rq_Tool := "issue"; rq_Params := None |}.

(** The team of the token is found under its dotted path; the scope is missing. *)
Definition needWrite : compiledAuthorization :=
  auth true [rule "Allow" (source [] ["tools.read"; "tools.write"]) None; rule "Allow" (source [team] ["tools.write"]) None].

Lemma challenge_is_smallest_witness :
  ∃ r, r ∈ ca_Rules needWrite ∧ ruleScopes r = ["tools.write"].
Proof.
  destruct (challenge_is_smallest map_to_list needWrite (req "github") false ["tools.write"]) as (_ & (r & Hr & _ & Hs & _) & _).
  - vm_compute. reflexivity.
  - discriminate.
  - exists r. auto.
Defined.

(** Two rules for the same token, verified and not. *)
Lemma unverified_token_grants_nothing_witness :
  let rules := [rule "Allow" (source [team] ["tools.read"]) None; rule "Allow" None (Some "github")] in
  authorizeRequest map_to_list (Some (auth true rules)) (req "slack") = (true, []) ∧
  authorizeRequest map_to_list (Some (auth false rules)) (req "slack") = (false, []) ∧
  ((∃ r, r ∈ rules ∧ allows r ∧ ruleClaims r = [] ∧ ruleScopes r = []) ∨ "Deny" = AuthorizationActionAllow).
Proof.
  split; [vm_compute; reflexivity|]. split; [vm_compute; reflexivity|].
  set (rules := [rule "Allow" (source [team] ["tools.read"]) None; rule "Allow" None (Some "github")]).
  destruct (unverified_token_grants_nothing map_to_list (auth false rules) (req "github")) as [(r & H1 & H2 & H3 & H4 & _)|H];
    [reflexivity|vm_compute; reflexivity|left; by exists r|by right].
Defined.

(** The scopes of a Deny rule are not looked at: it denies callers without them too. *)
Lemma deny_rule_ignores_scopes :
  authorizeRequest map_to_list (Some (auth true [rule "Deny" (source [] ["admin"]) None; rule "Allow" None None])) (req "github")
    = (false, []).
Proof. vm_compute. reflexivity. Qed.

(** A rule whose condition cannot be evaluated denies, also before an Allow rule. *)
Lemma evaluation_error_denies :
  authorizeRequest map_to_list (Some (auth true [rule "Allow" None (Some "boom"); rule "Allow" None None])) (req "github")
    = (false, []).
Proof. vm_compute. reflexivity. Qed.
End Sample.
