(* ===== verification/McpCrypto.v ===== *)
(** * Encryption of MCP session ids

    Models [internal/mcpproxy/crypto.go]: a text is sealed with a key derived
    from the configured seed and a random salt, and travels as base64 of salt,
    nonce and ciphertext.  The random bytes are arguments of [Encrypt]; the text
    of a base64 error is an argument too. *)

From Stdlib Require Import ZArith Lia.
From stdpp Require Import base strings list.
From S2P Require Import Prelude GoStrings Crypto.

Record pbkdf2AesGcm := {
  pg_seed : string;
  pg_saltSize : nat;
  pg_keyLength : nat;
  pg_iterations : Z;
}.

Definition NewPBKDF2AesGcmSessionCrypto (seed : string) (iterations : Z) : pbkdf2AesGcm :=
  {| pg_seed := seed; pg_saltSize := 16; pg_keyLength := 32; pg_iterations := iterations |}.

#[local] Set Warnings "-register-all".

(** The implementations of [SessionCrypto]; a nil fallback is [None]. *)
Inductive SessionCrypto :=
| PBKDF2AesGcm (p : pbkdf2AesGcm)
| FallbackEnabledSessionCrypto (Primary : SessionCrypto) (Fallback : option SessionCrypto).

Section Crypto.
Context `{CR : !Crypto}.
(** [base64.CorruptInputError] for a text that is not base64. *)
Context (corruptInput : string → error).

Definition deriveSessionKey (p : pbkdf2AesGcm) (salt : string) : outcome string :=
  pbkdf2_Key (pg_seed p) salt (pg_iterations p) (pg_keyLength p).

(** [readNonce n] is what [io.ReadFull(rand.Reader, nonce)] leaves in a buffer of [n] bytes. *)
Definition encryptAESGCM (readNonce : nat → outcome string) (key salt plaintext : string) : outcome string :=
  let! block := aes_NewCipher key in
  let! gcm := cipher_NewGCM block in
  let! nonce := readNonce (aead_NonceSize gcm) in
  Ok (salt +:+ nonce +:+ aead_Seal gcm nonce plaintext).

Definition decryptAESGCM (key salt ciphertext : string) : outcome string :=
  let! block := aes_NewCipher key in
  let! gcm := cipher_NewGCM block in
  let saltSize := String.length salt in
  let nonceSize := aead_NonceSize gcm in
  if bool_decide (String.length ciphertext < saltSize + nonceSize) then Fail (errors_New "ciphertext too short")
  else
    let nonce := str_take nonceSize (str_drop saltSize ciphertext) in
    let ct := str_drop (saltSize + nonceSize) ciphertext in
    aead_Open gcm nonce ct.

Definition pbkdf2_Encrypt (rand : nat → nat → outcome string) (p : pbkdf2AesGcm) (plaintext : string) : outcome string :=
  let! salt := rand 0 (pg_saltSize p) in
  let! key := deriveSessionKey p salt in
  let! ciphertext := encryptAESGCM (rand 1) key salt plaintext in
  Ok (EncodeToString StdEncoding ciphertext).

Definition pbkdf2_Decrypt (p : pbkdf2AesGcm) (encrypted : string) : outcome string :=
  match DecodeString StdEncoding encrypted with
  | None => Fail (corruptInput encrypted)
  | Some data =>
      if bool_decide (String.length data < pg_saltSize p) then Fail (errors_New "data too short")
      else
        let salt := str_take (pg_saltSize p) data in
        let! key := deriveSessionKey p salt in
        decryptAESGCM key salt data
  end.

(** [rand i n]: the [i]-th read of the call, of [n] bytes. *)
Fixpoint Encrypt (rand : nat → nat → outcome string) (c : SessionCrypto) (plaintext : string) : outcome string :=
  match c with
  | PBKDF2AesGcm p => pbkdf2_Encrypt rand p plaintext
  | FallbackEnabledSessionCrypto Primary _ => Encrypt rand Primary plaintext
  end.

Fixpoint Decrypt (c : SessionCrypto) (encrypted : string) : outcome string :=
  match c with
  | PBKDF2AesGcm p => pbkdf2_Decrypt p encrypted
  | FallbackEnabledSessionCrypto Primary Fallback =>
      match Decrypt Primary encrypted with
      | Fail err => match Fallback with Some f => Decrypt f encrypted | None => Fail err end
      | r => r
      end
  end.
End Crypto.

(** ** Properties *)

Section Props.
Context `{CR : !Crypto} `{CL : !CryptoLaws CR} (corruptInput : string → error).

(** [io.ReadFull] fills the buffer. *)
Definition fills (rand : nat → nat → outcome string) : Prop := ∀ i n s, rand i n = Ok s → String.length s = n.

Lemma decrypt_encrypt_gcm readNonce key salt plaintext c :
  (∀ n s, readNonce n = Ok s → String.length s = n) →
  encryptAESGCM readNonce key salt plaintext = Ok c → decryptAESGCM key salt c = Ok plaintext.
Proof.
  intros Hr. unfold encryptAESGCM, decryptAESGCM.
  intros (block & Hb & (gcm & Hg & (nonce & Hn & [= <-])%obind_ok_inv)%obind_ok_inv)%obind_ok_inv.
  rewrite Hb. simpl. rewrite Hg. simpl.
  apply Hr in Hn. rewrite bool_decide_false by (rewrite !slength_app; lia).
  rewrite str_drop_app, (str_take_app' _ nonce) by done.
  rewrite <-str_drop_drop, str_drop_app, (str_drop_app' _ nonce) by done. by apply aead_open_seal.
Qed.

Lemma pbkdf2_roundtrip rand p plaintext c :
  fills rand → pbkdf2_Encrypt rand p plaintext = Ok c → pbkdf2_Decrypt corruptInput p c = Ok plaintext.
Proof.
  intros Hr (salt & Hs & (key & Hk & (ct & He & [= <-])%obind_ok_inv)%obind_ok_inv)%obind_ok_inv.
  unfold pbkdf2_Decrypt. rewrite (base64_roundtrip _ StdEncoding_ok).
  assert (∃ t, ct = salt +:+ t) as [t Ht].
  { revert He. unfold encryptAESGCM.
    intros (? & _ & (? & _ & (? & _ & [= <-])%obind_ok_inv)%obind_ok_inv)%obind_ok_inv. eauto. }
  apply Hr in Hs as Hlen. rewrite bool_decide_false by (rewrite Ht, slength_app; lia).
  replace (str_take (pg_saltSize p) ct) with salt by (rewrite Ht; symmetry; by apply str_take_app').
  rewrite Hk. simpl. by eapply decrypt_encrypt_gcm; [intros n s; apply (Hr 1 n s)|].
Qed.

(** The keys a crypto tries, in order. *)
Fixpoint keys_of (c : SessionCrypto) : list pbkdf2AesGcm :=
  match c with
  | PBKDF2AesGcm p => [p]
  | FallbackEnabledSessionCrypto P F => keys_of P ++ match F with Some f => keys_of f | None => [] end
  end.

Lemma Encrypt_primary rand c plaintext :
  ∃ p ps, keys_of c = p :: ps ∧ Encrypt rand c plaintext = pbkdf2_Encrypt rand p plaintext.
Proof.
  induction c as [p|P IH F]; [by exists p, []|]. destruct IH as (p & ps & Hp & He). simpl. rewrite Hp. eauto.
Qed.

Lemma Decrypt_own rand c plaintext enc :
  fills rand → Encrypt rand c plaintext = Ok enc → Decrypt corruptInput c enc = Ok plaintext.
Proof.
  intros Hr. induction c as [p|P IH F]; simpl; [by apply pbkdf2_roundtrip|]. intros He. by rewrite IH.
Qed.

Lemma Decrypt_primary p c enc plaintext :
  head (keys_of c) = Some p → pbkdf2_Decrypt corruptInput p enc = Ok plaintext → Decrypt corruptInput c enc = Ok plaintext.
Proof.
  induction c as [q|P IH F]; simpl; [by intros [= ->]|]. intros Hp Hd. rewrite IH; [done| |done].
  destruct (Encrypt_primary (λ _ n, Fail (errors_New "")) P "") as (q & ps & Hq & _). by rewrite Hq in *.
Qed.

(** The cryptos that accept what [c] issued: those with the same primary key, and
    after a rotation one that has this key as its fallback, unless its new key
    also opens the text. *)
Definition accepts (c' c : SessionCrypto) (enc : string) : Prop :=
  head (keys_of c') = head (keys_of c) ∨
  ∃ new p, head (keys_of c) = Some p ∧ c' = FallbackEnabledSessionCrypto new (Some (PBKDF2AesGcm p)) ∧
    is_fail (Decrypt corruptInput new enc) = true.

Lemma Decrypt_accepts rand c c' plaintext enc :
  fills rand → Encrypt rand c plaintext = Ok enc → accepts c' c enc →
  Decrypt corruptInput c' enc = Ok plaintext.
Proof.
  intros Hr He Ha. destruct (Encrypt_primary rand c plaintext) as (p & ps & Hp & Hep). rewrite Hep in He.
  apply (pbkdf2_roundtrip _ _ _ _ Hr) in He. destruct Ha as [Hh|(new & q & Hq & -> & Hn)].
  - eapply Decrypt_primary; [|done]. by rewrite Hh, Hp.
  - rewrite Hp in Hq. injection Hq as <-. simpl. by destruct (Decrypt corruptInput new enc).
Qed.

(** A text that one key decrypts to [plaintext] carries its sealing. *)
Definition sealed_under (p : pbkdf2AesGcm) (enc plaintext : string) : Prop :=
  ∃ salt nonce key block gcm,
    deriveSessionKey p salt = Ok key ∧ aes_NewCipher key = Ok block ∧ cipher_NewGCM block = Ok gcm ∧
    String.length salt = pg_saltSize p ∧ String.length nonce = aead_NonceSize gcm ∧
    DecodeString StdEncoding enc = Some (salt +:+ nonce +:+ aead_Seal gcm nonce plaintext).

Lemma pbkdf2_Decrypt_sound p enc plaintext :
  pbkdf2_Decrypt corruptInput p enc = Ok plaintext → sealed_under p enc plaintext.
Proof.
  unfold pbkdf2_Decrypt. destruct (DecodeString _ enc) as [data|] eqn:Ed; [|done].
  case_bool_decide as Hl; [done|]. intros (key & Hk & H)%obind_ok_inv. revert H. unfold decryptAESGCM.
  intros (block & Hb & (gcm & Hg & H)%obind_ok_inv)%obind_ok_inv.
  case_bool_decide as Hc; [done|]. apply aead_seal_open in H.
  assert (String.length (str_take (pg_saltSize p) data) = pg_saltSize p) as Hs by (rewrite slength_take; lia).
  rewrite Hs in *.
  exists (str_take (pg_saltSize p) data), (str_take (aead_NonceSize gcm) (str_drop (pg_saltSize p) data)), key, block, gcm.
  repeat split; try done.
  - rewrite slength_take, slength_drop. lia.
  - rewrite Ed, <-H, <-str_drop_drop. by rewrite !str_take_drop.
Qed.

(** What a session id decrypts to was sealed with one of the configured
    keys: whatever text a client presents, an accepted one carries a salt, a
    nonce and the sealing of the returned text under the key that seed and
    salt give. *)
Lemma Decrypt_authentic c enc plaintext :
  Decrypt corruptInput c enc = Ok plaintext → ∃ p, p ∈ keys_of c ∧ sealed_under p enc plaintext.
Proof.
  revert c. fix IH 1. intros [p|P [F|]]; simpl.
  - intros H. exists p. split; [by left|]. by apply pbkdf2_Decrypt_sound.
  - destruct (Decrypt corruptInput P enc) eqn:E; [|intros H|done].
    + intros [= ->]. destruct (IH P E) as (q & Hq & Hs). exists q. split; [|done]. apply elem_of_app. by left.
    + destruct (IH F H) as (q & Hq & Hs). exists q. split; [|done]. apply elem_of_app. by right.
  - destruct (Decrypt corruptInput P enc) eqn:E; [|done..].
    intros [= ->]. destruct (IH P E) as (q & Hq & Hs). exists q. split; [|done]. rewrite app_nil_r. done.
Qed.
End Props.

(** ** Concrete runs *)

Module Sample.
Import Toy.

Definition err (s : string) : error := errors_New ("illegal base64 data at input byte " +:+ s).
Definition rand (i n : nat) : outcome string := Ok (bytes_of (replicate n (65 + i))).
Definition old : SessionCrypto := PBKDF2AesGcm (NewPBKDF2AesGcmSessionCrypto "old-seed" 1000).
Definition new : SessionCrypto := PBKDF2AesGcm (NewPBKDF2AesGcmSessionCrypto "new-seed" 1000).
Definition enc : string := match Encrypt rand old "session" with Ok s => s | _ => "" end.

Lemma rand_fills : fills rand.
Proof.
  intros i n s [= <-]. induction n as [|n IH]; [done|]. cbn [replicate bytes_of foldr String.length].
  f_equal. exact IH.
Qed.

Lemma rotated_accepts : accepts err (FallbackEnabledSessionCrypto new (Some old)) old enc.
Proof. right. eexists new, _. split_and!; [reflexivity..|]. vm_compute. reflexivity. Qed.
End Sample.
