(* ===== verification/McpConfig.v ===== *)
(** * MCP proxy configuration

    Models [internal/mcpproxy/config.go] and the data types of
    [internal/filterapi/mcpconfig.go]: the routes built from a configuration with
    their tool and prompt selectors and the indexes of bare names, the comparison
    of two configurations, [LoadConfig] with its signal to the watching sessions,
    and the choice of the session crypto.  Regular expressions are a class with
    the documented behaviour of [regexp]; logging is left out. *)

From Stdlib Require Import Ascii ZArith Lia.
From stdpp Require Import base gmap strings list sorting.
From S2P Require Import Prelude GoStrings GoHttp McpAuthz Crypto McpCrypto.

(** ** Configuration data *)

Definition PrefixModeAlways : string := "Always".
Definition PrefixModeNever : string := "Never".

Record MCPHeaderForward := { hf_Name : string; hf_BackendHeader : string }.

Definition ForwardName (h : MCPHeaderForward) : string :=
  if bool_decide (hf_BackendHeader h ≠ "") then hf_BackendHeader h else hf_Name h.

Record MCPToolSelector := {
  tsel_Include : list string;
  tsel_IncludeRegex : list string;
  tsel_Exclude : list string;
  tsel_ExcludeRegex : list string;
}.

Record MCPPromptSelector := {
  psel_Include : list string;
  psel_IncludeRegex : list string;
  psel_Exclude : list string;
  psel_ExcludeRegex : list string;
}.

Record MCPBackend := {
  mb_Name : string;
  mb_ToolSelector : option MCPToolSelector;
  mb_PromptSelector : option MCPPromptSelector;
  mb_ForwardHeaders : list MCPHeaderForward;
  mb_PrefixMode : string;
}.

Record MCPRoute := {
  mr_Name : string;
  mr_Backends : list MCPBackend;
  mr_Authorization : option MCPRouteAuthorization;
  mr_BackendSelector : option MCPRouteAuthorization;
  mr_ForwardHeaders : list string;
  mr_PrefixMode : string;
}.

Record MCPSessionEncryption := {
  se_Seed : string;
  se_Iterations : Z;
  se_FallbackSeed : string;
  se_FallbackIterations : Z;
}.

Record MCPConfig := {
  mc_BackendListenerAddr : string;
  mc_Routes : list MCPRoute;
  mc_SessionEncryption : option MCPSessionEncryption;
}.

(** ** Selectors *)

(** [regexp.Regexp]: [String] returns the source text it was compiled from. *)
Class Regexps := {
  Regexp : Type;
  regexp_Compile : string → outcome Regexp;
  MatchString : Regexp → string → bool;
  regexp_String : Regexp → string;
}.

Class RegexpLaws (RX : Regexps) : Prop := {
  regexp_String_Compile e r : regexp_Compile e = Ok r → regexp_String r = e;
}.

Section Selectors.
Context `{RX : !Regexps}.

Record toolSelector := {
  ts_include : gset string;
  ts_includeRegexps : list Regexp;
  ts_exclude : gset string;
  ts_excludeRegexps : list Regexp;
}.

Definition compileRegexps (exprs : list string) (kind backendName routeName : string) : outcome (list Regexp) :=
  ofold (λ regexps expr,
    let! re := owrap ("failed to compile " +:+ kind +:+ " regex " +:+ Quote expr +:+ " for backend " +:+ Quote backendName +:+
                      " in route " +:+ Quote routeName +:+ ": ") (regexp_Compile expr) in
    Ok (regexps ++ [re])) [] exprs.

Definition buildSelector (include includeRegex exclude excludeRegex : list string)
    (includeKind excludeKind backendName routeName : string) : outcome toolSelector :=
  let! includeRegexps := compileRegexps includeRegex includeKind backendName routeName in
  let! excludeRegexps := compileRegexps excludeRegex excludeKind backendName routeName in
  Ok {| ts_include := list_to_set include; ts_includeRegexps := includeRegexps;
        ts_exclude := list_to_set exclude; ts_excludeRegexps := excludeRegexps |}.

(** [sortRegexpAsString]. *)
Definition regexp_le (a b : Regexp) : Prop := string_leb (regexp_String a) (regexp_String b).
#[global] Instance regexp_le_dec a b : Decision (regexp_le a b).
Proof. unfold regexp_le. apply _. Defined.

Definition sameRegexps (l1 l2 : list Regexp) : bool :=
  EqualFunc (λ a b, bool_decide (regexp_String a = regexp_String b)) (merge_sort regexp_le l1) (merge_sort regexp_le l2).

Definition selector_sameTools (t other : toolSelector) : bool :=
  if bool_decide (ts_include t ≠ ts_include other) then false
  else if bool_decide (ts_exclude t ≠ ts_exclude other) then false
  else if negb (sameRegexps (ts_includeRegexps t) (ts_includeRegexps other)) then false
  else sameRegexps (ts_excludeRegexps t) (ts_excludeRegexps other).

(** A lookup in an empty set finds nothing, so the length checks before the two
    exclusions make no difference. *)
Definition selector_allows (t : toolSelector) (tool : string) : bool :=
  if bool_decide (tool ∈ ts_exclude t) then false
  else if existsb (λ re, MatchString re tool) (ts_excludeRegexps t) then false
  else if bool_decide (ts_include t ≠ ∅) then bool_decide (tool ∈ ts_include t)
  else match ts_includeRegexps t with
       | [] => true
       | res => existsb (λ re, MatchString re tool) res
       end.
End Selectors.

(** ** Routes *)

Section Routes.
Context `{L : !AuthzLib} `{CE : !AuthzCel} `{RX : !Regexps}.

Record mcpProxyConfigRoute := {
  rt_backends : gmap string MCPBackend;
  rt_toolSelectors : gmap string toolSelector;
  rt_promptSelectors : gmap string toolSelector;
  rt_authorization : option compiledAuthorization;
  rt_backendSelector : option compiledAuthorization;
  rt_forwardHeaders : list string;
  rt_routePrefixMode : string;
  rt_neverModeToolIndex : gmap string string;
  rt_neverModePromptIndex : gmap string string;
}.

Record mcpProxyConfig := {
  cf_backendListenerAddr : string;
  cf_routes : gmap string mcpProxyConfigRoute;
  cf_sessionCrypto : option SessionCrypto;
}.

Definition prefixModeOf (backends : gmap string MCPBackend) (routePrefixMode backendName : string) : string :=
  match backends !! backendName with
  | Some backend => if bool_decide (mb_PrefixMode backend ≠ "") then mb_PrefixMode backend else routePrefixMode
  | None => routePrefixMode
  end.

Definition effectivePrefixMode (m : mcpProxyConfigRoute) (backendName : string) : string :=
  prefixModeOf (rt_backends m) (rt_routePrefixMode m) backendName.

(** [maps.EqualFunc]. *)
Definition maps_EqualFunc {V} (f : V → V → bool) (m1 m2 : gmap string V) : bool :=
  bool_decide (size m1 = size m2) &&
  forallb (λ p, match m2 !! p.1 with Some v2 => f p.2 v2 | None => false end) (map_to_list m1).

Definition equalKeys {V} (m1 m2 : gmap string V) : bool := maps_EqualFunc (λ _ _, true) m1 m2.

Definition route_sameTools (m other : mcpProxyConfigRoute) : bool :=
  if negb (equalKeys (rt_backends m) (rt_backends other)) then false
  else if negb (authorization_same (rt_authorization m) (rt_authorization other)) then false
  else if bool_decide (rt_neverModeToolIndex m ≠ rt_neverModeToolIndex other) then false
  else if bool_decide (rt_neverModePromptIndex m ≠ rt_neverModePromptIndex other) then false
  else if negb (maps_EqualFunc selector_sameTools (rt_promptSelectors m) (rt_promptSelectors other)) then false
  else maps_EqualFunc selector_sameTools (rt_toolSelectors m) (rt_toolSelectors other).

Definition config_sameTools (m other : option mcpProxyConfig) : bool :=
  match m, other with
  | None, None => true
  | Some m, Some other => maps_EqualFunc route_sameTools (cf_routes m) (cf_routes other)
  | _, _ => false
  end.

(** *** Building a route *)

(** One turn of the first loop over the backends. *)
Definition addBackend (routeName : string)
    (acc : gmap string MCPBackend * gmap string toolSelector * gmap string toolSelector) (backend : MCPBackend) :
    outcome (gmap string MCPBackend * gmap string toolSelector * gmap string toolSelector) :=
  let '(backends, toolSelectors, promptSelectors) := acc in
  let backends := <[mb_Name backend := backend]> backends in
  let! toolSelectors :=
    match mb_ToolSelector backend with
    | Some s =>
        let! ts := buildSelector (tsel_Include s) (tsel_IncludeRegex s) (tsel_Exclude s) (tsel_ExcludeRegex s)
                     "include" "exclude" (mb_Name backend) routeName in
        Ok (<[mb_Name backend := ts]> toolSelectors)
    | None => Ok toolSelectors
    end in
  let! promptSelectors :=
    match mb_PromptSelector backend with
    | Some s =>
        let! ps := buildSelector (psel_Include s) (psel_IncludeRegex s) (psel_Exclude s) (psel_ExcludeRegex s)
                     "prompt include" "prompt exclude" (mb_Name backend) routeName in
        Ok (<[mb_Name backend := ps]> promptSelectors)
    | None => Ok promptSelectors
    end in
  Ok (backends, toolSelectors, promptSelectors).

(** [visit] is the order in which a set of names is ranged over. *)
Context (visit : gset string → list string).

(** [for name := range ts.include]: a name already claimed keeps its first owner. *)
Definition claimNames (backendName : string) (selector : option toolSelector) (index : gmap string string) :
    gmap string string :=
  match selector with
  | None => index
  | Some ts =>
      foldl (λ index name,
        if negb (selector_allows ts name) then index
        else match index !! name with
             | Some _ => index
             | None => <[name := backendName]> index
             end) index (visit (ts_include ts))
  end.

(** One turn of the loop that builds the two indexes. *)
Definition indexBackend (backends : gmap string MCPBackend) (routePrefixMode : string)
    (toolSelectors promptSelectors : gmap string toolSelector)
    (acc : gmap string string * gmap string string) (backend : MCPBackend) : gmap string string * gmap string string :=
  if bool_decide (prefixModeOf backends routePrefixMode (mb_Name backend) ≠ PrefixModeNever) then acc
  else (claimNames (mb_Name backend) (toolSelectors !! mb_Name backend) acc.1,
        claimNames (mb_Name backend) (promptSelectors !! mb_Name backend) acc.2).

Definition buildRoute (route : MCPRoute) : outcome mcpProxyConfigRoute :=
  let! compiledAuth := owrap ("failed to compile authorization rules for route " +:+ mr_Name route +:+ ": ")
                         (compileAuthorization (mr_Authorization route)) in
  let! compiledBackendSel := owrap ("failed to compile backend selector rules for route " +:+ mr_Name route +:+ ": ")
                               (compileAuthorization (mr_BackendSelector route)) in
  let! built := ofold (addBackend (mr_Name route)) (∅, ∅, ∅) (mr_Backends route) in
  let '(backends, toolSelectors, promptSelectors) := built in
  let indexes := foldl (indexBackend backends (mr_PrefixMode route) toolSelectors promptSelectors) (∅, ∅) (mr_Backends route) in
  Ok {| rt_backends := backends; rt_toolSelectors := toolSelectors; rt_promptSelectors := promptSelectors;
        rt_authorization := compiledAuth; rt_backendSelector := compiledBackendSel;
        rt_forwardHeaders := mr_ForwardHeaders route; rt_routePrefixMode := mr_PrefixMode route;
        rt_neverModeToolIndex := indexes.1; rt_neverModePromptIndex := indexes.2 |}.

(** ** The signaler *)

(** The channels made so far are numbered; all but the current one are closed. *)
Record multiWatcherSignaler := { sg_notify : nat }.
Definition newMultiWatcherSignaler : multiWatcherSignaler := {| sg_notify := 0 |}.
Definition Watch (m : multiWatcherSignaler) : nat := sg_notify m.
Definition Signal (m : multiWatcherSignaler) : multiWatcherSignaler := {| sg_notify := S (sg_notify m) |}.
Definition closed (m : multiWatcherSignaler) (channel : nat) : bool := channel <? sg_notify m.

(** ** Loading a configuration *)

Definition sessionCryptoFromConfig (c : option MCPSessionEncryption) : option SessionCrypto :=
  match c with
  | None => None
  | Some c =>
      let sessionCrypto := PBKDF2AesGcm (NewPBKDF2AesGcmSessionCrypto (se_Seed c) (se_Iterations c)) in
      Some (if bool_decide (se_FallbackSeed c ≠ "") then
              FallbackEnabledSessionCrypto sessionCrypto
                (Some (PBKDF2AesGcm (NewPBKDF2AesGcmSessionCrypto (se_FallbackSeed c) (se_FallbackIterations c))))
            else sessionCrypto)
  end.

(** The fields of [ProxyConfig] a reload touches, and the crypto of start-up. *)
Record ProxyConfig := {
  px_config : option mcpProxyConfig;
  px_toolChangeSignaler : multiWatcherSignaler;
  px_sessionCrypto : option SessionCrypto;
}.

Definition currentSessionCrypto (p : ProxyConfig) : option SessionCrypto :=
  match px_config p with
  | Some c => match cf_sessionCrypto c with Some s => Some s | None => px_sessionCrypto p end
  | None => px_sessionCrypto p
  end.

(** The configuration that a load builds. *)
Definition buildConfig (mcpConfig : MCPConfig) : outcome mcpProxyConfig :=
  let! routes := ofold (λ routes route, let! r := buildRoute route in Ok (<[mr_Name route := r]> routes)) ∅ (mc_Routes mcpConfig) in
  Ok {| cf_backendListenerAddr := mc_BackendListenerAddr mcpConfig; cf_routes := routes;
        cf_sessionCrypto := sessionCryptoFromConfig (mc_SessionEncryption mcpConfig) |}.

(** [LoadConfig] on the MCP section of the filter configuration. *)
Definition LoadConfig (p : ProxyConfig) (config : option MCPConfig) : ProxyConfig * outcome unit :=
  match config with
  | None => (p, Ok tt)
  | Some mcpConfig =>
      match buildConfig mcpConfig with
      | Ok newConfig =>
          let toolsChanged := negb (config_sameTools (px_config p) (Some newConfig)) in
          ({| px_config := Some newConfig;
              px_toolChangeSignaler := if toolsChanged then Signal (px_toolChangeSignaler p) else px_toolChangeSignaler p;
              px_sessionCrypto := px_sessionCrypto p |}, Ok tt)
      | Fail e => (p, Fail e)
      | Panic s => (p, Panic s)
      end
  end.
End Routes.

(** ** Properties of the indexes *)

Section IndexProps.
Context `{L : !AuthzLib} `{CE : !AuthzCel} `{RX : !Regexps}.
Context (visit : gset string → list string) (Hvisit : ∀ s, visit s ≡ₚ elements s).

(** A backend claims the names its selector includes and allows. *)
Definition claims (selector : option toolSelector) (name : string) : bool :=
  match selector with
  | None => false
  | Some ts => bool_decide (name ∈ ts_include ts) && selector_allows ts name
  end.

Lemma claimNames_lookup backendName selector index name :
  claimNames visit backendName selector index !! name =
    match index !! name with
    | Some owner => Some owner
    | None => if claims selector name then Some backendName else None
    end.
Proof using Hvisit.
  destruct selector as [ts|]; cbn; [|by destruct (index !! name)].
  assert (bool_decide (name ∈ ts_include ts) = bool_decide (name ∈ visit (ts_include ts))) as ->.
  { apply bool_decide_ext. rewrite (Hvisit (ts_include ts)). symmetry. apply elem_of_elements. }
  generalize (visit (ts_include ts)) as l. intros l. revert index.
  induction l as [|n l IH]; intros index.
  { rewrite (bool_decide_false (name ∈ [])) by apply not_elem_of_nil. cbn. by destruct (index !! name). }
  cbn [foldl]. rewrite IH.
  rewrite (bool_decide_ext (name ∈ n :: l) (name = n ∨ name ∈ l)) by apply elem_of_cons.
  destruct (selector_allows ts n) eqn:Ea; cbn [negb].
  - destruct (decide (name = n)) as [->|Hn].
    + rewrite (bool_decide_true (n = n ∨ _)), Ea by auto. destruct (index !! n) eqn:Ei; [by rewrite Ei|].
      by rewrite lookup_insert_eq.
    + rewrite (bool_decide_ext (name = n ∨ name ∈ l) (name ∈ l)) by tauto.
      destruct (index !! n) eqn:Ei; [done|]. by rewrite lookup_insert_ne.
  - destruct (decide (name = n)) as [->|Hn]; [rewrite Ea, !andb_false_r; done|].
    by rewrite (bool_decide_ext (name = n ∨ name ∈ l) (name ∈ l)) by tauto.
Qed.

Definition claimant (backends : gmap string MCPBackend) (mode : string) (selectors : gmap string toolSelector)
    (name : string) (b : MCPBackend) : option string :=
  if bool_decide (prefixModeOf backends mode (mb_Name b) = PrefixModeNever) && claims (selectors !! mb_Name b) name
  then Some (mb_Name b) else None.

Lemma head_omap_cons {A B} (f : A → option B) x l :
  head (omap f (x :: l)) = match f x with Some y => Some y | None => head (omap f l) end.
Proof. cbn. by destruct (f x). Qed.

Lemma indexBackend_lookup backends mode tsel psel acc l name :
  (foldl (indexBackend visit backends mode tsel psel) acc l).1 !! name =
    match acc.1 !! name with
    | Some owner => Some owner
    | None => head (omap (claimant backends mode tsel name) l)
    end ∧
  (foldl (indexBackend visit backends mode tsel psel) acc l).2 !! name =
    match acc.2 !! name with
    | Some owner => Some owner
    | None => head (omap (claimant backends mode psel name) l)
    end.
Proof using Hvisit.
  revert acc. induction l as [|b l IH]; intros acc; [split; cbn; case_match; done|].
  cbn [foldl]. destruct (IH (indexBackend visit backends mode tsel psel acc b)) as [-> ->].
  rewrite !head_omap_cons. unfold indexBackend.
  assert (∀ sel, claimant backends mode sel name b =
    if bool_decide (prefixModeOf backends mode (mb_Name b) = PrefixModeNever) && claims (sel !! mb_Name b) name
    then Some (mb_Name b) else None) as Hcl by done. rewrite !Hcl.
  destruct (decide (prefixModeOf backends mode (mb_Name b) = PrefixModeNever)) as [Hm|Hm].
  - rewrite (bool_decide_false (¬ _)), !(bool_decide_true (_ = _)) by auto. cbn [fst snd andb].
    rewrite !claimNames_lookup. split.
    + destruct (acc.1 !! name); [done|]. by destruct (claims (tsel !! _) name).
    + destruct (acc.2 !! name); [done|]. by destruct (claims (psel !! _) name).
  - by rewrite (bool_decide_true (¬ _)), !(bool_decide_false (_ = _)) by auto.
Qed.

Lemma buildRoute_inv route r :
  buildRoute visit route = Ok r →
  compileAuthorization (mr_Authorization route) = Ok (rt_authorization r) ∧
  compileAuthorization (mr_BackendSelector route) = Ok (rt_backendSelector r) ∧
  ofold (addBackend (mr_Name route)) (∅, ∅, ∅) (mr_Backends route) =
    Ok (rt_backends r, rt_toolSelectors r, rt_promptSelectors r) ∧
  rt_routePrefixMode r = mr_PrefixMode route ∧ rt_forwardHeaders r = mr_ForwardHeaders route ∧
  (∀ name, rt_neverModeToolIndex r !! name =
     head (omap (claimant (rt_backends r) (mr_PrefixMode route) (rt_toolSelectors r) name) (mr_Backends route))) ∧
  (∀ name, rt_neverModePromptIndex r !! name =
     head (omap (claimant (rt_backends r) (mr_PrefixMode route) (rt_promptSelectors r) name) (mr_Backends route))).
Proof using Hvisit.
  unfold buildRoute. intros (auth & Ha%owrap_ok_inv & (sel & Hs%owrap_ok_inv & H)%obind_ok_inv)%obind_ok_inv.
  apply obind_ok_inv in H as ([[backends tsel] psel] & Hb & [= <-]). cbn. split_and!; [done..| |];
    intros name; destruct (indexBackend_lookup backends (mr_PrefixMode route) tsel psel (∅, ∅) (mr_Backends route) name) as [H1 H2].
  - rewrite H1. cbn [fst]. by rewrite lookup_empty.
  - rewrite H2. cbn [snd]. by rewrite lookup_empty.
Qed.
End IndexProps.

(** ** What a built route holds *)

(** The promise of the controller to the proxy: a backend without prefix declares
    its tools, and every tool it exposes is its own in the index of bare names. *)
Definition never_exclusive `{L : !AuthzLib} `{CE : !AuthzCel} `{RX : !Regexps} (r : mcpProxyConfigRoute) : Prop :=
  ∀ b, is_Some (rt_backends r !! b) → effectivePrefixMode r b = PrefixModeNever →
    ∃ ts, rt_toolSelectors r !! b = Some ts ∧ ts_include ts ≠ ∅ ∧
      ∀ name, claims (Some ts) name = true → rt_neverModeToolIndex r !! name = Some b.

Section RouteProps.
Context `{L : !AuthzLib} `{CE : !AuthzCel} `{RX : !Regexps}.

Lemma buildSelector_include inc incR exc excR k1 k2 b r ts :
  buildSelector inc incR exc excR k1 k2 b r = Ok ts → ts_include ts = list_to_set inc ∧ ts_exclude ts = list_to_set exc.
Proof. by intros (? & _ & (? & _ & [= <-])%obind_ok_inv)%obind_ok_inv. Qed.

(** One turn stores the backend and its selectors under its name and nothing else. *)
Lemma addBackend_inv rn acc b acc' :
  addBackend rn acc b = Ok acc' →
  acc'.1.1 = <[mb_Name b := b]> acc.1.1 ∧
  (∀ n, n ≠ mb_Name b → acc'.1.2 !! n = acc.1.2 !! n ∧ acc'.2 !! n = acc.2 !! n) ∧
  match mb_ToolSelector b with
  | Some s => ∃ ts, acc'.1.2 !! mb_Name b = Some ts ∧ ts_include ts = list_to_set (tsel_Include s)
  | None => acc'.1.2 !! mb_Name b = acc.1.2 !! mb_Name b
  end ∧
  match mb_PromptSelector b with
  | Some s => ∃ ts, acc'.2 !! mb_Name b = Some ts ∧ ts_include ts = list_to_set (psel_Include s)
  | None => acc'.2 !! mb_Name b = acc.2 !! mb_Name b
  end.
Proof.
  destruct acc as [[bs tsel] psel]. unfold addBackend.
  intros (tsel' & Ht & (psel' & Hp & [= <-])%obind_ok_inv)%obind_ok_inv. cbn. split; [done|].
  assert ((∀ n, n ≠ mb_Name b → tsel' !! n = tsel !! n) ∧
    match mb_ToolSelector b with
    | Some s => ∃ ts, tsel' !! mb_Name b = Some ts ∧ ts_include ts = list_to_set (tsel_Include s)
    | None => tsel' !! mb_Name b = tsel !! mb_Name b
    end) as [Ht1 Ht2].
  { destruct (mb_ToolSelector b) as [s|]; [|by injection Ht as <-].
    apply obind_ok_inv in Ht as (ts & [Hb _]%buildSelector_include & [= <-]). split; [intros n Hn; by rewrite lookup_insert_ne|].
    exists ts. by rewrite lookup_insert_eq. }
  assert ((∀ n, n ≠ mb_Name b → psel' !! n = psel !! n) ∧
    match mb_PromptSelector b with
    | Some s => ∃ ts, psel' !! mb_Name b = Some ts ∧ ts_include ts = list_to_set (psel_Include s)
    | None => psel' !! mb_Name b = psel !! mb_Name b
    end) as [Hp1 Hp2].
  { destruct (mb_PromptSelector b) as [s|]; [|by injection Hp as <-].
    apply obind_ok_inv in Hp as (ts & [Hb _]%buildSelector_include & [= <-]). split; [intros n Hn; by rewrite lookup_insert_ne|].
    exists ts. by rewrite lookup_insert_eq. }
  auto.
Qed.

Lemma addBackends_frame rn acc l acc' n :
  ofold (addBackend rn) acc l = Ok acc' → n ∉ mb_Name <$> l →
  acc'.1.1 !! n = acc.1.1 !! n ∧ acc'.1.2 !! n = acc.1.2 !! n ∧ acc'.2 !! n = acc.2 !! n.
Proof.
  revert acc. induction l as [|b l IH]; intros acc; [by intros [= <-]|]. cbn [ofold fmap list_fmap].
  intros (acc1 & Hb & Hl)%obind_ok_inv [Hn Hnl]%not_elem_of_cons.
  destruct (IH _ Hl Hnl) as (-> & -> & ->). destruct (addBackend_inv _ _ _ _ Hb) as (-> & Hf & _).
  rewrite lookup_insert_ne by done. by destruct (Hf n Hn).
Qed.

(** With unique names every backend finds itself and its own selectors. *)
Lemma addBackends_lookup rn l acc' b :
  ofold (addBackend rn) (∅, ∅, ∅) l = Ok acc' → NoDup (mb_Name <$> l) → b ∈ l →
  acc'.1.1 !! mb_Name b = Some b ∧
  match mb_ToolSelector b with
  | Some s => ∃ ts, acc'.1.2 !! mb_Name b = Some ts ∧ ts_include ts = list_to_set (tsel_Include s)
  | None => acc'.1.2 !! mb_Name b = None
  end ∧
  match mb_PromptSelector b with
  | Some s => ∃ ts, acc'.2 !! mb_Name b = Some ts ∧ ts_include ts = list_to_set (psel_Include s)
  | None => acc'.2 !! mb_Name b = None
  end.
Proof.
  intros H Hnd Hb. apply list_elem_of_split in Hb as (l1 & l2 & ->).
  rewrite ofold_app in H. apply obind_ok_inv in H as (acc1 & H1 & H). cbn [ofold] in H.
  apply obind_ok_inv in H as (acc2 & H2 & H3).
  rewrite fmap_app, fmap_cons in Hnd. apply NoDup_app in Hnd as (_ & Hd & [Hn2 _]%NoDup_cons).
  assert (mb_Name b ∉ mb_Name <$> l1) as Hn1 by (intros Hin; apply (Hd _ Hin); left).
  destruct (addBackends_frame _ _ _ _ _ H1 Hn1) as (_ & F1 & F1'). destruct (addBackends_frame _ _ _ _ _ H3 Hn2) as (-> & -> & ->).
  destruct (addBackend_inv _ _ _ _ H2) as (-> & _ & Ht & Hp). rewrite lookup_insert_eq. split; [done|].
  cbn in F1, F1'. rewrite lookup_empty in F1, F1'. rewrite F1 in Ht. by rewrite F1' in Hp.
Qed.

Lemma addBackends_dom rn l acc' n :
  ofold (addBackend rn) (∅, ∅, ∅) l = Ok acc' → is_Some (acc'.1.1 !! n) → n ∈ mb_Name <$> l.
Proof.
  intros H Hs. destruct (decide (n ∈ mb_Name <$> l)) as [|Hn]; [done|].
  destruct (addBackends_frame _ _ _ _ _ H Hn) as (E & _). rewrite E in Hs. cbn in Hs. rewrite lookup_empty in Hs. by destruct Hs.
Qed.
End RouteProps.
