(* ===== verification/McpController.v ===== *)
(** * MCP routes in the controller

    Models how an MCPRoute resource becomes the configuration of the MCP proxy:
    [mcpConfig] of [internal/controller/gateway.go] with [buildResourceMetadataURL],
    and [validatePerBackendPrefixMode] of [internal/controller/mcp_route.go].  The
    records prefixed with [aig] are the fields of the resource types of
    [api/v1beta1/mcp_route.go] that these functions read. *)

From Stdlib Require Import Ascii ZArith Lia.
From stdpp Require Import base gmap strings list.
From S2P Require Import Prelude GoStrings Kube McpAuthz McpConfig.

(** ** Resources *)

Definition MCPRoutePrefixModeAlways : string := "Always".
Definition MCPRoutePrefixModeNever : string := "Never".

Record aigMCPToolFilter := {
  tf_Include : list string; tf_IncludeRegex : list string; tf_Exclude : list string; tf_ExcludeRegex : list string }.
Record aigMCPPromptFilter := {
  pf_Include : list string; pf_IncludeRegex : list string; pf_Exclude : list string; pf_ExcludeRegex : list string }.
Record aigMCPHeaderForward := { fh_Name : string; fh_BackendHeader : option string }.

Record aigMCPRouteBackendRef := {
  br_Name : string;
  br_ToolSelector : option aigMCPToolFilter;
  br_PromptSelector : option aigMCPPromptFilter;
  br_ForwardHeaders : list aigMCPHeaderForward;
  br_PrefixMode : option string;
}.

Record aigJWTClaim := { jc_Name : string; jc_ValueType : option string; jc_Values : list string }.
Record aigAuthorizationSource := { aj_Scopes : list string; aj_Claims : list aigJWTClaim }.
Record aigAuthorizationRule := {
  gr_Action : option string;
  gr_Source : option aigAuthorizationSource;
  gr_Target : option (list ToolCall);
  gr_CEL : option string;
}.
Record aigAuthorization := { ga_DefaultAction : option string; ga_Rules : list aigAuthorizationRule }.

(** The protected resource and the headers of the claim-to-header mappings. *)
Record aigMCPRouteOAuth := { oa_Resource : string; oa_ClaimToHeaders : list string }.
Record aigAPIKeyAuth := { ak_ForwardClientIDHeader : option string }.
Record aigMCPRouteSecurityPolicy := {
  sp_OAuth : option aigMCPRouteOAuth;
  sp_APIKeyAuth : option aigAPIKeyAuth;
  sp_Authorization : option aigAuthorization;
}.

Record aigSelectorRule := { sr_Action : option string; sr_CEL : option string }.
Record aigMCPBackendSelector := { gs_DefaultAction : option string; gs_Rules : list aigSelectorRule }.

Record aigMCPRoute := {
  ro_Namespace : string;
  ro_Name : string;
  ro_Deleted : bool;
  ro_CreationTimestamp : Z;
  ro_ParentRefs : list ParentReference;
  ro_BackendRefs : list aigMCPRouteBackendRef;
  ro_SecurityPolicy : option aigMCPRouteSecurityPolicy;
  ro_BackendSelector : option aigMCPBackendSelector;
  ro_PrefixMode : option string;
}.

(** ** The configuration of the proxy *)

Definition oauthWellKnownProtectedResourceMetadataPath : string := "/.well-known/oauth-protected-resource".

Definition buildResourceMetadataURL (resource : string) : string :=
  let resourceURL := TrimSuffix resource "/" in
  let prefixLen := if HasPrefix resourceURL "https://" then 8 else if HasPrefix resourceURL "http://" then 7 else 0 in
  let '(baseURL, pathComponent) :=
    match Index (str_drop prefixLen resourceURL) "/" with
    | Some idx => (str_take (prefixLen + idx) resourceURL, str_drop (prefixLen + idx) resourceURL)
    | None => (resourceURL, "")
    end in
  baseURL +:+ oauthWellKnownProtectedResourceMetadataPath +:+ pathComponent.

(** One turn of the loop over the backend references. *)
Definition mcpBackendOf (b : aigMCPRouteBackendRef) : MCPBackend :=
  {| mb_Name := br_Name b;
     mb_ToolSelector := (λ s, {| tsel_Include := tf_Include s; tsel_IncludeRegex := tf_IncludeRegex s;
                                 tsel_Exclude := tf_Exclude s; tsel_ExcludeRegex := tf_ExcludeRegex s |}) <$> br_ToolSelector b;
     mb_PromptSelector := (λ s, {| psel_Include := pf_Include s; psel_IncludeRegex := pf_IncludeRegex s;
                                   psel_Exclude := pf_Exclude s; psel_ExcludeRegex := pf_ExcludeRegex s |}) <$> br_PromptSelector b;
     mb_ForwardHeaders := (λ fh, {| hf_Name := fh_Name fh; hf_BackendHeader := default "" (fh_BackendHeader fh) |})
                          <$> br_ForwardHeaders b;
     mb_PrefixMode := default "" (br_PrefixMode b) |}.

Definition mcpRuleOf (rule : aigAuthorizationRule) : MCPRouteAuthorizationRule :=
  {| ar_Action := default AuthorizationActionAllow (gr_Action rule);
     ar_Source := (λ s, {| as_JWT := {| js_Scopes := aj_Scopes s;
       js_Claims := (λ c, {| cl_Name := jc_Name c; cl_ValueType := default JWTClaimValueTypeString (jc_ValueType c);
                             cl_Values := jc_Values c |}) <$> aj_Claims s |} |}) <$> gr_Source rule;
     ar_Target := (λ tools, {| at_Tools := tools |}) <$> gr_Target rule;
     ar_CEL := gr_CEL rule |}.

(** [if !slices.Contains(l, h) { l = append(l, h) }]. *)
Definition appendNew (l : list string) (h : string) : list string := if bool_decide (h ∈ l) then l else l ++ [h].

Definition hasVerifiedJWT (route : aigMCPRoute) : bool :=
  match ro_SecurityPolicy route with Some sp => bool_decide (is_Some (sp_OAuth sp)) | None => false end.

(** One turn of the loop of [mcpConfig] for a route that is not being deleted. *)
Definition mcpRouteOf (route : aigMCPRoute) : MCPRoute :=
  {| mr_Name := NamespacedNameKey (ro_Namespace route) (ro_Name route);
     mr_Backends := mcpBackendOf <$> ro_BackendRefs route;
     mr_Authorization :=
       sp ← ro_SecurityPolicy route; authorization ← sp_Authorization sp;
       Some {| ra_DefaultAction := default AuthorizationActionDeny (ga_DefaultAction authorization);
               ra_Rules := mcpRuleOf <$> ga_Rules authorization;
               ra_ResourceMetadataURL := match sp_OAuth sp with
                                         | Some oauth => buildResourceMetadataURL (oa_Resource oauth)
                                         | None => ""
                                         end;
               ra_VerifiedJWT := hasVerifiedJWT route |};
     mr_BackendSelector :=
       (λ selector, {| ra_DefaultAction := default AuthorizationActionDeny (gs_DefaultAction selector);
          ra_Rules := (λ rule, {| ar_Action := default AuthorizationActionAllow (sr_Action rule); ar_Source := None;
                                  ar_Target := None; ar_CEL := sr_CEL rule |}) <$> gs_Rules selector;
          ra_ResourceMetadataURL := ""; ra_VerifiedJWT := hasVerifiedJWT route |}) <$> ro_BackendSelector route;
     mr_ForwardHeaders :=
       let headers := match ro_SecurityPolicy route ≫= sp_OAuth with
                      | Some oauth => foldl appendNew [] (oa_ClaimToHeaders oauth)
                      | None => []
                      end in
       match (ro_SecurityPolicy route ≫= sp_APIKeyAuth) ≫= ak_ForwardClientIDHeader with
       | Some h => if bool_decide (h ≠ "") then appendNew headers h else headers
       | None => headers
       end;
     mr_PrefixMode := match ro_PrefixMode route with
                      | Some mode => if bool_decide (mode = MCPRoutePrefixModeNever) then PrefixModeNever else ""
                      | None => ""
                      end |}.

Definition MCPBackendListenerPort : Z := 10088.

(** The result and whether there is an effective route. *)
Definition mcpConfig (mcpRoutes : list aigMCPRoute) : option MCPConfig * bool :=
  match mcpRoutes with
  | [] => (None, false)
  | _ =>
      let live := filter (λ r, ro_Deleted r = false) mcpRoutes in
      (Some {| mc_BackendListenerAddr := "http://127.0.0.1:" +:+ Itoa MCPBackendListenerPort;
               mc_Routes := mcpRouteOf <$> live; mc_SessionEncryption := None |},
       bool_decide (live ≠ []))
  end.

(** ** Validation of the prefix mode *)

Definition collision (what name first backendName : string) : error :=
  errors_New ("prefixMode Never requires " +:+ what +:+ " names to be unique across backends, but " +:+ Quote name +:+
              " is declared by both " +:+ Quote first +:+ " and " +:+ Quote backendName).

(** [for _, tool := range ref.ToolSelector.Include], and the same for prompts. *)
Definition claimAll (what backendName : string) (seen : gmap string string) (names : list string) :
    outcome (gmap string string) :=
  ofold (λ seen name,
    match seen !! name with
    | Some first => Fail (collision what name first backendName)
    | None => Ok (<[name := backendName]> seen)
    end) seen names.

Definition validateRef (routeMode : string) (acc : gmap string string * gmap string string) (ref : aigMCPRouteBackendRef) :
    outcome (gmap string string * gmap string string) :=
  let effectiveMode := default routeMode (br_PrefixMode ref) in
  if bool_decide (effectiveMode ≠ MCPRoutePrefixModeNever) then Ok acc
  else
    let '(seenTools, seenPrompts) := acc in
    let backendName := br_Name ref in
    match br_ToolSelector ref with
    | None | Some {| tf_Include := [] |} =>
        Fail (errors_New ("prefixMode Never requires backend " +:+ Quote backendName +:+
          " to explicitly enumerate its tools via toolSelector.include so names can be validated for uniqueness"))
    | Some ts =>
        let! seenTools := claimAll "tool" backendName seenTools (tf_Include ts) in
        match br_PromptSelector ref with
        | None => Ok (seenTools, seenPrompts)
        | Some ps =>
            let! seenPrompts := claimAll "prompt" backendName seenPrompts (pf_Include ps) in
            Ok (seenTools, seenPrompts)
        end
    end.

Definition validatePerBackendPrefixMode (mcpRoute : aigMCPRoute) : outcome unit :=
  let routeMode := default MCPRoutePrefixModeAlways (ro_PrefixMode mcpRoute) in
  let! _ := ofold (validateRef routeMode) (∅, ∅) (ro_BackendRefs mcpRoute) in
  Ok tt.

Example metadata_url :
  buildResourceMetadataURL "https://api.example.com/mcp/" =
    "https://api.example.com/.well-known/oauth-protected-resource/mcp".
Proof. vm_compute. reflexivity. Qed.

(** ** What a validated route guarantees *)

Definition neverRef (route : aigMCPRoute) (ref : aigMCPRouteBackendRef) : Prop :=
  default (default MCPRoutePrefixModeAlways (ro_PrefixMode route)) (br_PrefixMode ref) = MCPRoutePrefixModeNever.

Lemma claimAll_seen what b seen names seen' :
  claimAll what b seen names = Ok seen' →
  (∀ n o, seen !! n = Some o → seen' !! n = Some o) ∧ (∀ n, n ∈ names → seen' !! n = Some b).
Proof.
  revert seen. induction names as [|n names IH]; intros seen; unfold claimAll in *; cbn [ofold].
  { intros [= <-]. split; [done|]. by intros n ?%elem_of_nil. }
  intros (seen1 & H1 & H)%obind_ok_inv. destruct (seen !! n) eqn:E; [done|]. injection H1 as <-.
  destruct (IH _ H) as [Hk Hn]. split.
  - intros m o Hm. apply Hk. rewrite lookup_insert_ne; [done|]. congruence.
  - intros m [->|Hm]%elem_of_cons; [|by apply Hn]. apply Hk. by rewrite lookup_insert_eq.
Qed.

(** A reference without prefix declares its tools, and they are recorded as its own. *)
Lemma validateRef_seen mode acc ref acc' :
  validateRef mode acc ref = Ok acc' →
  (∀ n o, acc.1 !! n = Some o → acc'.1 !! n = Some o) ∧
  (default mode (br_PrefixMode ref) = MCPRoutePrefixModeNever →
   ∃ ts, br_ToolSelector ref = Some ts ∧ tf_Include ts ≠ [] ∧ ∀ n, n ∈ tf_Include ts → acc'.1 !! n = Some (br_Name ref)).
Proof.
  unfold validateRef. destruct acc as [seenT seenP]. case_bool_decide as Hm; [by intros [= <-]|].
  destruct (br_ToolSelector ref) as [ts|]; [|done].
  intros H. assert (tf_Include ts ≠ [] ∧ ∃ seenT', claimAll "tool" (br_Name ref) seenT (tf_Include ts) = Ok seenT' ∧ acc'.1 = seenT')
    as (Hne & seenT' & Hc & Ha).
  { destruct ts as [[|i inc] r e er]; [done|]. split; [done|]. apply obind_ok_inv in H as (seenT' & Hc & H).
    exists seenT'. split; [done|]. destruct (br_PromptSelector ref); [|by injection H as <-].
    by apply obind_ok_inv in H as (? & _ & [= <-]). }
  apply claimAll_seen in Hc as [Hk Hn]. rewrite Ha. split; [done|]. intros _. by exists ts.
Qed.

Lemma validate_seen mode acc refs acc' :
  ofold (validateRef mode) acc refs = Ok acc' →
  (∀ n o, acc.1 !! n = Some o → acc'.1 !! n = Some o) ∧
  (∀ ref, ref ∈ refs → default mode (br_PrefixMode ref) = MCPRoutePrefixModeNever →
   ∃ ts, br_ToolSelector ref = Some ts ∧ tf_Include ts ≠ [] ∧ ∀ n, n ∈ tf_Include ts → acc'.1 !! n = Some (br_Name ref)).
Proof.
  revert acc. induction refs as [|r refs IH]; intros acc; cbn [ofold].
  { intros [= <-]. split; [done|]. by intros ref ?%elem_of_nil. }
  intros (acc1 & [Hk1 Hr]%validateRef_seen & [Hk Hrest]%IH)%obind_ok_inv. split; [by eauto|].
  intros ref [->|Hin]%elem_of_cons Hm; [|by apply Hrest]. destruct (Hr Hm) as (ts & Hts & Hne & Hn).
  exists ts. eauto.
Qed.

(** What the resource schema guarantees: unique names, and a mode is one of the two. *)
Definition schema_ok (route : aigMCPRoute) : Prop :=
  NoDup (br_Name <$> ro_BackendRefs route) ∧ Forall (λ ref, br_PrefixMode ref ≠ Some "") (ro_BackendRefs route).

Section Guarantee.
Context `{L : !AuthzLib} `{CE : !AuthzCel} `{RX : !Regexps}.
Context (visit : gset string → list string) (Hvisit : ∀ s, visit s ≡ₚ elements s).

Lemma names_of_refs route : mb_Name <$> mr_Backends (mcpRouteOf route) = br_Name <$> ro_BackendRefs route.
Proof. cbn. by rewrite <-list_fmap_compose. Qed.

(** The proxy and the controller resolve the mode of a backend alike. *)
Lemma mode_agrees route r ref :
  schema_ok route → buildRoute visit (mcpRouteOf route) = Ok r → ref ∈ ro_BackendRefs route →
  effectivePrefixMode r (br_Name ref) = PrefixModeNever ↔ neverRef route ref.
Proof using Hvisit.
  intros [Hnd Hm] (_ & _ & Hb & Hrm & _)%(buildRoute_inv visit Hvisit) Hin.
  assert (mcpBackendOf ref ∈ mr_Backends (mcpRouteOf route)) as Hin' by (by apply list_elem_of_fmap_2).
  rewrite <-(names_of_refs route) in Hnd.
  destruct (addBackends_lookup _ _ _ _ Hb Hnd Hin') as (Hl & _).
  unfold effectivePrefixMode, prefixModeOf, neverRef. cbn in Hl. rewrite Hl, Hrm. cbn.
  apply (proj1 (Forall_forall _ _) Hm) in Hin. destruct (br_PrefixMode ref) as [mode|]; cbn.
  - rewrite bool_decide_true; [done|]. intros ->. done.
  - rewrite bool_decide_false by auto. unfold PrefixModeNever, MCPRoutePrefixModeNever, MCPRoutePrefixModeAlways.
    destruct (ro_PrefixMode route) as [mode|]; cbn; [|done]. case_bool_decide; by split.
Qed.

(** Validation discharges the promise the proxy relies on. *)
Lemma validated_route_exclusive route r :
  schema_ok route → validatePerBackendPrefixMode route = Ok tt → buildRoute visit (mcpRouteOf route) = Ok r →
  never_exclusive r.
Proof using Hvisit.
  intros Hok Hv Hb b Hsome Hnever. apply obind_ok_inv in Hv as (seen & [_ Hseen]%validate_seen & _).
  pose proof (buildRoute_inv visit Hvisit _ _ Hb) as (_ & _ & Hadd & Hrm & _ & Hidx & _).
  apply (addBackends_dom _ _ _ _ Hadd) in Hsome as Hdom. rewrite names_of_refs in Hdom.
  apply list_elem_of_fmap in Hdom as (ref & -> & Hin).
  apply (mode_agrees route r ref Hok Hb Hin) in Hnever.
  destruct (Hseen ref Hin Hnever) as (tf & Htf & Hne & Hown).
  assert (NoDup (mb_Name <$> mr_Backends (mcpRouteOf route))) as Hnd by (rewrite names_of_refs; apply Hok).
  assert (∀ ref, ref ∈ ro_BackendRefs route → mcpBackendOf ref ∈ mr_Backends (mcpRouteOf route)) as Hmem
    by (intros; by apply list_elem_of_fmap_2).
  destruct (addBackends_lookup _ _ _ _ Hadd Hnd (Hmem ref Hin)) as (_ & Hts & _). cbn in Hts. rewrite Htf in Hts.
  destruct Hts as (ts & Hts & Hinc). exists ts. split; [done|]. cbn in Hinc. split.
  { rewrite Hinc. destruct (tf_Include tf) as [|i inc]; [done|]. cbn. set_solver. }
  intros name Hc. rewrite Hidx.
  (* some backend claims the name; whoever is first has declared it, as [ref] has *)
  destruct (omap _ _) as [|o owners] eqn:Eo.
  - exfalso. assert (br_Name ref ∈ omap (claimant (rt_backends r) (mr_PrefixMode (mcpRouteOf route)) (rt_toolSelectors r) name)
      (mr_Backends (mcpRouteOf route))) as Hown'; [|rewrite Eo in Hown'; by apply elem_of_nil in Hown'].
    apply list_elem_of_omap. exists (mcpBackendOf ref). split; [by apply Hmem|]. unfold claimant.
    rewrite bool_decide_true; [|rewrite <-Hrm; by apply (mode_agrees route r ref Hok Hb Hin)]. cbn. by rewrite Hts, Hc.
  - cbn. f_equal. assert (o ∈ o :: owners) as Ho by left. rewrite <-Eo in Ho.
    apply list_elem_of_omap in Ho as (b' & Hb' & Hcl). apply list_elem_of_fmap in Hb' as (ref' & -> & Hin').
    unfold claimant in Hcl. destruct (bool_decide _) eqn:Em; [|done]. apply bool_decide_eq_true in Em.
    rewrite <-Hrm in Em. apply (mode_agrees route r ref' Hok Hb Hin') in Em as Hn'.
    destruct (claims (rt_toolSelectors r !! _) name) eqn:Ecl; [|done]. injection Hcl as <-. cbn in *.
    destruct (Hseen ref' Hin' Hn') as (tf' & Htf' & _ & Hown').
    destruct (addBackends_lookup _ _ _ _ Hadd Hnd (Hmem ref' Hin')) as (_ & Hts' & _). cbn in Hts'. rewrite Htf' in Hts'.
    destruct Hts' as (ts' & Hts' & Hinc'). rewrite Hts' in Ecl. cbn in Ecl, Hinc', Hc.
    apply andb_true_iff in Ecl as [Ecl%bool_decide_eq_true _], Hc as [Hc%bool_decide_eq_true _].
    rewrite Hinc' in Ecl. rewrite Hinc in Hc. apply elem_of_list_to_set in Ecl, Hc.
    apply Hown' in Ecl. apply Hown in Hc. congruence.
Qed.
End Guarantee.
