(* ===== verification/McpSse.v ===== *)
(** * Server-sent events of the MCP proxy

    Models [internal/mcpproxy/sse.go]: the incremental parser and the writer.
    JSON-RPC encoding is a class.  An [io.Reader] is the list of the texts its
    [Read] calls return, then the error it returns forever; a call that returns
    nothing and no error is an empty text. *)

From Stdlib Require Import Ascii Lia.
From stdpp Require Import base gmap strings list.
From S2P Require Import Prelude GoStrings.

Definition LF : ascii := chr 10.
Definition CR : ascii := chr 13.
Definition sseLFLF : string := String LF (String LF "").

(** [jsonrpc.DecodeMessage] and [jsonrpc.EncodeMessage]; the error of the second
    is dropped by its callers, which then have no data. *)
Class JsonRpc (Msg : Type) := {
  DecodeMessage : string → outcome Msg;
  EncodeMessage : Msg → string;
}.

(** [bytes.ReplaceAll(b, CRLF, LF)]. *)
Fixpoint replaceCRLF (b : string) : string :=
  match b with
  | "" => ""
  | String c b' =>
      if bool_decide (c = CR) then
        match b' with
        | String d b'' => if bool_decide (d = LF) then String LF (replaceCRLF b'') else String c (replaceCRLF b')
        | "" => String c ""
        end
      else String c (replaceCRLF b')
  end.

(** [bytes.ReplaceAll(b, CR, LF)]. *)
Fixpoint replaceCR (b : string) : string :=
  match b with
  | "" => ""
  | String c b => String (if bool_decide (c = CR) then LF else c) (replaceCR b)
  end.

Definition normalizeNewlines (b : string) : string := replaceCR (replaceCRLF b).

Section Sse.
Context {Msg : Type} `{JR : !JsonRpc Msg}.

Record sseEvent := {
  ev_event : string;
  ev_id : string;
  ev_messages : list Msg;
  ev_backend : string;
}.

Record sseEventParser := {
  sp_backend : string;
  sp_reads : list string;
  sp_end : error;
  sp_buf : string;
}.

Definition newSSEEventParser (reads : list string) (end_ : error) (backend : string) : sseEventParser :=
  {| sp_backend := backend; sp_reads := reads; sp_end := end_; sp_buf := "" |}.

Definition setBuf (buf : string) (s : sseEventParser) : sseEventParser :=
  {| sp_backend := sp_backend s; sp_reads := sp_reads s; sp_end := sp_end s; sp_buf := buf |}.

(** One line of [parseEvent]. *)
Definition parseLine (ret : sseEvent) (line : string) : outcome sseEvent :=
  if HasPrefix line "event:" then
    Ok {| ev_event := TrimSpace (str_drop 6 line); ev_id := ev_id ret; ev_messages := ev_messages ret;
          ev_backend := ev_backend ret |}
  else if HasPrefix line "id:" then
    Ok {| ev_event := ev_event ret; ev_id := TrimSpace (str_drop 3 line); ev_messages := ev_messages ret;
          ev_backend := ev_backend ret |}
  else if HasPrefix line "data:" then
    let data := TrimSpace (str_drop 5 line) in
    if bool_decide (data = "") then Ok ret
    else
      let! msg := owrap "failed to decode jsonrpc message from sse data: " (DecodeMessage data) in
      Ok {| ev_event := ev_event ret; ev_id := ev_id ret; ev_messages := ev_messages ret ++ [msg];
            ev_backend := ev_backend ret |}
  else Ok ret.

Definition parseEvent (backend chunk : string) : outcome sseEvent :=
  ofold parseLine {| ev_event := ""; ev_id := ""; ev_messages := []; ev_backend := backend |} (Split chunk LF).

(** The separator found in the buffer: the chunk before it and the rest. *)
Definition cutEvent (buf : string) : option (string * string) :=
  (λ idx, (str_take idx buf, str_drop (idx + 2) buf)) <$> Index buf sseLFLF.

(** What [next] returns: an event, or an error with perhaps a last event. *)
Inductive next_result :=
| NextEvent (ev : sseEvent)
| NextErr (ev : option sseEvent) (err : error)
| NextPanic (msg : string).

Definition joinErrors (err parseErr : error) : error :=
  Err (err_msg err +:+ String LF (err_msg parseErr)) (err_chain err ++ err_chain parseErr).

(** The loop of [next]: each turn takes an event from the buffer, reads more
    or ends with the reader's error. *)
Fixpoint next_loop (backend : string) (end_ : error) (reads : list string) (buf : string) :
    list string * string * next_result :=
  match cutEvent buf with
  | Some (chunk, rest) =>
      (reads, rest, match parseEvent backend chunk with
                    | Ok ev => NextEvent ev
                    | Fail err => NextErr None err
                    | Panic m => NextPanic m
                    end)
  | None =>
      match reads with
      | r :: reads =>
          next_loop backend end_ reads (if bool_decide (r = "") then buf else buf +:+ normalizeNewlines r)
      | [] =>
          if errors_Is end_ IoEOF && bool_decide (buf ≠ "") then
            ([], "", match parseEvent backend buf with
                     | Ok ev => NextErr (Some ev) end_
                     | Fail parseErr => NextErr None (joinErrors end_ parseErr)
                     | Panic m => NextPanic m
                     end)
          else ([], buf, NextErr None end_)
      end
  end.

Definition next (s : sseEventParser) : sseEventParser * next_result :=
  let '(reads, buf, r) := next_loop (sp_backend s) (sp_end s) (sp_reads s) (sp_buf s) in
  ({| sp_backend := sp_backend s; sp_reads := reads; sp_end := sp_end s; sp_buf := buf |}, r).

(** The readers' loop: all events up to the first error.  Every event takes two
    bytes from the input, so its size bounds the number of calls. *)
Fixpoint drain_go (fuel : nat) (s : sseEventParser) : option (list sseEvent * outcome error) :=
  match fuel with
  | 0 => None
  | S fuel =>
      match next s with
      | (s, NextEvent ev) => prod_map (cons ev) id <$> drain_go fuel s
      | (_, NextErr ev err) => Some (option_list ev, Ok err)
      | (_, NextPanic m) => Some ([], Panic m)
      end
  end.

Definition parser_size (s : sseEventParser) : nat :=
  String.length (sp_buf s) + String.length (sconcat (sp_reads s)).

Definition drain (s : sseEventParser) : option (list sseEvent * outcome error) :=
  drain_go (S (parser_size s)) s.

(** [writeAndMaybeFlush]: the bytes written. *)
Definition writeEvent (s : sseEvent) : string :=
  (if bool_decide (ev_event s ≠ "") then "event: " +:+ ev_event s +:+ String LF "" else "") +:+
  (if bool_decide (ev_id s ≠ "") then "id: " +:+ ev_id s +:+ String LF "" else "") +:+
  sconcat ((λ msg, "data: " +:+ EncodeMessage msg +:+ String LF "") <$> ev_messages s) +:+
  sseLFLF.

(** [utf8BOM]. *)
Definition utf8BOM : string := bytes_of [239; 187; 191].

Definition tryDecodeJSONRPCMessage (body : string) : option Msg :=
  match DecodeMessage (TrimPrefix (TrimSpace body) utf8BOM) with Ok msg => Some msg | _ => None end.
End Sse.

(** [mime.ParseMediaType] is an argument. *)
Definition isJSONContentType (parseMediaType : string → outcome string) (value : string) : bool :=
  match parseMediaType value with Ok mediaType => EqualFold mediaType "application/json" | _ => false end.

Arguments sseEvent : clear implicits.

(** ** Line ends *)

Lemma slength_normalize b : String.length (normalizeNewlines b) ≤ String.length b.
Proof.
  unfold normalizeNewlines.
  assert (∀ s, String.length (replaceCR s) = String.length s) as Hcr by (induction s; simpl; congruence).
  rewrite Hcr. clear Hcr. remember (String.length b) as n eqn:Hn. revert b Hn.
  induction n as [n IH] using lt_wf_ind; intros [|c b] ->; [done|]. cbn [replaceCRLF].
  destruct (bool_decide (c = CR)); [destruct b as [|d b]; [done|]; destruct (bool_decide (d = LF))|].
  - pose proof (IH (String.length b) ltac:(simpl; lia) b eq_refl). cbn [String.length]. lia.
  - pose proof (IH (String.length (String d b)) ltac:(simpl; lia) (String d b) eq_refl). cbn [String.length] in *. lia.
  - pose proof (IH (String.length b) ltac:(simpl; lia) b eq_refl). cbn [String.length] in *. lia.
Qed.

Lemma replaceCR_app a b : replaceCR (a +:+ b) = replaceCR a +:+ replaceCR b.
Proof. induction a as [|c a IH]; [done|]. rewrite sapp_cons. simpl. rewrite sapp_cons. by rewrite IH. Qed.

(** A cut between two texts separates a CR from its LF. *)
Definition splits_crlf (a b : string) : bool := HasSuffix a (String CR "") && HasPrefix b (String LF "").

Lemma HasSuffix_cons c a p : p ≠ "" → a ≠ "" → String.length p = 1 → HasSuffix (String c a) p = HasSuffix a p.
Proof.
  intros Hp Ha Hl. apply eq_bool_prop_intro. rewrite !Is_true_true, !HasSuffix_spec.
  split; intros [t Ht].
  - destruct t as [|d t].
    + exfalso. rewrite sapp_nil_l in Ht. subst p. simpl in Hl. apply Ha, slength_0. lia.
    + rewrite sapp_cons in Ht. injection Ht as -> ->. by exists t.
  - exists (String c t). by rewrite Ht, sapp_cons.
Qed.

Lemma replaceCRLF_cons2 c d s :
  replaceCRLF (String c (String d s)) =
    if bool_decide (c = CR) && bool_decide (d = LF) then String LF (replaceCRLF s)
    else String c (replaceCRLF (String d s)).
Proof. cbn [replaceCRLF]. destruct (bool_decide (c = CR)); [|done]. by destruct (bool_decide (d = LF)). Qed.

Lemma replaceCRLF_app a b : splits_crlf a b = false → replaceCRLF (a +:+ b) = replaceCRLF a +:+ replaceCRLF b.
Proof.
  remember (String.length a) as n eqn:Hn. revert a Hn.
  induction n as [n IH] using lt_wf_ind; intros [|c [|d a]] -> Hs; [done|..].
  - (* one character: it is a CR only when no LF follows *)
    rewrite sapp_cons, sapp_nil_l. cbn [replaceCRLF]. case_bool_decide as Hc; [|done]. subst c.
    destruct b as [|e b]; [done|]. rewrite bool_decide_false; [by rewrite sapp_cons|]. intros ->.
    by destruct b.
  - assert (splits_crlf (String d a) b = false) as Hs'.
    { unfold splits_crlf in *. by rewrite HasSuffix_cons in Hs by done. }
    rewrite !sapp_cons, !replaceCRLF_cons2. destruct (_ && _); rewrite sapp_cons; f_equal.
    + destruct a as [|e a]; [done|]. apply (IH (String.length (String e a))); [simpl; lia|done|].
      unfold splits_crlf in *. by rewrite HasSuffix_cons in Hs' by done.
    + rewrite <-(sapp_cons d). apply (IH (String.length (String d a))); [simpl; lia|done|done].
Qed.

Lemma normalize_app a b :
  splits_crlf a b = false → normalizeNewlines (a +:+ b) = normalizeNewlines a +:+ normalizeNewlines b.
Proof. intros H. unfold normalizeNewlines. by rewrite replaceCRLF_app, replaceCR_app. Qed.

(** ** Searching a growing buffer *)

Lemma cutEvent_app buf t chunk rest : cutEvent buf = Some (chunk, rest) → cutEvent (buf +:+ t) = Some (chunk, rest +:+ t).
Proof.
  unfold cutEvent. destruct (Index buf sseLFLF) as [i|] eqn:E; [|done]. intros [= <- <-].
  rewrite (Index_app_l _ _ _ _ E). simpl. apply Index_le in E. change (String.length sseLFLF) with 2 in E.
  rewrite str_drop_le by lia. do 2 f_equal.
  assert (String.length (str_take i buf) = i) as Hl by (rewrite slength_take; lia).
  rewrite <-(str_take_drop i buf) at 1. rewrite <-sapp_assoc. by apply str_take_app'.
Qed.

Lemma cutEvent_shrinks buf chunk rest : cutEvent buf = Some (chunk, rest) → String.length rest + 2 ≤ String.length buf.
Proof.
  unfold cutEvent. destruct (Index buf sseLFLF) as [i|] eqn:E; [|done]. intros [= <- <-].
  apply Index_le in E. change (String.length sseLFLF) with 2 in E. rewrite slength_drop. lia.
Qed.

Section SseProps.
Context {Msg : Type} `{JR : !JsonRpc Msg}.

(** No boundary between two reads separates a CR from its LF. *)
Fixpoint cuts_ok (reads : list string) : bool :=
  match reads with
  | [] => true
  | r :: reads => negb (splits_crlf r (sconcat reads)) && cuts_ok reads
  end.

(** The parser after all reads. *)
Definition read_all (s : sseEventParser) : sseEventParser :=
  {| sp_backend := sp_backend s; sp_reads := []; sp_end := sp_end s;
     sp_buf := sp_buf s +:+ normalizeNewlines (sconcat (sp_reads s)) |}.

Lemma next_loop_read_all backend end_ reads buf :
  cuts_ok reads = true →
  let '(reads', buf', r) := next_loop (JR := JR) backend end_ reads buf in
  next_loop backend end_ [] (buf +:+ normalizeNewlines (sconcat reads)) =
    ([], buf' +:+ normalizeNewlines (sconcat reads'), r) ∧ cuts_ok reads' = true.
Proof.
  revert buf. induction reads as [|r reads IH]; intros buf Hc.
  - change (normalizeNewlines (sconcat [])) with "". rewrite sapp_nil_r.
    destruct (next_loop _ _ [] buf) as [[reads' buf'] r] eqn:E. revert E. cbn [next_loop].
    destruct (cutEvent buf) as [[chunk rest]|]; [|destruct (_ && _)]; intros [= <- <- <-];
      change (normalizeNewlines (sconcat [])) with ""; by rewrite sapp_nil_r.
  - destruct (cutEvent buf) as [[chunk rest]|] eqn:E.
    + cbn [next_loop]. rewrite E. by rewrite (cutEvent_app _ _ _ _ E).
    + cbn [next_loop]. rewrite E. simpl in Hc. apply andb_true_iff in Hc as [Hs Hc].
      apply negb_true_iff in Hs. rewrite sconcat_cons, (normalize_app _ _ Hs).
      specialize (IH (if bool_decide (r = "") then buf else buf +:+ normalizeNewlines r) Hc).
      destruct (next_loop _ _ reads _) as [[reads' buf'] res].
      replace (buf +:+ normalizeNewlines r +:+ normalizeNewlines (sconcat reads))
        with ((if bool_decide (r = "") then buf else buf +:+ normalizeNewlines r) +:+ normalizeNewlines (sconcat reads));
        [done|]. case_bool_decide; [by subst r|]. by rewrite sapp_assoc.
Qed.

Lemma next_read_all s :
  cuts_ok (sp_reads s) = true →
  let '(s', r) := next (JR := JR) s in next (read_all s) = (read_all s', r) ∧ cuts_ok (sp_reads s') = true.
Proof.
  intros Hc. unfold next. pose proof (next_loop_read_all (sp_backend s) (sp_end s) _ (sp_buf s) Hc) as H.
  destruct (next_loop _ _ _ (sp_buf s)) as [[reads buf] r]. destruct H as [H Hc'].
  cbn [read_all sp_backend sp_end sp_reads sp_buf]. by rewrite H.
Qed.

Lemma drain_go_read_all fuel s :
  cuts_ok (sp_reads s) = true → drain_go (JR := JR) fuel s = drain_go fuel (read_all s).
Proof.
  revert s. induction fuel as [|fuel IH]; intros s Hc; [done|]. simpl.
  pose proof (next_read_all s Hc) as H. destruct (next s) as [s' r]. destruct H as [-> Hc'].
  destruct r; [|done..]. by rewrite (IH _ Hc').
Qed.

(** A text that has been read whole is drained in fewer steps than its length. *)
Lemma drain_go_whole fuel s :
  sp_reads s = [] → String.length (sp_buf s) < fuel →
  ∃ r, drain_go (JR := JR) fuel s = Some r ∧ ∀ fuel', fuel ≤ fuel' → drain_go (JR := JR) fuel' s = Some r.
Proof.
  revert s. induction fuel as [|fuel IH]; intros s Hr Hl; [lia|].
  destruct (next s) as [s' r] eqn:En.
  assert (∀ fuel', drain_go (JR := JR) (S fuel') s =
            match r with
            | NextEvent ev => prod_map (cons ev) id <$> drain_go (JR := JR) fuel' s'
            | NextErr ev err => Some (option_list ev, Ok err)
            | NextPanic m => Some ([], Panic m)
            end) as Hd by (intros fuel'; simpl; by rewrite En).
  destruct r as [ev|ev err|m].
  - assert (sp_reads s' = [] ∧ String.length (sp_buf s') < fuel) as [Hr' Hl'].
    { revert En. unfold next. rewrite Hr. cbn [next_loop].
      destruct (cutEvent (sp_buf s)) as [[chunk rest]|] eqn:E.
      - intros [= <- _]. simpl. apply cutEvent_shrinks in E. split; [done|]. lia.
      - destruct (_ && _); [destruct (parseEvent _ _)|]; by intros [= _ ?]. }
    destruct (IH s' Hr' Hl') as (res & H1 & H2). exists (prod_map (cons ev) id res). split.
    + by rewrite Hd, H1.
    + intros [|fuel'] Hf; [lia|]. rewrite Hd, H2 by lia. done.
  - exists (option_list ev, Ok err). split; [apply Hd|]. intros [|fuel'] Hf; [lia|]. apply Hd.
  - exists ([], Panic m). split; [apply Hd|]. intros [|fuel'] Hf; [lia|]. apply Hd.
Qed.

Lemma drain_all_reads reads end_ backend :
  cuts_ok reads = true →
  ∃ r, drain (JR := JR) (newSSEEventParser reads end_ backend) = Some r ∧
       drain (JR := JR) (setBuf (normalizeNewlines (sconcat reads)) (newSSEEventParser [] end_ backend)) = Some r.
Proof.
  intros Hc. unfold drain. rewrite drain_go_read_all by done.
  set (s := read_all (newSSEEventParser reads end_ backend)).
  change (setBuf _ _) with s.
  assert (String.length (sp_buf s) ≤ String.length (sconcat reads)) as Hl by (apply slength_normalize).
  destruct (drain_go_whole (S (parser_size s)) s) as (r & H1 & H2); [done|unfold parser_size; simpl; lia|].
  exists r. split; [|done]. apply H2. unfold parser_size. simpl in *. lia.
Qed.

(** The events of a stream do not depend on how the network cuts it: two
    ways to cut the same bytes, neither of which separates a CR from its LF, drain
    to the same events and the same end, and draining ends. *)
Theorem drain_chunking reads reads' end_ backend :
  cuts_ok reads = true → cuts_ok reads' = true → sconcat reads = sconcat reads' →
  ∃ r, drain (JR := JR) (newSSEEventParser reads end_ backend) = Some r ∧
       drain (JR := JR) (newSSEEventParser reads' end_ backend) = Some r.
Proof.
  intros H H' E. destruct (drain_all_reads reads end_ backend H) as (r & Hr & Hw).
  destruct (drain_all_reads reads' end_ backend H') as (r' & Hr' & Hw'). rewrite E in Hw. rewrite Hw in Hw'.
  injection Hw' as <-. eauto.
Qed.

(** ** Writing and reading back *)

(** The lines of a written event. *)
Definition event_lines (ev : sseEvent Msg) : list string :=
  (if bool_decide (ev_event ev ≠ "") then ["event: " +:+ ev_event ev] else []) ++
  (if bool_decide (ev_id ev ≠ "") then ["id: " +:+ ev_id ev] else []) ++
  ((λ msg, "data: " +:+ EncodeMessage msg) <$> ev_messages ev).

(** A text that stands on one line of its own. *)
Definition line_ok (s : string) : bool := negb (Contains s LF) && negb (Contains s CR) && no_space_edges s.

(** What the format can carry: fields on one line each, at least one, and
    messages that JSON-RPC decodes to themselves. *)
Record event_ok (backend : string) (ev : sseEvent Msg) : Prop := {
  eo_event : line_ok (ev_event ev) = true;
  eo_id : line_ok (ev_id ev) = true;
  eo_messages : Forall (λ m, EncodeMessage m ≠ "" ∧ line_ok (EncodeMessage m) = true ∧
                             DecodeMessage (EncodeMessage m) = Ok m) (ev_messages ev);
  eo_fields : event_lines ev ≠ [];
  eo_backend : ev_backend ev = backend;
}.

Definition unlines (ls : list string) : string := sconcat ((λ l, l +:+ String LF "") <$> ls).

Lemma writeEvent_lines ev : writeEvent ev = unlines (event_lines ev) +:+ sseLFLF.
Proof.
  unfold writeEvent, event_lines, unlines. rewrite !fmap_app, !sconcat_app, <-!sapp_assoc.
  f_equal; [case_bool_decide; [|done]; simpl; by rewrite sapp_nil_r, <-sapp_assoc|].
  f_equal; [case_bool_decide; [|done]; simpl; by rewrite sapp_nil_r, <-sapp_assoc|].
  f_equal. f_equal. rewrite <-list_fmap_compose. apply list_fmap_ext. intros _ m _. simpl. by rewrite <-sapp_assoc.
Qed.

Lemma HasPrefix_LFLF c s : HasPrefix (String c s) sseLFLF = bool_decide (LF = c) && HasPrefix s (String LF "").
Proof. reflexivity. Qed.

Lemma Index_skip l t :
  Contains l LF = false → HasPrefix t (String LF "") = false →
  Index (l +:+ String LF t) sseLFLF = (λ n, S (String.length l) + n) <$> Index t sseLFLF.
Proof.
  intros Hl Ht. induction l as [|c l IH].
  - rewrite sapp_nil_l. cbn [Index]. by rewrite HasPrefix_LFLF, Ht, andb_false_r.
  - apply Contains_false_cons in Hl as [Hc Hl]. rewrite sapp_cons. cbn [Index].
    rewrite HasPrefix_LFLF, bool_decide_false by done. simpl. rewrite (IH Hl).
    destruct (Index t sseLFLF); done.
Qed.

Lemma Index_stop l t : Contains l LF = false → Index (l +:+ sseLFLF +:+ t) sseLFLF = Some (String.length l).
Proof.
  intros Hl. induction l as [|c l IH].
  - rewrite sapp_nil_l. unfold sseLFLF. by destruct t.
  - apply Contains_false_cons in Hl as [Hc Hl]. rewrite sapp_cons. cbn [Index].
    rewrite HasPrefix_LFLF, bool_decide_false by done. simpl. by rewrite (IH Hl).
Qed.

Lemma HasPrefix_line l t : l ≠ "" → Contains l LF = false → HasPrefix (l +:+ t) (String LF "") = false.
Proof.
  destruct l as [|c l]; [done|]. intros _ [Hc _]%Contains_false_cons.
  rewrite sapp_cons, HasPrefix_cons. by rewrite bool_decide_false.
Qed.

Lemma unlines_cons l ls : unlines (l :: ls) = l +:+ String LF (unlines ls).
Proof. unfold unlines. rewrite fmap_cons, sconcat_cons, <-sapp_assoc. done. Qed.

(** The first blank line of a text that starts with non-empty lines. *)
Lemma cutEvent_lines l ls t :
  Forall (λ l, l ≠ "" ∧ Contains l LF = false) (l :: ls) →
  cutEvent (unlines (l :: ls) +:+ String LF t) = Some (Join (l :: ls) LF, t).
Proof.
  intros Hls. unfold cutEvent.
  assert (Index (unlines (l :: ls) +:+ String LF t) sseLFLF = Some (String.length (Join (l :: ls) LF))) as ->.
  { revert l Hls. induction ls as [|l' ls IH]; intros l [[Hl Hc] Hls]%Forall_cons.
    - change (unlines [l]) with (unlines (l :: [])). rewrite unlines_cons, <-sapp_assoc, sapp_cons.
      by apply (Index_stop l t).
    - rewrite unlines_cons, <-sapp_assoc, sapp_cons, Index_skip; [|done|].
      + rewrite (IH l' Hls), Join_cons, slength_app. cbn [String.length]. change (_ <$> Some ?x) with (Some (S (String.length l) + x)). f_equal. lia.
      + apply Forall_cons in Hls as [[Hl' Hc'] _]. rewrite unlines_cons, <-sapp_assoc. by apply HasPrefix_line. }
  assert (unlines (l :: ls) = Join (l :: ls) LF +:+ String LF "") as ->.
  { clear. revert l. induction ls as [|l' ls IH]; intros l; rewrite unlines_cons; [done|].
    by rewrite IH, Join_cons, <-sapp_assoc, sapp_cons. }
  rewrite <-sapp_assoc, sapp_cons, sapp_nil_l. simpl. rewrite str_take_app.
  change (String LF (String LF t)) with (sseLFLF +:+ t). rewrite sapp_assoc.
  by rewrite str_drop_app' by (by rewrite slength_app).
Qed.
Lemma line_ok_inv s : line_ok s = true → Contains s LF = false ∧ Contains s CR = false ∧ TrimSpace s = s.
Proof.
  unfold line_ok. rewrite !andb_true_iff, !negb_true_iff. intros [[? ?] ?]. by rewrite TrimSpace_id.
Qed.

Lemma event_lines_ok backend ev c :
  event_ok backend ev → c ∈ [LF; CR] → Forall (λ l, l ≠ "" ∧ Contains l c = false) (event_lines ev).
Proof.
  intros He Hc.
  assert (∀ p s, p ∈ ["event: "; "id: "; "data: "] → line_ok s = true →
            p +:+ s ≠ "" ∧ Contains (p +:+ s) c = false) as H.
  { intros p s Hp (Hlf & Hcr & _)%line_ok_inv.
    assert (Contains s c = false) as Hs by (apply elem_of_cons in Hc as [->|[->|[]%elem_of_nil]%elem_of_cons]; done).
    rewrite Contains_app, Hs, orb_false_r.
    repeat (apply elem_of_cons in Hp as [->|Hp]; [split; [done|];
      apply elem_of_cons in Hc as [->|[->|[]%elem_of_nil]%elem_of_cons]; reflexivity|]).
    by apply elem_of_nil in Hp. }
  unfold event_lines. rewrite !Forall_app. repeat split.
  - case_bool_decide; [|done]. constructor; [|done]. apply H; [auto with router|by apply (eo_event backend)].
  - case_bool_decide; [|done]. constructor; [|done]. apply H; [auto with router|by apply (eo_id backend)].
  - apply Forall_fmap. eapply Forall_impl; [apply (eo_messages backend ev He)|]. intros m (_ & Hm & _).
    simpl. apply H; [auto 10 with router|done].
Qed.

Definition empty_event (backend : string) : sseEvent Msg :=
  {| ev_event := ""; ev_id := ""; ev_messages := []; ev_backend := backend |}.

Lemma parse_data_lines ms ret :
  Forall (λ m, EncodeMessage m ≠ "" ∧ line_ok (EncodeMessage m) = true ∧ DecodeMessage (EncodeMessage m) = Ok m) ms →
  ofold parseLine ret ((λ msg, "data: " +:+ EncodeMessage msg) <$> ms) =
    Ok {| ev_event := ev_event ret; ev_id := ev_id ret; ev_messages := ev_messages ret ++ ms;
          ev_backend := ev_backend ret |}.
Proof.
  revert ret. induction ms as [|m ms IH]; intros ret Hm.
  { rewrite app_nil_r. by destruct ret. }
  apply Forall_cons in Hm as [(Hne & (_ & _ & Ht)%line_ok_inv & Hd) Hms]. rewrite fmap_cons. cbn [ofold].
  assert (parseLine ret ("data: " +:+ EncodeMessage m) =
    Ok {| ev_event := ev_event ret; ev_id := ev_id ret; ev_messages := ev_messages ret ++ [m];
          ev_backend := ev_backend ret |}) as ->.
  { unfold parseLine. change (str_drop 5 ("data: " +:+ EncodeMessage m)) with (String " " (EncodeMessage m)).
    rewrite TrimSpace_cons_space, Ht, bool_decide_false, Hd by done. reflexivity. }
  cbn [obind]. rewrite (IH _ Hms). simpl. by rewrite <-app_assoc.
Qed.

Lemma parse_event_lines backend ev :
  event_ok backend ev → ofold parseLine (empty_event backend) (event_lines ev) = Ok ev.
Proof.
  intros He. unfold event_lines. rewrite ofold_app.
  assert (ofold parseLine (empty_event backend)
            (if bool_decide (ev_event ev ≠ "") then ["event: " +:+ ev_event ev] else []) =
          Ok {| ev_event := ev_event ev; ev_id := ""; ev_messages := []; ev_backend := backend |}) as ->.
  { case_bool_decide as Hne; [|by rewrite Hne]. cbn [ofold]. unfold parseLine.
    change (str_drop 6 ("event: " +:+ ev_event ev)) with (String " " (ev_event ev)).
    rewrite TrimSpace_cons_space. by rewrite (proj2 (proj2 (line_ok_inv _ (eo_event backend ev He)))). }
  cbn [obind]. rewrite ofold_app.
  match goal with |- context [ofold parseLine ?r (if _ then _ else _)] =>
    assert (ofold parseLine r (if bool_decide (ev_id ev ≠ "") then ["id: " +:+ ev_id ev] else []) =
          Ok {| ev_event := ev_event ev; ev_id := ev_id ev; ev_messages := []; ev_backend := backend |}) as -> end.
  { case_bool_decide as Hne; [|by rewrite Hne]. cbn [ofold]. unfold parseLine.
    change (str_drop 3 ("id: " +:+ ev_id ev)) with (String " " (ev_id ev)).
    rewrite TrimSpace_cons_space. by rewrite (proj2 (proj2 (line_ok_inv _ (eo_id backend ev He)))). }
  cbn [obind]. rewrite parse_data_lines by apply (eo_messages backend ev He). simpl.
  rewrite <-(eo_backend backend ev He). by destruct ev.
Qed.
(** The blank line a written event leaves before the next one. *)
Definition leftover (nl : string) : Prop := nl = "" ∨ nl = String LF "".

(** The first event of a text of written events. *)
Lemma next_written backend end_ ev nl t :
  event_ok backend ev → leftover nl →
  next_loop backend end_ [] (nl +:+ writeEvent ev +:+ t) = ([], String LF t, NextEvent ev).
Proof.
  intros He Hnl. pose proof (event_lines_ok backend ev LF He ltac:(left)) as Hls.
  pose proof (parse_event_lines backend ev He) as Hp.
  destruct (event_lines ev) as [|l ls] eqn:El; [by destruct (eo_fields backend ev He)|].
  rewrite writeEvent_lines, El, <-sapp_assoc. change (sseLFLF +:+ t) with (String LF (String LF t)).
  pose proof (cutEvent_lines l ls (String LF t) Hls) as Hcut.
  assert (Split (Join (l :: ls) LF) LF = l :: ls) as Hsplit.
  { apply Split_Join; [done|]. eapply Forall_impl; [exact Hls|]. by intros ? []. }
  destruct Hnl as [->| ->].
  - rewrite sapp_nil_l. cbn [next_loop]. rewrite Hcut. unfold parseEvent. rewrite Hsplit.
    fold (empty_event backend). by rewrite Hp.
  - assert (cutEvent (String LF "" +:+ unlines (l :: ls) +:+ String LF (String LF t)) =
            Some (String LF (Join (l :: ls) LF), String LF t)) as Hcut'.
    { assert (HasPrefix (unlines (l :: ls) +:+ String LF (String LF t)) (String LF "") = false) as Hp0.
      { apply Forall_cons in Hls as [[Hl Hc] _]. rewrite unlines_cons, <-sapp_assoc. by apply HasPrefix_line. }
      revert Hcut Hp0. generalize (unlines (l :: ls) +:+ String LF (String LF t)) as X. intros X Hcut Hp0.
      pose proof (Index_skip "" X eq_refl Hp0) as Hi. unfold cutEvent in *.
      change (String LF "" +:+ X) with ("" +:+ String LF X). rewrite Hi. change ("" +:+ String LF X) with (String LF X).
      destruct (Index X sseLFLF) as [n|]; [|discriminate Hcut]. cbn in *. by injection Hcut as -> ->. }
    cbn [next_loop]. rewrite Hcut'. unfold parseEvent.
    change (String LF (Join (l :: ls) LF)) with ("" +:+ String LF (Join (l :: ls) LF)).
    rewrite Split_app, Hsplit by done. fold (empty_event backend).
    change (ofold parseLine (empty_event backend) ("" :: l :: ls))
      with (ofold parseLine (empty_event backend) (l :: ls)). by rewrite Hp.
Qed.

Lemma drain_written backend end_ evs nl fuel :
  errors_Is end_ IoEOF = true → Forall (event_ok backend) evs → leftover nl → length evs < fuel →
  drain_go fuel {| sp_backend := backend; sp_reads := []; sp_end := end_;
                   sp_buf := nl +:+ sconcat (writeEvent <$> evs) |} =
    Some (evs ++ (if bool_decide (nl = "" ∧ evs = []) then [] else [empty_event backend]), Ok end_).
Proof.
  intros Heof. revert nl fuel. induction evs as [|ev evs IH]; intros nl [|fuel] Hevs Hnl Hf; simpl in Hf; try lia.
  - rewrite sapp_nil_r. cbn [drain_go]. unfold next. cbn [sp_backend sp_end sp_reads sp_buf].
    destruct Hnl as [->| ->].
    + rewrite bool_decide_true by done. cbn. by rewrite andb_false_r.
    + rewrite bool_decide_false by (by intros [? ?]). cbn. by rewrite Heof.
  - apply Forall_cons in Hevs as [He Hevs]. rewrite fmap_cons, sconcat_cons.
    cbn [drain_go]. unfold next. cbn [sp_backend sp_end sp_reads sp_buf]. rewrite next_written by done.
    change (String LF (sconcat (writeEvent <$> evs))) with (String LF "" +:+ sconcat (writeEvent <$> evs)).
    rewrite IH by first [done|lia|by right]. rewrite !bool_decide_false by (by intros [? ?]). done.
Qed.

Lemma no_CR_unlines ls : Forall (λ l, l ≠ "" ∧ Contains l CR = false) ls → Contains (unlines ls) CR = false.
Proof.
  induction ls as [|l ls IH]; [done|]. intros [[_ Hl] Hls]%Forall_cons.
  rewrite unlines_cons, Contains_app, Hl. simpl. apply Contains_false_cons. split; [done|by apply IH].
Qed.

Lemma normalize_no_CR s : Contains s CR = false → normalizeNewlines s = s.
Proof.
  unfold normalizeNewlines. induction s as [|c s IH]; [done|]. intros [Hc Hs]%Contains_false_cons.
  cbn [replaceCRLF]. rewrite bool_decide_false by done. cbn [replaceCR]. rewrite bool_decide_false by done.
  by rewrite IH.
Qed.

Lemma cuts_ok_no_CR reads : Contains (sconcat reads) CR = false → cuts_ok reads = true.
Proof.
  induction reads as [|r reads IH]; [done|]. rewrite sconcat_cons, Contains_app. intros [Hr Hs]%orb_false_iff.
  cbn [cuts_ok]. rewrite (IH Hs), andb_true_r. unfold splits_crlf.
  destruct (HasSuffix r (String CR "")) eqn:E; [|done]. apply HasSuffix_spec in E as [t ->].
  rewrite Contains_app in Hr. apply orb_false_iff in Hr as [_ Hr]. by apply Contains_false_cons in Hr as [? _].
Qed.

Lemma slength_writes (evs : list (sseEvent Msg)) : length evs ≤ String.length (sconcat (writeEvent <$> evs)).
Proof.
  induction evs as [|ev evs IH]; [done|]. rewrite fmap_cons, sconcat_cons, writeEvent_lines, !slength_app.
  change (String.length sseLFLF) with 2. cbn [length]. lia.
Qed.

(** What the proxy writes it reads back: the events written one after the
    other, cut into reads anywhere, are the events parsed, followed by one
    event without fields, which the blank line after the last event leaves. *)
Theorem sse_write_parse_roundtrip backend end_ evs reads :
  errors_Is end_ IoEOF = true → Forall (event_ok backend) evs → evs ≠ [] →
  sconcat reads = sconcat (writeEvent <$> evs) →
  drain (newSSEEventParser reads end_ backend) = Some (evs ++ [empty_event backend], Ok end_).
Proof.
  intros Heof Hevs Hne Hr.
  assert (Contains (sconcat reads) CR = false) as Hcr.
  { rewrite Hr. clear Hne Hr. induction Hevs as [|ev evs He Hevs IH]; [done|].
    rewrite fmap_cons, sconcat_cons, writeEvent_lines, !Contains_app, IH.
    rewrite no_CR_unlines by (eapply event_lines_ok; [done|by right; left]). done. }
  destruct (drain_all_reads reads end_ backend (cuts_ok_no_CR _ Hcr)) as (r & -> & <-).
  rewrite (normalize_no_CR _ Hcr), Hr. unfold drain, setBuf. cbn [sp_backend sp_reads sp_end newSSEEventParser].
  pose proof (slength_writes evs) as Hl.
  set (fuel := S (parser_size _)).
  assert (length evs < fuel) as Hf by (unfold fuel, parser_size; cbn [sp_buf]; lia).
  pose proof (drain_written backend end_ evs "" fuel Heof Hevs ltac:(by left) Hf) as Hd.
  rewrite sapp_nil_l in Hd. rewrite Hd. by rewrite bool_decide_false by (by intros [_ ?]).
Qed.
End SseProps.

(** ** Concrete streams *)

Module Sample.
#[export] Instance rpc : JsonRpc string := {| DecodeMessage := Ok; EncodeMessage := id |}.

Definition eof : error := errors_Sentinel "EOF" IoEOF.
Definition ev1 : sseEvent string :=
  {| ev_event := "message"; ev_id := "7"; ev_messages := ["{1}"; "{2}"]; ev_backend := "b" |}.
Definition ev2 : sseEvent string :=
  {| ev_event := ""; ev_id := ""; ev_messages := ["{3}"]; ev_backend := "b" |}.
Definition text : string := sconcat (writeEvent <$> [ev1; ev2]).

Lemma sse_write_parse_roundtrip_witness :
  drain (newSSEEventParser [str_take 9 text; ""; str_drop 9 text] eof "b") =
    Some ([ev1; ev2; empty_event "b"], Ok eof).
Proof.
  apply (sse_write_parse_roundtrip "b" eof [ev1; ev2]); [reflexivity| |done|reflexivity].
  repeat constructor; try done; repeat constructor; try done.
Defined.

Definition crlf (s : string) : string := s +:+ String CR (String LF "").

Lemma drain_chunking_witness :
  ∃ r, drain (newSSEEventParser [crlf "event: a"; crlf "data: x"; crlf ""] eof "b") = Some r ∧
       drain (newSSEEventParser [crlf "event: a" +:+ "da"; "ta: x" +:+ crlf "" +:+ crlf ""] eof "b") = Some r.
Proof. apply drain_chunking; reflexivity. Defined.

(** A read that ends between CR and LF cuts an event in two: the same bytes give
    one event in one read and two events in two. *)
Lemma crlf_cut_splits_event :
  fst <$> drain (newSSEEventParser [crlf "event: a" +:+ crlf "data: x"] eof "b") =
    Some [{| ev_event := "a"; ev_id := ""; ev_messages := ["x"]; ev_backend := "b" |}] ∧
  fst <$> drain (newSSEEventParser ["event: a" +:+ String CR ""; String LF "" +:+ crlf "data: x"] eof "b") =
    Some [{| ev_event := "a"; ev_id := ""; ev_messages := []; ev_backend := "b" |};
          {| ev_event := ""; ev_id := ""; ev_messages := ["x"]; ev_backend := "b" |}].
Proof. split; reflexivity. Qed.
End Sample.
