(* ===== verification/McpSession.v ===== *)
(** * MCP sessions

    Models the composite sessions of the MCP proxy: the capability flags, session
    ids and event ids of [internal/mcpproxy/session.go], [newSession] with the
    selection of its backends, [sessionFromID] and the version negotiation of
    [internal/mcpproxy/mcpproxy.go], and the resource names and URIs and the
    forwarded headers of [internal/mcpproxy/handlers.go].  The HTTP exchanges that initialize a
    backend are arguments; logging is left out. *)

From Stdlib Require Import Ascii ZArith Lia.
From stdpp Require Import base gmap strings list sorting.
From S2P Require Import Prelude GoStrings GoHttp McpAuthz Crypto McpCrypto McpConfig.

(** ** Data *)

Record ToolCapabilities := { tc_ListChanged : bool }.
Record PromptCapabilities := { pc_ListChanged : bool }.
Record ResourceCapabilities := { rs_ListChanged : bool; rs_Subscribe : bool }.

(** [mcp.ServerCapabilities]: [Logging] and [Completions] are pointers to empty
    structs; the value of an extension is any JSON. *)
Record ServerCapabilities := {
  sc_Tools : option ToolCapabilities;
  sc_Prompts : option PromptCapabilities;
  sc_Logging : bool;
  sc_Resources : option ResourceCapabilities;
  sc_Completions : bool;
  sc_Extensions : gmap string string;
}.

Definition noCapabilities : ServerCapabilities :=
  {| sc_Tools := None; sc_Prompts := None; sc_Logging := false; sc_Resources := None; sc_Completions := false;
     sc_Extensions := ∅ |}.

Record compositeSessionEntry := {
  ce_backendName : string;
  ce_sessionID : string;
  ce_lastEventID : string;
  ce_capabilities : option ServerCapabilities;
  ce_protocolVersion : string;
}.

(** ** Capability flags *)

Definition capBitTools : Z := 1.
Definition capBitToolsListChanged : Z := 2.
Definition capBitPrompts : Z := 4.
Definition capBitPromptsListChanged : Z := 8.
Definition capBitLogging : Z := 16.
Definition capBitResources : Z := 32.
Definition capBitResourcesListChanged : Z := 64.
Definition capBitResourcesSubscribe : Z := 128.
Definition capBitCompletions : Z := 256.
Definition capBitAll : Z := 511.

(** [if cond { bits |= bit }]. *)
Definition or_bit (cond : bool) (bit bits : Z) : Z := if cond then Z.lor bits bit else bits.

Definition capabilityBits (caps : ServerCapabilities) : Z :=
  let bits := 0%Z in
  let bits := match sc_Tools caps with
              | Some t => or_bit (tc_ListChanged t) capBitToolsListChanged (Z.lor bits capBitTools)
              | None => bits
              end in
  let bits := match sc_Prompts caps with
              | Some p => or_bit (pc_ListChanged p) capBitPromptsListChanged (Z.lor bits capBitPrompts)
              | None => bits
              end in
  let bits := or_bit (sc_Logging caps) capBitLogging bits in
  let bits := match sc_Resources caps with
              | Some r => or_bit (rs_Subscribe r) capBitResourcesSubscribe
                            (or_bit (rs_ListChanged r) capBitResourcesListChanged (Z.lor bits capBitResources))
              | None => bits
              end in
  or_bit (sc_Completions caps) capBitCompletions bits.

(** [fmt.Sprintf("%03x", bits)] for [bits] below 4096. *)
Definition hex3 (bits : Z) : string :=
  let digit z := hex_digit (Z.to_nat (z mod 16)) in
  String (digit (bits / 256)%Z) (String (digit (bits / 16)%Z) (String (digit bits) "")).

Definition encodeCapabilityFlags (caps : option ServerCapabilities) : string :=
  match caps with
  | None => "000"
  | Some caps => hex3 (capabilityBits caps)
  end.

Definition hex_value (c : ascii) : option Z :=
  let n := Z.of_nat (nat_of_ascii c) in
  if (48 <=? n)%Z && (n <=? 57)%Z then Some (n - 48)%Z
  else if (97 <=? n)%Z && (n <=? 102)%Z then Some (n - 87)%Z
  else if (65 <=? n)%Z && (n <=? 70)%Z then Some (n - 55)%Z
  else None.

Fixpoint parse_hex (acc : Z) (s : string) : option Z :=
  match s with
  | "" => Some acc
  | String c s => d ← hex_value c; parse_hex (acc * 16 + d) s
  end.

(** [strconv.ParseUint(s, 16, 16)]; [None] is a syntax or a range error. *)
Definition ParseUint16 (s : string) : option Z :=
  if bool_decide (s = "") then None
  else v ← parse_hex 0 s; if (v <? 65536)%Z then Some v else None.

(** [bits&bit != 0]. *)
Definition has_bit (bits bit : Z) : bool := negb (Z.land bits bit =? 0)%Z.

Definition decodeCapabilityFlags (hex : string) : ServerCapabilities :=
  let bits := default capBitAll (ParseUint16 hex) in
  {| sc_Tools := if has_bit bits capBitTools
                 then Some {| tc_ListChanged := has_bit bits capBitToolsListChanged |} else None;
     sc_Prompts := if has_bit bits capBitPrompts
                   then Some {| pc_ListChanged := has_bit bits capBitPromptsListChanged |} else None;
     sc_Logging := has_bit bits capBitLogging;
     sc_Resources := if has_bit bits capBitResources
                     then Some {| rs_ListChanged := has_bit bits capBitResourcesListChanged;
                                  rs_Subscribe := has_bit bits capBitResourcesSubscribe |} else None;
     sc_Completions := has_bit bits capBitCompletions;
     sc_Extensions := ∅ |}.

(** ** Session ids *)

(** The text before and after the last separator ([strings.LastIndex]). *)
Fixpoint cut_last (c : ascii) (s : string) : option (string * string) :=
  match s with
  | "" => None
  | String d s =>
      match cut_last c s with
      | Some (a, b) => Some (String d a, b)
      | None => if bool_decide (d = c) then Some ("", s) else None
      end
  end.

(** What the loop writes for one entry. *)
Definition entryText (entry : compositeSessionEntry) : string :=
  ce_backendName entry +:+ ":" +:+ EncodeToString StdEncoding (ce_sessionID entry) +:+ ":" +:+
  encodeCapabilityFlags (ce_capabilities entry) +:+ ",".

(** The last character is cut off: the trailing comma of the last entry. *)
Definition clientToGatewaySessionIDFromEntries (subject : string) (entries : list compositeSessionEntry)
    (routeName : string) : string :=
  let b := subject +:+ "@" +:+ sconcat (entryText <$> entries) in
  routeName +:+ "@" +:+ str_take (String.length b - 1) b.

(** [fmt.Errorf("%w suffix", err)]. *)
Definition Errorf_suffix (e : error) (suffix : string) : error := Err (err_msg e +:+ suffix) (err_chain e).

Section Sessions.
Context `{CR : !Crypto} `{L : !AuthzLib} `{CE : !AuthzCel} `{RX : !Regexps} (corruptInput : string → error).

Definition missingAt : error := errors_New "invalid session ID: missing '@' separator".

(** One turn of the loop over the backend parts. *)
Definition parseBackendPart (sessions : gmap string compositeSessionEntry) (part : string) :
    outcome (gmap string compositeSessionEntry) :=
  match SplitN part ":" 3 with
  | backendName :: sessionIDBase64 :: caps =>
      if bool_decide (backendName = "") then
        Fail (errors_New ("invalid session ID: empty backend name in part " +:+ Quote part))
      else
        let! sessionID :=
          if bool_decide (sessionIDBase64 ≠ "") then
            match DecodeString StdEncoding sessionIDBase64 with
            | Some decoded => Ok decoded
            | None => Fail (Errorf_w ("invalid session ID: failed to base64 decode session ID in part " +:+
                                      Quote part +:+ ": ") (corruptInput sessionIDBase64))
            end
          else Ok "" in
        let caps := match caps with
                    | [c] => decodeCapabilityFlags c
                    | _ => decodeCapabilityFlags ""
                    end in
        Ok (<[backendName := {| ce_backendName := backendName; ce_sessionID := sessionID; ce_lastEventID := "";
                                ce_capabilities := Some caps; ce_protocolVersion := "" |}]> sessions)
  | _ => Fail (errors_New ("invalid session ID: missing ':' separator in backend session ID part " +:+ Quote part))
  end.

(** The sessions, the route and the subject of a session id. *)
Definition backendSessionIDs (id : string) : outcome (gmap string compositeSessionEntry * string * string) :=
  match cut_last "@" id with
  | None => Fail missingAt
  | Some (prefix, backendSessions) =>
      match cut_at "@" prefix with
      | None => Fail missingAt
      | Some (route, subject) =>
          let! sessions := ofold parseBackendPart ∅ (Split backendSessions ",") in
          Ok (sessions, route, subject)
      end
  end.

(** ** Event ids *)

(** [lastEventID] before it is encrypted, for the order in which the map is
    visited; the slice panics on an empty map. *)
Definition lastEventIDText (entries : list (string * compositeSessionEntry)) : outcome string :=
  let b := sconcat ((λ e, ce_backendName e.2 +:+ ":" +:+ EncodeToString StdEncoding (ce_lastEventID e.2) +:+ ",")
                    <$> entries) in
  if bool_decide (b = "") then Panic "slice bounds out of range [:-1]"
  else Ok (str_take (String.length b - 1) b).

Definition parseEventPart (result : gmap string string) (part : string) : gmap string string :=
  match cut_at ":" part with
  | None => result
  | Some (backendName, eventID) =>
      if bool_decide (backendName = "") then result
      else if bool_decide (eventID ≠ "") then
        match DecodeString StdEncoding eventID with
        | Some decoded => <[backendName := decoded]> result
        | None => result
        end
      else <[backendName := eventID]> result
  end.

Definition backendEventIDs (e : string) : gmap string string := foldl parseEventPart ∅ (Split e ",").

(** ** Forwarded headers *)

(** The loops over header names leave [nil] for an empty result. *)
Definition nonEmptyMap {V} (result : gmap string V) : option (gmap string V) :=
  if bool_decide (dom result = ∅) then None else Some result.

Definition extractForwardHeaders (reqHeaders : http_Header) (headers : list string) : option (gmap string string) :=
  if bool_decide (headers = []) then None
  else nonEmptyMap (foldl (λ result header,
         if bool_decide (Header_Get reqHeaders header ≠ "") then <[header := Header_Get reqHeaders header]> result else result) ∅ headers).

Definition extractPerBackendForwardHeaders (reqHeaders : http_Header) (mappings : list MCPHeaderForward) :
    option (gmap string string) :=
  match mappings with
  | [] => None
  | _ => nonEmptyMap (foldl (λ result m,
           if bool_decide (Header_Get reqHeaders (hf_Name m) ≠ "")
           then <[ForwardName m := Header_Get reqHeaders (hf_Name m)]> result else result) ∅ mappings)
  end.

(** [range] visits the backends. *)
Definition extractPerBackendHeaders (range : gmap string MCPBackend → list (string * MCPBackend))
    (requestHeaders : http_Header) (backends : gmap string MCPBackend) : option (gmap string (gmap string string)) :=
  if bool_decide (backends = ∅) then None
  else nonEmptyMap (foldl (λ perBackendHeaders p,
         match mb_ForwardHeaders p.2 with
         | [] => perBackendHeaders
         | fs => match extractPerBackendForwardHeaders requestHeaders fs with
                 | Some h => <[mb_Name p.2 := h]> perBackendHeaders
                 | None => perBackendHeaders
                 end
         end) ∅ (range backends)).

(** ** Creating and resuming a session *)

Definition errSessionSubjectMismatch : error := errors_Sentinel "session ID was issued for a different authenticated subject" ErrSessionSubjectMismatch.
Definition errSessionRouteMismatch : error := errors_Sentinel "session ID was issued for a different route" ErrSessionRouteMismatch.
Definition errNoMatchingBackendSelector : error := errors_Sentinel "backendSelector matches no route backends" ErrNoMatchingBackendSelector.

Record session := {
  ss_id : string;
  ss_route : string;
  ss_perBackendSessions : gmap string compositeSessionEntry;
  ss_extraHeaders : option (gmap string string);
  ss_perBackendExtraHeaders : option (gmap string (gmap string string));
}.

Definition setLastEventID (id : string) (e : compositeSessionEntry) : compositeSessionEntry :=
  {| ce_backendName := ce_backendName e; ce_sessionID := ce_sessionID e; ce_lastEventID := id;
     ce_capabilities := ce_capabilities e; ce_protocolVersion := ce_protocolVersion e |}.

(** [for backend, eventID := range eventIDs]. *)
Definition applyEventIDs (eventIDs : list (string * string)) (sessions : gmap string compositeSessionEntry) :
    gmap string compositeSessionEntry :=
  foldl (λ m p, match m !! p.1 with Some e => <[p.1 := setLastEventID p.2 e]> m | None => m end) sessions eventIDs.

(** The request context: the routes, the headers of the request, the current
    session crypto, the orders of the map ranges, the source of random bytes, and
    the HTTP exchange of [initializeSession], which gives the session id, the
    capabilities and the protocol version of a backend, or an error. *)
Record mcpRequestContext := {
  rc_routes : gmap string mcpProxyConfigRoute;
  rc_requestHeaders : http_Header;
  rc_sessionCrypto : SessionCrypto;
  rc_rangeEvents : gmap string string → list (string * string);
  rc_rangeBackends : gmap string MCPBackend → list (string * MCPBackend);
  rc_rangeHeaders : http_Header → list (string * list string);
  rc_initializeSession : MCPBackend → outcome (string * option ServerCapabilities * string);
  rc_rand : nat → nat → outcome string;
}.

(** The request of the backend selector: no tool, no method. *)
Definition selectorRequest (headers : http_Header) (backend : string) : authorizationRequest :=
  {| rq_Headers := headers; rq_HTTPMethod := ""; rq_Host := ""; rq_HTTPPath := ""; rq_MCPMethod := "";
     rq_Backend := backend; rq_Tool := ""; rq_Params := None |}.

(** One turn of the loop over the candidate backends; the context is shared. *)
Definition selectBody (m : mcpRequestContext) (selector : compiledAuthorization)
    (acc : authzContext * gmap string MCPBackend) (p : string * MCPBackend) : authzContext * gmap string MCPBackend :=
  let '(ac, (allowed, _)) :=
    authorizeRequestWith (rc_rangeHeaders m) selector (selectorRequest (rc_requestHeaders m) p.1) acc.1 in
  (ac, if allowed then <[p.1 := p.2]> acc.2 else acc.2).

Definition selectAuthorizedBackends (m : mcpRequestContext) (routeName : string) (route : mcpProxyConfigRoute) :
    outcome (gmap string MCPBackend) :=
  match rt_backendSelector route with
  | None => Ok (rt_backends route)
  | Some selector =>
      let authzCtx := newAuthzContext (selectorRequest (rc_requestHeaders m) "") (ca_VerifiedJWT selector) in
      let filtered := (foldl (selectBody m selector) (authzCtx, ∅) (rc_rangeBackends m (rt_backends route))).2 in
      if bool_decide (dom filtered = ∅) then
        Fail (Errorf_suffix errNoMatchingBackendSelector (" for route " +:+ routeName))
      else Ok filtered
  end.

(** What the goroutine of one backend leaves in its slot: the zero entry when
    the initialization fails. *)
Definition initEntry (m : mcpRequestContext) (backend : MCPBackend) : compositeSessionEntry :=
  match rc_initializeSession m backend with
  | Ok (sessionID, capabilities, protocolVersion) =>
      {| ce_backendName := mb_Name backend; ce_sessionID := sessionID; ce_lastEventID := "";
         ce_capabilities := capabilities; ce_protocolVersion := protocolVersion |}
  | _ => {| ce_backendName := ""; ce_sessionID := ""; ce_lastEventID := ""; ce_capabilities := None;
            ce_protocolVersion := "" |}
  end.

(** The goroutines write to different slots, so their order does not matter. *)
Definition newSession (m : mcpRequestContext) (routeName subject : string) : outcome session :=
  match rc_routes m !! routeName with
  | None => Fail (errors_New ("no backends found for route " +:+ routeName))
  | Some backends =>
      let forwardHeaders := extractForwardHeaders (rc_requestHeaders m) (rt_forwardHeaders backends) in
      let! selectedBackends := selectAuthorizedBackends m routeName backends in
      let perBackendHeaders := extractPerBackendHeaders (rc_rangeBackends m) (rc_requestHeaders m) selectedBackends in
      let entries := (λ p, initEntry m p.2) <$> rc_rangeBackends m selectedBackends in
      let finalEntries := filter (λ e, ce_backendName e ≠ "") entries in
      match finalEntries with
      | [] => Fail (errors_New "failed to create MCP session to any backend")
      | _ =>
          let! encrypted := owrap "failed to encrypt session ID: "
            (Encrypt (rc_rand m) (rc_sessionCrypto m) (clientToGatewaySessionIDFromEntries subject finalEntries routeName)) in
          Ok {| ss_id := encrypted; ss_route := routeName;
                ss_perBackendSessions := insert_all ((λ e, (ce_backendName e, e)) <$> finalEntries) ∅;
                ss_extraHeaders := forwardHeaders; ss_perBackendExtraHeaders := perBackendHeaders |}
      end
  end.

(** The backends its goroutines send an initialize request to. *)
Definition initializedBackends (m : mcpRequestContext) (routeName : string) : list string :=
  match rc_routes m !! routeName with
  | None => []
  | Some backends =>
      match selectAuthorizedBackends m routeName backends with
      | Ok selectedBackends => (λ p, mb_Name p.2) <$> rc_rangeBackends m selectedBackends
      | _ => []
      end
  end.

Definition sessionFromID (m : mcpRequestContext) (id lastEvent currentRoute currentSubject : string) : outcome session :=
  let! decrypted := owrap "failed to decrypt session ID: " (Decrypt corruptInput (rc_sessionCrypto m) id) in
  let! parsed := backendSessionIDs decrypted in
  let '(sessions, route, subject) := parsed in
  if bool_decide (route ≠ currentRoute) then Fail errSessionRouteMismatch
  else if bool_decide (subject ≠ currentSubject) then Fail errSessionSubjectMismatch
  else
    let! sessions :=
      if bool_decide (lastEvent ≠ "") then
        let! decryptedEventID :=
          owrap "failed to decrypt last event ID: " (Decrypt corruptInput (rc_sessionCrypto m) lastEvent) in
        Ok (applyEventIDs (rc_rangeEvents m (backendEventIDs decryptedEventID)) sessions)
      else Ok sessions in
    Ok {| ss_id := id; ss_route := route; ss_perBackendSessions := sessions;
          ss_extraHeaders := rc_routes m !! route ≫= λ c,
            extractForwardHeaders (rc_requestHeaders m) (rt_forwardHeaders c);
          ss_perBackendExtraHeaders := rc_routes m !! route ≫= λ c,
            extractPerBackendHeaders (rc_rangeBackends m) (rc_requestHeaders m) (rt_backends c) |}.

(** [session.setLastEventID] and [session.lastEventID]; an encryption error gives no id. *)
Definition session_setLastEventID (backend lastEventID : string) (s : session) : session :=
  match ss_perBackendSessions s !! backend with
  | None => s
  | Some e => {| ss_id := ss_id s; ss_route := ss_route s;
                 ss_perBackendSessions := <[backend := setLastEventID lastEventID e]> (ss_perBackendSessions s);
                 ss_extraHeaders := ss_extraHeaders s; ss_perBackendExtraHeaders := ss_perBackendExtraHeaders s |}
  end.

Definition session_lastEventID (order : gmap string compositeSessionEntry → list (string * compositeSessionEntry))
    (rand : nat → nat → outcome string) (sessionCrypto : SessionCrypto) (s : session) : outcome string :=
  let! text := lastEventIDText (order (ss_perBackendSessions s)) in
  match Encrypt rand sessionCrypto text with
  | Fail _ => Ok ""
  | r => r
  end.
End Sessions.

(** ** Merging what the backends report *)

(** The bytewise order on Go strings. *)
Fixpoint string_ltb (s t : string) : bool :=
  match s, t with
  | _, "" => false
  | "", _ => true
  | String c s, String d t =>
      if bool_decide (c = d) then string_ltb s t else nat_of_ascii c <? nat_of_ascii d
  end.

Definition protocolVersion20250618 : string := "2025-06-18".

(** The highest version of one backend. *)
Definition backendMax (versions : list string) : string :=
  foldl (λ m v, if bool_decide (v = "") then m else if string_ltb m v then v else m) "" versions.

Definition minBody (backendMin : string) (versions : list string) : string :=
  let m := backendMax versions in
  if bool_decide (m = "") then backendMin
  else if bool_decide (backendMin = "") || string_ltb m backendMin then m else backendMin.

Definition mergedProtocolVersion (clientVersion : string) (backends : list (list string)) : string :=
  let floor := protocolVersion20250618 in
  let backendMin := foldl minBody "" backends in
  if bool_decide (backendMin = "") then floor
  else
    let merged := backendMin in
    let merged := if bool_decide (clientVersion ≠ "") && string_ltb clientVersion merged then clientVersion else merged in
    if string_ltb merged floor then floor else merged.

(** One turn of [unionServerCapabilities]; [range] visits the extensions. *)
Definition unionBody (range : gmap string string → list (string * string)) (merged : ServerCapabilities)
    (caps : option ServerCapabilities) : ServerCapabilities :=
  match caps with
  | None => merged
  | Some caps =>
      {| sc_Tools := match sc_Tools caps with
                     | Some t => Some {| tc_ListChanged := from_option tc_ListChanged false (sc_Tools merged) || tc_ListChanged t |}
                     | None => sc_Tools merged
                     end;
         sc_Prompts := match sc_Prompts caps with
                       | Some p => Some {| pc_ListChanged := from_option pc_ListChanged false (sc_Prompts merged) || pc_ListChanged p |}
                       | None => sc_Prompts merged
                       end;
         sc_Logging := sc_Logging merged || sc_Logging caps;
         sc_Resources := match sc_Resources caps with
                         | Some r => Some {| rs_ListChanged := from_option rs_ListChanged false (sc_Resources merged) || rs_ListChanged r;
                                             rs_Subscribe := from_option rs_Subscribe false (sc_Resources merged) || rs_Subscribe r |}
                         | None => sc_Resources merged
                         end;
         sc_Completions := sc_Completions merged || sc_Completions caps;
         sc_Extensions := foldl (λ m p, match m !! p.1 with Some _ => m | None => <[p.1 := p.2]> m end)
                            (sc_Extensions merged) (range (sc_Extensions caps)) |}
  end.

Definition unionServerCapabilities (range : gmap string string → list (string * string))
    (all : list (option ServerCapabilities)) : ServerCapabilities :=
  foldl (unionBody range) noCapabilities all.

(** [session.mergedCapabilities] and [session.mergedProtocolVersion]; [order]
    visits the sessions. *)
Definition session_mergedCapabilities (order : gmap string compositeSessionEntry → list (string * compositeSessionEntry))
    (range : gmap string string → list (string * string)) (s : session) : ServerCapabilities :=
  unionServerCapabilities range ((λ p, ce_capabilities p.2) <$> order (ss_perBackendSessions s)).

(** [slices.SortFunc] by name with [strings.Compare]. *)
Definition name_le (a b : string * list string) : Prop := string_ltb b.1 a.1 = false.
#[global] Instance name_le_dec a b : Decision (name_le a b).
Proof. unfold name_le. apply _. Defined.

Definition session_mergedProtocolVersion
    (order : gmap string compositeSessionEntry → list (string * compositeSessionEntry))
    (s : session) (clientVersion : string) : string :=
  let backends := (λ p, (p.1, [ce_protocolVersion p.2])) <$> order (ss_perBackendSessions s) in
  mergedProtocolVersion clientVersion (merge_sort name_le backends).*2.

(** ** Names and URIs of resources *)

Definition nameSeparator : string := "__".

Definition downstreamResourceName (name backendName : string) : string := backendName +:+ nameSeparator +:+ name.

Definition upstreamResourceName (fullName : string) : outcome (string * string) :=
  match Index fullName nameSeparator with
  | None => Fail (errors_New ("invalid resource name: " +:+ fullName))
  | Some index => Ok (str_take index fullName, str_drop (index + String.length nameSeparator) fullName)
  end.

Definition uiSchemePrefix : string := "ui://".

Definition downstreamResourceURI (uri backendName : string) : string :=
  if HasPrefix uri uiSchemePrefix
  then uiSchemePrefix +:+ backendName +:+ "/" +:+ str_drop (String.length uiSchemePrefix) uri
  else backendName +:+ "+" +:+ uri.

Definition upstreamResourceURI (fullURI : string) : outcome (string * string) :=
  let invalid := Fail (errors_New ("invalid resource URI: " +:+ fullURI)) in
  if HasPrefix fullURI uiSchemePrefix then
    match cut_at "/" (str_drop (String.length uiSchemePrefix) fullURI) with
    | Some (backendName, rest) =>
        if bool_decide (backendName = "") then invalid else Ok (backendName, uiSchemePrefix +:+ rest)
    | None => invalid
    end
  else
    match SplitN fullURI "+" 2 with
    | [backendName; uri] => Ok (backendName, uri)
    | _ => invalid
    end.

(** ** Properties of session ids *)

(** What survives in an id: everything but the extensions. *)
Definition flags_of (caps : option ServerCapabilities) : ServerCapabilities :=
  match caps with
  | None => noCapabilities
  | Some c => {| sc_Tools := sc_Tools c; sc_Prompts := sc_Prompts c; sc_Logging := sc_Logging c;
                 sc_Resources := sc_Resources c; sc_Completions := sc_Completions c; sc_Extensions := ∅ |}
  end.

(** The three hexadecimal digits of a session id carry every capability and
    sub-capability of a backend. *)
Lemma capability_flags_roundtrip caps : decodeCapabilityFlags (encodeCapabilityFlags caps) = flags_of caps.
Proof.
  destruct caps as [[[[[]]|] [[[]]|] [] [[[] []]|] [] ext]|]; reflexivity.
Qed.

Lemma cut_last_app c s t : Contains t c = false → cut_last c (s +:+ String c t) = Some (s, t).
Proof.
  intros Ht. assert (cut_last c t = None) as Hn.
  { induction t as [|d t IH]; [done|]. apply Contains_false_cons in Ht as [Hd Ht]. simpl.
    rewrite (IH Ht). by rewrite bool_decide_false. }
  induction s as [|d s IH]; rewrite ?sapp_nil_l, ?sapp_cons; simpl.
  - by rewrite Hn, bool_decide_true.
  - by rewrite IH.
Qed.

Lemma cut_last_Some c s a b : cut_last c s = Some (a, b) → s = a +:+ String c b ∧ Contains b c = false.
Proof.
  assert (∀ t, cut_last c t = None → Contains t c = false) as Hn.
  { induction t as [|d t IH]; [done|]. simpl. destruct (cut_last c t) as [[? ?]|]; [done|].
    case_bool_decide; [done|]. intros _. by apply Contains_false_cons; auto. }
  revert a. induction s as [|d s IH]; intros a; [done|]. simpl.
  destruct (cut_last c s) as [[a' b']|] eqn:E.
  - intros [= <- <-]. destruct (IH a' eq_refl) as [-> Hb]. by rewrite sapp_cons.
  - case_bool_decide as Hd; [|done]. intros [= <- <-]. subst. rewrite sapp_nil_l. auto.
Qed.

(** The text of one entry without its comma. *)
Definition entryPart (entry : compositeSessionEntry) : string :=
  ce_backendName entry +:+ String ":" (EncodeToString StdEncoding (ce_sessionID entry) +:+
    String ":" (encodeCapabilityFlags (ce_capabilities entry))).

Definition session_separators : list ascii := ["@"; ":"; ","]%char.

(** A backend name without the separators of the format (Kubernetes names). *)
Definition name_ok (name : string) : Prop := name ≠ "" ∧ Forall (λ c, Contains name c = false) session_separators.

Lemma name_ok_sep name c : name_ok name → c ∈ session_separators → Contains name c = false.
Proof. intros [_ H] Hc. by apply (proj1 (Forall_forall _ _) H). Qed.

Lemma encodeCapabilityFlags_no_sep caps c :
  c ∈ session_separators → Contains (encodeCapabilityFlags caps) c = false.
Proof.
  intros [->|[->|[->|[]%elem_of_nil]%elem_of_cons]%elem_of_cons]%elem_of_cons;
    destruct caps as [[[[[]]|] [[[]]|] [] [[[] []]|] [] ext]|]; reflexivity.
Qed.

Lemma base64_no_sep s c : c ∈ session_separators → Contains (EncodeToString StdEncoding s) c = false.
Proof.
  intros Hc. apply EncodeToString_no_sep; [apply StdEncoding_ok|].
  apply elem_of_cons in Hc as [->|[->|[->|[]%elem_of_nil]%elem_of_cons]%elem_of_cons];
    apply (bool_decide_unpack _); vm_compute; exact I.
Qed.

Lemma entryPart_no_sep e c : name_ok (ce_backendName e) → c ∈ ["@"; ","]%char → Contains (entryPart e) c = false.
Proof.
  intros Hn Hc. assert (c ∈ session_separators ∧ ":"%char ≠ c) as [Hs Hne].
  { apply elem_of_cons in Hc as [->|[->|[]%elem_of_nil]%elem_of_cons];
      (split; [unfold session_separators; auto 10 with router|done]). }
  unfold entryPart. rewrite Contains_app, (name_ok_sep _ _ Hn Hs). simpl.
  apply Contains_false_cons. split; [done|]. rewrite Contains_app, (base64_no_sep _ _ Hs). simpl.
  apply Contains_false_cons. split; [done|]. by apply encodeCapabilityFlags_no_sep.
Qed.

Lemma Join_snoc_sep (l : list string) c : l ≠ [] → sconcat ((λ s, s +:+ String c "") <$> l) = Join l c +:+ String c "".
Proof.
  induction l as [|s [|t l] IH]; [done|..]; intros _.
  - cbn. by rewrite sapp_nil_r.
  - rewrite fmap_cons, sconcat_cons, IH, Join_cons by done. by rewrite <-!sapp_assoc, sapp_cons.
Qed.

Lemma Join_no_sep l c d : Forall (λ s, Contains s d = false) l → c ≠ d → Contains (Join l c) d = false.
Proof.
  induction l as [|s [|t l] IH]; intros Hl Hc; [done|by apply Forall_cons in Hl as [? _]|].
  apply Forall_cons in Hl as [Hs Hl]. rewrite Join_cons, Contains_app, Hs. simpl.
  apply Contains_false_cons. split; [done|]. by apply IH.
Qed.

Lemma sessionID_text subject entries route :
  entries ≠ [] →
  clientToGatewaySessionIDFromEntries subject entries route =
    (route +:+ String "@" subject) +:+ String "@" (Join (entryPart <$> entries) ",").
Proof.
  intros Hne. unfold clientToGatewaySessionIDFromEntries.
  assert (sconcat (entryText <$> entries) = Join (entryPart <$> entries) "," +:+ ",") as ->.
  { rewrite <-Join_snoc_sep by (by destruct entries). f_equal. rewrite <-list_fmap_compose.
    apply list_fmap_ext. intros _ e _. unfold compose, entryText, entryPart. by rewrite <-!sapp_assoc, ?sapp_cons, ?sapp_nil_l, <-?sapp_assoc, ?sapp_cons. }
  rewrite !sapp_assoc. rewrite (str_take_app' _ ((subject +:+ "@") +:+ Join (entryPart <$> entries) ",")).
  - by rewrite <-!sapp_assoc.
  - rewrite (slength_app _ ","). simpl. lia.
Qed.

(** What is restored of an entry. *)
Definition restored (e : compositeSessionEntry) : compositeSessionEntry :=
  {| ce_backendName := ce_backendName e; ce_sessionID := ce_sessionID e; ce_lastEventID := "";
     ce_capabilities := Some (flags_of (ce_capabilities e)); ce_protocolVersion := "" |}.

Section SessionProps.
Context `{CR : !Crypto} `{CL : !CryptoLaws CR} `{L : !AuthzLib} `{CE : !AuthzCel} `{RX : !Regexps} (corruptInput : string → error).

Lemma parseBackendPart_entry m e :
  name_ok (ce_backendName e) →
  parseBackendPart corruptInput m (entryPart e) = Ok (<[ce_backendName e := restored e]> m).
Proof.
  intros Hn. unfold parseBackendPart, entryPart.
  assert (":"%char ∈ session_separators) as Hc by (unfold session_separators; auto with router).
  rewrite SplitN_app by (by apply name_ok_sep).
  rewrite SplitN_app by (by apply base64_no_sep). rewrite SplitN_1.
  rewrite (bool_decide_false (ce_backendName e = "")) by apply Hn.
  rewrite (base64_roundtrip _ StdEncoding_ok).
  rewrite capability_flags_roundtrip. unfold restored. case_bool_decide as Hs; [done|].
  rewrite EncodeToString_empty in Hs. by rewrite Hs.
Qed.

(** A session id names the sessions it was made of: parsing it gives back the
    route, the subject (which may itself contain the separator), and for every
    backend its session id and capabilities, byte for byte. *)
Lemma session_id_roundtrip subject entries route :
  entries ≠ [] → Forall (λ e, name_ok (ce_backendName e)) entries → Contains route "@" = false →
  backendSessionIDs corruptInput (clientToGatewaySessionIDFromEntries subject entries route) =
    Ok (insert_all ((λ e, (ce_backendName e, restored e)) <$> entries) ∅, route, subject).
Proof.
  intros Hne Hn Hr. unfold backendSessionIDs. rewrite sessionID_text by done.
  assert (∀ c, c ∈ ["@"; ","]%char → Forall (λ s, Contains s c = false) (entryPart <$> entries)) as Hsep.
  { intros c Hc. apply Forall_fmap. eapply Forall_impl; [exact Hn|]. intros e He. by apply entryPart_no_sep. }
  rewrite cut_last_app by (apply Join_no_sep; [apply Hsep; left|done]).
  rewrite cut_at_app by done.
  rewrite Split_Join by first [by destruct entries|apply Hsep; right; left].
  assert (∀ m, ofold (parseBackendPart corruptInput) m (entryPart <$> entries) =
            Ok (insert_all ((λ e, (ce_backendName e, restored e)) <$> entries) m)) as ->; [|done].
  clear Hne Hsep. induction entries as [|e entries IH]; intros m; [done|].
  apply Forall_cons in Hn as [He Hn]. rewrite !fmap_cons. cbn [ofold]. rewrite parseBackendPart_entry by done.
  cbn [obind]. rewrite (IH Hn). done.
Qed.

(** *** Who may resume a session *)

Lemma backendSessionIDs_shape id sessions route subject :
  backendSessionIDs corruptInput id = Ok (sessions, route, subject) →
  ∃ backends, id = route +:+ "@" +:+ subject +:+ "@" +:+ backends ∧
    Contains route "@" = false ∧ Contains backends "@" = false.
Proof.
  unfold backendSessionIDs. destruct (cut_last "@" id) as [[prefix backends]|] eqn:E; [|done].
  apply cut_last_Some in E as [-> Hb]. destruct (cut_at "@" prefix) as [[r u]|] eqn:E; [|done].
  apply cut_at_Some in E as [-> Hr]. intros (m & _ & [= <- <- <-])%obind_ok_inv.
  exists backends. split; [|done]. by rewrite <-!sapp_assoc, !sapp_cons, sapp_nil_l, <-?sapp_assoc.
Qed.

Lemma backendSessionIDs_parts route subject backends sessions r u :
  Contains route "@" = false → Contains backends "@" = false →
  backendSessionIDs corruptInput (route +:+ "@" +:+ subject +:+ "@" +:+ backends) = Ok (sessions, r, u) →
  ofold (parseBackendPart corruptInput) ∅ (Split backends ",") = Ok sessions.
Proof.
  intros Hr Hb. replace (route +:+ _) with ((route +:+ String "@" subject) +:+ String "@" backends)
    by (by rewrite <-!sapp_assoc, !sapp_cons, sapp_nil_l).
  unfold backendSessionIDs. rewrite cut_last_app, cut_at_app by done. by intros (m & -> & [= <- _ _])%obind_ok_inv.
Qed.

Lemma applyEventIDs_sessions l m : setLastEventID "" <$> applyEventIDs l m = setLastEventID "" <$> m.
Proof.
  revert m. induction l as [|[k id] l IH]; intros m; [done|]. unfold applyEventIDs in *. cbn [foldl].
  rewrite IH. simpl. destruct (m !! k) as [e|] eqn:E; [|done].
  rewrite fmap_insert. apply map_eq. intros j. rewrite lookup_insert, lookup_fmap. case_decide as Hj; [|done].
  subst j. by rewrite E.
Qed.

Lemma sessionFromID_sealed (m : mcpRequestContext) id lastEvent route subject s :
  sessionFromID corruptInput m id lastEvent route subject = Ok s →
  ss_id s = id ∧ ss_route s = route ∧
  ∃ p backends sessions, p ∈ keys_of (rc_sessionCrypto m) ∧
    sealed_under p id (route +:+ "@" +:+ subject +:+ "@" +:+ backends) ∧
    Contains route "@" = false ∧ Contains backends "@" = false ∧
    ofold (parseBackendPart corruptInput) ∅ (Split backends ",") = Ok sessions ∧
    setLastEventID "" <$> ss_perBackendSessions s = setLastEventID "" <$> sessions.
Proof.
  intros (text & Hd%owrap_ok_inv & ([[sessions r] u] & Hp & H)%obind_ok_inv)%obind_ok_inv.
  case_bool_decide as Hr; [done|]. case_bool_decide as Hu; [done|].
  subst r u.
  apply obind_ok_inv in H as (sessions' & Hs & [= <-]). simpl. split_and!; [done..|].
  apply Decrypt_authentic in Hd as (p & Hp' & Hsealed).
  destruct (backendSessionIDs_shape _ _ _ _ Hp) as (backends & -> & Hr & Hb).
  exists p, backends, sessions. split_and!; try done.
  - eapply backendSessionIDs_parts; [exact Hr|exact Hb|exact Hp].
  - case_bool_decide; [|by injection Hs as <-].
    apply obind_ok_inv in Hs as (ev & _ & [= <-]). by rewrite applyEventIDs_sessions.
Qed.

(** C18: no hijacking: whatever text a client presents, a session is resumed only
    if the text was sealed under a configured key for the caller's own route and
    authenticated subject, with exactly the backend sessions that were sealed;
    the event id the client sends along changes none of them. *)
Theorem resumed_session_is_callers (m : mcpRequestContext) id lastEvent route subject s :
  sessionFromID corruptInput m id lastEvent route subject = Ok s →
  ss_id s = id ∧ ss_route s = route ∧
  ∃ p backends sessions, p ∈ keys_of (rc_sessionCrypto m) ∧
    sealed_under p id (route +:+ "@" +:+ subject +:+ "@" +:+ backends) ∧
    Contains route "@" = false ∧ Contains backends "@" = false ∧
    ofold (parseBackendPart corruptInput) ∅ (Split backends ",") = Ok sessions ∧
    setLastEventID "" <$> ss_perBackendSessions s = setLastEventID "" <$> sessions.
Proof. apply sessionFromID_sealed. Qed.

(** *** Resuming *)

Lemma insert_all_fmap {V W} (f : V → W) l (m : gmap string V) :
  f <$> insert_all l m = insert_all ((λ p, (p.1, f p.2)) <$> l) (f <$> m).
Proof.
  revert m. induction l as [|p l IH]; intros m; [done|]. cbn. unfold insert_all in *. cbn.
  rewrite IH. by rewrite fmap_insert.
Qed.

(** What [newSession] builds. *)
Lemma newSession_inv (m : mcpRequestContext) route subject s :
  newSession m route subject = Ok s →
  ∃ entries, entries ≠ [] ∧ Encrypt (rc_rand m) (rc_sessionCrypto m)
      (clientToGatewaySessionIDFromEntries subject entries route) = Ok (ss_id s) ∧
    ss_route s = route ∧ ss_perBackendSessions s = insert_all ((λ e, (ce_backendName e, e)) <$> entries) ∅.
Proof.
  unfold newSession. destruct (rc_routes m !! route) as [c|]; [|done].
  intros (backends & _ & H)%obind_ok_inv. revert H.
  destruct (filter _ _) as [|e entries] eqn:E; [done|].
  intros (enc & He%owrap_ok_inv & [= <-])%obind_ok_inv. by exists (e :: entries).
Qed.

Lemma keys_ok entries :
  map_Forall (λ n _, name_ok n) (insert_all ((λ e, (ce_backendName e, e)) <$> entries) ∅) →
  Forall (λ e, name_ok (ce_backendName e)) entries.
Proof.
  intros H. apply Forall_forall. intros e He.
  destruct (last_binding (ce_backendName e) ((λ e, (ce_backendName e, e)) <$> entries)) as [e'|] eqn:E.
  - apply (H (ce_backendName e) e'). by rewrite lookup_insert_all, E.
  - apply last_binding_None in E. destruct E. rewrite <-list_fmap_compose. apply list_elem_of_fmap. by exists e.
Qed.

Lemma session_text_parses (m : mcpRequestContext) c' route subject s :
  newSession m route subject = Ok s → fills (rc_rand m) → accepts corruptInput c' (rc_sessionCrypto m) (ss_id s) →
  Contains route "@" = false → map_Forall (λ n _, name_ok n) (ss_perBackendSessions s) →
  ∃ text, Decrypt corruptInput c' (ss_id s) = Ok text ∧
    backendSessionIDs corruptInput text = Ok (restored <$> ss_perBackendSessions s, route, subject).
Proof.
  intros (entries & Hne & He & _ & Hs)%newSession_inv Hf Ha Hr Hn. rewrite Hs in Hn |- *.
  eexists. split; [by eapply Decrypt_accepts|].
  rewrite session_id_roundtrip by auto using keys_ok. by rewrite insert_all_fmap, fmap_empty, <-list_fmap_compose.
Qed.

(** C19: a created session is resumed by exactly its owner: with the id, the same
    route and the same subject the session comes back with every backend's
    session id and capabilities; another route or another subject is refused,
    each with its own error.  It stays so after the encryption key was rotated
    with the old key as fallback. *)
Theorem session_resumes_for_owner (m m' : mcpRequestContext) route subject s route' subject' :
  newSession m route subject = Ok s → fills (rc_rand m) →
  accepts corruptInput (rc_sessionCrypto m') (rc_sessionCrypto m) (ss_id s) →
  Contains route "@" = false → map_Forall (λ n _, name_ok n) (ss_perBackendSessions s) →
  if decide (route = route') then
    if decide (subject = subject') then
      ∃ s', sessionFromID corruptInput m' (ss_id s) "" route' subject' = Ok s' ∧
        ss_id s' = ss_id s ∧ ss_route s' = ss_route s ∧
        ss_perBackendSessions s' = restored <$> ss_perBackendSessions s
    else sessionFromID corruptInput m' (ss_id s) "" route' subject' = Fail errSessionSubjectMismatch
  else sessionFromID corruptInput m' (ss_id s) "" route' subject' = Fail errSessionRouteMismatch.
Proof.
  intros Hnew Hf Ha Hr Hn. destruct (session_text_parses _ _ _ _ _ Hnew Hf Ha Hr Hn) as (text & Hd & Hp).
  unfold sessionFromID. rewrite Hd. cbn [owrap obind]. rewrite Hp. cbn [obind].
  destruct (decide (route = route')) as [<-|Hne]; [|by rewrite bool_decide_true].
  rewrite (bool_decide_false (route ≠ route)) by auto.
  destruct (decide (subject = subject')) as [<-|Hne]; [|by rewrite bool_decide_true].
  rewrite (bool_decide_false (subject ≠ subject)) by auto. cbn. eexists. split; [done|].
  apply newSession_inv in Hnew as (? & _ & _ & -> & _). done.
Qed.

(** *** Event ids *)

(** The entries of a session are stored under their own names. *)
Definition session_wf (sessions : gmap string compositeSessionEntry) : Prop :=
  map_Forall (λ n e, ce_backendName e = n ∧ name_ok n) sessions.

Definition eventPart (e : compositeSessionEntry) : string :=
  ce_backendName e +:+ String ":" (EncodeToString StdEncoding (ce_lastEventID e)).

Lemma parseEventPart_entry m e :
  name_ok (ce_backendName e) → parseEventPart m (eventPart e) = <[ce_backendName e := ce_lastEventID e]> m.
Proof.
  intros Hn. unfold parseEventPart, eventPart.
  assert (":"%char ∈ session_separators) as Hc by (unfold session_separators; auto with router).
  rewrite cut_at_app by (by apply name_ok_sep). rewrite bool_decide_false by apply Hn.
  rewrite (base64_roundtrip _ StdEncoding_ok). case_bool_decide as Hs; [done|].
  apply EncodeToString_empty in Hs as Hs'. by rewrite Hs, Hs'.
Qed.

Lemma lastEventIDText_eq l :
  l ≠ [] → Forall (λ p, name_ok (ce_backendName p.2)) l →
  lastEventIDText l = Ok (Join ((λ p, eventPart p.2) <$> l) ",").
Proof.
  intros Hne Hn. unfold lastEventIDText.
  assert (sconcat ((λ e, ce_backendName e.2 +:+ ":" +:+ EncodeToString StdEncoding (ce_lastEventID e.2) +:+ ",") <$> l) =
          Join ((λ p, eventPart p.2) <$> l) "," +:+ ",") as ->.
  { rewrite <-Join_snoc_sep by (by destruct l). f_equal. rewrite <-list_fmap_compose. apply list_fmap_ext.
    intros _ e _. unfold compose, eventPart. by rewrite <-!sapp_assoc, !sapp_cons, sapp_nil_l. }
  rewrite bool_decide_false.
  - rewrite slength_app. simpl. f_equal. apply str_take_app'. lia.
  - intros H%(f_equal String.length). rewrite slength_app in H. simpl in H. lia.
Qed.

Lemma insert_all_range {V W} (range : gmap string V → list (string * V)) `{!RangeOrder range} (f : V → W) m :
  insert_all ((λ p, (p.1, f p.2)) <$> range m) ∅ = f <$> m.
Proof.
  apply map_eq. intros k. rewrite lookup_insert_all, lookup_fmap, lookup_empty.
  destruct (last_binding _ _) as [v|] eqn:E.
  - apply last_binding_elem, list_elem_of_fmap in E as ([k' v'] & [= -> ->] & Hin).
    apply (elem_of_range range) in Hin. by rewrite Hin.
  - apply last_binding_None in E. destruct (m !! k) as [v|] eqn:Em; [|done]. destruct E.
    apply (elem_of_range range) in Em. rewrite <-list_fmap_compose. apply list_elem_of_fmap. by exists (k, v).
Qed.

Lemma range_nonempty {V} (range : gmap string V → list (string * V)) `{!RangeOrder range} m : m ≠ ∅ → range m ≠ [].
Proof. intros Hm H. apply Hm, map_to_list_empty_iff. apply Permutation_nil_r. by rewrite <-(range_perm m), H. Qed.

(** The event id of a session names the last event of every backend. *)
Lemma backendEventIDs_text order `{!RangeOrder order} sessions text :
  session_wf sessions → sessions ≠ ∅ → lastEventIDText (order sessions) = Ok text →
  backendEventIDs text = ce_lastEventID <$> sessions.
Proof.
  intros Hwf Hne.
  assert (Forall (λ p, ce_backendName p.2 = p.1 ∧ name_ok p.1) (order sessions)) as Hl.
  { apply Forall_forall. intros [n e] He. apply (elem_of_range order) in He. by apply Hwf. }
  rewrite lastEventIDText_eq; [|by apply range_nonempty|eapply Forall_impl; [exact Hl|by intros [n e] [-> ?]]].
  intros [= <-]. unfold backendEventIDs. rewrite Split_Join.
  - rewrite <-(insert_all_range order). generalize (@empty (gmap string string) _) as m. revert Hl.
    generalize (order sessions) as l. induction l as [|[n e] l IH]; intros Hl m; [done|].
    apply Forall_cons in Hl as [[He Hn] Hl]. cbn in He, Hn. subst n. cbn.
    rewrite parseEventPart_entry by done. by rewrite (IH Hl).
  - intros H%fmap_nil_inv. by apply (range_nonempty order sessions Hne).
  - apply Forall_fmap. eapply Forall_impl; [exact Hl|]. intros [n e] [He Hn]. cbn in *. subst n.
    assert (","%char ∈ session_separators) as Hc by (unfold session_separators; auto with router).
    unfold eventPart. rewrite Contains_app, (name_ok_sep _ _ Hn Hc). simpl.
    apply Contains_false_cons. split; [done|]. by apply base64_no_sep.
Qed.

Definition recordEvents (updates : list (string * string)) (s : session) : session :=
  foldl (λ s p, session_setLastEventID p.1 p.2 s) s updates.

(** Recording events changes the last event ids only. *)
Lemma recordEvents_frame updates s :
  ss_id (recordEvents updates s) = ss_id s ∧
  restored <$> ss_perBackendSessions (recordEvents updates s) = restored <$> ss_perBackendSessions s ∧
  (session_wf (ss_perBackendSessions s) → session_wf (ss_perBackendSessions (recordEvents updates s))).
Proof.
  revert s. induction updates as [|[b ev] updates IH]; intros s; [done|].
  unfold recordEvents in *. cbn [foldl fst snd].
  destruct (IH (session_setLastEventID b ev s)) as (-> & -> & Hwf). clear IH. revert Hwf.
  unfold session_setLastEventID. destruct (ss_perBackendSessions s !! b) as [e|] eqn:E; [|done].
  intros Hwf. cbn in *. split_and!; [done| |].
  - apply map_eq. intros k. rewrite fmap_insert, lookup_insert, lookup_fmap. case_decide; [|done]. subst. by rewrite E.
  - intros H. apply Hwf. apply map_Forall_insert_2; [|done]. by destruct (H b e E).
Qed.

Lemma lookup_applyEventIDs range `{!RangeOrder range} ids m k :
  applyEventIDs (range ids) m !! k =
    match ids !! k with Some id => setLastEventID id <$> m !! k | None => m !! k end.
Proof.
  unfold applyEventIDs.
  rewrite (foldl_local _ fst (lookup k) k (λ w p, setLastEventID p.2 <$> w)).
  - rewrite (filter_range range). by destruct (ids !! k).
  - intros w [j id] Hj. cbn in *. destruct (w !! j); [|done]. by rewrite lookup_insert_ne.
  - intros w [j id] Hj. cbn in *. subst j. destruct (w !! k) as [e|] eqn:E; [|by rewrite E].
    by rewrite lookup_insert_eq.
  - apply (range_NoDup range).
Qed.

Lemma newSession_wf (m : mcpRequestContext) route subject s :
  newSession m route subject = Ok s → map_Forall (λ n _, name_ok n) (ss_perBackendSessions s) →
  session_wf (ss_perBackendSessions s) ∧ ss_perBackendSessions s ≠ ∅.
Proof.
  intros (entries & Hne & _ & _ & ->)%newSession_inv Hn. split.
  - intros n e He. split; [|by eapply Hn]. rewrite lookup_insert_all, lookup_empty in He.
    destruct (last_binding _ _) as [e'|] eqn:E; [|done]. injection He as ->.
    apply last_binding_elem, list_elem_of_fmap in E as (e' & [= -> ->] & _). done.
  - destruct entries as [|e entries _] using rev_ind; [done|].
    rewrite fmap_app. cbn. rewrite insert_all_snoc. apply insert_non_empty.
Qed.

(** Resumability of the event stream: after any events were recorded, the
    session id together with the event id handed to the client restores the
    session with the last event of every backend, so each backend stream
    continues where it stopped. *)
Theorem event_ids_resume (m m' : mcpRequestContext) order rand' route subject s updates ev :
  RangeOrder order → RangeOrder (rc_rangeEvents m') →
  newSession m route subject = Ok s → fills (rc_rand m) → fills rand' →
  session_lastEventID order rand' (rc_sessionCrypto m) (recordEvents updates s) = Ok ev → ev ≠ "" →
  accepts corruptInput (rc_sessionCrypto m') (rc_sessionCrypto m) (ss_id s) →
  accepts corruptInput (rc_sessionCrypto m') (rc_sessionCrypto m) ev →
  Contains route "@" = false → map_Forall (λ n _, name_ok n) (ss_perBackendSessions s) →
  ∃ s', sessionFromID corruptInput m' (ss_id s) ev route subject = Ok s' ∧
    ss_perBackendSessions s' =
      (λ e, setLastEventID (ce_lastEventID e) (restored e)) <$> ss_perBackendSessions (recordEvents updates s).
Proof.
  intros Ho Hro Hnew Hf Hf' Hev Hne Ha Ha' Hr Hn.
  destruct (session_text_parses _ _ _ _ _ Hnew Hf Ha Hr Hn) as (text & Hd & Hp).
  destruct (newSession_wf _ _ _ _ Hnew Hn) as [Hwf Hnonempty].
  destruct (recordEvents_frame updates s) as (_ & Hrest & Hwf'). specialize (Hwf' Hwf).
  apply obind_ok_inv in Hev as (evText & Ht & Henc).
  assert (Encrypt rand' (rc_sessionCrypto m) evText = Ok ev) as Henc' by (by destruct (Encrypt _ _ _); simplify_eq).
  eapply Decrypt_accepts in Henc'; [|done|exact Ha'].
  apply (backendEventIDs_text order) in Ht; [|done|].
  2:{ intros H0. rewrite H0, fmap_empty in Hrest. symmetry in Hrest. by apply fmap_empty_inv in Hrest. }
  unfold sessionFromID. rewrite Hd. cbn [owrap obind]. rewrite Hp. cbn [obind].
  rewrite !bool_decide_false by auto. rewrite bool_decide_true by done. rewrite Henc'. cbn [owrap obind].
  eexists. split; [done|]. cbn. rewrite Ht, <-Hrest. apply map_eq. intros k.
  rewrite (lookup_applyEventIDs _), !lookup_fmap. by destruct (_ !! k).
Qed.
(** The pieces between separators have none, nor a character the text has not. *)
Lemma Split_pieces s c d : Contains s d = false → Forall (λ p, Contains p c = false ∧ Contains p d = false) (Split s c).
Proof.
  remember (String.length s) as n eqn:E. revert s E. induction (lt_wf n) as [n _ IH]. intros s -> Hd. rewrite Split_unfold.
  destruct (cut_at c s) as [[a t]|] eqn:Ec; [|constructor; [|constructor]; split; [by apply cut_at_None|done]].
  apply cut_at_Some in Ec as [-> Ha]. rewrite Contains_app, orb_false_iff in Hd. destruct Hd as [Hda [_ Hdt]%Contains_false_cons].
  constructor; [done|]. eapply IH; [|done|done]. rewrite slength_app. cbn. lia.
Qed.

Lemma parseBackendPart_wf m part m' :
  Contains part "," = false → Contains part "@" = false → parseBackendPart corruptInput m part = Ok m' → session_wf m →
  session_wf m' ∧ m' ≠ ∅.
Proof.
  intros Hc Ha. unfold parseBackendPart, SplitN. cbn [Nat.sub SplitN_go].
  destruct (cut_at ":" part) as [[name rest]|] eqn:E; [|done]. apply cut_at_Some in E as [-> Hn].
  rewrite Contains_app, orb_false_iff in Hc, Ha. destruct Hc as [Hc _], Ha as [Ha _].
  intros H Hwf. assert (∃ e, ce_backendName e = name ∧ name ≠ "" ∧ m' = <[name := e]> m) as (e & He & Hne & ->).
  { revert H. set (l := match cut_at ":" rest with Some _ => _ | None => _ end). destruct l as [|sid caps]; [done|].
    case_bool_decide; [done|]. intros (sessionID & _ & [= <-])%obind_ok_inv. eexists. split; [|split; [done|reflexivity]]. done. }
  split; [|apply insert_non_empty]. apply map_Forall_insert_2; [|done]. split; [done|]. split; [done|].
  unfold session_separators. by repeat constructor.
Qed.

Lemma parsed_wf backends sessions :
  Contains backends "@" = false → ofold (parseBackendPart corruptInput) ∅ (Split backends ",") = Ok sessions →
  session_wf sessions ∧ sessions ≠ ∅.
Proof.
  intros Ha. pose proof (Split_pieces backends "," "@" Ha) as Hp.
  assert (∀ l m, Forall (λ p, Contains p "," = false ∧ Contains p "@" = false) l → session_wf m → (l = [] → m ≠ ∅) →
    ofold (parseBackendPart corruptInput) m l = Ok sessions → session_wf sessions ∧ sessions ≠ ∅) as Hfold.
  { clear. induction l as [|p l IH]; intros m; cbn [ofold]; [by intros _ Hm Hne [= <-]; auto|].
    intros [[H1 H2] Hl]%Forall_cons Hm _ (m' & H & Hrest)%obind_ok_inv. destruct (parseBackendPart_wf _ _ _ H1 H2 H Hm). by eapply IH. }
  apply Hfold; [done|apply map_Forall_empty|]. rewrite Split_unfold. by destruct (cut_at _ _) as [[? ?]|].
Qed.

(** Recording an event changes only the last event id of its backend. *)
Lemma recordEvents_entries updates s :
  setLastEventID "" <$> ss_perBackendSessions (recordEvents updates s) = setLastEventID "" <$> ss_perBackendSessions s.
Proof.
  revert s. induction updates as [|[b ev] updates IH]; intros s; [done|]. unfold recordEvents in *. cbn [foldl fst snd]. rewrite IH.
  unfold session_setLastEventID. destruct (ss_perBackendSessions s !! b) as [e|] eqn:E; [|done]. cbn.
  apply map_eq. intros k. rewrite fmap_insert, lookup_insert, lookup_fmap. case_decide; [|done]. subst. by rewrite E.
Qed.

Lemma fmap_setLastEventID_inv (m m' : gmap string compositeSessionEntry) k :
  setLastEventID "" <$> m = setLastEventID "" <$> m' → setLastEventID "" <$> m !! k = setLastEventID "" <$> m' !! k.
Proof. intros H%(f_equal (lookup k)). by rewrite !lookup_fmap in H. Qed.

(** What a session id is resumed as, without and with an event id. *)
Lemma sessionFromID_parsed (m : mcpRequestContext) id lastEvent route subject s :
  sessionFromID corruptInput m id lastEvent route subject = Ok s →
  ∃ text sessions, Decrypt corruptInput (rc_sessionCrypto m) id = Ok text ∧ backendSessionIDs corruptInput text = Ok (sessions, route, subject) ∧
    session_wf sessions ∧ sessions ≠ ∅ ∧ setLastEventID "" <$> ss_perBackendSessions s = setLastEventID "" <$> sessions.
Proof.
  intros (text & Hd%owrap_ok_inv & ([[sessions r] u] & Hp & H)%obind_ok_inv)%obind_ok_inv.
  case_bool_decide as Hr; [done|]. case_bool_decide as Hu; [done|]. assert (r = route) as -> by by destruct (decide (r = route)).
  assert (u = subject) as -> by by destruct (decide (u = subject)).
  destruct (backendSessionIDs_shape _ _ _ _ Hp) as (backends & -> & Hr' & Hb).
  pose proof (backendSessionIDs_parts _ _ _ _ _ _ Hr' Hb Hp) as [Hwf Hne]%parsed_wf; [|done].
  eexists _, sessions. split; [exact Hd|]. split_and!; [done..|]. apply obind_ok_inv in H as (sessions' & Hs & [= <-]). cbn.
  case_bool_decide; [|by injection Hs as <-]. apply obind_ok_inv in Hs as (ev & _ & [= <-]). by rewrite applyEventIDs_sessions.
Qed.

(** A session that was resumed, with an event id or without, resumes from the id of
    any later event, exactly as it was when that event was recorded. *)
Lemma later_event_resumes (m m' : mcpRequestContext) order rand' id lastEvent route subject s updates ev :
  RangeOrder order → RangeOrder (rc_rangeEvents m') → fills rand' →
  sessionFromID corruptInput m id lastEvent route subject = Ok s →
  session_lastEventID order rand' (rc_sessionCrypto m) (recordEvents updates s) = Ok ev → ev ≠ "" →
  Decrypt corruptInput (rc_sessionCrypto m') id = Decrypt corruptInput (rc_sessionCrypto m) id →
  accepts corruptInput (rc_sessionCrypto m') (rc_sessionCrypto m) ev →
  ∃ s', sessionFromID corruptInput m' id ev route subject = Ok s' ∧
    ss_perBackendSessions s' = ss_perBackendSessions (recordEvents updates s).
Proof.
  intros Ho Hro Hf (text & sessions & Hd & Hp & Hwf & Hne & Hs)%sessionFromID_parsed Hev Hne' Hid Ha.
  pose proof (recordEvents_entries updates s) as Hrec. rewrite Hs in Hrec. set (after := ss_perBackendSessions (recordEvents updates s)) in *.
  assert (session_wf after) as Hwf'.
  { intros n e He. apply (fmap_setLastEventID_inv _ _ n) in Hrec. rewrite He in Hrec. cbn in Hrec.
    destruct (sessions !! n) as [e0|] eqn:E; [|done]. injection Hrec as Hn _ _ _. rewrite Hn. by apply Hwf. }
  assert (after ≠ ∅) as Hne2.
  { intros E. rewrite E, fmap_empty in Hrec. symmetry in Hrec. by apply fmap_empty_inv in Hrec. }
  apply obind_ok_inv in Hev as (evText & Ht & Henc). fold after in Ht.
  assert (Encrypt rand' (rc_sessionCrypto m) evText = Ok ev) as Henc' by (by destruct (Encrypt _ _ _); simplify_eq).
  eapply Decrypt_accepts in Henc'; [|done|exact Ha]. apply (backendEventIDs_text order) in Ht; [|done..].
  unfold sessionFromID. rewrite Hid, Hd. cbn [owrap obind]. rewrite Hp. cbn [obind].
  rewrite !bool_decide_false by auto. rewrite bool_decide_true by done. rewrite Henc'. cbn [owrap obind].
  eexists. split; [done|]. cbn. rewrite Ht. apply map_eq. intros k. apply (fmap_setLastEventID_inv _ _ k) in Hrec.
  rewrite (lookup_applyEventIDs _), lookup_fmap. destruct (after !! k) as [e|], (sessions !! k) as [e0|]; try done. cbn in *.
  injection Hrec as H1 H2 H3 H4. destruct e, e0. cbn in *. by subst.
Qed.
End SessionProps.

(** ** Which backends a session has *)

Section Selection.
Context `{CR : !Crypto} `{L : !AuthzLib} `{CE : !AuthzCel} `{RX : !Regexps}.

(** The decision of the backend selector, on a context of its own. *)
Definition backendAllowed (m : mcpRequestContext) (route : mcpProxyConfigRoute) (name : string) : bool :=
  match rt_backendSelector route with
  | None => true
  | Some selector => (authorizeRequest (rc_rangeHeaders m) (Some selector) (selectorRequest (rc_requestHeaders m) name)).1
  end.

Lemma selectBody_fold m selector l ac acc :
  shared_ok (rc_rangeHeaders m) selector (selectorRequest (rc_requestHeaders m) "") ac →
  (foldl (selectBody m selector) (ac, acc) l).2 =
    insert_all (filter (λ p, (authorizeRequest (rc_rangeHeaders m) (Some selector)
                               (selectorRequest (rc_requestHeaders m) p.1)).1 = true) l) acc.
Proof.
  revert ac acc. induction l as [|p l IH]; intros ac acc Hac; [done|]. cbn [foldl].
  destruct (shared_context_step (rc_rangeHeaders m) selector (selectorRequest (rc_requestHeaders m) "")
    (selectorRequest (rc_requestHeaders m) p.1) ac) as [Hd Hac']; [done..|].
  rewrite filter_cons. unfold selectBody at 2. cbn [fst snd].
  destruct (authorizeRequestWith _ _ _ ac) as [ac' [allowed ch]]. cbn [fst snd] in *. rewrite <-Hd. cbn [fst].
  rewrite (IH ac' _ Hac'). destruct allowed; [by rewrite decide_True|by rewrite decide_False].
Qed.

(** The selected backends are those of the route that the selector allows; the
    selection fails only when it allows none. *)
Lemma selectAuthorizedBackends_cases m routeName route :
  RangeOrder (rc_rangeBackends m) →
  match selectAuthorizedBackends m routeName route with
  | Ok selected =>
      ∀ name b, selected !! name = Some b ↔ rt_backends route !! name = Some b ∧ backendAllowed m route name = true
  | Fail _ => ∀ name b, rt_backends route !! name = Some b → backendAllowed m route name = false
  | Panic _ => False
  end.
Proof.
  intros Ho. unfold selectAuthorizedBackends, backendAllowed.
  destruct (rt_backendSelector route) as [selector|]; [|tauto].
  rewrite selectBody_fold by apply shared_new. set (allowed := λ name : string,
    (authorizeRequest (rc_rangeHeaders m) (Some selector) (selectorRequest (rc_requestHeaders m) name)).1).
  assert (∀ name b, insert_all (filter (λ p, allowed p.1 = true) (rc_rangeBackends m (rt_backends route))) ∅ !! name = Some b ↔
    rt_backends route !! name = Some b ∧ allowed name = true) as Hspec.
  { intros name b. rewrite lookup_insert_all, lookup_empty, <-(elem_of_range (rc_rangeBackends m)).
    destruct (last_binding _ _) as [b'|] eqn:El.
    - apply last_binding_elem in El as Hin. apply list_elem_of_filter in Hin as [Ha Hin]. cbn in Ha. split.
      + intros [= ->]. done.
      + intros [Hb _]. apply (elem_of_range (rc_rangeBackends m)) in Hin, Hb. congruence.
    - apply last_binding_None in El. split; [done|]. intros [Hb Ha]. destruct El.
      apply list_elem_of_fmap. exists (name, b). split; [done|]. by apply list_elem_of_filter. }
  case_bool_decide as Hd; [|exact Hspec]. intros name b Hb. apply not_true_iff_false. intros Ha.
  apply (not_elem_of_empty (C := gset string) name). rewrite <-Hd. apply elem_of_dom. exists b. by apply Hspec.
Qed.

Lemma selectAuthorizedBackends_spec m routeName route selected :
  RangeOrder (rc_rangeBackends m) → selectAuthorizedBackends m routeName route = Ok selected →
  ∀ name b, selected !! name = Some b ↔ rt_backends route !! name = Some b ∧ backendAllowed m route name = true.
Proof. intros Ho Hs. pose proof (selectAuthorizedBackends_cases m routeName route Ho) as H. by rewrite Hs in H. Qed.

(** A session has no backend the selector of its route denies: every entry
    of a new session comes from a backend of the route that is allowed by the
    rules, evaluated for that backend alone, and that answered the
    initialization. *)
Theorem session_backends_authorized m routeName subject s name e :
  RangeOrder (rc_rangeBackends m) → newSession m routeName subject = Ok s →
  ss_perBackendSessions s !! name = Some e →
  ∃ route key backend, rc_routes m !! routeName = Some route ∧ rt_backends route !! key = Some backend ∧
    mb_Name backend = name ∧ backendAllowed m route key = true ∧
    rc_initializeSession m backend = Ok (ce_sessionID e, ce_capabilities e, ce_protocolVersion e).
Proof.
  intros Ho. unfold newSession. destruct (rc_routes m !! routeName) as [route|]; [|done].
  intros (selected & Hsel & H)%obind_ok_inv. revert H.
  destruct (filter _ _) as [|e0 entries] eqn:Ef; [done|]. rewrite <-Ef.
  intros (enc & _ & [= <-])%obind_ok_inv. cbn. rewrite lookup_insert_all, lookup_empty.
  destruct (last_binding _ _) as [e'|] eqn:El; [|done]. intros [= ->].
  apply last_binding_elem, list_elem_of_fmap in El as (e' & [= -> <-] & He).
  apply list_elem_of_filter in He as [Hne He]. apply list_elem_of_fmap in He as ([key backend] & -> & Hin).
  apply (elem_of_range (rc_rangeBackends m)) in Hin.
  apply (selectAuthorizedBackends_spec _ _ _ _ Ho Hsel) in Hin as [Hb Ha].
  exists route, key, backend. cbn in *. unfold initEntry in *.
  destruct (rc_initializeSession m backend) as [[[sid caps] v]| |]; cbn in *; done.
Qed.
End Selection.

(** ** Properties of what is merged *)

(** *** The order on versions *)

Lemma string_ltb_irrefl s : string_ltb s s = false.
Proof. induction s as [|c s IH]; [done|]. simpl. by rewrite bool_decide_true. Qed.

Lemma string_ltb_total s t : string_ltb s t = false → string_ltb t s = false → s = t.
Proof.
  revert t. induction s as [|c s IH]; intros [|d t]; [done..|]. simpl.
  destruct (decide (c = d)) as [->|Hne].
  - rewrite !bool_decide_true by done. intros H1 H2. f_equal. by apply IH.
  - rewrite !bool_decide_false by done. intros H1%Nat.ltb_ge H2%Nat.ltb_ge. destruct Hne.
    rewrite <-(ascii_nat_embedding c), <-(ascii_nat_embedding d). f_equal. lia.
Qed.

Lemma string_ltb_trans s t p : string_ltb s t = true → string_ltb t p = true → string_ltb s p = true.
Proof.
  revert t p. induction s as [|c s IH]; intros [|d t] [|e p]; try done. simpl.
  destruct (decide (c = d)) as [->|Hcd], (decide (d = e)) as [->|Hde].
  - rewrite !bool_decide_true by done. apply IH.
  - rewrite (bool_decide_true (d = d)), !(bool_decide_false (d = e)) by done. done.
  - rewrite !(bool_decide_false (c = e)), (bool_decide_true (e = e)) by done. done.
  - rewrite (bool_decide_false (c = d)), (bool_decide_false (d = e)) by done. intros H1%Nat.ltb_lt H2%Nat.ltb_lt.
    rewrite bool_decide_false by (intros ->; lia). apply Nat.ltb_lt. lia.
Qed.

(** [s <= t] on Go strings. *)
Definition string_le (s t : string) : Prop := string_ltb t s = false.

Lemma string_lt_le s t : string_ltb s t = true → string_le s t.
Proof.
  intros H. unfold string_le. destruct (string_ltb t s) eqn:E; [|done].
  by rewrite <-(string_ltb_irrefl s), (string_ltb_trans _ _ _ H E).
Qed.

#[global] Instance string_le_preorder : PreOrder string_le.
Proof.
  split; [intros s; apply string_ltb_irrefl|]. intros s t p Hst Htp. unfold string_le in *.
  destruct (string_ltb p s) eqn:E; [|done]. destruct (string_ltb s t) eqn:E2.
  - by rewrite <-Htp, (string_ltb_trans _ _ _ E E2).
  - by rewrite <-Htp, <-(string_ltb_total _ _ E2 Hst).
Qed.

Lemma string_le_empty s : string_le "" s.
Proof. by destruct s. Qed.

(** *** Version negotiation *)

(** The best version of every backend that reported one. *)
Definition reportedVersions (backends : list (list string)) : list string :=
  filter (λ v, v ≠ "") (backendMax <$> backends).

(** A backend's best version is the greatest it reported. *)
Lemma backendMax_spec versions :
  (backendMax versions = "" ∨ backendMax versions ∈ versions) ∧ Forall (λ v, string_le v (backendMax versions)) versions.
Proof.
  induction versions as [|v versions [Hin Hle]] using rev_ind; [by split; [left|]|].
  unfold backendMax in *. rewrite foldl_app. cbn. rewrite Forall_app, Forall_singleton, elem_of_app, list_elem_of_singleton.
  case_bool_decide as Hv; [subst; split; [tauto|split; [done|apply string_le_empty]]|].
  destruct (string_ltb _ v) eqn:E.
  - split; [tauto|]. split; [|apply string_ltb_irrefl]. eapply Forall_impl; [exact Hle|].
    intros u Hu. etrans; [exact Hu|]. by apply string_lt_le.
  - split; [tauto|]. done.
Qed.

Definition least (m : string) (l : list string) : Prop := m ∈ l ∧ Forall (string_le m) l.

(** The loop leaves the least of the reported versions. *)
Lemma minBody_spec backends :
  let r := foldl minBody "" backends in
  (r = "" ∧ reportedVersions backends = []) ∨ (r ≠ "" ∧ least r (reportedVersions backends)).
Proof.
  cbn zeta. induction backends as [|b backends IH] using rev_ind; [by left|].
  unfold reportedVersions in *. rewrite foldl_app, fmap_app, filter_app. cbn [fmap list_fmap foldl]. revert IH.
  generalize (foldl minBody "" backends) as r, (filter (λ v, v ≠ "") (backendMax <$> backends)) as l.
  intros r l IH. unfold minBody. rewrite filter_cons, filter_nil.
  case_bool_decide as Hm; [rewrite decide_False by auto; by rewrite app_nil_r|]. rewrite decide_True by done.
  right. unfold least. rewrite Forall_app, Forall_singleton, elem_of_app, list_elem_of_singleton.
  destruct IH as [[-> ->]|[Hr [Hin Hle]]].
  - cbn. repeat split; auto. apply string_ltb_irrefl.
  - rewrite (bool_decide_false (r = "")) by done. cbn. destruct (string_ltb (backendMax b) r) eqn:E.
    + repeat split; auto; [|apply string_ltb_irrefl]. eapply Forall_impl; [exact Hle|].
      intros u Hu. etrans; [by apply string_lt_le|exact Hu].
    + repeat split; auto.
Qed.

(** Version negotiation: without any reported version the answer is the
    gateway's tested floor; otherwise it is max(floor, min(client, backends)),
    where a backend counts with the highest version it reported and an empty
    client version is no constraint. *)
Theorem mergedProtocolVersion_spec clientVersion backends :
  let reported := reportedVersions backends in
  let bounds := reported ++ (if decide (clientVersion = "") then [] else [clientVersion]) in
  let v := mergedProtocolVersion clientVersion backends in
  (reported = [] → v = protocolVersion20250618) ∧
  (reported ≠ [] → ∃ m, least m bounds ∧
     v = if string_ltb m protocolVersion20250618 then protocolVersion20250618 else m).
Proof.
  cbn zeta. unfold mergedProtocolVersion.
  destruct (minBody_spec backends) as [[-> ->]|[Hr Hl]]; [by split|].
  rewrite (bool_decide_false (_ = "")) by done. split; [intros E; rewrite E in Hl; by destruct Hl as [?%elem_of_nil _]|].
  intros _. revert Hl. generalize (foldl minBody "" backends) as r, (reportedVersions backends) as l.
  intros r l [Hin Hle]. eexists. split; [|reflexivity]. unfold least.
  case_decide as Hc; [rewrite bool_decide_false by auto; cbn; by rewrite app_nil_r|].
  rewrite bool_decide_true by done. cbn. rewrite Forall_app, Forall_singleton, elem_of_app, list_elem_of_singleton.
  destruct (string_ltb clientVersion r) eqn:E; [|auto]. split; [auto|]. split; [|apply string_ltb_irrefl].
  eapply Forall_impl; [exact Hle|]. intros u Hu. etrans; [by apply string_lt_le|exact Hu].
Qed.

(** *** Capabilities *)

(** The capabilities that were reported. *)
Definition reportedCaps (all : list (option ServerCapabilities)) : list ServerCapabilities := omap id all.

(** The union of an optional capability over the backends that have it. *)
Definition unionOf {A} (l : list A) (f : list A → A) : option A := match l with [] => None | _ => Some (f l) end.

Lemma reportedCaps_snoc all o :
  reportedCaps (all ++ [o]) = reportedCaps all ++ match o with Some c => [c] | None => [] end.
Proof. unfold reportedCaps. rewrite omap_app. by destruct o. Qed.

Lemma foldl_first_wins (range : gmap string string → list (string * string)) `{!RangeOrder range} (m exts : gmap string string) k :
  foldl (λ m p, match m !! p.1 with Some _ => m | None => <[p.1 := p.2]> m end) m (range exts) !! k =
    match m !! k with Some v => Some v | None => exts !! k end.
Proof.
  rewrite (foldl_local _ fst (lookup k) k (λ w p, match w with Some v => Some v | None => Some p.2 end)).
  - rewrite (filter_range range). destruct (exts !! k); [done|]. by destruct (m !! k).
  - intros w [j v] Hj. cbn in *. destruct (w !! j); [done|]. by rewrite lookup_insert_ne.
  - intros w [j v] Hj. cbn in *. subst j. destruct (w !! k) eqn:E; [done|]. by rewrite lookup_insert_eq.
  - apply (range_NoDup range).
Qed.

(** The capabilities advertised to a client are the union over the backends:
    a capability is there exactly when some backend reports it, each sub-flag is
    the disjunction over those backends, and the value of an extension is that
    of the first backend in the order of the list that declares it. *)
Theorem unionServerCapabilities_spec range `{!RangeOrder range} all :
  let merged := unionServerCapabilities range all in
  let caps := reportedCaps all in
  sc_Tools merged = unionOf (omap sc_Tools caps) (λ ts, {| tc_ListChanged := existsb tc_ListChanged ts |}) ∧
  sc_Prompts merged = unionOf (omap sc_Prompts caps) (λ ps, {| pc_ListChanged := existsb pc_ListChanged ps |}) ∧
  sc_Resources merged = unionOf (omap sc_Resources caps)
    (λ rs, {| rs_ListChanged := existsb rs_ListChanged rs; rs_Subscribe := existsb rs_Subscribe rs |}) ∧
  sc_Logging merged = existsb sc_Logging caps ∧
  sc_Completions merged = existsb sc_Completions caps ∧
  (∀ k, sc_Extensions merged !! k = head (omap (λ c, sc_Extensions c !! k) caps)).
Proof.
  cbn zeta. induction all as [|o all IH] using rev_ind; [done|].
  unfold unionServerCapabilities in *. rewrite foldl_app. cbn [foldl].
  rewrite reportedCaps_snoc. destruct o as [c|]; [|by rewrite app_nil_r]. cbn [unionBody].
  destruct IH as (HT & HP & HR & HL & HC & HE). cbn. rewrite !omap_app, !existsb_app. cbn. rewrite HT, HP, HR, HL, HC.
  split_and!; [..|by rewrite orb_false_r|by rewrite orb_false_r|].
  - destruct (sc_Tools c) as [t|]; cbn; [|by rewrite app_nil_r].
    destruct (omap sc_Tools _) as [|t' l]; cbn; [by rewrite orb_false_r|].
    by rewrite existsb_app, orb_assoc; cbn; rewrite orb_false_r.
  - destruct (sc_Prompts c) as [t|]; cbn; [|by rewrite app_nil_r].
    destruct (omap sc_Prompts _) as [|t' l]; cbn; [by rewrite orb_false_r|].
    by rewrite existsb_app, orb_assoc; cbn; rewrite orb_false_r.
  - destruct (sc_Resources c) as [t|]; cbn; [|by rewrite app_nil_r].
    destruct (omap sc_Resources _) as [|t' l]; cbn; [by rewrite !orb_false_r|].
    rewrite !existsb_app, !orb_assoc. cbn. by rewrite !orb_false_r.
  - intros k. rewrite (foldl_first_wins range), HE, omap_app.
    generalize (omap (λ c, sc_Extensions c !! k) (reportedCaps all)) as l. intros [|e l]; [|done].
    cbn. by destruct (sc_Extensions c !! k).
Qed.

(** *** Names and URIs *)

Lemma plain_not_ui b uri : Contains b "/" = false → HasPrefix (b +:+ "+" +:+ uri) uiSchemePrefix = false.
Proof.
  intros Hb. apply not_true_iff_false. intros [t H]%HasPrefix_spec. revert Hb H.
  destruct b as [|c0 [|c1 [|c2 [|c3 b]]]]; unfold uiSchemePrefix; rewrite ?sapp_cons, ?sapp_nil_l; [done..|].
  intros Hb [= -> -> -> -> _]. by vm_compute in Hb.
Qed.

Lemma upstreamResourceName_down backend name :
  Contains backend "_" = false → upstreamResourceName (downstreamResourceName name backend) = Ok (backend, name).
Proof.
  intros Hu. unfold upstreamResourceName, downstreamResourceName, nameSeparator.
  rewrite (Index_app_fresh backend "_" "_") by done. rewrite str_take_app. by rewrite <-str_drop_drop, !str_drop_app.
Qed.

Lemma upstreamResourceURI_down backend uri :
  backend ≠ "" → Contains backend "/" = false → Contains backend "+" = false →
  upstreamResourceURI (downstreamResourceURI uri backend) = Ok (backend, uri).
Proof.
  intros Hne Hs Hp. unfold upstreamResourceURI, downstreamResourceURI. destruct (HasPrefix uri uiSchemePrefix) eqn:E.
  - rewrite HasPrefix_app, str_drop_app. rewrite (sapp_cons "/" ""), sapp_nil_l, cut_at_app by done. rewrite bool_decide_false by done.
    apply HasPrefix_spec in E as [t ->]. by rewrite str_drop_app.
  - rewrite plain_not_ui by done. rewrite (sapp_cons "+" ""), sapp_nil_l. by rewrite SplitN_app.
Qed.

(** A name or URI that a listing shows to the client is routed back: the
    backend and the original name or URI are recovered for every backend name
    without the separators. *)
Theorem resource_names_roundtrip backend name uri :
  backend ≠ "" → Forall (λ c, Contains backend c = false) ["_"; "/"; "+"]%char →
  upstreamResourceName (downstreamResourceName name backend) = Ok (backend, name) ∧
  upstreamResourceURI (downstreamResourceURI uri backend) = Ok (backend, uri).
Proof.
  intros Hne [Hu [Hs [Hp _]%Forall_cons]%Forall_cons]%Forall_cons.
  split; [by apply upstreamResourceName_down | by apply upstreamResourceURI_down].
Qed.

(** ** Concrete runs *)

Module Sample.
Import Toy McpAuthz.Sample.

Definition err := McpCrypto.Sample.err.
Definition rand := McpCrypto.Sample.rand.
Definition caps : ServerCapabilities :=
  {| sc_Tools := Some {| tc_ListChanged := true |}; sc_Prompts := None; sc_Logging := true;
     sc_Resources := Some {| rs_ListChanged := false; rs_Subscribe := true |}; sc_Completions := false;
     sc_Extensions := ∅ |}.
Definition backend (name : string) (fs : list MCPHeaderForward) : MCPBackend :=
  {| mb_Name := name; mb_ToolSelector := None; mb_PromptSelector := None; mb_ForwardHeaders := fs; mb_PrefixMode := "" |}.
Definition github : MCPBackend := backend "github" [{| hf_Name := "x-token"; hf_BackendHeader := "authorization" |}].
Definition slack : MCPBackend := backend "slack" [].
Definition jira : MCPBackend := backend "jira" [].

#[export] Instance literal : Regexps := {
  Regexp := string; regexp_Compile e := Ok e; MatchString e s := bool_decide (e = s); regexp_String e := e }.
#[export] Instance literal_laws : RegexpLaws literal.
Proof. split. by intros e r [= ->]. Qed.

(** The selector leaves out jira. *)
Definition selector : compiledAuthorization :=
  McpAuthz.Sample.auth true [McpAuthz.Sample.rule "Deny" None (Some "jira"); McpAuthz.Sample.rule "Allow" None None].
Definition route : mcpProxyConfigRoute :=
  {| rt_backends := {["github" := github; "slack" := slack; "jira" := jira]}; rt_toolSelectors := ∅;
     rt_promptSelectors := ∅; rt_authorization := None; rt_backendSelector := Some selector;
     rt_forwardHeaders := ["x-request-id"]; rt_routePrefixMode := ""; rt_neverModeToolIndex := ∅;
     rt_neverModePromptIndex := ∅ |}.

(** The initialization of slack fails. *)
Definition ctx (c : SessionCrypto) : mcpRequestContext :=
  {| rc_routes := {["tools" := route]}; rc_requestHeaders := {["X-Token" := ["t"]]};
     rc_sessionCrypto := c; rc_rangeEvents := map_to_list; rc_rangeBackends := map_to_list; rc_rangeHeaders := map_to_list;
     rc_initializeSession := λ b, if bool_decide (mb_Name b = "slack") then Fail (errors_New "refused")
                                  else Ok ("sid@1", Some caps, "2025-06-18");
     rc_rand := rand |}.

Definition noSession : session :=
  {| ss_id := ""; ss_route := ""; ss_perBackendSessions := ∅; ss_extraHeaders := None; ss_perBackendExtraHeaders := None |}.
Definition or_none (o : outcome session) : session := match o with Ok s => s | _ => noSession end.
Definition old := McpCrypto.Sample.old.
Definition sess : session := or_none (newSession (ctx old) "tools" "ann@example.com").
Definition rotated : SessionCrypto := FallbackEnabledSessionCrypto McpCrypto.Sample.new (Some old).

Lemma names_ok : map_Forall (λ n _, name_ok n) (ss_perBackendSessions sess).
Proof. apply (bool_decide_unpack _). vm_compute. exact I. Qed.

Lemma resumed_session_is_callers_witness :
  ∃ s, sessionFromID err (ctx rotated) (ss_id sess) "" "tools" "ann@example.com" = Ok s ∧
    ss_id s = ss_id sess ∧ ss_route s = "tools".
Proof.
  exists (or_none (sessionFromID err (ctx rotated) (ss_id sess) "" "tools" "ann@example.com")).
  assert (sessionFromID err (ctx rotated) (ss_id sess) "" "tools" "ann@example.com" =
          Ok (or_none (sessionFromID err (ctx rotated) (ss_id sess) "" "tools" "ann@example.com"))) as H
    by (vm_compute; reflexivity).
  destruct (resumed_session_is_callers err _ _ _ _ _ _ H) as (Hi & Hr & _). auto.
Defined.

Lemma sess_created : newSession (ctx old) "tools" "ann@example.com" = Ok sess.
Proof. vm_compute. reflexivity. Qed.

Lemma rotated_accepts_session : accepts err rotated old (ss_id sess).
Proof. right. eexists McpCrypto.Sample.new, _. split_and!; [reflexivity..|]. vm_compute. reflexivity. Qed.

(** The subject contains the separator of the format; another subject is refused. *)
Lemma session_resumes_for_owner_witness :
  (∃ s', sessionFromID err (ctx rotated) (ss_id sess) "" "tools" "ann@example.com" = Ok s' ∧
     ss_perBackendSessions s' = restored <$> ss_perBackendSessions sess) ∧
  sessionFromID err (ctx rotated) (ss_id sess) "" "tools" "bob@example.com" = Fail errSessionSubjectMismatch.
Proof.
  split.
  - destruct (session_resumes_for_owner err (ctx old) (ctx rotated) _ _ sess "tools" "ann@example.com"
      sess_created McpCrypto.Sample.rand_fills rotated_accepts_session eq_refl names_ok) as (s' & H & _ & _ & Hs).
    exists s'. auto.
  - exact (session_resumes_for_owner err (ctx old) (ctx rotated) _ _ sess "tools" "bob@example.com"
      sess_created McpCrypto.Sample.rand_fills rotated_accepts_session eq_refl names_ok).
Defined.

Lemma session_backends_authorized_witness :
  dom (ss_perBackendSessions sess) = {["github"]} ∧
  ∃ r key b, rc_routes (ctx old) !! "tools" = Some r ∧ rt_backends r !! key = Some b ∧ mb_Name b = "github" ∧
    backendAllowed (ctx old) r key = true.
Proof.
  split; [vm_compute; reflexivity|].
  assert (∃ e, ss_perBackendSessions sess !! "github" = Some e) as [e He] by (eexists; vm_compute; reflexivity).
  destruct (session_backends_authorized (ctx old) "tools" "ann@example.com" sess "github" e _ sess_created He)
    as (r & key & b & H1 & H2 & H3 & H4 & _). exists r, key, b. auto.
Defined.

Definition events : list (string * string) := [("github", "7"); ("slack", "3"); ("github", "8")].
Definition ev : string :=
  match session_lastEventID map_to_list rand old (recordEvents events sess) with Ok e => e | _ => "" end.

Lemma event_ids_resume_witness :
  ∃ s', sessionFromID err (ctx rotated) (ss_id sess) ev "tools" "ann@example.com" = Ok s' ∧
    ss_perBackendSessions s' =
      (λ e, setLastEventID (ce_lastEventID e) (restored e)) <$> ss_perBackendSessions (recordEvents events sess).
Proof.
  apply (event_ids_resume err (ctx old) (ctx rotated) map_to_list rand); try exact _.
  - exact sess_created.
  - exact McpCrypto.Sample.rand_fills.
  - exact McpCrypto.Sample.rand_fills.
  - vm_compute. reflexivity.
  - vm_compute. discriminate.
  - exact rotated_accepts_session.
  - right. eexists McpCrypto.Sample.new, _. split_and!; [reflexivity..|]. vm_compute. reflexivity.
  - reflexivity.
  - exact names_ok.
Defined.

Lemma resource_names_roundtrip_witness :
  upstreamResourceName (downstreamResourceName "create__issue" "github") = Ok ("github", "create__issue") ∧
  upstreamResourceURI (downstreamResourceURI "ui://a/b" "github") = Ok ("github", "ui://a/b").
Proof. apply resource_names_roundtrip; [done|]. repeat constructor. Defined.

Definition ext (v : string) : option ServerCapabilities :=
  Some {| sc_Tools := None; sc_Prompts := None; sc_Logging := false; sc_Resources := None; sc_Completions := false;
          sc_Extensions := {["x" := v]} |}.

Lemma unionServerCapabilities_spec_witness :
  sc_Extensions (unionServerCapabilities map_to_list [ext "1"; ext "2"]) !! "x" = Some "1".
Proof.
  destruct (unionServerCapabilities_spec map_to_list [ext "1"; ext "2"]) as (_ & _ & _ & _ & _ & ->).
  vm_compute. reflexivity.
Defined.

(** The merged extensions of a session depend on the order in which its map is
    visited: two backends that declare one extension with different values. *)
Lemma merged_extensions_depend_on_order :
  let e name v := {| ce_backendName := name; ce_sessionID := ""; ce_lastEventID := ""; ce_capabilities := ext v;
                     ce_protocolVersion := "" |} in
  let s := {| ss_id := ""; ss_route := ""; ss_perBackendSessions := {["a" := e "a" "1"; "b" := e "b" "2"]};
              ss_extraHeaders := None; ss_perBackendExtraHeaders := None |} in
  sc_Extensions (session_mergedCapabilities map_to_list map_to_list s) ≠
  sc_Extensions (session_mergedCapabilities (λ m, reverse (map_to_list m)) map_to_list s).
Proof. vm_compute. discriminate. Qed.
End Sample.
