(* ===== verification/McpRouting.v ===== *)
(** * MCP listing and routing

    Models what a client of the MCP proxy can see and reach: the merged lists of
    tools, prompts and resources and the rewriting of resource URIs
    ([internal/mcpproxy/handlers.go]), the merged caching hints
    ([internal/mcpproxy/modern.go]), and the decision of the handlers of
    [internal/mcpproxy/legacy.go] that route one call to one backend, up to the
    HTTP exchange with that backend.  Logging, spans and metrics are left out. *)

From Stdlib Require Import Ascii ZArith Lia.
From stdpp Require Import base gmap strings list.
From S2P Require Import Prelude GoStrings GoHttp McpAuthz Crypto McpCrypto McpConfig McpController McpSession.

(** ** Caching hints *)

Record Cacheable := { ch_TTLMs : Z; ch_CacheScope : string }.

Definition defaultTTLMs : Z := 0.
Definition defaultCacheScope : string := "public".

(** One turn of the loop; [None] is [hasTTL == false]. *)
Definition cacheBody (acc : option Z * string) (result : Cacheable) : option Z * string :=
  let backendTTL := if (ch_TTLMs result <? 0)%Z then 0%Z else ch_TTLMs result in
  (match acc.1 with
   | None => Some backendTTL
   | Some ttlMs => Some (if (backendTTL <? ttlMs)%Z then backendTTL else ttlMs)
   end,
   if bool_decide (ch_CacheScope result ≠ "") && bool_decide (ch_CacheScope result ≠ defaultCacheScope)
   then "private" else acc.2).

Definition mergeCachingHintsFromBackends (results : list Cacheable) : Cacheable :=
  let '(ttlMs, cacheScope) := foldl cacheBody (None, defaultCacheScope) results in
  {| ch_TTLMs := default defaultTTLMs ttlMs; ch_CacheScope := cacheScope |}.

(** ** Rewriting of resource URIs *)

(** [m[k] = v] on a map whose key exists. *)
Fixpoint map_set (k : string) (v : value) (m : MapClaims) : MapClaims :=
  match m with
  | [] => [(k, v)]
  | (j, w) :: m => if bool_decide (j = k) then (j, v) :: m else (j, w) :: map_set k v m
  end.

(** The walk along one path; [None] when nothing changes. *)
Fixpoint rewriteAt (backendName : string) (path : list string) (node : MapClaims) : option MapClaims :=
  match path with
  | [] => None
  | [leaf] =>
      match map_get leaf node with
      | Some (VString uri) =>
          if bool_decide (uri ≠ "") then Some (map_set leaf (VString (downstreamResourceURI uri backendName)) node) else None
      | _ => None
      end
  | key :: path =>
      match map_get key node with
      | Some (VObject sub) => sub' ← rewriteAt backendName path sub; Some (map_set key (VObject sub') node)
      | _ => None
      end
  end.

Definition metaResourceURIPaths : list (list string) := [["ui"; "resourceUri"]; ["ui/resourceUri"]].

(** The rewritten map and whether anything changed. *)
Definition rewriteMetaResourceURIs (meta : MapClaims) (backendName : string) : MapClaims * bool :=
  foldl (λ acc path, match rewriteAt backendName path acc.1 with
                     | Some meta => (meta, true)
                     | None => acc
                     end) (meta, false) metaResourceURIPaths.

(** The content of a tool result: a text, an image by its type, a link, an
    embedded resource (possibly without one), or anything else. *)
Inductive content :=
| TextContent (Text : string)
| ImageContent (MIMEType : string)
| ResourceLink (URI : string)
| EmbeddedResource (Resource : option string)
| OtherContent (raw : string).

Record CallToolResult := { ctr_Meta : MapClaims; ctr_Content : list content; ctr_IsError : bool }.

Definition rewriteContent (backendName : string) (acc : list content * bool) (c : content) : list content * bool :=
  match c with
  | ResourceLink uri =>
      if bool_decide (uri ≠ "") then (acc.1 ++ [ResourceLink (downstreamResourceURI uri backendName)], true)
      else (acc.1 ++ [c], acc.2)
  | EmbeddedResource (Some uri) =>
      if bool_decide (uri ≠ "") then (acc.1 ++ [EmbeddedResource (Some (downstreamResourceURI uri backendName))], true)
      else (acc.1 ++ [c], acc.2)
  | _ => (acc.1 ++ [c], acc.2)
  end.

Definition rewriteToolResultURIs (result : CallToolResult) (backendName : string) : CallToolResult * bool :=
  let '(meta, changed) := rewriteMetaResourceURIs (ctr_Meta result) backendName in
  let '(contents, changed) := foldl (rewriteContent backendName) ([], changed) (ctr_Content result) in
  ({| ctr_Meta := meta; ctr_Content := contents; ctr_IsError := ctr_IsError result |}, changed).

(** ** Lists *)

(** The fields of the listed items that the proxy touches; the others pass. *)
Record mcpTool := { tool_Name : string; tool_Meta : MapClaims }.
Record mcpPrompt := { prompt_Name : string }.
Record mcpResource := { res_Name : string; res_URI : string }.
Record mcpResourceTemplate := { rtm_Name : string; rtm_URITemplate : string }.

Record listResult (A : Type) := { lr_items : list A; lr_cache : Cacheable }.
Arguments lr_items {A}.
Arguments lr_cache {A}.

Record broadCastResponse (A : Type) := { bc_backendName : string; bc_res : listResult A }.
Arguments bc_backendName {A}.
Arguments bc_res {A}.

Definition mergedHints {A} (responses : list (broadCastResponse A)) : Cacheable :=
  mergeCachingHintsFromBackends ((λ r, lr_cache (bc_res r)) <$> responses).

Section Routing.
Context `{CR : !Crypto} `{L : !AuthzLib} `{CE : !AuthzCel} `{RX : !Regexps}.

(** The request a listing is authorized with. *)
Definition listingRequest (m : mcpRequestContext) (backend tool : string) : authorizationRequest :=
  {| rq_Headers := rc_requestHeaders m; rq_HTTPMethod := ""; rq_Host := ""; rq_HTTPPath := "";
     rq_MCPMethod := "tools/call"; rq_Backend := backend; rq_Tool := tool; rq_Params := None |}.

(** The body of the inner loop of [mergeToolsList]; [None] is [continue]. *)
Definition mergeTool (m : mcpRequestContext) (route : mcpProxyConfigRoute) (backendName : string) (tool : mcpTool) :
    option mcpTool :=
  if match rt_toolSelectors route !! backendName with
     | Some selector => negb (selector_allows selector (tool_Name tool))
     | None => false
     end then None
  else if match rt_authorization route with
          | Some _ => negb (authorizeRequest (rc_rangeHeaders m) (rt_authorization route)
                             (listingRequest m backendName (tool_Name tool))).1
          | None => false
          end then None
  else
    let meta := (rewriteMetaResourceURIs (tool_Meta tool) backendName).1 in
    if bool_decide (effectivePrefixMode route backendName ≠ PrefixModeNever) then
      let prefixed := downstreamResourceName (tool_Name tool) backendName in
      match rt_neverModeToolIndex route !! prefixed with
      | Some _ => None
      | None => Some {| tool_Name := prefixed; tool_Meta := meta |}
      end
    else Some {| tool_Name := tool_Name tool; tool_Meta := meta |}.

Definition mergeToolsList (m : mcpRequestContext) (s : session) (responses : list (broadCastResponse mcpTool)) :
    listResult mcpTool :=
  match rc_routes m !! ss_route s with
  | None => {| lr_items := []; lr_cache := {| ch_TTLMs := 0; ch_CacheScope := "" |} |}
  | Some route =>
      {| lr_items := flat_map (λ r, omap (mergeTool m route (bc_backendName r)) (lr_items (bc_res r))) responses;
         lr_cache := mergedHints responses |}
  end.

Definition mergeResourceList (responses : list (broadCastResponse mcpResource)) : listResult mcpResource :=
  {| lr_items := flat_map (λ r, (λ res, {| res_Name := downstreamResourceName (res_Name res) (bc_backendName r);
                                           res_URI := downstreamResourceURI (res_URI res) (bc_backendName r) |})
                                <$> lr_items (bc_res r)) responses;
     lr_cache := mergedHints responses |}.

Definition mergeResourcesTemplateList (responses : list (broadCastResponse mcpResourceTemplate)) :
    listResult mcpResourceTemplate :=
  {| lr_items := flat_map (λ r, (λ res, {| rtm_Name := downstreamResourceName (rtm_Name res) (bc_backendName r);
                                           rtm_URITemplate := downstreamResourceURI (rtm_URITemplate res) (bc_backendName r) |})
                                <$> lr_items (bc_res r)) responses;
     lr_cache := mergedHints responses |}.

Definition mergePrompt (route : option mcpProxyConfigRoute) (backendName : string) (prompt : mcpPrompt) : option mcpPrompt :=
  let backendMode := from_option (λ route, effectivePrefixMode route backendName) PrefixModeAlways route in
  let selector := route ≫= λ route, rt_promptSelectors route !! backendName in
  let index := from_option rt_neverModePromptIndex ∅ route in
  if match selector with Some sel => negb (selector_allows sel (prompt_Name prompt)) | None => false end then None
  else if bool_decide (backendMode = PrefixModeNever) && bool_decide (mget index (prompt_Name prompt) = backendName)
  then Some prompt
  else
    let prefixed := downstreamResourceName (prompt_Name prompt) backendName in
    match index !! prefixed with
    | Some _ => None
    | None => Some {| prompt_Name := prefixed |}
    end.

Definition mergePromptsList (m : mcpRequestContext) (s : session) (responses : list (broadCastResponse mcpPrompt)) :
    listResult mcpPrompt :=
  let route := rc_routes m !! ss_route s in
  {| lr_items := flat_map (λ r, omap (mergePrompt route (bc_backendName r)) (lr_items (bc_res r))) responses;
     lr_cache := mergedHints responses |}.

(** ** Routing of one call *)

(** The answer of a handler: an error response, with a challenge in the
    [WWW-Authenticate] header, or the call that is sent to a backend. *)
Inductive routed :=
| Rejected (status : Z) (challenge : option string) (body : string) (err : error)
| Forwarded (backend : MCPBackend) (cse : compositeSessionEntry) (name : string).

Definition errSessionNotFound : error := errors_Sentinel "session not found" ErrSessionNotFound.
Definition errBackendNotFound : error := errors_Sentinel "backend not found" ErrBackendNotFound.
Definition errInvalidToolName : error := errors_Sentinel "invalid tool name" ErrInvalidToolName.
Definition errInvalidPromptName : error := errors_Sentinel "invalid prompt name" ErrInvalidPromptName.

Definition getBackendForRoute (m : mcpRequestContext) (route backend : string) : outcome MCPBackend :=
  match rc_routes m !! route with
  | None => Fail (errors_New ("no route found for " +:+ Quote route))
  | Some r =>
      match rt_backends r !! backend with
      | Some b => Ok b
      | None => Fail (errors_New ("no backend found for " +:+ Quote backend +:+ " in route " +:+ Quote route))
      end
  end.

Definition getCompositeSessionEntry (s : session) (backend : string) : option compositeSessionEntry :=
  ss_perBackendSessions s !! backend.

Definition unknownBackend (backendName detail : string) : routed :=
  Rejected 404 None ("unknown backend " +:+ backendName)
    (Errorf_suffix errBackendNotFound (": unknown backend " +:+ backendName +:+ detail)).

Definition noSession (backendName : string) : routed :=
  Rejected 403 None ("no MCP session found for backend " +:+ backendName)
    (Errorf_suffix errSessionNotFound (": no MCP session found for backend " +:+ backendName)).

(** The HTTP request a call arrived with. *)
Record httpRequest := {
  hr_Header : http_Header;
  hr_Method : string;
  hr_Host : string;
  hr_Path : string;
}.

Definition callRequest (r : httpRequest) (method backend tool : string) (params : Params) : authorizationRequest :=
  {| rq_Headers := hr_Header r; rq_HTTPMethod := hr_Method r; rq_Host := hr_Host r; rq_HTTPPath := hr_Path r;
     rq_MCPMethod := method; rq_Backend := backend; rq_Tool := tool; rq_Params := Some params |}.

(** The first lines of [handleToolCallRequest]. *)
Definition resolveTool (m : mcpRequestContext) (routeName name : string) : outcome (string * string) :=
  match rc_routes m !! routeName ≫= λ route, rt_neverModeToolIndex route !! name with
  | Some indexedBackend => Ok (indexedBackend, name)
  | None => upstreamResourceName name
  end.

Definition handleToolCallRequest (m : mcpRequestContext) (s : session) (method name : string) (params : Params)
    (r : httpRequest) : routed :=
  match resolveTool m (ss_route s) name with
  | Ok (backendName, toolName) =>
      match getBackendForRoute m (ss_route s) backendName with
      | Ok backend =>
          match rc_routes m !! ss_route s with
          | None => Rejected 500 None ("route not found: " +:+ ss_route s) (errors_New ("route not found: " +:+ ss_route s))
          | Some route =>
              if match rt_toolSelectors route !! backendName with
                 | Some selector => negb (selector_allows selector toolName)
                 | None => false
                 end
              then Rejected 400 None ("invalid tool name: " +:+ toolName) (Errorf_suffix errInvalidToolName (": " +:+ toolName))
              else
                let '(allowed, requiredScopes) :=
                  authorizeRequest (rc_rangeHeaders m) (rt_authorization route)
                    (callRequest r method backendName toolName params) in
                if negb allowed then
                  Rejected 403
                    (match requiredScopes with
                     | [] => None
                     | _ => Some (buildInsufficientScopeHeader requiredScopes
                                    (from_option ca_ResourceMetadataURL "" (rt_authorization route)))
                     end) "access denied" (errors_New "authorization failed")
                else
                  match getCompositeSessionEntry s backendName with
                  | None => noSession backendName
                  | Some cse => Forwarded backend cse toolName
                  end
          end
      | _ => unknownBackend backendName ""
      end
  | Fail err => Rejected 400 None ("invalid tool name " +:+ name +:+ ": " +:+ err_msg err) err
  | Panic msg => Rejected 500 None msg (errors_New msg)
  end.

Definition resolvePromptBackend (m : mcpRequestContext) (routeName name : string) : outcome (string * string) :=
  match rc_routes m !! routeName ≫= λ route, rt_neverModePromptIndex route !! name with
  | Some indexedBackend => Ok (indexedBackend, name)
  | None => upstreamResourceName name
  end.

Definition promptAllowed (m : mcpRequestContext) (routeName backendName promptName : string) : bool :=
  match rc_routes m !! routeName with
  | None => false
  | Some route => match rt_promptSelectors route !! backendName with
                  | Some selector => selector_allows selector promptName
                  | None => true
                  end
  end.

(** The lines that the handlers below share: look the backend up, check what is
    specific to the handler, look its session up. *)
Definition toBackend (m : mcpRequestContext) (s : session) (backendName name detail : string)
    (guard : option routed) : routed :=
  match getBackendForRoute m (ss_route s) backendName with
  | Ok backend =>
      match guard with
      | Some rejected => rejected
      | None =>
          match getCompositeSessionEntry s backendName with
          | None => noSession backendName
          | Some cse => Forwarded backend cse name
          end
      end
  | _ => unknownBackend backendName detail
  end.

Definition handlePromptGetRequest (m : mcpRequestContext) (s : session) (name : string) : routed :=
  match resolvePromptBackend m (ss_route s) name with
  | Ok (backendName, promptName) =>
      toBackend m s backendName promptName (" in prompt name " +:+ name)
        (if negb (promptAllowed m (ss_route s) backendName promptName) then
           Some (Rejected 400 None ("invalid prompt name: " +:+ name) (Errorf_suffix errInvalidPromptName (": " +:+ name)))
         else None)
  | Fail err => Rejected 400 None ("invalid prompt name " +:+ name +:+ ": " +:+ err_msg err) err
  | Panic msg => Rejected 500 None msg (errors_New msg)
  end.

(** The [resources/read] handler; [resources/subscribe] and
    [resources/unsubscribe] route in the same way. *)
Definition handleResourceReadRequest (m : mcpRequestContext) (s : session) (uri : string) : routed :=
  match upstreamResourceURI uri with
  | Ok (backendName, resourceName) => toBackend m s backendName resourceName (" in resource name " +:+ uri) None
  | Fail err => Rejected 400 None ("invalid resource name " +:+ uri +:+ ": " +:+ err_msg err) err
  | Panic msg => Rejected 500 None msg (errors_New msg)
  end.

Definition handleResourcesSubscriptionRequest (m : mcpRequestContext) (s : session) (uri : string) : routed :=
  match upstreamResourceURI uri with
  | Ok (backendName, resourceName) => toBackend m s backendName resourceName (" in resource name " +:+ uri) None
  | Fail err => Rejected 400 None ("invalid resource name " +:+ uri +:+ ": " +:+ err_msg err) err
  | Panic msg => Rejected 500 None msg (errors_New msg)
  end.

(** The reference of a completion: a prompt by name, a resource by URI, or
    another type, which no [case] of the source handles. *)
Record CompleteReference := { cr_Type : string; cr_Name : string; cr_URI : string }.

(** The reference after the [switch], with the backend; a name that does not
    resolve is emptied by the assignment before the error is looked at. *)
Definition resolveReference (m : mcpRequestContext) (routeName : string) (ref : CompleteReference) :
    CompleteReference * outcome string :=
  if bool_decide (cr_Type ref = "ref/prompt") then
    match resolvePromptBackend m routeName (cr_Name ref) with
    | Ok (backendName, name) => ({| cr_Type := cr_Type ref; cr_Name := name; cr_URI := cr_URI ref |}, Ok backendName)
    | Fail err => ({| cr_Type := cr_Type ref; cr_Name := ""; cr_URI := cr_URI ref |}, Fail err)
    | Panic msg => (ref, Panic msg)
    end
  else if bool_decide (cr_Type ref = "ref/resource") then
    match upstreamResourceURI (cr_URI ref) with
    | Ok (backendName, uri) => ({| cr_Type := cr_Type ref; cr_Name := cr_Name ref; cr_URI := uri |}, Ok backendName)
    | Fail err => ({| cr_Type := cr_Type ref; cr_Name := cr_Name ref; cr_URI := "" |}, Fail err)
    | Panic msg => (ref, Panic msg)
    end
  else (ref, Ok "").

(** [cmp.Or(param.Ref.Name, param.Ref.URI)]. *)
Definition refText (ref : CompleteReference) : string := if bool_decide (cr_Name ref ≠ "") then cr_Name ref else cr_URI ref.

Definition handleCompletionComplete (m : mcpRequestContext) (s : session) (ref : CompleteReference) : routed :=
  let '(ref', resolved) := resolveReference m (ss_route s) ref in
  let isPrompt := bool_decide (cr_Type ref' = "ref/prompt") in
  match resolved with
  | Ok backendName =>
      match getBackendForRoute m (ss_route s) backendName with
      | Ok backend =>
          if isPrompt && negb (promptAllowed m (ss_route s) backendName (cr_Name ref')) then
            Rejected 400 None ("invalid prompt name: " +:+ cr_Name ref) (Errorf_suffix errInvalidPromptName (": " +:+ cr_Name ref))
          else
            match getCompositeSessionEntry s (mb_Name backend) with
            | None => noSession backendName
            | Some cse => Forwarded backend cse (if isPrompt then cr_Name ref' else cr_URI ref')
            end
      | _ => unknownBackend backendName (" in resource name " +:+ refText ref')
      end
  | Fail err => Rejected 400 None ("invalid resource name " +:+ refText ref' +:+ ": " +:+ err_msg err) err
  | Panic msg => Rejected 500 None msg (errors_New msg)
  end.
End Routing.

(** ** Properties of the hints *)

(** [lo] is the least element of a list. *)
Definition least_of (lo : Z) (l : list Z) : Prop := lo ∈ l ∧ Forall (Z.le lo) l.

Definition clampTTL (c : Cacheable) : Z := Z.max 0 (ch_TTLMs c).

Lemma cacheBody_fold results :
  let r := foldl cacheBody (None, defaultCacheScope) results in
  match r.1 with None => results = [] | Some t => least_of t (clampTTL <$> results) end ∧
  r.2 = (if forallb (λ c, bool_decide (ch_CacheScope c = "") || bool_decide (ch_CacheScope c = "public")) results
         then "public" else "private").
Proof.
  induction results as [|c results [IHt IHs]] using rev_ind; [done|].
  rewrite foldl_app, fmap_app, forallb_app. cbn zeta in *. cbn [foldl].
  destruct (foldl cacheBody _ results) as [t sc]. cbn in *. split.
  - assert ((if (ch_TTLMs c <? 0)%Z then 0%Z else ch_TTLMs c) = clampTTL c) as ->.
    { unfold clampTTL. destruct (Z.ltb_spec (ch_TTLMs c) 0); lia. }
    destruct t as [t|]; unfold least_of.
    + destruct IHt as [Hin Hall]. destruct (Z.ltb_spec (clampTTL c) t) as [Hlt|Hge].
      * split; [apply elem_of_app; right; by apply list_elem_of_singleton|].
        apply Forall_app. split; [|by repeat constructor].
        eapply Forall_impl; [exact Hall|]. intros; lia.
      * split; [apply elem_of_app; by left|]. apply Forall_app. split; [done|]. repeat constructor. lia.
    + subst. cbn. split; [by left|]. by repeat constructor.
  - rewrite IHs. unfold defaultCacheScope. rewrite andb_true_r.
    repeat case_bool_decide; cbn; rewrite ?andb_true_r, ?andb_false_r; naive_solver.
Qed.

(** An aggregated listing is never cached longer or more widely than its
    strictest part allows: its TTL is the least of the TTLs of the backends, with
    negative ones counted as zero, and its scope is public only when every
    backend says public or says nothing. *)
Theorem merged_hints_strictest results :
  results ≠ [] →
  least_of (ch_TTLMs (mergeCachingHintsFromBackends results)) (clampTTL <$> results) ∧
  (ch_CacheScope (mergeCachingHintsFromBackends results) = "public" ↔
   Forall (λ c, ch_CacheScope c = "" ∨ ch_CacheScope c = "public") results).
Proof.
  intros Hne. unfold mergeCachingHintsFromBackends. destruct (cacheBody_fold results) as [Ht Hs].
  destruct (foldl cacheBody _ results) as [t sc]. cbn in *. destruct t as [t|]; [|done]. split; [done|].
  rewrite Hs. destruct (forallb _ _) eqn:Ef.
  - rewrite forallb_forall in Ef. split; [|done]. intros _. apply Forall_forall. intros c Hc%list_elem_of_In.
    apply Ef, orb_true_iff in Hc. by rewrite !bool_decide_eq_true in Hc.
  - split; [done|]. intros Hall. apply not_true_iff_false in Ef. destruct Ef. apply forallb_forall.
    intros c Hc%list_elem_of_In. rewrite Forall_forall in Hall. rewrite orb_true_iff, !bool_decide_eq_true. by apply Hall.
Qed.

(** ** Which calls reach a backend *)

Section Mediation.
Context `{CR : !Crypto} `{L : !AuthzLib} `{CE : !AuthzCel} `{RX : !Regexps}.

(** How a route reads a tool name: bare when it is in the index, prefixed otherwise. *)
Definition reads_as (index : gmap string string) (name backend tool : string) : Prop :=
  (index !! name = Some backend ∧ tool = name) ∨
  (index !! name = None ∧ upstreamResourceName name = Ok (backend, tool)).

Definition selected (selectors : gmap string toolSelector) (backend name : string) : bool :=
  match selectors !! backend with Some sel => selector_allows sel name | None => true end.

Lemma ex_Some {A} (a : A) (P : A → Prop) : (∃ x, Some a = Some x ∧ P x) ↔ P a.
Proof. naive_solver. Qed.

Lemma negb_selected selectors backend name :
  match selectors !! backend with Some sel => negb (selector_allows sel name) | None => false end =
  negb (selected selectors backend name).
Proof. unfold selected. by destruct (selectors !! backend). Qed.

Lemma resolve_reads index name backend tool :
  match index !! name with Some b => Ok (b, name) | None => upstreamResourceName name end = Ok (backend, tool) ↔
  reads_as index name backend tool.
Proof. unfold reads_as. destruct (index !! name); naive_solver. Qed.

Lemma getBackendForRoute_ok m route name b :
  getBackendForRoute m route name = Ok b ↔ ∃ r, rc_routes m !! route = Some r ∧ rt_backends r !! name = Some b.
Proof. unfold getBackendForRoute. destruct (rc_routes m !! route) as [r|]; [|naive_solver]. destruct (_ !! name) eqn:?; naive_solver. Qed.

(** What a permitted call to a tool passes. *)
Definition permitted (m : mcpRequestContext) (route : mcpProxyConfigRoute) (method backend tool : string) (params : Params)
    (r : httpRequest) : Prop :=
  selected (rt_toolSelectors route) backend tool = true ∧
  (authorizeRequest (rc_rangeHeaders m) (rt_authorization route) (callRequest r method backend tool params)).1 = true.

Lemma tool_call_forwarded m s method name params r backend cse tool :
  (∃ route, rc_routes m !! ss_route s = Some route ∧ ∃ key, reads_as (rt_neverModeToolIndex route) name key tool ∧
    rt_backends route !! key = Some backend ∧ permitted m route method key tool params r ∧
    ss_perBackendSessions s !! key = Some cse) ↔
  handleToolCallRequest m s method name params r = Forwarded backend cse tool.
Proof.
  unfold handleToolCallRequest, resolveTool, getCompositeSessionEntry, permitted.
  destruct (rc_routes m !! ss_route s) as [route|] eqn:Er; cycle 1.
  { cbn. destruct (upstreamResourceName name) as [[b t]| |]; [|naive_solver..].
    unfold getBackendForRoute. rewrite Er. naive_solver. }
  cbn. rewrite ex_Some. setoid_rewrite <-resolve_reads.
  destruct (match rt_neverModeToolIndex route !! name with Some _ => _ | None => _ end) as [[b t]| |]; [|naive_solver..].
  unfold getBackendForRoute. rewrite Er, negb_selected. split.
  - intros (key & [= -> ->] & -> & [-> Ha] & ->). destruct (authorizeRequest _ _ _) as [[] scopes]; cbn in *; done.
  - destruct (rt_backends route !! b) eqn:Eb; [|done]. destruct (selected _ b t) eqn:Es; [cbn|done].
    destruct (authorizeRequest _ _ _) as [[] scopes] eqn:Ea; [cbn|done].
    destruct (ss_perBackendSessions s !! b) eqn:Ec; [|done]. intros [= -> -> ->]. exists b. by rewrite Ea.
Qed.

(** C21: complete mediation of tool calls: a call is forwarded exactly when the
    name reads as a tool of a backend of the session's route, the selector of
    that backend exposes the tool, the rules of the route allow the call, and the
    session was authorized for that backend; it then goes to that backend under
    the tool's own name. *)
Theorem tool_call_mediated m s method name params r backend cse tool :
  handleToolCallRequest m s method name params r = Forwarded backend cse tool ↔
  ∃ route, rc_routes m !! ss_route s = Some route ∧ ∃ key, reads_as (rt_neverModeToolIndex route) name key tool ∧
    rt_backends route !! key = Some backend ∧ permitted m route method key tool params r ∧
    ss_perBackendSessions s !! key = Some cse.
Proof. symmetry. apply tool_call_forwarded. Qed.

(** The same for prompts, which have no rules. *)
Lemma prompt_get_mediated m s name backend cse prompt :
  handlePromptGetRequest m s name = Forwarded backend cse prompt ↔
  ∃ route, rc_routes m !! ss_route s = Some route ∧ ∃ key, reads_as (rt_neverModePromptIndex route) name key prompt ∧
    rt_backends route !! key = Some backend ∧ selected (rt_promptSelectors route) key prompt = true ∧
    ss_perBackendSessions s !! key = Some cse.
Proof.
  unfold handlePromptGetRequest, resolvePromptBackend, promptAllowed, toBackend, getCompositeSessionEntry, selected.
  destruct (rc_routes m !! ss_route s) as [route|] eqn:Er; cycle 1.
  { cbn. destruct (upstreamResourceName name) as [[b t]| |]; [|naive_solver..].
    unfold getBackendForRoute. rewrite Er. naive_solver. }
  cbn. rewrite ex_Some. setoid_rewrite <-resolve_reads.
  destruct (match rt_neverModePromptIndex route !! name with Some _ => _ | None => _ end) as [[b t]| |]; [|naive_solver..].
  unfold getBackendForRoute. rewrite Er. symmetry. split.
  - by intros (key & [= -> ->] & -> & -> & ->).
  - destruct (rt_backends route !! b) eqn:Eb; [|done].
    destruct (match rt_promptSelectors route !! b with Some sel => selector_allows sel t | None => true end) eqn:Es; [cbn|done].
    destruct (ss_perBackendSessions s !! b) eqn:Ec; [|done]. intros [= -> -> ->]. by exists b.
Qed.
End Mediation.

(** ** Listed names lead back *)

Section Listed.
Context `{CR : !Crypto} `{L : !AuthzLib} `{CE : !AuthzCel} `{RX : !Regexps}.

(** A selector with included names allows nothing else. *)
Lemma allowed_is_claimed ts name :
  ts_include ts ≠ ∅ → selector_allows ts name = true → claims (Some ts) name = true.
Proof.
  intros Hne Ha. cbn. rewrite Ha, andb_true_r. revert Ha. unfold selector_allows.
  case_bool_decide; [done|]. destruct (existsb _ _); [done|]. by rewrite bool_decide_true.
Qed.

(** A tool that a listing keeps passed the selector and the rules, and its
    listed name reads as the tool of its backend. *)
Lemma mergeTool_reads m route key tool t :
  never_exclusive route → Contains key "_" = false → is_Some (rt_backends route !! key) →
  mergeTool m route key tool = Some t →
  reads_as (rt_neverModeToolIndex route) (tool_Name t) key (tool_Name tool) ∧
  selected (rt_toolSelectors route) key (tool_Name tool) = true ∧
  (authorizeRequest (rc_rangeHeaders m) (rt_authorization route) (listingRequest m key (tool_Name tool))).1 = true.
Proof.
  intros Hx Hk Hb. unfold mergeTool. rewrite negb_selected.
  destruct (selected _ key _) eqn:Hsel; [cbn [negb]|done].
  destruct (match rt_authorization route with Some _ => negb _ | None => false end) eqn:Ea; [done|].
  assert ((authorizeRequest (rc_rangeHeaders m) (rt_authorization route) (listingRequest m key (tool_Name tool))).1 = true)
    as Hauth by (destruct (rt_authorization route); [by apply negb_false_iff|done]).
  case_bool_decide as Hm.
  - destruct (rt_neverModeToolIndex route !! _) eqn:Ei; [done|]. intros [= <-]. split; [|done]. right. split; [done|].
    by apply upstreamResourceName_down.
  - intros [= <-]. split; [|done]. left. split; [|done].
    destruct (Hx key Hb) as (ts & Hts & Hne & Hown); [by destruct (decide (effectivePrefixMode route key = PrefixModeNever))|].
    unfold selected in Hsel. rewrite Hts in Hsel. by apply Hown, allowed_is_claimed.
Qed.

(** A response comes from a backend of the route that the session has. *)
Definition from_session (s : session) (route : mcpProxyConfigRoute) (key : string) : Prop :=
  is_Some (rt_backends route !! key) ∧ is_Some (ss_perBackendSessions s !! key) ∧ Contains key "_" = false.

(** C22: what a validated route lists can be called: for a route that the
    controller accepted and the proxy loaded, a listed tool, called by its listed
    name, goes to the backend that offered it and under the name it has there,
    unless the rules of the route refuse the call; rules without CEL conditions
    do not refuse it to the caller that was shown it. *)
Theorem listed_tool_routes_back visit spec (m : mcpRequestContext) (s : session) route responses t method params r :
  (∀ l, visit l ≡ₚ elements l) → schema_ok spec → validatePerBackendPrefixMode spec = Ok tt →
  buildRoute visit (mcpRouteOf spec) = Ok route → rc_routes m !! ss_route s = Some route →
  Forall (λ resp, from_session s route (bc_backendName resp)) responses →
  t ∈ lr_items (mergeToolsList m s responses) →
  ∃ resp tool backend cse, resp ∈ responses ∧ tool ∈ lr_items (bc_res resp) ∧
    rt_backends route !! bc_backendName resp = Some backend ∧
    ss_perBackendSessions s !! bc_backendName resp = Some cse ∧
    let call := handleToolCallRequest m s method (tool_Name t) params r in
    ((authorizeRequest (rc_rangeHeaders m) (rt_authorization route)
        (callRequest r method (bc_backendName resp) (tool_Name tool) params)).1 = true →
     call = Forwarded backend cse (tool_Name tool)) ∧
    (Forall (λ rule, cr_celProgram rule = None) (from_option ca_Rules [] (rt_authorization route)) →
     hr_Header r = rc_requestHeaders m → call = Forwarded backend cse (tool_Name tool)).
Proof.
  intros Hvisit Hok Hval Hbuild Hroute Hresp. unfold mergeToolsList. rewrite Hroute. cbn [lr_items].
  pose proof (validated_route_exclusive visit Hvisit spec route Hok Hval Hbuild) as Hx.
  intros (resp & Hin & Ht)%list_elem_of_In%in_flat_map. apply list_elem_of_In in Hin, Ht.
  apply list_elem_of_omap in Ht as (tool & Htool & Hm).
  rewrite Forall_forall in Hresp. destruct (Hresp resp Hin) as ([backend Hb] & [cse Hc] & Hk).
  destruct (mergeTool_reads m route _ _ _ Hx Hk (mk_is_Some _ _ Hb) Hm) as (Hr & Hs & Ha).
  exists resp, tool, backend, cse. do 4 (split; [done|]). cbn zeta.
  assert ((authorizeRequest (rc_rangeHeaders m) (rt_authorization route)
        (callRequest r method (bc_backendName resp) (tool_Name tool) params)).1 = true →
     handleToolCallRequest m s method (tool_Name t) params r = Forwarded backend cse (tool_Name tool)) as Hgo.
  { intros Hauth. apply tool_call_forwarded. exists route. split; [done|]. by exists (bc_backendName resp). }
  split; [done|]. intros Hcel Hh. apply Hgo.
  by rewrite (authorizeRequest_no_cel _ _ _ (listingRequest m (bc_backendName resp) (tool_Name tool)) Hcel).
Qed.

(** What is listed of the prompts can be read: a listed prompt, asked for by
    its listed name, goes to the backend that offered it, under its own name. *)
Theorem listed_prompt_routes_back m s route responses p :
  rc_routes m !! ss_route s = Some route →
  Forall (λ resp, from_session s route (bc_backendName resp) ∧ bc_backendName resp ≠ "") responses →
  p ∈ lr_items (mergePromptsList m s responses) →
  ∃ resp prompt backend cse, resp ∈ responses ∧ prompt ∈ lr_items (bc_res resp) ∧
    rt_backends route !! bc_backendName resp = Some backend ∧
    ss_perBackendSessions s !! bc_backendName resp = Some cse ∧
    handlePromptGetRequest m s (prompt_Name p) = Forwarded backend cse (prompt_Name prompt).
Proof.
  intros Hroute Hresp. unfold mergePromptsList. cbn [lr_items]. rewrite Hroute.
  intros (resp & Hin & Ht)%list_elem_of_In%in_flat_map. apply list_elem_of_In in Hin, Ht.
  apply list_elem_of_omap in Ht as (prompt & Htool & Hm).
  rewrite Forall_forall in Hresp. destruct (Hresp resp Hin) as (([backend Hb] & [cse Hc] & Hk) & Hne).
  exists resp, prompt, backend, cse. split_and!; [done..|]. apply prompt_get_mediated.
  exists route. split; [done|]. exists (bc_backendName resp). revert Hm. unfold mergePrompt. cbn. rewrite negb_selected.
  destruct (selected _ _ _) eqn:Hs; [cbn [negb]|done]. unfold reads_as.
  destruct (bool_decide (_ = PrefixModeNever) && _) eqn:Ei.
  - intros [= <-]. split_and!; try done. left. split; [|done].
    apply andb_true_iff in Ei as [_ Ei%bool_decide_eq_true]. revert Ei. unfold mget.
    destruct (_ !! prompt_Name prompt); cbn; congruence.
  - destruct (_ !! downstreamResourceName _ _) eqn:Ed; [done|]. intros [= <-]. split_and!; try done.
    right. split; [done|]. by apply upstreamResourceName_down.
Qed.
End Listed.

(** ** Concrete runs *)

Module Sample.
Import Toy McpAuthz.Sample McpSession.Sample.

Definition hint (ttl : Z) (scope : string) : Cacheable := {| ch_TTLMs := ttl; ch_CacheScope := scope |}.

Lemma merged_hints_strictest_witness :
  least_of (ch_TTLMs (mergeCachingHintsFromBackends [hint 30 "public"; hint (-5) ""; hint 9 "private"])) [30; 0; 9]%Z ∧
  ch_CacheScope (mergeCachingHintsFromBackends [hint 30 "public"; hint (-5) ""; hint 9 "private"]) ≠ "public".
Proof.
  destruct (merged_hints_strictest [hint 30 "public"; hint (-5) ""; hint 9 "private"] ltac:(discriminate)) as [H1 H2].
  split; [exact H1|]. rewrite H2. intros [_ [_ [[|] _]%Forall_cons]%Forall_cons]%Forall_cons; discriminate.
Defined.

(** github has prefixed names; search has bare ones and declares them. *)
Definition ref (name : string) (mode : option string) (include : list string) : aigMCPRouteBackendRef :=
  let f := {| tf_Include := include; tf_IncludeRegex := []; tf_Exclude := []; tf_ExcludeRegex := [] |} in
  {| br_Name := name; br_ToolSelector := if bool_decide (include = []) then None else Some f;
     br_PromptSelector := if bool_decide (include = []) then None
                          else Some {| pf_Include := include; pf_IncludeRegex := []; pf_Exclude := []; pf_ExcludeRegex := [] |};
     br_ForwardHeaders := []; br_PrefixMode := mode |}.
Definition spec : aigMCPRoute :=
  {| ro_Namespace := "default"; ro_Name := "tools"; ro_Deleted := false; ro_CreationTimestamp := 0; ro_ParentRefs := [];
     ro_BackendRefs := [ref "github" None []; ref "search" (Some "Never") ["find"]];
     ro_SecurityPolicy := None; ro_BackendSelector := None; ro_PrefixMode := None |}.
Definition route : mcpProxyConfigRoute :=
  match buildRoute elements (mcpRouteOf spec) with Ok r => r | _ => McpSession.Sample.route end.
Definition ctx : mcpRequestContext :=
  {| rc_routes := {["tools" := route]}; rc_requestHeaders := ∅; rc_sessionCrypto := old;
     rc_rangeEvents := map_to_list; rc_rangeBackends := map_to_list; rc_rangeHeaders := map_to_list;
     rc_initializeSession := λ b, Ok (mb_Name b, Some caps, "2025-06-18"); rc_rand := rand |}.
Definition entry (name : string) : compositeSessionEntry :=
  {| ce_backendName := name; ce_sessionID := name; ce_lastEventID := ""; ce_capabilities := Some caps; ce_protocolVersion := "" |}.
Definition sess : session :=
  {| ss_id := ""; ss_route := "tools"; ss_perBackendSessions := {["github" := entry "github"; "search" := entry "search"]};
     ss_extraHeaders := None; ss_perBackendExtraHeaders := None |}.
Definition response {A} (backend : string) (items : list A) : broadCastResponse A :=
  {| bc_backendName := backend; bc_res := {| lr_items := items; lr_cache := hint 0 "" |} |}.
Definition tool (name : string) : mcpTool := {| tool_Name := name; tool_Meta := [] |}.
Definition tools : list (broadCastResponse mcpTool) :=
  [response "github" [tool "find"]; response "search" [tool "find"; tool "drop"]].
Definition prompts : list (broadCastResponse mcpPrompt) :=
  [response "github" [{| prompt_Name := "find" |}]; response "search" [{| prompt_Name := "find" |}]].
Definition request : httpRequest := {| hr_Header := ∅; hr_Method := "POST"; hr_Host := ""; hr_Path := "/mcp" |}.

Lemma from_sample (b : string) : b ∈ ["github"; "search"] → from_session sess route b.
Proof. intros [->|[->|H%elem_of_nil]%elem_of_cons]%elem_of_cons; [..|done]; vm_compute; eauto. Qed.

(** The two tools of one name are told apart; the third is not exposed. *)
Lemma listed_tool_routes_back_witness :
  tool_Name <$> lr_items (mergeToolsList ctx sess tools) = ["github__find"; "find"] ∧
  ∃ b cse n, handleToolCallRequest ctx sess "tools/call" "find" ("" : string) request = Forwarded b cse n.
Proof.
  split; [vm_compute; reflexivity|].
  destruct (listed_tool_routes_back elements spec ctx sess route tools (tool "find") "tools/call" ("" : string) request)
    as (resp & t & b & cse & _ & _ & _ & _ & _ & H).
  - reflexivity.
  - split; repeat constructor; vm_compute; try discriminate; intros H; inversion H; subst; inversion H2.
  - vm_compute. reflexivity.
  - vm_compute. reflexivity.
  - vm_compute. reflexivity.
  - repeat constructor; apply from_sample; vm_compute; repeat constructor.
  - vm_compute. right. left.
  - exists b, cse, (tool_Name t). apply H; [vm_compute; constructor|reflexivity].
Defined.

Lemma listed_prompt_routes_back_witness :
  prompt_Name <$> lr_items (mergePromptsList ctx sess prompts) = ["github__find"; "find"] ∧
  ∃ b cse n, handlePromptGetRequest ctx sess "github__find" = Forwarded b cse n.
Proof.
  split; [vm_compute; reflexivity|].
  destruct (listed_prompt_routes_back ctx sess route prompts {| prompt_Name := "github__find" |})
    as (resp & t & b & cse & _ & _ & _ & _ & H).
  - vm_compute. reflexivity.
  - repeat constructor; try (apply from_sample; vm_compute; repeat constructor); vm_compute; discriminate.
  - vm_compute. left.
  - exists b, cse, (prompt_Name t). exact H.
Defined.
End Sample.
