(* ===== verification/McpReload.v ===== *)
(** * Reloads of the MCP configuration

    The theorems about [LoadConfig] of [internal/mcpproxy/config.go] and its
    clients: a reload that wakes no watcher changes no listing, a failed reload
    changes nothing, and sessions survive a rotation of the encryption seed that
    goes through the configuration. *)

From Stdlib Require Import Ascii ZArith Lia.
From stdpp Require Import base gmap strings list sorting.
From S2P Require Import Prelude GoStrings GoHttp McpAuthz Crypto McpCrypto McpConfig McpController McpSession McpRouting.

(** ** Comparisons *)

Lemma EqualFunc_Forall2 {A} (f : A → A → bool) l1 l2 :
  EqualFunc f l1 l2 = true ↔ Forall2 (λ a b, f a b = true) l1 l2.
Proof.
  revert l2. induction l1 as [|a l1 IH]; intros [|b l2]; cbn; [done|by split; [|inversion 1]..|].
  by rewrite andb_true_iff, IH, Forall2_cons.
Qed.

(** Equal sizes make the comparison symmetric: both maps have the same keys. *)
Lemma maps_EqualFunc_lookup {V} (f : V → V → bool) m1 m2 k :
  maps_EqualFunc f m1 m2 = true →
  match m1 !! k, m2 !! k with Some a, Some b => f a b = true | None, None => True | _, _ => False end.
Proof.
  unfold maps_EqualFunc. intros [Hs%bool_decide_eq_true Hf]%andb_true_iff. rewrite forallb_forall in Hf.
  assert (∀ j a, m1 !! j = Some a → ∃ b, m2 !! j = Some b ∧ f a b = true) as Hsub.
  { intros j a Hj. specialize (Hf (j, a)). cbn in Hf. destruct (m2 !! j) as [b|]; [exists b|];
      (split; [done|]) || exfalso; [apply Hf | discriminate Hf]; by apply list_elem_of_In, elem_of_map_to_list. }
  assert (dom m1 = dom m2) as Hd.
  { apply leibniz_equiv, set_subseteq_size_equiv; [|by rewrite !size_dom, Hs].
    intros j [a Ha]%elem_of_dom. destruct (Hsub j a Ha) as (b & Hb & _). by apply elem_of_dom. }
  destruct (m1 !! k) as [a|] eqn:E1.
  - by destruct (Hsub k a E1) as (b & -> & ?).
  - apply not_elem_of_dom in E1. rewrite Hd in E1. by apply not_elem_of_dom in E1 as ->.
Qed.

Section Same.
Context `{L : !AuthzLib} `{CE : !AuthzCel} `{RX : !Regexps} `{RL : !RegexpLaws RX}.

(** A compiled expression is the one its text compiles to. *)
Definition compiled (re : Regexp) : Prop := regexp_Compile (regexp_String re) = Ok re.

Definition selector_compiled (t : toolSelector) : Prop :=
  Forall compiled (ts_includeRegexps t) ∧ Forall compiled (ts_excludeRegexps t).

Lemma compileRegexps_compiled exprs kind b r res : compileRegexps exprs kind b r = Ok res → Forall compiled res.
Proof using RL.
  apply (ofold_inv (Forall compiled)); [constructor|]. intros acc e acc' Hacc _ H.
  apply obind_ok_inv in H as (re & Hc%owrap_ok_inv & [= <-]). apply Forall_app. split; [done|]. repeat constructor.
  unfold compiled. by rewrite (regexp_String_Compile _ _ Hc).
Qed.

Lemma buildSelector_compiled inc incR exc excR k1 k2 b r ts :
  buildSelector inc incR exc excR k1 k2 b r = Ok ts → selector_compiled ts.
Proof using RL.
  intros (i & Hi & (x & Hx & [= <-])%obind_ok_inv)%obind_ok_inv.
  split; cbn; eauto using compileRegexps_compiled.
Qed.

Lemma addBackends_compiled rn l acc :
  ofold (addBackend rn) (∅, ∅, ∅) l = Ok acc →
  map_Forall (λ _, selector_compiled) acc.1.2 ∧ map_Forall (λ _, selector_compiled) acc.2.
Proof using RL.
  apply (ofold_inv (λ acc, map_Forall (λ _, selector_compiled) acc.1.2 ∧ map_Forall (λ _, selector_compiled) acc.2)).
  { split; apply map_Forall_empty. }
  intros [[bs tsel] psel] b acc' [Ht Hp] _ H. cbn in Ht, Hp. unfold addBackend in H.
  apply obind_ok_inv in H as (tsel' & H1 & H). apply obind_ok_inv in H as (psel' & H2 & [= <-]). cbn. split.
  - destruct (mb_ToolSelector b) as [s|]; [|by injection H1 as <-].
    apply obind_ok_inv in H1 as (ts & Hb & [= <-]). apply map_Forall_insert_2; eauto using buildSelector_compiled.
  - destruct (mb_PromptSelector b) as [s|]; [|by injection H2 as <-].
    apply obind_ok_inv in H2 as (ts & Hb & [= <-]). apply map_Forall_insert_2; eauto using buildSelector_compiled.
Qed.

Lemma sameRegexps_perm l1 l2 : Forall compiled l1 → Forall compiled l2 → sameRegexps l1 l2 = true → l1 ≡ₚ l2.
Proof.
  intros H1 H2 Hs%EqualFunc_Forall2.
  rewrite <-(merge_sort_Permutation regexp_le l1) in H1 |- *. rewrite <-(merge_sort_Permutation regexp_le l2) in H2 |- *.
  revert H1 H2. induction Hs as [|a b l1' l2' Hab%bool_decide_eq_true Hl IH]; [done|].
  intros [Ha H1]%Forall_cons [Hb H2]%Forall_cons. assert (a = b) as -> by (unfold compiled in *; congruence).
  by rewrite IH.
Qed.

Lemma existsb_perm {A} (f : A → bool) l1 l2 : l1 ≡ₚ l2 → existsb f l1 = existsb f l2.
Proof. induction 1; cbn; try congruence. by rewrite !orb_assoc, (orb_comm (f y)). Qed.

(** Selectors that compare equal expose the same names. *)
Lemma selector_same_allows t1 t2 name :
  selector_compiled t1 → selector_compiled t2 → selector_sameTools t1 t2 = true →
  selector_allows t1 name = selector_allows t2 name.
Proof.
  intros [Hi1 He1] [Hi2 He2]. unfold selector_sameTools. case_bool_decide as Hi; [done|]. case_bool_decide as He; [done|].
  destruct (sameRegexps (ts_includeRegexps t1) _) eqn:Er; [cbn|done]. intros Ex.
  apply sameRegexps_perm in Er, Ex; [|done..]. unfold selector_allows.
  assert (ts_include t1 = ts_include t2) as <- by (destruct (decide (ts_include t1 = ts_include t2)); [done|tauto]).
  assert (ts_exclude t1 = ts_exclude t2) as <- by (destruct (decide (ts_exclude t1 = ts_exclude t2)); [done|tauto]).
  rewrite (existsb_perm _ _ _ Ex). pose proof (existsb_perm (λ re, MatchString re name) _ _ Er) as Hp.
  destruct (ts_includeRegexps t1), (ts_includeRegexps t2); try done.
  - by apply Permutation_nil_l in Er.
  - by apply Permutation_nil_r in Er.
  - by rewrite Hp.
Qed.

Definition rule_compiled (r : compiledAuthorizationRule) : Prop := ∃ src, compileRule src = Ok r.

Lemma same_rule_eq r1 r2 : rule_compiled r1 → rule_compiled r2 → sameRule r1 r2 = true → r1 = r2.
Proof.
  intros [s1 H1] [s2 H2]. unfold sameRule. rewrite !andb_true_iff, !bool_decide_eq_true. intros (((Ha & Hc) & Hs) & Ht).
  assert (cr_celProgram r1 = cr_celProgram r2) as Hp; [|destruct r1, r2; cbn in *; congruence].
  revert H1 H2 Hc. unfold compileRule.
  case_bool_decide as E1; case_bool_decide as E2; intros; outcome_inv; subst; cbn in *; congruence.
Qed.

Lemma compileAuthorization_rules src a : compileAuthorization src = Ok a → Forall rule_compiled (from_option ca_Rules [] a).
Proof.
  unfold compileAuthorization. destruct src as [src|]; [|intros [= <-]; constructor].
  destruct cel_NewEnv; [done|]. intros (rules & Hr & [= <-])%obind_ok_inv. cbn. revert Hr.
  apply (ofold_inv (Forall rule_compiled)); [constructor|]. intros acc r acc' Hacc _ H.
  apply obind_ok_inv in H as (cr & Hcr & [= <-]). apply Forall_app. split; [done|]. repeat constructor. by exists r.
Qed.

(** Rules that compare equal are equal. *)
Lemma authorization_same_eq s1 s2 a1 a2 :
  compileAuthorization s1 = Ok a1 → compileAuthorization s2 = Ok a2 → authorization_same a1 a2 = true → a1 = a2.
Proof.
  intros H1%compileAuthorization_rules H2%compileAuthorization_rules. destruct a1 as [a1|], a2 as [a2|]; try done.
  unfold authorization_same. case_bool_decide as Hu; [done|]. case_bool_decide as Hd; [done|]. cbn [orb].
  destruct (Bool.eqb _ _) eqn:Hv; [cbn [negb]|done]. apply Bool.eqb_prop in Hv.
  intros Hr%EqualFunc_Forall2. cbn in H1, H2.
  assert (ca_Rules a1 = ca_Rules a2) as Hrules.
  { revert H1 H2. induction Hr as [|r1 r2 l1 l2 Hs _ IH]; [done|]. intros [? ?]%Forall_cons [? ?]%Forall_cons.
    f_equal; [by apply same_rule_eq|by apply IH]. }
  destruct a1, a2; cbn in *; congruence.
Qed.
End Same.

(** ** Quiet reloads *)

Section Quiet.
Context `{CR : !Crypto} `{L : !AuthzLib} `{CE : !AuthzCel} `{RX : !Regexps} `{RL : !RegexpLaws RX}.
Context (visit : gset string → list string) (Hvisit : ∀ s, visit s ≡ₚ elements s).

(** A backend in an index is one without prefix. *)
Lemma indexed_is_never src r name b :
  buildRoute visit src = Ok r →
  rt_neverModeToolIndex r !! name = Some b ∨ rt_neverModePromptIndex r !! name = Some b →
  effectivePrefixMode r b = PrefixModeNever.
Proof using Hvisit.
  intros (_ & _ & _ & Hm & _ & Ht & Hp)%(buildRoute_inv visit Hvisit). rewrite Ht, Hp.
  assert (∀ sel, head (omap (claimant (rt_backends r) (mr_PrefixMode src) sel name) (mr_Backends src)) = Some b →
    effectivePrefixMode r b = PrefixModeNever) as H; [|by intros [?%H|?%H]].
  intros sel Hh. assert (b ∈ omap (claimant (rt_backends r) (mr_PrefixMode src) sel name) (mr_Backends src)) as Hin.
  { destruct (omap _ _); [done|]. injection Hh as ->. left. }
  apply list_elem_of_omap in Hin as (mb & _ & Hc). unfold claimant in Hc.
  destruct (bool_decide _) eqn:Eb; [|done]. apply bool_decide_eq_true in Eb. destruct (claims _ _); [|done].
  injection Hc as <-. unfold effectivePrefixMode. by rewrite Hm.
Qed.

(** The parts of two routes that compare equal. *)
Lemma route_same_parts s1 s2 r1 r2 :
  buildRoute visit s1 = Ok r1 → buildRoute visit s2 = Ok r2 → route_sameTools r1 r2 = true →
  rt_authorization r1 = rt_authorization r2 ∧ rt_neverModeToolIndex r1 = rt_neverModeToolIndex r2 ∧
  rt_neverModePromptIndex r1 = rt_neverModePromptIndex r2 ∧
  (∀ b, is_Some (rt_backends r1 !! b) ↔ is_Some (rt_backends r2 !! b)) ∧
  (∀ b name, selected (rt_toolSelectors r1) b name = selected (rt_toolSelectors r2) b name) ∧
  (∀ b name, selected (rt_promptSelectors r1) b name = selected (rt_promptSelectors r2) b name).
Proof using Hvisit RL.
  intros (A1 & _ & B1 & _)%(buildRoute_inv visit Hvisit) (A2 & _ & B2 & _)%(buildRoute_inv visit Hvisit).
  unfold route_sameTools. destruct (equalKeys _ _) eqn:Ek; [cbn|done].
  destruct (authorization_same _ _) eqn:Ea; [cbn|done]. case_bool_decide as Hti; [done|]. case_bool_decide as Hpi; [done|].
  destruct (maps_EqualFunc _ (rt_promptSelectors r1) _) eqn:Ep; [cbn|done]. intros Et.
  apply addBackends_compiled in B1 as [T1 P1], B2 as [T2 P2]. cbn in *. split_and!; [|done..| | |].
  - eapply authorization_same_eq; eauto.
  - intros b. pose proof (maps_EqualFunc_lookup _ _ _ b Ek) as H. destruct (rt_backends r1 !! b), (rt_backends r2 !! b); by split; intros [].
  - intros b name. pose proof (maps_EqualFunc_lookup _ _ _ b Et) as H. unfold selected.
    destruct (rt_toolSelectors r1 !! b) eqn:E1, (rt_toolSelectors r2 !! b) eqn:E2; try done. apply selector_same_allows; eauto.
  - intros b name. pose proof (maps_EqualFunc_lookup _ _ _ b Ep) as H. unfold selected.
    destruct (rt_promptSelectors r1 !! b) eqn:E1, (rt_promptSelectors r2 !! b) eqn:E2; try done. apply selector_same_allows; eauto.
Qed.

(** For a tool that is exposed, being without prefix shows in the index. *)
Lemma exposed_never src r b name :
  buildRoute visit src = Ok r → never_exclusive r → is_Some (rt_backends r !! b) →
  selected (rt_toolSelectors r) b name = true →
  effectivePrefixMode r b = PrefixModeNever ↔ rt_neverModeToolIndex r !! name = Some b.
Proof using Hvisit.
  intros Hb Hx Hs Hsel. split; [|intros; eapply indexed_is_never; eauto]. intros Hn.
  destruct (Hx b Hs Hn) as (ts & Hts & Hne & Hown). unfold selected in Hsel. rewrite Hts in Hsel.
  by apply Hown, allowed_is_claimed.
Qed.

Definition with_routes (m : mcpRequestContext) (routes : gmap string mcpProxyConfigRoute) : mcpRequestContext :=
  {| rc_routes := routes; rc_requestHeaders := rc_requestHeaders m; rc_sessionCrypto := rc_sessionCrypto m;
     rc_rangeEvents := rc_rangeEvents m; rc_rangeBackends := rc_rangeBackends m; rc_rangeHeaders := rc_rangeHeaders m;
     rc_initializeSession := rc_initializeSession m; rc_rand := rc_rand m |}.

Lemma mergeTool_same m s1 s2 r1 r2 b tool R1 R2 :
  buildRoute visit s1 = Ok r1 → buildRoute visit s2 = Ok r2 → route_sameTools r1 r2 = true →
  never_exclusive r1 → never_exclusive r2 → is_Some (rt_backends r1 !! b) →
  mergeTool (with_routes m R1) r1 b tool = mergeTool (with_routes m R2) r2 b tool.
Proof using Hvisit RL.
  intros H1 H2 Hs X1 X2 Hb. destruct (route_same_parts _ _ _ _ H1 H2 Hs) as (Ha & Hi & _ & Hk & Hsel & _).
  unfold mergeTool. rewrite !negb_selected, Hsel, <-Ha. cbn [rc_rangeHeaders with_routes].
  destruct (selected (rt_toolSelectors r2) b _) eqn:Es; [cbn [negb]|done].
  pose proof (exposed_never _ _ _ _ H1 X1 Hb (eq_trans (Hsel _ _) Es)) as E1.
  pose proof (exposed_never _ _ _ _ H2 X2 (proj1 (Hk b) Hb) Es) as E2. rewrite <-Hi in E2 |- *.
  change (listingRequest (with_routes m R1)) with (listingRequest (with_routes m R2)).
  by rewrite (bool_decide_ext (effectivePrefixMode r1 b ≠ PrefixModeNever) (effectivePrefixMode r2 b ≠ PrefixModeNever))
    by (rewrite E1, E2; done).
Qed.

Lemma mergePrompt_same s1 s2 r1 r2 b prompt :
  buildRoute visit s1 = Ok r1 → buildRoute visit s2 = Ok r2 → route_sameTools r1 r2 = true → b ≠ "" →
  mergePrompt (Some r1) b prompt = mergePrompt (Some r2) b prompt.
Proof using Hvisit RL.
  intros H1 H2 Hs Hb. destruct (route_same_parts _ _ _ _ H1 H2 Hs) as (_ & _ & Hi & _ & _ & Hsel).
  unfold mergePrompt. cbn. rewrite !negb_selected, Hsel, <-Hi.
  destruct (selected _ b _); [cbn [negb]|done].
  destruct (bool_decide (mget _ _ = b)) eqn:E3; [|by rewrite !andb_false_r].
  apply bool_decide_eq_true in E3. unfold mget in E3.
  destruct (rt_neverModePromptIndex r1 !! prompt_Name prompt) as [b'|] eqn:Ei; cbn in E3; [subst b'|congruence].
  rewrite (indexed_is_never _ _ _ _ H1 (or_intror Ei)). rewrite Hi in Ei.
  by rewrite (indexed_is_never _ _ _ _ H2 (or_intror Ei)).
Qed.

Lemma buildConfig_route cfg conf name r :
  buildConfig visit cfg = Ok conf → cf_routes conf !! name = Some r →
  ∃ src, src ∈ mc_Routes cfg ∧ buildRoute visit src = Ok r.
Proof.
  intros (routes & Hr & [= <-])%obind_ok_inv. cbn. revert name r.
  eapply (ofold_inv (λ routes : gmap string mcpProxyConfigRoute, ∀ name r, routes !! name = Some r →
    ∃ src, src ∈ mc_Routes cfg ∧ buildRoute visit src = Ok r));
    [| |exact Hr]; [intros ? ?; by rewrite lookup_empty|].
  intros acc src acc' Hacc Hin H name r. apply obind_ok_inv in H as (r' & Hb & [= <-]).
  destruct (decide (name = mr_Name src)) as [->|Hn]; [rewrite lookup_insert_eq; intros [= <-]; eauto|].
  rewrite lookup_insert_ne by done. apply Hacc.
Qed.

(** A configuration the controller may publish. *)
Definition publishable (cfg : MCPConfig) : Prop :=
  ∀ conf, buildConfig visit cfg = Ok conf → map_Forall (λ _, never_exclusive) (cf_routes conf).

(** What the controller writes for routes it accepted may be published. *)
Lemma controller_publishes routes cfg effective :
  Forall (λ route, schema_ok route ∧ validatePerBackendPrefixMode route = Ok tt) routes →
  mcpConfig routes = (Some cfg, effective) → publishable cfg.
Proof using Hvisit.
  intros Hall Hc conf Hb name r Hr. destruct (buildConfig_route _ _ _ _ Hb Hr) as (src & Hin & Hsrc).
  assert (∃ route, route ∈ routes ∧ src = mcpRouteOf route) as (route & Hroute & ->).
  { assert (src ∈ mcpRouteOf <$> filter (λ r, ro_Deleted r = false) routes) as Hsr
      by (unfold mcpConfig in Hc; destruct routes; [done|]; injection Hc as <- _; done).
    apply list_elem_of_fmap in Hsr as (route & -> & [_ Hroute]%list_elem_of_filter). by exists route. }
  rewrite Forall_forall in Hall. destruct (Hall _ Hroute). eapply validated_route_exclusive; eauto.
Qed.

(** The proxy runs a configuration that was loaded. *)
Definition running (p : ProxyConfig) (conf : mcpProxyConfig) : Prop :=
  px_config p = Some conf ∧ (∃ src, buildConfig visit src = Ok conf) ∧ map_Forall (λ _, never_exclusive) (cf_routes conf).

Definition loads (p : ProxyConfig) (cfgs : list MCPConfig) : ProxyConfig :=
  foldl (λ p cfg, (LoadConfig visit p (Some cfg)).1) p cfgs.

(** The responses of backends that the route of the session has. *)
Definition of_route {A} (conf : mcpProxyConfig) (s : session) (responses : list (broadCastResponse A)) : Prop :=
  ∀ r, cf_routes conf !! ss_route s = Some r →
    Forall (λ resp, bc_backendName resp ≠ "" ∧ is_Some (rt_backends r !! bc_backendName resp)) responses.

Lemma flat_map_ext_Forall {A B} (f g : A → list B) l : Forall (λ x, f x = g x) l → flat_map f l = flat_map g l.
Proof. induction 1; cbn; congruence. Qed.

Lemma same_config_same_lists m s old new src1 src2 tools prompts :
  buildConfig visit src1 = Ok old → buildConfig visit src2 = Ok new → config_sameTools (Some old) (Some new) = true →
  map_Forall (λ _, never_exclusive) (cf_routes old) → map_Forall (λ _, never_exclusive) (cf_routes new) →
  of_route old s tools → of_route old s prompts →
  mergeToolsList (with_routes m (cf_routes old)) s tools = mergeToolsList (with_routes m (cf_routes new)) s tools ∧
  mergePromptsList (with_routes m (cf_routes old)) s prompts = mergePromptsList (with_routes m (cf_routes new)) s prompts ∧
  of_route new s tools ∧ of_route new s prompts.
Proof using Hvisit RL.
  intros B1 B2 Hs X1 X2 Ht Hp. pose proof (maps_EqualFunc_lookup _ _ _ (ss_route s) Hs) as H.
  unfold mergeToolsList, mergePromptsList, of_route in *. cbn [rc_routes with_routes].
  destruct (cf_routes old !! ss_route s) as [r1|] eqn:E1, (cf_routes new !! ss_route s) as [r2|] eqn:E2; try done.
  destruct (buildConfig_route _ _ _ _ B1 E1) as (s1 & _ & H1), (buildConfig_route _ _ _ _ B2 E2) as (s2 & _ & H2).
  destruct (route_same_parts _ _ _ _ H1 H2 H) as (_ & _ & _ & Hk & _).
  specialize (Ht _ eq_refl). specialize (Hp _ eq_refl). split_and!.
  - f_equal. apply flat_map_ext_Forall. eapply Forall_impl; [exact Ht|]. intros resp [_ Hb].
    apply list_omap_ext, Forall_Forall2_diag, Forall_true. intros tool. eapply mergeTool_same; eauto.
  - f_equal. apply flat_map_ext_Forall. eapply Forall_impl; [exact Hp|]. intros resp [Hn _].
    apply list_omap_ext, Forall_Forall2_diag, Forall_true. intros prompt. eapply mergePrompt_same; eauto.
  - intros r [= <-]. eapply Forall_impl; [exact Ht|]. intros resp [? Hb]. by rewrite Hk in Hb.
  - intros r [= <-]. eapply Forall_impl; [exact Hp|]. intros resp [? Hb]. by rewrite Hk in Hb.
Qed.

Lemma signals_grow p cfgs : sg_notify (px_toolChangeSignaler p) ≤ sg_notify (px_toolChangeSignaler (loads p cfgs)).
Proof.
  revert p. induction cfgs as [|cfg cfgs IH]; intros p; [done|]. cbn. etrans; [|apply IH].
  unfold LoadConfig. destruct (buildConfig _ _); cbn; [|done..]. destruct (config_sameTools _ _); cbn; lia.
Qed.

(** A client that is not notified has missed nothing: over any sequence of
    reloads of publishable configurations, failed ones included, as long as the
    channel a watcher holds is not closed, the tools and the prompts it would be
    listed are those it was listed at the start. *)
Theorem unnotified_same_lists p conf cfgs m s tools prompts :
  running p conf → Forall publishable cfgs →
  closed (px_toolChangeSignaler (loads p cfgs)) (Watch (px_toolChangeSignaler p)) = false →
  of_route conf s tools → of_route conf s prompts →
  ∃ conf', px_config (loads p cfgs) = Some conf' ∧
    mergeToolsList (with_routes m (cf_routes conf)) s tools = mergeToolsList (with_routes m (cf_routes conf')) s tools ∧
    mergePromptsList (with_routes m (cf_routes conf)) s prompts = mergePromptsList (with_routes m (cf_routes conf')) s prompts.
Proof using Hvisit RL.
  intros Hrun Hpub. revert p conf Hrun. induction Hpub as [|cfg cfgs Hc _ IH]; intros p conf (Hp & [src Hsrc] & Hx).
  { intros _ _ _. by exists conf. }
  change (loads p (cfg :: cfgs)) with (loads (LoadConfig visit p (Some cfg)).1 cfgs).
  pose proof (signals_grow (LoadConfig visit p (Some cfg)).1 cfgs) as Hgrow. revert IH Hgrow. unfold LoadConfig.
  destruct (buildConfig visit cfg) as [new| |] eqn:En; cbn [fst]; intros IH Hgrow Hclosed Ht Hpr.
  - rewrite Hp in *. unfold closed, Watch in Hclosed. apply Nat.ltb_ge in Hclosed.
    cbn [px_toolChangeSignaler] in Hgrow.
    destruct (config_sameTools (Some conf) (Some new)) eqn:Es; cbn [negb] in *; [|cbn [sg_notify Signal] in Hgrow; lia].
    destruct (same_config_same_lists m s conf new src cfg tools prompts) as (E1 & E2 & Ht' & Hpr'); [done..|by apply Hc|done|done|].
    match goal with |- context [loads ?q cfgs] => destruct (IH q new) as (conf' & Hc' & F1 & F2); [|by apply Nat.ltb_ge|done|done|] end.
    { split; [done|]. split; [by exists cfg|by apply Hc]. }
    exists conf'. by rewrite E1, E2.
  - apply (IH p conf); [|done..]. split; [done|]. split; [by exists src|done].
  - apply (IH p conf); [|done..]. split; [done|]. split; [by exists src|done].
Qed.
End Quiet.

(** ** A concrete run *)

Module Sample.
Import Toy McpAuthz.Sample McpSession.Sample McpRouting.Sample.

Definition spec_of (refs : list aigMCPRouteBackendRef) : aigMCPRoute :=
  {| ro_Namespace := ""; ro_Name := "tools"; ro_Deleted := false; ro_CreationTimestamp := 0; ro_ParentRefs := []; ro_BackendRefs := refs;
     ro_SecurityPolicy := None; ro_BackendSelector := None; ro_PrefixMode := None |}.
Definition none : MCPConfig := {| mc_BackendListenerAddr := ""; mc_Routes := []; mc_SessionEncryption := None |}.
Definition cfg (refs : list aigMCPRouteBackendRef) : MCPConfig := default none (mcpConfig [spec_of refs]).1.
Definition refs1 : list aigMCPRouteBackendRef := [ref "github" None []; ref "search" (Some "Never") ["find"]].
(** The second names the mode of github, which changes no name. *)
Definition refs2 : list aigMCPRouteBackendRef := [ref "search" (Some "Never") ["find"]; ref "github" (Some "Always") []].
Definition conf : mcpProxyConfig :=
  match buildConfig elements (cfg refs1) with
  | Ok c => c
  | _ => {| cf_backendListenerAddr := ""; cf_routes := ∅; cf_sessionCrypto := None |}
  end.
Definition proxy : ProxyConfig :=
  {| px_config := Some conf; px_toolChangeSignaler := newMultiWatcherSignaler; px_sessionCrypto := None |}.
Definition session : McpSession.session :=
  {| ss_id := ""; ss_route := "/tools"; ss_perBackendSessions := ∅; ss_extraHeaders := None; ss_perBackendExtraHeaders := None |}.

Lemma published (refs : list aigMCPRouteBackendRef) : refs ∈ [refs1; refs2] → publishable elements (cfg refs).
Proof.
  intros H. apply (controller_publishes elements (λ _, reflexivity _) [spec_of refs] _ true).
  - repeat constructor.
    all: apply list_elem_of_In in H as [<-|[<-|[]]]; cbn; try reflexivity; apply (bool_decide_unpack _); vm_compute; exact I.
  - apply list_elem_of_In in H as [<-|[<-|[]]]; reflexivity.
Qed.

Definition loaded : mcpProxyConfigRoute := default McpRouting.Sample.route (cf_routes conf !! "/tools").

Lemma loaded_route r : cf_routes conf !! ss_route session = Some r → r = loaded.
Proof. unfold loaded. intros Hr. change (cf_routes conf !! "/tools" = Some r) in Hr. by rewrite Hr. Qed.

Lemma sample_tools : of_route conf session tools.
Proof. intros r ->%loaded_route. apply (bool_decide_unpack _). vm_compute. exact I. Qed.

Lemma sample_prompts : of_route conf session prompts.
Proof. intros r ->%loaded_route. apply (bool_decide_unpack _). vm_compute. exact I. Qed.

(** Two reloads, forth and back. *)
Lemma unnotified_same_lists_witness :
  ∃ conf', px_config (loads elements proxy [cfg refs2; cfg refs1]) = Some conf' ∧
    mergeToolsList (with_routes ctx (cf_routes conf)) session tools = mergeToolsList (with_routes ctx (cf_routes conf')) session tools.
Proof.
  destruct (unnotified_same_lists elements (λ _, reflexivity _) proxy conf [cfg refs2; cfg refs1] ctx session tools prompts)
    as (conf' & H1 & H2 & _).
  - split; [reflexivity|]. split; [exists (cfg refs1); vm_compute; reflexivity|].
    apply (published refs1); [vm_compute; repeat constructor|vm_compute; reflexivity].
  - repeat constructor; apply published; vm_compute; repeat constructor.
  - vm_compute. reflexivity.
  - exact sample_tools.
  - exact sample_prompts.
  - exists conf'. auto.
Defined.
End Sample.
