(* ===== verification/GoCodec.v ===== *)
(** * Separators, integers and bytes

    What the code uses of [strings.Split] with a longer separator,
    [strconv.ParseInt], [encoding/hex], [encoding/binary] and
    [math.Float64bits], with the inverse laws. *)

From Stdlib Require Import Ascii ZArith Lia SpecFloat.
From stdpp Require Import base strings list pretty.
From S2P Require Import Prelude GoStrings GoNum McpSession.

Local Open Scope Z_scope.

(** [strings.Contains]. *)
Definition ContainsStr (s substr : string) : bool := match Index s substr with Some _ => true | None => false end.

(** ** [strings.Split] *)

Fixpoint SplitStr_go (fuel : nat) (s sep : string) : list string :=
  match fuel with
  | O => [s]
  | S fuel =>
      match Index s sep with
      | None => [s]
      | Some i => str_take i s :: SplitStr_go fuel (str_drop (i + String.length sep) s) sep
      end
  end.

(** Every part but the last is followed by the separator, so the length of the
    string bounds the number of cuts. *)
Definition SplitStr (s sep : string) : list string := SplitStr_go (String.length s) s sep.

Lemma Index_fresh s c p : Contains s c = false → Index s (String c p) = None.
Proof.
  induction s as [|d s IH]; [done|]. intros [Hd Hs]%Contains_false_cons. cbn [Index].
  rewrite IH by done. destruct (HasPrefix _ _) eqn:E; [|done].
  apply HasPrefix_spec in E as [t E]. rewrite sapp_cons in E. by injection E as ->.
Qed.

Lemma SplitStr_cut fuel a c p t :
  Contains a c = false →
  SplitStr_go (S fuel) (a +:+ String c p +:+ t) (String c p) = a :: SplitStr_go fuel t (String c p).
Proof.
  intros Ha. cbn [SplitStr_go]. rewrite Index_app_fresh by done. rewrite str_take_app. f_equal. f_equal.
  by rewrite <-str_drop_drop, !str_drop_app.
Qed.

(** Three parts without the first byte of the separator. *)
Lemma SplitStr_three a b d c p :
  Contains a c = false → Contains b c = false → Contains d c = false →
  SplitStr (a +:+ String c p +:+ b +:+ String c p +:+ d) (String c p) = [a; b; d].
Proof.
  intros Ha Hb Hd. unfold SplitStr.
  assert (∃ n, String.length (a +:+ String c p +:+ b +:+ String c p +:+ d) = S (S n)) as [n ->].
  { rewrite !slength_app. cbn [String.length].
    exists (String.length a + String.length p + String.length b + String.length p + String.length d)%nat. lia. }
  rewrite (SplitStr_cut (S n) a c p (b +:+ String c p +:+ d)), (SplitStr_cut n b c p d) by done.
  f_equal. f_equal. destruct n; cbn [SplitStr_go]; [done|]. by rewrite Index_fresh.
Qed.

(** ** [strconv.ParseInt] in base 10, 64 bits *)

Definition ParseInt64 (s : string) : option Z :=
  let '(neg, digits) := match s with
                        | String "+"%char t => (false, t)
                        | String "-"%char t => (true, t)
                        | _ => (false, s)
                        end in
  match digits with
  | "" => None
  | _ =>
      match parse_digits 0 digits with
      | None => None
      | Some n => let v := if neg then - n else n in
                  if bool_decide (min_int64 ≤ v ≤ max_int64) then Some v else None
      end
  end.

Lemma digit_of_pretty (d : N) : (d < 10)%N → digit_of (pretty_N_char d) = Some (Z.of_N d).
Proof.
  intros Hd.
  assert (d = 0 ∨ d = 1 ∨ d = 2 ∨ d = 3 ∨ d = 4 ∨ d = 5 ∨ d = 6 ∨ d = 7 ∨ d = 8 ∨ d = 9)%N as H by lia.
  by repeat destruct H as [->|H]; [reflexivity..|subst].
Qed.

Lemma parse_pretty_go (x : N) s : parse_digits 0 (pretty_N_go x s) = parse_digits (Z.of_N x) s.
Proof.
  revert s. induction (N.lt_wf_0 x) as [x _ IH]; intros s.
  destruct (decide (0 < x)%N) as [Hx|Hx].
  - rewrite pretty_N_go_step, IH by (done || by apply N.div_lt). cbn [parse_digits].
    rewrite digit_of_pretty by (by apply N.mod_lt). f_equal. rewrite (N.div_mod x 10) at 3 by done. lia.
  - assert (x = 0)%N as -> by lia. by rewrite pretty_N_go_0.
Qed.

Lemma parse_pretty_N (x : N) : parse_digits 0 (pretty x) = Some (Z.of_N x).
Proof.
  unfold pretty, pretty_N. destruct (decide (x = 0%N)) as [->|Hx]; [reflexivity|]. apply parse_pretty_go.
Qed.

Lemma pretty_N_first (x : N) : ∃ c t, pretty x = String c t ∧ is_Some (digit_of c).
Proof.
  pose proof (parse_pretty_N x) as H. destruct (pretty x) as [|c t] eqn:Ep.
  - exfalso. revert Ep. unfold pretty, pretty_N. case_decide; [done|]. rewrite pretty_N_go_step by lia.
    intros Ep. assert (∀ y s, s ≠ "" → pretty_N_go y s ≠ "") as Hne; [|by eapply Hne, Ep].
    clear. intros y. induction (N.lt_wf_0 y) as [y _ IH]; intros s Hs. destruct (decide (0 < y)%N) as [Hy|Hy].
    + rewrite pretty_N_go_step by done. by apply IH; [apply N.div_lt|].
    + assert (y = 0)%N as -> by lia. by rewrite pretty_N_go_0.
  - exists c, t. split; [done|]. cbn in H. destruct (digit_of c); [eauto|done].
Qed.

Lemma ParseInt64_pretty z : in_int64 z → ParseInt64 (Itoa z) = Some z.
Proof.
  unfold in_int64. intros Hz. destruct z as [|p|p]; [reflexivity| |].
  all: pose proof (parse_pretty_N (Npos p)) as Hp; destruct (pretty_N_first (Npos p)) as (c & t & Hc & Hd).
  - change (Itoa (Z.pos p)) with (pretty (N.pos p)). rewrite Hc in *. unfold ParseInt64.
    assert (c ≠ "+"%char ∧ c ≠ "-"%char) as [H1 H2] by (split; intros ->; by destruct Hd).
    replace (match c with "+"%char => _ | _ => _ end) with (false, String c t)
      by (destruct c as [[][][][][][][][]]; done || congruence).
    rewrite Hp, bool_decide_true; [done|]. unfold min_int64, max_int64. lia.
  - change (Itoa (Z.neg p)) with (String "-"%char (pretty (N.pos p))). rewrite Hc in *. unfold ParseInt64.
    rewrite Hp, bool_decide_true; [done|]. unfold min_int64, max_int64. lia.
Qed.

Lemma pretty_Z_no_char z c : digit_of c = None → c ≠ "-"%char → Contains (Itoa z) c = false.
Proof.
  intros Hc Hm. assert (∀ n : N, Contains (pretty n) c = false) as HN.
  { intros n. apply pretty_digits_no_char. intros d <-. destruct (pretty_N_char_digit d) as [x Hx]. congruence. }
  unfold Itoa, pretty, pretty_Z. destruct z as [|p|p].
  - apply Contains_false_cons. split; [|done]. intros <-. by vm_compute in Hc.
  - apply HN.
  - apply Contains_false_cons. split; [congruence|apply HN].
Qed.

(** ** [encoding/hex] *)

(** [None] is an invalid byte or an odd length. *)
Fixpoint hex_DecodeString (s : string) : option string :=
  match s with
  | "" => Some ""
  | String a (String b s) =>
      x ← hex_value a; y ← hex_value b; t ← hex_DecodeString s;
      Some (String (ascii_of_nat (Z.to_nat (x * 16 + y))) t)
  | _ => None
  end.

Lemma hex_roundtrip s : hex_DecodeString (hex_EncodeToString s) = Some s.
Proof.
  induction s as [|c s IH]; [done|].
  assert (∃ a b x y, hex_byte c = String a (String b "") ∧ hex_value a = Some x ∧ hex_value b = Some y ∧
    ascii_of_nat (Z.to_nat (x * 16 + y)) = c) as (a & b & x & y & Hab & Ha & Hb & Hc).
  { exists (hex_digit (nat_of_ascii c / 16)), (hex_digit (nat_of_ascii c mod 16)),
      (Z.of_nat (nat_of_ascii c / 16)), (Z.of_nat (nat_of_ascii c mod 16)).
    split; [reflexivity|]. by destruct c as [[][][][][][][][]]. }
  cbn [hex_EncodeToString]. rewrite Hab.
  change (String a (String b "") +:+ hex_EncodeToString s) with (String a (String b (hex_EncodeToString s))).
  cbn [hex_DecodeString]. by rewrite Ha, Hb, IH, <-Hc.
Qed.

(** ** [binary.LittleEndian] *)

Fixpoint le_bytes (n : nat) (v : Z) : string :=
  match n with
  | O => ""
  | S n => String (ascii_of_nat (Z.to_nat (v mod 256))) (le_bytes n (v / 256))
  end.

Definition PutUint64 (v : Z) : string := le_bytes 8 v.

Fixpoint le_value (s : string) : Z :=
  match s with
  | "" => 0
  | String c s => Z.of_nat (nat_of_ascii c) + 256 * le_value s
  end.

(** [LittleEndian.Uint64] reads the first eight bytes. *)
Definition le_Uint64 (b : string) : Z := le_value (str_take 8 b).

Lemma slength_le_bytes n v : String.length (le_bytes n v) = n.
Proof. revert v. induction n; intros v; cbn; [done|]. by f_equal. Qed.

Lemma le_roundtrip n v : 0 ≤ v < 256 ^ Z.of_nat n → le_value (le_bytes n v) = v.
Proof.
  revert v. induction n as [|n IH]; intros v Hv; cbn [le_bytes le_value]; [change (256 ^ Z.of_nat 0) with 1 in Hv; lia|].
  pose proof (Z.mod_pos_bound v 256 ltac:(lia)) as Hm.
  rewrite nat_ascii_embedding by lia. rewrite IH.
  - rewrite Z2Nat.id by lia. pose proof (Z.div_mod v 256). lia.
  - rewrite Nat2Z.inj_succ, Z.pow_succ_r in Hv by lia.
    split; [apply Z.div_pos; lia|]. apply Z.div_lt_upper_bound; lia.
Qed.

Lemma Uint64_roundtrip v : 0 ≤ v < 2 ^ 64 → le_Uint64 (PutUint64 v) = v.
Proof.
  intros Hv. unfold le_Uint64, PutUint64. rewrite <-(sapp_nil_r (le_bytes 8 v)).
  rewrite str_take_app' by apply slength_le_bytes. apply le_roundtrip. exact Hv.
Qed.

(** ** [math.Float64bits] *)

(** The encoding of a float: sign, biased exponent, fraction.  A finite float is
    kept with a full mantissa of 53 bits, or at the least exponent. *)
Definition f64_bits (f : float64) : Z :=
  let sign (s : bool) := if s then 2 ^ 63 else 0 in
  match f with
  | S754_zero s => sign s
  | S754_infinity s => sign s + 2047 * 2 ^ 52
  | S754_nan => 2047 * 2 ^ 52 + 2 ^ 51 + 1
  | S754_finite s m e =>
      sign s + (if Z.pos m <? 2 ^ 52 then Z.pos m else (e + 1075) * 2 ^ 52 + (Z.pos m - 2 ^ 52))
  end.

Example bits_one : f64_bits (f64_of_Z 1) = 0x3FF0000000000000.
Proof. vm_compute. reflexivity. Qed.
Example bits_minus_five : f64_bits (f64_of_Z (-5)) = 0xC014000000000000.
Proof. vm_compute. reflexivity. Qed.
