(* ===== verification/McpIds.v ===== *)
(** * Request ids and progress tokens across the proxy

    A backend can send a request to the client; the proxy rewrites its id so that
    the answer finds the way back, and does the same with progress tokens.  Models
    [maybeServerToClientRequestModify], [maybeUpdateProgressTokenMetadata],
    [handleClientToServerResponse] and
    [handleClientToServerNotificationsProgress] of
    [internal/mcpproxy/legacy.go], up to the HTTP exchange with the backend.  The
    JSON-RPC package is a class; the parameters of a message are what the code
    reads of them. *)

From Stdlib Require Import Ascii ZArith Lia SpecFloat.
From stdpp Require Import base gmap strings list.
From S2P Require Import Prelude GoStrings GoNum Crypto GoHttp McpAuthz McpCrypto McpConfig McpSession McpRouting GoCodec.

(** A decoded JSON value as an id or a token; a [float64] is its bit pattern. *)
Inductive rawValue :=
| RNil
| RInt (i : Z)
| RFloat (bits : Z)
| RString (s : string)
| ROther.

(** [jsonrpc.ID]. *)
Class JsonRpc := {
  ID : Type;
  MakeID : rawValue → outcome ID;
  Raw : ID → rawValue;
}.

(** [MakeID] takes the decoded form of a JSON id: a string stays a string, and a
    number becomes the integer it stands for. *)
Class JsonRpcLaws (J : JsonRpc) : Prop := {
  MakeID_string s : ∃ id, MakeID (RString s) = Ok id ∧ Raw id = RString s;
  MakeID_integer z : (0 ≤ z < 2 ^ 53)%Z → ∃ id, MakeID (RFloat (f64_bits (f64_of_Z z))) = Ok id ∧ Raw id = RInt z;
}.

(** ** Encoding *)

(** The text of a value with its type and backend: a string in base64, an integer
    in decimal, a float as its eight bytes in hexadecimal. *)
Definition taggedText (v : rawValue) (backend : string) : option string :=
  match v with
  | RString s => Some (EncodeToString StdEncoding s +:+ nameSeparator +:+ "s" +:+ nameSeparator +:+ backend)
  | RInt i => Some (Itoa i +:+ nameSeparator +:+ "i" +:+ nameSeparator +:+ backend)
  | RFloat bits => Some (hex_EncodeToString (PutUint64 bits) +:+ nameSeparator +:+ "f" +:+ nameSeparator +:+ backend)
  | RNil | ROther => None
  end.

(** The token under [progressToken], [None] when the key is missing, and whether
    it was replaced. *)
Definition maybeUpdateProgressTokenMetadata (meta : option rawValue) (backendName : string) : option rawValue * bool :=
  match meta with
  | None => (meta, false)
  | Some originalPt =>
      match taggedText originalPt backendName with
      | Some newPt => (Some (RString newPt), true)
      | None => (meta, false)
      end
  end.

(** What the code reads of the parameters: whether they decode, the progress
    token and the resource URI. *)
Record requestParams := {
  pm_decodes : bool;
  pm_progressToken : option rawValue;
  pm_URI : string;
}.

Section Ids.
Context `{J : !JsonRpc}.

Record serverRequest := {
  sv_ID : ID;
  sv_Method : string;
  sv_Params : option requestParams;
}.

Definition with_params (msg : serverRequest) (p : requestParams) : serverRequest :=
  {| sv_ID := sv_ID msg; sv_Method := sv_Method msg; sv_Params := Some p |}.

(** The parameters of the requests that may carry a token. *)
Definition tokenParams (msg : serverRequest) (backend : string) : outcome serverRequest :=
  match sv_Params msg with
  | None => Ok msg
  | Some p =>
      if negb (pm_decodes p) then Fail (errors_New ("failed to unmarshal " +:+ sv_Method msg +:+ " params"))
      else
        let '(pt, changed) := maybeUpdateProgressTokenMetadata (pm_progressToken p) backend in
        Ok (if changed then with_params msg {| pm_decodes := true; pm_progressToken := pt; pm_URI := pm_URI p |} else msg)
  end.

Definition updatedParams (msg : serverRequest) (backend : string) : outcome serverRequest :=
  match sv_Params msg with
  | None => Ok msg
  | Some p =>
      if negb (pm_decodes p) then Fail (errors_New "failed to unmarshal elicitation/create params")
      else Ok (with_params msg {| pm_decodes := true; pm_progressToken := pm_progressToken p;
                                  pm_URI := downstreamResourceURI (pm_URI p) backend |})
  end.

Definition serverRequestMethods : list string := ["roots/list"; "sampling/createMessage"; "elicitation/create"].

(** The id, once the parameters are rewritten. *)
Definition prefixID (msg : serverRequest) (backend : string) : serverRequest * outcome unit :=
  match Raw (sv_ID msg) with
  | RNil => (msg, Fail (errors_New "missing id in the server->client request"))
  | v =>
      match taggedText v backend with
      | None => (msg, Fail (errors_New "BUG/TODO: unsupported id type in the server->client request"))
      | Some prefixedID =>
          match MakeID (RString prefixedID) with
          | Ok newID => ({| sv_ID := newID; sv_Method := sv_Method msg; sv_Params := sv_Params msg |}, Ok tt)
          | Fail err => (msg, Fail (Errorf_w ("failed to make new ID " +:+ Quote prefixedID +:+ ": ") err))
          | Panic s => (msg, Panic s)
          end
      end
  end.

(** The message is changed in place: the result has the message with or without
    an error. *)
Definition maybeServerToClientRequestModify (msg : serverRequest) (backend : string) : serverRequest * outcome unit :=
  let rewritten :=
    if bool_decide (sv_Method msg ∈ serverRequestMethods) then Some (tokenParams msg backend)
    else if bool_decide (sv_Method msg = "notifications/resources/updated") then Some (updatedParams msg backend)
    else None in
  match rewritten with
  | None => (msg, Ok tt)
  | Some (Ok msg) => prefixID msg backend
  | Some (Fail err) => (msg, Fail err)
  | Some (Panic s) => (msg, Panic s)
  end.

(** ** Decoding *)

(** The answer of the two handlers: an error response, or what is sent to a backend. *)
Inductive delivery (A : Type) :=
| Refused (status : Z) (body : string) (err : error)
| Delivered (backend : MCPBackend) (cse : compositeSessionEntry) (a : A).
Arguments Refused {A}.
Arguments Delivered {A}.

Context `{CR : !Crypto} `{L : !AuthzLib} `{CE : !AuthzCel} `{RX : !Regexps}.

(** The texts of the errors of the decoding packages. *)
Context (parseIntErr hexErr base64Err : string → error).

Definition invalidID : string := "invalid response ID format".

(** The [switch] on the type of the id. *)
Definition restoreID (originalIDRaw typeIdentifier : string) : outcome ID + string * error :=
  if bool_decide (typeIdentifier = "i") then
    match ParseInt64 originalIDRaw with
    | None => inr (invalidID, Errorf_w (invalidID +:+ ": ") (parseIntErr originalIDRaw))
    | Some i64 => inl (MakeID (RFloat (f64_bits (f64_of_Z i64))))
    end
  else if bool_decide (typeIdentifier = "f") then
    match hex_DecodeString originalIDRaw with
    | None => inr (invalidID, Errorf_suffix (Errorf_w (invalidID +:+ ": ") (hexErr originalIDRaw)) (": " +:+ originalIDRaw))
    | Some b =>
        if bool_decide (String.length b ≠ 8) then
          inr (invalidID, errors_New (invalidID +:+ ": float64 ID requires 8 bytes, got " +:+ itoa (String.length b)))
        else inl (MakeID (RFloat (le_Uint64 b)))
    end
  else if bool_decide (typeIdentifier = "s") then
    match DecodeString StdEncoding originalIDRaw with
    | None => inr (invalidID, Errorf_suffix (Errorf_w (invalidID +:+ ": ") (base64Err originalIDRaw)) (": " +:+ originalIDRaw))
    | Some decoded => inl (MakeID (RString decoded))
    end
  else inr ("invalid response ID type identifier", errors_New ("invalid response ID type identifier: " +:+ typeIdentifier)).

Definition refuseUnknown {A} (backendName detail : string) : delivery A :=
  Refused 404 ("unknown backend " +:+ backendName)
    (Errorf_suffix errBackendNotFound (": unknown backend " +:+ backendName +:+ detail)).

Definition refuseNoSession {A} (backendName : string) : delivery A :=
  Refused 403 ("no MCP session found for backend " +:+ backendName)
    (Errorf_suffix errSessionNotFound (": no MCP session found for backend " +:+ backendName)).

(** [shown] is the text of an id that is no string, for the error response. *)
Definition handleClientToServerResponse (m : mcpRequestContext) (s : session) (shown : ID → string) (id : ID) : delivery ID :=
  match Raw id with
  | RString clientToServer =>
      match SplitStr clientToServer nameSeparator with
      | [originalIDRaw; typeIdentifier; backendName] =>
          match restoreID originalIDRaw typeIdentifier with
          | inr (body, err) => Refused 400 body err
          | inl (Fail err) => Refused 400 invalidID (Errorf_w (invalidID +:+ ": ") err)
          | inl (Panic p) => Refused 500 p (errors_New p)
          | inl (Ok id) =>
              match getBackendForRoute m (ss_route s) backendName with
              | Ok backend =>
                  match getCompositeSessionEntry s backendName with
                  | None => refuseNoSession backendName
                  | Some cse => Delivered backend cse id
                  end
              | _ => refuseUnknown backendName ""
              end
          end
      | _ => Refused 400 (invalidID +:+ ": " +:+ clientToServer) (errors_New invalidID)
      end
  | _ => Refused 400 ("invalid response ID type: " +:+ shown id) (errors_New "invalid response ID type")
  end.

Definition invalidToken (pt detail : string) : string := "invalid progressToken " +:+ pt +:+ detail.

(** The inverse of [maybeUpdateProgressTokenMetadata]. *)
Definition restoreToken (pt originalPt originalPtType : string) : rawValue + string * error :=
  let bad (err : error) := inr (invalidToken pt (": " +:+ err_msg err), Errorf_w (invalidToken pt ": ") err) in
  if bool_decide (originalPtType = "s") then
    match DecodeString StdEncoding originalPt with Some decoded => inl (RString decoded) | None => bad (base64Err originalPt) end
  else if bool_decide (originalPtType = "i") then
    match ParseInt64 originalPt with Some v => inl (RInt v) | None => bad (parseIntErr originalPt) end
  else if bool_decide (originalPtType = "f") then
    match hex_DecodeString originalPt with
    | None => bad (hexErr originalPt)
    | Some b =>
        if bool_decide (String.length b ≠ 8) then
          inr (invalidToken pt ": invalid length", errors_New (invalidToken pt ": invalid length"))
        else inl (RFloat (le_Uint64 b))
    end
  else inr (invalidToken pt (": unknown type " +:+ originalPtType), errors_New (invalidToken pt (": unknown type " +:+ originalPtType))).

Definition handleClientToServerNotificationsProgress (m : mcpRequestContext) (s : session) (typeName : rawValue → string)
    (progressToken : rawValue) : delivery rawValue :=
  match progressToken with
  | RString pt =>
      match SplitStr pt nameSeparator with
      | [originalPt; originalPtType; backendName] =>
          match restoreToken pt originalPt originalPtType with
          | inr (body, err) => Refused 400 body err
          | inl v =>
              match getBackendForRoute m (ss_route s) backendName with
              | Ok backend =>
                  match getCompositeSessionEntry s (mb_Name backend) with
                  | None => refuseNoSession backendName
                  | Some cse => Delivered backend cse v
                  end
              | _ => refuseUnknown backendName (" in progressToken " +:+ pt)
              end
          end
      | _ => Refused 400 (invalidToken pt "") (errors_New (invalidToken pt ""))
      end
  | v => Refused 400 ("invalid progressToken type " +:+ typeName v) (errors_New ("invalid progressToken type " +:+ typeName v))
  end.
End Ids.
Arguments Refused {A}.
Arguments Delivered {A}.

(** ** Round trips *)

Section Roundtrips.
Context `{J : !JsonRpc} `{JL : !JsonRpcLaws J}.
Context `{CR : !Crypto} `{L : !AuthzLib} `{CE : !AuthzCel} `{RX : !Regexps}.
Context (parseIntErr hexErr base64Err : string → error).

(** Comparisons of literal strings. *)
Local Ltac decide_strings :=
  repeat (rewrite bool_decide_false by discriminate); rewrite ?bool_decide_true by reflexivity.

(** The values that go through: strings, 64-bit integers and floats. *)
Definition encodable (v : rawValue) : Prop :=
  match v with
  | RString _ => True
  | RInt i => in_int64 i
  | RFloat bits => (0 ≤ bits < 2 ^ 64)%Z
  | _ => False
  end.

Lemma hex_no_underscore s : Contains (hex_EncodeToString s) "_" = false.
Proof. by apply hex_not_contains. Qed.

Lemma base64_no_underscore s : Contains (EncodeToString StdEncoding s) "_" = false.
Proof. apply EncodeToString_no_sep; [apply StdEncoding_ok|]. apply (bool_decide_unpack _). vm_compute. exact I. Qed.

Lemma Itoa_no_underscore z : Contains (Itoa z) "_" = false.
Proof. by apply pretty_Z_no_char. Qed.

Hint Resolve hex_no_underscore base64_no_underscore Itoa_no_underscore : router.

(** A tagged text has three parts, and the first two give the value back. *)
Lemma taggedText_split v backend :
  encodable v → Contains backend "_" = false →
  ∃ text raw tag, taggedText v backend = Some text ∧ SplitStr text nameSeparator = [raw; tag; backend] ∧
    ∀ pt, restoreToken parseIntErr hexErr base64Err pt raw tag = inl v.
Proof.
  intros Hv Hb. destruct v as [|i|bits|str|]; try done; unfold taggedText, nameSeparator; do 3 eexists;
    (split; [reflexivity|]); (split; [apply SplitStr_three; auto with router|]); intros pt; unfold restoreToken; decide_strings.
  - by rewrite ParseInt64_pretty.
  - rewrite hex_roundtrip. cbn in Hv. rewrite bool_decide_false by (unfold PutUint64; rewrite slength_le_bytes; tauto).
    by rewrite Uint64_roundtrip.
  - by rewrite base64_roundtrip by apply StdEncoding_ok.
Qed.

(** The handlers can deliver to this backend. *)
Definition reachable (m : mcpRequestContext) (s : session) (name : string) (backend : MCPBackend) (cse : compositeSessionEntry) : Prop :=
  getBackendForRoute m (ss_route s) name = Ok backend ∧ mb_Name backend = name ∧
  ss_perBackendSessions s !! name = Some cse ∧ Contains name "_" = false.

(** Progress finds the way back: the token that a client returns, after the
    proxy rewrote the one of the backend, is delivered to that backend with
    exactly the value and the type it had. *)
Theorem progress_token_returns m s typeName name backend cse v :
  reachable m s name backend cse → encodable v →
  ∃ v', maybeUpdateProgressTokenMetadata (Some v) name = (Some v', true) ∧
    handleClientToServerNotificationsProgress parseIntErr hexErr base64Err m s typeName v' = Delivered backend cse v.
Proof using JL.
  intros (Hb & Hn & Hc & Hu) Hv. destruct (taggedText_split v name Hv Hu) as (text & raw & tag & Ht & Hs & Hr).
  exists (RString text). unfold maybeUpdateProgressTokenMetadata. rewrite Ht. split; [done|].
  unfold handleClientToServerNotificationsProgress, getCompositeSessionEntry. by rewrite Hs, Hr, Hb, Hn, Hc.
Qed.

(** The ids that survive: strings, and integers a float can hold. *)
Definition id_ok (v : rawValue) : Prop :=
  match v with RString _ => True | RInt i => (0 ≤ i < 2 ^ 53)%Z | _ => False end.

(** Decoding the two parts of an id restores it. *)
Lemma restoreID_tagged v name :
  id_ok v → Contains name "_" = false →
  ∃ text raw tag id, taggedText v name = Some text ∧ SplitStr text nameSeparator = [raw; tag; name] ∧
    restoreID parseIntErr hexErr base64Err raw tag = inl (Ok id) ∧ Raw id = v.
Proof using JL.
  intros Hv Hu. assert (encodable v) as He by (destruct v; cbn in *; unfold in_int64; done || lia).
  destruct v as [|i|bits|str|]; try done; unfold taggedText, nameSeparator.
  - destruct (MakeID_integer i Hv) as (id & Hid & Hraw). do 3 eexists. exists id. split; [reflexivity|].
    split; [apply SplitStr_three; auto with router|]. split; [|done]. unfold restoreID. decide_strings.
    by rewrite ParseInt64_pretty, Hid.
  - destruct (MakeID_string str) as (id & Hid & Hraw). do 3 eexists. exists id. split; [reflexivity|].
    split; [apply SplitStr_three; auto with router|]. split; [|done]. unfold restoreID. decide_strings.
    by rewrite base64_roundtrip, Hid by apply StdEncoding_ok.
Qed.

(** C29: an answer finds the way back: when a backend asks the client something,
    the client sees a string id, and the answer under that id is delivered to the
    same backend under the id the backend used. *)
Theorem server_request_answered m s shown name backend cse msg :
  reachable m s name backend cse → sv_Method msg ∈ serverRequestMethods → id_ok (Raw (sv_ID msg)) →
  from_option pm_decodes true (sv_Params msg) = true →
  ∃ msg' id, maybeServerToClientRequestModify msg name = (msg', Ok tt) ∧
    handleClientToServerResponse parseIntErr hexErr base64Err m s shown (sv_ID msg') = Delivered backend cse id ∧
    Raw id = Raw (sv_ID msg).
Proof using JL.
  intros (Hb & Hn & Hc & Hu) Hm Hv Hd. destruct (restoreID_tagged _ name Hv Hu) as (text & raw & tag & id & Ht & Hs & Hr & Hi).
  destruct (MakeID_string text) as (newID & Hnew & Hraw).
  assert (∃ msg1, tokenParams msg name = Ok msg1 ∧ sv_ID msg1 = sv_ID msg) as (msg1 & H1 & Hid).
  { unfold tokenParams. destruct (sv_Params msg) as [p|]; [|eauto]. cbn in Hd. rewrite Hd.
    destruct (maybeUpdateProgressTokenMetadata _ _) as [pt []]; cbn; eauto. }
  eexists {| sv_ID := newID; sv_Method := sv_Method msg1; sv_Params := sv_Params msg1 |}, id. split_and!; [| |done].
  - unfold maybeServerToClientRequestModify, prefixID. rewrite bool_decide_true, H1, Hid by done.
    destruct (Raw (sv_ID msg)); try done; by rewrite Ht, Hnew.
  - unfold handleClientToServerResponse, getCompositeSessionEntry. cbn. by rewrite Hraw, Hs, Hr, Hb, Hc.
Qed.

(** Two ids of one backend that a [float64] does not tell apart come back as one. *)
Lemma large_ids_collide m s shown name id1 id2 :
  Raw id1 = RString ("9007199254740992__i__" +:+ name) → Raw id2 = RString ("9007199254740993__i__" +:+ name) →
  Contains name "_" = false → ∀ backend cse a b,
  handleClientToServerResponse parseIntErr hexErr base64Err m s shown id1 = Delivered backend cse a →
  handleClientToServerResponse parseIntErr hexErr base64Err m s shown id2 = Delivered backend cse b → a = b.
Proof.
  intros H1 H2 Hu backend cse a b. unfold handleClientToServerResponse. rewrite H1, H2.
  change ("9007199254740992__i__" +:+ name) with ("9007199254740992" +:+ "__" +:+ "i" +:+ "__" +:+ name).
  change ("9007199254740993__i__" +:+ name) with ("9007199254740993" +:+ "__" +:+ "i" +:+ "__" +:+ name).
  unfold nameSeparator. rewrite !SplitStr_three by done.
  replace (restoreID parseIntErr hexErr base64Err "9007199254740993" "i") with (restoreID parseIntErr hexErr base64Err "9007199254740992" "i")
    by (vm_compute; reflexivity).
  destruct (restoreID _ _ _ _ _) as [[id| |]|[]]; [|done..].
  destruct (getBackendForRoute m (ss_route s) name); [|done..].
  destruct (getCompositeSessionEntry s name); congruence.
Qed.

(** A notification has no id, and the rewriting of a resource update always
    reports an error, with the URI rewritten. *)
Lemma resource_update_reports_error msg name p :
  sv_Method msg = "notifications/resources/updated" → Raw (sv_ID msg) = RNil → sv_Params msg = Some p →
  pm_decodes p = true →
  ∃ msg', maybeServerToClientRequestModify msg name = (msg', Fail (errors_New "missing id in the server->client request")) ∧
    pm_URI <$> sv_Params msg' = Some (downstreamResourceURI (pm_URI p) name).
Proof.
  intros Hm Hr Hp Hd. unfold maybeServerToClientRequestModify, updatedParams. rewrite Hm, Hp, Hd.
  rewrite bool_decide_false by (apply (bool_decide_unpack _); vm_compute; exact I). rewrite bool_decide_true by done.
  unfold prefixID, with_params. cbn [sv_ID negb]. rewrite Hr. by eexists.
Qed.
End Roundtrips.

(** ** Concrete messages *)

Module Sample.
Import Toy McpAuthz.Sample McpSession.Sample McpRouting.Sample.

(** The integer a float stands for. *)
Definition integer_of (bits : Z) : Z :=
  if bool_decide (bits = 0)%Z then 0%Z else ((2 ^ 52 + bits mod 2 ^ 52) / 2 ^ (1075 - bits / 2 ^ 52))%Z.

Lemma integer_of_bits z : (0 ≤ z < 2 ^ 53)%Z → integer_of (f64_bits (f64_of_Z z)) = z.
Proof.
  intros Hz. destruct z as [|m|m]; [reflexivity| |lia]. destruct (normal_bounds m) as [Hd Hm]; [lia|].
  rewrite f64_of_pos by lia. unfold f64_bits, integer_of. set (d := Z.pos (digits2_pos m)) in *.
  assert (0 < d)%Z by (unfold d; lia). rewrite Z2Pos.id by lia. destruct (Z.ltb_spec (Z.pos m * 2 ^ (53 - d)) (2 ^ 52)) as [|_]; [lia|].
  replace (0 + ((d - 53 + 1075) * 2 ^ 52 + (Z.pos m * 2 ^ (53 - d) - 2 ^ 52)))%Z
    with ((Z.pos m * 2 ^ (53 - d) - 2 ^ 52) + (d + 1022) * 2 ^ 52)%Z by lia.
  rewrite bool_decide_false by lia. rewrite Z.mod_add, Z.div_add by lia.
  rewrite Z.mod_small, (Z.div_small (Z.pos m * 2 ^ (53 - d) - 2 ^ 52) (2 ^ 52)) by lia. replace (1075 - (0 + (d + 1022)))%Z with (53 - d)%Z by lia.
  replace (2 ^ 52 + (Z.pos m * 2 ^ (53 - d) - 2 ^ 52))%Z with (Z.pos m * 2 ^ (53 - d))%Z by lia.
  apply Z.div_mul. apply Z.pow_nonzero; lia.
Qed.

(** Ids as the package has them: a number is kept as its integer. *)
#[export] Instance rpc : JsonRpc := {
  ID := rawValue; MakeID v := match v with RFloat bits => Ok (RInt (integer_of bits)) | _ => Ok v end; Raw id := id }.
#[export] Instance rpc_laws : JsonRpcLaws rpc.
Proof. split; [by intros s; exists (RString s)|]. intros z Hz. eexists. split; [reflexivity|]. cbn. by rewrite integer_of_bits. Qed.

Definition text_err (s : string) : error := errors_New s.

Lemma github_reachable :
  ∃ b, reachable ctx sess "github" b (entry "github").
Proof. eexists. vm_compute. auto. Qed.

Lemma progress_token_returns_witness :
  ∃ b v', maybeUpdateProgressTokenMetadata (Some (RFloat 4617315517961601024)) "github" = (Some v', true) ∧
    handleClientToServerNotificationsProgress text_err text_err text_err ctx sess (λ _, "") v' =
      Delivered b (entry "github") (RFloat 4617315517961601024).
Proof.
  destruct github_reachable as [b Hb]. exists b.
  apply (progress_token_returns text_err text_err text_err ctx sess (λ _, "") "github" b (entry "github")); [exact Hb|].
  vm_compute. split; [discriminate|reflexivity].
Defined.

Lemma server_request_answered_witness :
  let msg := {| sv_ID := RInt 41; sv_Method := "elicitation/create"; sv_Params := None |} in
  ∃ b msg' id, maybeServerToClientRequestModify msg "github" = (msg', Ok tt) ∧
    handleClientToServerResponse text_err text_err text_err ctx sess (λ _, "") (sv_ID msg') = Delivered b (entry "github") id ∧
    id = RInt 41.
Proof.
  intros msg. destruct github_reachable as [b Hb]. exists b.
  apply (server_request_answered text_err text_err text_err ctx sess (λ _, "") "github" b (entry "github") msg); [exact Hb|..].
  - right. right. left.
  - vm_compute. split; [discriminate|reflexivity].
  - reflexivity.
Defined.
End Sample.
