(* ===== verification/McpEra.v ===== *)
(** * Legacy and modern MCP requests

    Models [internal/mcpproxy/era.go] (how a request is classified and validated)
    and the pure parts of [internal/mcpproxy/modern.go]: the dispatch of a modern
    request, the selection of its backends, the fan-out of the lists, the merged
    discovery and the reading of a backend's answer.  The decoding of JSON is a
    class; the HTTP exchange with a backend is an argument. *)

From Stdlib Require Import Ascii ZArith Lia.
From stdpp Require Import base gmap strings list.
From S2P Require Import Prelude GoStrings InternalApi GoHttp Crypto McpAuthz McpCrypto McpConfig McpSession McpRouting McpIds.

Definition protocolVersion20260728 : string := "2026-07-28".
Definition mcpMethodHeader : string := "Mcp-Method".
Definition mcpNameHeader : string := "Mcp-Name".
Definition mcpProtocolVersionHeader : string := "Mcp-Protocol-Version".
Definition sessionIDHeader : string := "mcp-session-id".
Definition MCPRouteHeader : string := EnvoyAIGatewayHeaderPrefix +:+ "mcp-route".
Definition metaProtocolVersion : string := "io.modelcontextprotocol/protocolVersion".
Definition metaClientCapabilities : string := "io.modelcontextprotocol/clientCapabilities".

Definition errCodeInvalidRequest : Z := -32600.
Definition errCodeMethodNotFound : Z := -32601.
Definition errCodeInvalidParams : Z := -32602.
Definition errCodeHeaderMismatch : Z := -32020.
Definition errCodeMissingRequiredCapability : Z := -32021.

Definition legacyOnlyMethods : list string :=
  ["initialize"; "notifications/initialized"; "logging/setLevel"; "resources/subscribe"; "resources/unsubscribe";
   "roots/list"; "notifications/roots/list_changed"; "ping"].

Definition modernOnlyMethods : list string := ["server/discover"; "subscriptions/listen"].

Inductive era := eraLegacy | eraModern.
#[global] Instance era_eq_dec : EqDecision era.
Proof. solve_decision. Defined.

(** The [Data] of an error is a list of capabilities or nothing. *)
Record protocolError := {
  pe_Code : Z;
  pe_Message : string;
  pe_Data : list string;
  pe_HTTPStatus : Z;
}.

Record eraDetection := {
  ed_era : era;
  ed_version : string;
  ed_err : option protocolError;
}.

Record requestDetails := {
  rd_headerVersion : string;
  rd_headerMethod : string;
  rd_sessionID : string;
  rd_method : string;
  rd_params : string;
  rd_isRequest : bool;
  rd_expectsResponse : bool;
}.

Record modernRequestMeta := {
  mm_ProtocolVersion : string;
  mm_ClientInfo : string;
  mm_ClientCapabilities : string;
  mm_LogLevel : string;
}.

Definition zeroMeta : modernRequestMeta :=
  {| mm_ProtocolVersion := ""; mm_ClientInfo := ""; mm_ClientCapabilities := ""; mm_LogLevel := "" |}.

(** A decoded body: a request or notification with its method and raw parameters,
    and whether its id is valid, or a response. *)
Inductive jsonrpcMessage :=
| MsgRequest (method params : string) (validID : bool)
| MsgResponse.

(** The decoding of raw JSON: the [_meta] of a parameter object, a [_meta] block,
    and an object as the raw values of its fields. *)
Class JsonLib := {
  Unmarshal_envelope : string → option string;
  Unmarshal_meta : string → option modernRequestMeta;
  Unmarshal_object : string → option (gmap string string);
}.

Section Era.
Context `{JS : !JsonLib}.

Definition getRequestDetails (headers : http_Header) (msg : jsonrpcMessage) : requestDetails :=
  match msg with
  | MsgRequest method params validID =>
      {| rd_headerVersion := Header_Get headers mcpProtocolVersionHeader;
         rd_headerMethod := Header_Get headers mcpMethodHeader;
         rd_sessionID := Header_Get headers sessionIDHeader;
         rd_method := method; rd_params := params; rd_isRequest := true; rd_expectsResponse := validID |}
  | MsgResponse =>
      {| rd_headerVersion := Header_Get headers mcpProtocolVersionHeader;
         rd_headerMethod := Header_Get headers mcpMethodHeader;
         rd_sessionID := Header_Get headers sessionIDHeader;
         rd_method := ""; rd_params := ""; rd_isRequest := false; rd_expectsResponse := false |}
  end.

(** [None] is an error. *)
Definition parseModernMeta (params : string) : option modernRequestMeta :=
  if bool_decide (params = "") then Some zeroMeta
  else
    meta ← Unmarshal_envelope params;
    if bool_decide (meta = "") then Some zeroMeta else Unmarshal_meta meta.

Definition jsonPresent (raw : string) : bool := bool_decide (raw ≠ "") && bool_decide (raw ≠ "null").

Definition eraError (code : Z) (message : string) (status : Z) : eraDetection :=
  {| ed_era := eraLegacy; ed_version := "";
     ed_err := Some {| pe_Code := code; pe_Message := message; pe_Data := []; pe_HTTPStatus := status |} |}.

Definition validateLegacyRequest (d : requestDetails) : eraDetection :=
  if rd_isRequest d && bool_decide (rd_method d ∈ modernOnlyMethods) then
    eraError errCodeMethodNotFound ("Method not found: " +:+ Quote (rd_method d)) 200
  else {| ed_era := eraLegacy; ed_version := rd_headerVersion d; ed_err := None |}.

Definition validateModernRequest (d : requestDetails) : eraDetection :=
  if negb (rd_isRequest d) then
    eraError errCodeInvalidRequest "JSON-RPC responses are not valid on the modern POST path" 400
  else if bool_decide (rd_headerMethod d = "") then
    eraError errCodeHeaderMismatch ("Header mismatch: " +:+ mcpMethodHeader +:+ " is required") 400
  else if bool_decide (rd_headerMethod d ≠ rd_method d) then
    eraError errCodeHeaderMismatch ("Header mismatch: " +:+ mcpMethodHeader +:+ " header value " +:+ Quote (rd_headerMethod d) +:+
                                    " does not match body value " +:+ Quote (rd_method d)) 400
  else if bool_decide (rd_method d ∈ legacyOnlyMethods) then
    eraError errCodeMethodNotFound ("Method not found: " +:+ Quote (rd_method d)) 404
  else if bool_decide (rd_sessionID d ≠ "") then
    eraError errCodeHeaderMismatch (sessionIDHeader +:+ " is not valid in protocol version " +:+ rd_headerVersion d) 400
  else
    match parseModernMeta (rd_params d) with
    | None => eraError errCodeInvalidParams "Invalid params: _meta could not be decoded" 400
    | Some meta =>
        if bool_decide (mm_ProtocolVersion meta = "") then
          eraError errCodeInvalidParams ("Invalid params: " +:+ Quote metaProtocolVersion +:+ " is required") 400
        else if bool_decide (mm_ProtocolVersion meta ≠ rd_headerVersion d) then
          eraError errCodeHeaderMismatch
            ("Header mismatch: " +:+ mcpProtocolVersionHeader +:+ " header value " +:+ Quote (rd_headerVersion d) +:+
             " does not match " +:+ Quote metaProtocolVersion +:+ " value " +:+ Quote (mm_ProtocolVersion meta)) 400
        else if rd_expectsResponse d && negb (jsonPresent (mm_ClientCapabilities meta)) then
          {| ed_era := eraLegacy; ed_version := "";
             ed_err := Some {| pe_Code := errCodeMissingRequiredCapability;
                               pe_Message := "Missing required client capability: " +:+ Quote metaClientCapabilities;
                               pe_Data := [metaClientCapabilities]; pe_HTTPStatus := 400 |} |}
        else {| ed_era := eraModern; ed_version := rd_headerVersion d; ed_err := None |}
    end.

Definition detectClientEra (httpMethod : string) (headers : http_Header) (msg : jsonrpcMessage) : eraDetection :=
  if bool_decide (httpMethod ≠ "POST") then {| ed_era := eraLegacy; ed_version := ""; ed_err := None |}
  else
    let reqDetails := getRequestDetails headers msg in
    if bool_decide (rd_headerVersion reqDetails = protocolVersion20260728) then validateModernRequest reqDetails
    else validateLegacyRequest reqDetails.
End Era.

(** ** The answer of a modern backend *)

Section ModernAnswer.
Context `{JS : !JsonLib}.

(** [strings.Split] on the line feed, then the last data line that is not empty. *)
Definition dataLine (acc : option string) (line : string) : option string :=
  let line := TrimSpace line in
  if HasPrefix line "data:" then
    let data := TrimSpace (TrimPrefix line "data:") in
    if bool_decide (data ≠ "") && bool_decide (data ≠ "[DONE]") then Some data else acc
  else acc.

Definition extractJSONFromSSE (body : string) : option string := foldl dataLine None (Split body (chr 10)).

Definition fieldPresent (field : string) (rpcResp : gmap string string) : bool :=
  match rpcResp !! field with Some v => bool_decide (v ≠ "null") | None => false end.

(** [wantID] is the encoded id of the request. *)
Definition validateModernJSONRPCResponse (wantID : string) (rpcResp : gmap string string) : outcome unit :=
  match rpcResp !! "id" with
  | None => Fail (errors_New "backend response missing id")
  | Some gotID =>
      if bool_decide (gotID = "null") then Fail (errors_New "backend response missing id")
      else if bool_decide (gotID ≠ wantID) then
        Fail (errors_New ("response id mismatch: got " +:+ gotID +:+ ", want " +:+ wantID))
      else
        let resultPresent := fieldPresent "result" rpcResp in
        let errorPresent := fieldPresent "error" rpcResp in
        if resultPresent && errorPresent then Fail (errors_New "backend response has both result and error")
        else if errorPresent then Fail (errors_New ("backend error: " +:+ mget rpcResp "error"))
        else if negb resultPresent then Fail (errors_New "backend returned no result")
        else Ok tt
  end.

(** The part of [sendModernRequest] after the body is read; the text of a decoding
    error is left out: [contains] is
    [strings.Contains(contentType, "text/event-stream")]. *)
Definition readModernResponse (wantID : string) (statusCode : Z) (contains : bool) (respBody : string) : outcome string :=
  if bool_decide (statusCode ≠ 200)%Z then
    Fail (errors_New ("backend returned status " +:+ Itoa statusCode +:+ ": " +:+ respBody))
  else
    let payload :=
      if contains || HasPrefix respBody "event:" || HasPrefix respBody "data:" then extractJSONFromSSE respBody
      else Some respBody in
    match payload with
    | None => Fail (errors_New "no JSON-RPC response found in SSE stream")
    | Some jsonPayload =>
        match Unmarshal_object jsonPayload with
        | None => Fail (errors_New "parse response")
        | Some rpcResp =>
            let! _ := validateModernJSONRPCResponse wantID rpcResp in
            Ok (mget rpcResp "result")
        end
    end.
End ModernAnswer.

(** ** Modern requests *)

Definition errModernListNoBackends : error := errors_New "list request failed for all backends".

(** [metrics.MCPErrorType]. *)
Definition MCPErrorUnsupportedMethod : string := "unsupported_method".
Definition MCPErrorInternal : string := "internal_error".
Definition MCPErrorInvalidJSONRPC : string := "invalid_json_rpc".
Definition MCPErrorInvalidParam : string := "invalid_param".

Record DiscoverResult := {
  dr_SupportedVersions : list string;
  dr_Capabilities : option ServerCapabilities;
  dr_Cacheable : Cacheable;
  dr_Instructions : string;
}.

(** What a modern handler writes: an error response, or a result. *)
Inductive modernReply (A : Type) :=
| ModernError (status : Z) (body : string) (err : error)
| ModernResult (result : A).
Arguments ModernError {A}.
Arguments ModernResult {A}.

Section Modern.
Context `{CR : !Crypto} `{L : !AuthzLib} `{CE : !AuthzCel} `{RX : !Regexps}.

(** The route and the selected backends, or the error response. *)
Definition resolveModernRouteBackends (m : mcpRequestContext) (route : string) :
    modernReply (mcpProxyConfigRoute * gmap string MCPBackend) :=
  match rc_routes m !! route with
  | None => ModernError 404 "route not found" (Errorf_suffix errBackendNotFound (": " +:+ route))
  | Some routeConfig =>
      match selectAuthorizedBackends m route routeConfig with
      | Ok selected => ModernResult (routeConfig, selected)
      | Fail err => ModernError 403 "access denied" err
      | Panic msg => ModernError 500 msg (errors_New msg)
      end
  end.

(** [send] is [sendModernRequest], [unmarshal] decodes its raw result. *)
Definition collectResponse {A} (send : MCPBackend → outcome string) (unmarshal : string → option (listResult A))
    (responses : list (broadCastResponse A)) (p : string * MCPBackend) : list (broadCastResponse A) :=
  match send p.2 with
  | Ok resp =>
      match unmarshal resp with
      | Some result => responses ++ [{| bc_backendName := p.1; bc_res := result |}]
      | None => responses
      end
  | _ => responses
  end.

Definition sendToAllModernBackendsAndAggregateResponses {A} (m : mcpRequestContext) (method route : string)
    (send : MCPBackend → outcome string) (unmarshal : string → option (listResult A)) (backends : gmap string MCPBackend) :
    outcome (list (broadCastResponse A)) :=
  if bool_decide (backends = ∅) then
    Fail (Errorf_suffix errModernListNoBackends (": " +:+ method +:+ " has no backends selected for route " +:+ route))
  else
    match foldl (collectResponse send unmarshal) [] (rc_rangeBackends m backends) with
    | [] => Fail (Errorf_suffix errModernListNoBackends (": " +:+ method +:+ " failed for all backends on route " +:+ route))
    | responses => Ok responses
    end.

(** The session a modern list is merged under: only its route is set. *)
Definition routeSession (route : string) : session :=
  {| ss_id := ""; ss_route := route; ss_perBackendSessions := ∅; ss_extraHeaders := None; ss_perBackendExtraHeaders := None |}.

(** [handleModernToolsList] and its three siblings: [what] is the word of the
    error response, [merge] the function that merges. *)
Definition handleModernList {A} (m : mcpRequestContext) (method what route : string)
    (merge : mcpRequestContext → session → list (broadCastResponse A) → listResult A)
    (send : MCPBackend → outcome string) (unmarshal : string → option (listResult A)) : modernReply (listResult A) :=
  match resolveModernRouteBackends m route with
  | ModernError status body err => ModernError status body err
  | ModernResult (_, selected) =>
      match sendToAllModernBackendsAndAggregateResponses m method route send unmarshal selected with
      | Ok responses => ModernResult (merge m (routeSession route) responses)
      | Fail err => ModernError 500 ("failed to list " +:+ what +:+ " for all backends") err
      | Panic msg => ModernError 500 msg (errors_New msg)
      end
  end.

Definition handleModernToolsList (m : mcpRequestContext) (route : string) :=
  handleModernList m "tools/list" "tools" route mergeToolsList.
Definition handleModernResourcesList (m : mcpRequestContext) (route : string) :=
  handleModernList m "resources/list" "resources" route (λ _ _, mergeResourceList).
Definition handleModernResourceTemplatesList (m : mcpRequestContext) (route : string) :=
  handleModernList m "resources/templates/list" "resource templates" route (λ _ _, mergeResourcesTemplateList).
Definition handleModernPromptsList (m : mcpRequestContext) (route : string) :=
  handleModernList m "prompts/list" "prompts" route mergePromptsList.

Definition mergeDiscoverResults (range : gmap string string → list (string * string)) (results : list DiscoverResult) :
    DiscoverResult :=
  {| dr_SupportedVersions := [mergedProtocolVersion protocolVersion20260728 (dr_SupportedVersions <$> results)];
     dr_Capabilities := Some (unionServerCapabilities range (dr_Capabilities <$> results));
     dr_Cacheable := mergeCachingHintsFromBackends (dr_Cacheable <$> results);
     dr_Instructions := "" |}.

(** [discover] is [discoverBackend]. *)
Definition handleServerDiscover (m : mcpRequestContext) (range : gmap string string → list (string * string)) (route : string)
    (discover : MCPBackend → outcome DiscoverResult) : modernReply DiscoverResult :=
  match resolveModernRouteBackends m route with
  | ModernError status body err => ModernError status body err
  | ModernResult (_, selectedBackends) =>
      let results := omap (λ p, match discover p.2 with Ok r => Some r | _ => None end) (rc_rangeBackends m selectedBackends) in
      match results with
      | [] => ModernError 500 "failed to discover any backend" (errors_New "failed to discover any backend")
      | _ =>
          let merged := mergeDiscoverResults range results in
          ModernResult {| dr_SupportedVersions := dr_SupportedVersions merged; dr_Capabilities := dr_Capabilities merged;
                          dr_Cacheable := dr_Cacheable merged;
                          dr_Instructions := "Agent Router — MCP proxy aggregating " +:+ itoa (size selectedBackends) +:+ " backends" |}
      end
  end.

(** The dispatch: which handler serves a request, or the error response with its type. *)
Inductive modernAction :=
| ModernReject (status : Z) (body : string) (errType : string)
| ModernServe (method route : string).

Definition modernMethods : list string :=
  ["server/discover"; "tools/list"; "resources/list"; "resources/templates/list"; "prompts/list"].

(** [paramsOK] tells whether the parameters decode for the method. *)
Definition serveModernPOST (headers : http_Header) (method : string) (paramsOK : bool) : modernAction :=
  let route := Header_Get headers MCPRouteHeader in
  let headerMethod := Header_Get headers mcpMethodHeader in
  if bool_decide (route = "") then ModernReject 500 "missing route header" MCPErrorInternal
  else if bool_decide (headerMethod ≠ method) then
    ModernReject 400 ("Mcp-Method header '" +:+ headerMethod +:+ "' does not match body method '" +:+ method +:+ "'") MCPErrorInvalidJSONRPC
  else if bool_decide (method ∈ ["initialize"; "notifications/initialized"]) then
    ModernReject 404 "method removed in 2026-07-28: use server/discover" MCPErrorUnsupportedMethod
  else if bool_decide (method = "ping") then ModernReject 404 "ping removed in 2026-07-28" MCPErrorUnsupportedMethod
  else if bool_decide (method = "logging/setLevel") then
    ModernReject 404 "logging/setLevel removed in 2026-07-28; use _meta logLevel" MCPErrorUnsupportedMethod
  else if bool_decide (method ∈ modernMethods) then
    if paramsOK then ModernServe method route else ModernReject 400 "invalid params" MCPErrorInvalidParam
  else ModernReject 404 ("unknown method: " +:+ method) MCPErrorUnsupportedMethod.
End Modern.

(** ** Properties of the classification *)

Section EraProps.
Context `{JS : !JsonLib}.

(** What the specification asks of a modern request. *)
Definition modern_request (headers : http_Header) (method params : string) (validID : bool) : Prop :=
  Header_Get headers mcpProtocolVersionHeader = protocolVersion20260728 ∧
  method ≠ "" ∧ Header_Get headers mcpMethodHeader = method ∧ method ∉ legacyOnlyMethods ∧
  Header_Get headers sessionIDHeader = "" ∧
  ∃ meta, parseModernMeta params = Some meta ∧ mm_ProtocolVersion meta = protocolVersion20260728 ∧
    (validID = true → jsonPresent (mm_ClientCapabilities meta) = true).

Lemma validateModern_accepts d :
  ed_err (validateModernRequest d) = None ↔
  rd_isRequest d = true ∧ rd_headerMethod d ≠ "" ∧ rd_headerMethod d = rd_method d ∧ rd_method d ∉ legacyOnlyMethods ∧
  rd_sessionID d = "" ∧
  ∃ meta, parseModernMeta (rd_params d) = Some meta ∧ mm_ProtocolVersion meta ≠ "" ∧
    mm_ProtocolVersion meta = rd_headerVersion d ∧
    (rd_expectsResponse d = true → jsonPresent (mm_ClientCapabilities meta) = true).
Proof.
  unfold validateModernRequest. destruct (rd_isRequest d); cbn [negb]; [|naive_solver].
  do 4 (case_bool_decide; [naive_solver|]).
  destruct (parseModernMeta (rd_params d)) as [meta|] eqn:Em; [|naive_solver].
  do 2 (case_bool_decide; [naive_solver|]).
  destruct (rd_expectsResponse d && negb (jsonPresent (mm_ClientCapabilities meta))) eqn:Ej; cbn.
  - apply andb_true_iff in Ej as [E1 E2%negb_true_iff]. split; [done|].
    intros (_ & _ & _ & _ & _ & meta' & [= <-] & _ & _ & Hc). specialize (Hc E1). congruence.
  - split; [|done]. intros _. split_and!; try done. exists meta. split_and!; try done. intros E1.
    rewrite E1 in Ej. cbn in Ej. by apply negb_false_iff in Ej.
Qed.

Lemma validateModern_era d : ed_err (validateModernRequest d) = None → ed_era (validateModernRequest d) = eraModern.
Proof.
  unfold validateModernRequest. repeat case_match; done.
Qed.

Lemma detect_modern headers method params validID :
  let d := detectClientEra "POST" headers (MsgRequest method params validID) in
  ed_err d = None ∧ ed_era d = eraModern ↔ modern_request headers method params validID.
Proof.
  cbn zeta. unfold detectClientEra. rewrite bool_decide_false by auto. cbn [getRequestDetails rd_headerVersion].
  set (d := getRequestDetails headers (MsgRequest method params validID)).
  case_bool_decide as Hv.
  - transitivity (ed_err (validateModernRequest d) = None).
    { split; [tauto|]. intros H. split; [done|]. by apply validateModern_era. }
    rewrite validateModern_accepts. unfold modern_request. cbn. split.
    + intros (_ & H1 & H2 & H3 & H4 & meta & H5 & H6 & H7 & H8). rewrite H2 in H1.
      split_and!; try done. exists meta. by rewrite <-Hv.
    + intros (_ & H1 & H2 & H3 & H4 & meta & H5 & H6 & H7). rewrite H2.
      split_and!; try done. exists meta. rewrite Hv, H6. by split_and!.
  - unfold validateLegacyRequest, modern_request. cbn. case_bool_decide; cbn; naive_solver.
Qed.

(** C30: classification of requests: a POST is served as modern exactly when it
    meets every requirement of the 2026-07-28 version; one that declares that
    version and misses a requirement is rejected, never served as legacy, and no
    legacy request carries a method of the modern version. *)
Theorem era_classification headers method params validID :
  let d := detectClientEra "POST" headers (MsgRequest method params validID) in
  (ed_err d = None ∧ ed_era d = eraModern ↔ modern_request headers method params validID) ∧
  (ed_err d = None ∧ ed_era d = eraLegacy ↔
   Header_Get headers mcpProtocolVersionHeader ≠ protocolVersion20260728 ∧ method ∉ modernOnlyMethods).
Proof.
  split; [apply detect_modern|]. unfold detectClientEra. rewrite bool_decide_false by auto.
  cbn [getRequestDetails rd_headerVersion]. case_bool_decide as Hv.
  - split; [|tauto]. intros [H1 H2]. by rewrite validateModern_era in H2.
  - unfold validateLegacyRequest. cbn. case_bool_decide; cbn; naive_solver.
Qed.

(** A request that was classified as modern passes the header check of its handler. *)
Lemma modern_header_agrees headers method params validID paramsOK status body errType :
  ed_era (detectClientEra "POST" headers (MsgRequest method params validID)) = eraModern →
  ed_err (detectClientEra "POST" headers (MsgRequest method params validID)) = None →
  serveModernPOST headers method paramsOK = ModernReject status body errType → errType ≠ MCPErrorInvalidJSONRPC.
Proof.
  intros H1 H2. assert (modern_request headers method params validID) as (_ & _ & Hm & _) by (by apply detect_modern).
  unfold serveModernPOST. rewrite (bool_decide_false (Header_Get headers mcpMethodHeader ≠ method)) by auto.
  repeat case_bool_decide; try (by intros [= _ _ <-]). destruct paramsOK; [done|]. by intros [= _ _ <-].
Qed.
End EraProps.

(** ** Properties of the modern handlers *)

Section ModernProps.
Context `{JS : !JsonLib} `{CR : !Crypto} `{L : !AuthzLib} `{CE : !AuthzCel} `{RX : !Regexps}.

(** The answers that arrive and decode. *)
Definition answers {A} (send : MCPBackend → outcome string) (unmarshal : string → option (listResult A))
    (l : list (string * MCPBackend)) : list (broadCastResponse A) :=
  omap (λ p, match send p.2 with
             | Ok resp => (λ result, {| bc_backendName := p.1; bc_res := result |}) <$> unmarshal resp
             | _ => None
             end) l.

Lemma collectResponse_fold {A} send (unmarshal : string → option (listResult A)) l acc :
  foldl (collectResponse send unmarshal) acc l = acc ++ answers send unmarshal l.
Proof.
  revert acc. induction l as [|p l IH]; intros acc; cbn; [by rewrite app_nil_r|].
  rewrite IH. unfold collectResponse. destruct (send p.2); [|done..].
  destruct (unmarshal _); cbn; [|done]. by rewrite <-app_assoc.
Qed.

(** A modern list is the merge of all answers and only of allowed backends:
    the request goes to the backends of the route that the selector allows for
    this caller; the result is the merge of the answers that arrive and decode,
    and the request fails only when the route is unknown, no backend is allowed,
    or none answers. *)
Theorem modern_list_complete {A} m method what route merge send (unmarshal : string → option (listResult A)) result :
  RangeOrder (rc_rangeBackends m) →
  handleModernList m method what route merge send unmarshal = ModernResult result ↔
  ∃ routeConfig selected, rc_routes m !! route = Some routeConfig ∧
    (∀ name b, selected !! name = Some b ↔ rt_backends routeConfig !! name = Some b ∧ backendAllowed m routeConfig name = true) ∧
    answers send unmarshal (rc_rangeBackends m selected) ≠ [] ∧
    result = merge m (routeSession route) (answers send unmarshal (rc_rangeBackends m selected)).
Proof.
  intros Ho. unfold handleModernList, resolveModernRouteBackends, sendToAllModernBackendsAndAggregateResponses.
  destruct (rc_routes m !! route) as [rc|] eqn:Er; [|naive_solver].
  assert (rc_rangeBackends m ∅ = []) as Hempty.
  { apply Permutation_nil_r. by rewrite (range_perm ∅), map_to_list_empty. }
  pose proof (selectAuthorizedBackends_cases m route rc Ho) as Hsel.
  destruct (selectAuthorizedBackends m route rc) as [selected|err|]; [| |done].
  - split.
    + case_bool_decide; [done|]. rewrite collectResponse_fold. cbn [app]. intros Hres.
      exists rc, selected. destruct (answers _ _ _) eqn:Ea; [done|]. by injection Hres as <-.
    + intros (rc' & sel & [= <-] & Hs & Hne & ->).
      assert (sel = selected) as ->.
      { apply map_eq. intros name. apply option_eq. intros b. by rewrite Hs, Hsel. }
      rewrite bool_decide_false, collectResponse_fold; [|intros ->; by rewrite Hempty in Hne]. cbn [app].
      by destruct (answers send unmarshal _).
  - split; [done|]. intros (rc' & sel & [= <-] & Hs & Hne & _). exfalso. apply Hne.
    assert (sel = ∅) as ->; [|by rewrite Hempty]. apply map_empty. intros name.
    destruct (sel !! name) as [b|] eqn:E; [|done]. apply Hs in E as [Hb Ha]. by rewrite (Hsel name b Hb) in Ha.
Qed.

(** A modern answer is used only when it answers the request: the status is
    200, the payload is the body or the last data line of an event stream, its id
    is the one of the request, and it has a result and no error. *)
Theorem modern_answer_accepted wantID status contains body result :
  readModernResponse wantID status contains body = Ok result ↔
  status = 200%Z ∧ ∃ payload resp,
    (if contains || HasPrefix body "event:" || HasPrefix body "data:" then extractJSONFromSSE body else Some body) = Some payload ∧
    Unmarshal_object payload = Some resp ∧ resp !! "id" = Some wantID ∧ wantID ≠ "null" ∧
    resp !! "result" = Some result ∧ result ≠ "null" ∧ fieldPresent "error" resp = false.
Proof.
  unfold readModernResponse. case_bool_decide as Hst; [naive_solver|]. subst status.
  unfold validateModernJSONRPCResponse, mget. split.
  - destruct (if contains || _ || _ then _ else _) as [payload|]; [|done].
    destruct (Unmarshal_object payload) as [resp|] eqn:Eu; [|done]. destruct (resp !! "id") as [got|] eqn:Ei; [|done].
    case_bool_decide; [done|]. case_bool_decide; [done|]. subst got.
    destruct (fieldPresent "result" resp) eqn:Er, (fieldPresent "error" resp) eqn:Ee; cbn; try done.
    unfold fieldPresent in Er. destruct (resp !! "result") as [res|] eqn:Eres; [|done].
    apply bool_decide_eq_true in Er. intros [= <-]. split; [done|]. by exists payload, resp.
  - intros (_ & payload & resp & -> & -> & -> & Hw & Hr & Hn & He). 
    assert (fieldPresent "result" resp = true) as Hp by (unfold fieldPresent; rewrite Hr; by apply bool_decide_eq_true).
    rewrite Hp, He, Hr. by rewrite (bool_decide_false (wantID = _)), (bool_decide_false (_ ≠ _)) by auto.
Qed.
End ModernProps.

(** ** A concrete list *)

Module Sample.
Import Toy McpAuthz.Sample McpSession.Sample.

(** Raw results are the names of tools; the answer of slack does not decode. *)
Definition decode (raw : string) : option (listResult mcpTool) :=
  if bool_decide (raw = "slack") then None
  else Some {| lr_items := [{| tool_Name := raw; tool_Meta := [] |}]; lr_cache := {| ch_TTLMs := 5; ch_CacheScope := "" |} |}.

(** The selector of the route leaves out jira. *)
Lemma modern_list_complete_witness :
  ∃ result, handleModernToolsList (ctx old) "tools" (λ b, Ok (mb_Name b)) decode = ModernResult result ∧
    tool_Name <$> lr_items result = ["github__github"].
Proof.
  exists (mergeToolsList (ctx old) (routeSession "tools")
    (answers (λ b, Ok (mb_Name b)) decode (map_to_list ({["github" := github; "slack" := slack]} : gmap string MCPBackend)))).
  split; [|vm_compute; reflexivity].
  apply (modern_list_complete (ctx old) "tools/list" "tools" "tools" mergeToolsList (λ b, Ok (mb_Name b)) decode); [apply _|].
  exists McpSession.Sample.route, {["github" := github; "slack" := slack]}. split; [vm_compute; reflexivity|].
  split; [|split; [vm_compute; discriminate|reflexivity]].
  apply (selectAuthorizedBackends_spec (ctx old) "tools"); [apply _|vm_compute; reflexivity].
Defined.
End Sample.
