(* ===== verification/McpStream.v ===== *)
(** * Streams between backends and the client

    Models how the MCP proxy passes on what its backends send: the merging of the
    answers to a listing ([sendToAllBackendsAndAggregateResponsesImpl] of
    [internal/mcpproxy/legacy.go]) and the notification stream of a session as a transition system
    ([streamNotifications] of [internal/mcpproxy/session.go]) that runs
    concurrently with reloads.  Events arrive decoded; logging, metrics and spans
    are left out. *)

From Stdlib Require Import Ascii ZArith Lia.
From stdpp Require Import base gmap strings list relations.
From S2P Require Import Prelude GoStrings GoHttp McpAuthz Crypto McpCrypto McpConfig McpController McpSession McpRouting McpSse GoCodec McpIds.

Section Messages.
Context `{J : !McpIds.JsonRpc}.

(** A response: its id, an error with its code, or a raw result. *)
Record serverResponse := {
  rsp_ID : ID;
  rsp_Error : option (Z * string);
  rsp_Result : option string;
}.

Inductive mcpMessage :=
| MRequest (r : serverRequest)
| MResponse (r : serverResponse).

Notation event := (sseEvent mcpMessage).

Definition with_id (ev : event) (id : string) : event :=
  {| ev_event := ev_event ev; ev_id := id; ev_messages := ev_messages ev; ev_backend := ev_backend ev |}.
Definition with_messages (ev : event) (msgs : list mcpMessage) : event :=
  {| ev_event := ev_event ev; ev_id := ev_id ev; ev_messages := msgs; ev_backend := ev_backend ev |}.

(** [lastEventID] is [session.lastEventID] with its order, randomness and crypto. *)
Context (lastEventID : session → outcome string).

(** The two lines that renumber an event. *)
Definition stamp (s : session) (ev : event) : session * outcome event :=
  let s := session_setLastEventID (ev_backend ev) (ev_id ev) s in
  (s, let! id := lastEventID s in Ok (with_id ev id)).

(** ** Merging the answers to a listing *)

Section Aggregate.
Context {A : Type} `{EqDecision ID}.
Context (requestID : ID) (unmarshal : string → option (listResult A)).

Record aggregation := {
  ag_session : session;
  ag_responses : list (broadCastResponse A);
  ag_hasBackendError : bool;
  ag_written : list event;
}.

(** The response that ends the event, when it answers the request. *)
Definition lastAnswer (msgs : list mcpMessage) : option serverResponse :=
  match last msgs with
  | Some (MResponse r) => if bool_decide (rsp_ID r = requestID) then Some r else None
  | _ => None
  end.

(** The [switch] on the answer. *)
Definition takeAnswer (backend : string) (r : serverResponse) (responses : list (broadCastResponse A)) (hasError : bool) :
    list (broadCastResponse A) * bool :=
  match rsp_Error r, rsp_Result r with
  | Some _, _ => (responses, true)
  | None, Some raw =>
      (match unmarshal raw with
       | Some result => responses ++ [{| bc_backendName := backend; bc_res := result |}]
       | None => responses
       end, hasError)
  | None, None => (responses, hasError)
  end.

(** The requests of the backend that remain, rewritten; the first error ends. *)
Fixpoint modifyAll (backend : string) (msgs : list mcpMessage) : outcome (list mcpMessage) :=
  match msgs with
  | [] => Ok []
  | MRequest r :: msgs =>
      match maybeServerToClientRequestModify r backend with
      | (r, Ok _) => let! msgs := modifyAll backend msgs in Ok (MRequest r :: msgs)
      | (_, Fail err) => Fail (Errorf_w "failed to modify server->client request: " err)
      | (_, Panic p) => Panic p
      end
  | m :: msgs => let! msgs := modifyAll backend msgs in Ok (m :: msgs)
  end.

Definition aggregateEvent (st : aggregation) (ev : event) : outcome aggregation :=
  let '(s, stamped) := stamp (ag_session st) ev in
  let! ev := stamped in
  match ev_messages ev with
  | [] => Ok {| ag_session := s; ag_responses := ag_responses st; ag_hasBackendError := ag_hasBackendError st; ag_written := ag_written st |}
  | msgs =>
      let '(responses, hasError, rest) :=
        match lastAnswer msgs with
        | Some r => (takeAnswer (ev_backend ev) r (ag_responses st) (ag_hasBackendError st), removelast msgs)
        | None => (ag_responses st, ag_hasBackendError st, msgs)
        end in
      let! rest := modifyAll (ev_backend ev) rest in
      Ok {| ag_session := s; ag_responses := responses; ag_hasBackendError := hasError;
            ag_written := ag_written st ++ match rest with [] => [] | _ => [with_messages ev rest] end |}
  end.

Definition errBackendResponseError : error := errors_New "one or more backends returned an error response".

(** [merge] merges and encodes, [uuid] is the id of the last event. *)
Definition aggregateResponses (s : session) (merge : session → list (broadCastResponse A) → outcome string) (uuid : string)
    (events : list event) : outcome (list event * option error) :=
  let! st := ofold aggregateEvent {| ag_session := s; ag_responses := []; ag_hasBackendError := false; ag_written := [] |} events in
  let! encoded := owrap "failed to marshal response: " (merge (ag_session st) (ag_responses st)) in
  Ok (ag_written st ++
      [{| ev_event := "message"; ev_id := uuid;
          ev_messages := [MResponse {| rsp_ID := requestID; rsp_Error := None; rsp_Result := Some encoded |}]; ev_backend := "" |}],
      if ag_hasBackendError st then Some errBackendResponseError else None).
End Aggregate.
End Messages.

Section AggregateProps.
Context `{J : !McpIds.JsonRpc} `{EqDecision ID} (lastEventID : session → outcome string).
Context {A : Type} (requestID : ID) (unmarshal : string → option (listResult A)).

(** Whether a message answers the request. *)
Definition answers_request (m : mcpMessage) : bool :=
  match m with MResponse r => bool_decide (rsp_ID r = requestID) | MRequest _ => false end.

(** The answer of a backend comes last in its event. *)
Definition answer_last (ev : sseEvent mcpMessage) : Prop :=
  Forall (λ m, answers_request m = false) (removelast (ev_messages ev)).

(** The decoded result that an event contributes. *)
Definition contribution (ev : sseEvent mcpMessage) : option (broadCastResponse A) :=
  r ← lastAnswer requestID (ev_messages ev);
  match rsp_Error r, rsp_Result r with
  | None, Some raw => (λ result, {| bc_backendName := ev_backend ev; bc_res := result |}) <$> unmarshal raw
  | _, _ => None
  end.

Definition reports_error (ev : sseEvent mcpMessage) : bool :=
  match lastAnswer requestID (ev_messages ev) with
  | Some r => match rsp_Error r with Some _ => true | None => false end
  | None => false
  end.

Lemma modifyAll_kinds backend msgs msgs' :
  modifyAll backend msgs = Ok msgs' → Forall (λ m, answers_request m = false) msgs →
  Forall (λ m, answers_request m = false) msgs'.
Proof.
  revert msgs'. induction msgs as [|m msgs IH]; intros msgs' H; [by injection H as <-|]. intros [Hm Hms]%Forall_cons.
  cbn in H. destruct m as [r|r].
  - destruct (maybeServerToClientRequestModify r backend) as [r' [u| |]]; try done.
    apply obind_ok_inv in H as (rest & Hr & [= <-]). constructor; eauto.
  - apply obind_ok_inv in H as (rest & Hr & [= <-]). constructor; eauto.
Qed.

Lemma no_answer_left msgs :
  Forall (λ m, answers_request m = false) (removelast msgs) → lastAnswer requestID msgs = None →
  Forall (λ m, answers_request m = false) msgs.
Proof.
  unfold lastAnswer. destruct msgs as [|m msgs _] using rev_ind; [done|]. rewrite removelast_last, last_snoc.
  intros Hall Hl. apply Forall_app. split; [done|]. repeat constructor. destruct m as [r|r]; [done|]. cbn.
  by case_bool_decide.
Qed.

(** One event: its contribution is taken, and nothing that answers is passed on. *)
Lemma aggregateEvent_inv st ev st' :
  aggregateEvent lastEventID requestID unmarshal st ev = Ok st' → answer_last ev →
  ag_responses st' = ag_responses st ++ option_list (contribution ev) ∧
  ag_hasBackendError st' = ag_hasBackendError st || reports_error ev ∧
  ∃ out, ag_written st' = ag_written st ++ out ∧
    Forall (λ ev', ev_backend ev' = ev_backend ev ∧ Forall (λ m, answers_request m = false) (ev_messages ev')) out.
Proof.
  unfold aggregateEvent, stamp, answer_last, contribution, reports_error. intros H Hlast.
  apply obind_ok_inv in H as (ev1 & (id & _ & [= <-])%obind_ok_inv & H). cbn [ev_messages ev_backend with_id] in H.
  destruct (ev_messages ev) as [|m0 msgs] eqn:Em.
  { injection H as <-. cbn. rewrite app_nil_r, orb_false_r. split_and!; [done..|]. exists []. by rewrite app_nil_r. }
  destruct (lastAnswer requestID (m0 :: msgs)) as [r|] eqn:El.
  - destruct (takeAnswer _ _ _ _ _) as [responses hasError] eqn:Et.
    apply obind_ok_inv in H as (rest & Hr & [= <-]). cbn [ag_responses ag_hasBackendError ag_written].
    assert (responses = ag_responses st ++ option_list (match rsp_Error r, rsp_Result r with
      | None, Some raw => (λ result, {| bc_backendName := ev_backend ev; bc_res := result |}) <$> unmarshal raw
      | _, _ => None end) ∧ hasError = ag_hasBackendError st || (if rsp_Error r then true else false)) as [-> ->].
    { revert Et. unfold takeAnswer. destruct (rsp_Error r), (rsp_Result r) as [raw|]; cbn;
        try (intros [= <- <-]; by rewrite ?app_nil_r, ?orb_true_r, ?orb_false_r).
      intros [= <- <-]. rewrite orb_false_r. destruct (unmarshal raw); cbn; by rewrite ?app_nil_r. }
    split; [done|]. split; [by destruct (rsp_Error r)|]. eexists. split; [reflexivity|].
    apply (modifyAll_kinds _ _ _ Hr) in Hlast. destruct rest; constructor; [|done]. by split.
  - apply obind_ok_inv in H as (rest & Hr & [= <-]). cbn. rewrite app_nil_r, orb_false_r. split_and!; [done..|].
    eexists. split; [reflexivity|]. apply no_answer_left in Hlast; [|done].
    apply (modifyAll_kinds _ _ _ Hr) in Hlast. destruct rest; constructor; [|done]. by split.
Qed.

(** A listing is answered once, with everything that was answered: when the
    aggregation ends, the last event is the one response to the request and
    carries the merge of every decodable result, in the order of arrival; none of
    the events passed on before it answers the request; and an error is reported
    exactly when a backend reported one. *)
Theorem listing_answered_once s merge uuid events out err :
  aggregateResponses lastEventID requestID unmarshal s merge uuid events = Ok (out, err) → Forall answer_last events →
  ∃ s' encoded fwd, merge s' (omap contribution events) = Ok encoded ∧
    out = fwd ++ [{| ev_event := "message"; ev_id := uuid;
                     ev_messages := [MResponse {| rsp_ID := requestID; rsp_Error := None; rsp_Result := Some encoded |}];
                     ev_backend := "" |}] ∧
    Forall (λ ev, Forall (λ m, answers_request m = false) (ev_messages ev)) fwd ∧
    (err = None ↔ Forall (λ ev, reports_error ev = false) events).
Proof.
  intros (st & Hst & (encoded & Henc%owrap_ok_inv & [= <- <-])%obind_ok_inv)%obind_ok_inv Hl.
  assert (∀ l st0, ofold (aggregateEvent lastEventID requestID unmarshal) st0 l = Ok st → Forall answer_last l →
    ag_responses st = ag_responses st0 ++ omap contribution l ∧
    (ag_hasBackendError st = false ↔ ag_hasBackendError st0 = false ∧ Forall (λ ev, reports_error ev = false) l) ∧
    ∃ fwd, ag_written st = ag_written st0 ++ fwd ∧
      Forall (λ ev, Forall (λ m, answers_request m = false) (ev_messages ev)) fwd) as Hfold.
  { clear. induction l as [|ev l IH]; intros st0 H Hl; cbn in H.
    { injection H as <-. rewrite app_nil_r. split_and!; [done| |]; [by split; [|intros []]|]. exists []. by rewrite app_nil_r. }
    apply obind_ok_inv in H as (st1 & H1 & H2). apply Forall_cons in Hl as [Hev Hl].
    destruct (aggregateEvent_inv _ _ _ H1 Hev) as (R & E & out & W & F).
    destruct (IH _ H2 Hl) as (R' & E' & fwd & W' & F'). rewrite R', E', R, E, W', W. split_and!.
    - cbn. destruct (contribution ev); cbn; by rewrite <-?app_assoc, ?app_nil_r.
    - rewrite Forall_cons, orb_false_iff. tauto.
    - exists (out ++ fwd). rewrite app_assoc. split; [done|]. apply Forall_app. split; [|done].
      eapply Forall_impl; [exact F|]. by intros ? []. }
  destruct (Hfold _ _ Hst Hl) as (R & E & fwd & W & F). cbn in R, E, W.
  exists (ag_session st), encoded, fwd. rewrite R in Henc. rewrite W. split_and!; [done..|].
  destruct (ag_hasBackendError st); [|tauto]. split; [done|].
  intros Hall. by discriminate (proj2 E (conj eq_refl Hall)).
Qed.

(** A resource update among the events of any backend makes the whole listing fail. *)
Lemma resource_update_fails_listing st ev r p msgs :
  lastAnswer requestID (ev_messages ev) = None → ev_messages ev = MRequest r :: msgs →
  sv_Method r = "notifications/resources/updated" → Raw (sv_ID r) = RNil → sv_Params r = Some p → pm_decodes p = true →
  ¬ ∃ st', aggregateEvent lastEventID requestID unmarshal st ev = Ok st'.
Proof.
  intros Hl Hm H1 H2 H3 H4 [st' H]. unfold aggregateEvent, stamp in H.
  apply obind_ok_inv in H as (ev1 & (id & _ & [= <-])%obind_ok_inv & H). cbn [ev_messages with_id] in H.
  rewrite Hm in *. rewrite Hl in H. apply obind_ok_inv in H as (rest & Hr & _). cbn in Hr.
  destruct (resource_update_reports_error r (ev_backend ev) p H1 H2 H3 H4) as (msg' & E & _). by rewrite E in Hr.
Qed.
End AggregateProps.

(** ** The notification stream *)

Section Stream.
Context `{J : !McpIds.JsonRpc}.

(** [lastEventID] draws random bytes at each call, from a source that is good. *)
Context {R : Type} (good : R → Prop) (lastEventID : R → session → outcome string).

Notation event := (sseEvent mcpMessage).

(** A message is rewritten in place; an error is logged and the message stays in the event. *)
Definition modifyMessage (backend : string) (m : mcpMessage) : mcpMessage :=
  match m with
  | MRequest r => MRequest (maybeServerToClientRequestModify r backend).1
  | MResponse _ => m
  end.

Definition passEvent (r : R) (s : session) (ev : event) : session * outcome event :=
  let '(s, stamped) := stamp (lastEventID r) s ev in
  (s, let! ev := stamped in Ok (with_messages ev (modifyMessage (ev_backend ev) <$> ev_messages ev))).

(** What is written: a heartbeat, the announcement that the tools changed, or an
    event with its form on the wire. *)
Inductive output :=
| OPing
| OToolsChanged
| OPassed (ev written : event).

(** The branch of the [select] that was taken. *)
Inductive work := WPing | WToolsChanged | WEvent (ev : event).

(** The loop waits in the [select] with the channel that [Watch] returned for
    this turn, works on a branch, or has ended. *)
Inductive phase :=
| Waiting (channel : nat)
| Busy (w : work)
| Stopped.

(** The loop with the channel the backends' readers send to.  [sm_sending] holds until
    all readers have ended and the channel is closed; [sm_open] until the loop has seen
    that and disabled the branch.  [sm_sent] is not kept by the code: it is the history
    of all events that were put into the channel. *)
Record stream := {
  sm_signaler : multiWatcherSignaler;
  sm_phase : phase;
  sm_sending : bool;
  sm_open : bool;
  sm_channel : list event;
  sm_session : session;
  sm_written : list output;
  sm_sent : list event;
}.

Definition set_phase (ph : phase) (st : stream) : stream :=
  {| sm_signaler := sm_signaler st; sm_phase := ph; sm_sending := sm_sending st; sm_open := sm_open st; sm_channel := sm_channel st;
     sm_session := sm_session st; sm_written := sm_written st; sm_sent := sm_sent st |}.

(** A reload signals. *)
Definition signalled (st : stream) : stream :=
  {| sm_signaler := Signal (sm_signaler st); sm_phase := sm_phase st; sm_sending := sm_sending st; sm_open := sm_open st;
     sm_channel := sm_channel st; sm_session := sm_session st; sm_written := sm_written st; sm_sent := sm_sent st |}.

(** A reader puts an event into the channel; the last reader ends. *)
Definition enqueued (ev : event) (st : stream) : stream :=
  {| sm_signaler := sm_signaler st; sm_phase := sm_phase st; sm_sending := sm_sending st; sm_open := sm_open st;
     sm_channel := sm_channel st ++ [ev]; sm_session := sm_session st; sm_written := sm_written st; sm_sent := sm_sent st ++ [ev] |}.
Definition readersEnded (st : stream) : stream :=
  {| sm_signaler := sm_signaler st; sm_phase := sm_phase st; sm_sending := false; sm_open := sm_open st; sm_channel := sm_channel st;
     sm_session := sm_session st; sm_written := sm_written st; sm_sent := sm_sent st |}.

(** The loop takes an event from the channel, or finds it closed and empty. *)
Definition received (ev : event) (rest : list event) (st : stream) : stream :=
  {| sm_signaler := sm_signaler st; sm_phase := Busy (WEvent ev); sm_sending := sm_sending st; sm_open := sm_open st; sm_channel := rest;
     sm_session := sm_session st; sm_written := sm_written st; sm_sent := sm_sent st |}.
Definition disabled (st : stream) : stream :=
  {| sm_signaler := sm_signaler st; sm_phase := Waiting (Watch (sm_signaler st)); sm_sending := sm_sending st; sm_open := false;
     sm_channel := sm_channel st; sm_session := sm_session st; sm_written := sm_written st; sm_sent := sm_sent st |}.

(** The work of a branch is done: the loop comes back to the [select]. *)
Definition worked (s : session) (o : output) (st : stream) : stream :=
  {| sm_signaler := sm_signaler st; sm_phase := Waiting (Watch (sm_signaler st)); sm_sending := sm_sending st; sm_open := sm_open st;
     sm_channel := sm_channel st; sm_session := s; sm_written := sm_written st ++ [o]; sm_sent := sm_sent st |}.

(** The beginning: a heartbeat, then the loop. *)
Definition startStream (sig : multiWatcherSignaler) (s : session) : stream :=
  {| sm_signaler := sig; sm_phase := Waiting (Watch sig); sm_sending := true; sm_open := true; sm_channel := []; sm_session := s;
     sm_written := [OPing]; sm_sent := [] |}.

(** The capacity of the channel. *)
Definition backendMsgsCapacity : nat := 200.

(** The work of a branch: the session and the output, when it returns. *)
Definition perform (r : R) (s : session) (w : work) : outcome (session * output) :=
  match w with
  | WPing => Ok (s, OPing)
  | WToolsChanged => Ok (s, OToolsChanged)
  | WEvent ev => let '(s', passed) := passEvent r s ev in let! written := passed in Ok (s', OPassed ev written)
  end.

(** Reloads signal and readers send at any time; the loop takes a branch that is ready,
    and asks for the signaler's channel again when it comes back to the [select].  When
    the work panics there is no further step. *)
Inductive stream_step : stream → stream → Prop :=
| step_signal st : stream_step st (signalled st)
| step_send st ev : sm_sending st = true → length (sm_channel st) < backendMsgsCapacity → stream_step st (enqueued ev st)
| step_readers_end st : sm_sending st = true → stream_step st (readersEnded st)
| step_event st ch ev rest :
    sm_phase st = Waiting ch → sm_open st = true → sm_channel st = ev :: rest → stream_step st (received ev rest st)
| step_closed st ch :
    sm_phase st = Waiting ch → sm_open st = true → sm_sending st = false → sm_channel st = [] → stream_step st (disabled st)
| step_changed st ch : sm_phase st = Waiting ch → closed (sm_signaler st) ch = true → stream_step st (set_phase (Busy WToolsChanged) st)
| step_beat st ch : sm_phase st = Waiting ch → stream_step st (set_phase (Busy WPing) st)
| step_done st ch : sm_phase st = Waiting ch → stream_step st (set_phase Stopped st)
| step_work st w r s' o :
    sm_phase st = Busy w → good r → perform r (sm_session st) w = Ok (s', o) → stream_step st (worked s' o st).

(** ** Invariants of the stream *)

Definition is_announcement (o : output) : bool := match o with OToolsChanged => true | _ => false end.
Definition announcements (l : list output) : nat := length (filter (λ o, is_announcement o = true) l).

Arguments announcements : simpl never.

Lemma announcements_snoc l o : announcements (l ++ [o]) = announcements l + (if is_announcement o then 1 else 0).
Proof. unfold announcements. rewrite filter_app, length_app. cbn. destruct (is_announcement o) eqn:E; cbn; case_decide; done. Qed.

(** The backends and ids of the events passed on. *)
Definition passed (l : list output) : list (string * string) :=
  omap (λ o, match o with OPassed ev _ => Some (ev_backend ev, ev_id ev) | _ => None end) l.

(** The events written to the client, as they were received, and the one in work. *)
Definition passedEvents (l : list output) : list event := omap (λ o, match o with OPassed ev _ => Some ev | _ => None end) l.
Definition inWork (ph : phase) : list event := match ph with Busy (WEvent ev) => [ev] | _ => [] end.

(** What is written for an event: the same event with its requests rewritten, under an
    id that stands for all events recorded so far, itself included. *)
Definition wireForm (s : session) (before : list output) (ev w : event) : Prop :=
  (∃ r, good r ∧ lastEventID r (recordEvents (passed before ++ [(ev_backend ev, ev_id ev)]) s) = Ok (ev_id w)) ∧
  ev_event w = ev_event ev ∧ ev_backend w = ev_backend ev ∧ ev_messages w = modifyMessage (ev_backend ev) <$> ev_messages ev.

Definition stream_inv (sig : multiWatcherSignaler) (s : session) (st : stream) : Prop :=
  (let n := sg_notify (sm_signaler st) in
   let due := sg_notify sig + announcements (sm_written st) in
   match sm_phase st with
   | Waiting ch => due ≤ ch ≤ n
   | Busy WToolsChanged => S due ≤ n
   | _ => due ≤ n
   end) ∧
  sm_session st = recordEvents (passed (sm_written st)) s ∧
  (∀ pre ev w post, sm_written st = pre ++ OPassed ev w :: post → wireForm s pre ev w) ∧
  sm_sent st = passedEvents (sm_written st) ++ inWork (sm_phase st) ++ sm_channel st ∧
  (sm_open st = false → sm_sending st = false ∧ sm_channel st = []).

Lemma passEvent_inv r s ev s' written :
  passEvent r s ev = (s', Ok written) →
  s' = session_setLastEventID (ev_backend ev) (ev_id ev) s ∧ lastEventID r s' = Ok (ev_id written) ∧
  ev_event written = ev_event ev ∧ ev_backend written = ev_backend ev ∧ ev_messages written = modifyMessage (ev_backend ev) <$> ev_messages ev.
Proof.
  unfold passEvent, stamp. intros [= <- H]. apply obind_ok_inv in H as (ev1 & (id & Hid & [= <-])%obind_ok_inv & [= <-]). done.
Qed.

Lemma perform_inv r s w s' o :
  perform r s w = Ok (s', o) →
  match w with
  | WPing => s' = s ∧ o = OPing
  | WToolsChanged => s' = s ∧ o = OToolsChanged
  | WEvent ev => ∃ written, o = OPassed ev written ∧ passEvent r s ev = (s', Ok written)
  end.
Proof.
  unfold perform. destruct w as [| |ev]; [by intros [= <- <-]..|]. destruct (passEvent r s ev) as [s1 [written| |]]; [|done..].
  intros [= <- <-]. eauto.
Qed.

Lemma snoc_inv {A} (l : list A) x pre y post :
  l ++ [x] = pre ++ y :: post → (∃ post', l = pre ++ y :: post' ∧ post = post' ++ [x]) ∨ (l = pre ∧ x = y ∧ post = []).
Proof.
  destruct post as [|z post _] using rev_ind.
  - intros [-> [= ->]]%app_inj_tail. by right.
  - rewrite app_comm_cons, app_assoc. intros [-> [= ->]]%app_inj_tail. left. by exists post.
Qed.

Lemma stream_inv_start sig s : stream_inv sig s (startStream sig s).
Proof.
  unfold stream_inv. cbn [startStream sm_signaler sm_phase sm_session sm_written sm_sent sm_channel sm_open].
  change (announcements [OPing]) with 0. unfold Watch.
  split_and!; [lia..|done| |done|done]. intros pre ev w post H. by destruct pre as [|? []].
Qed.

(** The announcements, by the phase. *)
Lemma announced_step sig st st' :
  stream_step st st' →
  let due st := sg_notify sig + announcements (sm_written st) in
  let ok st := match sm_phase st with
               | Waiting ch => due st ≤ ch ≤ sg_notify (sm_signaler st)
               | Busy WToolsChanged => S (due st) ≤ sg_notify (sm_signaler st)
               | _ => due st ≤ sg_notify (sm_signaler st)
               end in
  ok st → ok st'.
Proof.
  cbv zeta. intros Hstep Hn.
  destruct Hstep as [st|st ev Hs Hl|st Hs|st ch ev rest Hp Ho Hc|st ch Hp Ho Hs Hc|st ch Hp Hc|st ch Hp|st ch Hp|st w r s' o Hp Hg Ho];
    rewrite ?Hp in Hn; cbn [signalled enqueued readersEnded received disabled set_phase worked sm_signaler sm_phase sm_written sg_notify Signal] in *;
    unfold Watch; try lia; try done.
  - revert Hn. destruct (sm_phase st) as [|[]|]; cbn; lia.
  - unfold closed in Hc. apply Nat.ltb_lt in Hc. lia.
  - rewrite announcements_snoc. apply perform_inv in Ho. destruct w as [| |ev]; [destruct Ho as [-> ->]..|destruct Ho as (written & -> & _)]; cbn; lia.
Qed.

(** A piece of work writes what it was given. *)
Lemma worked_step s st w r s' o :
  sm_phase st = Busy w → good r → perform r (sm_session st) w = Ok (s', o) →
  sm_session st = recordEvents (passed (sm_written st)) s →
  s' = recordEvents (passed (sm_written st ++ [o])) s ∧ passedEvents [o] = inWork (sm_phase st) ∧
  ∀ ev w', o = OPassed ev w' → wireForm s (sm_written st) ev w'.
Proof.
  intros Hp Hg Ho%perform_inv Hs. assert (passed (sm_written st ++ [o]) = passed (sm_written st) ++ passed [o]) as -> by apply omap_app.
  rewrite Hp. destruct w as [| |ev].
  - destruct Ho as [-> ->]. cbn. rewrite app_nil_r. split; [done|]. split; [done|]. by intros.
  - destruct Ho as [-> ->]. cbn. rewrite app_nil_r. split; [done|]. split; [done|]. by intros.
  - destruct Ho as (written & -> & (-> & Hid & He & Hb & Hm)%passEvent_inv). split_and!; [|done|].
    + unfold recordEvents. rewrite foldl_app. cbn. by rewrite Hs.
    + intros ev' w' [= <- <-]. split; [|done]. exists r. split; [done|]. unfold recordEvents. rewrite foldl_app. cbn.
      unfold recordEvents in Hs. by rewrite <-Hs.
Qed.

Lemma stream_inv_step sig s st st' : stream_step st st' → stream_inv sig s st → stream_inv sig s st'.
Proof.
  intros Hstep (Hn & Hs & Hw & Hq & Hc). split; [by eapply announced_step|].
  destruct Hstep as [st|st ev Hsend Hl|st Hsend|st ch ev rest Hp Ho Hch|st ch Hp Ho Hsend Hch|st ch Hp Hcl|st ch Hp|st ch Hp|st w r s' o Hp Hg Ho];
    cbn [signalled enqueued readersEnded received disabled set_phase worked sm_phase sm_session sm_written sm_sent sm_channel sm_open sm_sending inWork].
  - done.
  - split; [done|]. split; [done|]. split; [by rewrite Hq, <-!app_assoc|]. intros Hopen. by rewrite Hsend in Hc; destruct (Hc Hopen).
  - split; [done|]. split; [done|]. split; [done|]. intros Hopen. by destruct (Hc Hopen).
  - split; [done|]. split; [done|]. rewrite Hp, Hch in Hq. split; [done|]. intros Hopen. congruence.
  - split; [done|]. split; [done|]. rewrite Hp in Hq. by split.
  - rewrite Hp in Hq. by split_and!.
  - rewrite Hp in Hq. by split_and!.
  - rewrite Hp in Hq. by split_and!.
  - destruct (worked_step s _ _ _ _ _ Hp Hg Ho Hs) as (Hs' & Hpe & Hwire). split; [done|]. split; [|split; [|done]].
    + intros pre ev w0 post [(post' & E & _)|(<- & -> & ->)]%snoc_inv; [by eapply Hw|by apply Hwire].
    + unfold passedEvents in *. rewrite omap_app, Hpe, Hq. by rewrite <-app_assoc.
Qed.

Lemma stream_inv_reachable sig s st : rtc stream_step (startStream sig s) st → stream_inv sig s st.
Proof. intros H. eapply (rtc_ind_r (stream_inv sig s)); eauto using stream_inv_start, stream_inv_step. Qed.

(** C27: the stream is faithful.  However it interleaves with the backends' readers,
    reloads, heartbeats and the end of the backends' streams, the events that were sent
    into the channel are, in the order in which they were sent, the events that were
    written to the client, then at most the one in work, then those still in the
    channel: none is lost, doubled or moved before another.  What is written for an
    event is that event, with its messages, only the requests among them rewritten, under an id
    that stands for the events recorded so far.  And every announcement of changed
    tools stands for a change of its own. *)
Theorem stream_faithful sig s st :
  rtc stream_step (startStream sig s) st →
  sm_sent st = passedEvents (sm_written st) ++ inWork (sm_phase st) ++ sm_channel st ∧
  (∀ pre ev w post, sm_written st = pre ++ OPassed ev w :: post → wireForm s pre ev w) ∧
  sg_notify sig + announcements (sm_written st) ≤ sg_notify (sm_signaler st).
Proof.
  intros (Hn & _ & Hw & Hq & _)%stream_inv_reachable. split; [done|]. split; [done|].
  cbn zeta in Hn. revert Hn. destruct (sm_phase st) as [|[]|]; lia.
Qed.

(** A change of the tools can be missed: for every stream there is a run in
    which the tools change after it started, and it comes back to waiting, on a
    channel that is not closed, with nothing announced.  The loop asks for the
    channel anew at each turn, so a change during a turn is forgotten. *)
Theorem change_can_be_missed sig s r :
  good r →
  ∃ st ch, rtc stream_step (startStream sig s) st ∧ sg_notify sig < sg_notify (sm_signaler st) ∧
    sm_phase st = Waiting ch ∧ closed (sm_signaler st) ch = false ∧ announcements (sm_written st) = 0.
Proof.
  intros Hg. do 2 eexists. split.
  { eapply rtc_l; [by eapply (step_beat (startStream sig s))|].
    eapply rtc_l; [apply step_signal|]. eapply rtc_l; [|reflexivity].
    eapply (step_work _ WPing r s OPing); [reflexivity|done|reflexivity]. }
  split_and!; [cbn; lia|reflexivity| |reflexivity].
  unfold closed, Watch. apply Nat.ltb_irrefl.
Qed.
End Stream.

(** ** Resumption *)

Section Resume.
Context `{J : !McpIds.JsonRpc} `{CR : !Crypto} `{CL : !CryptoLaws CR} `{L : !AuthzLib} `{CE : !AuthzCel} `{RX : !Regexps}.
Context (corruptInput : string → error).

(** C28: a stream resumes where it stopped.  Let a client open the stream of a session
    it resumed, with or without the id of an earlier event, and in any run of that
    stream receive an event whose id could be sealed.  When it reconnects with its
    session id and the id of that event, and the proxy still reads the session id as
    before and the event id with a current or fallback key, the session that is restored
    has exactly the entries it had then: for every backend the id of the last event
    that was passed on from it, or of the earlier event it had resumed from. *)
Theorem stream_resumes (m m' : mcpRequestContext) order id lastEvent route subject s sig st pre ev w post :
  RangeOrder order → RangeOrder (rc_rangeEvents m') →
  sessionFromID corruptInput m id lastEvent route subject = Ok s →
  rtc (stream_step fills (λ rand, session_lastEventID order rand (rc_sessionCrypto m))) (startStream sig s) st →
  sm_written st = pre ++ OPassed ev w :: post → ev_id w ≠ "" →
  Decrypt corruptInput (rc_sessionCrypto m') id = Decrypt corruptInput (rc_sessionCrypto m) id →
  accepts corruptInput (rc_sessionCrypto m') (rc_sessionCrypto m) (ev_id w) →
  ∃ s', sessionFromID corruptInput m' id (ev_id w) route subject = Ok s' ∧
    ss_perBackendSessions s' = ss_perBackendSessions (recordEvents (passed pre ++ [(ev_backend ev, ev_id ev)]) s).
Proof.
  intros Ho Hro Hs (_ & _ & Hw & _)%stream_inv_reachable Hl Hne Hid Ha.
  destruct (Hw _ _ _ _ Hl) as ((rand & Hg & Hev) & _). by eapply later_event_resumes.
Qed.
End Resume.

(** ** Concrete runs *)

Module Sample.
Import Toy McpAuthz.Sample McpSession.Sample.

#[local] Instance plain : McpIds.JsonRpc := { ID := rawValue; MakeID v := Ok v; Raw id := id }.

Definition response (id : rawValue) (result : string) : mcpMessage :=
  MResponse {| rsp_ID := id; rsp_Error := None; rsp_Result := Some result |}.
Definition from (backend id : string) (msgs : list mcpMessage) : sseEvent mcpMessage :=
  {| ev_event := "message"; ev_id := id; ev_messages := msgs; ev_backend := backend |}.
Definition ask (id : rawValue) : mcpMessage := MRequest {| sv_ID := (id : @ID plain); sv_Method := "roots/list"; sv_Params := None |}.
Definition decode (raw : string) : option (listResult string) :=
  Some {| lr_items := [raw]; lr_cache := {| ch_TTLMs := 0; ch_CacheScope := "" |} |}.
Definition join (s : session) (l : list (broadCastResponse string)) : outcome string :=
  Ok (sconcat (flat_map (λ r, lr_items (bc_res r)) l)).
#[local] Instance raw_eq : EqDecision (@ID plain).
Proof. unfold ID, plain. solve_decision. Defined.

(** github asks something before it answers; jira answers at once. *)
Lemma listing_answered_once_witness :
  ∃ fwd, aggregateResponses (λ _, Ok "n") (RInt 7 : @ID plain) decode sess join "u"
           [from "github" "1" [ask (RInt 3)]; from "jira" "1" [response (RInt 7) "b"]; from "github" "2" [response (RInt 7) "a"]] =
    Ok (fwd ++ [{| ev_event := "message"; ev_id := "u"; ev_messages := [response (RInt 7) "ba"]; ev_backend := "" |}], None) ∧
    length fwd = 1.
Proof.
  destruct (listing_answered_once (λ _, Ok "n") (RInt 7 : @ID plain) decode sess join "u"
     [from "github" "1" [ask (RInt 3)]; from "jira" "1" [response (RInt 7) "b"]; from "github" "2" [response (RInt 7) "a"]]
     ([from "github" "n" [ask (RString "3__i__github")]] ++
      [{| ev_event := "message"; ev_id := "u"; ev_messages := [response (RInt 7) "ba"]; ev_backend := "" |}]) None)
    as (s' & encoded & fwd & Hm & Hout & _).
  - vm_compute. reflexivity.
  - repeat constructor.
  - exists fwd. apply app_inj_tail in Hout as [<- _]. split; vm_compute; reflexivity.
Defined.

Definition lastID := λ rand, session_lastEventID map_to_list rand old.
Definition stampedOn (s : session) (ev : sseEvent mcpMessage) : sseEvent mcpMessage :=
  match passEvent lastID rand s ev with (_, Ok w) => w | _ => ev end.

(** The session as it is resumed without an event id, and with the id of an event. *)
Definition resumedFrom (lastEvent : string) : session :=
  match sessionFromID err (ctx old) (ss_id sess) lastEvent "tools" "ann@example.com" with Ok s => s | _ => sess end.
Definition ev1 : sseEvent mcpMessage := from "github" "7" [].
Definition firstID : string := ev_id (stampedOn (resumedFrom "") ev1).
Definition resumed : session := resumedFrom firstID.

Lemma resumed_ok : sessionFromID err (ctx old) (ss_id sess) firstID "tools" "ann@example.com" = Ok resumed.
Proof. vm_compute. reflexivity. Qed.

(** A stream on the session resumed from the first event: another event arrives. *)
Definition ev2 : sseEvent mcpMessage := from "github" "8" [ask (RInt 3)].
Definition started : stream := startStream newMultiWatcherSignaler resumed.
Definition stamped : sseEvent mcpMessage := stampedOn resumed ev2.

Lemma one_event :
  ∃ st, rtc (stream_step fills lastID) started st ∧ sm_written st = [OPing] ++ OPassed ev2 stamped :: [] ∧ sm_sent st = [ev2].
Proof.
  eexists. split.
  - eapply rtc_l; [apply (step_send _ _ started ev2); [reflexivity|cbn; unfold backendMsgsCapacity; lia]|].
    eapply rtc_l; [by eapply (step_event _ _ _ _ ev2 [])|]. eapply rtc_l; [|reflexivity].
    eapply (step_work _ _ _ (WEvent ev2) rand _ (OPassed ev2 stamped)); [reflexivity|exact McpCrypto.Sample.rand_fills|].
    vm_compute. reflexivity.
  - split; reflexivity.
Qed.

Lemma stream_faithful_witness :
  ∃ st, rtc (stream_step fills lastID) started st ∧ sm_sent st = [ev2] ∧ passedEvents (sm_written st) = [ev2] ∧
    ev_messages stamped = [ask (RString "3__i__github")] ∧ ev_backend stamped = "github".
Proof.
  destruct one_event as (st & Hst & Hw & Hsent). exists st.
  destruct (stream_faithful fills lastID newMultiWatcherSignaler resumed st Hst) as (Hq & H & _).
  destruct (H _ _ _ _ Hw) as (_ & _ & Hb & Hm). split_and!; [exact Hst|exact Hsent|by rewrite Hw|rewrite Hm; vm_compute; reflexivity|exact Hb].
Defined.

Lemma change_can_be_missed_witness :
  ∃ st ch, rtc (stream_step fills lastID) started st ∧ sm_phase st = Waiting ch ∧ closed (sm_signaler st) ch = false.
Proof.
  destruct (change_can_be_missed fills lastID newMultiWatcherSignaler resumed rand McpCrypto.Sample.rand_fills)
    as (st & ch & H1 & _ & H2 & H3 & _). exists st, ch. auto.
Defined.

Lemma stream_resumes_witness :
  ∃ s', sessionFromID err (ctx rotated) (ss_id sess) (ev_id stamped) "tools" "ann@example.com" = Ok s' ∧
    ce_lastEventID <$> ss_perBackendSessions resumed !! "github" = Some "7" ∧
    ce_lastEventID <$> ss_perBackendSessions s' !! "github" = Some "8".
Proof.
  destruct one_event as (st & Hst & Hw & _).
  destruct (stream_resumes err (ctx old) (ctx rotated) map_to_list (ss_id sess) firstID "tools" "ann@example.com" resumed newMultiWatcherSignaler st
     [OPing] ev2 stamped []) as (s' & H & He).
  - apply _.
  - apply _.
  - exact resumed_ok.
  - exact Hst.
  - exact Hw.
  - vm_compute. discriminate.
  - vm_compute. reflexivity.
  - right. eexists McpCrypto.Sample.new, _. split_and!; [reflexivity..|]. vm_compute. reflexivity.
  - exists s'. split; [exact H|]. split; [vm_compute; reflexivity|]. rewrite He. vm_compute. reflexivity.
Defined.
End Sample.
