(* ===== verification/McpPost.v ===== *)
(** * The MCP endpoint

    Models the HTTP side of the legacy path of the MCP proxy: what
    [servePOST]/[serveLegacyPOST], [serveGET] and [serverDELETE] of
    [internal/mcpproxy] do with a request, which backends it reaches, the headers
    of the requests to the backends, the types of the errors and the metrics that
    are recorded at the end.  A request body arrives decoded; the exchange with a
    backend is an argument. *)

From Stdlib Require Import Ascii ZArith Lia.
From stdpp Require Import base gmap strings list.
From S2P Require Import Prelude GoStrings InternalApi GoHttp McpAuthz Crypto McpCrypto McpConfig McpController McpSession McpRouting GoCodec McpIds McpEra.

(** ** The type of an error *)

Definition MCPErrorUnsupportedResponse : string := "unsupported_response".
Definition MCPErrorInvalidSessionID : string := "invalid_session_id".

Definition CodeParseError : Z := -32700.
Definition CodeInvalidRequest : Z := -32600.
Definition CodeMethodNotFound : Z := -32601.
Definition CodeInvalidParams : Z := -32602.

(** The errors of a handler: one of the proxy, a JSON-RPC error of a backend, a
    failed tool call, or several joined. *)
Inductive mcpError :=
| EPlain (e : error)
| ERpc (code : Z) (message : string)
| ETool (validationError : bool) (e : error)
| EJoined (errs : list mcpError).

(** [errors.As] for a JSON-RPC error: the first in the tree. *)
Fixpoint asRpc (e : mcpError) : option Z :=
  match e with
  | ERpc code _ => Some code
  | EJoined errs => (fix go l := match l with
                                 | [] => None
                                 | e :: l => match asRpc e with Some c => Some c | None => go l end
                                 end) errs
  | _ => None
  end.

(** [errors.As] for a tool call error. *)
Fixpoint asTool (e : mcpError) : option bool :=
  match e with
  | ETool v _ => Some v
  | EJoined errs => (fix go l := match l with
                                 | [] => None
                                 | e :: l => match asTool e with Some v => Some v | None => go l end
                                 end) errs
  | _ => None
  end.

(** [errors.Is]. *)
Fixpoint isErr (e : mcpError) (s : sentinel) : bool :=
  match e with
  | EPlain e | ETool _ e => errors_Is e s
  | ERpc _ _ => false
  | EJoined errs => (fix go l := match l with [] => false | e :: l => isErr e s || go l end) errs
  end.

Definition rpcErrorType (code : Z) : string :=
  if bool_decide (code = CodeInvalidParams) then MCPErrorInvalidParam
  else if bool_decide (code = CodeMethodNotFound) then MCPErrorUnsupportedMethod
  else if bool_decide (code = CodeInvalidRequest) || bool_decide (code = CodeParseError) then MCPErrorInvalidJSONRPC
  else MCPErrorInternal.

Definition clientErrors : list sentinel := [ErrBackendNotFound; ErrSessionNotFound; ErrInvalidToolName; ErrInvalidPromptName].

Fixpoint errorTypeOf (err : mcpError) : string :=
  match asRpc err with
  | Some code => rpcErrorType code
  | None =>
      if existsb (isErr err) clientErrors then MCPErrorInvalidParam
      else if bool_decide (asTool err = Some true) then MCPErrorInvalidParam
      else
        match err with
        | EJoined errs =>
            (fix go l := match l with
                         | [] => MCPErrorInternal
                         | e :: l =>
                             let errType := errorTypeOf e in
                             if bool_decide (errType ≠ "") && bool_decide (errType ≠ MCPErrorInternal) then errType else go l
                         end) errs
        | _ => MCPErrorInternal
        end
  end.

(** [None] is a nil error. *)
Definition errorType (err : option mcpError) : string := from_option errorTypeOf "" err.

(** ** What is recorded *)

(** [metrics.MCPStatusType] and what [recordPOSTCompletion] does with it. *)
Inductive metric :=
| RecordMethodCount
| RecordMethodErrorCount (status : string)
| RecordRequestDuration
| RecordRequestErrorDuration (errType : string).

Record postCompletion := {
  pc_errType : string;
  pc_err : option mcpError;
  pc_perBackendMetricsRecorded : bool;
}.

Definition recordPOSTCompletion (c : postCompletion) : list metric :=
  if pc_perBackendMetricsRecorded c then []
  else
    match pc_err c with
    | Some err =>
        [RecordMethodErrorCount (if asTool err is Some _ then "failed" else "error"); RecordRequestErrorDuration (pc_errType c)]
    | None => [RecordRequestDuration; RecordMethodCount]
    end.

(** ** The headers of a request to a backend *)

Section Headers.
Definition MCPBackendHeader : string := EnvoyAIGatewayHeaderPrefix +:+ "mcp-backend".
Definition MCPSubjectHeader : string := EnvoyAIGatewayHeaderPrefix +:+ "mcp-subject".
Definition MCPMetadataHeaderPrefix : string := "x-ai-eg-mcp-metadata-".
Definition MCPMetadataHeaderRequestID : string := MCPMetadataHeaderPrefix +:+ "request-id".
Definition MCPMetadataHeaderMethod : string := MCPMetadataHeaderPrefix +:+ "method".
Definition MCPMetadataHeaderToolName : string := MCPMetadataHeaderPrefix +:+ "tool-name".
Definition MCPMetadataHeaderResourceURI : string := MCPMetadataHeaderPrefix +:+ "resource-uri".
Definition lastEventIDHeader : string := "Last-Event-Id".

Definition maxMCPMetadataHeaderValueLen : nat := 1024.

(** [httpguts.ValidHeaderFieldValue]. *)
Context (ValidHeaderFieldValue : string → bool).

Definition setMCPMetadataHeader (key value : string) (h : http_Header) : http_Header :=
  if (maxMCPMetadataHeaderValueLen <? String.length value) || negb (ValidHeaderFieldValue value) then h
  else Header_Set key value h.

(** The message: its printed id and method, for a request, and the tool name or
    the resource URI of its parameters. *)
Record outbound := {
  ob_request : option (string * string);
  ob_toolName : option string;
  ob_resourceURI : option string;
}.

Definition addMCPHeaders (msg : outbound) (routeName backendName : string) (h : http_Header) : http_Header :=
  let h := Header_Set MCPRouteHeader routeName (Header_Set MCPBackendHeader backendName h) in
  match ob_request msg with
  | None => h
  | Some (id, method) =>
      let h := setMCPMetadataHeader MCPMetadataHeaderMethod method (setMCPMetadataHeader MCPMetadataHeaderRequestID id h) in
      match ob_toolName msg, ob_resourceURI msg with
      | Some name, _ => setMCPMetadataHeader MCPMetadataHeaderToolName name h
      | None, Some uri => setMCPMetadataHeader MCPMetadataHeaderResourceURI uri h
      | None, None => h
      end
  end.

Definition setHeaderIfMissing (key value : string) (h : http_Header) : http_Header :=
  if bool_decide (Header_Get h key ≠ "") then h else Header_Set key value h.

Definition EnvoyOriginalPathHeader : string := "x-envoy-original-path".

Definition applyOriginalPathHeaders (originalPath : string) (h : http_Header) : http_Header :=
  setHeaderIfMissing EnvoyOriginalPathHeader originalPath (setHeaderIfMissing OriginalPathHeader originalPath h).

(** [metaValue] is the value of [_meta] under a name, in any case; [attributes]
    are the configured header names, in the order of the map. *)
Definition applyLogHeaderMappings (attributes : list string) (metaValue : string → string) (requestHeaders : http_Header)
    (h : http_Header) : http_Header :=
  foldl (λ h header,
    if bool_decide (metaValue header ≠ "") then Header_Set header (metaValue header) h
    else if bool_decide (Header_Get requestHeaders header ≠ "") then Header_Set header (Header_Get requestHeaders header) h
    else h) h attributes.

(** [for _, header := range headers]: the client's value, when there is one. *)
Definition forwardAll (requestHeaders : http_Header) (fwd : list (string * string)) (h : http_Header) : http_Header :=
  foldl (λ h p, if bool_decide (Header_Get requestHeaders p.1 ≠ "") then Header_Set p.2 (Header_Get requestHeaders p.1) h else h) h fwd.

Context `{L : !AuthzLib} `{CE : !AuthzCel} `{RX : !Regexps}.

(** The headers that the configuration forwards to a backend, as source and
    destination. *)
Definition configuredForwards (routeConfig : option mcpProxyConfigRoute) (backendName : string) : list (string * string) :=
  match routeConfig with
  | None => []
  | Some rc =>
      ((λ h, (h, h)) <$> rt_forwardHeaders rc) ++
      match rt_backends rc !! backendName with
      | Some b => (λ fh, (hf_Name fh, ForwardName fh)) <$> mb_ForwardHeaders b
      | None => []
      end
  end.

(** The headers of [invokeJSONRPCRequest]. *)
Definition invokeHeaders (attributes : list string) (metaValue : string → string) (requestHeaders : http_Header)
    (originalPath : string) (routeConfig : option mcpProxyConfigRoute) (routeName backendName : string)
    (cse : option compositeSessionEntry) (msg : outbound) : http_Header :=
  let h := addMCPHeaders msg routeName backendName ∅ in
  let h := applyLogHeaderMappings attributes metaValue requestHeaders h in
  let h := applyOriginalPathHeaders originalPath h in
  let h := match cse with
           | None => h
           | Some e =>
               let h := if bool_decide (ce_sessionID e ≠ "") then Header_Set sessionIDHeader (ce_sessionID e) h else h in
               if bool_decide (ce_lastEventID e ≠ "") then Header_Set lastEventIDHeader (ce_lastEventID e) h else h
           end in
  let h := Header_Set "Accept" "application/json, text/event-stream" (Header_Set "Content-Type" "application/json" h) in
  forwardAll requestHeaders (configuredForwards routeConfig backendName) h.
End Headers.

(** ** The endpoint *)

(** The methods that are broadcast. *)
Inductive listing := ListTools | ListPrompts | ListResources | ListTemplates | SetLevel | RootsChanged.

Section Post.
Context `{J : !McpIds.JsonRpc} `{CR : !Crypto} `{L : !AuthzLib} `{CE : !AuthzCel} `{RX : !Regexps}.
Context (corruptInput parseIntErr hexErr base64Err : string → error).

(** What the code reads of the parameters of a request. *)
Record callParams := {
  cp_decodes : bool;
  cp_name : string;
  cp_uri : string;
  cp_ref : CompleteReference;
  cp_token : rawValue;
  cp_params : Params;
}.

Record clientRequest := {
  cq_Method : string;
  cq_params : callParams;
}.

Inductive clientMessage :=
| CResponse (id : ID)
| CRequest (r : clientRequest)
| COther.

(** What the proxy does with a message. *)
Inductive postAction :=
| Reply (status : Z) (body : string)
| ToBackend (r : routed)
| ResponseToBackend (d : delivery ID)
| ProgressToBackend (d : delivery rawValue)
| Fanout (kind : listing) (backends : list string)
| Initialized (backends : list string) (o : outcome session).

(** The action, and the error and its type that are set when the proxy itself
    answers; [perBackend] is [perBackendMetricsRecorded]. *)
Record postResult := {
  pr_action : postAction;
  pr_errType : string;
  pr_err : option error;
  pr_perBackend : bool;
}.

Definition extractRoute (h : http_Header) : string := Header_Get h MCPRouteHeader.
Definition extractSubject (h : http_Header) : string := TrimSpace (Header_Get h MCPSubjectHeader).

Definition sessionErrorStatus (err : error) : Z := if errors_Is err ErrSessionSubjectMismatch then 401 else 400.

Definition pingPrefix : string := "aigw-server-to-client-ping".
Definition toolsChangedPrefix : string := "aigw-server-to-client-tools-changed".

Definition doNotForwardResponseToBackends (id : ID) : bool :=
  match Raw id with RString s => HasPrefix s pingPrefix || HasPrefix s toolsChangedPrefix | _ => false end.

(** The filter of a broadcast on the capabilities of a backend. *)
Definition wants (kind : listing) (cse : compositeSessionEntry) : bool :=
  match kind, ce_capabilities cse with
  | RootsChanged, _ => true
  | _, None => false
  | ListTools, Some c => if sc_Tools c is Some _ then true else false
  | ListPrompts, Some c => if sc_Prompts c is Some _ then true else false
  | (ListResources | ListTemplates), Some c => if sc_Resources c is Some _ then true else false
  | SetLevel, Some c => sc_Logging c
  end.

(** [sendToBackendsFiltered]: the backends that pass the filter and that the
    route still has. *)
Definition fanout (m : mcpRequestContext) (s : session) (kind : listing) : list string :=
  omap (λ p, if wants kind p.2 then
               match getBackendForRoute m (ss_route s) p.1 with Ok b => Some (mb_Name b) | _ => None end
             else None) (map_to_list (ss_perBackendSessions s)).

Definition answer (status : Z) (body errType : string) (err : option error) : postResult :=
  {| pr_action := Reply status body; pr_errType := errType; pr_err := err; pr_perBackend := false |}.

Definition missingSession : postResult :=
  answer 400 "missing session ID" MCPErrorInvalidSessionID (Some (errors_New "missing session ID")).

Definition invalidParams (body : string) : postResult :=
  answer 400 body MCPErrorInvalidParam (Some (errors_New "invalid params")).

(** A handler ran: its error and type come from the exchange. *)
Definition handled (a : postAction) (perBackend : bool) : postResult :=
  {| pr_action := a; pr_errType := ""; pr_err := None; pr_perBackend := perBackend |}.

(** The [switch] on the method, for a request with a session; [r] is the HTTP request. *)
Definition dispatch (m : mcpRequestContext) (s : session) (typeName : rawValue → string) (msg : clientRequest) (r : httpRequest) :
    postResult :=
  let p := cq_params msg in
  let method := cq_Method msg in
  let guarded (res : postResult) := if cp_decodes p then res else invalidParams "invalid params" in
  if bool_decide (method = "notifications/roots/list_changed") then guarded (handled (Fanout RootsChanged (fanout m s RootsChanged)) false)
  else if bool_decide (method = "completion/complete") then guarded (handled (ToBackend (handleCompletionComplete m s (cp_ref p))) false)
  else if bool_decide (method = "notifications/progress") then
    guarded (handled (ProgressToBackend
      (handleClientToServerNotificationsProgress parseIntErr hexErr base64Err m s typeName (cp_token p))) false)
  else if bool_decide (method = "notifications/initialized") then handled (Reply 202 "") true
  else if bool_decide (method = "logging/setLevel") then
    if cp_decodes p then handled (Fanout SetLevel (fanout m s SetLevel)) true else invalidParams "invalid set logging level params"
  else if bool_decide (method = "ping") then handled (Reply 200 "{}") false
  else if bool_decide (method = "prompts/list") then guarded (handled (Fanout ListPrompts (fanout m s ListPrompts)) true)
  else if bool_decide (method = "prompts/get") then guarded (handled (ToBackend (handlePromptGetRequest m s (cp_name p))) false)
  else if bool_decide (method = "tools/call") then
    guarded (handled (ToBackend (handleToolCallRequest m s method (cp_name p) (cp_params p) r)) false)
  else if bool_decide (method = "tools/list") then guarded (handled (Fanout ListTools (fanout m s ListTools)) true)
  else if bool_decide (method = "resources/list") then guarded (handled (Fanout ListResources (fanout m s ListResources)) true)
  else if bool_decide (method = "resources/read") then guarded (handled (ToBackend (handleResourceReadRequest m s (cp_uri p))) false)
  else if bool_decide (method = "resources/templates/list") then guarded (handled (Fanout ListTemplates (fanout m s ListTemplates)) true)
  else if bool_decide (method = "resources/subscribe") then
    guarded (handled (ToBackend (handleResourcesSubscriptionRequest m s (cp_uri p))) false)
  else if bool_decide (method = "resources/unsubscribe") then
    guarded (handled (ToBackend (handleResourcesSubscriptionRequest m s (cp_uri p))) false)
  else if bool_decide (method = "notifications/cancelled") then handled (Reply 202 "") false
  else answer 400 ("unsupported method: " +:+ method) MCPErrorUnsupportedMethod (Some (errors_New ("unsupported method: " +:+ method))).

(** The [initialize] case. *)
Definition initialize (m : mcpRequestContext) (p : callParams) (headers : http_Header) : postResult :=
  if negb (cp_decodes p) then invalidParams "invalid initialize params"
  else
    let route := extractRoute headers in
    if bool_decide (route = "") then answer 500 "missing route header" MCPErrorInternal None
    else handled (Initialized (initializedBackends m route) (newSession m route (extractSubject headers))) true.

(** The response of [handleInitializeRequest]. *)
Definition initializeStatus (o : outcome session) : Z * string :=
  match o with
  | Ok _ => (200%Z, "")
  | Fail err => if errors_Is err ErrNoMatchingBackendSelector then (403%Z, "access denied")
                else (500%Z, "failed to create new session: " +:+ err_msg err)
  | Panic msg => (500%Z, msg)
  end.

Definition serveLegacyPOST (m : mcpRequestContext) (shown : ID → string) (typeName : rawValue → string) (r : httpRequest)
    (msg : clientMessage) : postResult :=
  let headers := hr_Header r in
  let sessionID := Header_Get headers sessionIDHeader in
  let found : outcome (option session) :=
    if bool_decide (sessionID = "") then Ok None
    else let! s := sessionFromID corruptInput m sessionID (Header_Get headers lastEventIDHeader)
                     (extractRoute headers) (extractSubject headers) in Ok (Some s) in
  match found with
  | Fail err => answer (sessionErrorStatus err) ("invalid session ID: " +:+ err_msg err) MCPErrorInvalidSessionID (Some err)
  | Panic p => answer 500 p MCPErrorInternal (Some (errors_New p))
  | Ok s =>
      match msg with
      | CResponse id =>
          match s with
          | None => missingSession
          | Some s =>
              if doNotForwardResponseToBackends id then handled (Reply 202 "") false
              else handled (ResponseToBackend (handleClientToServerResponse parseIntErr hexErr base64Err m s shown id)) false
          end
      | CRequest req =>
          if bool_decide (cq_Method req = "initialize") then initialize m (cq_params req) headers
          else
            match s with
            | None => missingSession
            | Some s => dispatch m s typeName req r
            end
      | COther => answer 400 "unsupported JSON-RPC message type" MCPErrorUnsupportedResponse
                    (Some (errors_New "unsupported JSON-RPC message type"))
      end
  end.

Definition defaultMaxRequestBodySize : Z := 4 * 1024 * 1024.

(** [servePOST]: the body as it arrives, with the error at its end if that is not
    the end of the body; [decode] is [jsonrpc.DecodeMessage].  [tooLarge] is the
    error of [http.MaxBytesReader]. *)
Definition servePOST (m : mcpRequestContext) (shown : ID → string) (typeName : rawValue → string)
    (decode : string → outcome clientMessage) (tooLarge : error) (maxRequestBodySize : Z)
    (r : httpRequest) (data : string) (end_ : option error) : postResult :=
  let limit := if (maxRequestBodySize <=? 0)%Z then defaultMaxRequestBodySize else maxRequestBodySize in
  if (limit <? Z.of_nat (String.length data))%Z then answer 413 "request body too large" MCPErrorInternal (Some tooLarge)
  else
    match end_ with
    | Some err => answer 400 (err_msg err) MCPErrorInternal (Some err)
    | None =>
        match decode data with
        | Fail err => answer 400 ("invalid JSON-RPC message: " +:+ err_msg err) MCPErrorInvalidJSONRPC (Some err)
        | Panic p => answer 500 p MCPErrorInternal (Some (errors_New p))
        | Ok msg => serveLegacyPOST m shown typeName r msg
        end
    end.

(** [serveGET] and [serverDELETE]: the error response, or the session whose
    notifications are streamed or that is closed. *)
Definition withSession (m : mcpRequestContext) (headers : http_Header) (lastEventID : string) : (Z * string) + session :=
  let sessionID := Header_Get headers sessionIDHeader in
  if bool_decide (sessionID = "") then inl (400%Z, "missing session ID")
  else
    match sessionFromID corruptInput m sessionID lastEventID (extractRoute headers) (extractSubject headers) with
    | Ok s => inr s
    | Fail err => inl (sessionErrorStatus err, "invalid session ID: " +:+ err_msg err)
    | Panic p => inl (500%Z, p)
    end.

Definition serveGET (m : mcpRequestContext) (headers : http_Header) : (Z * string) + session :=
  withSession m headers (Header_Get headers lastEventIDHeader).

Definition serverDELETE (m : mcpRequestContext) (headers : http_Header) : (Z * string) + session := withSession m headers "".

(** [session.Close]: the DELETE requests that are sent, as backend and session id. *)
Definition Close (s : session) : list (string * string) :=
  omap (λ p, if bool_decide (ce_sessionID p.2 = "") then None else Some (p.1, ce_sessionID p.2))
    (map_to_list (ss_perBackendSessions s)).
End Post.

(** ** Who reaches a backend *)

Section Mediation.
Context `{J : !McpIds.JsonRpc} `{CR : !Crypto} `{CL : !CryptoLaws CR} `{L : !AuthzLib} `{CE : !AuthzCel} `{RX : !Regexps}.
Context (corruptInput parseIntErr hexErr base64Err : string → error).

Definition routed_to (r : routed) : list string := match r with Forwarded b _ _ => [mb_Name b] | Rejected _ _ _ _ => [] end.
Definition delivered_to {A} (d : delivery A) : list string := match d with Delivered b _ _ => [mb_Name b] | Refused _ _ _ => [] end.

(** The backends a message is sent to. *)
Definition contacted (a : postAction) : list string :=
  match a with
  | Reply _ _ => []
  | Initialized backends _ => backends
  | ToBackend r => routed_to r
  | ResponseToBackend d => delivered_to d
  | ProgressToBackend d => delivered_to d
  | Fanout _ backends => backends
  end.

(** Backends are kept under their names. *)
Definition keyed (m : mcpRequestContext) : Prop :=
  map_Forall (λ _ rc, map_Forall (λ k b, mb_Name b = k) (rt_backends rc)) (rc_routes m).

(** The session has the backend, and so has its route. *)
Definition belongs (m : mcpRequestContext) (s : session) (b : string) : Prop :=
  is_Some (ss_perBackendSessions s !! b) ∧ ∃ rc, rc_routes m !! ss_route s = Some rc ∧ is_Some (rt_backends rc !! b).

Lemma getBackend_belongs m s key b :
  keyed m → getBackendForRoute m (ss_route s) key = Ok b →
  mb_Name b = key ∧ ∃ rc, rc_routes m !! ss_route s = Some rc ∧ is_Some (rt_backends rc !! key).
Proof.
  intros Hk (rc & Hr & Hb)%getBackendForRoute_ok. split; [by eapply (Hk _ _ Hr)|]. exists rc. split; [done|]. by eexists.
Qed.

Lemma toBackend_belongs m s key name detail guard b :
  keyed m → (∀ r, guard = Some r → routed_to r = []) →
  b ∈ routed_to (toBackend m s key name detail guard) → belongs m s b.
Proof.
  intros Hk Hg. unfold toBackend, getCompositeSessionEntry.
  destruct (getBackendForRoute m (ss_route s) key) as [backend| |] eqn:Eb; [|by intros ?%elem_of_nil..].
  destruct (getBackend_belongs _ _ _ _ Hk Eb) as [Hn Hrc].
  destruct guard as [r|]; [rewrite (Hg r) by done; by intros ?%elem_of_nil|].
  destruct (ss_perBackendSessions s !! key) eqn:Ec; [|by intros ?%elem_of_nil].
  cbn. rewrite Hn. intros ->%list_elem_of_singleton. split; [by eexists|done].
Qed.

Lemma single_belongs m s r b :
  keyed m →
  (∃ method name params h, r = handleToolCallRequest m s method name params h) ∨ (∃ name, r = handlePromptGetRequest m s name) ∨
  (∃ uri, r = handleResourceReadRequest m s uri) ∨ (∃ uri, r = handleResourcesSubscriptionRequest m s uri) ∨
  (∃ ref, r = handleCompletionComplete m s ref) →
  b ∈ routed_to r → belongs m s b.
Proof.
  intros Hk [(method & name & params & h & ->)|[(name & ->)|[(uri & ->)|[(uri & ->)|(ref & ->)]]]].
  - destruct (handleToolCallRequest _ _ _ _ _ _) as [|backend cse tool] eqn:E; [by intros ?%elem_of_nil|].
    apply tool_call_forwarded in E as (rc & Hrc & key & _ & Hb & _ & Hc).
    cbn. rewrite (Hk _ _ Hrc _ _ Hb). intros ->%list_elem_of_singleton. split; [by eexists|]. eauto.
  - unfold handlePromptGetRequest. destruct (resolvePromptBackend _ _ _) as [[key prompt]| |]; [|by intros ?%elem_of_nil..].
    apply toBackend_belongs; [done|]. destruct (negb _); by intros r [= <-].
  - unfold handleResourceReadRequest. destruct (upstreamResourceURI uri) as [[key res]| |]; [|by intros ?%elem_of_nil..].
    by apply toBackend_belongs.
  - unfold handleResourcesSubscriptionRequest. destruct (upstreamResourceURI uri) as [[key res]| |]; [|by intros ?%elem_of_nil..].
    by apply toBackend_belongs.
  - unfold handleCompletionComplete, getCompositeSessionEntry. destruct (resolveReference _ _ _) as [ref' [key| |]]; [|by intros ?%elem_of_nil..].
    destruct (getBackendForRoute m (ss_route s) key) as [backend| |] eqn:Eb; [|by intros ?%elem_of_nil..].
    destruct (getBackend_belongs _ _ _ _ Hk Eb) as [Hn Hrc]. destruct (_ && _); [by intros ?%elem_of_nil|].
    rewrite Hn. destruct (ss_perBackendSessions s !! key) eqn:Ec; [|by intros ?%elem_of_nil].
    cbn. rewrite Hn. intros ->%list_elem_of_singleton. split; [by eexists|done].
Qed.

Lemma fanout_belongs m s kind b : keyed m → b ∈ fanout m s kind → belongs m s b.
Proof.
  intros Hk ([key cse] & Hin & H)%list_elem_of_omap. cbn in H. destruct (wants kind cse); [|done].
  destruct (getBackendForRoute m (ss_route s) key) as [backend| |] eqn:Eb; [|done..]. injection H as <-.
  apply elem_of_map_to_list in Hin. destruct (getBackend_belongs _ _ _ _ Hk Eb) as [-> Hrc]. split; [by eexists|done].
Qed.

Lemma response_belongs m s shown id b :
  keyed m → b ∈ delivered_to (handleClientToServerResponse parseIntErr hexErr base64Err m s shown id) → belongs m s b.
Proof.
  intros Hk. unfold handleClientToServerResponse, getCompositeSessionEntry. destruct (Raw id); try by intros ?%elem_of_nil.
  destruct (SplitStr _ _) as [|raw [|tag [|key []]]]; try by intros ?%elem_of_nil.
  destruct (restoreID _ _ _ _ _) as [[id'| |]|[]]; try by intros ?%elem_of_nil.
  destruct (getBackendForRoute m (ss_route s) key) as [backend| |] eqn:Eb; [|by intros ?%elem_of_nil..].
  destruct (getBackend_belongs _ _ _ _ Hk Eb) as [Hn Hrc].
  destruct (ss_perBackendSessions s !! key) eqn:Ec; [|by intros ?%elem_of_nil].
  cbn. rewrite Hn. intros ->%list_elem_of_singleton. split; [by eexists|done].
Qed.

Lemma progress_belongs m s typeName v b :
  keyed m → b ∈ delivered_to (handleClientToServerNotificationsProgress parseIntErr hexErr base64Err m s typeName v) → belongs m s b.
Proof.
  intros Hk. unfold handleClientToServerNotificationsProgress, getCompositeSessionEntry. destruct v; try by intros ?%elem_of_nil.
  destruct (SplitStr _ _) as [|raw [|tag [|key []]]]; try by intros ?%elem_of_nil.
  destruct (restoreToken _ _ _ _ _ _) as [v|[]]; try by intros ?%elem_of_nil.
  destruct (getBackendForRoute m (ss_route s) key) as [backend| |] eqn:Eb; [|by intros ?%elem_of_nil..].
  destruct (getBackend_belongs _ _ _ _ Hk Eb) as [Hn Hrc]. rewrite Hn.
  destruct (ss_perBackendSessions s !! key) eqn:Ec; [|by intros ?%elem_of_nil].
  cbn. rewrite Hn. intros ->%list_elem_of_singleton. split; [by eexists|done].
Qed.

Lemma dispatch_belongs m s typeName req r b :
  keyed m → b ∈ contacted (pr_action (dispatch parseIntErr hexErr base64Err m s typeName req r)) → belongs m s b.
Proof.
  intros Hk. pose proof (λ r b, single_belongs m s r b Hk) as Hsingle. unfold dispatch.
  repeat (case_bool_decide; [try destruct (cp_decodes (cq_params req)); cbn [pr_action contacted handled answer invalidParams];
    first [by intros ?%elem_of_nil | by apply fanout_belongs | by apply progress_belongs | apply Hsingle; eauto 10]|]).
  by intros ?%elem_of_nil.
Qed.

(** An initialize request reaches the backends the selector of the route allows. *)
Definition initializes (m : mcpRequestContext) (headers : http_Header) (msg : clientMessage) (b : string) : Prop :=
  (∃ req, msg = CRequest req ∧ cq_Method req = "initialize") ∧
  ∃ route, rc_routes m !! extractRoute headers = Some route ∧ is_Some (rt_backends route !! b) ∧ backendAllowed m route b = true.

(** A message is sent under the session of its header, sealed for its route and subject. *)
Definition underSession (m : mcpRequestContext) (headers : http_Header) (b : string) : Prop :=
  let id := Header_Get headers sessionIDHeader in
  ∃ s, sessionFromID corruptInput m id (Header_Get headers lastEventIDHeader) (extractRoute headers) (extractSubject headers) = Ok s ∧
    belongs m s b ∧ ss_route s = extractRoute headers ∧
    ∃ p backends, p ∈ keys_of (rc_sessionCrypto m) ∧
      sealed_under p id (extractRoute headers +:+ "@" +:+ extractSubject headers +:+ "@" +:+ backends).

Lemma initialize_contacts m p headers b :
  RangeOrder (rc_rangeBackends m) → keyed m → b ∈ contacted (pr_action (initialize m p headers)) →
  ∃ route, rc_routes m !! extractRoute headers = Some route ∧ is_Some (rt_backends route !! b) ∧ backendAllowed m route b = true.
Proof.
  intros Ho Hk. unfold initialize. destruct (negb _); [by intros ?%elem_of_nil|]. case_bool_decide; [by intros ?%elem_of_nil|]. cbn.
  unfold initializedBackends. destruct (rc_routes m !! extractRoute headers) as [route|] eqn:Er; [|by intros ?%elem_of_nil].
  pose proof (selectAuthorizedBackends_cases m (extractRoute headers) route Ho) as Hs.
  destruct (selectAuthorizedBackends _ _ _) as [sel| |]; [|by intros ?%elem_of_nil|done].
  intros ([name backend] & -> & Hin)%list_elem_of_fmap. apply (elem_of_range (rc_rangeBackends m)), Hs in Hin as [Hb Ha]. cbn.
  rewrite (Hk _ _ Er _ _ Hb). exists route. split; [done|]. split; [by eexists|done].
Qed.

Lemma legacy_mediated m shown typeName r msg b :
  RangeOrder (rc_rangeBackends m) → keyed m →
  b ∈ contacted (pr_action (serveLegacyPOST corruptInput parseIntErr hexErr base64Err m shown typeName r msg)) →
  initializes m (hr_Header r) msg b ∨ underSession m (hr_Header r) b.
Proof using CL.
  intros Ho Hk. unfold serveLegacyPOST.
  set (found := if bool_decide _ then _ else _). destruct found as [s|err|p] eqn:Ef; [|by intros ?%elem_of_nil..]. unfold found in Ef.
  assert (∀ s', s = Some s' → b ∈ contacted (pr_action match msg with
    | CResponse id => if doNotForwardResponseToBackends id then handled (Reply 202 "") false
                      else handled (ResponseToBackend (handleClientToServerResponse parseIntErr hexErr base64Err m s' shown id)) false
    | CRequest req => dispatch parseIntErr hexErr base64Err m s' typeName req r
    | COther => missingSession
    end) → underSession m (hr_Header r) b) as Hunder.
  { intros s' -> Hb. revert Ef. case_bool_decide; [done|]. intros (s'' & Hs & [= ->])%obind_ok_inv. exists s'. split; [done|]. split.
    - revert Hb. destruct msg as [id|req|]; [|by apply dispatch_belongs|by intros ?%elem_of_nil].
      destruct (doNotForwardResponseToBackends id); [by intros ?%elem_of_nil|]. by apply response_belongs.
    - apply sessionFromID_sealed in Hs as (_ & Hr & p & backends & _ & Hp & Hsealed & _). eauto 10. }
  destruct msg as [id|req|]; [| |by intros ?%elem_of_nil].
  - destruct s as [s|]; [|by intros ?%elem_of_nil]. intros Hb. right. by eapply Hunder.
  - destruct (bool_decide (cq_Method req = "initialize")) eqn:Hinit; [apply bool_decide_eq_true in Hinit|].
    + intros Hb. left. split; [by exists req|]. by eapply initialize_contacts.
    + destruct s as [s|]; [|by intros ?%elem_of_nil]. intros Hb. right. by eapply Hunder.
Qed.

(** C20: complete mediation of the endpoint.  A posted body reaches a backend only if it
    was read to its end within the limit and is a JSON-RPC message, and then in one of
    two ways.  An initialize request, which needs no session, reaches backends of the
    route it came through that the selector of the route allows for it.  Any other
    message goes only to a backend that its session was opened to and that the route
    still has, under a session id that was sealed with a key of the proxy for that
    route and for the authenticated subject of the request. *)
Theorem backend_reached_under_own_session m shown typeName decode tooLarge limit r data end_ b :
  RangeOrder (rc_rangeBackends m) → keyed m →
  b ∈ contacted (pr_action (servePOST corruptInput parseIntErr hexErr base64Err m shown typeName decode tooLarge limit r data end_)) →
  end_ = None ∧ (Z.of_nat (String.length data) ≤ if limit <=? 0 then defaultMaxRequestBodySize else limit)%Z ∧
  ∃ msg, decode data = Ok msg ∧ (initializes m (hr_Header r) msg b ∨ underSession m (hr_Header r) b).
Proof using CL.
  intros Ho Hk. unfold servePOST.
  destruct (_ <? _)%Z eqn:El; [by intros ?%elem_of_nil|]. destruct end_ as [e|]; [by intros ?%elem_of_nil|].
  destruct (decode data) as [msg| |]; [|by intros ?%elem_of_nil..]. intros Hb. split; [done|]. split.
  - by apply Z.ltb_ge in El.
  - apply legacy_mediated in Hb; [|done..]. by exists msg.
Qed.

(** Another subject, or none, is refused with 401 before any handler runs. *)
Lemma other_subject_unauthorized m shown typeName r msg :
  sessionFromID corruptInput m (Header_Get (hr_Header r) sessionIDHeader) (Header_Get (hr_Header r) lastEventIDHeader)
    (extractRoute (hr_Header r)) (extractSubject (hr_Header r)) = Fail errSessionSubjectMismatch →
  Header_Get (hr_Header r) sessionIDHeader ≠ "" →
  pr_action (serveLegacyPOST corruptInput parseIntErr hexErr base64Err m shown typeName r msg) =
    Reply 401 ("invalid session ID: " +:+ err_msg errSessionSubjectMismatch).
Proof. intros Hs Hne. unfold serveLegacyPOST. rewrite bool_decide_false by done. by rewrite Hs. Qed.

(** A route header that is missing is answered with an error and recorded as a success. *)
Lemma missing_route_recorded_as_success m p headers :
  cp_decodes p = true → extractRoute headers = "" →
  let r := initialize m p headers in
  pr_action r = Reply 500 "missing route header" ∧
  recordPOSTCompletion {| pc_errType := pr_errType r; pc_err := EPlain <$> pr_err r;
                          pc_perBackendMetricsRecorded := pr_perBackend r |} = [RecordRequestDuration; RecordMethodCount].
Proof. intros Hp Hr. unfold initialize. by rewrite Hp, Hr. Qed.
End Mediation.

(** ** What a backend is told *)

Section Forwarding.
Context `{L : !AuthzLib} `{CE : !AuthzCel} `{RX : !Regexps} (ValidHeaderFieldValue : string → bool).

(** The headers the proxy itself sets. *)
Definition proxyHeaders : list string :=
  [MCPBackendHeader; MCPRouteHeader; MCPMetadataHeaderRequestID; MCPMetadataHeaderMethod; MCPMetadataHeaderToolName;
   MCPMetadataHeaderResourceURI; OriginalPathHeader; EnvoyOriginalPathHeader; sessionIDHeader; lastEventIDHeader;
   "Content-Type"; "Accept"].

(** Only the keys of a list are set. *)
Definition sets_only (keys : list string) (f : http_Header → http_Header) : Prop :=
  ∀ h k, k ∉ CanonicalHeaderKey <$> keys → f h !! k = h !! k.

Lemma Header_Set_only key v keys : key ∈ keys → sets_only keys (Header_Set key v).
Proof.
  intros Hin h k Hk. unfold Header_Set. apply lookup_insert_ne. intros <-. apply Hk. by apply list_elem_of_fmap_2.
Qed.

Lemma sets_only_compose keys f g : sets_only keys f → sets_only keys g → sets_only keys (λ h, f (g h)).
Proof. intros Hf Hg h k Hk. by rewrite Hf, Hg. Qed.

Lemma sets_only_id keys : sets_only keys (λ h, h).
Proof. by intros h k Hk. Qed.

Lemma sets_only_if keys (b : http_Header → bool) f g :
  sets_only keys f → sets_only keys g → sets_only keys (λ h, if b h then f h else g h).
Proof. intros Hf Hg h k Hk. destruct (b h); [by apply Hf|by apply Hg]. Qed.

Lemma sets_only_foldl {B} keys (f : http_Header → B → http_Header) l :
  (∀ x, x ∈ l → sets_only keys (λ h, f h x)) → sets_only keys (λ h, foldl f h l).
Proof.
  intros Hf. induction l as [|x l IH] using rev_ind; [apply sets_only_id|]. intros h k Hk. rewrite foldl_app. cbn.
  rewrite (Hf x); [apply IH; [|done]|apply elem_of_app; right; by left|done]. intros y Hy. apply Hf, elem_of_app. by left.
Qed.

Lemma sets_only_mono keys keys' f : keys ⊆ keys' → sets_only keys f → sets_only keys' f.
Proof. intros Hs Hf h k Hk. apply Hf. intros (x & -> & Hx)%list_elem_of_fmap. apply Hk, list_elem_of_fmap_2. by apply Hs. Qed.

Local Ltac member := apply (bool_decide_unpack _); vm_compute; exact I.

Lemma lookup_Header_Set (keys : list string) key v (h : http_Header) k :
  key ∈ keys → k ∉ CanonicalHeaderKey <$> keys → Header_Set key v h !! k = h !! k.
Proof. intros Hin Hk. by apply (Header_Set_only key v keys). Qed.

Lemma lookup_metadata key v (h : http_Header) k :
  key ∈ proxyHeaders → k ∉ CanonicalHeaderKey <$> proxyHeaders →
  setMCPMetadataHeader ValidHeaderFieldValue key v h !! k = h !! k.
Proof. intros Hin Hk. unfold setMCPMetadataHeader. destruct (_ || _); [done|]. by apply (lookup_Header_Set proxyHeaders). Qed.

Lemma addMCPHeaders_only msg route b : sets_only proxyHeaders (addMCPHeaders ValidHeaderFieldValue msg route b).
Proof.
  intros h k Hk. unfold addMCPHeaders. destruct (ob_request msg) as [[id method]|]; [destruct (ob_toolName msg), (ob_resourceURI msg)|].
  all: rewrite ?lookup_metadata by (exact Hk || member); by rewrite !(lookup_Header_Set proxyHeaders) by (exact Hk || member).
Qed.

Lemma forwardAll_only reqHeaders fwd : sets_only fwd.*2 (forwardAll reqHeaders fwd).
Proof.
  apply sets_only_foldl. intros p Hp. apply sets_only_if; [|apply sets_only_id].
  apply Header_Set_only. by apply list_elem_of_fmap_2.
Qed.

Lemma applyLogHeaderMappings_only attributes metaValue reqHeaders :
  sets_only attributes (applyLogHeaderMappings attributes metaValue reqHeaders).
Proof.
  apply sets_only_foldl. intros key Hk. apply sets_only_if; [by apply Header_Set_only|].
  apply sets_only_if; [by apply Header_Set_only|apply sets_only_id].
Qed.

(** The last forward with a destination decides. *)
Lemma forwardAll_get reqHeaders fwd h p :
  p ∈ fwd → Header_Get reqHeaders p.1 ≠ "" →
  (∀ q, q ∈ fwd → CanonicalHeaderKey q.2 = CanonicalHeaderKey p.2 → q = p) →
  Header_Get (forwardAll reqHeaders fwd h) p.2 = Header_Get reqHeaders p.1.
Proof.
  intros Hp Hne. revert h. induction fwd as [|q fwd IH] using rev_ind; intros h Huniq; [by apply elem_of_nil in Hp|].
  unfold forwardAll. rewrite foldl_app. cbn.
  destruct (decide (CanonicalHeaderKey q.2 = CanonicalHeaderKey p.2)) as [Heq|Hneq].
  - assert (q = p) as -> by (apply Huniq; [|done]; apply elem_of_app; right; by left).
    rewrite bool_decide_true by done. apply Header_Get_Set.
  - assert (p ∈ fwd) as Hp' by (apply elem_of_app in Hp as [?|Heq%list_elem_of_singleton]; [done|subst; done]).
    assert (Header_Get (forwardAll reqHeaders fwd h) p.2 = Header_Get reqHeaders p.1) as HIH.
    { apply IH; [done|]. intros q' Hq'. apply Huniq, elem_of_app. by left. }
    case_bool_decide; [|done]. by rewrite Header_Get_Set_ne.
Qed.

(** A backend is told what is configured for it and nothing else: the headers
    of a request to a backend are those of the proxy, the configured log
    attributes and the forwards of the route and of this backend; so a header
    that is forwarded to another backend only does not reach it.  Each forward of
    its own that the client sent arrives with the client's value. *)
Theorem backend_headers_configured attributes metaValue reqHeaders path routeConfig route b cse msg :
  let out := invokeHeaders ValidHeaderFieldValue attributes metaValue reqHeaders path routeConfig route b cse msg in
  let fwd := configuredForwards routeConfig b in
  (∀ k, k ∉ CanonicalHeaderKey <$> proxyHeaders ++ attributes ++ fwd.*2 → out !! k = None) ∧
  (∀ p, p ∈ fwd → Header_Get reqHeaders p.1 ≠ "" →
     (∀ q, q ∈ fwd → CanonicalHeaderKey q.2 = CanonicalHeaderKey p.2 → q = p) →
     Header_Get out p.2 = Header_Get reqHeaders p.1).
Proof.
  cbn zeta. split; [|intros; by apply forwardAll_get].
  intros k Hk. set (keys := proxyHeaders ++ attributes ++ (configuredForwards routeConfig b).*2) in *.
  assert (proxyHeaders ⊆ keys) as Hp by (intros x Hx; apply elem_of_app; by left).
  assert (∀ key v (h : http_Header), key ∈ proxyHeaders → Header_Set key v h !! k = h !! k) as Hset.
  { intros key v h Hin. apply (lookup_Header_Set keys); [by apply Hp|done]. }
  unfold invokeHeaders. cbn zeta.
  rewrite (sets_only_mono _ keys _ ltac:(intros x Hx; apply elem_of_app; right; apply elem_of_app; by right) (forwardAll_only _ _) _ _ Hk).
  rewrite !Hset by member.
  transitivity (applyOriginalPathHeaders path (applyLogHeaderMappings attributes metaValue reqHeaders
     (addMCPHeaders ValidHeaderFieldValue msg route b ∅)) !! k).
  { destruct cse as [e|]; [|done]. do 2 case_bool_decide; by rewrite ?Hset by member. }
  unfold applyOriginalPathHeaders, setHeaderIfMissing. do 2 case_bool_decide; rewrite ?Hset by member.
  all: rewrite (sets_only_mono _ keys _ ltac:(intros x Hx; apply elem_of_app; right; apply elem_of_app; by left)
    (applyLogHeaderMappings_only _ _ _) _ _ Hk).
  all: by rewrite (sets_only_mono _ keys _ Hp (addMCPHeaders_only _ _ _) _ _ Hk).
Qed.
End Forwarding.

(** ** Concrete requests *)

Module Sample.
Import Toy McpAuthz.Sample McpSession.Sample.

#[local] Instance plain : McpIds.JsonRpc := { ID := rawValue; MakeID v := Ok v; Raw id := id }.

Definition params (name : string) : callParams :=
  {| cp_decodes := true; cp_name := name; cp_uri := ""; cp_ref := {| cr_Type := ""; cr_Name := ""; cr_URI := "" |};
     cp_token := RNil; cp_params := ("" : Params) |}.
Definition call (name : string) : clientMessage := CRequest {| cq_Method := "tools/call"; cq_params := params name |}.
Definition headers (subject : string) : http_Header :=
  Header_Set sessionIDHeader (ss_id sess) (Header_Set MCPRouteHeader "tools" (Header_Set MCPSubjectHeader subject ∅)).
Definition http (subject : string) : httpRequest :=
  {| hr_Header := headers subject; hr_Method := "POST"; hr_Host := ""; hr_Path := "/mcp" |}.
Definition serve (subject name : string) : postResult :=
  servePOST err err err err (ctx rotated) (λ _, "") (λ _, "") (λ name, Ok (call name)) (errors_New "too large") 64
    (http subject) name None.

(** The owner's call reaches github; the same session id of another subject is refused. *)
Lemma backend_reached_under_own_session_witness :
  pr_action (serve "bob@example.com" "github__issue") = Reply 401 ("invalid session ID: " +:+ err_msg errSessionSubjectMismatch) ∧
  ∃ s, sessionFromID err (ctx rotated) (ss_id sess) "" "tools" "ann@example.com" = Ok s ∧ belongs (ctx rotated) s "github".
Proof.
  split; [vm_compute; reflexivity|].
  destruct (backend_reached_under_own_session err err err err (ctx rotated) (λ _, "") (λ _, "") (λ name, Ok (call name))
    (errors_New "too large") 64 (http "ann@example.com") "github__issue" None "github") as (_ & _ & msg & Hd & [Hi|(s & Hs & Hb & _)]).
  - exact _.
  - apply (bool_decide_unpack _). vm_compute. exact I.
  - vm_compute. left.
  - injection Hd as <-. destruct Hi as [(req & [= <-] & Hm) _]. discriminate Hm.
  - exists s. split; [exact Hs|exact Hb].
Defined.

(** The token of the client goes to github under the configured name, and not to slack. *)
Lemma backend_headers_configured_witness :
  let out b := invokeHeaders (λ _, true) [] (λ _, "") (Header_Set "x-token" "t" ∅) "/mcp" (Some route) "tools" b None
                 {| ob_request := None; ob_toolName := None; ob_resourceURI := None |} in
  Header_Get (out "github") "authorization" = "t" ∧ out "slack" !! "Authorization" = None.
Proof.
  intros out. split.
  - destruct (backend_headers_configured (λ _, true) [] (λ _, "") (Header_Set "x-token" "t" ∅) "/mcp" (Some route) "tools" "github" None
      {| ob_request := None; ob_toolName := None; ob_resourceURI := None |}) as [_ H].
    apply (H ("x-token", "authorization")).
    + apply (bool_decide_unpack _). vm_compute. exact I.
    + vm_compute. discriminate.
    + intros q Hq. vm_compute in Hq. by repeat (apply elem_of_cons in Hq as [->|Hq]; [vm_compute; congruence|]); apply elem_of_nil in Hq.
  - destruct (backend_headers_configured (λ _, true) [] (λ _, "") (Header_Set "x-token" "t" ∅) "/mcp" (Some route) "tools" "slack" None
      {| ob_request := None; ob_toolName := None; ob_resourceURI := None |}) as [H _].
    apply H. apply (bool_decide_unpack _). vm_compute. exact I.
Defined.
End Sample.
