(* ===== verification/McpAnswer.v ===== *)
(** * The answer of one backend

    Models how the MCP proxy passes on the HTTP response of the backend that
    answers a routed request: [proxyResponseBody], [maybeResponseModify],
    [checkToolCallError] of [internal/mcpproxy/legacy.go].  The body arrives as the
    reads of a stream, in JSON or as server-sent events.  The JSON forms of the
    results are a class; logging, metrics and spans are left out. *)

From Stdlib Require Import Ascii ZArith Lia.
From stdpp Require Import base gmap strings list.
From S2P Require Import Prelude GoStrings GoHttp McpAuthz Crypto McpCrypto McpConfig McpController McpSession McpRouting McpSse GoCodec McpIds McpStream McpPost.

(** ** The results the proxy looks into *)

(** The URIs of the contents of [resources/read] and the caching hint; the rest
    of the result passes. *)
Record ReadResourceResult := { rr_URIs : list string; rr_CacheScope : string; rr_rest : string }.

(** [json.Unmarshal] and [json.Marshal] of the two results and of the content
    of a tool result. *)
Class ResultJson := {
  unmarshalRead : string → outcome ReadResourceResult;
  marshalRead : ReadResourceResult → string;
  unmarshalToolResult : string → outcome CallToolResult;
  marshalToolResult : CallToolResult → string;
  marshalContent : content → option string;
}.

(** [errToolCall]. *)
Record errToolCall := {
  tc_toolName : string;
  tc_backend : string;
  tc_validationError : bool;
  tc_err : error;
}.

Definition errToolCall_Error (e : errToolCall) : string :=
  "tool call failed: tool=" +:+ tc_toolName e +:+ ", backend=" +:+ tc_backend e +:+ ": " +:+ err_msg (tc_err e).

(** As an error of the proxy: [Unwrap] gives the chain. *)
Definition toolError (e : errToolCall) : mcpError := ETool (tc_validationError e) (Err (errToolCall_Error e) (err_chain (tc_err e))).

Section Answer.
Context `{J : !McpIds.JsonRpc} `{JR : !McpSse.JsonRpc mcpMessage} `{RJ : !ResultJson}.

(** The client's request: its id, its method, and the name in its parameters
    when there are parameters that decode. *)
Record proxiedRequest := {
  px_ID : ID;
  px_Method : string;
  px_toolName : option string;
}.

(** One turn of the loop over the content: the message so far, whether it is the
    first, and whether a validation error was seen. *)
Definition describeContent (acc : string * bool * bool) (c : content) : string * bool * bool :=
  let '(msg, first, validation) := acc in
  let msg := if first then msg else msg +:+ "; " in
  match c with
  | TextContent text => (msg +:+ text, false, validation || ContainsStr text "validating")
  | ImageContent mime => (msg +:+ "[image: " +:+ mime +:+ "]", false, validation)
  | _ => (msg +:+ default "" (marshalContent c), false, validation)
  end.

Definition checkToolCallError (req : option proxiedRequest) (msg : serverResponse) (backendName : string) : option errToolCall :=
  match req, rsp_Result msg with
  | Some req, Some raw =>
      if bool_decide (px_Method req ≠ "tools/call") then None
      else
        match unmarshalToolResult raw with
        | Ok toolResult =>
            if negb (ctr_IsError toolResult) then None
            else
              let start := "tool returned isError=true" in
              let '(errMsg, _, validationError) :=
                match ctr_Content toolResult with
                | [] => (start, true, false)
                | contents => foldl describeContent (start +:+ ": ", true, false) contents
                end in
              Some {| tc_toolName := default "" (px_toolName req); tc_backend := backendName;
                      tc_validationError := validationError; tc_err := errors_New errMsg |}
        | _ => None
        end
  | _, _ => None
  end.

Definition with_result (msg : serverResponse) (raw : string) : serverResponse :=
  {| rsp_ID := rsp_ID msg; rsp_Error := rsp_Error msg; rsp_Result := Some raw |}.

Definition maybeResponseModify (req : proxiedRequest) (msg : serverResponse) (backend : string) : outcome serverResponse :=
  match rsp_Result msg with
  | None => Ok msg
  | Some raw =>
      if bool_decide (px_Method req = "resources/read") then
        let! result := owrap "failed to unmarshal resources/read result: " (unmarshalRead raw) in
        Ok (with_result msg (marshalRead
          {| rr_URIs := (λ uri, downstreamResourceURI uri backend) <$> rr_URIs result;
             rr_CacheScope := if bool_decide (rr_CacheScope result = "") then "private" else rr_CacheScope result;
             rr_rest := rr_rest result |}))
      else if bool_decide (px_Method req = "tools/call") then
        match unmarshalToolResult raw with
        | Ok result =>
            let '(result, changed) := rewriteToolResultURIs result backend in
            Ok (if changed then with_result msg (marshalToolResult result) else msg)
        | Fail _ => Ok msg
        | Panic p => Panic p
        end
      else Ok msg
  end.

(** The response under the client's id, and the error it stands for. *)
Definition setID (msg : serverResponse) (id : ID) : serverResponse :=
  {| rsp_ID := id; rsp_Error := rsp_Error msg; rsp_Result := rsp_Result msg |}.

Definition responseError (req : proxiedRequest) (msg : serverResponse) (backend : string) : option mcpError :=
  match rsp_Error msg with
  | Some (code, text) => Some (ERpc code text)
  | None => toolError <$> checkToolCallError (Some req) msg backend
  end.

(** The body of the loop over the messages of an event.  The rewriting stores its
    error in the variable that holds the error of [parser.next]: [err] before the
    message and after it.  On an error the message stays as far as it was changed. *)
Definition proxyMessage (req : option proxiedRequest) (backend : string) (err : option error) (m : mcpMessage) :
    outcome (mcpMessage * option error * option mcpError) :=
  match m with
  | MRequest r =>
      match maybeServerToClientRequestModify r backend with
      | (r, Ok _) => Ok (MRequest r, None, None)
      | (r, Fail e) => Ok (MRequest r, Some e, None)
      | (_, Panic p) => Panic p
      end
  | MResponse msg =>
      match req with
      | None => Ok (m, err, None)
      | Some q =>
          match maybeResponseModify q msg backend with
          | Ok msg => let msg := setID msg (px_ID q) in Ok (MResponse msg, None, responseError q msg backend)
          | Fail e => Ok (m, Some e, None)
          | Panic p => Panic p
          end
      end
  end.

Fixpoint proxyMessages (req : option proxiedRequest) (backend : string) (err : option error) (msgs : list mcpMessage) :
    outcome (list mcpMessage * option error * list mcpError) :=
  match msgs with
  | [] => Ok ([], err, [])
  | m :: msgs =>
      let! r := proxyMessage req backend err m in
      let! rest := proxyMessages req backend r.1.2 msgs in
      Ok (r.1.1 :: rest.1.1, rest.1.2, option_list r.2 ++ rest.2)
  end.

Notation event := (sseEvent mcpMessage).

(** [lastEventID] is [session.lastEventID] with its order, randomness and crypto. *)
Context (lastEventID : session → outcome string).

(** An event that was read: the session, the event as written, the error
    variable and the errors collected. *)
Definition proxyEvent (req : option proxiedRequest) (backend : string) (s : session) (ev : event) (err : option error) :
    outcome (session * event * option error * list mcpError) :=
  let '(s, stamped) := stamp lastEventID s ev in
  let! ev := stamped in
  let! r := proxyMessages req backend err (ev_messages ev) in
  Ok (s, with_messages ev r.1.1, r.1.2, r.2).

(** The events written, the session at the end and the errors collected. *)
Record relayed := {
  rl_session : session;
  rl_written : list event;
  rl_errors : list mcpError;
}.

Definition relay_cons (ev : event) (errs : list mcpError) (r : relayed) : relayed :=
  {| rl_session := rl_session r; rl_written := ev :: rl_written r; rl_errors := errs ++ rl_errors r |}.

(** The loop on the parser; it ends when the error variable holds an error at
    the end of a turn, whatever the error.  [None] is a loop that has not ended. *)
Fixpoint relay (fuel : nat) (req : option proxiedRequest) (backend : string) (s : session) (p : sseEventParser) :
    option (outcome relayed) :=
  match fuel with
  | 0 => None
  | S fuel =>
      let turn (p : sseEventParser) (ev : event) (err : option error) :=
        match proxyEvent req backend s ev err with
        | Ok (s, ev, err, errs) =>
            match err with
            | Some _ => Some (Ok {| rl_session := s; rl_written := [ev]; rl_errors := errs |})
            | None => (λ o, let! r := o in Ok (relay_cons ev errs r)) <$> relay fuel req backend s p
            end
        | Fail e => Some (Fail e)
        | Panic m => Some (Panic m)
        end in
      match next p with
      | (p, NextEvent ev) => turn p ev None
      | (p, NextErr (Some ev) err) => turn p ev (Some err)
      | (_, NextErr None _) => Some (Ok {| rl_session := s; rl_written := []; rl_errors := [] |})
      | (_, NextPanic m) => Some (Panic m)
      end
  end.

(** The response of the backend: the body is the reads of a stream and the error
    at its end. *)
Record backendResponse := {
  br_StatusCode : Z;
  br_ContentType : string;
  br_reads : list string;
  br_end : error;
}.

(** What the client receives, the session at the end and the error returned. *)
Record clientAnswer := {
  ca_status : Z;
  ca_contentLength : option nat;
  ca_body : string;
  ca_session : session;
  ca_err : option mcpError;
}.

(** [errors.Join]. *)
Definition joined (errs : list mcpError) : option mcpError := match errs with [] => None | _ => Some (EJoined errs) end.

Definition io_EOF : error := errors_Sentinel "EOF" IoEOF.

(** A body that is one message. *)
Definition proxyJSON (req : option proxiedRequest) (backend : string) (body : string) (m : mcpMessage) :
    outcome (string * option mcpError) :=
  match m with
  | MRequest r =>
      match maybeServerToClientRequestModify r backend with
      | (r, Ok _) => Ok (EncodeMessage (MRequest r), None)
      | (_, Fail e) => Fail e
      | (_, Panic p) => Panic p
      end
  | MResponse msg =>
      match req with
      | None => Ok (body, None)
      | Some q =>
          let! msg := maybeResponseModify q msg backend in
          let msg := setID msg (px_ID q) in
          Ok (EncodeMessage (MResponse msg), responseError q msg backend)
      end
  end.

(** [parseMediaType] is [mime.ParseMediaType]. *)
Context (parseMediaType : string → outcome string).

Definition relayStream (resp : backendResponse) (req : option proxiedRequest) (backend : string) (s : session)
    (reads : list string) (end_ : error) : option (outcome clientAnswer) :=
  let p := newSSEEventParser reads end_ backend in
  (λ o, let! r := o in
        Ok {| ca_status := br_StatusCode resp; ca_contentLength := None; ca_body := sconcat (writeEvent <$> rl_written r);
              ca_session := rl_session r; ca_err := joined (rl_errors r) |}) <$> relay (S (S (parser_size p))) req backend s p.

Definition proxyResponseBody (s : session) (resp : backendResponse) (req : option proxiedRequest) (backend : string) :
    option (outcome clientAnswer) :=
  if isJSONContentType parseMediaType (br_ContentType resp) then
    if negb (bool_decide (br_end resp = io_EOF)) then Some (Fail (br_end resp))
    else
      let body := sconcat (br_reads resp) in
      match tryDecodeJSONRPCMessage body with
      | Some m =>
          Some (let! r := proxyJSON req backend body m in
                Ok {| ca_status := br_StatusCode resp; ca_contentLength := Some (String.length r.1); ca_body := r.1;
                      ca_session := s; ca_err := r.2 |})
      | None => relayStream resp req backend s [body] io_EOF
      end
  else relayStream resp req backend s (br_reads resp) (br_end resp).
End Answer.

(** ** The loop ends *)

Section Termination.
Context {Msg : Type} `{JR : !McpSse.JsonRpc Msg}.

(** An event takes its separator from the input. *)
Lemma next_loop_shrinks backend end_ reads buf reads' buf' ev :
  next_loop (JR := JR) backend end_ reads buf = (reads', buf', NextEvent ev) →
  String.length buf' + String.length (sconcat reads') < String.length buf + String.length (sconcat reads).
Proof.
  revert buf. induction reads as [|r reads IH]; intros buf; cbn [next_loop];
    (destruct (cutEvent buf) as [[chunk rest]|] eqn:E;
     [intros [= <- <- _]; apply cutEvent_shrinks in E; lia|]).
  - destruct (_ && _); [destruct (parseEvent _ _)|]; by intros [= _ _ ?].
  - intros H%IH. rewrite sconcat_cons, slength_app. case_bool_decide; [lia|].
    rewrite slength_app in H. pose proof (slength_normalize r). lia.
Qed.

Lemma next_shrinks (p p' : sseEventParser) ev : next (JR := JR) p = (p', NextEvent ev) → parser_size p' < parser_size p.
Proof.
  unfold next, parser_size. destruct (next_loop _ _ _ _) as [[reads buf] r] eqn:E. intros [= <- ->].
  by apply next_loop_shrinks in E.
Qed.

(** After the end there is nothing more. *)
Lemma next_after_end (p p' : sseEventParser) ev err :
  next (JR := JR) p = (p', NextErr (Some ev) err) → next (JR := JR) p' = (p', NextErr None (sp_end p')).
Proof.
  unfold next. destruct (next_loop _ _ _ _) as [[reads buf] r] eqn:E. intros [= <- ->]. cbn.
  assert (reads = [] ∧ buf = "") as [-> ->].
  { revert E. generalize (sp_buf p) as b. induction (sp_reads p) as [|x l IH]; intros b; cbn [next_loop];
      (destruct (cutEvent b) as [[chunk rest]|]; [by destruct (parseEvent _ _); intros [= _ _ ?]|]); [|apply IH].
    destruct (_ && _); [destruct (parseEvent _ _)|]; intros [= <- <- ?]; done. }
  cbn. by rewrite andb_false_r.
Qed.

Lemma drain_go_total fuel (p : sseEventParser) : parser_size p < fuel → ∃ r, drain_go (JR := JR) fuel p = Some r.
Proof.
  revert p. induction fuel as [|fuel IH]; intros p Hf; [lia|]. cbn. destruct (next p) as [p' [ev|ev err|m]] eqn:E; [|eauto..].
  apply next_shrinks in E. destruct (IH p' ltac:(lia)) as [r ->]. cbn. eauto.
Qed.
End Termination.

Section AnswerProps.
Context `{J : !McpIds.JsonRpc} `{JR : !McpSse.JsonRpc mcpMessage} `{RJ : !ResultJson}.
Context (lastEventID : session → outcome string) (parseMediaType : string → outcome string).
Context (req : option proxiedRequest) (backend : string).

Notation event := (sseEvent mcpMessage).

(** What the loop does with the events of a stream: all of them, up to the first
    whose rewriting leaves an error. *)
Fixpoint relayEvents (s : session) (evs : list event) : outcome relayed :=
  match evs with
  | [] => Ok {| rl_session := s; rl_written := []; rl_errors := [] |}
  | ev :: evs =>
      match proxyEvent lastEventID req backend s ev None with
      | Ok (s, ev, Some _, errs) => Ok {| rl_session := s; rl_written := [ev]; rl_errors := errs |}
      | Ok (s, ev, None, errs) => let! r := relayEvents s evs in Ok (relay_cons ev errs r)
      | Fail e => Fail e
      | Panic m => Panic m
      end
  end.

(** The error variable only matters when no message sets it. *)
Lemma proxyMessages_err err msgs :
  proxyMessages req backend (Some err) msgs =
    (let! r := proxyMessages req backend None msgs in
     Ok (r.1.1, (if r.1.2 is Some e then Some e else
                 if forallb (λ m, match m, req with MResponse _, None => true | _, _ => false end) msgs then Some err else None), r.2)).
Proof.
  induction msgs as [|m msgs IH]; [done|]. cbn [proxyMessages forallb].
  destruct m as [r|r]; cbn [proxyMessage].
  - destruct (maybeServerToClientRequestModify r backend) as [r' [u|e|p]]; cbn; [|by destruct (proxyMessages req backend (Some e) msgs) as [[[? []] ?]| |]|done].
    by destruct (proxyMessages req backend None msgs) as [[[? []] ?]| |].
  - destruct req as [q|] eqn:Eq; cbn.
    + destruct (maybeResponseModify q r backend) as [r'|e|p]; cbn; [|by destruct (proxyMessages (Some q) backend (Some e) msgs) as [[[? []] ?]| |]|done].
      by destruct (proxyMessages (Some q) backend None msgs) as [[[? []] ?]| |].
    + rewrite IH. by destruct (proxyMessages None backend None msgs) as [[[? []] ?]| |].
Qed.

Lemma proxyEvent_err s ev err :
  proxyEvent lastEventID req backend s ev (Some err) =
    (let! r := proxyEvent lastEventID req backend s ev None in
     Ok (r.1.1, (if r.1.2 is Some e then Some e else
                 if forallb (λ m, match m, req with MResponse _, None => true | _, _ => false end) (ev_messages ev)
                 then Some err else None), r.2)).
Proof.
  unfold proxyEvent, stamp. destruct (lastEventID _) as [id| |]; [|done..]. cbn [obind].
  rewrite proxyMessages_err. cbn. by destruct (proxyMessages req backend None (ev_messages ev)) as [[[? []] ?]| |].
Qed.

(** The loop of the proxy does what draining the stream first would do. *)
Lemma relay_drain fuel s p evs e :
  drain_go fuel p = Some (evs, Ok e) → relay lastEventID (S fuel) req backend s p = Some (relayEvents s evs).
Proof.
  revert s p evs. induction fuel as [|fuel IH]; intros s p evs H; [done|]. cbn [drain_go] in H.
  remember (S fuel) as n eqn:En. cbn [relay]. destruct (next p) as [p' [ev|[ev|] err|m]] eqn:Enext; [|..|done].
  - destruct (drain_go fuel p') as [[evs' o]|] eqn:Ed; [|done]. cbn in H. injection H as <- ->.
    cbn [relayEvents]. destruct (proxyEvent _ _ _ _ _ _) as [[[[s' ev'] [e'|]] errs]| |]; [done| |done..].
    subst n. by rewrite (IH _ _ _ Ed).
  - injection H as <- <-. cbn [relayEvents option_list]. rewrite proxyEvent_err.
    destruct (proxyEvent _ _ _ _ _ _) as [[[[s' ev'] [e'|]] errs]| |]; [done| |done..]. cbn [obind fst snd].
    unfold relay_cons. cbn. rewrite app_nil_r. destruct (forallb _ _); [done|].
    subst n. cbn [relay]. by rewrite (next_after_end _ _ _ _ Enext); cbn; rewrite app_nil_r.
  - by injection H as <- <-.
Qed.

(** The message can be rewritten. *)
Definition rewritable (m : mcpMessage) : bool :=
  match proxyMessage req backend None m with Ok (_, None, _) => true | _ => false end.

(** How a message is passed on. *)
Definition passed_as (m m' : mcpMessage) : Prop :=
  match m, req with
  | MRequest r, _ => m' = MRequest (maybeServerToClientRequestModify r backend).1
  | MResponse msg, None => m' = m
  | MResponse msg, Some q =>
      ∃ msg', maybeResponseModify q msg backend = Ok msg' ∧ m' = MResponse (setID msg' (px_ID q))
  end.

(** The error a message that was passed on reports. *)
Definition errorOf (m : mcpMessage) : option mcpError :=
  match m, req with MResponse msg, Some q => responseError q msg backend | _, _ => None end.

Definition event_passed_as (ev w : event) : Prop :=
  ev_event w = ev_event ev ∧ ev_backend w = ev_backend ev ∧ Forall2 passed_as (ev_messages ev) (ev_messages w).

Lemma proxyMessage_passed m :
  rewritable m = true → ∃ m', proxyMessage req backend None m = Ok (m', None, errorOf m') ∧ passed_as m m'.
Proof.
  unfold rewritable, errorOf, passed_as. destruct m as [r|r]; cbn.
  - destruct (maybeServerToClientRequestModify r backend) as [r' []]; try done. intros _. by exists (MRequest r').
  - destruct req as [q|]; [|intros _; by exists (MResponse r)].
    destruct (maybeResponseModify q r backend) as [r'| |]; try done. intros _. exists (MResponse (setID r' (px_ID q))). eauto.
Qed.

Lemma proxyMessages_passed msgs :
  Forall (λ m, rewritable m = true) msgs →
  ∃ msgs', proxyMessages req backend None msgs = Ok (msgs', None, omap errorOf msgs') ∧ Forall2 passed_as msgs msgs'.
Proof.
  induction 1 as [|m msgs (m' & Hm & Hp)%proxyMessage_passed _ (msgs' & Hms & Hps)]; [by exists []|].
  exists (m' :: msgs'). cbn [proxyMessages]. rewrite Hm. cbn. rewrite Hms. cbn. split; [|by constructor].
  by destruct (errorOf m').
Qed.

(** The errors of the responses in a list of events. *)
Definition errorsOf (evs : list event) : list mcpError := flat_map (λ ev, omap errorOf (ev_messages ev)) evs.

(** Events of which every message can be rewritten are all passed on. *)
Lemma relayEvents_complete s evs :
  (∀ s, ∃ id, lastEventID s = Ok id) → Forall (λ ev, Forall (λ m, rewritable m = true) (ev_messages ev)) evs →
  ∃ r, relayEvents s evs = Ok r ∧ Forall2 event_passed_as evs (rl_written r) ∧ rl_errors r = errorsOf (rl_written r) ∧
    rl_session r = recordEvents ((λ ev, (ev_backend ev, ev_id ev)) <$> evs) s.
Proof.
  intros Hid. revert s. induction evs as [|ev evs IH]; intros s Hevs.
  { eexists. split_and!; [reflexivity|constructor|done|done]. }
  apply Forall_cons in Hevs as [(msgs & Hm & Hp)%proxyMessages_passed Hevs].
  set (s' := session_setLastEventID (ev_backend ev) (ev_id ev) s). destruct (Hid s') as [id Hs'].
  destruct (IH s' Hevs) as (r & Hr & Hw & He & Hs).
  assert (proxyEvent lastEventID req backend s ev None =
    Ok (s', with_messages (with_id ev id) msgs, None, omap errorOf msgs)) as E.
  { unfold proxyEvent, stamp. fold s'. rewrite Hs'. cbn. by rewrite Hm. }
  cbn [relayEvents]. rewrite E, Hr. eexists. split; [reflexivity|]. cbn. split_and!.
  - by constructor.
  - by rewrite He.
  - done.
Qed.

Lemma proxyMessages_snoc err msgs m msgs' errs :
  rewritable m = false → proxyMessages req backend err (msgs ++ [m]) ≠ Ok (msgs', None, errs).
Proof.
  intros Hm. revert err msgs' errs. induction msgs as [|m0 msgs IH]; intros err msgs' errs; cbn.
  - unfold rewritable in Hm. destruct m as [r|r]; cbn in *.
    + by destruct (maybeServerToClientRequestModify r backend) as [r' []].
    + destruct req; [|done]. by destruct (maybeResponseModify _ _ _).
  - destruct (proxyMessage _ _ _ m0) as [x| |]; [|done..]. cbn.
    destruct (proxyMessages _ _ x.1.2 _) as [[[ms e] es]| |] eqn:E; [|done..]. cbn. intros [= _ -> _]. by apply IH in E.
Qed.

(** An event with a message that cannot be rewritten, as its last, ends the answer. *)
Lemma relayEvents_cut s pre ev m msgs post r :
  ev_messages ev = msgs ++ [m] → rewritable m = false →
  relayEvents s (pre ++ ev :: post) = Ok r → length (rl_written r) ≤ S (length pre).
Proof.
  intros Hm Hr. revert s r. induction pre as [|ev0 pre IH]; intros s r; cbn [app relayEvents].
  - destruct (proxyEvent _ _ _ _ _ _) as [[[[s' ev'] [e'|]] errs]| |] eqn:E; try done; [by intros [= <-]|].
    exfalso. revert E. unfold proxyEvent, stamp. destruct (lastEventID _) as [id| |]; [|done..]. cbn. rewrite Hm.
    destruct (proxyMessages _ _ _ _) as [[[ms e0] errs0]| |] eqn:Ep; [|done..]. cbn. intros [= _ _ -> _].
    by eapply proxyMessages_snoc.
  - destruct (proxyEvent _ _ _ _ _ _) as [[[[s' ev'] [e'|]] errs]| |] eqn:E; try done.
    + intros [= <-]. cbn. lia.
    + intros (r' & Hr' & [= <-])%obind_ok_inv. cbn. apply IH in Hr'. lia.
Qed.

Lemma relay_total fuel s p : S (parser_size p) < fuel → ∃ o, relay lastEventID fuel req backend s p = Some o.
Proof.
  revert s p. induction fuel as [|fuel IH]; intros s p Hf; [lia|]. cbn [relay].
  destruct (next p) as [p' [ev|[ev|] err|m]] eqn:E; [..|by eauto|by eauto].
  all: destruct (proxyEvent _ _ _ _ _ _) as [[[[s' ev'] [e'|]] errs]| |]; [by eauto| |by eauto..].
  - apply next_shrinks in E. destruct (IH s' p' ltac:(lia)) as [o ->]. cbn. eauto.
  - destruct fuel; [lia|]. cbn [relay]. rewrite (next_after_end _ _ _ _ E). cbn. eauto.
Qed.

(** C26: passing on an answer ends: whatever a backend sends, in JSON or as a
    stream of events, and however its rewriting fails, the proxy comes to the end
    of the answer. *)
Theorem answer_ends s resp : ∃ o, proxyResponseBody lastEventID parseMediaType s resp req backend = Some o.
Proof.
  assert (∀ reads end_, ∃ o, relayStream lastEventID resp req backend s reads end_ = Some o) as H.
  { intros reads end_. unfold relayStream. cbn zeta.
    destruct (relay_total (S (S (parser_size (newSSEEventParser reads end_ backend)))) s (newSSEEventParser reads end_ backend)
                ltac:(lia)) as [o ->]. cbn. eauto. }
  unfold proxyResponseBody. destruct (isJSONContentType _ _); [|apply H].
  destruct (negb _); [by eauto|]. destruct (tryDecodeJSONRPCMessage _); [by eauto|apply H].
Qed.

(** C25: an answer of rewritable messages is passed on whole.  Let a backend answer
    with a stream of events that parses to its end, every message of which can be
    rewritten (a resource update cannot: the first message that fails cuts the answer
    off, with no error returned), and let the event ids of the session be computable.
    Then the client gets the status of the backend and exactly its events, in order,
    with the messages of the backend rewritten and the responses under the id of the
    client's request; the session has recorded all of them; and an error is returned
    exactly when a response carries one or is a failed tool call. *)
Theorem answer_relayed s resp evs e :
  isJSONContentType parseMediaType (br_ContentType resp) = false →
  drain (newSSEEventParser (br_reads resp) (br_end resp) backend) = Some (evs, Ok e) →
  Forall (λ ev, Forall (λ m, rewritable m = true) (ev_messages ev)) evs →
  (∀ s, ∃ id, lastEventID s = Ok id) →
  ∃ a written, proxyResponseBody lastEventID parseMediaType s resp req backend = Some (Ok a) ∧
    ca_status a = br_StatusCode resp ∧ ca_body a = sconcat (writeEvent <$> written) ∧
    Forall2 event_passed_as evs written ∧
    ca_session a = recordEvents ((λ ev, (ev_backend ev, ev_id ev)) <$> evs) s ∧
    ca_err a = joined (errorsOf written).
Proof.
  intros Hj Hd Hevs Hid. unfold proxyResponseBody, relayStream. rewrite Hj. cbn zeta.
  unfold drain in Hd. rewrite (relay_drain _ _ _ _ _ Hd).
  destruct (relayEvents_complete s evs Hid Hevs) as (r & -> & Hw & He & Hs).
  eexists _, (rl_written r). cbn. rewrite <-He. eauto 10.
Qed.
End AnswerProps.

(** ** Concrete answers *)

Module Sample.
Import Toy McpAuthz.Sample McpSession.Sample McpStream.Sample.

#[local] Existing Instance plain.

(** A message on the wire: the decoded messages by name. *)
Definition update : mcpMessage :=
  MRequest {| sv_ID := (RNil : @ID plain); sv_Method := "notifications/resources/updated";
              sv_Params := Some {| pm_decodes := true; pm_progressToken := None; pm_URI := "file:a" |} |}.
Definition decodeName (s : string) : outcome mcpMessage :=
  if bool_decide (s = "answer") then Ok (response (RInt 1) "done")
  else if bool_decide (s = "ask") then Ok (ask (RInt 3))
  else if bool_decide (s = "update") then Ok update
  else Fail (errors_New "no message").
Definition encodeName (m : mcpMessage) : string :=
  match m with
  | MRequest r => sv_Method r
  | MResponse r => default "" (rsp_Result r)
  end.
#[local] Instance wire : McpSse.JsonRpc mcpMessage := {| DecodeMessage := decodeName; EncodeMessage := encodeName |}.
#[local] Instance results : ResultJson :=
  {| unmarshalRead raw := Ok {| rr_URIs := [raw]; rr_CacheScope := ""; rr_rest := "" |};
     marshalRead r := rr_CacheScope r;
     unmarshalToolResult raw := Ok {| ctr_Meta := []; ctr_Content := [TextContent raw]; ctr_IsError := bool_decide (raw = "bad") |};
     marshalToolResult r := "";
     marshalContent c := None |}.

Definition data (l : list string) : string := sconcat ((λ m, "event: message" +:+ String LF "data: " +:+ m +:+ sseLFLF) <$> l).
Definition resp (l : list string) : backendResponse :=
  {| br_StatusCode := 200; br_ContentType := "text/event-stream"; br_reads := [data l]; br_end := io_EOF |}.
Definition call : proxiedRequest := {| px_ID := (RInt 7 : @ID plain); px_Method := "tools/call"; px_toolName := Some "issue" |}.
Definition stampNone : session → outcome string := λ _, Ok "".
Definition proxy (l : list string) : option (outcome clientAnswer) :=
  proxyResponseBody stampNone Ok sess (resp l) (Some call) "github".

(** github asks something, then answers. *)
Lemma answer_relayed_witness :
  ∃ a, proxy ["ask"; "answer"] = Some (Ok a) ∧ ca_status a = 200%Z ∧ ca_err a = None.
Proof.
  destruct (answer_relayed stampNone Ok (Some call) "github" sess (resp ["ask"; "answer"])
    [from "github" "" [ask (RInt 3)]; from "github" "" [response (RInt 1) "done"]] io_EOF)
    as (a & w & H & Hs & _).
  - reflexivity.
  - vm_compute. reflexivity.
  - repeat constructor.
  - intros s. by exists "".
  - exists a. split; [exact H|]. split; [exact Hs|]. vm_compute in H. injection H as <-. reflexivity.
Defined.

(** The same answer after an update of a resource does not reach the client. *)
Lemma update_cuts_answer :
  ∃ a, proxy ["update"; "answer"] = Some (Ok a) ∧ ca_body a = writeEvent (from "github" "" [update]) ∧ ca_err a = None.
Proof. eexists. split; [vm_compute; reflexivity|]. split; vm_compute; reflexivity. Qed.
End Sample.
