(* ===== verification/FilterApi.v ===== *)
(** * The filter configuration and its runtime form

    Models [internal/filterapi/filterconfig.go] (the configuration the
    controller hands to the external processor), [internal/llmcostcel] and
    [internal/filterapi/runtime.go].  The CEL library, the backend auth handler
    constructor and the id codec constructor are arguments. *)

From Stdlib Require Import ZArith Lia.
From stdpp Require Import base gmap strings list pretty.
From S2P Require Import Prelude GoStrings GoNum.

(** ** Configuration data *)

(** [type LLMRequestCostType string]. *)
Definition LLMRequestCostType : Type := string.
Definition LLMRequestCostTypeOutputToken : LLMRequestCostType := "OutputToken".
Definition LLMRequestCostTypeInputToken : LLMRequestCostType := "InputToken".
Definition LLMRequestCostTypeCachedInputToken : LLMRequestCostType := "CachedInputToken".
Definition LLMRequestCostTypeCacheCreationInputToken : LLMRequestCostType := "CacheCreationInputToken".
Definition LLMRequestCostTypeTotalToken : LLMRequestCostType := "TotalToken".
Definition LLMRequestCostTypeReasoningToken : LLMRequestCostType := "ReasoningToken".
Definition LLMRequestCostTypeCEL : LLMRequestCostType := "CEL".

(** [type APISchemaName string]. *)
Definition APISchemaName : Type := string.
Definition APISchemaOpenAI : APISchemaName := "OpenAI".
Definition APISchemaCohere : APISchemaName := "Cohere".
Definition APISchemaAWSBedrock : APISchemaName := "AWSBedrock".
Definition APISchemaAzureOpenAI : APISchemaName := "AzureOpenAI".
Definition APISchemaGCPVertexAI : APISchemaName := "GCPVertexAI".
Definition APISchemaGCPAnthropic : APISchemaName := "GCPAnthropic".
Definition APISchemaAnthropic : APISchemaName := "Anthropic".
Definition APISchemaAWSAnthropic : APISchemaName := "AWSAnthropic".
Definition APISchemaAWSOpenAI : APISchemaName := "AWSOpenAI".
Definition APISchemaTypeSafe : APISchemaName := "TypeSafe".

Record FileIDEncryption := {
  fe_Seed : string;
  fe_Iterations : Z;
  fe_FallbackSeed : string;
  fe_FallbackIterations : Z;
}.

(** [CreatedAt] in Unix seconds. *)
Record Model := {
  md_Name : string;
  md_OwnedBy : string;
  md_CreatedAt : Z;
}.

#[global] Instance Model_eq_dec : EqDecision Model.
Proof. solve_decision. Defined.

Record GlobalLLMRequestCost := {
  gc_MetadataKey : string;
  gc_Type : LLMRequestCostType;
  gc_CEL : string;
}.

Record LLMRequestCost := {
  rc_MetadataKey : string;
  rc_RouteName : string;
  rc_Type : LLMRequestCostType;
  rc_CEL : string;
  rc_Backend : string;
  rc_Model : string;
}.

Record VersionedAPISchema := {
  sc_Name : APISchemaName;
  sc_Version : string;
  sc_Prefix : string;
}.

Definition OpenAIPrefix (v : VersionedAPISchema) : string :=
  if bool_decide (sc_Name v = APISchemaAWSOpenAI) && bool_decide (sc_Prefix v = "") then "openai/v1"
  else sc_Prefix v.

Definition AnthropicPrefix (v : VersionedAPISchema) : string :=
  if bool_decide (sc_Prefix v = "") then "v1" else sc_Prefix v.

(** [HTTPHeader] is a name and a value. *)
Record HTTPHeaderMutation := {
  hm_Set : list (string * string);
  hm_Remove : list string;
}.

(** [HTTPBodyField] is a path and a value. *)
Record HTTPBodyMutation := {
  bm_Set : list (string * string);
  bm_Remove : list string;
}.

Record HTTPHeaderValueFilter := {
  hf_Name : string;
  hf_Mode : string;
  hf_Values : list string;
}.

Record CredentialOverride := {
  co_HeaderName : string;
  co_DynamicMetadataNamespace : string;
  co_DynamicMetadataKey : string;
  co_FallbackToConfigured : bool;
  co_InputHeadersToRemove : list string;
}.

Record AWSAuth := { aws_CredentialFileLiteral : string; aws_Region : string }.
Record APIKeyAuth := { ak_Key : string }.
Record AzureAPIKeyAuth := { azk_Key : string }.
Record AnthropicAPIKeyAuth := { ank_Key : string }.
Record AzureAuth := { az_AccessToken : string }.
Record OpenAIAuth := { oa_AccessToken : string; oa_Organization : string; oa_Project : string }.
Record GCPAuth := { gcp_AccessToken : string; gcp_Region : string; gcp_ProjectName : string }.

Record BackendAuth := {
  ba_APIKey : option APIKeyAuth;
  ba_AWSAuth : option AWSAuth;
  ba_AzureAPIKey : option AzureAPIKeyAuth;
  ba_AnthropicAPIKey : option AnthropicAPIKeyAuth;
  ba_AzureAuth : option AzureAuth;
  ba_GCPAuth : option GCPAuth;
  ba_OpenAIAuth : option OpenAIAuth;
  ba_CredentialOverride : option CredentialOverride;
}.

Record Backend := {
  be_Name : string;
  be_AIServiceBackendName : string;
  be_ModelNameOverride : string;
  be_Schema : VersionedAPISchema;
  be_Auth : option BackendAuth;
  be_HeaderMutation : option HTTPHeaderMutation;
  be_BodyMutation : option HTTPBodyMutation;
  be_HeaderValueFilters : list HTTPHeaderValueFilter;
}.

(** [MCPConfig] is used by the MCP proxy only and is left out. *)
Record Config := {
  cfg_Version : string;
  cfg_UUID : string;
  cfg_GlobalLLMRequestCosts : list GlobalLLMRequestCost;
  cfg_LLMRequestCosts : list LLMRequestCost;
  cfg_Backends : list Backend;
  cfg_Models : list Model;
  (** A model list is a slice that may be nil. *)
  cfg_ModelsByHost : gmap string (option (list Model));
  cfg_UnscopedModels : list Model;
  cfg_FileIDEncryption : option FileIDEncryption;
}.

(** ** The CEL cost expressions *)

(** The variables a cost expression sees. *)
Record CelActivation := {
  cel_model : string;
  cel_backend : string;
  cel_route_name : string;
  cel_input_tokens : Z;
  cel_cached_input_tokens : Z;
  cel_cache_creation_input_tokens : Z;
  cel_output_tokens : Z;
  cel_total_tokens : Z;
  cel_reasoning_tokens : Z;
}.

(** The values an expression can produce, by CEL type. *)
Inductive CelValue :=
| CelInt (z : Z)
| CelUint (z : Z)
| CelOther (ty : string).

(** What is used of the CEL library. *)
Class CelEnv (Prog : Type) := {
  cel_Ast : Type;
  cel_Compile : string → outcome cel_Ast;
  cel_Program : cel_Ast → outcome Prog;
  cel_Eval : Prog → CelActivation → outcome (option CelValue);
}.

(** Go's [int64] and [uint64] results of an evaluation. *)
Definition CelValue_ok (v : CelValue) : Prop :=
  match v with
  | CelInt z => in_int64 z
  | CelUint z => (0 ≤ z < 2 ^ 64)%Z
  | CelOther _ => True
  end.

Section Cel.
Context {Prog : Type} `{!CelEnv Prog}.

Definition EvaluateProgram (prog : Prog) (act : CelActivation) : outcome Z :=
  match cel_Eval prog act with
  | Fail e => Fail (Errorf_w "failed to evaluate CEL expression: " e)
  | Panic p => Panic p
  | Ok None => Fail (errors_New "failed to evaluate CEL expression: %!w(<nil>)")
  | Ok (Some (CelInt result)) =>
      if bool_decide (result < 0)%Z then
        Fail (errors_New ("CEL expression result is negative (" +:+ Itoa result +:+ ")"))
      else Ok (uint64 result)
  | Ok (Some (CelUint result)) => Ok result
  | Ok (Some (CelOther ty)) =>
      Fail (errors_New ("CEL expression result is not an integer, got " +:+ ty))
  end.

Definition dummyActivation : CelActivation :=
  {| cel_model := "dummy"; cel_backend := "dummy"; cel_route_name := "dummy";
     cel_input_tokens := 0; cel_cached_input_tokens := 0;
     cel_cache_creation_input_tokens := 0; cel_output_tokens := 0;
     cel_total_tokens := 0; cel_reasoning_tokens := 0 |}.

Definition NewProgram (expr : string) : outcome Prog :=
  let! ast := owrap "cannot compile CEL expression: " (cel_Compile expr) in
  let! prog := owrap "cannot create CEL program: " (cel_Program ast) in
  let! _ := owrap "failed to evaluate CEL expression: " (EvaluateProgram prog dummyActivation) in
  Ok prog.
End Cel.

(** ** Runtime configuration *)

Record RuntimeBackend (H : Type) := { rb_Backend : Backend; rb_Handler : option H }.
Arguments rb_Backend {H} _.
Arguments rb_Handler {H} _.

Record RuntimeGlobalRequestCost (Prog : Type) :=
  { rg_Cost : GlobalLLMRequestCost; rg_CELProg : option Prog }.
Arguments rg_Cost {Prog} _.
Arguments rg_CELProg {Prog} _.

Record RuntimeRequestCost (Prog : Type) :=
  { rr_Cost : LLMRequestCost; rr_CELProg : option Prog }.
Arguments rr_Cost {Prog} _.
Arguments rr_CELProg {Prog} _.

Record RuntimeConfig (H Prog Codec : Type) := {
  rt_UUID : string;
  rt_GlobalRequestCosts : list (RuntimeGlobalRequestCost Prog);
  rt_RequestCosts : list (RuntimeRequestCost Prog);
  rt_DeclaredModels : list Model;
  rt_ModelsByHost : gmap string (option (list Model));
  rt_UnscopedModels : list Model;
  rt_Backends : gmap string (RuntimeBackend H);
  rt_FileIDCodec : option Codec;
}.
Arguments rt_UUID {H Prog Codec} _.
Arguments rt_GlobalRequestCosts {H Prog Codec} _.
Arguments rt_RequestCosts {H Prog Codec} _.
Arguments rt_DeclaredModels {H Prog Codec} _.
Arguments rt_ModelsByHost {H Prog Codec} _.
Arguments rt_UnscopedModels {H Prog Codec} _.
Arguments rt_Backends {H Prog Codec} _.
Arguments rt_FileIDCodec {H Prog Codec} _.

Section Runtime.
Context {H Prog Codec : Type} `{!CelEnv Prog}.
(** [NewBackendAuthHandlerFunc] and [idcodec.NewCodec]. *)
Context (fn : BackendAuth → outcome H).
Context (NewCodec : string → Z → string → Z → outcome Codec).

Definition addBackend (backends : gmap string (RuntimeBackend H)) (b : Backend) :
    outcome (gmap string (RuntimeBackend H)) :=
  let! h := match be_Auth b with
            | None => Ok None
            | Some auth => let! h := owrap "cannot create backend auth handler: " (fn auth) in
                           Ok (Some h)
            end in
  Ok (<[be_Name b := {| rb_Backend := b; rb_Handler := h |}]> backends).

Definition compileCost (what cel : string) : outcome (option Prog) :=
  if bool_decide (cel = "") then Ok None
  else let! p := owrap what (NewProgram cel) in Ok (Some p).

Definition addGlobalCost (costs : list (RuntimeGlobalRequestCost Prog)) (c : GlobalLLMRequestCost) :
    outcome (list (RuntimeGlobalRequestCost Prog)) :=
  let! prog := compileCost "cannot create CEL program for global cost: " (gc_CEL c) in
  Ok (costs ++ [{| rg_Cost := c; rg_CELProg := prog |}]).

Definition addRouteCost (costs : list (RuntimeRequestCost Prog)) (c : LLMRequestCost) :
    outcome (list (RuntimeRequestCost Prog)) :=
  if bool_decide (rc_RouteName c = "") then
    Fail (errors_New ("route-scoped LLMRequestCost with metadataKey=" +:+ Quote (rc_MetadataKey c) +:+
                      " must have non-empty RouteName"))
  else
    let! prog := compileCost "cannot create CEL program for cost: " (rc_CEL c) in
    Ok (costs ++ [{| rr_Cost := c; rr_CELProg := prog |}]).

Definition NewRuntimeConfig (config : Config) : outcome (RuntimeConfig H Prog Codec) :=
  let! backends := ofold addBackend ∅ (cfg_Backends config) in
  let! globalCosts := ofold addGlobalCost [] (cfg_GlobalLLMRequestCosts config) in
  let! costs := ofold addRouteCost [] (cfg_LLMRequestCosts config) in
  let! fileIDCodec :=
    match cfg_FileIDEncryption config with
    | None => Ok None
    | Some e =>
        let! c := owrap "cannot create file id codec: "
                    (NewCodec (fe_Seed e) (fe_Iterations e) (fe_FallbackSeed e) (fe_FallbackIterations e)) in
        Ok (Some c)
    end in
  Ok {| rt_UUID := cfg_UUID config;
        rt_FileIDCodec := fileIDCodec;
        rt_Backends := backends;
        rt_GlobalRequestCosts := globalCosts;
        rt_RequestCosts := costs;
        rt_DeclaredModels := cfg_Models config;
        rt_ModelsByHost := cfg_ModelsByHost config;
        rt_UnscopedModels := cfg_UnscopedModels config |}.
End Runtime.

(** ** Properties of the cost expressions *)

(** An evaluated CEL cost is always a [uint64]: a negative result is an
    error, never wrapped around, and a non-integer result is an error. *)
Theorem EvaluateProgram_range {Prog} `{!CelEnv Prog} (prog : Prog) act z :
  (∀ v, cel_Eval prog act = Ok (Some v) → CelValue_ok v) →
  EvaluateProgram prog act = Ok z →
  (0 ≤ z < 2 ^ 64)%Z ∧ (cel_Eval prog act = Ok (Some (CelInt z)) ∨ cel_Eval prog act = Ok (Some (CelUint z))).
Proof.
  intros Hv. unfold EvaluateProgram.
  destruct (cel_Eval prog act) as [[[r|r|]|]| |] eqn:E; try done; intros Hz; repeat case_bool_decide;
    simplify_eq; specialize (Hv _ eq_refl); simpl in Hv.
  - unfold in_int64 in Hv. unfold uint64. rewrite Z.mod_small by lia. split; [lia|by left].
  - split; [lia|by right].
Qed.

(** A CEL environment whose only program adds input and output tokens. *)
Definition sumCel : CelEnv unit :=
  {| cel_Ast := string; cel_Compile := Ok; cel_Program := λ _, Ok tt;
     cel_Eval := λ _ act, Ok (Some (CelInt (cel_input_tokens act + cel_output_tokens act))) |}.

Definition sampleActivation : CelActivation :=
  {| cel_model := "gpt"; cel_backend := "default/b"; cel_route_name := "default/r";
     cel_input_tokens := 3; cel_cached_input_tokens := 0; cel_cache_creation_input_tokens := 0;
     cel_output_tokens := 4; cel_total_tokens := 7; cel_reasoning_tokens := 0 |}.

Lemma EvaluateProgram_range_witness :
  EvaluateProgram (CelEnv0 := sumCel) tt sampleActivation = Ok 7%Z ∧ (0 ≤ 7 < 2 ^ 64)%Z.
Proof.
  split; [reflexivity|].
  apply (EvaluateProgram_range (CelEnv0 := sumCel) tt sampleActivation); [|reflexivity].
  intros v Hv. injection Hv as <-. vm_compute. split; congruence.
Defined.

(** ** Properties of the runtime configuration *)

Section RuntimeProps.
Context {H Prog Codec : Type} `{!CelEnv Prog}.
Context (fn : BackendAuth → outcome H).
Context (NewCodec : string → Z → string → Z → outcome Codec).

Definition cel_ok (cel : string) : Prop := cel = "" ∨ is_ok (NewProgram (Prog := Prog) cel) = true.

(** The configurations that have a runtime form. *)
Record config_ok (c : Config) : Prop := {
  ok_backends : Forall (λ b, ∀ a, be_Auth b = Some a → is_ok (fn a) = true) (cfg_Backends c);
  ok_globals : Forall (λ g, cel_ok (gc_CEL g)) (cfg_GlobalLLMRequestCosts c);
  ok_costs : Forall (λ r, rc_RouteName r ≠ "" ∧ cel_ok (rc_CEL r)) (cfg_LLMRequestCosts c);
  ok_codec : ∀ e, cfg_FileIDEncryption c = Some e →
    is_ok (NewCodec (fe_Seed e) (fe_Iterations e) (fe_FallbackSeed e) (fe_FallbackIterations e)) = true;
}.

Lemma compileCost_is_ok what cel : is_ok (compileCost (Prog := Prog) what cel) = true ↔ cel_ok cel.
Proof.
  unfold compileCost, cel_ok. case_bool_decide; [naive_solver|].
  rewrite is_ok_obind. simpl. setoid_rewrite owrap_ok_iff.
  rewrite is_ok_exists. naive_solver.
Qed.

Lemma addBackend_is_ok acc b :
  is_ok (addBackend fn acc b) = true ↔ ∀ a, be_Auth b = Some a → is_ok (fn a) = true.
Proof.
  unfold addBackend. rewrite is_ok_obind. simpl. destruct (be_Auth b) as [a|]; simpl.
  - split.
    + intros (h & Hh & _) a' [= <-]. outcome_inv. apply is_ok_exists. eauto.
    + intros Ha. destruct (proj1 (is_ok_exists _) (Ha a eq_refl)) as [h Hh].
      exists (Some h). by rewrite Hh.
  - naive_solver.
Qed.

Lemma addGlobalCost_is_ok acc c :
  is_ok (addGlobalCost (Prog := Prog) acc c) = true ↔ cel_ok (gc_CEL c).
Proof.
  unfold addGlobalCost.
  rewrite is_ok_obind, <-(compileCost_is_ok "cannot create CEL program for global cost: "), is_ok_exists.
  naive_solver.
Qed.

Lemma addRouteCost_is_ok acc c :
  is_ok (addRouteCost (Prog := Prog) acc c) = true ↔ rc_RouteName c ≠ "" ∧ cel_ok (rc_CEL c).
Proof.
  unfold addRouteCost. case_bool_decide; [naive_solver|].
  rewrite is_ok_obind, <-(compileCost_is_ok "cannot create CEL program for cost: "), is_ok_exists.
  naive_solver.
Qed.

(** A configuration has a runtime form exactly when every backend auth
    handler can be built, every CEL expression compiles and evaluates, every
    route-scoped cost names its route and the id codec can be built. *)
Theorem NewRuntimeConfig_ok_iff c :
  is_ok (NewRuntimeConfig fn NewCodec c) = true ↔ config_ok c.
Proof.
  unfold NewRuntimeConfig. rewrite is_ok_obind.
  setoid_rewrite is_ok_obind. setoid_rewrite is_ok_obind. setoid_rewrite is_ok_obind.
  pose proof (ofold_is_ok _ _ ∅ (cfg_Backends c) addBackend_is_ok) as Hb.
  pose proof (ofold_is_ok _ _ [] (cfg_GlobalLLMRequestCosts c) addGlobalCost_is_ok) as Hg.
  pose proof (ofold_is_ok _ _ [] (cfg_LLMRequestCosts c) addRouteCost_is_ok) as Hr.
  rewrite is_ok_exists in Hb. rewrite is_ok_exists in Hg. rewrite is_ok_exists in Hr. simpl. split.
  - intros (b & Eb & g & Eg & r & Er & f & Ef & _). split; [naive_solver..|].
    intros e He. rewrite He in Ef. outcome_inv. apply is_ok_exists. eauto.
  - intros [Ob Og Or Oc].
    destruct (proj2 Hb Ob) as [b Eb], (proj2 Hg Og) as [g Eg], (proj2 Hr Or) as [r Er].
    exists b. split; [done|]. exists g. split; [done|]. exists r. split; [done|].
    destruct (cfg_FileIDEncryption c) as [e|]; [|by eexists].
    destruct (proj1 (is_ok_exists _) (Oc e eq_refl)) as [k Hk].
    exists (Some k). by rewrite Hk.
Qed.

(** The runtime backend made from a configured one. *)
Definition runtime_of (b : Backend) (rb : RuntimeBackend H) : Prop :=
  rb_Backend rb = b ∧
  match be_Auth b with
  | None => rb_Handler rb = None
  | Some a => ∃ h, fn a = Ok h ∧ rb_Handler rb = Some h
  end.

Lemma ofold_addBackend m bs m' :
  ofold (addBackend fn) m bs = Ok m' →
  ∀ name, match last_binding name ((λ b, (be_Name b, b)) <$> bs) with
          | Some b => ∃ rb, m' !! name = Some rb ∧ runtime_of b rb
          | None => m' !! name = m !! name
          end.
Proof.
  revert m'; induction bs as [|b bs IH] using rev_ind; intros m' Hf name.
  { simpl in Hf. by simplify_eq. }
  rewrite ofold_app in Hf. apply obind_ok_inv in Hf as (m1 & H1 & H2). simpl in H2.
  apply obind_ok_inv in H2 as (m2 & H2 & [= ->]). unfold addBackend in H2.
  apply obind_ok_inv in H2 as (h & Hh & [= <-]).
  rewrite fmap_app. simpl. rewrite last_binding_snoc. simpl. case_decide as Hn.
  - subst name. rewrite lookup_insert_eq. eexists; split; [done|]. split; [done|].
    destruct (be_Auth b); outcome_inv; naive_solver.
  - rewrite lookup_insert_ne by done. by apply IH.
Qed.

(** The runtime configuration is the configuration it was built from: a
    backend name selects the last configured backend of that name with the
    handler built from its auth section, both cost lists keep their entries
    in order with their compiled programs, and every route-scoped cost has a
    route name. *)
Theorem NewRuntimeConfig_spec c rt :
  NewRuntimeConfig fn NewCodec c = Ok rt →
  (∀ name, match last_binding name ((λ b, (be_Name b, b)) <$> cfg_Backends c) with
           | Some b => ∃ rb, rt_Backends rt !! name = Some rb ∧ runtime_of b rb
           | None => rt_Backends rt !! name = None
           end) ∧
  rg_Cost <$> rt_GlobalRequestCosts rt = cfg_GlobalLLMRequestCosts c ∧
  rr_Cost <$> rt_RequestCosts rt = cfg_LLMRequestCosts c ∧
  Forall (λ r, rc_RouteName (rr_Cost r) ≠ "" ∧
               (rc_CEL (rr_Cost r) = "" ↔ rr_CELProg r = None)) (rt_RequestCosts rt).
Proof.
  unfold NewRuntimeConfig. intros Hc. outcome_inv. subst rt. simpl.
  split_and!.
  - intros name. pose proof (ofold_addBackend _ _ _ H0 name) as Hn. revert Hn.
    destruct (last_binding _ _); [done|]. by rewrite lookup_empty.
  - eapply (ofold_append (λ a b, rg_Cost b = a)) in H1 as (bs & -> & Hbs).
    + simpl. induction Hbs; [done|]. simpl. by f_equal.
    + intros acc a acc' Ha. unfold addGlobalCost in Ha. outcome_inv. eauto.
  - eapply (ofold_append (λ a b, rr_Cost b = a)) in H2 as (bs & -> & Hbs).
    + simpl. induction Hbs; [done|]. simpl. by f_equal.
    + intros acc a acc' Ha. unfold addRouteCost in Ha. case_bool_decide; [done|].
      outcome_inv. eauto.
  - eapply (ofold_append (λ _ b, rc_RouteName (rr_Cost b) ≠ "" ∧
              (rc_CEL (rr_Cost b) = "" ↔ rr_CELProg b = None))) in H2 as (bs & -> & Hbs).
    + simpl. induction Hbs; auto.
    + intros acc a acc' Ha. unfold addRouteCost in Ha. case_bool_decide; [done|].
      outcome_inv. eexists; split; [done|]. simpl. split; [done|].
      match goal with E : compileCost _ _ = _ |- _ => unfold compileCost in E end.
      case_bool_decide; outcome_inv; naive_solver.
Qed.
End RuntimeProps.

(** A configuration with one backend and one route-scoped cost. *)
Definition sampleConfig : Config :=
  {| cfg_Version := "v1"; cfg_UUID := "u";
     cfg_GlobalLLMRequestCosts := [{| gc_MetadataKey := "g"; gc_Type := LLMRequestCostTypeCEL; gc_CEL := "input_tokens" |}];
     cfg_LLMRequestCosts := [{| rc_MetadataKey := "k"; rc_RouteName := "ns/r"; rc_Type := LLMRequestCostTypeInputToken;
                                rc_CEL := ""; rc_Backend := ""; rc_Model := "" |}];
     cfg_Backends := [{| be_Name := "b"; be_AIServiceBackendName := ""; be_ModelNameOverride := "";
                         be_Schema := {| sc_Name := APISchemaOpenAI; sc_Version := ""; sc_Prefix := "" |};
                         be_Auth := None; be_HeaderMutation := None; be_BodyMutation := None;
                         be_HeaderValueFilters := [] |}];
     cfg_Models := []; cfg_ModelsByHost := ∅; cfg_UnscopedModels := []; cfg_FileIDEncryption := None |}.

Lemma NewRuntimeConfig_spec_witness :
  ∃ rt, NewRuntimeConfig (CelEnv0 := sumCel) (λ _, Ok tt) (λ _ _ _ _, Ok tt) sampleConfig = Ok rt ∧
    rr_Cost <$> rt_RequestCosts rt = cfg_LLMRequestCosts sampleConfig.
Proof.
  eexists. split; [reflexivity|].
  apply (NewRuntimeConfig_spec (CelEnv0 := sumCel) (λ _, Ok tt) (λ _ _ _ _, Ok tt) sampleConfig). reflexivity.
Defined.
