(* ===== verification/ConfigBundle.v ===== *)
(** * The sharded configuration bundle, from the controller to the filter

    The controller cuts the filter configuration into parts, stores each in a
    Secret and writes an index ([internal/controller/filter_config_bundle.go],
    names in [internal/controller/secret_name.go]); the pod mounts the Secrets
    as files ([internal/controller/gateway_mutator.go]); the external processor
    reassembles and checks them ([internal/filterapi/config_bundle.go]) on
    every tick of its watcher ([internal/filterapi/watcher.go]).

    SHA-256, the YAML codec, the Kubernetes client and the file system are
    arguments.  Times are nanoseconds since the zero [time.Time]. *)

From Stdlib Require Import ZArith Lia Ascii.
From stdpp Require Import base gmap strings list pretty.
From S2P Require Import Prelude GoStrings FilterApi.

(** ** Data *)

Record ConfigBundlePart := {
  pt_Name : string;
  pt_Path : string;
  pt_SizeBytes : nat;
}.

Record ConfigBundleIndex := {
  ix_Version : string;
  ix_UUID : string;
  ix_Checksum : string;
  ix_Parts : list ConfigBundlePart;
}.

Definition ConfigBundleIndexFileName : string := "index.yaml".
Definition FilterConfigBundlePartKey : string := "chunk".
Definition ConfigBundlePartPath (idx : nat) : string := "parts/" +:+ pad3 idx.

Definition filterConfigBundlePartSizeBytes : nat := Z.to_nat (700 * 1024).
Definition maxFilterConfigBundleSlots : nat := 8.

Lemma partSizeBytes_pos : 0 < filterConfigBundlePartSizeBytes.
Proof. unfold filterConfigBundlePartSizeBytes. lia. Qed.

#[global] Opaque filterConfigBundlePartSizeBytes.

(** ** Cutting *)

(** The loop [for start := 0; start < len(raw); start += chunkSize]; the fuel
    is the length of the text that is left, which every turn shortens. *)
Fixpoint split_loop (fuel chunkSize : nat) (raw : string) : list string :=
  match fuel with
  | 0 => []
  | S fuel =>
      if bool_decide (raw = "") then []
      else str_take chunkSize raw :: split_loop fuel chunkSize (str_drop chunkSize raw)
  end.

Definition splitBytes (raw : string) (chunkSize : nat) : list string :=
  if bool_decide (String.length raw = 0) then [""] else split_loop (String.length raw) chunkSize raw.


Section Bundle.
(** Thirty-two bytes of SHA-256. *)
Context (sha256 : string → string).

Definition ConfigBundleChecksum (raw : string) : string := hex_EncodeToString (sha256 raw).

(** ** Secret names *)

Definition k8sObjectNameMaxLen : nat := 253.

Definition shortStableHash (value : string) : string :=
  hex_EncodeToString (str_take 6 (sha256 value)).

Definition truncateAndAppendHash (base0 hash : string) (maxLen : nat) : string :=
  let base := Trim base0 "-" in
  let name := base +:+ "-" +:+ hash in
  if bool_decide (String.length name ≤ maxLen) then name
  else
    let allowed := (Z.of_nat maxLen - 1 - Z.of_nat (String.length hash))%Z in
    if bool_decide (allowed ≤ 0)%Z then hash
    else
      let allowedBaseLen := Nat.min (Z.to_nat allowed) (String.length base) in
      let trimmedBase := Trim (str_take allowedBaseLen base) "-" in
      if bool_decide (trimmedBase = "") then hash else trimmedBase +:+ "-" +:+ hash.

Definition FilterConfigBundleIndexSecretName (gwName gwNamespace : string) : string :=
  truncateAndAppendHash (gwName +:+ "-" +:+ gwNamespace)
    (shortStableHash (gwNamespace +:+ "/" +:+ gwName)) k8sObjectNameMaxLen.

Definition filterConfigBundlePartSecretName (gwName gwNamespace : string) (idx : nat) : string :=
  let hash := shortStableHash (gwNamespace +:+ "/" +:+ gwName) in
  let base := gwName +:+ "-" +:+ gwNamespace in
  let suffix := "-part-" +:+ pad3 idx in
  let maxNameLen := k8sObjectNameMaxLen - String.length hash - String.length suffix - 1 in
  let base := if bool_decide (maxNameLen < String.length base)
              then TrimRight (str_take maxNameLen base) "-" else base in
  base +:+ "-" +:+ hash +:+ suffix.

(** ** Reassembly *)

Context (yaml_UnmarshalConfig : string → outcome Config).
Context (yaml_UnmarshalIndex : string → outcome ConfigBundleIndex).

Definition UnmarshalConfigBundleIndex (raw : string) : outcome ConfigBundleIndex :=
  let! index := owrap "failed to unmarshal config bundle index: " (yaml_UnmarshalIndex raw) in
  if bool_decide (ix_Checksum index = "") then
    Fail (errors_New "invalid config bundle index: empty checksum value")
  else if bool_decide (length (ix_Parts index) = 0) then
    Fail (errors_New "invalid config bundle index: empty parts")
  else Ok index.

(** [readPart] receives the name and path of the part only. *)
Definition readParts (readPart : ConfigBundlePart → outcome string) (parts : list ConfigBundlePart) :
    outcome string :=
  ofold (λ payload part,
    let p := {| pt_Name := pt_Name part; pt_Path := pt_Path part; pt_SizeBytes := 0 |} in
    let! b := owrap ("failed to read bundle part " +:+ Quote (pt_Path p) +:+ ": ") (readPart p) in
    Ok (payload +:+ b)) "" parts.

Definition ReassembleBundleConfig (index : ConfigBundleIndex)
    (readPart : ConfigBundlePart → outcome string) : outcome Config :=
  let! payload := readParts readPart (ix_Parts index) in
  let expected := ToLower (ix_Checksum index) in
  let actual := ConfigBundleChecksum payload in
  if negb (bool_decide (actual = expected)) then
    Fail (Err ("bundle checksum mismatch: expected " +:+ expected +:+ " got " +:+ actual)
              [ErrBundleChecksumMismatch])
  else owrap "failed to unmarshal bundled config: " (yaml_UnmarshalConfig payload).

(** ** The watcher *)

(** [ConfigReceiver]: what [LoadConfig] does to the receiver. *)
Context {R : Type} (LoadConfig : R → Config → R * outcome unit).

(** What the file system answers during one call of [loadConfig]; the
    answers for the index and for the parts need not come from one snapshot. *)
Record FileSystem := {
  fs_readIndex : outcome string;
  fs_statIndex : outcome Z;
  fs_stat : string → outcome Z;
  fs_read : string → outcome string;
}.

Record bundleConfigWatcher := {
  cw_lastMod : Z;
  cw_rcv : R;
  cw_versionStr : string;
}.

Definition maxModTime (fs : FileSystem) (indexMod : Z) (parts : list ConfigBundlePart) : outcome Z :=
  ofold (λ maxMod part,
    match fs_stat fs (pt_Path part) with
    | Ok t => Ok (if bool_decide (maxMod < t)%Z then t else maxMod)
    | Fail e => if errors_Is e OsErrNotExist
                then Fail (Err ("bundle part not found " +:+ Quote (pt_Path part) +:+ ": " +:+ err_msg e)
                               (ErrBundlePartNotFound :: err_chain e))
                else Fail e
    | Panic p => Panic p
    end) indexMod parts.

Definition readPartFile (fs : FileSystem) (part : ConfigBundlePart) : outcome string :=
  match fs_read fs (pt_Path part) with
  | Fail e => if errors_Is e OsErrNotExist
              then Fail (Err ("bundle part not found " +:+ Quote (pt_Path part) +:+ ": " +:+ err_msg e)
                             (ErrBundlePartNotFound :: err_chain e))
              else Fail e
  | r => r
  end.

(** The checks before [LoadConfig]: [None] when nothing is newer than the
    last load, otherwise the configuration and the time to record. *)
Definition loadConfig_check (cw : bundleConfigWatcher) (fs : FileSystem) : outcome (option (Config * Z)) :=
  let! indexRaw := fs_readIndex fs in
  let! indexMod := fs_statIndex fs in
  let! index := UnmarshalConfigBundleIndex indexRaw in
  let! maxMod := maxModTime fs indexMod (ix_Parts index) in
  if bool_decide (maxMod - cw_lastMod cw ≤ 0)%Z then Ok None
  else
    let! cfg := ReassembleBundleConfig index (readPartFile fs) in
    if negb (bool_decide (cfg_Version cfg = cw_versionStr cw)) then
      Fail (errors_New ("config version mismatch: expected " +:+ Quote (cw_versionStr cw) +:+ ", got " +:+
                        Quote (cfg_Version cfg) +:+ ". Likely in the middle of rolling update"))
    else Ok (Some (cfg, maxMod)).

Definition loadConfig (cw : bundleConfigWatcher) (fs : FileSystem) :
    bundleConfigWatcher * outcome unit :=
  match loadConfig_check cw fs with
  | Ok None => (cw, Ok tt)
  | Ok (Some (cfg, maxMod)) =>
      let '(rcv', r) := LoadConfig (cw_rcv cw) cfg in
      match r with
      | Ok _ => ({| cw_lastMod := maxMod; cw_rcv := rcv'; cw_versionStr := cw_versionStr cw |}, Ok tt)
      | Fail e => ({| cw_lastMod := cw_lastMod cw; cw_rcv := rcv'; cw_versionStr := cw_versionStr cw |},
                   Fail (Errorf_w "failed to load config: " e))
      | Panic p => ({| cw_lastMod := cw_lastMod cw; cw_rcv := rcv'; cw_versionStr := cw_versionStr cw |},
                    Panic p)
      end
  | Fail e => (cw, Fail e)
  | Panic p => (cw, Panic p)
  end.

(** The initial load tolerates the two errors of a bundle that is still
    being written; [Ok] means the watch goroutine was started. *)
Definition StartConfigBundleWatcher (rcv : R) (versionStr : string) (fs : FileSystem) :
    bundleConfigWatcher * outcome unit :=
  let cw := {| cw_lastMod := 0; cw_rcv := rcv; cw_versionStr := versionStr |} in
  let '(cw', r) := loadConfig cw fs in
  match r with
  | Fail e => if negb (errors_Is e ErrBundleChecksumMismatch) && negb (errors_Is e ErrBundlePartNotFound)
              then (cw', Fail (Errorf_w "failed to load initial bundled config: " e))
              else (cw', Ok tt)
  | r => (cw', r)
  end.

(** [watch]: one [loadConfig] per tick, errors are only logged. *)
Definition watch (cw : bundleConfigWatcher) (ticks : list FileSystem) : bundleConfigWatcher :=
  foldl (λ cw fs, (loadConfig cw fs).1) cw ticks.
End Bundle.

Arguments cw_lastMod {R} _.
Arguments cw_rcv {R} _.
Arguments cw_versionStr {R} _.

(** ** Writing the bundle *)

(** A Secret as the client sends it: [Data] and the write-only [StringData]. *)
Record Secret := {
  sec_Name : string;
  sec_Data : gmap string string;
  sec_StringData : gmap string string;
}.

(** What is used of the Kubernetes client, in one namespace.  [kube_data] is
    what the API server stores. *)
Class KubeSecrets (K : Type) := {
  kube_data : K → gmap string (gmap string string);
  kube_Get : K → string → outcome Secret;
  kube_Create : K → Secret → K * outcome unit;
  kube_Update : K → Secret → K * outcome unit;
  kube_Delete : K → string → K * outcome unit;
}.

(** Documented behaviour of a call that reports success: [Get] returns the
    stored data with an empty [StringData]; [Create] and [Update] store [Data]
    overlaid by [StringData]; [Delete] removes the object, and says so with
    [NotFound] when there is none. *)
Class KubeSecretsLaws (K : Type) `{!KubeSecrets K} := {
  kube_Get_ok k n s : kube_Get k n = Ok s →
    sec_Name s = n ∧ sec_StringData s = ∅ ∧ kube_data k !! n = Some (sec_Data s);
  kube_Create_ok k s k' : kube_Create k s = (k', Ok tt) →
    kube_data k' = <[sec_Name s := sec_StringData s ∪ sec_Data s]> (kube_data k);
  kube_Update_ok k s k' : kube_Update k s = (k', Ok tt) →
    kube_data k' = <[sec_Name s := sec_StringData s ∪ sec_Data s]> (kube_data k);
  kube_Delete_ok k n k' : kube_Delete k n = (k', Ok tt) → kube_data k' = delete n (kube_data k);
  kube_Delete_NotFound k n k' e : kube_Delete k n = (k', Fail e) → errors_Is e KubeNotFound = true →
    kube_data k' = delete n (kube_data k);
}.

Section Write.
Context (sha256 : string → string).
Context (yaml_MarshalIndex : ConfigBundleIndex → outcome string).
Context {K : Type} `{!KubeSecrets K}.
(** [version.Parse()]. *)
Context (version : string).

(** Stores [data] under [name]: get, then create or update.  [what] is
    [part] or [index]; [strData] tells which of the two fields carries it. *)
Definition putSecret (what name : string) (data : gmap string string) (strData : bool) (k : K) :
    K * outcome unit :=
  match kube_Get k name with
  | Fail e =>
      if errors_Is e KubeNotFound then
        let secret := if strData then {| sec_Name := name; sec_Data := ∅; sec_StringData := data |}
                      else {| sec_Name := name; sec_Data := data; sec_StringData := ∅ |} in
        let '(k', r) := kube_Create k secret in
        (k', owrap ("failed to create filter config " +:+ what +:+ " secret " +:+ name +:+ ": ") r)
      else (k, Fail (Errorf_w ("failed to get filter config " +:+ what +:+ " secret " +:+ name +:+ ": ") e))
  | Ok secret =>
      let secret' := if strData
        then {| sec_Name := sec_Name secret; sec_Data := sec_Data secret; sec_StringData := data |}
        else {| sec_Name := sec_Name secret; sec_Data := data; sec_StringData := sec_StringData secret |} in
      let '(k', r) := kube_Update k secret' in
      (k', owrap ("failed to update filter config " +:+ what +:+ " secret " +:+ name +:+ ": ") r)
  | Panic p => (k, Panic p)
  end.

(** One turn of [for i := range maxFilterConfigBundleSlots]. *)
Definition writeSlot (gw ns : string) (chunks : list string) (i : nat)
    (k : K) (parts : list ConfigBundlePart) : K * outcome (list ConfigBundlePart) :=
  let partName := filterConfigBundlePartSecretName sha256 gw ns i in
  match chunks !! i with
  | None =>
      match kube_Delete k partName with
      | (k', Fail e) =>
          if errors_Is e KubeNotFound then (k', Ok parts)
          else (k', Fail (Errorf_w ("failed to delete unused filter config part secret " +:+
                                    partName +:+ ": ") e))
      | (k', Ok _) => (k', Ok parts)
      | (k', Panic p) => (k', Panic p)
      end
  | Some chunk =>
      let part := {| pt_Name := partName; pt_Path := ConfigBundlePartPath i;
                     pt_SizeBytes := String.length chunk |} in
      let '(k', r) := putSecret "part" partName {[ FilterConfigBundlePartKey := chunk ]} false k in
      (k', let! _ := r in Ok (parts ++ [part]))
  end.

Fixpoint writeSlots (gw ns : string) (chunks : list string) (slots : list nat)
    (k : K) (parts : list ConfigBundlePart) : K * outcome (list ConfigBundlePart) :=
  match slots with
  | [] => (k, Ok parts)
  | i :: slots =>
      match writeSlot gw ns chunks i k parts with
      | (k', Ok parts') => writeSlots gw ns chunks slots k' parts'
      | (k', r) => (k', r)
      end
  end.

Definition writeFilterConfigBundle (gatewayName gatewayNamespace payload uuid : string) (k : K) :
    K * outcome unit :=
  let indexSecretName := FilterConfigBundleIndexSecretName sha256 gatewayName gatewayNamespace in
  let chunks := splitBytes payload filterConfigBundlePartSizeBytes in
  if bool_decide (maxFilterConfigBundleSlots < length chunks) then
    (k, Fail (errors_New ("filter config requires " +:+ itoa (length chunks) +:+
         " shards, exceeds max supported slots " +:+ itoa maxFilterConfigBundleSlots)))
  else
    match writeSlots gatewayName gatewayNamespace chunks (seq 0 maxFilterConfigBundleSlots) k [] with
    | (k', Ok parts) =>
        let index := {| ix_Version := version; ix_UUID := uuid;
                        ix_Checksum := ConfigBundleChecksum sha256 payload; ix_Parts := parts |} in
        match owrap "failed to marshal config bundle index: " (yaml_MarshalIndex index) with
        | Ok indexRaw =>
            putSecret "index" indexSecretName {[ ConfigBundleIndexFileName := indexRaw ]} true k'
        | Fail e => (k', Fail e)
        | Panic p => (k', Panic p)
        end
    | (k', Fail e) => (k', Fail e)
    | (k', Panic p) => (k', Panic p)
    end.

(** The projections of the mounted volume: Secret name, key, path and whether
    the Secret may be missing. *)
Definition bundleProjections (gw ns : string) : list (string * string * string * bool) :=
  (FilterConfigBundleIndexSecretName sha256 gw ns, ConfigBundleIndexFileName,
   ConfigBundleIndexFileName, false) ::
  ((λ i, (filterConfigBundlePartSecretName sha256 gw ns i, FilterConfigBundlePartKey,
          ConfigBundlePartPath i, true)) <$> seq 0 maxFilterConfigBundleSlots).
End Write.

(** ** Cutting: properties *)

Lemma sconcat_split_loop fuel n raw :
  0 < n → String.length raw ≤ fuel → sconcat (split_loop fuel n raw) = raw.
Proof.
  intros Hn. revert raw; induction fuel as [|fuel IH]; intros raw Hf; simpl.
  { symmetry. apply slength_0. lia. }
  case_bool_decide as Hr; [by subst|]. simpl. rewrite IH; [apply str_take_drop|].
  rewrite slength_drop. lia.
Qed.

Lemma split_loop_sizes fuel n raw : Forall (λ c, String.length c ≤ n) (split_loop fuel n raw).
Proof.
  revert raw; induction fuel as [|fuel IH]; intros raw; simpl; [constructor|].
  case_bool_decide; [constructor|]. constructor; [|apply IH]. rewrite slength_take. lia.
Qed.

Lemma split_loop_count fuel n raw :
  0 < n → String.length raw ≤ fuel →
  length (split_loop fuel n raw) = (String.length raw + n - 1) / n.
Proof.
  intros Hn. revert raw; induction fuel as [|fuel IH]; intros raw Hf; simpl.
  { assert (String.length raw = 0) as -> by lia. symmetry. apply Nat.div_small. lia. }
  case_bool_decide as Hr.
  { subst. symmetry. apply Nat.div_small. simpl. lia. }
  assert (0 < String.length raw).
  { destruct (String.length raw) eqn:E; [|lia]. by apply slength_0 in E. }
  simpl. rewrite IH by (rewrite slength_drop; lia). rewrite slength_drop.
  destruct (Nat.le_gt_cases (String.length raw) n).
  - replace (String.length raw - n) with 0 by lia.
    rewrite (Nat.div_small (0 + n - 1)) by lia.
    apply (Nat.div_unique _ _ _ (String.length raw - 1)); lia.
  - replace (String.length raw + n - 1) with (String.length raw - n + n - 1 + 1 * n) by lia.
    rewrite Nat.div_add by lia. lia.
Qed.

Lemma splitBytes_facts raw n :
  0 < n →
  sconcat (splitBytes raw n) = raw ∧
  Forall (λ c, String.length c ≤ n) (splitBytes raw n) ∧
  length (splitBytes raw n) = Nat.max 1 ((String.length raw + n - 1) / n).
Proof.
  intros Hn. unfold splitBytes. case_bool_decide as Hl.
  - apply slength_0 in Hl as ->. simpl. rewrite Nat.div_small by lia. repeat constructor. simpl. lia.
  - rewrite sconcat_split_loop, split_loop_count by lia. split; [done|]. split; [apply split_loop_sizes|].
    assert (1 ≤ (String.length raw + n - 1) / n); [|lia].
    apply Nat.div_le_lower_bound; lia.
Qed.

(** Cutting a configuration loses nothing: the parts concatenate to the
    payload, none exceeds the part size, and there are as many as needed (one
    for an empty payload). *)
Theorem splitBytes_spec raw n :
  0 < n →
  sconcat (splitBytes raw n) = raw ∧
  Forall (λ c, String.length c ≤ n) (splitBytes raw n) ∧
  length (splitBytes raw n) = Nat.max 1 ((String.length raw + n - 1) / n).
Proof. apply splitBytes_facts. Qed.

Lemma splitBytes_spec_witness : sconcat (splitBytes "abcdefg" 3) = "abcdefg" ∧ length (splitBytes "abcdefg" 3) = 3.
Proof. split; [apply (splitBytes_spec "abcdefg" 3); lia|reflexivity]. Defined.

(** ** Secret names: properties *)

Section Names.
Context (sha256 : string → string).
Context (sha256_len : ∀ s, String.length (sha256 s) = 32).

Lemma shortStableHash_len s : String.length (shortStableHash sha256 s) = 12.
Proof. unfold shortStableHash. rewrite slength_hex, slength_take, sha256_len. done. Qed.

Lemma shortStableHash_no_dash s : Contains (shortStableHash sha256 s) "-" = false.
Proof. by apply hex_not_contains. Qed.

Lemma truncateAndAppendHash_suffix base hash maxLen :
  ∃ pre, truncateAndAppendHash base hash maxLen = pre +:+ hash.
Proof.
  unfold truncateAndAppendHash. repeat case_bool_decide;
    first [by exists ""|eexists (_ +:+ "-"); by rewrite <-sapp_assoc].
Qed.

Lemma truncateAndAppendHash_len base hash maxLen :
  String.length hash ≤ maxLen → String.length (truncateAndAppendHash base hash maxLen) ≤ maxLen.
Proof.
  intros Hh. unfold truncateAndAppendHash. repeat case_bool_decide; try done.
  rewrite !slength_app. pose proof (slength_Trim (str_take (Nat.min (Z.to_nat
    (Z.of_nat maxLen - 1 - Z.of_nat (String.length hash))) (String.length (Trim base "-")))
    (Trim base "-")) "-") as Ht.
  rewrite slength_take in Ht. simpl. lia.
Qed.

Lemma pad3_slot i : i < maxFilterConfigBundleSlots → String.length (pad3 i) = 3.
Proof. intros Hi. do 8 (destruct i as [|i]; [done|]). unfold maxFilterConfigBundleSlots in Hi. lia. Qed.

Lemma pad3_slot_inj i j :
  i < maxFilterConfigBundleSlots → j < maxFilterConfigBundleSlots → pad3 i = pad3 j → i = j.
Proof.
  unfold maxFilterConfigBundleSlots. intros Hi Hj.
  do 8 (destruct i as [|i]; [do 8 (destruct j as [|j]; [done|]); lia|]). lia.
Qed.

(** The part name up to the slot number. *)
Lemma part_name_prefix gw ns :
  ∃ pre, String.length pre ≤ 244 ∧ ∀ i, i < maxFilterConfigBundleSlots →
    filterConfigBundlePartSecretName sha256 gw ns i = pre +:+ "-part-" +:+ pad3 i.
Proof.
  set (hash := shortStableHash sha256 (ns +:+ "/" +:+ gw)).
  set (base := gw +:+ "-" +:+ ns).
  set (base' := if bool_decide (231 < String.length base) then TrimRight (str_take 231 base) "-" else base).
  exists (base' +:+ "-" +:+ hash). split.
  - rewrite !slength_app. unfold hash. rewrite shortStableHash_len.
    assert (String.length base' ≤ 231); [|simpl; lia].
    unfold base'. case_bool_decide; [|lia].
    pose proof (slength_TrimRight (str_take 231 base) "-") as Ht. rewrite slength_take in Ht. lia.
  - intros i Hi. unfold filterConfigBundlePartSecretName, k8sObjectNameMaxLen.
    rewrite shortStableHash_len, slength_app, pad3_slot by done.
    change (253 - 12 - (String.length "-part-" + 3) - 1) with 231.
    fold hash base base'. by rewrite <-!sapp_assoc.
Qed.

(** The Secret names of a bundle fit the 253 bytes Kubernetes allows,
    however long the Gateway's name and namespace are. *)
Theorem bundle_secret_names_fit gw ns i :
  i < maxFilterConfigBundleSlots →
  String.length (FilterConfigBundleIndexSecretName sha256 gw ns) ≤ k8sObjectNameMaxLen ∧
  String.length (filterConfigBundlePartSecretName sha256 gw ns i) ≤ k8sObjectNameMaxLen.
Proof.
  intros Hi. split.
  - apply truncateAndAppendHash_len. rewrite shortStableHash_len. unfold k8sObjectNameMaxLen. lia.
  - destruct (part_name_prefix gw ns) as (pre & Hpre & Hname). rewrite Hname by done.
    rewrite !slength_app, pad3_slot by done. unfold k8sObjectNameMaxLen. simpl. lia.
Qed.

Lemma part_name_inj gw ns i j :
  i < maxFilterConfigBundleSlots → j < maxFilterConfigBundleSlots →
  filterConfigBundlePartSecretName sha256 gw ns i = filterConfigBundlePartSecretName sha256 gw ns j → i = j.
Proof.
  intros Hi Hj. destruct (part_name_prefix gw ns) as (pre & _ & Hname). rewrite !Hname by done.
  intros H%sapp_inj_l%sapp_inj_l. by apply pad3_slot_inj.
Qed.

Lemma part_name_ne_index gw ns i :
  i < maxFilterConfigBundleSlots →
  filterConfigBundlePartSecretName sha256 gw ns i ≠ FilterConfigBundleIndexSecretName sha256 gw ns.
Proof.
  intros Hi H. destruct (part_name_prefix gw ns) as (pre & _ & Hname). rewrite Hname in H by done.
  unfold FilterConfigBundleIndexSecretName in H.
  set (hash := shortStableHash sha256 (ns +:+ "/" +:+ gw)) in *.
  destruct (truncateAndAppendHash_suffix (gw +:+ "-" +:+ ns) hash k8sObjectNameMaxLen) as [pre' Hi'].
  rewrite Hi' in H. rewrite <-(str_take_drop 3 hash), (sapp_assoc pre') in H.
  assert (String.length (str_drop 3 hash) = 9) as Hl.
  { unfold hash. by rewrite slength_drop, shortStableHash_len. }
  assert (String.length pre = String.length (pre' +:+ str_take 3 hash)) as Hlen.
  { apply (f_equal String.length) in H. rewrite !slength_app, Hl, pad3_slot in H by done.
    rewrite slength_app. change (String.length "-part-") with 6 in H. lia. }
  destruct (sapp_inj_len _ _ _ _ Hlen H) as [_ Hs].
  assert (Contains hash "-" = false) as Hd by apply shortStableHash_no_dash.
  rewrite <-(str_take_drop 3 hash), Contains_app, <-Hs in Hd.
  apply orb_false_iff in Hd as [_ Hd]. by rewrite Contains_app in Hd.
Qed.
End Names.

(** ** Writing: properties *)

Section WriteProps.
Context (sha256 : string → string).
Context (sha256_len : ∀ s, String.length (sha256 s) = 32).
Context {K : Type} `{!KubeSecrets K, !KubeSecretsLaws K}.

Lemma putSecret_ok what name key v b (k k' : K) :
  putSecret what name {[ key := v ]} b k = (k', Ok tt) →
  ∃ d, kube_data k' = <[name := d]> (kube_data k) ∧ d !! key = Some v.
Proof.
  unfold putSecret. destruct (kube_Get k name) as [s|e|] eqn:Eg; [| |done].
  - destruct (kube_Get_ok _ _ _ Eg) as (<- & Hsd & _).
    destruct (kube_Update _ _) as [k1 r] eqn:Eu. intros H. simplify_eq.
    destruct r as [[]| |]; simplify_eq/=.
    apply kube_Update_ok in Eu. destruct b; simpl in Eu; eexists; (split; [exact Eu|]).
    + apply lookup_union_Some_l. apply lookup_singleton_eq.
    + rewrite Hsd, (left_id_L ∅ (∪)). apply lookup_singleton_eq.
  - destruct (errors_Is e KubeNotFound); [|done].
    destruct (kube_Create _ _) as [k1 r] eqn:Eu. intros H. simplify_eq.
    destruct r as [[]| |]; simplify_eq/=.
    apply kube_Create_ok in Eu. destruct b; simpl in Eu; eexists; (split; [exact Eu|]).
    + rewrite (right_id_L ∅ (∪)). apply lookup_singleton_eq.
    + rewrite (left_id_L ∅ (∪)). apply lookup_singleton_eq.
Qed.

(** What slot [i] must hold after the write. *)
Definition slot_written (gw ns : string) (chunks : list string) (k : K) (i : nat) : Prop :=
  match chunks !! i with
  | Some c => ∃ d, kube_data k !! filterConfigBundlePartSecretName sha256 gw ns i = Some d ∧
                   d !! FilterConfigBundlePartKey = Some c
  | None => kube_data k !! filterConfigBundlePartSecretName sha256 gw ns i = None
  end.

Definition part_of (gw ns : string) (i : nat) (c : string) : ConfigBundlePart :=
  {| pt_Name := filterConfigBundlePartSecretName sha256 gw ns i; pt_Path := ConfigBundlePartPath i;
     pt_SizeBytes := String.length c |}.

Lemma writeSlot_ok gw ns chunks i (k k' : K) parts parts' :
  writeSlot sha256 gw ns chunks i k parts = (k', Ok parts') →
  slot_written gw ns chunks k' i ∧
  parts' = parts ++ option_list (part_of gw ns i <$> chunks !! i) ∧
  (∀ n, n ≠ filterConfigBundlePartSecretName sha256 gw ns i → kube_data k' !! n = kube_data k !! n).
Proof.
  unfold writeSlot, slot_written. destruct (chunks !! i) as [c|].
  - destruct (putSecret _ _ _ _ _) as [k1 r] eqn:Ep. intros H.
    destruct r as [[]| |]; simplify_eq/=. apply putSecret_ok in Ep as (d & -> & Hd). split_and!.
    + exists d. by rewrite lookup_insert_eq.
    + done.
    + intros n Hn. by rewrite lookup_insert_ne.
  - intros H. assert (kube_data k' = delete (filterConfigBundlePartSecretName sha256 gw ns i) (kube_data k) ∧
      parts' = parts) as [-> ->].
    { destruct (kube_Delete _ _) as [k1 r] eqn:Ed. destruct r as [[]|e|].
      - simplify_eq. by apply kube_Delete_ok in Ed.
      - destruct (errors_Is e KubeNotFound) eqn:Ee; simplify_eq.
        split; [by eapply kube_Delete_NotFound|done].
      - done. }
    rewrite lookup_delete_eq. split_and!; [done|by rewrite app_nil_r|].
    intros n Hn. by rewrite lookup_delete_ne.
Qed.

Lemma writeSlots_ok gw ns chunks slots (k k' : K) parts parts' :
  NoDup slots → Forall (λ i, i < maxFilterConfigBundleSlots) slots →
  writeSlots sha256 gw ns chunks slots k parts = (k', Ok parts') →
  Forall (slot_written gw ns chunks k') slots ∧
  parts' = parts ++ mjoin ((λ i, option_list (part_of gw ns i <$> chunks !! i)) <$> slots) ∧
  (∀ n, (∀ i, i ∈ slots → n ≠ filterConfigBundlePartSecretName sha256 gw ns i) →
        kube_data k' !! n = kube_data k !! n).
Proof.
  revert k parts; induction slots as [|i slots IH]; intros k parts Hnd Hlt H; simpl in H.
  { simplify_eq. split_and!; [constructor|by rewrite app_nil_r|done]. }
  apply NoDup_cons in Hnd as [Hi Hnd]. apply Forall_cons in Hlt as [Hli Hlt].
  destruct (writeSlot _ _ _ _ _ _ _) as [k1 [parts1| |]] eqn:Es; [|done..].
  apply writeSlot_ok in Es as (Hw & -> & Hfr).
  destruct (IH _ _ Hnd Hlt H) as (Hall & -> & Hfr'). split_and!.
  - constructor; [|done]. unfold slot_written in *. rewrite Hfr'; [done|].
    intros j Hj Heq. apply part_name_inj in Heq; [by subst|done|done|].
    rewrite Forall_forall in Hlt. by apply Hlt.
  - simpl. by rewrite app_assoc.
  - intros n Hn. rewrite Hfr', Hfr; [done|apply Hn; by left|]. intros j Hj. apply Hn. by right.
Qed.
End WriteProps.

(** ** The watcher: properties *)

Section WatchProps.
Context (sha256 : string → string).
Context (yaml_UnmarshalConfig : string → outcome Config).
Context (yaml_UnmarshalIndex : string → outcome ConfigBundleIndex).
Context {R : Type} (LoadConfig : R → Config → R * outcome unit).

Local Abbreviation check := (loadConfig_check (R := R) sha256 yaml_UnmarshalConfig yaml_UnmarshalIndex).
Local Abbreviation load := (loadConfig sha256 yaml_UnmarshalConfig yaml_UnmarshalIndex LoadConfig).

(** A configuration is acceptable to a watcher when it is the decoding of a
    payload whose checksum the index carries, and has the watcher's version. *)
Definition verified_config (versionStr : string) (cfg : Config) : Prop :=
  ∃ index payload, ToLower (ix_Checksum index) = ConfigBundleChecksum sha256 payload ∧
    yaml_UnmarshalConfig payload = Ok cfg ∧ cfg_Version cfg = versionStr.

Lemma ReassembleBundleConfig_ok index readPart cfg :
  ReassembleBundleConfig sha256 yaml_UnmarshalConfig index readPart = Ok cfg →
  ∃ payload, readParts readPart (ix_Parts index) = Ok payload ∧
    ConfigBundleChecksum sha256 payload = ToLower (ix_Checksum index) ∧
    yaml_UnmarshalConfig payload = Ok cfg.
Proof.
  unfold ReassembleBundleConfig. intros H. apply obind_ok_inv in H as (payload & Hp & H).
  case_bool_decide as Hc; simpl in H; [|done]. apply owrap_ok_inv in H. eauto.
Qed.

Lemma check_some cw fs cfg t :
  check cw fs = Ok (Some (cfg, t)) → verified_config (cw_versionStr cw) cfg ∧ (cw_lastMod cw < t)%Z.
Proof.
  unfold loadConfig_check. intros H.
  apply obind_ok_inv in H as (raw & _ & H). apply obind_ok_inv in H as (m & _ & H).
  apply obind_ok_inv in H as (index & _ & H). apply obind_ok_inv in H as (mx & _ & H).
  case_bool_decide as Ht; [done|]. apply obind_ok_inv in H as (c & Hc & H).
  case_bool_decide as Hv; simpl in H; [|done]. simplify_eq.
  apply ReassembleBundleConfig_ok in Hc as (payload & _ & Hs & Hu).
  split; [|lia]. exists index, payload. by rewrite Hs.
Qed.

(** The three ways a tick can change the watcher. *)
Inductive tick_result (cw cw' : bundleConfigWatcher (R := R)) : Prop :=
| tick_unchanged : cw' = cw → tick_result cw cw'
| tick_refused cfg e :
    verified_config (cw_versionStr cw) cfg →
    LoadConfig (cw_rcv cw) cfg = (cw_rcv cw', e) → is_ok e = false →
    cw_lastMod cw' = cw_lastMod cw → cw_versionStr cw' = cw_versionStr cw → tick_result cw cw'
| tick_loaded cfg :
    verified_config (cw_versionStr cw) cfg →
    LoadConfig (cw_rcv cw) cfg = (cw_rcv cw', Ok tt) →
    (cw_lastMod cw < cw_lastMod cw')%Z → cw_versionStr cw' = cw_versionStr cw → tick_result cw cw'.

Lemma load_tick cw fs : tick_result cw (load cw fs).1.
Proof.
  unfold loadConfig. destruct (loadConfig_check _ _ _ cw fs) as [[[cfg t]|]| |] eqn:E;
    try by apply tick_unchanged.
  apply check_some in E as [Hv Ht].
  destruct (LoadConfig (cw_rcv cw) cfg) as [rcv [[]|e|p]] eqn:El; simpl.
  - by eapply tick_loaded.
  - by eapply tick_refused.
  - by eapply tick_refused.
Qed.

(** The receiver states reachable by offering it verified configurations. *)
Inductive receives (versionStr : string) : R → R → Prop :=
| receives_refl r : receives versionStr r r
| receives_step r r' r'' cfg e :
    receives versionStr r r' → verified_config versionStr cfg →
    LoadConfig r' cfg = (r'', e) → receives versionStr r r''.

(** Whatever the file system answers, and however many ticks pass, the
    receiver is only ever offered configurations whose payload matches the
    checksum in the index and whose version is the binary's; the recorded
    modification time never goes back. *)
Theorem watch_only_verified cw ticks :
  receives (cw_versionStr cw) (cw_rcv cw)
    (cw_rcv (watch sha256 yaml_UnmarshalConfig yaml_UnmarshalIndex LoadConfig cw ticks)) ∧
  (cw_lastMod cw ≤
    cw_lastMod (watch sha256 yaml_UnmarshalConfig yaml_UnmarshalIndex LoadConfig cw ticks))%Z.
Proof.
  cut (∀ cw0, cw_versionStr cw0 = cw_versionStr cw →
    receives (cw_versionStr cw) (cw_rcv cw) (cw_rcv cw0) → (cw_lastMod cw ≤ cw_lastMod cw0)%Z →
    receives (cw_versionStr cw) (cw_rcv cw)
      (cw_rcv (watch sha256 yaml_UnmarshalConfig yaml_UnmarshalIndex LoadConfig cw0 ticks)) ∧
    (cw_lastMod cw ≤
      cw_lastMod (watch sha256 yaml_UnmarshalConfig yaml_UnmarshalIndex LoadConfig cw0 ticks))%Z).
  { intros H. apply H; [done|constructor|lia]. }
  unfold watch. induction ticks as [|fs ticks IH]; intros cw0 Hv Hr Hl; simpl; [done|].
  pose proof (load_tick cw0 fs) as Ht.
  destruct Ht as [->|cfg e Hc He _ Hl' Hv'|cfg Hc He Hl' Hv']; [by apply IH|..];
    (apply IH; [congruence|eapply receives_step; [exact Hr|by rewrite <-Hv|exact He]|lia]).
Qed.

(** A failed load is retried and a successful one is not repeated: when
    a call fails the recorded time is unchanged, and after a call that
    succeeded a second look at unchanged files does nothing. *)
Theorem loadConfig_retry_idempotent cw fs :
  (is_ok (load cw fs).2 = false → cw_lastMod (load cw fs).1 = cw_lastMod cw) ∧
  ((load cw fs).2 = Ok tt → load (load cw fs).1 fs = ((load cw fs).1, Ok tt)).
Proof.
  unfold loadConfig. destruct (loadConfig_check _ _ _ cw fs) as [[[cfg t]|]| |] eqn:E; simpl.
  - destruct (LoadConfig (cw_rcv cw) cfg) as [rcv [[]|e|p]] eqn:El; simpl; [|by split..].
    split; [done|]. intros _.
    assert (check {| cw_lastMod := t; cw_rcv := rcv; cw_versionStr := cw_versionStr cw |} fs = Ok None) as Hc.
    { unfold loadConfig_check in *. revert E.
      destruct (fs_readIndex fs); simpl; [|done..]. destruct (fs_statIndex fs); simpl; [|done..].
      destruct (UnmarshalConfigBundleIndex _ _); simpl; [|done..].
      destruct (maxModTime _ _ _); simpl; [|done..].
      case_bool_decide; [done|]. intros E. apply obind_ok_inv in E as (c & _ & E).
      case_bool_decide; simpl in E; [|done]. simplify_eq. by rewrite bool_decide_true by lia. }
    by rewrite Hc.
  - split; [done|]. intros _. by rewrite E.
  - by split.
  - by split.
Qed.
End WatchProps.

(** ** From the controller to the filter *)

Section EndToEnd.
Context (sha256 : string → string).
Context (sha256_len : ∀ s, String.length (sha256 s) = 32).
Context (yaml_MarshalIndex : ConfigBundleIndex → outcome string).
Context (yaml_UnmarshalConfig : string → outcome Config).
Context (yaml_UnmarshalIndex : string → outcome ConfigBundleIndex).
(** The YAML codec reads back the index it wrote. *)
Context (yaml_index_roundtrip :
  ∀ index raw, yaml_MarshalIndex index = Ok raw → yaml_UnmarshalIndex raw = Ok index).
Context {K : Type} `{!KubeSecrets K, !KubeSecretsLaws K}.

(** The mounted volume shows the stored Secrets at the projected paths. *)
Definition mounts (gw ns : string) (k : K) (fs : FileSystem) : Prop :=
  ∀ name key path opt d v,
    (name, key, path, opt) ∈ bundleProjections sha256 gw ns →
    kube_data k !! name = Some d → d !! key = Some v →
    if bool_decide (path = ConfigBundleIndexFileName) then fs_readIndex fs = Ok v
    else fs_read fs path = Ok v.

Lemma slot_projection gw ns i :
  i < maxFilterConfigBundleSlots →
  (filterConfigBundlePartSecretName sha256 gw ns i, FilterConfigBundlePartKey, ConfigBundlePartPath i, true)
    ∈ bundleProjections sha256 gw ns.
Proof.
  intros Hi. right. apply list_elem_of_fmap. exists i. split; [done|].
  apply elem_of_seq. unfold maxFilterConfigBundleSlots in *. lia.
Qed.

Lemma written_parts gw ns chunks n :
  length chunks ≤ n →
  mjoin ((λ i, option_list (part_of sha256 gw ns i <$> chunks !! i)) <$> seq 0 n) =
    imap (part_of sha256 gw ns) chunks.
Proof.
  intros Hn. revert chunks Hn. induction n as [|n IH] using nat_ind; intros chunks Hn.
  { by destruct chunks; [|simpl in Hn; lia]. }
  rewrite seq_S, fmap_app. rewrite join_app. simpl. rewrite app_nil_r.
  destruct (decide (length chunks ≤ n)) as [Hle|Hgt].
  - rewrite IH by done. rewrite lookup_ge_None_2 by lia. simpl. by rewrite app_nil_r.
  - destruct chunks as [|c chunks _] using rev_ind; [simpl in Hgt; lia|].
    rewrite length_app in *. simpl in *. assert (length chunks = n) as Hl by lia.
    rewrite lookup_app_r by lia. rewrite Hl, Nat.sub_diag. simpl.
    rewrite imap_app. simpl. rewrite Nat.add_0_r, Hl. f_equal.
    rewrite <-(IH chunks) by lia. f_equal. apply list_fmap_ext. intros j i Hi.
    apply lookup_seq in Hi as [-> Hi]. rewrite lookup_app_l by lia. done.
Qed.

Lemma readParts_imap readPart gw ns chunks (f : nat → nat) acc :
  (∀ i c, chunks !! i = Some c →
     readPart {| pt_Name := pt_Name (part_of sha256 gw ns (f i) c);
                 pt_Path := ConfigBundlePartPath (f i); pt_SizeBytes := 0 |} = Ok c) →
  ofold (λ payload part,
    let p := {| pt_Name := pt_Name part; pt_Path := pt_Path part; pt_SizeBytes := 0 |} in
    let! b := owrap ("failed to read bundle part " +:+ Quote (pt_Path p) +:+ ": ") (readPart p) in
    Ok (payload +:+ b)) acc (imap (λ i c, part_of sha256 gw ns (f i) c) chunks) =
  Ok (acc +:+ sconcat chunks).
Proof.
  revert f acc. induction chunks as [|c chunks IH]; intros f acc H; simpl.
  { by rewrite sapp_nil_r. }
  pose proof (H 0 c eq_refl) as H0. simpl in H0. rewrite H0. simpl.
  erewrite (IH (f ∘ S)); [by rewrite <-sapp_assoc|]. intros i c' Hi. by apply (H (S i)).
Qed.

Lemma readParts_written readPart gw ns chunks :
  (∀ i c, chunks !! i = Some c →
     readPart {| pt_Name := pt_Name (part_of sha256 gw ns i c);
                 pt_Path := ConfigBundlePartPath i; pt_SizeBytes := 0 |} = Ok c) →
  readParts readPart (imap (part_of sha256 gw ns) chunks) = Ok (sconcat chunks).
Proof. intros H. apply (readParts_imap readPart gw ns chunks id ""). apply H. Qed.

Lemma maxModTime_ok fs t0 parts :
  (∀ p, is_ok (fs_stat fs p) = true) → ∃ t, maxModTime fs t0 parts = Ok t ∧ (t0 ≤ t)%Z.
Proof.
  intros Hst. unfold maxModTime. revert t0. induction parts as [|p parts IH]; intros t0; simpl.
  { exists t0. split; [done|lia]. }
  destruct (proj1 (is_ok_exists _) (Hst (pt_Path p))) as [t Ht]. rewrite Ht. simpl.
  case_bool_decide.
  - destruct (IH t) as (t' & -> & ?). exists t'. split; [done|lia].
  - apply IH.
Qed.

Lemma checksum_nonempty raw : ConfigBundleChecksum sha256 raw ≠ "".
Proof.
  intros H%(f_equal String.length). unfold ConfigBundleChecksum in H.
  rewrite slength_hex, sha256_len in H. done.
Qed.

(** What a successful write leaves in the cluster. *)
Lemma writeFilterConfigBundle_ok version gw ns payload uuid (k k' : K) :
  writeFilterConfigBundle sha256 yaml_MarshalIndex version gw ns payload uuid k = (k', Ok tt) →
  let chunks := splitBytes payload filterConfigBundlePartSizeBytes in
  let index := {| ix_Version := version; ix_UUID := uuid;
                  ix_Checksum := ConfigBundleChecksum sha256 payload;
                  ix_Parts := imap (part_of sha256 gw ns) chunks |} in
  length chunks ≤ maxFilterConfigBundleSlots ∧
  Forall (slot_written sha256 gw ns chunks k') (seq 0 maxFilterConfigBundleSlots) ∧
  ∃ d raw, yaml_MarshalIndex index = Ok raw ∧
    kube_data k' !! FilterConfigBundleIndexSecretName sha256 gw ns = Some d ∧
    d !! ConfigBundleIndexFileName = Some raw.
Proof.
  intros H chunks index. unfold writeFilterConfigBundle in H. fold chunks in H.
  case_bool_decide as Hlen; [done|]. split; [lia|].
  destruct (writeSlots _ _ _ _ _ _ _) as [k1 [parts| |]] eqn:Ew; [|done..].
  assert (Forall (λ i, i < maxFilterConfigBundleSlots) (seq 0 maxFilterConfigBundleSlots)) as Hsl.
  { apply Forall_forall. intros i Hi. apply elem_of_seq in Hi. lia. }
  destruct (writeSlots_ok sha256 sha256_len _ _ _ _ _ _ _ _ (NoDup_seq _ _) Hsl Ew)
    as (Hall & -> & _).
  rewrite app_nil_l, written_parts in H by lia. fold index in H.
  destruct (yaml_MarshalIndex index) as [raw| |] eqn:Em; simpl in H; [|done..].
  apply putSecret_ok in H as (d & Hd & Hraw). split.
  - rewrite Forall_forall in Hall |- *. intros i Hi. specialize (Hall i Hi).
    apply elem_of_seq in Hi. unfold slot_written in *. rewrite Hd.
    rewrite lookup_insert_ne; [done|]. apply not_eq_sym. apply part_name_ne_index; [done|lia].
  - exists d, raw. by rewrite Hd, lookup_insert_eq.
Qed.

(** The configuration the controller writes is the configuration the
    filter loads: after a successful write, with the Secrets mounted and the
    index newer than the last load, a tick of the watcher reassembles the
    payload from the parts, accepts its checksum and offers the receiver
    exactly the configuration the payload decodes to. *)
Theorem bundle_end_to_end {R} version gw ns payload uuid (k k' : K) fs cfg
    (cw : bundleConfigWatcher (R := R)) t0 :
  writeFilterConfigBundle sha256 yaml_MarshalIndex version gw ns payload uuid k = (k', Ok tt) →
  mounts gw ns k' fs →
  fs_statIndex fs = Ok t0 → (∀ p, is_ok (fs_stat fs p) = true) → (cw_lastMod cw < t0)%Z →
  yaml_UnmarshalConfig payload = Ok cfg → cfg_Version cfg = cw_versionStr cw →
  ∃ t, loadConfig_check sha256 yaml_UnmarshalConfig yaml_UnmarshalIndex cw fs = Ok (Some (cfg, t)) ∧
       (t0 ≤ t)%Z.
Proof.
  intros Hw Hm Hst0 Hst Hnew Hcfg Hver.
  apply writeFilterConfigBundle_ok in Hw as (Hlen & Hall & d & raw & Hraw & Hd & Hdr).
  set (chunks := splitBytes payload filterConfigBundlePartSizeBytes) in *.
  destruct (splitBytes_facts payload _ partSizeBytes_pos) as (Hcat & _ & Hcount). fold chunks in Hcat, Hcount.
  unfold loadConfig_check.
  pose proof (Hm _ _ _ _ _ _ (list_elem_of_here _ _) Hd Hdr) as Hri. simpl in Hri.
  rewrite Hri, Hst0. simpl. unfold UnmarshalConfigBundleIndex.
  rewrite (yaml_index_roundtrip _ _ Hraw). simpl.
  rewrite !bool_decide_false by (apply checksum_nonempty || (rewrite length_imap; lia)). simpl.
  destruct (maxModTime_ok fs t0 (imap (part_of sha256 gw ns) chunks) Hst) as (t & -> & Ht). simpl.
  rewrite bool_decide_false by lia.
  unfold ReassembleBundleConfig. cbn [ix_Parts ix_Checksum].
  rewrite readParts_written; [simpl|].
  - rewrite Hcat. unfold ConfigBundleChecksum. rewrite ToLower_hex.
    rewrite bool_decide_true by done. simpl. rewrite Hcfg. simpl.
    rewrite bool_decide_true by done. simpl. eauto.
  - intros i c Hi. unfold readPartFile. simpl.
    assert (i < maxFilterConfigBundleSlots) as Hi8.
    { apply lookup_lt_Some in Hi. lia. }
    rewrite Forall_forall in Hall. specialize (Hall i).
    unfold slot_written in Hall. rewrite Hi in Hall.
    destruct Hall as (d' & Hd' & Hc); [apply elem_of_seq; lia|].
    pose proof (Hm _ _ _ _ _ _ (slot_projection gw ns i Hi8) Hd' Hc) as Hr.
    rewrite bool_decide_false in Hr by done. by rewrite Hr.
Qed.
End EndToEnd.

(** ** A concrete bundle *)

Module Sample.
(** Secrets in memory. *)
Notation store := (gmap string (gmap string string)).

#[local] Instance kube : KubeSecrets store :=
  {| kube_data k := k;
     kube_Get k n := match k !! n with
                     | Some d => Ok {| sec_Name := n; sec_Data := d; sec_StringData := ∅ |}
                     | None => Fail (errors_Sentinel "not found" KubeNotFound)
                     end;
     kube_Create k s := (<[sec_Name s := sec_StringData s ∪ sec_Data s]> k, Ok tt);
     kube_Update k s := (<[sec_Name s := sec_StringData s ∪ sec_Data s]> k, Ok tt);
     kube_Delete k n := match k !! n with
                        | Some _ => (delete n k, Ok tt)
                        | None => (k, Fail (errors_Sentinel "not found" KubeNotFound))
                        end |}.

#[local] Instance kube_laws : KubeSecretsLaws store.
Proof.
  split; simpl.
  - intros k n s. destruct (k !! n) as [d|] eqn:E; [|done]. intros [= <-]. simpl. auto.
  - by intros k s k' [= <-].
  - by intros k s k' [= <-].
  - intros k n k'. destruct (k !! n) eqn:E; [|done]. by intros [= <-].
  - intros k n k' e. destruct (k !! n) eqn:E; [done|]. intros [= <- _] _. by rewrite delete_id.
Qed.

Definition hash (_ : string) : string := "0123456789abcdef0123456789abcdef".

Definition payload : string := "version: v1".
Definition config : Config :=
  {| cfg_Version := "v1"; cfg_UUID := "u"; cfg_GlobalLLMRequestCosts := []; cfg_LLMRequestCosts := [];
     cfg_Backends := []; cfg_Models := []; cfg_ModelsByHost := ∅; cfg_UnscopedModels := [];
     cfg_FileIDEncryption := None |}.

Definition index : ConfigBundleIndex :=
  {| ix_Version := "v1"; ix_UUID := "u"; ix_Checksum := ConfigBundleChecksum hash payload;
     ix_Parts := [{| pt_Name := filterConfigBundlePartSecretName hash "gw" "ns" 0;
                     pt_Path := ConfigBundlePartPath 0; pt_SizeBytes := String.length payload |}] |}.

#[local] Instance part_eq_dec : EqDecision ConfigBundlePart.
Proof. solve_decision. Defined.
#[local] Instance index_eq_dec : EqDecision ConfigBundleIndex.
Proof. solve_decision. Defined.

(** A codec that knows one index and one configuration. *)
Definition marshalIndex (i : ConfigBundleIndex) : outcome string :=
  if decide (i = index) then Ok "INDEX" else Fail (errors_New "unknown index").
Definition unmarshalIndex (s : string) : outcome ConfigBundleIndex :=
  if decide (s = "INDEX") then Ok index else Fail (errors_New "not an index").
Definition unmarshalConfig (s : string) : outcome Config :=
  if decide (s = payload) then Ok config else Fail (errors_New "not a config").

Definition written : store * outcome unit :=
  Eval vm_compute in writeFilterConfigBundle hash marshalIndex "v1" "gw" "ns" payload "u" (∅ : store).

Definition fs : FileSystem :=
  {| fs_readIndex := Ok "INDEX"; fs_statIndex := Ok 5%Z;
     fs_read p := if decide (p = ConfigBundlePartPath 0) then Ok payload else Fail (errors_New "no file");
     fs_stat _ := Ok 3%Z |}.

Definition watcher : bundleConfigWatcher (R := unit) :=
  {| cw_lastMod := 0; cw_rcv := tt; cw_versionStr := "v1" |}.

Lemma sample_mounts : mounts hash "gw" "ns" written.1 fs.
Proof.
  intros name key path opt d v Hin.
  repeat (apply elem_of_cons in Hin as [Hin|Hin]; [injection Hin as -> -> -> ->|]).
  10: by apply elem_of_nil in Hin.
  all: intros Hd Hv; vm_compute in Hd; try discriminate Hd; injection Hd as <-; vm_compute in Hv;
    injection Hv as <-; vm_compute; reflexivity.
Qed.

Lemma bundle_end_to_end_witness :
  ∃ t, loadConfig_check hash unmarshalConfig unmarshalIndex watcher fs = Ok (Some (config, t)) ∧ (5 ≤ t)%Z.
Proof.
  eapply (bundle_end_to_end hash (λ _, eq_refl) marshalIndex unmarshalConfig unmarshalIndex
    (λ i raw, _) "v1" "gw" "ns" payload "u" (∅ : store) written.1 fs config watcher 5%Z).
  - vm_compute. reflexivity.
  - exact sample_mounts.
  - reflexivity.
  - intros p. reflexivity.
  - reflexivity.
  - reflexivity.
  - reflexivity.
  Unshelve. unfold marshalIndex. case_decide; [|discriminate]. intros [= <-]. by subst.
Defined.

Lemma bundle_secret_names_fit_witness :
  String.length (FilterConfigBundleIndexSecretName hash "gw" "ns") ≤ k8sObjectNameMaxLen ∧
  String.length (filterConfigBundlePartSecretName hash "gw" "ns" 7) ≤ k8sObjectNameMaxLen.
Proof. apply (bundle_secret_names_fit hash (λ _, eq_refl) "gw" "ns" 7). unfold maxFilterConfigBundleSlots. lia. Defined.
End Sample.
