(* ===== verification/HeaderMutator.v ===== *)
(** * Header and body mutation of one upstream attempt

    Models [internal/headermutator/header_mutator.go],
    [internal/bodymutator/body_mutator.go] and
    [internal/translator/header_value_filter.go].  The two [range] loops over Go
    maps take their visiting orders as arguments; the [sjson] functions are
    arguments of the body mutator. *)

From Stdlib Require Import Ascii.
From stdpp Require Import base gmap strings list.
From S2P Require Import Prelude GoStrings InternalApi FilterApi.

(** ** Header mutation *)

Record HeaderMutator := {
  hmu_originalHeaders : gmap string string;
  hmu_headerMutations : option HTTPHeaderMutation;
}.

Definition NewHeaderMutator (headerMutations : option HTTPHeaderMutation)
    (originalHeaders : gmap string string) : HeaderMutator :=
  {| hmu_originalHeaders := originalHeaders; hmu_headerMutations := headerMutations |}.

Definition shouldIgnoreHeader (key : string) : bool :=
  HasPrefix key ":" || HasPrefix key EnvoyAIGatewayHeaderPrefix ||
  EqualFold key EnvoyOriginalPathHeader.

(** The locals of [Mutate]: the shared headers map and the results. *)
Record mutate_state := {
  ms_headers : gmap string string;
  ms_setHeadersSet : gset string;
  ms_sets : list Header;
  ms_removes : list string;
}.

(** [for _, key := range h.headerMutations.Remove]. *)
Definition removeLoop (headers : gmap string string) (Remove : list string) : gset string * list string :=
  foldl (λ '(removedHeadersSet, removes) key,
    if shouldIgnoreHeader key then (removedHeadersSet, removes)
    else ({[key]} ∪ removedHeadersSet,
          if bool_decide (is_Some (headers !! key)) then removes ++ [key] else removes))
    (∅, []) Remove.

(** [for _, h := range h.headerMutations.Set]. *)
Definition setBody (st : mutate_state) (h : string * string) : mutate_state :=
  let key := h.1 in
  if shouldIgnoreHeader key then st
  else {| ms_setHeadersSet := {[key]} ∪ ms_setHeadersSet st;
          ms_headers := <[key := h.2]> (ms_headers st);
          ms_sets := ms_sets st ++ [(key, h.2)];
          ms_removes := ms_removes st |}.

(** [for key, v := range h.originalHeaders]. *)
Definition restoreBody (removedHeadersSet : gset string) (st : mutate_state) (kv : string * string) :
    mutate_state :=
  let '(key, v) := kv in
  if shouldIgnoreHeader key then st
  else
    let isRemoved := bool_decide (key ∈ removedHeadersSet) in
    let isSet := bool_decide (key ∈ ms_setHeadersSet st) in
    let exists_ := bool_decide (is_Some (ms_headers st !! key)) in
    if negb exists_ && negb isSet then
      {| ms_headers := <[key := v]> (ms_headers st);
         ms_setHeadersSet := if isRemoved then ms_setHeadersSet st else {[key]} ∪ ms_setHeadersSet st;
         ms_sets := if isRemoved then ms_sets st else ms_sets st ++ [(key, v)];
         ms_removes := ms_removes st |}
    else st.

(** [for key := range headers]: the body deletes or overwrites the current key
    only, so the keys visited are those of the map at the loop's start. *)
Definition cleanBody (originalHeaders : gmap string string) (removedHeadersSet : gset string)
    (st : mutate_state) (kv : string * string) : mutate_state :=
  let key := kv.1 in
  if shouldIgnoreHeader key then st
  else if bool_decide (key ∈ removedHeadersSet) || bool_decide (key ∈ ms_setHeadersSet st) then st
  else
    match originalHeaders !! key with
    | None =>
        {| ms_headers := delete key (ms_headers st);
           ms_setHeadersSet := ms_setHeadersSet st;
           ms_sets := ms_sets st;
           ms_removes := ms_removes st ++ [key] |}
    | Some originalValue =>
        {| ms_headers := <[key := originalValue]> (ms_headers st);
           ms_setHeadersSet := ms_setHeadersSet st;
           ms_sets := ms_sets st ++ [(key, originalValue)];
           ms_removes := ms_removes st |}
    end.

(** [Mutate] with the visiting orders of its two map ranges; the result is the
    headers map as the call leaves it, [sets] and [removes]. *)
Definition HeaderMutator_Mutate (range1 range2 : gmap string string → list (string * string))
    (h : HeaderMutator) (headers : gmap string string) (onRetry : bool) :
    gmap string string * list Header * list string :=
  let Remove := match hmu_headerMutations h with Some m => hm_Remove m | None => [] end in
  let Set_ := match hmu_headerMutations h with Some m => hm_Set m | None => [] end in
  let '(removedHeadersSet, removes) := removeLoop headers Remove in
  let st := foldl setBody {| ms_headers := headers; ms_setHeadersSet := ∅;
                             ms_sets := []; ms_removes := removes |} Set_ in
  let st :=
    if onRetry then
      let st := foldl (restoreBody removedHeadersSet) st (range1 (hmu_originalHeaders h)) in
      foldl (cleanBody (hmu_originalHeaders h) removedHeadersSet) st (range2 (ms_headers st))
    else st in
  (ms_headers st, ms_sets st, ms_removes st).

(** ** Body mutation *)

Record BodyMutator := {
  bmu_originalBody : option string;
  bmu_bodyMutations : option HTTPBodyMutation;
}.

Definition NewBodyMutator (bodyMutations : option HTTPBodyMutation) (originalBody : option string) : BodyMutator :=
  {| bmu_originalBody := originalBody; bmu_bodyMutations := bodyMutations |}.

(** The receiver may be nil. *)
Definition HasMutations (b : option BodyMutator) : bool :=
  match b with Some b => bool_decide (is_Some (bmu_bodyMutations b)) | None => false end.

Definition is_digit (c : ascii) : bool :=
  (48 <=? nat_of_ascii c) && (nat_of_ascii c <=? 57).

(** A byte a number may hold; a byte of a multi-byte rune is not one. *)
Definition is_number_char (c : ascii) : bool :=
  is_digit c || bool_decide (c ∈ ["."; "-"; "+"; "e"; "E"]%char).

Definition isJSONValue (value : string) : bool :=
  let value := TrimSpace value in
  if HasPrefix value (String (chr 34) "") && HasSuffix value (String (chr 34) "") then true
  else if bool_decide (value ∈ ["0"; "true"; "false"; "null"]) then true
  else if match value with
          | String first _ =>
              (is_digit first || bool_decide (first ∈ ["-"; "+"]%char)) &&
              forallb is_number_char (schars value)
          | EmptyString => false
          end then true
  else if HasPrefix value "{" && HasSuffix value "}" then true
  else if HasPrefix value "[" && HasSuffix value "]" then true
  else false.

(** The functions of [github.com/tidwall/sjson] the mutator calls. *)
Class Sjson := {
  sjson_DeleteBytes : string → string → outcome string;
  sjson_SetRawBytes : string → string → string → outcome string;
  sjson_SetBytes : string → string → string → outcome string;
}.

Section BodyMutate.
Context `{!Sjson}.

(** A body is a byte slice that may be nil; what [sjson] returns is not. *)
Definition removeField (mutatedBody : option string) (fieldName : string) : outcome (option string) :=
  if bool_decide (fieldName ≠ "") then
    let! b := owrap ("failed to remove field " +:+ fieldName +:+ ": ")
                (sjson_DeleteBytes (default "" mutatedBody) fieldName) in
    Ok (Some b)
  else Ok mutatedBody.

Definition setField (mutatedBody : option string) (field : string * string) : outcome (option string) :=
  let '(Path, Value) := field in
  if bool_decide (Path ≠ "") then
    let! b := owrap ("failed to set field " +:+ Path +:+ ": ")
                (if isJSONValue Value then sjson_SetRawBytes (default "" mutatedBody) Path Value
                 else sjson_SetBytes (default "" mutatedBody) Path Value) in
    Ok (Some b)
  else Ok mutatedBody.

Definition BodyMutator_Mutate (b : BodyMutator) (requestBody : option string) : outcome (option string) :=
  match bmu_bodyMutations b with
  | None => Ok requestBody
  | Some m =>
      let! mutatedBody := ofold removeField requestBody (bm_Remove m) in
      ofold setField mutatedBody (bm_Set m)
  end.
End BodyMutate.

(** ** Header value filters *)

Definition parseCommaSeparatedHeader (headers : gmap string string) (name : string) : list string :=
  let raw := mget headers name in
  if bool_decide (raw = "") then []
  else foldl (λ values v,
         let v := TrimSpace v in
         if bool_decide (v ≠ "") then values ++ [v] else values) [] (Split raw ",").

Definition headerValueFilterModeDenylist : string := "Denylist".
Definition headerValueFilterModeAllowlist : string := "Allowlist".

Definition filterHeaderValues (values : list string) (mode : string) (list_ : list string) :
    list string * bool :=
  if bool_decide (length values = 0) || bool_decide (length list_ = 0) then (values, false)
  else
    let run (deny : bool) :=
      let set : gset string := foldl (λ s v, {[v]} ∪ s) ∅ list_ in
      let filtered := foldl (λ filtered v,
        let listed := bool_decide (v ∈ set) in
        let keep := if deny then negb listed else listed in
        if keep : bool then filtered ++ [v] else filtered) [] values in
      (filtered, bool_decide (length filtered ≠ length values)) in
    if bool_decide (mode = headerValueFilterModeDenylist) then run true
    else if bool_decide (mode = headerValueFilterModeAllowlist) then run false
    else (values, false).

(** ** Header mutation: properties *)

(** The headers the configuration asks to set and to remove. *)
Definition wanted_sets (h : HeaderMutator) : list (string * string) :=
  filter (λ p, shouldIgnoreHeader p.1 = false)
    (match hmu_headerMutations h with Some m => hm_Set m | None => [] end).
Definition wanted_removes (h : HeaderMutator) : list string :=
  filter (λ k, shouldIgnoreHeader k = false)
    (match hmu_headerMutations h with Some m => hm_Remove m | None => [] end).

Lemma removeLoop_spec headers l :
  let l' := filter (λ k, shouldIgnoreHeader k = false) l in
  removeLoop headers l = (list_to_set l', filter (λ k, is_Some (headers !! k)) l').
Proof.
  unfold removeLoop. induction l as [|k l IH] using rev_ind; [done|].
  simpl in *. rewrite foldl_app, IH. simpl. rewrite !filter_app, !filter_cons, !filter_nil.
  destruct (shouldIgnoreHeader k) eqn:E; simpl.
  - by rewrite !app_nil_r.
  - rewrite list_to_set_app_L. f_equal; [set_solver|]. rewrite filter_cons, filter_nil.
    case_bool_decide; case_decide; by rewrite ?app_nil_r.
Qed.

Lemma setLoop_spec l hs sets removes :
  let l' := filter (λ p : string * string, shouldIgnoreHeader p.1 = false) l in
  foldl setBody {| ms_headers := hs; ms_setHeadersSet := ∅; ms_sets := sets; ms_removes := removes |} l =
  {| ms_headers := insert_all l' hs; ms_setHeadersSet := list_to_set l'.*1;
     ms_sets := sets ++ l'; ms_removes := removes |}.
Proof.
  induction l as [|[k v] l IH] using rev_ind; simpl in *; [by rewrite app_nil_r|].
  rewrite foldl_app, IH. simpl. rewrite !filter_app, !filter_cons, !filter_nil. unfold setBody. simpl.
  destruct (shouldIgnoreHeader k) eqn:E; simpl.
  - by rewrite !app_nil_r.
  - rewrite insert_all_snoc, fmap_app, list_to_set_app_L, app_assoc. simpl. f_equal. set_solver.
Qed.

(** What the state of [Mutate] says about one key. *)
Definition key_view (k : string) (st : mutate_state) : option string * bool * option string * bool :=
  (ms_headers st !! k, bool_decide (k ∈ ms_setHeadersSet st), last_binding k (ms_sets st),
   bool_decide (k ∈ ms_removes st)).

Definition restore_view (removed : gset string) (w : option string * bool * option string * bool)
    (kv : string * string) : option string * bool * option string * bool :=
  let '(k, v) := kv in
  let '(hd, isSet, bound, rem) := w in
  if shouldIgnoreHeader k then w
  else if negb (bool_decide (is_Some hd)) && negb isSet then
    if bool_decide (k ∈ removed) then (Some v, isSet, bound, rem) else (Some v, true, Some v, rem)
  else w.

Definition clean_view (original : gmap string string) (removed : gset string)
    (w : option string * bool * option string * bool) (kv : string * string) :
    option string * bool * option string * bool :=
  let k := kv.1 in
  let '(hd, isSet, bound, rem) := w in
  if shouldIgnoreHeader k then w
  else if bool_decide (k ∈ removed) || isSet then w
  else match original !! k with
       | None => (None, isSet, bound, true)
       | Some v => (Some v, isSet, Some v, rem)
       end.

Lemma bool_decide_snoc (k k' : string) l :
  bool_decide (k ∈ l ++ [k']) = bool_decide (k ∈ l) || bool_decide (k = k').
Proof.
  rewrite (bool_decide_ext _ (k ∈ l ∨ k = k')) by set_solver. apply bool_decide_or.
Qed.

Lemma bool_decide_union_singleton (k k' : string) (s : gset string) :
  bool_decide (k ∈ {[k']} ∪ s) = bool_decide (k = k') || bool_decide (k ∈ s).
Proof. rewrite (bool_decide_ext _ (k = k' ∨ k ∈ s)) by set_solver. apply bool_decide_or. Qed.

Lemma restoreBody_view removed k st kv :
  key_view k (restoreBody removed st kv) =
  if decide (kv.1 = k) then restore_view removed (key_view k st) kv else key_view k st.
Proof.
  destruct kv as [k' v]. unfold restoreBody, restore_view, key_view. simpl.
  destruct (shouldIgnoreHeader k'); [by case_decide|].
  case_decide as Hk; subst; (destruct (negb _ && negb _) eqn:E; simpl; [|done]).
  - rewrite lookup_insert_eq. destruct (bool_decide (k ∈ removed)); [done|].
    rewrite bool_decide_union_singleton, last_binding_snoc. simpl.
    by rewrite bool_decide_true, decide_True.
  - rewrite lookup_insert_ne by done. destruct (bool_decide (k' ∈ removed)); [done|].
    rewrite bool_decide_union_singleton, last_binding_snoc. simpl.
    by rewrite bool_decide_false, decide_False by done.
Qed.

Lemma cleanBody_view original removed k st kv :
  key_view k (cleanBody original removed st kv) =
  if decide (kv.1 = k) then clean_view original removed (key_view k st) kv else key_view k st.
Proof.
  destruct kv as [k' v]. unfold cleanBody, clean_view, key_view. simpl.
  destruct (shouldIgnoreHeader k'); [by case_decide|].
  case_decide as Hk; subst; (destruct (_ || _) eqn:E; simpl; [done|]).
  - destruct (original !! k); simpl.
    + by rewrite lookup_insert_eq, last_binding_snoc, decide_True.
    + rewrite lookup_delete_eq, bool_decide_snoc. by rewrite (bool_decide_true (k = k)), orb_true_r.
  - destruct (original !! k'); simpl.
    + by rewrite lookup_insert_ne, last_binding_snoc, decide_False by done.
    + rewrite lookup_delete_ne by done. rewrite bool_decide_snoc.
      by rewrite (bool_decide_false (k = k')), orb_false_r by done.
Qed.

Section MutateProps.
Context (range1 range2 : gmap string string → list (string * string)).
Context `{!RangeOrder range1, !RangeOrder range2}.

Lemma restoreLoop_view removed original st k :
  key_view k (foldl (restoreBody removed) st (range1 original)) =
  match original !! k with
  | Some v => restore_view removed (key_view k st) (k, v)
  | None => key_view k st
  end.
Proof.
  rewrite (foldl_local _ fst (key_view k) k (restore_view removed)).
  - rewrite (filter_range range1). by destruct (original !! k).
  - intros s a Ha. rewrite restoreBody_view. by rewrite decide_False.
  - intros s a Ha. rewrite restoreBody_view. by rewrite decide_True.
  - apply (range_NoDup range1).
Qed.

Lemma cleanLoop_view original removed st k :
  key_view k (foldl (cleanBody original removed) st (range2 (ms_headers st))) =
  match ms_headers st !! k with
  | Some v => clean_view original removed (key_view k st) (k, v)
  | None => key_view k st
  end.
Proof.
  rewrite (foldl_local _ fst (key_view k) k (clean_view original removed)).
  - rewrite (filter_range range2). by destruct (ms_headers st !! k).
  - intros s a Ha. rewrite cleanBody_view. by rewrite decide_False.
  - intros s a Ha. rewrite cleanBody_view. by rewrite decide_True.
  - apply (range_NoDup range2).
Qed.

(** What [Mutate] leaves at a key: the headers map, the last value set, whether
    the key is removed. *)
Definition expected_view (h : HeaderMutator) (headers : gmap string string) (onRetry : bool) (k : string) :
    option string * option string * bool :=
  let removed := bool_decide (k ∈ wanted_removes h ∧ is_Some (headers !! k)) in
  if shouldIgnoreHeader k then (headers !! k, None, false)
  else match last_binding k (wanted_sets h) with
  | Some v => (Some v, Some v, removed)
  | None =>
      if negb onRetry then (headers !! k, None, removed)
      else if bool_decide (k ∈ wanted_removes h) then
        (match headers !! k with Some v => Some v | None => hmu_originalHeaders h !! k end, None, removed)
      else
        match hmu_originalHeaders h !! k with
        | Some v => (Some v, Some v, false)
        | None => (None, None, bool_decide (is_Some (headers !! k)))
        end
  end.

Lemma wanted_sets_ignored h k : shouldIgnoreHeader k = true → last_binding k (wanted_sets h) = None.
Proof.
  intros Hk. apply last_binding_None. intros [p [-> Hp]]%list_elem_of_fmap.
  apply list_elem_of_filter in Hp as [Hp _]. congruence.
Qed.

Lemma wanted_removes_ignored h k : shouldIgnoreHeader k = true → k ∉ wanted_removes h.
Proof. intros Hk [Hp _]%list_elem_of_filter. congruence. Qed.

Lemma Mutate_view h headers onRetry k :
  let '(headers', sets, removes) := HeaderMutator_Mutate range1 range2 h headers onRetry in
  (headers' !! k, last_binding k sets, bool_decide (k ∈ removes)) = expected_view h headers onRetry k.
Proof.
  unfold HeaderMutator_Mutate. rewrite removeLoop_spec, setLoop_spec.
  fold (wanted_removes h) (wanted_sets h). rewrite app_nil_l.
  set (st0 := {| ms_headers := _ |}).
  set (st := if onRetry then _ else _).
  cut (key_view k st = (let '(a, b, c) := expected_view h headers onRetry k in (a, (key_view k st).1.1.2, b, c))).
  { unfold key_view. destruct (expected_view _ _ _ _) as [[a b] c]. intros H. by simplify_eq. }
  assert (Hst0 : key_view k st0 =
    (match last_binding k (wanted_sets h) with Some v => Some v | None => headers !! k end,
     bool_decide (is_Some (last_binding k (wanted_sets h))), last_binding k (wanted_sets h),
     bool_decide (k ∈ wanted_removes h ∧ is_Some (headers !! k)))).
  { unfold key_view, st0; simpl. rewrite lookup_insert_all. f_equal; [do 2 f_equal|].
    - apply bool_decide_ext. rewrite elem_of_list_to_set, <-not_eq_None_Some, last_binding_None.
      split; [tauto|]. apply dec_stable.
    - apply bool_decide_ext. rewrite list_elem_of_filter. tauto. }
  pose proof (wanted_sets_ignored h k) as Hs. pose proof (wanted_removes_ignored h k) as Hr.
  assert (Hv : key_view k st = if onRetry then
    let w := match hmu_originalHeaders h !! k with
             | Some v => restore_view (list_to_set (wanted_removes h)) (key_view k st0) (k, v)
             | None => key_view k st0 end in
    match w.1.1.1 with
    | Some v => clean_view (hmu_originalHeaders h) (list_to_set (wanted_removes h)) w (k, v)
    | None => w end else key_view k st0).
  { unfold st. destruct onRetry; [|done]. rewrite cleanLoop_view. rewrite !restoreLoop_view.
    rewrite <-(restoreLoop_view (list_to_set (wanted_removes h)) (hmu_originalHeaders h) st0 k). done. }
  rewrite Hv, Hst0. clear Hv Hst0 st st0. unfold expected_view.
  rewrite <-(bool_decide_ext (k ∈ (list_to_set (wanted_removes h) : gset string)) (k ∈ wanted_removes h))
    by set_solver.
  destruct (shouldIgnoreHeader k) eqn:Ei.
  - rewrite Hs by done. rewrite (bool_decide_false (_ ∧ _)) by (by intros [? _]; apply Hr).
    unfold restore_view, clean_view. simpl. rewrite Ei.
    destruct onRetry, (hmu_originalHeaders h !! k), (headers !! k); done.
  - unfold restore_view, clean_view. simpl. rewrite Ei. clear Hs Hr.
    destruct (last_binding k (wanted_sets h)), onRetry, (hmu_originalHeaders h !! k), (headers !! k);
      simpl; repeat (case_bool_decide; simpl); set_solver.
Qed.
End MutateProps.

(** The header an upstream sees at a key once Envoy has applied the mutation of
    an attempt (removals, then sets) to the request headers. *)
Definition upstream_header (headers : gmap string string) (sets : list Header) (removes : list string)
    (k : string) : option string :=
  match last_binding k sets with
  | Some v => Some v
  | None => if bool_decide (k ∈ removes) then None else headers !! k
  end.

Section MutateTheorems.
Context (range1 range2 : gmap string string → list (string * string)).
Context `{!RangeOrder range1, !RangeOrder range2}.

(** C34: whatever order the maps are visited in, and whatever a previous attempt
    left in the headers, the upstream of an attempt gets for every key the
    gateway does not manage: the value the configuration sets; otherwise
    nothing when the configuration removes it; otherwise the client's original
    value on a retry and the current value on a first attempt.  Headers the
    gateway manages pass unchanged. *)
Theorem HeaderMutator_Mutate_upstream h headers onRetry k :
  let '(_, sets, removes) := HeaderMutator_Mutate range1 range2 h headers onRetry in
  upstream_header headers sets removes k =
    if shouldIgnoreHeader k then headers !! k
    else match last_binding k (wanted_sets h) with
         | Some v => Some v
         | None =>
             if bool_decide (k ∈ wanted_removes h) then None
             else if onRetry then hmu_originalHeaders h !! k else headers !! k
         end.
Proof.
  pose proof (Mutate_view range1 range2 h headers onRetry k) as H.
  destruct (HeaderMutator_Mutate _ _ _ _ _) as [[headers' sets] removes].
  unfold expected_view in H. unfold upstream_header. revert H.
  generalize (last_binding k sets), (bool_decide (k ∈ removes)). intros bound rem.
  destruct (shouldIgnoreHeader k), onRetry, (last_binding k (wanted_sets h)),
    (hmu_originalHeaders h !! k), (headers !! k) eqn:Eh;
    simpl; repeat (case_bool_decide; simpl); intros; simplify_eq; naive_solver.
Qed.

(** The local headers map keeps what metrics and costs read: a header the
    configuration removes upstream stays readable, restored from the original
    request on a retry, and a header a previous attempt added is gone. *)
Theorem HeaderMutator_Mutate_local h headers k :
  let '(headers', _, _) := HeaderMutator_Mutate range1 range2 h headers true in
  shouldIgnoreHeader k = false →
  headers' !! k =
    match last_binding k (wanted_sets h) with
    | Some v => Some v
    | None =>
        if bool_decide (k ∈ wanted_removes h) then
          match headers !! k with Some v => Some v | None => hmu_originalHeaders h !! k end
        else hmu_originalHeaders h !! k
    end.
Proof.
  pose proof (Mutate_view range1 range2 h headers true k) as H.
  destruct (HeaderMutator_Mutate _ _ _ _ _) as [[headers' sets] removes]. intros Hi.
  unfold expected_view in H. rewrite Hi in H. revert H. simpl.
  destruct (last_binding k (wanted_sets h)), (hmu_originalHeaders h !! k); simpl;
    repeat (case_bool_decide; simpl); intros; by simplify_eq.
Qed.
End MutateTheorems.

(** A retry after an attempt that added a header and changed another. *)
Example retry_example :
  let m := {| hm_Set := [("x-team", "a"); (":path", "/evil")]; hm_Remove := ["authorization"] |} in
  let original := <["authorization" := "client"]> (<["x-keep" := "1"]> (<[":path" := "/v1"]> ∅)) in
  let attempt := <["authorization" := "client"]> (<["x-keep" := "2"]> (<["x-added" := "z"]> (<[":path" := "/up"]> ∅))) in
  let '(headers', sets, removes) :=
    HeaderMutator_Mutate map_to_list map_to_list (NewHeaderMutator (Some m) original) attempt true in
  (upstream_header attempt sets removes <$> ["x-team"; ":path"; "authorization"; "x-keep"; "x-added"]) =
    [Some "a"; Some "/up"; None; Some "1"; None] ∧
  headers' !! "authorization" = Some "client".
Proof. vm_compute. done. Qed.

Lemma HeaderMutator_Mutate_upstream_witness :
  let h := NewHeaderMutator (Some {| hm_Set := [("x-team", "a")]; hm_Remove := ["authorization"] |})
             {["authorization" := "client"]} in
  let attempt := <["authorization" := "client"]> {["x-added" := "z"]} in
  let '(_, sets, removes) := HeaderMutator_Mutate map_to_list map_to_list h attempt true in
  upstream_header attempt sets removes "x-added" = None.
Proof.
  refine (HeaderMutator_Mutate_upstream map_to_list map_to_list
    (NewHeaderMutator (Some {| hm_Set := [("x-team", "a")]; hm_Remove := ["authorization"] |})
       {["authorization" := "client"]})
    (<["authorization" := "client"]> {["x-added" := "z"]}) true "x-added").
Defined.

Lemma HeaderMutator_Mutate_local_witness :
  let m := {| hm_Set := []; hm_Remove := ["authorization"] |} in
  let '(headers', _, _) :=
    HeaderMutator_Mutate map_to_list map_to_list
      (NewHeaderMutator (Some m) {["authorization" := "client"]}) {["x-added" := "z"]} true in
  headers' !! "authorization" = Some "client" ∧ headers' !! "x-added" = None.
Proof.
  split; refine (HeaderMutator_Mutate_local map_to_list map_to_list
    (NewHeaderMutator (Some {| hm_Set := []; hm_Remove := ["authorization"] |}) {["authorization" := "client"]})
    {["x-added" := "z"]} _ _); reflexivity.
Defined.

(** ** Header value filters: properties *)

Lemma foldl_filter {A} (P : A → Prop) `{∀ x, Decision (P x)} (f : list A → A → list A) l acc :
  (∀ acc a, f acc a = if decide (P a) then acc ++ [a] else acc) →
  foldl f acc l = acc ++ filter P l.
Proof.
  intros Hf. revert acc. induction l as [|a l IH]; intros acc; simpl; [by rewrite app_nil_r|].
  rewrite IH, Hf, filter_cons. case_decide; [|done]. by rewrite <-app_assoc.
Qed.

Lemma filter_length_full {A} (P : A → Prop) `{∀ x, Decision (P x)} (l : list A) :
  length (filter P l) = length l → filter P l = l.
Proof.
  induction l as [|a l IH]; [done|]. rewrite filter_cons. case_decide; simpl.
  - intros. by rewrite IH by lia.
  - intros Hl. pose proof (length_filter P l). lia.
Qed.

Lemma elem_of_set_of (v : string) (l : list string) (s : gset string) :
  v ∈ foldl (λ s v, {[v]} ∪ s) s l ↔ v ∈ l ∨ v ∈ s.
Proof. revert s. induction l as [|a l IH]; intros s; simpl; [set_solver|]. rewrite IH. set_solver. Qed.

(** The filter keeps, in order, exactly the values its mode admits, leaves
    the input alone when it has nothing to filter with or an unknown mode, and
    reports a change exactly when the list changed. *)
Theorem filterHeaderValues_spec values mode list_ :
  filterHeaderValues values mode list_ =
    (let r := if bool_decide (list_ = []) then values
              else if bool_decide (mode = headerValueFilterModeDenylist) then filter (.∉ list_) values
              else if bool_decide (mode = headerValueFilterModeAllowlist) then filter (.∈ list_) values
              else values in
     (r, bool_decide (r ≠ values))).
Proof.
  unfold filterHeaderValues.
  rewrite (bool_decide_ext (length list_ = 0) (list_ = [])) by (by destruct list_).
  case_bool_decide as Hv; [apply nil_length_inv in Hv as ->; cbn; repeat case_bool_decide; done|].
  simpl. case_bool_decide as Hl; [by rewrite bool_decide_false by naive_solver|].
  assert (Hch : ∀ (P : string → Prop) `{∀ x, Decision (P x)},
    bool_decide (length (filter P values) ≠ length values) = bool_decide (filter P values ≠ values)).
  { intros P ?. apply bool_decide_ext. split; [congruence|]. intros Hne Hlen. by apply Hne, filter_length_full. }
  case_bool_decide as Hd; [|case_bool_decide as Ha; [|by rewrite bool_decide_false by naive_solver]].
  - rewrite (foldl_filter (.∉ list_)), app_nil_l; [by rewrite Hch|].
    intros acc v. case_bool_decide as E; rewrite elem_of_set_of in E; simpl; case_decide; set_solver.
  - rewrite (foldl_filter (.∈ list_)), app_nil_l; [by rewrite Hch|].
    intros acc v. case_bool_decide as E; rewrite elem_of_set_of in E; simpl; case_decide; set_solver.
Qed.

(** ** Body mutation: properties *)

(** The number grammar of RFC 8259 as an automaton:
    [ -? (0 | [1-9][0-9]* ) ( . [0-9]+ )? ( [eE] [-+]? [0-9]+ )? ]. *)
Inductive num_state := NStart | NMinus | NZero | NInt | NDot | NFrac | NE | NESign | NExp.

Definition num_step (q : num_state) (c : ascii) : option num_state :=
  let digit := is_digit c in
  let one (l : list ascii) := bool_decide (c ∈ l) in
  match q with
  | NStart => if one ["-"%char] then Some NMinus else if one ["0"%char] then Some NZero
              else if digit then Some NInt else None
  | NMinus => if one ["0"%char] then Some NZero else if digit then Some NInt else None
  | NZero => if one ["."%char] then Some NDot else if one ["e"; "E"]%char then Some NE else None
  | NInt => if digit then Some NInt else if one ["."%char] then Some NDot
            else if one ["e"; "E"]%char then Some NE else None
  | NDot => if digit then Some NFrac else None
  | NFrac => if digit then Some NFrac else if one ["e"; "E"]%char then Some NE else None
  | NE => if digit then Some NExp else if one ["+"; "-"]%char then Some NESign else None
  | NESign | NExp => if digit then Some NExp else None
  end.

Fixpoint num_run (q : num_state) (s : string) : bool :=
  match s with
  | EmptyString => match q with NZero | NInt | NFrac | NExp => true | _ => false end
  | String c s => match num_step q c with Some q' => num_run q' s | None => false end
  end.

Definition json_number (s : string) : bool := num_run NStart s.

Lemma num_step_char q c : is_number_char c = false → num_step q c = None.
Proof. destruct c as [[] [] [] [] [] [] [] []]; vm_compute; intros; by destruct q. Qed.

Lemma num_start_char c :
  is_Some (num_step NStart c) → is_digit c || bool_decide (c ∈ ["-"; "+"]%char) = true.
Proof. destruct c as [[] [] [] [] [] [] [] []]; vm_compute; try done; by intros [? [=]]. Qed.

Lemma num_run_chars q s : num_run q s = true → forallb is_number_char (schars s) = true.
Proof.
  revert q. induction s as [|c s IH]; intros q H; [done|]. simpl in *.
  destruct (is_number_char c) eqn:E; [|by rewrite num_step_char in H]. simpl.
  destruct (num_step q c); [eauto|done].
Qed.

Lemma number_char_graphic c : is_number_char c = true → is_graphic c = true.
Proof. revert c. intros [[] [] [] [] [] [] [] []]; vm_compute; intros; congruence. Qed.

(** Every JSON number is recognised as a JSON value, so the mutator writes
    it into the body as a number and not as a string. *)
Theorem isJSONValue_number s : json_number s = true → isJSONValue s = true.
Proof.
  intros Hn. pose proof (num_run_chars _ _ Hn) as Hc. unfold isJSONValue.
  rewrite TrimSpace_graphic.
  2: { rewrite forallb_forall in Hc. apply Forall_forall.
       intros c Hin. apply number_char_graphic, Hc, list_elem_of_In, Hin. }
  destruct s as [|c s]; [done|]. unfold json_number in Hn. cbn [num_run] in Hn.
  destruct (num_step NStart c) eqn:E; [|done].
  rewrite (num_start_char c) by (by rewrite E).
  rewrite Hc. repeat case_match; done.
Qed.

Lemma isJSONValue_number_witness : json_number "-12.5e+3" = true ∧ isJSONValue "-12.5e+3" = true.
Proof. split; [reflexivity|]. apply (isJSONValue_number "-12.5e+3"). reflexivity. Defined.

(** The converse fails: strings of digits and signs that are not JSON, such
    as a date or a version, are also taken for JSON values, and are then written
    raw into the body. *)
Theorem isJSONValue_takes_dates :
  Forall (λ s, isJSONValue s = true ∧ json_number s = false) ["2024-01-01"; "1.2.3"; "+5"; "-"; "007"].
Proof. repeat constructor. Qed.

(** A mutator without configuration returns its input. *)
Lemma BodyMutator_Mutate_noop `{!Sjson} b body :
  HasMutations (Some b) = false → BodyMutator_Mutate b body = Ok body.
Proof.
  unfold HasMutations, BodyMutator_Mutate. destruct (bmu_bodyMutations b); [|done].
  by case_bool_decide; [|naive_solver].
Qed.
