(* ===== verification/EnvoyTypes.v ===== *)
(** * Envoy and protobuf data the data plane exchanges

    The [structpb.Value] tree of dynamic metadata and attributes, and the
    messages of the [ext_proc] protocol, with the fields the sources read or
    write.  Generated protobuf accessors on a nil receiver return the zero
    value, which is what the accessors below do. *)

From stdpp Require Import base gmap strings list.
From S2P Require Import Prelude GoStrings GoNum.

(** ** [google.protobuf.Value] *)

Inductive Value :=
| VNull
| VNumber (n : float64)
| VString (s : string)
| VBool (b : bool)
| VStruct (fields : gmap string Value)
| VList (values : list Value).

Notation Struct := (gmap string Value).

Definition GetStringValue (v : option Value) : string :=
  match v with Some (VString s) => s | _ => "" end.

(** Fields of [v.GetStructValue().GetFields()]. *)
Definition GetStructFields (v : option Value) : Struct :=
  match v with Some (VStruct m) => m | _ => ∅ end.

(** [structpb.NewNumberValue(float64(n))] of an unsigned integer. *)
Definition NewNumberValue_Z (n : Z) : Value := VNumber (f64_of_Z n).

(** [corev3.Metadata], by filter namespace. *)
Definition Metadata : Type := gmap string Struct.

(** ** [ext_proc] messages *)

Inductive HeaderAppendAction := APPEND_IF_EXISTS_OR_ADD | OVERWRITE_IF_EXISTS_OR_ADD.

(** [corev3.HeaderValueOption] with its key and raw value. *)
Record HeaderValueOption := {
  hvo_AppendAction : HeaderAppendAction;
  hvo_Key : string;
  hvo_RawValue : string;
}.

Record HeaderMutation := {
  hmut_SetHeaders : list HeaderValueOption;
  hmut_RemoveHeaders : list string;
}.

Definition emptyHeaderMutation : HeaderMutation :=
  {| hmut_SetHeaders := []; hmut_RemoveHeaders := [] |}.

Definition addSetHeaders (m : HeaderMutation) (l : list HeaderValueOption) : HeaderMutation :=
  {| hmut_SetHeaders := hmut_SetHeaders m ++ l; hmut_RemoveHeaders := hmut_RemoveHeaders m |}.
Definition addRemoveHeaders (m : HeaderMutation) (l : list string) : HeaderMutation :=
  {| hmut_SetHeaders := hmut_SetHeaders m; hmut_RemoveHeaders := hmut_RemoveHeaders m ++ l |}.

(** A header option that overwrites. *)
Definition overwrite (h : string * string) : HeaderValueOption :=
  {| hvo_AppendAction := OVERWRITE_IF_EXISTS_OR_ADD; hvo_Key := h.1; hvo_RawValue := h.2 |}.

(** [extprocv3.BodyMutation]: the [Body] alternative of the oneof, when set;
    [GetBody] is nil otherwise. *)
Record BodyMutation := { bmut_Body : option string }.

Inductive ResponseStatus := CONTINUE | CONTINUE_AND_REPLACE.

Record CommonResponse := {
  cm_HeaderMutation : option HeaderMutation;
  cm_BodyMutation : option BodyMutation;
  cm_Status : ResponseStatus;
  cm_ClearRouteCache : bool;
}.

Record ImmediateResponse := {
  im_Status : Z;
  im_Headers : HeaderMutation;
  im_Body : string;
  im_GrpcStatus : Z;
}.

(** The oneof of [extprocv3.ProcessingResponse]; the inner message may be nil,
    and so may its [Response]. *)
Inductive Response :=
| RespRequestHeaders (r : option (option CommonResponse))
| RespRequestBody (r : option (option CommonResponse))
| RespResponseHeaders (r : option (option CommonResponse))
| RespResponseBody (r : option (option CommonResponse))
| RespImmediate (r : ImmediateResponse).

Record ProcessingResponse := {
  pr_Response : Response;
  pr_DynamicMetadata : option Struct;
  (** [ModeOverride] with [ResponseBodyMode: STREAMED]. *)
  pr_StreamedMode : bool;
}.

(** A response that carries nothing else. *)
Definition plainResponse (r : Response) : ProcessingResponse :=
  {| pr_Response := r; pr_DynamicMetadata := None; pr_StreamedMode := false |}.

(** [extprocv3.HttpBody]; [Body] may be nil. *)
Record HttpBody := { hb_Body : option string; hb_EndOfStream : bool }.

(** [corev3.HeaderMap]: the key, the string value and the raw value of each header. *)
Definition HeaderMap : Type := list (string * string * string).

(** [headersToMap] of [internal/extproc/server.go]: the last value of a key
    wins, and a raw value that is not UTF-8 is dropped. *)
Definition headersToMap (headers : HeaderMap) : gmap string string :=
  foldl (λ hdrs '(key, value, rawValue),
    if bool_decide (value ≠ "") then <[key := value]> hdrs
    else if utf8_Valid rawValue then <[key := rawValue]> hdrs
    else hdrs) ∅ headers.
