(* ===== verification/QuotaRoutes.v ===== *)
(** * Quota enforcement on Envoy routes

    Models [internal/extensionserver/quota_ratelimit.go], with
    [isRouteGeneratedByAIGateway] and [findListenerRouteConfigs] of
    [post_translate_modify.go]: the rate limit actions a QuotaPolicy puts on the
    routes of its backends, and the filter and the cluster they need.  Of the Envoy
    messages the fields that are read or written are kept; a filter chain is given
    by the connection manager [findHCM] finds in it.  The Kubernetes client and the
    marshalling of messages are classes; logging is left out. *)

From Stdlib Require Import Ascii ZArith NArith Lia.
From stdpp Require Import base gmap strings list.
From S2P Require Import Prelude GoStrings GoNum InternalApi Kube RateLimit GoCodec EnvoyTypes.

Definition quotaRateLimitClusterName : string := "ai_gateway_ratelimit_cluster".
Definition quotaRateLimitFilterName : string := "envoy.filters.http.ratelimit/ai-gateway-quota".
Definition quotaCostMetadataKey : string := "quota_cost".
Definition wellknown_Router : string := "envoy.filters.http.router".

(** ** Envoy messages *)

Inductive StringMatcher := SafeRegex (regex : string) | ExactMatch (s : string).

(** [routev3.RateLimit_Action]; [MetaData] reads dynamic metadata. *)
Inductive RateLimit_Action :=
| GenericKey (descriptorKey descriptorValue : string)
| MetaData (descriptorKey namespace key : string)
| RequestHeaders (headerName descriptorKey : string)
| HeaderValueMatch (descriptorKey descriptorValue : string) (expectMatch : bool) (headerName : string) (matcher : StringMatcher).

Inductive HitsAddend := HitsNumber (n : N) | HitsFormat (format : string).

(** [routev3.RateLimit]; the limit override reads dynamic metadata. *)
Record RateLimitEntry := {
  re_Actions : list RateLimit_Action;
  re_HitsAddend : HitsAddend;
  re_Limit : option QuotaLimitFromMetadata;
  re_ApplyOnStreamDone : bool;
}.

(** A typed filter configuration of a route: that of the quota filter, one that turns
    an external processor on or off, or another. *)
Inductive PerFilterConfig :=
| RateLimitPerRoute (domain : string) (rateLimits : list RateLimitEntry)
| ExtProcEnabled
| ExtProcDisabled
| OtherPerRoute (any : string).

Inductive ClusterSpecifier := SingleCluster (name : string) | WeightedClusters (names : list string) | OtherSpecifier.

Record Route := {
  ro_Name : string;
  ro_Metadata : option Metadata;
  ro_Action : option ClusterSpecifier;
  ro_TypedPerFilterConfig : gmap string PerFilterConfig;
  ro_AutoHostRewrite : option bool;
  ro_PerTryIdleTimeout : option Z;
  ro_RequestHeadersToAdd : list (string * string);
}.

Record VirtualHost := { vh_Name : string; vh_Domains : list string; vh_Metadata : option Metadata; vh_Routes : list Route }.
Record RouteConfiguration := { rcf_Name : string; rcf_VirtualHosts : list VirtualHost }.

Record RateLimitFilter := { rf_Domain : string; rf_Cluster : string; rf_Timeout : Z; rf_FailureModeDeny : bool }.

(** The fields of [extprocv3.ExternalProcessor]. *)
Inductive BodySendMode := BodyNone | BodyBuffered | BodyFullDuplexStreamed.
Inductive HeaderSendMode := HeaderDefault | HeaderSend | HeaderSkip.
Record ExternalProcessor := {
  xp_Cluster : string;
  xp_Authority : string;
  xp_Timeout : option Z;
  xp_ReceivingNamespaces : list string;
  xp_ForwardingNamespaces : list string;
  xp_RequestAttributes : list string;
  xp_RequestHeaderMode : HeaderSendMode;
  xp_RequestBodyMode : BodySendMode;
  xp_RequestTrailerMode : HeaderSendMode;
  xp_ResponseHeaderMode : HeaderSendMode;
  xp_ResponseBodyMode : BodySendMode;
  xp_ResponseTrailerMode : HeaderSendMode;
  xp_MessageTimeout : Z;
  xp_FailureModeAllow : bool;
  xp_AllowModeOverride : bool;
}.

(** A rule of the header-to-metadata filter: a header, the namespace, the key and
    whether the header is removed. *)
Record HeaderToMetadataRule := { hm_Header : string; hm_Namespace : string; hm_Key : string; hm_Remove : bool }.

Inductive FilterConfig :=
| QuotaFilter (f : RateLimitFilter)
| ExtProcFilter (p : ExternalProcessor)
| HeaderToMetadata (rules : list HeaderToMetadataRule)
| AddIfAbsent (key value : string)
| UpstreamCodec
| RouterFilter
| OtherFilter (any : string).
Record HttpFilter := { hf_Name : string; hf_Disabled : bool; hf_Config : FilterConfig }.

(** The connection manager of a filter chain, with the name of its routes. *)
Record HttpConnectionManager := {
  hcm_HttpFilters : list HttpFilter;
  hcm_Rds : option string;
  hcm_SchemeMatchUpstream : bool;
  hcm_AccessLog : list string;
}.
Record FilterChain := { fc_HCM : option HttpConnectionManager }.
Record Listener := { ln_Name : string; ln_Address : option (string * Z); ln_FilterChains : list FilterChain; ln_DefaultFilterChain : option FilterChain }.

(** A transport socket, or one that goes through a proxy. *)
Inductive TransportSocket := Socket (name any : string) | Http11Proxy (inner : option TransportSocket) (host : string) (port : Z).

(** An endpoint: its hostname, and its socket address or the path of its pipe. *)
Record Endpoint := { en_Hostname : string; en_Address : string; en_Port : N; en_Pipe : string }.
Record LbEndpoint := { le_Endpoint : option Endpoint; le_Metadata : option Metadata }.
Record LocalityLbEndpoints := { ll_Priority : Z; ll_LbEndpoints : list LbEndpoint }.

Record HttpProtocolOptions := { po_Http2 : bool; po_HttpFilters : list HttpFilter }.

(** The protocol options may be bytes that do not decode. *)
Record Cluster := {
  cl_Name : string;
  cl_Type : string;
  cl_LbPolicy : string;
  cl_ConnectTimeout : Z;
  cl_Http2 : bool;
  cl_OriginalDstHeader : option string;
  cl_Metadata : option Metadata;
  cl_LoadAssignment : option (list LocalityLbEndpoints);
  cl_TransportSocket : option TransportSocket;
  cl_TransportSocketMatches : list (option TransportSocket);
  cl_ProtocolOptions : option (string + HttpProtocolOptions);
}.

(** A cluster with one address. *)
Definition endpointCluster (name type lbPolicy : string) (connectTimeout : Z) (http2 : bool) (e : Endpoint) (socket : option TransportSocket)
    (options : option HttpProtocolOptions) : Cluster :=
  {| cl_Name := name; cl_Type := type; cl_LbPolicy := lbPolicy; cl_ConnectTimeout := connectTimeout; cl_Http2 := http2; cl_OriginalDstHeader := None;
     cl_Metadata := None;
     cl_LoadAssignment := Some [{| ll_Priority := 0; ll_LbEndpoints := [{| le_Endpoint := Some e; le_Metadata := None |}] |}];
     cl_TransportSocket := socket; cl_TransportSocketMatches := []; cl_ProtocolOptions := inr <$> options |}.

(** ** Actions *)

Definition headerMatchKeyValue (header : HeaderMatch) : string := if isDistinct header then "" else default "" (hm_Value header).

Definition buildStringMatcher (header : HeaderMatch) : StringMatcher :=
  match hm_Value header with
  | Some v =>
      if bool_decide (default HeaderMatchExact (hm_Type header) = HeaderMatchRegularExpression) then SafeRegex v else ExactMatch v
  | None => ExactMatch ""
  end.

Definition buildHeaderMatchAction (ruleIndex matchIndex : nat) (header : HeaderMatch) : RateLimit_Action :=
  let descriptorKey := BucketRuleDescriptorKey ruleIndex matchIndex (hm_Name header) (headerMatchKeyValue header) in
  if isDistinct header then RequestHeaders (hm_Name header) descriptorKey
  else HeaderValueMatch descriptorKey descriptorKey (bool_decide (hm_Invert header ≠ Some true)) (hm_Name header) (buildStringMatcher header).

Definition buildStreamDoneHeaderMatchAction (ruleIndex matchIndex : nat) (header : HeaderMatch) : RateLimit_Action :=
  let descriptorKey := BucketRuleDescriptorKey ruleIndex matchIndex (hm_Name header) (headerMatchKeyValue header) in
  if isDistinct header then RequestHeaders (hm_Name header) descriptorKey
  else HeaderValueMatch descriptorKey descriptorKey true (hm_Name header) (buildStringMatcher header).

Definition baseDescriptorActions : list RateLimit_Action :=
  [MetaData BackendNameDescriptorKey AIGatewayFilterMetadataNamespace "ai_service_backend_name";
   MetaData ModelNameDescriptorKey AIGatewayFilterMetadataNamespace "model_name_override"].

Definition requestTimeBaseActions (namespace backendName modelName : string) : list RateLimit_Action :=
  [GenericKey BackendNameDescriptorKey (NamespacedNameKey namespace backendName); GenericKey ModelNameDescriptorKey modelName].

Definition quotaHitsAddend : HitsAddend :=
  HitsFormat ("%DYNAMIC_METADATA(" +:+ AIGatewayFilterMetadataNamespace +:+ ":" +:+ quotaCostMetadataKey +:+ ")%").
Definition zeroQuotaHitsAddend : HitsAddend := HitsNumber 0.

Definition buildQuotaLimitOverride (quota : QuotaValue) : option QuotaLimitFromMetadata := qv_FromMetadata quota.

(** Strings after the last slash. *)
Definition afterLastSlash (s : string) : option string :=
  match Split s "/" with
  | [_] => None
  | parts => last parts
  end.

Definition resolveModelName (backendName fallback : string) (routeModelNames : gmap string (list string)) : string :=
  let found key := match routeModelNames !! key with Some models => list_find (λ m, m = fallback) models | None => None end in
  match found backendName with
  | Some (_, m) => m
  | None =>
      match afterLastSlash backendName with
      | Some short => match found short with Some (_, m) => m | None => fallback end
      | None => fallback
      end
  end.

Section Actions.
Context `{SH : !SortHeaders}.

Definition flattenAndSortClientSelectorHeaders (selectors : list RateLimitSelectCondition) : list HeaderMatch :=
  sort_headers (selectors ≫= sel_Headers).

Definition clientActions (build : nat → nat → HeaderMatch → RateLimit_Action) (ruleIndex : nat)
    (selectors : list RateLimitSelectCondition) : list RateLimit_Action :=
  match flattenAndSortClientSelectorHeaders selectors with
  | [] => let key := BucketRuleDescriptorKey ruleIndex 0 "" "" in [GenericKey key key]
  | headers => imap (build ruleIndex) headers
  end.

Definition buildClientSelectorActions : nat → list RateLimitSelectCondition → list RateLimit_Action :=
  clientActions buildHeaderMatchAction.
Definition buildClientSelectorStreamDoneActions : nat → list RateLimitSelectCondition → list RateLimit_Action :=
  clientActions buildStreamDoneHeaderMatchAction.

Definition requestTimeEntry (actions : list RateLimit_Action) (limit : option QuotaLimitFromMetadata) : RateLimitEntry :=
  {| re_Actions := actions; re_HitsAddend := zeroQuotaHitsAddend; re_Limit := limit; re_ApplyOnStreamDone := false |}.
Definition streamDoneEntry (actions : list RateLimit_Action) (limit : option QuotaLimitFromMetadata) : RateLimitEntry :=
  {| re_Actions := baseDescriptorActions ++ actions; re_HitsAddend := quotaHitsAddend; re_Limit := limit; re_ApplyOnStreamDone := true |}.

Definition targetKeyOf (policyNamespace : string) (target : TargetReference) : string :=
  NamespacedNameKey (TargetNamespace target policyNamespace) (tg_Name target).

Definition targetActions (modelName policyNamespace : string) (routeModelNames : gmap string (list string)) (target : TargetReference) :
    list RateLimit_Action :=
  requestTimeBaseActions (TargetNamespace target policyNamespace) (tg_Name target)
    (resolveModelName (targetKeyOf policyNamespace target) modelName routeModelNames).

Definition buildSimpleModelEntries (modelName policyNamespace : string) (targets : list TargetReference)
    (routeModelNames : gmap string (list string)) (quota : QuotaValue) : list RateLimitEntry :=
  (λ target, requestTimeEntry (targetActions modelName policyNamespace routeModelNames target) (buildQuotaLimitOverride quota)) <$> targets.

Definition defaultAction (quota : QuotaDefinition) : RateLimit_Action :=
  let defaultKey := DefaultBucketDescriptorKey (length (qd_BucketRules quota)) in GenericKey defaultKey defaultKey.

Definition buildBucketRuleLimitEntries (modelName policyNamespace : string) (quota : QuotaDefinition) (targets : list TargetReference)
    (routeModelNames : gmap string (list string)) : list RateLimitEntry :=
  target ← targets;
  let base := targetActions modelName policyNamespace routeModelNames target in
  imap (λ rIdx rule, requestTimeEntry (base ++ buildClientSelectorActions rIdx (qr_ClientSelectors rule))
                       (buildQuotaLimitOverride (qr_Quota rule))) (qd_BucketRules quota) ++
  (if (0 <? qv_Limit (qd_DefaultBucket quota))%N
   then [requestTimeEntry (base ++ [defaultAction quota]) (buildQuotaLimitOverride (qd_DefaultBucket quota))] else []).

(** *** The entries of a route *)

(** The stream-done entries so far, by the key that makes them unique. *)
Definition streamDone := list (string * RateLimitEntry).

(** An entry that is there keeps its actions; an override is added to one that has none. *)
Fixpoint addStreamDone (seen : streamDone) (key : string) (actions : list RateLimit_Action) (limit : option QuotaLimitFromMetadata) : streamDone :=
  match seen with
  | [] => [(key, streamDoneEntry actions limit)]
  | (k, e) :: seen =>
      if bool_decide (k = key) then
        (k, {| re_Actions := re_Actions e; re_HitsAddend := re_HitsAddend e;
               re_Limit := match re_Limit e with Some l => Some l | None => limit end; re_ApplyOnStreamDone := re_ApplyOnStreamDone e |}) :: seen
      else (k, e) :: addStreamDone seen key actions limit
  end.

Definition simpleStreamDoneKey : string := "_simple_".

Definition dupKey (rIdx : nat) (selectors : list RateLimitSelectCondition) : string :=
  match flattenAndSortClientSelectorHeaders selectors with
  | [] => "|" +:+ BucketRuleDescriptorKey rIdx 0 "" ""
  | headers =>
      foldr String.append "" (imap (λ mIdx hdr, "|" +:+ BucketRuleDescriptorKey rIdx mIdx (hm_Name hdr) (headerMatchKeyValue hdr)) headers)
  end.

Definition addRule (seen : streamDone) (r : nat * QuotaRule) : streamDone :=
  addStreamDone seen (dupKey r.1 (qr_ClientSelectors r.2)) (buildClientSelectorStreamDoneActions r.1 (qr_ClientSelectors r.2))
    (buildQuotaLimitOverride (qr_Quota r.2)).

(** A target of the policy is a backend of the route with this model. *)
Definition modelOnRoute (policy : QuotaPolicy) (modelName : string) (modelInfo : option (gmap string (list string))) : bool :=
  match modelInfo with
  | None => true
  | Some backendModels =>
      existsb (λ target, bool_decide (modelName ∈ default [] (backendModels !! targetKeyOf (qp_Namespace policy) target))) (qp_TargetRefs policy)
  end.

Definition addModel (policy : QuotaPolicy) (modelInfo : option (gmap string (list string))) (acc : list RateLimitEntry * streamDone)
    (pmq : PerModelQuota) : list RateLimitEntry * streamDone :=
  match pm_ModelName pmq with
  | None => acc
  | Some modelName =>
      if negb (modelOnRoute policy modelName modelInfo) then acc
      else
        let quota := pm_Quota pmq in
        let bucket := qd_DefaultBucket quota in
        let backendModels := default ∅ modelInfo in
        match qd_BucketRules quota with
        | [] =>
            if (0 <? qv_Limit bucket)%N then
              (acc.1 ++ buildSimpleModelEntries modelName (qp_Namespace policy) (qp_TargetRefs policy) backendModels bucket,
               addStreamDone acc.2 simpleStreamDoneKey [] (buildQuotaLimitOverride bucket))
            else acc
        | rules =>
            let seen := foldl addRule acc.2 (imap pair rules) in
            (acc.1 ++ buildBucketRuleLimitEntries modelName (qp_Namespace policy) quota (qp_TargetRefs policy) backendModels,
             if (0 <? qv_Limit bucket)%N
             then addStreamDone seen (DefaultBucketDescriptorKey (length rules)) [defaultAction quota] (buildQuotaLimitOverride bucket)
             else seen)
        end
  end.

Definition routeEntries (policies : list QuotaPolicy) (modelInfo : option (gmap string (list string))) : list RateLimitEntry * streamDone :=
  foldl (λ acc policy, foldl (addModel policy modelInfo) acc (qp_PerModelQuotas policy)) ([], []) policies.

Definition setPerRoute (route : Route) (c : PerFilterConfig) : Route :=
  {| ro_Name := ro_Name route; ro_Metadata := ro_Metadata route; ro_Action := ro_Action route;
     ro_TypedPerFilterConfig := <[quotaRateLimitFilterName := c]> (ro_TypedPerFilterConfig route);
     ro_AutoHostRewrite := ro_AutoHostRewrite route; ro_PerTryIdleTimeout := ro_PerTryIdleTimeout route;
     ro_RequestHeadersToAdd := ro_RequestHeadersToAdd route |}.

(** Marshalling of messages. *)
Class Marshal := {
  marshal_PerRoute : PerFilterConfig → outcome unit;
  marshal_Filter : RateLimitFilter → outcome unit;
  marshal_HCM : HttpConnectionManager → outcome unit;
}.
Context `{MA : !Marshal}.

Definition enableQuotaRateLimitOnRoute (route : Route) (policies : list QuotaPolicy) (modelInfo : option (gmap string (list string))) :
    outcome Route :=
  let '(requestTime, done) := routeEntries policies modelInfo in
  match requestTime ++ done.*2 with
  | [] => Ok route
  | rateLimitActions =>
      let c := RateLimitPerRoute QuotaDomain rateLimitActions in
      let! _ := owrap "failed to marshal RateLimitPerRoute: " (marshal_PerRoute c) in
      Ok (setPerRoute route c)
  end.
End Actions.

(** ** Routes *)

(** [client.List] of quota policies and [client.Get] of a route. *)
Class QuotaClient := {
  list_QuotaPolicies : outcome (list QuotaPolicy);
  get_AIGatewayRoute : string → string → outcome AIGatewayRoute;
}.

Definition MCPGeneratedResourceCommonPrefix : string := "ai-eg-mcp-".
Definition AIGatewayGeneratedHTTPRouteAnnotation : string := "ai-gateway-generated".

(** No resource of a route has a name of an MCP resource; a resource that is not a
    struct is a nil dereference. *)
Fixpoint noMCPResource (resources : list Value) : outcome bool :=
  match resources with
  | [] => Ok true
  | VStruct fields :: resources =>
      match fields !! "name" with
      | Some name => if HasPrefix (GetStringValue (Some name)) MCPGeneratedResourceCommonPrefix then Ok false else noMCPResource resources
      | None => noMCPResource resources
      end
  | _ => Panic "nil pointer dereference"
  end.

Definition isRouteGeneratedByAIGateway (isStandAloneMode : bool) (route : Route) : outcome bool :=
  match (m ← ro_Metadata route; eg ← m !! "envoy-gateway"; eg !! "resources") with
  | Some (VList ((_ :: _) as resources)) =>
      if isStandAloneMode then noMCPResource resources
      else
        Ok (existsb (λ resource,
          match GetStructFields (Some resource) !! "annotations" with
          | Some (VStruct annotations) => bool_decide (is_Some (annotations !! AIGatewayGeneratedHTTPRouteAnnotation))
          | _ => false
          end) resources)
  | _ => Ok false
  end.

(** The clusters of a route. *)
Definition clustersOf (route : Route) : list string :=
  match ro_Action route with
  | Some (SingleCluster name) => if bool_decide (name ≠ "") then [name] else []
  | Some (WeightedClusters names) => names
  | _ => []
  end.

Section Routes.
Context `{SH : !SortHeaders} `{MA : !Marshal} `{GC : !GrantClient} `{QC : !QuotaClient}.

(** The namespace of the route and its rule: a cluster is named
    "httproute/namespace/name/rule/index". *)
Definition resolveClusterRule (clusterName : string) : option (string * AIGatewayRouteRule) :=
  match Split clusterName "/" with
  | [h; namespace; routeName; _; index] =>
      if bool_decide (h ≠ "httproute") then None
      else
        match ParseInt64 index with
        | None => None
        | Some ruleIndex =>
            if (ruleIndex <? 0)%Z then None
            else
              match get_AIGatewayRoute namespace routeName with
              | Ok aigwRoute => pair namespace <$> ar_Rules aigwRoute !! Z.to_nat ruleIndex
              | _ => None
              end
        end
  | _ => None
  end.

Definition backendKeysForCluster (clusterName : string) : list string :=
  match resolveClusterRule clusterName with
  | None => []
  | Some (namespace, rule) =>
      (λ backendRef, NamespacedNameKey (GetNamespace backendRef namespace) (rb_Name backendRef)) <$> ru_BackendRefs rule
  end.

Definition clusterHasQuotaBackend (quotaBackendPolicies : gmap string (list QuotaPolicy)) (clusterName : string) : bool :=
  match resolveClusterRule clusterName with
  | None => false
  | Some (namespace, rule) =>
      existsb (λ backendRef, bool_decide (is_Some (quotaBackendPolicies !!
        NamespacedNameKey (GetNamespace backendRef namespace) (rb_Name backendRef)))) (ru_BackendRefs rule)
  end.

Definition routeHasQuotaBackend (route : Route) (quotaBackendPolicies : gmap string (list QuotaPolicy)) : bool :=
  existsb (clusterHasQuotaBackend quotaBackendPolicies) (clustersOf route).

(** Each policy once, by its UID. *)
Definition collectPolicy (acc : gset string * list QuotaPolicy) (p : QuotaPolicy) : gset string * list QuotaPolicy :=
  if bool_decide (qp_UID p ∈ acc.1) then acc else ({[qp_UID p]} ∪ acc.1, acc.2 ++ [p]).

Definition policiesForRoute (route : Route) (quotaBackendPolicies : gmap string (list QuotaPolicy)) : list QuotaPolicy :=
  (foldl collectPolicy (∅, [])
    (c ← clustersOf route; key ← backendKeysForCluster c; default [] (quotaBackendPolicies !! key))).2.

(** The model overrides of the backends of a route, each once. *)
Definition collectModel (namespace : string) (models : gmap string (list string)) (br : AIGatewayRouteRuleBackendRef) : gmap string (list string) :=
  if bool_decide (rb_ModelNameOverride br ≠ "") then
    let key := NamespacedNameKey (GetNamespace br namespace) (rb_Name br) in
    let seen := default [] (models !! key) in
    if bool_decide (rb_ModelNameOverride br ∈ seen) then models else <[key := seen ++ [rb_ModelNameOverride br]]> models
  else models.

Definition resolveRouteModelInfo (route : Route) : option (gmap string (list string)) :=
  match ro_Action route with
  | None => None
  | Some _ =>
      let models :=
        foldl (λ models clusterName,
            match resolveClusterRule clusterName with
            | None => models
            | Some (namespace, rule) => foldl (collectModel namespace) models (ru_BackendRefs rule)
            end) ∅ (clustersOf route) in
      if bool_decide (models = ∅) then None else Some models
  end.

(** The route, and whether it was patched. *)
Definition patchRoute (isStandAloneMode : bool) (quotaBackendPolicies : gmap string (list QuotaPolicy)) (route : Route) : outcome (Route * bool) :=
  let! generated := isRouteGeneratedByAIGateway isStandAloneMode route in
  if negb generated then Ok (route, false)
  else
    match ro_Action route with
    | None => Ok (route, false)
    | Some _ =>
        if negb (routeHasQuotaBackend route quotaBackendPolicies) then Ok (route, false)
        else
          match enableQuotaRateLimitOnRoute route (policiesForRoute route quotaBackendPolicies) (resolveRouteModelInfo route) with
          | Ok route => Ok (route, true)
          | Fail _ => Ok (route, false)
          | Panic m => Panic m
          end
    end.

Definition patchRoutesWithQuotaRateLimits (isStandAloneMode : bool) (quotaBackendPolicies : gmap string (list QuotaPolicy))
    (routeConfig : RouteConfiguration) : outcome (RouteConfiguration * bool) :=
  let! vhs := omapM (λ vh,
    let! rs := omapM (patchRoute isStandAloneMode quotaBackendPolicies) (vh_Routes vh) in
    Ok ({| vh_Name := vh_Name vh; vh_Domains := vh_Domains vh; vh_Metadata := vh_Metadata vh; vh_Routes := rs.*1 |}, existsb snd rs)) (rcf_VirtualHosts routeConfig) in
  Ok ({| rcf_Name := rcf_Name routeConfig; rcf_VirtualHosts := vhs.*1 |}, existsb snd vhs).

(** ** Policies *)

(** The targets a policy is allowed to refer to, each once. *)
Definition authorizeTarget (policy : QuotaPolicy) (acc : gset string * list TargetReference) (ref : TargetReference) :
    gset string * list TargetReference :=
  if (bool_decide (tg_Group ref ≠ "") && bool_decide (tg_Group ref ≠ aiServiceBackendGroup)) ||
     (bool_decide (tg_Kind ref ≠ "") && bool_decide (tg_Kind ref ≠ aiServiceBackendKind)) then acc
  else
    let targetNamespace := TargetNamespace ref (qp_Namespace policy) in
    let targetKey := NamespacedNameKey targetNamespace (tg_Name ref) in
    if bool_decide (targetKey ∈ acc.1) then acc
    else
      let seen := {[targetKey]} ∪ acc.1 in
      match validateQuotaPolicyAIServiceBackendReference (qp_Namespace policy) targetNamespace (tg_Name ref) with
      | Ok _ => (seen, acc.2 ++ [ref])
      | _ => (seen, acc.2)
      end.

Definition withTargets (policy : QuotaPolicy) (targets : list TargetReference) : QuotaPolicy :=
  {| qp_Namespace := qp_Namespace policy; qp_Name := qp_Name policy; qp_UID := qp_UID policy; qp_Deleted := qp_Deleted policy;
     qp_HasFinalizer := qp_HasFinalizer policy; qp_TargetRefs := targets; qp_ServiceQuota := qp_ServiceQuota policy;
     qp_PerModelQuotas := qp_PerModelQuotas policy |}.

Definition authorizedTargets (policy : QuotaPolicy) : list TargetReference := (foldl (authorizeTarget policy) (∅, []) (qp_TargetRefs policy)).2.

Definition authorizedQuotaPolicies (policies : list QuotaPolicy) : list QuotaPolicy :=
  policy ← policies;
  match authorizedTargets policy with
  | [] => []
  | targets => [withTargets policy targets]
  end.

Definition addBackendPolicy (policy : QuotaPolicy) (backends : gmap string (list QuotaPolicy)) (ref : TargetReference) :
    gmap string (list QuotaPolicy) :=
  let key := NamespacedNameKey (TargetNamespace ref (qp_Namespace policy)) (tg_Name ref) in
  <[key := default [] (backends !! key) ++ [policy]]> backends.

Definition buildQuotaBackendPolicies (policies : list QuotaPolicy) : gmap string (list QuotaPolicy) :=
  foldl (λ backends policy, if qp_Deleted policy then backends else foldl (addBackendPolicy policy) backends (qp_TargetRefs policy))
    ∅ policies.

(** ** Listeners and clusters *)

(** The settings of the extension server. *)
Record Server := {
  sv_udsPath : string;
  sv_isStandAloneMode : bool;
  sv_logRequestHeaderAttributes : gmap string string;
  sv_quotaRateLimitServiceHost : string;
  sv_quotaRateLimitServicePort : N;
  sv_quotaRateLimitTimeout : Z;
  sv_quotaRateLimitFailureModeDeny : bool;
}.

Definition findListenerRouteConfigs (ln : Listener) : list string :=
  omap (λ c, rds ← fc_HCM c ≫= hcm_Rds; if bool_decide (rds ≠ "") then Some rds else None) (ln_FilterChains ln) ++
  option_list (c ← ln_DefaultFilterChain ln; fc_HCM c ≫= hcm_Rds).

Definition buildQuotaRateLimitFilter (s : Server) (domain : string) : outcome HttpFilter :=
  let cfg := {| rf_Domain := domain; rf_Cluster := quotaRateLimitClusterName; rf_Timeout := sv_quotaRateLimitTimeout s;
                rf_FailureModeDeny := sv_quotaRateLimitFailureModeDeny s |} in
  let! _ := owrap "failed to marshal rate limit filter config: " (marshal_Filter cfg) in
  Ok {| hf_Name := quotaRateLimitFilterName; hf_Disabled := false; hf_Config := QuotaFilter cfg |}.

(** Before the router filter, or at the end. *)
Fixpoint insertBeforeRouter (f : HttpFilter) (fs : list HttpFilter) : list HttpFilter :=
  match fs with
  | [] => [f]
  | g :: fs => if bool_decide (hf_Name g = wellknown_Router) then f :: g :: fs else g :: insertBeforeRouter f fs
  end.

Definition injectIntoChain (s : Server) (domain : string) (c : FilterChain) : outcome FilterChain :=
  match fc_HCM c with
  | None => Ok c
  | Some hcm =>
      if existsb (λ f, bool_decide (hf_Name f = quotaRateLimitFilterName)) (hcm_HttpFilters hcm) then Ok c
      else
        let! filter := owrap "failed to build quota rate limit filter: " (buildQuotaRateLimitFilter s domain) in
        let hcm := {| hcm_HttpFilters := insertBeforeRouter filter (hcm_HttpFilters hcm); hcm_Rds := hcm_Rds hcm;
                      hcm_SchemeMatchUpstream := hcm_SchemeMatchUpstream hcm; hcm_AccessLog := hcm_AccessLog hcm |} in
        let! _ := owrap "failed to marshal HttpConnectionManager: " (marshal_HCM hcm) in
        Ok {| fc_HCM := Some hcm |}
  end.

(** An error leaves the remaining chains as they are. *)
Fixpoint injectIntoChains (s : Server) (domain : string) (chains : list FilterChain) : list FilterChain * outcome unit :=
  match chains with
  | [] => ([], Ok tt)
  | c :: chains =>
      match injectIntoChain s domain c with
      | Ok c => let '(chains, r) := injectIntoChains s domain chains in (c :: chains, r)
      | Fail e => (c :: chains, Fail e)
      | Panic m => (c :: chains, Panic m)
      end
  end.

Definition injectQuotaRateLimitFilterIntoListener (s : Server) (domain : string) (ln : Listener) : Listener * outcome unit :=
  let '(chains, r) := injectIntoChains s domain (ln_FilterChains ln ++ option_list (ln_DefaultFilterChain ln)) in
  let n := length (ln_FilterChains ln) in
  ({| ln_Name := ln_Name ln; ln_Address := ln_Address ln; ln_FilterChains := take n chains; ln_DefaultFilterChain := chains !! n |}, r).

Definition buildQuotaRateLimitCluster (s : Server) : Cluster :=
  endpointCluster quotaRateLimitClusterName "STRICT_DNS" "ROUND_ROBIN" 5 true
    {| en_Hostname := ""; en_Address := sv_quotaRateLimitServiceHost s; en_Port := sv_quotaRateLimitServicePort s; en_Pipe := "" |} None None.

(** Clusters, listeners and routes. *)
Definition maybeInjectQuotaRateLimiting (s : Server) (clusters : list Cluster) (listeners : list Listener) (routes : list RouteConfiguration) :
    outcome (list Cluster * list Listener * list RouteConfiguration) :=
  let unchanged := Ok (clusters, listeners, routes) in
  match list_QuotaPolicies with
  | Fail err => if errors_Is err KubeNotFound then unchanged else Fail (Errorf_w "failed to list QuotaPolicies: " err)
  | Panic m => Panic m
  | Ok policies =>
      let quotaBackendPolicies := buildQuotaBackendPolicies (authorizedQuotaPolicies policies) in
      if bool_decide (quotaBackendPolicies = ∅) then unchanged
      else
        let clusters :=
          if existsb (λ c, bool_decide (cl_Name c = quotaRateLimitClusterName)) clusters then clusters
          else clusters ++ [buildQuotaRateLimitCluster s] in
        let! patched := omapM (patchRoutesWithQuotaRateLimits (sv_isStandAloneMode s) quotaBackendPolicies) routes in
        let quotaEnabledRoutes := (λ p, rcf_Name p.1) <$> filter (λ p, p.2 = true) patched in
        let inject ln :=
          if existsb (λ name, bool_decide (name ∈ quotaEnabledRoutes)) (findListenerRouteConfigs ln)
          then (injectQuotaRateLimitFilterIntoListener s QuotaDomain ln).1 else ln in
        Ok (clusters, inject <$> listeners, patched.*1)
  end.
End Routes.
