(* ===== verification/QuotaProps.v ===== *)
(** * Quotas: the routes and the rate limit service agree

    What the actions of [QuotaRoutes] send for a request, what the configuration of
    [RateLimit] makes of it, and which policies take part.  How Envoy evaluates
    rate limit actions and how the service looks a descriptor up is stated here
    from their documentation: an action that does not apply drops the whole
    descriptor, and a node with the value of an entry goes before one without a
    value. *)

From Stdlib Require Import Ascii ZArith NArith Lia.
From stdpp Require Import base gmap strings list pretty.
From S2P Require Import Prelude GoStrings GoNum InternalApi Kube RateLimit QuotaController GoCodec EnvoyTypes QuotaRoutes.

(** ** Requests and descriptors *)

(** A request: its headers, and the dynamic metadata when actions are evaluated. *)
Record request := { rq_Headers : gmap string string; rq_Metadata : gmap (string * string) string }.

Section Envoy.
Context (regex_FullMatch : string → string → bool).

Definition matcherAccepts (m : StringMatcher) (v : string) : bool :=
  match m with SafeRegex r => regex_FullMatch r v | ExactMatch s => bool_decide (v = s) end.

Definition evalAction (rq : request) (a : RateLimit_Action) : option (string * string) :=
  match a with
  | GenericKey k v => Some (k, v)
  | MetaData k ns key => pair k <$> rq_Metadata rq !! (ns, key)
  | RequestHeaders h k => pair k <$> rq_Headers rq !! h
  | HeaderValueMatch k v expect h m =>
      let matched := match rq_Headers rq !! h with Some x => matcherAccepts m x | None => false end in
      if bool_decide (matched = expect) then Some (k, v) else None
  end.

Definition descriptor (rq : request) (actions : list RateLimit_Action) : option (list (string * string)) := mapM (evalAction rq) actions.
End Envoy.

(** The node of an entry, and the limit of a descriptor. *)
Definition matchNode (ds : list RateLimitDescriptor) (kv : string * string) : option RateLimitDescriptor :=
  match list_find (λ d, d_Key d = kv.1 ∧ d_Value d = kv.2) ds with
  | Some (_, d) => Some d
  | None => snd <$> list_find (λ d, d_Key d = kv.1 ∧ d_Value d = "") ds
  end.

Fixpoint serviceLimit (ds : list RateLimitDescriptor) (desc : list (string * string)) : option RateLimitPolicy :=
  match desc with
  | [] => None
  | [kv] => matchNode ds kv ≫= d_RateLimit
  | kv :: desc => matchNode ds kv ≫= λ d, serviceLimit (d_Descriptors d) desc
  end.

(** ** The buckets of a policy *)

Section Quota.
Context `{SH : !SortHeaders}.

(** A bucket: what follows the backend and the model in a request-time and in a
    stream-done entry, the key that stream-done entries are told apart by, and
    the quota. *)
Record bucket := { bu_request : list RateLimit_Action; bu_done : list RateLimit_Action; bu_key : string; bu_quota : QuotaValue }.

Definition ruleBucket (rIdx : nat) (rule : QuotaRule) : bucket :=
  {| bu_request := buildClientSelectorActions rIdx (qr_ClientSelectors rule);
     bu_done := buildClientSelectorStreamDoneActions rIdx (qr_ClientSelectors rule);
     bu_key := dupKey rIdx (qr_ClientSelectors rule); bu_quota := qr_Quota rule |}.

Definition defaultBuckets (quota : QuotaDefinition) : list bucket :=
  if (0 <? qv_Limit (qd_DefaultBucket quota))%N then
    match qd_BucketRules quota with
    | [] => [{| bu_request := []; bu_done := []; bu_key := simpleStreamDoneKey; bu_quota := qd_DefaultBucket quota |}]
    | rules => [{| bu_request := [defaultAction quota]; bu_done := [defaultAction quota];
                   bu_key := DefaultBucketDescriptorKey (length rules); bu_quota := qd_DefaultBucket quota |}]
    end
  else [].

Definition bucketsOf (quota : QuotaDefinition) : list bucket := imap ruleBucket (qd_BucketRules quota) ++ defaultBuckets quota.

(** The models of a policy that a route serves from one of its targets. *)
Definition modelsOnRoute (modelInfo : option (gmap string (list string))) (policy : QuotaPolicy) : list (string * QuotaDefinition) :=
  pmq ← qp_PerModelQuotas policy;
  match pm_ModelName pmq with
  | Some m => if modelOnRoute policy m modelInfo then [(m, pm_Quota pmq)] else []
  | None => []
  end.

(** The entry of a bucket for one target of the policy. *)
Definition bucketEntry (policy : QuotaPolicy) (model : string) (target : TargetReference) (b : bucket) : RateLimitEntry :=
  requestTimeEntry (requestTimeBaseActions (TargetNamespace target (qp_Namespace policy)) (tg_Name target) model ++ bu_request b)
    (buildQuotaLimitOverride (bu_quota b)).

Definition addBucket (seen : streamDone) (b : bucket) : streamDone :=
  addStreamDone seen (bu_key b) (bu_done b) (buildQuotaLimitOverride (bu_quota b)).

Lemma resolveModelName_id key m models : resolveModelName key m models = m.
Proof.
  unfold resolveModelName.
  assert (∀ k, match (match models !! k with Some ms => list_find (λ m', m' = m) ms | None => None end) with
               | Some (_, m') => m' | None => m end = m) as Hf.
  { intros k. destruct (models !! k) as [ms|]; [|done]. destruct (list_find _ ms) as [[i m']|] eqn:E; [|done].
    by apply list_find_Some in E as (_ & -> & _). }
  pose proof (Hf key) as H1. destruct (match models !! key with Some _ => _ | None => _ end) as [[i m']|]; [done|].
  destruct (afterLastSlash key) as [short|]; [apply Hf|done].
Qed.

Lemma foldl_addRule seen rules : foldl addRule seen (imap pair rules) = foldl addBucket seen (imap ruleBucket rules).
Proof.
  assert (imap ruleBucket rules = (λ r, ruleBucket r.1 r.2) <$> imap pair rules) as ->.
  { rewrite fmap_imap. by apply imap_ext. }
  generalize (imap pair rules). intros l. revert seen. induction l as [|r l IH]; intros seen; [done|]. apply IH.
Qed.

Lemma addModel_spec policy info acc pmq :
  addModel policy info acc pmq =
    foldl (λ acc '(m, quota),
        (acc.1 ++ (target ← qp_TargetRefs policy; bucketEntry policy m target <$> bucketsOf quota), foldl addBucket acc.2 (bucketsOf quota)))
      acc (match pm_ModelName pmq with
           | Some m => if modelOnRoute policy m info then [(m, pm_Quota pmq)] else []
           | None => []
           end).
Proof.
  unfold addModel. destruct (pm_ModelName pmq) as [m|]; [|done]. destruct (modelOnRoute policy m info); [|done]. cbn [negb foldl].
  unfold bucketsOf, defaultBuckets, buildSimpleModelEntries, buildBucketRuleLimitEntries, targetActions.
  destruct (qd_BucketRules (pm_Quota pmq)) as [|rule rules] eqn:Er.
  - cbn [imap app]. destruct (0 <? _)%N.
    + cbn [foldl fmap list_fmap]. f_equal. f_equal. induction (qp_TargetRefs policy) as [|t ts IH]; [done|]. cbn. rewrite IH.
      unfold bucketEntry. by rewrite resolveModelName_id, app_nil_r.
    + cbn. destruct acc as [a d]. cbn. f_equal. rewrite <-(app_nil_r a) at 1. f_equal. by induction (qp_TargetRefs policy).
  - rewrite foldl_app, foldl_addRule. f_equal.
    + f_equal. apply list_bind_ext; [|done]. intros target. rewrite fmap_app, fmap_imap. f_equal.
      * apply imap_ext. intros i r _. unfold bucketEntry, compose. by rewrite resolveModelName_id.
      * destruct (0 <? _)%N; [|done]. cbn. unfold bucketEntry. by rewrite resolveModelName_id.
    + by destruct (0 <? _)%N.
Qed.

Definition requestEntries (info : option (gmap string (list string))) (policy : QuotaPolicy) : list RateLimitEntry :=
  mq ← modelsOnRoute info policy; target ← qp_TargetRefs policy; bucketEntry policy mq.1 target <$> bucketsOf mq.2.

Definition routeBuckets (info : option (gmap string (list string))) (policy : QuotaPolicy) : list bucket :=
  mq ← modelsOnRoute info policy; bucketsOf mq.2.

(** The entries of a route, bucket by bucket. *)
Lemma routeEntries_spec policies info :
  routeEntries policies info = (policies ≫= requestEntries info, foldl addBucket [] (policies ≫= routeBuckets info)).
Proof.
  transitivity (foldl (λ acc x, (acc.1 ++ requestEntries info x, foldl addBucket acc.2 (routeBuckets info x))) ([], []) policies);
    [|by rewrite foldl_collect].
  unfold routeEntries. apply foldl_ext. intros acc policy. clear policies.
  transitivity (foldl (λ acc mq, (acc.1 ++ (target ← qp_TargetRefs policy; bucketEntry policy mq.1 target <$> bucketsOf mq.2),
                                  foldl addBucket acc.2 (bucketsOf mq.2))) acc (modelsOnRoute info policy));
    [|by rewrite (foldl_collect (λ mq, target ← qp_TargetRefs policy; bucketEntry policy mq.1 target <$> bucketsOf mq.2)
                   addBucket (λ mq, bucketsOf mq.2))].
  unfold modelsOnRoute. induction (qp_PerModelQuotas policy) as [|pmq quotas IH] in acc |- *; [done|]. cbn [foldl mbind list_bind].
  rewrite foldl_app, <-IH. f_equal. rewrite addModel_spec. apply foldl_ext. by intros [a d] [m q].
Qed.

Lemma elem_of_requestEntries policies info e :
  e ∈ (routeEntries policies info).1 ↔
  ∃ policy m quota target b, policy ∈ policies ∧ (m, quota) ∈ modelsOnRoute info policy ∧ target ∈ qp_TargetRefs policy ∧
    b ∈ bucketsOf quota ∧ e = bucketEntry policy m target b.
Proof.
  rewrite routeEntries_spec. cbn [fst]. rewrite list_elem_of_bind. unfold requestEntries.
  setoid_rewrite list_elem_of_bind. setoid_rewrite list_elem_of_bind. setoid_rewrite list_elem_of_fmap.
  split.
  - intros (policy & ([m quota] & (target & (b & -> & Hb) & Ht) & Hm) & Hp). eauto 15.
  - intros (policy & m & quota & target & b & Hp & Hm & Ht & Hb & ->). exists policy. split; [|done]. exists (m, quota). eauto 10.
Qed.

(** ** Every entry finds its limit *)

Lemma elem_of_two {A} (x a b : A) : x ∈ [a; b] ↔ x = a ∨ x = b.
Proof. by rewrite elem_of_cons, list_elem_of_singleton. Qed.

(** The limit of a node, or below it. *)
Definition limitUnder (d : RateLimitDescriptor) (desc : list (string * string)) : option RateLimitPolicy :=
  match desc with [] => d_RateLimit d | _ => serviceLimit (d_Descriptors d) desc end.

Lemma serviceLimit_cons ds kv desc : serviceLimit ds (kv :: desc) = matchNode ds kv ≫= λ d, limitUnder d desc.
Proof. by destruct desc. Qed.

Lemma matchNode_key ds d v :
  d ∈ ds → (∀ d', d' ∈ ds → d_Key d' = d_Key d → d' = d) → d_Value d = v ∨ d_Value d = "" → matchNode ds (d_Key d, v) = Some d.
Proof.
  intros Hd Hu Hv. unfold matchNode. cbn [fst snd]. destruct (list_find _ ds) as [[i d']|] eqn:E.
  - apply list_find_Some in E as (Hi & [Hk _] & _). f_equal. apply Hu; [|done]. by eapply list_elem_of_lookup_2.
  - apply list_find_None in E. rewrite Forall_forall in E. destruct Hv as [Hv|Hv]; [by destruct (E d Hd)|].
    destruct (list_find (λ d', d_Key d' = d_Key d ∧ d_Value d' = "") ds) as [[i d']|] eqn:E'.
    + apply list_find_Some in E' as (Hi & [Hk _] & _). cbn. f_equal. apply Hu; [|done]. by eapply list_elem_of_lookup_2.
    + apply list_find_None in E'. rewrite Forall_forall in E'. by destruct (E' d Hd).
Qed.

Lemma matchNode_first l1 d l2 :
  (∀ d', d' ∈ l1 → ¬ (d_Key d' = d_Key d ∧ d_Value d' = d_Value d)) → matchNode (l1 ++ d :: l2) (d_Key d, d_Value d) = Some d.
Proof.
  intros Hl. unfold matchNode. cbn [fst snd].
  assert (list_find (λ d', d_Key d' = d_Key d ∧ d_Value d' = d_Value d) (l1 ++ d :: l2) = Some (length l1, d)) as ->; [|done].
  apply list_find_Some. split_and!; [by rewrite lookup_app_r, Nat.sub_diag|done|done|].
  intros j y Hj Hlt. apply Hl. rewrite lookup_app_l in Hj by done. by eapply list_elem_of_lookup_2.
Qed.

Section Lookup.
Context (regex : string → string → bool) (rq : request).

(** The entry of a header and its node. *)
Lemma eval_header ruleIndex mIdx header kv :
  evalAction regex rq (buildHeaderMatchAction ruleIndex mIdx header) = Some kv →
  let key := BucketRuleDescriptorKey ruleIndex mIdx (hm_Name header) (headerMatchValue header) in
  kv.1 = key ∧ (if isDistinct header then "" else key) ∈ [kv.2; ""].
Proof.
  unfold buildHeaderMatchAction. change (headerMatchKeyValue header) with (headerMatchValue header). cbn zeta.
  destruct (isDistinct header); cbn.
  - intros (v & _ & ->)%fmap_Some. cbn. split; [done|]. apply elem_of_two. by right.
  - case_bool_decide; [|done]. intros [= <-]. cbn. split; [done|]. apply elem_of_two. by left.
Qed.

Lemma headerChain_limit ruleIndex mIdx header headers policy shadow desc :
  descriptor regex rq (imap (λ n, buildHeaderMatchAction ruleIndex (mIdx + n)) (header :: headers)) = Some desc →
  ∃ v rest, desc = (d_Key (headerChain ruleIndex mIdx header headers policy shadow), v) :: rest ∧
    d_Value (headerChain ruleIndex mIdx header headers policy shadow) ∈ [v; ""] ∧
    limitUnder (headerChain ruleIndex mIdx header headers policy shadow) rest = Some policy.
Proof.
  revert mIdx header desc. induction headers as [|next headers IH]; intros mIdx header desc; rewrite imap_cons; unfold descriptor; cbn [mapM].
  - intros (kv & Hkv & H)%bind_Some. cbn in H. injection H as <-. rewrite Nat.add_0_r in Hkv. apply eval_header in Hkv as [Hk Hv].
    exists kv.2, []. destruct kv as [k v]. cbn in Hk, Hv. subst k. split_and!; [done|exact Hv|done].
  - intros (kv & Hkv & H)%bind_Some. rewrite Nat.add_0_r in Hkv. apply eval_header in Hkv as [Hk Hv].
    apply bind_Some in H as (rest & Hr & [= <-]). destruct (IH (S mIdx) next rest) as (v & rest' & -> & Hv' & Hl).
    { unfold descriptor. rewrite <-Hr. f_equal. apply imap_ext. intros i x _. cbn. by rewrite Nat.add_succ_r. }
    exists kv.2, ((d_Key (headerChain ruleIndex (S mIdx) next headers policy shadow), v) :: rest'). destruct kv as [k v0]. cbn in Hk, Hv.
    split; [by subst|]. split; [exact Hv|]. unfold limitUnder at 1. cbn [headerChain innerDescriptor d_Descriptors].
    rewrite serviceLimit_cons, matchNode_key; [exact Hl|by apply list_elem_of_singleton|by intros d' ->%list_elem_of_singleton|by apply elem_of_two].
Qed.

(** The node of a rule. *)
Lemma rule_limit rIdx rule ds desc :
  buildBucketRuleDescriptors rIdx rule = Ok ds → descriptor regex rq (buildClientSelectorActions rIdx (qr_ClientSelectors rule)) = Some desc →
  ∃ d policy v rest, ds = [d] ∧ quotaValueToPolicy (qr_Quota rule) = Ok policy ∧ desc = (d_Key d, v) :: rest ∧ d_Value d ∈ [v; ""] ∧
    limitUnder d rest = Some policy.
Proof.
  unfold buildBucketRuleDescriptors, buildClientSelectorActions, clientActions. intros (policy & Hp & H)%obind_ok_inv. revert H.
  change (flattenAndSortClientSelectorHeaders (qr_ClientSelectors rule)) with (flattenAndSortHeaders (qr_ClientSelectors rule)).
  destruct (flattenAndSortHeaders _) as [|h hs].
  - intros [= <-]. cbn. intros [= <-]. eexists _, policy, _, []. split_and!; [done..| |done]. apply elem_of_two. by left.
  - intros [= <-] Hd. destruct (headerChain_limit rIdx 0 h hs policy (bool_decide (qr_ShadowMode rule = Some true)) desc) as (v & rest & -> & Hv & Hl).
    { exact Hd. }
    eexists _, policy, v, rest. done.
Qed.

(** *** The index of a rule in its key *)

Definition keyIndex (key : string) : option string := Split key "-" !! 1.

Lemma itoa_no_dash n : Contains (itoa n) "-" = false.
Proof. by apply pretty_nat_no_nondigit. Qed.

Lemma keyIndex_dash n rest : keyIndex ("rule-" +:+ itoa n +:+ String "-" rest) = Some (itoa n).
Proof.
  unfold keyIndex. change ("rule-" +:+ ?x) with ("rule" +:+ String "-" x). by rewrite !Split_app by (done || apply itoa_no_dash).
Qed.

Lemma keyIndex_rule rIdx mIdx name value : keyIndex (BucketRuleDescriptorKey rIdx mIdx name value) = Some (itoa rIdx).
Proof. unfold BucketRuleDescriptorKey. repeat case_bool_decide; exact (keyIndex_dash _ _). Qed.

Lemma keyIndex_default n : keyIndex (DefaultBucketDescriptorKey n) = Some (itoa n).
Proof. exact (keyIndex_dash _ _). Qed.

(** *** The node of a model *)

(** Each rule has one node, at its place. *)
Lemma buildRules_nodes prefix n rules r :
  buildRules prefix n rules = Ok r → Forall2 (λ '(i, rule) d, buildBucketRuleDescriptors i rule = Ok [d]) (imap (λ i, pair (n + i)) rules) r.1.
Proof.
  revert n r. induction rules as [|rule rules IH]; intros n r; [intros [= <-]; constructor|].
  cbn [buildRules]. intros (ds & Hds%owrap_ok_inv & (rest & Hr & [= <-])%obind_ok_inv)%obind_ok_inv.
  assert (∃ d, ds = [d]) as [d ->].
  { revert Hds. unfold buildBucketRuleDescriptors. intros (? & _ & H)%obind_ok_inv. revert H.
    destruct (flattenAndSortHeaders _); intros [= <-]; eauto. }
  rewrite imap_cons, Nat.add_0_r. constructor; [done|]. apply IH in Hr.
  erewrite imap_ext; [exact Hr|]. intros i x _. cbn. by rewrite Nat.add_succ_r.
Qed.

(** The nodes under a model are told apart by the index in their key. *)
Definition indexed (ds : list RateLimitDescriptor) : Prop := ∀ j d, ds !! j = Some d → keyIndex (d_Key d) = Some (itoa j).

Lemma indexed_unique ds j d : indexed ds → ds !! j = Some d → ∀ d', d' ∈ ds → d_Key d' = d_Key d → d' = d.
Proof.
  intros Hi Hj d' (j' & Hj')%list_elem_of_lookup_1 Hk. pose proof (Hi _ _ Hj) as H1. pose proof (Hi _ _ Hj') as H2.
  rewrite Hk, H1 in H2. injection H2 as H2. apply (inj pretty) in H2. subst. congruence.
Qed.

Lemma build_rule_index i rule d : buildBucketRuleDescriptors i rule = Ok [d] → keyIndex (d_Key d) = Some (itoa i).
Proof.
  unfold buildBucketRuleDescriptors. intros (? & _ & H)%obind_ok_inv. revert H.
  destruct (flattenAndSortHeaders _) as [|h hs]; intros [= <-]; [apply keyIndex_rule|]. destruct hs; apply keyIndex_rule.
Qed.

Lemma build_model_key m quota prefix d keyed :
  buildPerModelDescriptorKeyed m quota prefix = Ok (d, keyed) → d_Key d = ModelNameDescriptorKey ∧ d_Value d = m.
Proof.
  unfold buildPerModelDescriptorKeyed. destruct (qd_BucketRules quota).
  - by intros (? & _ & [= <- _])%obind_ok_inv.
  - by intros (? & _ & (? & _ & [= <- _])%obind_ok_inv)%obind_ok_inv.
Qed.

Lemma model_limit m quota prefix d keyed b desc :
  buildPerModelDescriptorKeyed m quota prefix = Ok (d, keyed) → b ∈ bucketsOf quota → descriptor regex rq (bu_request b) = Some desc →
  ∃ policy, quotaValueToPolicy (bu_quota b) = Ok policy ∧ limitUnder d desc = Some policy.
Proof.
  unfold buildPerModelDescriptorKeyed, bucketsOf, defaultBuckets. destruct (qd_BucketRules quota) as [|rule0 rules0] eqn:Er.
  - intros (policy & Hp & [= <- _])%obind_ok_inv. cbn [imap app]. destruct (0 <? _)%N; [|by intros ?%elem_of_nil].
    intros ->%list_elem_of_singleton. cbn. intros [= <-]. eauto.
  - rewrite <-Er. clear Er. set (rules := qd_BucketRules quota). intros (r & Hr & (def & Hdef & [= <- _])%obind_ok_inv)%obind_ok_inv Hb Hd.
    pose proof (buildRules_nodes _ _ _ _ Hr) as Hn. assert (length r.1 = length rules) as Hlen.
    { apply Forall2_length in Hn. by rewrite length_imap in Hn. }
    assert (∀ j d, r.1 !! j = Some d → ∃ rule, rules !! j = Some rule ∧ buildBucketRuleDescriptors j rule = Ok [d]) as Hat.
    { intros j d Hj. eapply Forall2_lookup_r in Hn as ([i rule] & Hi & Hb'); [|done]. rewrite list_lookup_imap in Hi.
      apply fmap_Some in Hi as (rule' & Hrule & [= -> ->]). eauto. }
    assert (indexed (r.1 ++ def.1)) as Hidx.
    { intros j d [Hj|[Hl Hj]]%lookup_app_Some; [destruct (Hat _ _ Hj) as (rule & _ & H'); by eapply build_rule_index|].
      revert Hdef. destruct (0 <? _)%N; [|intros [= <-]; by cbn in Hj; rewrite lookup_nil in Hj].
      intros (? & _ & [= <-])%obind_ok_inv. cbn in Hj. apply list_lookup_singleton_Some in Hj as [Hj <-].
      cbn [leafDescriptor d_Key]. rewrite keyIndex_default. do 2 f_equal. lia. }
    assert (∀ j d v rest policy, (r.1 ++ def.1) !! j = Some d → desc = (d_Key d, v) :: rest → d_Value d ∈ [v; ""] →
      limitUnder d rest = Some policy → limitUnder (innerDescriptor ModelNameDescriptorKey m (r.1 ++ def.1)) desc = Some policy) as Hfind.
    { intros j d v rest policy Hj -> Hv Hl. unfold limitUnder at 1. cbn [innerDescriptor d_Descriptors]. rewrite serviceLimit_cons, matchNode_key.
      - exact Hl.
      - by eapply list_elem_of_lookup_2.
      - by eapply indexed_unique.
      - by apply elem_of_two. }
    apply elem_of_app in Hb as [Hb|Hb].
    + apply elem_of_lookup_imap in Hb as (i & rule & -> & Hi). change (bu_quota _) with (qr_Quota rule).
      destruct (r.1 !! i) as [d|] eqn:Ed; [|apply lookup_ge_None in Ed; apply lookup_lt_Some in Hi; lia].
      destruct (Hat _ _ Ed) as (rule' & Hi' & Hbuild). rewrite Hi in Hi'. injection Hi' as <-.
      destruct (rule_limit _ _ _ _ Hbuild Hd) as (d' & policy & v & rest & [= <-] & Hp & Hdesc & Hv & Hl).
      exists policy. split; [done|]. eapply (Hfind i); [by apply lookup_app_l_Some|done..].
    + revert Hdef Hb. destruct (0 <? _)%N; [|by intros _ ?%elem_of_nil].
      intros (policy & Hp & [= <-])%obind_ok_inv Hb%list_elem_of_singleton. subst b. cbn in Hd |- *. injection Hd as <-.
      exists policy. split; [done|]. eapply (Hfind (length rules)); [by rewrite lookup_app_r, Hlen, Nat.sub_diag by lia|done| |done].
      apply elem_of_two. by left.
Qed.

(** *** The node of a backend, and the configuration *)

Definition modelsOf (policy : QuotaPolicy) : list (string * QuotaDefinition) :=
  omap (λ pmq, (λ m, (m, pm_Quota pmq)) <$> pm_ModelName pmq) (qp_PerModelQuotas policy).

Lemma modelsOnRoute_sub info policy mq : mq ∈ modelsOnRoute info policy → mq ∈ modelsOf policy.
Proof.
  intros (pmq & Hm & Hp)%list_elem_of_bind. apply list_elem_of_omap. exists pmq. split; [done|].
  destruct (pm_ModelName pmq) as [m|]; [|by apply elem_of_nil in Hm]. destruct (modelOnRoute policy m info); [|by apply elem_of_nil in Hm].
  by apply list_elem_of_singleton in Hm as ->.
Qed.

Lemma buildModels_nodes seg policy r :
  buildModels seg (qp_PerModelQuotas policy) = Ok r →
  Forall2 (λ mq d, ∃ keyed, buildPerModelDescriptorKeyed mq.1 mq.2 seg = Ok (d, keyed)) (modelsOf policy) r.1.
Proof.
  unfold buildModels, modelsOf. set (P := λ (mq : string * QuotaDefinition) (d : RateLimitDescriptor), ∃ keyed, buildPerModelDescriptorKeyed mq.1 mq.2 seg = Ok (d, keyed)).
  assert (∀ quotas acc pre r, ofold (λ acc pmq,
      match pm_ModelName pmq with
      | None => Ok acc
      | Some modelName =>
          let! d := owrap ("model " +:+ Quote modelName +:+ ": ") (buildPerModelDescriptorKeyed modelName (pm_Quota pmq) seg) in
          Ok (acc.1 ++ [d.1], acc.2 ++ d.2)
      end) acc quotas = Ok r →
    Forall2 P pre acc.1 → Forall2 P (pre ++ omap (λ pmq, (λ m, (m, pm_Quota pmq)) <$> pm_ModelName pmq) quotas) r.1) as Hgen.
  2:{ intros Hr. apply (Hgen _ _ [] _ Hr). constructor. }
  induction quotas as [|pmq quotas IH]; intros acc pre r'; cbn [ofold omap list_omap]; [intros [= <-]; by rewrite app_nil_r|].
  destruct (pm_ModelName pmq) as [m|]; cbn [fmap option_fmap option_map obind]; [|apply IH].
  destruct (buildPerModelDescriptorKeyed m (pm_Quota pmq) seg) as [[d keyed]| |] eqn:Ed; cbn [owrap obind]; [|done..].
  intros Hr Hpre. rewrite cons_middle, app_assoc. eapply IH; [exact Hr|]. apply Forall2_app; [done|]. repeat constructor. by exists keyed.
Qed.

Lemma backend_limit policy backend d m quota b desc :
  buildBackendDescriptor policy backend = Ok (Some d) → NoDup (modelsOf policy).*1 → (m, quota) ∈ modelsOf policy →
  b ∈ bucketsOf quota → descriptor regex rq (bu_request b) = Some desc →
  ∃ limit, quotaValueToPolicy (bu_quota b) = Ok limit ∧ limitUnder d ((ModelNameDescriptorKey, m) :: desc) = Some limit.
Proof.
  unfold buildBackendDescriptor, buildBackendDescriptorKeyed. intros (o & Ho & Hd)%obind_ok_inv Hn Hm Hb Hdesc.
  apply obind_ok_inv in Ho as (models & Hms & (service & _ & Ho)%obind_ok_inv). apply buildModels_nodes in Hms.
  destruct o as [[d' keyed]|]; [|done]. injection Hd as ->.
  assert (d_Descriptors d = models.1 ++ service.1) as Hds by (destruct (models.1 ++ service.1); [done|by injection Ho as <- _]).
  unfold limitUnder. rewrite Hds, serviceLimit_cons. apply list_elem_of_lookup_1 in Hm as (j & Hj).
  destruct (Forall2_lookup_l _ _ _ _ _ Hms Hj) as (dm & Hdm & keyed' & Hbuild). cbn [fst snd] in Hbuild.
  destruct (build_model_key _ _ _ _ _ Hbuild) as [Hk Hv]. rewrite <-Hk, <-Hv.
  rewrite <-(take_drop_middle _ _ _ Hdm), <-app_assoc. cbn [app]. rewrite matchNode_first; [by eapply model_limit|].
  intros d'' (i & Hi)%list_elem_of_lookup_1 [_ Hv'']. apply lookup_take_Some in Hi as [Hi Hlt].
  destruct (Forall2_lookup_r _ _ _ _ _ Hms Hi) as ([m' q'] & Hj' & k'' & Hbuild'). cbn [fst snd] in Hbuild'.
  destruct (build_model_key _ _ _ _ _ Hbuild') as [_ Hv']. assert (i = j); [|lia].
  assert (m' = m) by congruence. apply (NoDup_lookup _ _ _ m Hn); rewrite list_lookup_fmap; [rewrite Hj'|rewrite Hj]; cbn; congruence.
Qed.

(** The entries of a bucket for a backend and a model. *)
Lemma config_limit policy backends cfgs backend m quota b desc :
  BuildRateLimitConfigs policy backends = Ok cfgs → NoDup (backendValue <$> backends) → NoDup (modelsOf policy).*1 →
  backend ∈ backends → (m, quota) ∈ modelsOf policy → b ∈ bucketsOf quota → descriptor regex rq (bu_request b) = Some desc →
  ∃ limit, quotaValueToPolicy (bu_quota b) = Ok limit ∧
    serviceLimit (cfgs ≫= rc_Descriptors) ((BackendNameDescriptorKey, backendValue backend) :: (ModelNameDescriptorKey, m) :: desc) = Some limit.
Proof.
  intros (os & Hos & ->)%buildConfigs_nodes Hnb Hnm (j & Hj)%list_elem_of_lookup_1 Hm Hb Hd.
  destruct (Forall2_lookup_l _ _ _ _ _ Hos Hj) as (o & Ho & Hbuild).
  assert (∃ d, o = Some d) as [d ->].
  { destruct o as [d|]; [by exists d|exfalso]. revert Hbuild. unfold buildBackendDescriptor, buildBackendDescriptorKeyed.
    intros (o & (ms & Hms%buildModels_nodes & (sv & _ & Hc)%obind_ok_inv)%obind_ok_inv & Hr)%obind_ok_inv.
    destruct ms as [ds ks]. cbn [fst] in *. destruct Hms; [by apply elem_of_nil in Hm|]. cbn in Hc. injection Hc as <-. done. }
  destruct (build_backend_key _ _ _ Hbuild) as [Hk Hv].
  destruct (backend_limit _ _ _ _ _ _ _ Hbuild Hnm Hm Hb Hd) as (limit & Hl & Hlimit). exists limit. split; [done|].
  rewrite serviceLimit_cons, <-Hk, <-Hv, <-(take_drop_middle _ _ _ Ho), bind_app.
  change ((Some d :: ?l) ≫= option_list) with (d :: (l ≫= option_list)).
  rewrite matchNode_first; [exact Hlimit|]. intros d' (o' & Hin & Ho')%list_elem_of_bind [_ Hv'].
  apply list_elem_of_lookup_1 in Ho' as (i & [Hi Hlt]%lookup_take_Some).
  destruct (Forall2_lookup_r _ _ _ _ _ Hos Hi) as (backend' & Hj' & Hbuild'). destruct o' as [d''|]; [|by apply elem_of_nil in Hin].
  apply list_elem_of_singleton in Hin as ->. destruct (build_backend_key _ _ _ Hbuild') as [_ Hv''].
  assert (i = j); [|lia]. apply (NoDup_lookup _ _ _ (backendValue backend) Hnb); rewrite list_lookup_fmap; [rewrite Hj'|rewrite Hj]; cbn; congruence.
Qed.
End Lookup.

(** C32: the routes and the rate limit service agree.  Let no policy name a model twice
    (the API does not enforce it; the service finds the first of two).  Each
    request-time entry of a route belongs to a model, a target and a bucket of one of
    its policies, charges nothing and carries the bucket's override; and whenever Envoy
    makes a descriptor of it for a request, whatever headers it selects on, a
    configuration built from that policy for distinct backends, the target among them,
    holds the bucket's limit for that descriptor, in the bucket's unit.  The limit is
    the bucket's own when it is below 2^32; the translator cuts a larger one to 32
    bits. *)
Theorem request_time_entry_has_limit regex policies info e rq desc :
  Forall (λ policy, NoDup (modelsOf policy).*1) policies →
  e ∈ (routeEntries policies info).1 → descriptor regex rq (re_Actions e) = Some desc →
  ∃ policy m quota target b, policy ∈ policies ∧ (m, quota) ∈ modelsOnRoute info policy ∧ target ∈ qp_TargetRefs policy ∧ b ∈ bucketsOf quota ∧
    re_HitsAddend e = HitsNumber 0 ∧ re_ApplyOnStreamDone e = false ∧ re_Limit e = qv_FromMetadata (bu_quota b) ∧
    ∀ backends cfgs,
      BuildRateLimitConfigs policy backends = Ok cfgs → NoDup (backendValue <$> backends) →
      {| sb_Namespace := TargetNamespace target (qp_Namespace policy); sb_Name := tg_Name target |} ∈ backends →
      ∃ unit, parseDuration (qv_Duration (bu_quota b)) = Ok unit ∧
        serviceLimit (cfgs ≫= rc_Descriptors) desc = Some {| rl_RequestsPerUnit := (qv_Limit (bu_quota b) mod 2 ^ 32)%N; rl_Unit := unit |}.
Proof.
  intros Hnm (policy & m & quota & target & b & Hp & Hm & Ht & Hb & ->)%elem_of_requestEntries Hd.
  exists policy, m, quota, target, b. split_and!; [done..|]. intros backends cfgs Hc Hnb Hin.
  unfold bucketEntry, requestTimeBaseActions in Hd. cbn in Hd. apply bind_Some in Hd as (d1 & Hd & [= <-]).
  apply bind_Some in Hd as (rest & Hd & [= <-]). rewrite Forall_forall in Hnm.
  destruct (config_limit _ _ _ _ _ _ _ _ _ _ Hc Hnb (Hnm _ Hp) Hin (modelsOnRoute_sub _ _ _ Hm) Hb Hd) as (limit & Hl & Hs).
  unfold quotaValueToPolicy in Hl. apply obind_ok_inv in Hl as (unit & Hu%owrap_ok_inv & [= <-]). by exists unit.
Qed.

(** ** What is charged *)

(** The entries so far come from buckets, one for each key. *)
Record done_ok (bs : list bucket) (seen : streamDone) : Prop := {
  done_keys : NoDup seen.*1;
  done_from : ∀ k s, (k, s) ∈ seen → ∃ b, b ∈ bs ∧ bu_key b = k ∧ re_Actions s = baseDescriptorActions ++ bu_done b ∧
                re_HitsAddend s = quotaHitsAddend ∧ re_ApplyOnStreamDone s = true;
  done_all : ∀ b, b ∈ bs → bu_key b ∈ seen.*1;
}.

Lemma addStreamDone_keys seen key actions limit :
  (addStreamDone seen key actions limit).*1 = if bool_decide (key ∈ seen.*1) then seen.*1 else seen.*1 ++ [key].
Proof.
  induction seen as [|[k s] seen IH]; [done|]. cbn [addStreamDone]. destruct (decide (k = key)) as [->|Hk].
  - rewrite (bool_decide_true (key = key)) by done. rewrite bool_decide_true; [done|]. cbn. apply elem_of_cons. by left.
  - rewrite (bool_decide_false (k = key)) by done. cbn. rewrite IH. assert (key ∈ k :: seen.*1 ↔ key ∈ seen.*1) as Hiff.
    { rewrite elem_of_cons. split; [by intros [?|?]; [congruence|]|by right]. }
    rewrite (bool_decide_ext _ _ Hiff). by destruct (bool_decide (key ∈ seen.*1)).
Qed.

Lemma addStreamDone_elem seen key actions limit k s :
  (k, s) ∈ addStreamDone seen key actions limit →
  (∃ s0, (k, s0) ∈ seen ∧ re_Actions s = re_Actions s0 ∧ re_HitsAddend s = re_HitsAddend s0 ∧ re_ApplyOnStreamDone s = re_ApplyOnStreamDone s0) ∨
  k = key ∧ ∃ l, s = streamDoneEntry actions l.
Proof.
  induction seen as [|[k0 s0] seen IH]; cbn [addStreamDone]; [intros [= -> ->]%list_elem_of_singleton; eauto|]. case_bool_decide as Hk.
  - intros [[= -> ->]|Hin]%elem_of_cons; left; [exists s0|exists s]; (split; [|done]); apply elem_of_cons; auto.
  - intros [[= -> ->]|Hin]%elem_of_cons; [left; exists s0; split; [|done]; apply elem_of_cons; auto|].
    destruct (IH Hin) as [(s1 & Hs1 & He)|He]; [left; exists s1; split; [|done]; apply elem_of_cons; auto|by right].
Qed.

Lemma addBucket_ok bs seen b : done_ok bs seen → done_ok (bs ++ [b]) (addBucket seen b).
Proof.
  intros [Hn Hf Ha]. unfold addBucket. split.
  - rewrite addStreamDone_keys. case_bool_decide as Hk; [done|]. apply NoDup_app. split_and!; [done| |apply NoDup_singleton].
    by intros k Hk' ->%list_elem_of_singleton.
  - intros k s [(s0 & Hs0 & E1 & E2 & E3)|[-> [l ->]]]%addStreamDone_elem.
    + destruct (Hf _ _ Hs0) as (b' & Hb' & Hk & E). exists b'. rewrite E1, E2, E3. split; [|done]. apply elem_of_app. by left.
    + exists b. split; [|done]. apply elem_of_app. right. by apply list_elem_of_singleton.
  - intros b' [Hb'|Hb']%elem_of_app; rewrite addStreamDone_keys.
    + specialize (Ha _ Hb'). case_bool_decide; [done|]. apply elem_of_app. by left.
    + apply list_elem_of_singleton in Hb' as ->. case_bool_decide; [done|]. apply elem_of_app. right. by apply list_elem_of_singleton.
Qed.

Lemma foldl_addBucket_ok bs : done_ok bs (foldl addBucket [] bs).
Proof.
  induction bs as [|b bs IH] using rev_ind; [|rewrite foldl_snoc; by apply addBucket_ok]. split; [constructor|..].
  - by intros k s ?%elem_of_nil.
  - by intros b ?%elem_of_nil.
Qed.

Definition actionKey (a : RateLimit_Action) : string :=
  match a with GenericKey k _ | MetaData k _ _ | RequestHeaders _ k | HeaderValueMatch k _ _ _ _ => k end.

(** The key of a stream-done entry is that of its actions. *)
Definition keyOfActions (actions : list RateLimit_Action) : string := foldr String.append "" ((λ a, "|" +:+ actionKey a) <$> actions).

Lemma dupKey_actions rIdx selectors : dupKey rIdx selectors = keyOfActions (buildClientSelectorStreamDoneActions rIdx selectors).
Proof.
  unfold dupKey, keyOfActions, buildClientSelectorStreamDoneActions, clientActions.
  destruct (flattenAndSortClientSelectorHeaders selectors) as [|h hs]; [cbn; by rewrite sapp_nil_r|].
  rewrite fmap_imap. f_equal. apply imap_ext. intros i x _. unfold compose, buildStreamDoneHeaderMatchAction. by destruct (isDistinct x).
Qed.

Lemma rule_key_not_default i n : BucketRuleDescriptorKey i 0 "" "" ≠ DefaultBucketDescriptorKey n.
Proof.
  unfold BucketRuleDescriptorKey, DefaultBucketDescriptorKey. rewrite bool_decide_true by done. intros He.
  apply (f_equal (λ s, length (Split s "-"))) in He. revert He.
  change ("rule-" +:+ ?x) with ("rule" +:+ String "-" x). rewrite !Split_app by done.
  change ("-match-" +:+ itoa 0) with (String "-" "match-0"). change "-match--1" with (String "-" "match--1").
  rewrite !Split_app by apply itoa_no_dash. by vm_compute.
Qed.

(** Buckets with the same actions are told apart by nothing else. *)
Lemma bucket_key_actions quota1 quota2 b1 b2 :
  b1 ∈ bucketsOf quota1 → b2 ∈ bucketsOf quota2 → bu_done b1 = bu_done b2 → bu_key b1 = bu_key b2.
Proof.
  assert (∀ quota b, b ∈ bucketsOf quota →
    (∃ i rule, b = ruleBucket i rule) ∨ (bu_done b = [] ∧ bu_key b = simpleStreamDoneKey) ∨
    ∃ n, bu_key b = DefaultBucketDescriptorKey n ∧ bu_done b = [GenericKey (bu_key b) (bu_key b)]) as Hb.
  { intros quota b [(i & rule & -> & _)%elem_of_lookup_imap|Hd]%elem_of_app; [eauto|]. revert Hd. unfold defaultBuckets.
    destruct (0 <? _)%N; [|by intros ?%elem_of_nil]. unfold defaultAction.
    destruct (qd_BucketRules quota); intros ->%list_elem_of_singleton; cbn; eauto 10. }
  assert (∀ i rule, bu_done (ruleBucket i rule) ≠ [] ∧
    ∀ n, bu_done (ruleBucket i rule) ≠ [GenericKey (DefaultBucketDescriptorKey n) (DefaultBucketDescriptorKey n)]) as Hr.
  { intros i rule. cbn. unfold buildClientSelectorStreamDoneActions, clientActions.
    destruct (flattenAndSortClientSelectorHeaders _) as [|h hs]; (split; [done|intros n]).
    - intros He%(f_equal (λ l, actionKey <$> head l)). apply (inj Some) in He. by apply rule_key_not_default in He.
    - rewrite imap_cons. unfold buildStreamDoneHeaderMatchAction. by destruct (isDistinct h). }
  intros H1%Hb H2%Hb Hd.
  destruct H1 as [(i1 & r1 & ->)|[[E1 K1]|(n1 & K1 & E1)]], H2 as [(i2 & r2 & ->)|[[E2 K2]|(n2 & K2 & E2)]].
  - cbn in *. by rewrite !dupKey_actions, Hd.
  - rewrite E2 in Hd. by apply Hr in Hd.
  - rewrite E2, K2 in Hd. by apply Hr in Hd.
  - rewrite E1 in Hd. symmetry in Hd. by apply Hr in Hd.
  - congruence.
  - rewrite E1, E2 in Hd. done.
  - rewrite E1, K1 in Hd. symmetry in Hd. by apply Hr in Hd.
  - rewrite E1, E2 in Hd. done.
  - rewrite E1, E2 in Hd. by injection Hd.
Qed.

Lemma routeBuckets_quota policies info b : b ∈ (policies ≫= routeBuckets info) → ∃ quota, b ∈ bucketsOf quota.
Proof. intros (p & (mq & Hb & _)%list_elem_of_bind & _)%list_elem_of_bind. eauto. Qed.

Lemma elem_of_doneEntries policies info s :
  s ∈ (routeEntries policies info).2.*2 →
  re_ApplyOnStreamDone s = true ∧ re_HitsAddend s = quotaHitsAddend ∧ ∃ rest, re_Actions s = baseDescriptorActions ++ rest.
Proof.
  rewrite routeEntries_spec. cbn [snd]. destruct (foldl_addBucket_ok (policies ≫= routeBuckets info)) as [_ Hf _].
  intros ([k s'] & -> & Hs)%list_elem_of_fmap. destruct (Hf _ _ Hs) as (b & _ & _ & E1 & E2 & E3). eauto.
Qed.

(** A response is charged once: the stream-done entries of a route have
    pairwise different actions, whatever policies and models share the route; each
    reads the backend and the model from the metadata, adds the cost of the
    response and nothing at request time. *)
Theorem charged_once policies info :
  NoDup (re_Actions <$> (routeEntries policies info).2.*2) ∧
  ∀ s, s ∈ (routeEntries policies info).2.*2 →
    re_ApplyOnStreamDone s = true ∧ re_HitsAddend s = quotaHitsAddend ∧ ∃ rest, re_Actions s = baseDescriptorActions ++ rest.
Proof.
  split; [|apply elem_of_doneEntries].
  rewrite routeEntries_spec. cbn [snd]. destruct (foldl_addBucket_ok (policies ≫= routeBuckets info)) as [Hn Hf _].
  set (done := foldl addBucket [] _) in *.
  rewrite <-list_fmap_compose. apply NoDup_alt. intros i j x Hi Hj. rewrite list_lookup_fmap in Hi, Hj.
  apply fmap_Some in Hi as ([k1 s1] & Hi & ->). apply fmap_Some in Hj as ([k2 s2] & Hj & He). cbn in He.
  destruct (Hf k1 s1) as (b1 & Hb1 & K1 & E1 & _); [by eapply list_elem_of_lookup_2|].
  destruct (Hf k2 s2) as (b2 & Hb2 & K2 & E2 & _); [by eapply list_elem_of_lookup_2|].
  rewrite E1, E2 in He. apply app_inv_head in He. apply routeBuckets_quota in Hb1 as [q1 Hb1], Hb2 as [q2 Hb2].
  pose proof (bucket_key_actions _ _ _ _ Hb1 Hb2 He) as Hk.
  apply (NoDup_lookup _ _ _ k1 Hn); rewrite list_lookup_fmap; [rewrite Hi|rewrite Hj]; cbn; congruence.
Qed.

(** *** Charged where it was checked *)

(** A header that the two kinds of action treat alike. *)
Definition plainHeader (h : HeaderMatch) : Prop := isDistinct h = true ∨ hm_Invert h ≠ Some true.
Definition selectedHeaders (rule : QuotaRule) : list HeaderMatch := qr_ClientSelectors rule ≫= sel_Headers.

Lemma plain_action rIdx mIdx h : plainHeader h → buildStreamDoneHeaderMatchAction rIdx mIdx h = buildHeaderMatchAction rIdx mIdx h.
Proof.
  unfold buildStreamDoneHeaderMatchAction, buildHeaderMatchAction. destruct (isDistinct h) eqn:E; [done|]. intros [H|H]; [congruence|].
  by rewrite bool_decide_true.
Qed.

Section Laws.
Context `{SL : !SortHeadersLaws SH}.

Lemma plain_bucket quota b :
  Forall (λ rule, Forall plainHeader (selectedHeaders rule)) (qd_BucketRules quota) → b ∈ bucketsOf quota → bu_done b = bu_request b.
Proof using SL.
  intros Hp [(i & rule & -> & Hi)%elem_of_lookup_imap|Hd]%elem_of_app.
  - cbn. unfold buildClientSelectorStreamDoneActions, buildClientSelectorActions, clientActions, flattenAndSortClientSelectorHeaders.
    eapply Forall_lookup_1 in Hp; [|done]. pose proof (sort_headers_perm (selectedHeaders rule)) as Hs. unfold selectedHeaders in *.
    destruct (sort_headers _) as [|h hs]; [done|]. rewrite <-Hs in Hp. apply imap_ext. intros j x Hj. apply plain_action.
    by eapply Forall_lookup_1.
  - unfold defaultBuckets in Hd. destruct (0 <? _)%N; [|by apply elem_of_nil in Hd].
    by destruct (qd_BucketRules quota); apply list_elem_of_singleton in Hd as ->.
Qed.

(** The request when its stream is done: the metadata of the external processor. *)
Definition whenDone (rq : request) (backend model : string) : request :=
  {| rq_Headers := rq_Headers rq;
     rq_Metadata := <[(AIGatewayFilterMetadataNamespace, "ai_service_backend_name") := backend]>
                      (<[(AIGatewayFilterMetadataNamespace, "model_name_override") := model]> (rq_Metadata rq)) |}.

(** Actions that read no metadata. *)
Definition readsMetadata (a : RateLimit_Action) : bool := match a with MetaData _ _ _ => true | _ => false end.

Lemma descriptor_whenDone regex rq backend model actions :
  Forall (λ a, readsMetadata a = false) actions → descriptor regex (whenDone rq backend model) actions = descriptor regex rq actions.
Proof. unfold descriptor. induction 1 as [|a actions Ha _ IH]; [done|]. cbn [mapM]. rewrite IH. by destruct a. Qed.

Lemma bucket_reads_nothing quota b : b ∈ bucketsOf quota → Forall (λ a, readsMetadata a = false) (bu_done b).
Proof.
  intros [(i & rule & -> & Hi)%elem_of_lookup_imap|Hd]%elem_of_app.
  - cbn. unfold buildClientSelectorStreamDoneActions, clientActions. destruct (flattenAndSortClientSelectorHeaders _) as [|h hs]; [by repeat constructor|].
    apply Forall_lookup. intros j a Ha. rewrite list_lookup_imap in Ha. apply fmap_Some in Ha as (x & _ & ->).
    unfold buildStreamDoneHeaderMatchAction. by destruct (isDistinct x).
  - unfold defaultBuckets in Hd. destruct (0 <? _)%N; [|by apply elem_of_nil in Hd].
    destruct (qd_BucketRules quota); apply list_elem_of_singleton in Hd as ->; by repeat constructor.
Qed.

(** Stream-done entries that are merged have the same actions. *)
Definition no_clash (policies : list QuotaPolicy) (info : option (gmap string (list string))) : Prop :=
  ∀ b1 b2, b1 ∈ (policies ≫= routeBuckets info) → b2 ∈ (policies ≫= routeBuckets info) → bu_key b1 = bu_key b2 → bu_done b1 = bu_done b2.

(** No rule of a model the route serves has an inverted selector. *)
Definition no_inverted (policies : list QuotaPolicy) (info : option (gmap string (list string))) : Prop :=
  ∀ policy m quota, policy ∈ policies → (m, quota) ∈ modelsOnRoute info policy →
    Forall (λ rule, Forall plainHeader (selectedHeaders rule)) (qd_BucketRules quota).

(** C31: what was checked is charged.  When no selector of the models the route serves
    is inverted and rules that share a stream-done entry select alike, then every
    request-time entry that is put on the route is for one backend and one model, and
    there is a stream-done entry on the route that, for a response of that backend and
    model, produces on every request the very descriptor of the request-time entry, and
    none when it produces none: the cost is charged to the bucket that was checked. *)
Theorem charged_where_checked regex policies info e :
  no_clash policies info → no_inverted policies info → e ∈ (routeEntries policies info).1 →
  ∃ backend model rest s,
    re_Actions e = GenericKey BackendNameDescriptorKey backend :: GenericKey ModelNameDescriptorKey model :: rest ∧
    s ∈ (routeEntries policies info).2.*2 ∧ re_ApplyOnStreamDone e = false ∧ re_ApplyOnStreamDone s = true ∧
    ∀ rq, descriptor regex (whenDone rq backend model) (re_Actions s) = descriptor regex rq (re_Actions e).
Proof using SL.
  intros Hc Hplain (policy & m & quota & target & b & Hp & Hm & Ht & Hb & ->)%elem_of_requestEntries.
  assert (b ∈ (policies ≫= routeBuckets info)) as Hb'.
  { apply list_elem_of_bind. exists policy. split; [|done]. apply list_elem_of_bind. by exists (m, quota). }
  rewrite routeEntries_spec. cbn [snd]. destruct (foldl_addBucket_ok (policies ≫= routeBuckets info)) as [_ Hf Ha].
  apply Ha in Hb' as ([k s] & Hk & Hs)%list_elem_of_fmap. cbn in Hk. destruct (Hf _ _ Hs) as (b' & Hb'' & Hk' & He & _ & Hdone).
  exists (targetKeyOf (qp_Namespace policy) target), m, (bu_request b), s. split; [done|].
  split; [apply list_elem_of_fmap; by exists (k, s)|]. split; [done|]. split; [done|]. intros rq. rewrite He.
  assert (bu_done b' = bu_done b) as Hd.
  { apply Hc; [done| |congruence]. apply list_elem_of_bind. exists policy. split; [|done]. apply list_elem_of_bind. by exists (m, quota). }
  rewrite Hd. unfold bucketEntry, requestTimeEntry. cbn [re_Actions]. rewrite <-(plain_bucket quota b) by (done || by eapply Hplain).
  cbn [app requestTimeBaseActions baseDescriptorActions]. unfold descriptor. cbn [mapM evalAction whenDone rq_Metadata].
  rewrite lookup_insert_eq, lookup_insert_ne, lookup_insert_eq by done. cbn [fmap option_fmap option_map mbind option_bind].
  pose proof (descriptor_whenDone regex rq (targetKeyOf (qp_Namespace policy) target) m (bu_done b) (bucket_reads_nothing _ _ Hb)) as Hdesc.
  unfold descriptor in Hdesc. by rewrite Hdesc.
Qed.
End Laws.

(** An inverted selector is checked but never charged: no request has both the
    request-time and the stream-done descriptor of the rule. *)
Lemma inverted_never_charged regex rq backend model rIdx mIdx h :
  isDistinct h = false → hm_Invert h = Some true →
  is_Some (evalAction regex rq (buildHeaderMatchAction rIdx mIdx h)) →
  evalAction regex (whenDone rq backend model) (buildStreamDoneHeaderMatchAction rIdx mIdx h) = None.
Proof.
  intros Hd Hi. unfold buildHeaderMatchAction, buildStreamDoneHeaderMatchAction. rewrite Hd, Hi. cbn.
  destruct (match rq_Headers rq !! _ with Some _ => _ | None => _ end); [|done]. by intros [? [=]].
Qed.

(** ** Which policies take part *)

Section Permitted.
Context `{MA : !Marshal} `{GC : !GrantClient} `{QC : !QuotaClient} (grants : list ReferenceGrant) `{GL : !GrantClientLaws GC grants}.
Context (namespaces : Forall (λ g, Contains (rg_Namespace g) "." = false) grants).

Lemma authorizedTargets_permitted policy target :
  validTargets policy → target ∈ authorizedTargets policy → target ∈ qp_TargetRefs policy ∧ targetPermitted grants policy target.
Proof using GL namespaces.
  unfold authorizedTargets, validTargets. intros Hv. rewrite Forall_forall in Hv.
  assert (∀ refs acc, (∀ t, t ∈ refs → t ∈ qp_TargetRefs policy) →
    (∀ t, t ∈ acc.2 → t ∈ qp_TargetRefs policy ∧ targetPermitted grants policy t) →
    ∀ t, t ∈ (foldl (authorizeTarget policy) acc refs).2 → t ∈ qp_TargetRefs policy ∧ targetPermitted grants policy t) as Hgen.
  2:{ apply Hgen; [done|]. by intros t ?%elem_of_nil. }
  induction refs as [|ref refs IH]; intros acc Hr Ha; [exact Ha|]. cbn [foldl].
  assert (ref ∈ qp_TargetRefs policy) as Href by (apply Hr, elem_of_cons; by left).
  apply IH; [intros t Ht; apply Hr, elem_of_cons; by right|]. unfold authorizeTarget.
  destruct (_ || _); [done|]. case_bool_decide; [done|].
  pose proof (validateReference_spec grants namespaces policyKind (qp_Namespace policy) backendKind
    (TargetNamespace ref (qp_Namespace policy)) (tg_Name ref) (Hv _ Href)) as Hspec.
  unfold validateQuotaPolicyAIServiceBackendReference. destruct (validateReference _ _ _ _ _); [|exact Ha..].
  cbn [snd]. intros t [Ht| ->%list_elem_of_singleton]%elem_of_app; [auto|]. split; [done|exact Hspec].
Qed.

Lemma elem_of_authorized policies p :
  p ∈ authorizedQuotaPolicies policies → ∃ p0, p0 ∈ policies ∧ p = withTargets p0 (authorizedTargets p0).
Proof.
  intros (p0 & Hp & Hin)%list_elem_of_bind. exists p0. split; [done|].
  destruct (authorizedTargets p0); [by apply elem_of_nil in Hp|]. by apply list_elem_of_singleton in Hp.
Qed.

Lemma buildQuotaBackendPolicies_in policies key ps p :
  buildQuotaBackendPolicies policies !! key = Some ps → p ∈ ps → p ∈ policies ∧ qp_Deleted p = false.
Proof.
  unfold buildQuotaBackendPolicies. set (f := λ backends policy, _).
  assert (∀ l (m : gmap string (list QuotaPolicy)), (∀ p, p ∈ l → p ∈ policies) →
    (∀ key ps p, m !! key = Some ps → p ∈ ps → p ∈ policies ∧ qp_Deleted p = false) →
    ∀ key ps p, foldl f m l !! key = Some ps → p ∈ ps → p ∈ policies ∧ qp_Deleted p = false) as Hgen.
  2:{ apply Hgen; [done|]. intros key' ps' p'. by rewrite lookup_empty. }
  induction l as [|q l IH]; intros m Hl Hm; [exact Hm|]. cbn [foldl].
  assert (q ∈ policies) as Hq by (apply Hl, elem_of_cons; by left).
  apply IH; [intros p' Hp'; apply Hl, elem_of_cons; by right|]. unfold f.
  destruct (qp_Deleted q) eqn:Ed; [done|]. clear IH Hl. induction (qp_TargetRefs q) as [|ref refs IHr] in m, Hm |- *; [exact Hm|].
  cbn [foldl]. apply IHr. intros key' ps' p'. unfold addBackendPolicy. set (k0 := NamespacedNameKey _ _).
  destruct (decide (k0 = key')) as [->|Hk]; [|rewrite lookup_insert_ne by done; apply Hm].
  rewrite lookup_insert_eq. intros [= <-] [Hp'| ->%list_elem_of_singleton]%elem_of_app; [|done].
  destruct (m !! key') as [ps0|] eqn:E; [by eapply Hm|by apply elem_of_nil in Hp'].
Qed.

Lemma policiesForRoute_in route qbp p : p ∈ policiesForRoute route qbp → ∃ key ps, qbp !! key = Some ps ∧ p ∈ ps.
Proof.
  unfold policiesForRoute. set (l := mbind _ _).
  assert (∀ p, p ∈ l → ∃ key ps, qbp !! key = Some ps ∧ p ∈ ps) as Hl.
  { intros q (c & (key & Hq & _)%list_elem_of_bind & _)%list_elem_of_bind. destruct (qbp !! key) as [ps|] eqn:E; [eauto|by apply elem_of_nil in Hq]. }
  clearbody l. assert (∀ acc, (∀ p, p ∈ acc.2 → ∃ key ps, qbp !! key = Some ps ∧ p ∈ ps) →
    p ∈ (foldl collectPolicy acc l).2 → ∃ key ps, qbp !! key = Some ps ∧ p ∈ ps) as Hgen.
  2:{ apply Hgen. by intros q ?%elem_of_nil. }
  induction l as [|q l IH]; intros acc Ha; [apply Ha|]. cbn [foldl]. apply IH; [intros; apply Hl, elem_of_cons; by right|].
  unfold collectPolicy. case_bool_decide; [done|]. cbn [snd]. intros p' [Hp'| ->%list_elem_of_singleton]%elem_of_app; [auto|].
  apply Hl, elem_of_cons. by left.
Qed.

(** C33: a quota is only enforced on backends its policy may refer to: every
    request-time entry that is put on a route names a backend that a listed policy,
    which is not being deleted, targets in its own namespace or by leave of a
    reference grant. *)
Theorem enforced_target_permitted sa policies route route' dom es e :
  Forall validTargets policies →
  patchRoute sa (buildQuotaBackendPolicies (authorizedQuotaPolicies policies)) route = Ok (route', true) →
  ro_TypedPerFilterConfig route !! quotaRateLimitFilterName = None →
  ro_TypedPerFilterConfig route' !! quotaRateLimitFilterName = Some (RateLimitPerRoute dom es) →
  e ∈ es → re_ApplyOnStreamDone e = false →
  ∃ p target, p ∈ policies ∧ qp_Deleted p = false ∧ target ∈ qp_TargetRefs p ∧ targetPermitted grants p target ∧
    head (re_Actions e) = Some (GenericKey BackendNameDescriptorKey (targetKeyOf (qp_Namespace p) target)).
Proof using GL namespaces.
  intros Hv Hpatch Hnone Hsome He Hreq. set (qbp := buildQuotaBackendPolicies _) in *.
  assert (∃ info, es = (routeEntries (policiesForRoute route qbp) info).1 ++ (routeEntries (policiesForRoute route qbp) info).2.*2) as [info ->].
  { revert Hpatch. unfold patchRoute. intros (gen & _ & H)%obind_ok_inv. revert H. destruct gen; [|done]. cbn [negb].
    destruct (ro_Action route); [|done]. destruct (negb _); [done|]. unfold enableQuotaRateLimitOnRoute.
    destruct (routeEntries _ _) as [rt done] eqn:E. destruct (rt ++ done.*2) as [|e0 es0] eqn:Er.
    - intros [= <-]. congruence.
    - destruct (owrap _ _); cbn [obind]; [|done..]. intros [= <-]. revert Hsome. cbn [setPerRoute ro_TypedPerFilterConfig].
      rewrite lookup_insert_eq. intros [= <- <-]. eexists. by rewrite E, <-Er. }
  apply elem_of_app in He as [He|He].
  2:{ apply elem_of_doneEntries in He as [He _]. congruence. }
  apply elem_of_requestEntries in He as (p & m & quota & target & b & Hp & _ & Ht & _ & ->).
  apply policiesForRoute_in in Hp as (key & ps & Hkey & Hp). apply (buildQuotaBackendPolicies_in _ _ _ _ Hkey) in Hp as [Hp Hd].
  apply elem_of_authorized in Hp as (p0 & Hp0 & ->). rewrite Forall_forall in Hv.
  apply authorizedTargets_permitted in Ht as [Ht Hperm]; [|by apply Hv]. exists p0, target. split_and!; done.
Qed.
End Permitted.
End Quota.

(** ** Samples *)
Module Sample.
Import QuotaController.Sample.

#[local] Instance marshal : Marshal := {| marshal_PerRoute _ := Ok tt; marshal_Filter _ := Ok tt; marshal_HCM _ := Ok tt |}.

Definition ref (name model : string) (ns : option string) : AIGatewayRouteRuleBackendRef :=
  {| rb_Name := name; rb_Namespace := ns; rb_Group := None; rb_Kind := None; rb_ModelNameOverride := model;
     rb_HeaderMutation := None; rb_BodyMutation := None; rb_Weight := None; rb_Priority := None |}.
Definition gatewayRoute : AIGatewayRoute :=
  {| ar_Namespace := "team"; ar_Name := "r"; ar_Deleted := false; ar_CreationTimestamp := 0; ar_ParentRefs := []; ar_Hostnames := [];
     ar_Rules := [{| ru_BackendRefs := [ref "openai" "gpt-4" None; ref "shared" "gpt-3" (Some "infra")]; ru_Matches := []; ru_ModelsOwnedBy := None;
                     ru_ModelsCreatedAt := None; ru_ExcludeFromModelsEndpoint := false; ru_Name := None; ru_Timeouts := None;
     ru_StreamIdleTimeout := None |}];
     ar_LLMRequestCosts := []; ar_HasFinalizer := true; ar_Labels := ∅;
     ar_Annotations := ∅ |}.

#[local] Instance quotaClient : QuotaClient :=
  {| list_QuotaPolicies := Ok [quotaPolicy]; get_AIGatewayRoute _ _ := Ok gatewayRoute |}.

Definition route : Route :=
  {| ro_Name := "r";
     ro_Metadata := Some {["envoy-gateway" := {["resources" := VList [VStruct {["annotations" :=
       VStruct {[AIGatewayGeneratedHTTPRouteAnnotation := VString "true"]}]}]]}]};
     ro_Action := Some (SingleCluster "httproute/team/r/rule/0"); ro_TypedPerFilterConfig := ∅; ro_AutoHostRewrite := None;
     ro_PerTryIdleTimeout := None; ro_RequestHeadersToAdd := [] |}.

Definition info := resolveRouteModelInfo route.
Definition policies : list QuotaPolicy := [quotaPolicy].

(** The entry of the rule for the first backend, and a request it selects. *)
Definition ruleEntry : RateLimitEntry := bucketEntry quotaPolicy "gpt-4" (target None "openai") (ruleBucket 0 (ruleOn
  [header HeaderMatchDistinct "x-user" ""; header HeaderMatchExact "x-tier" "gold"])).
Definition goldRequest : request := {| rq_Headers := <["x-user" := "ann"]> (<["x-tier" := "gold"]> ∅); rq_Metadata := ∅ |}.
Definition noRegex (r v : string) : bool := false.

Ltac find_in_list := vm_compute; repeat (apply list_elem_of_here || apply list_elem_of_further).

Lemma ruleEntry_on_route : ruleEntry ∈ (routeEntries policies info).1.
Proof.
  apply elem_of_requestEntries. exists quotaPolicy, "gpt-4", tierAndUser, (target None "openai"). eexists. split_and!; [..|reflexivity].
  - by apply list_elem_of_singleton.
  - apply list_elem_of_bind. exists (model "gpt-4" tierAndUser). split; [vm_compute; by left|vm_compute; by left].
  - by left.
  - vm_compute. by left.
Qed.

(** The descriptor of the request, with the user's own bucket, and its limit. *)
Lemma ruleEntry_limit :
  descriptor noRegex goldRequest (re_Actions ruleEntry) =
    Some [("backend_name", "team/openai"); ("model_name_override", "gpt-4"); ("rule-0-x-tier|gold-match-0", "rule-0-x-tier|gold-match-0");
          ("rule-0-x-user-match-1", "ann")] ∧
  (d ← descriptor noRegex goldRequest (re_Actions ruleEntry);
   serviceLimit (match BuildRateLimitConfigs quotaPolicy [{| sb_Namespace := "team"; sb_Name := "openai" |}] with
                 | Ok cfgs => cfgs ≫= rc_Descriptors | _ => [] end) d) = Some {| rl_RequestsPerUnit := 10; rl_Unit := HOUR |}.
Proof. split; vm_compute; reflexivity. Qed.

(** The configuration of the policy for all its backends. *)
Definition backends : list AIServiceBackend :=
  [{| sb_Namespace := "team"; sb_Name := "openai" |}; {| sb_Namespace := "infra"; sb_Name := "shared" |};
   {| sb_Namespace := "infra"; sb_Name := "private" |}].
Definition configs := match BuildRateLimitConfigs quotaPolicy backends with Ok cfgs => cfgs | _ => [] end.
Definition goldDescriptor := default [] (descriptor noRegex goldRequest (re_Actions ruleEntry)).

Lemma request_time_entry_has_limit_witness :
  ∃ limit, serviceLimit (configs ≫= rc_Descriptors) goldDescriptor = Some limit ∧ rl_RequestsPerUnit limit = 10%N ∧ re_HitsAddend ruleEntry = HitsNumber 0.
Proof.
  destruct (request_time_entry_has_limit noRegex policies info ruleEntry goldRequest goldDescriptor)
    as (p & m & quota & t & b & Hp & _ & Ht & _ & Hz & _ & _ & Hl).
  - repeat constructor; (apply (bool_decide_unpack _); vm_compute; exact I).
  - exact ruleEntry_on_route.
  - vm_compute. reflexivity.
  - apply list_elem_of_singleton in Hp as ->. destruct (Hl backends configs) as (unit & _ & Hs).
    + vm_compute. reflexivity.
    + apply (bool_decide_unpack _). vm_compute. exact I.
    + clear -Ht. vm_compute in Ht. repeat (apply elem_of_cons in Ht as [->|Ht]; [find_in_list|]). by apply elem_of_nil in Ht.
    + eexists. split; [exact Hs|]. split; [|exact Hz].
      assert (rl_RequestsPerUnit <$> serviceLimit (configs ≫= rc_Descriptors) goldDescriptor = Some 10%N) as Hten by (vm_compute; reflexivity).
      rewrite Hs in Hten. cbn [fmap option_fmap option_map rl_RequestsPerUnit] in Hten |- *. congruence.
Defined.

Lemma no_inverted_policies : no_inverted policies info.
Proof.
  intros p m quota ->%list_elem_of_singleton Hm. apply Forall_forall. intros rule Hr. apply Forall_forall. intros h Hh. right.
  vm_compute in Hm. apply list_elem_of_In in Hm. repeat (destruct Hm as [[= <- <-]|Hm] || destruct Hm);
  apply list_elem_of_In in Hr, Hh; cbn in Hr; repeat (destruct Hr as [<-|Hr] || destruct Hr); vm_compute in Hh; repeat (destruct Hh as [<-|Hh] || destruct Hh); discriminate.
Qed.

Lemma charged_where_checked_witness :
  ∃ s, s ∈ (routeEntries policies info).2.*2 ∧
    descriptor noRegex (whenDone goldRequest "team/openai" "gpt-4") (re_Actions s) =
      Some [("backend_name", "team/openai"); ("model_name_override", "gpt-4"); ("rule-0-x-tier|gold-match-0", "rule-0-x-tier|gold-match-0");
            ("rule-0-x-user-match-1", "ann")].
Proof.
  destruct (charged_where_checked noRegex policies info ruleEntry) as (backend & m & rest & s & Ha & Hs & _ & _ & Hd).
  - intros b1 b2 H1 H2. vm_compute in H1, H2.
    repeat match goal with
      | H : list_elem_of _ _ |- _ => apply list_elem_of_In in H
      | H : In _ _ |- _ => destruct H as [<-|H] || destruct H
      end;
      intros He; (reflexivity || (vm_compute in He; discriminate He)).
  - exact no_inverted_policies.
  - exact ruleEntry_on_route.
  - exists s. split; [exact Hs|]. specialize (Hd goldRequest). rewrite (proj1 ruleEntry_limit) in Hd.
    assert (backend = "team/openai" ∧ m = "gpt-4") as [-> ->]; [|exact Hd]. vm_compute in Ha. by injection Ha as <- <- _.
Defined.

Definition patched : Route :=
  match patchRoute false (buildQuotaBackendPolicies (authorizedQuotaPolicies policies)) route with Ok (r, _) => r | _ => route end.

Lemma enforced_target_permitted_witness :
  ∃ p t, p ∈ policies ∧ t ∈ qp_TargetRefs p ∧ targetPermitted [grant] p t ∧
    GenericKey BackendNameDescriptorKey "infra/shared" = GenericKey BackendNameDescriptorKey (targetKeyOf (qp_Namespace p) t).
Proof.
  set (e := bucketEntry quotaPolicy "gpt-3" (target (Some "infra") "shared")
    {| bu_request := []; bu_done := []; bu_key := simpleStreamDoneKey; bu_quota := value 5 "1m" |}).
  destruct (enforced_target_permitted [grant] ltac:(by repeat constructor) false policies route patched QuotaDomain
    (match ro_TypedPerFilterConfig patched !! quotaRateLimitFilterName with Some (RateLimitPerRoute _ es) => es | _ => [] end) e)
    as (p & t & Hp & _ & Ht & Hperm & Hh).
  - repeat constructor.
  - vm_compute. reflexivity.
  - reflexivity.
  - vm_compute. reflexivity.
  - find_in_list.
  - reflexivity.
  - exists p, t. split; [exact Hp|]. split; [exact Ht|]. split; [exact Hperm|]. vm_compute in Hh |- *. congruence.
Defined.

(** Rules that differ only in how they match share a stream-done entry: the cost
    of a request only the regular expression of the second model selects is not
    charged. *)
Definition clash : list QuotaPolicy :=
  [policy [model "gpt-4" (quotaOn [header HeaderMatchExact "x-tier" "g.*"]);
           model "gpt-3" (quotaOn [header HeaderMatchRegularExpression "x-tier" "g.*"])]].
Definition anyRegex (r v : string) : bool := true.

Lemma regex_rule_not_charged :
  let e := bucketEntry (policy []) "gpt-3" (target None "openai") (ruleBucket 0 (ruleOn [header HeaderMatchRegularExpression "x-tier" "g.*"])) in
  let checked := descriptor anyRegex goldRequest (re_Actions e) in
  e ∈ (routeEntries clash None).1 ∧ is_Some checked ∧
  existsb (λ s, bool_decide (descriptor anyRegex (whenDone goldRequest "team/openai" "gpt-3") (re_Actions s) = checked))
    (routeEntries clash None).2.*2 = false.
Proof. cbn zeta. split; [find_in_list|]. split; [vm_compute; by eexists|vm_compute; reflexivity]. Qed.
End Sample.
