(* ===== verification/BackendAuth.v ===== *)
(** * Upstream authentication

    Models [internal/backendauth]: the handlers that write a backend's
    credential into a request, the per-request credential overrides, and
    [NewHandler].  The cloud SDKs (Google default credentials, the AWS config
    loader, credential provider and SigV4 signer), the temporary file and
    [http.NewRequest] are the operations of the class [CloudAuth]; a call of
    [Do] happens at one instant, so the signer takes no clock.  The request
    headers are a Go map the handlers change in place: [Do] returns the map it
    leaves behind together with its result. *)

From Stdlib Require Import ZArith.
From stdpp Require Import base gmap strings list.
From S2P Require Import Prelude GoStrings InternalApi FilterApi EnvoyTypes.

(** [aws.Credentials], with the fields the source sets. *)
Record AWSCredentials := {
  cr_AccessKeyID : string;
  cr_SecretAccessKey : string;
  cr_SessionToken : string;
  cr_Source : string;
}.

(** The request handed to the SigV4 signer. *)
Record SignRequest := {
  sr_Method : string;
  sr_URL : string;
  sr_Host : string;
  sr_ContentLength : Z;
  sr_PayloadHash : string;
  sr_Service : string;
  sr_Region : string;
}.

Class CloudAuth := {
  TokenSource : Type;
  CredentialsProvider : Type;
  google_FindDefaultCredentials : outcome TokenSource;
  tokenSource_Token : TokenSource → outcome string;
  os_CreateTemp : outcome unit;
  tmpfile_WriteString : string → outcome unit;
  (** The shared credentials file's content, when one is given, and the region. *)
  config_LoadDefaultConfig : option string → string → outcome CredentialsProvider;
  provider_Retrieve : CredentialsProvider → outcome AWSCredentials;
  crypto_sha256 : string → string;
  http_NewRequest : string → string → outcome unit;
  (** The headers of the signed request, in the order [range] visits them. *)
  signer_SignHTTP : AWSCredentials → SignRequest → outcome (list (string * list string));
}.

(** The value [WithEnvoyMetadata] attaches to a context. *)
Definition context : Type := option Metadata.

Definition WithEnvoyMetadata (ctx : context) (md : option Metadata) : context :=
  match md with None => ctx | Some md => Some md end.

Definition envoyMetadataFromContext (ctx : context) : option Metadata := ctx.

Definition openAIOrganizationHeader : string := "OpenAI-Organization".
Definition openAIProjectHeader : string := "OpenAI-Project".

(** The closures stored as [applyCredentialFn]. *)
Inductive applyCredentialFn :=
| applyBearerCredential
| applyAnthropicCredential
| applyAzureAPIKeyCredential
| makeGCPApplyFn (region projectName : string)
| makeOpenAIApplyFn (organization project : string).

Record gcpHandler `{!CloudAuth} := {
  gh_gcpAccessToken : string;
  gh_tokenSource : option TokenSource;
  gh_region : string;
  gh_projectName : string;
}.

Record awsHandler `{!CloudAuth} := {
  ah_credentialsProvider : CredentialsProvider;
  ah_region : string;
}.

Inductive BackendAuthHandler `{!CloudAuth} :=
| apiKeyHandler (apiKey : string)
| azureAPIKeyHandler (apiKey : string)
| anthropicAPIKeyHandler (apiKey : string)
| azureHandler (azureAccessToken : string)
| openAIHandler (accessToken : string) (applyFn : applyCredentialFn)
| GCPHandler (h : gcpHandler)
| AWSHandler (h : awsHandler)
| credentialOverrideHandler (inner : BackendAuthHandler) (config : CredentialOverride)
    (applyFn : applyCredentialFn)
| awsCredentialOverrideHandler (inner : awsHandler) (config : CredentialOverride).

Section Handlers.
Context `{!CloudAuth}.

Notation headers := (gmap string string).

(** ** Applying a credential *)

Definition gcpPath (projectName region path : string) : string :=
  "/v1/projects/" +:+ projectName +:+ "/locations/" +:+ region +:+ "/" +:+ path.

Definition errMissingPath : error := errors_New "missing ':path' header in the request".

(** The closure of [makeGCPApplyFn]. *)
Definition gcpApply (region projectName : string) (requestHeaders : headers) (credential : string) :
    headers * outcome (list Header) :=
  let path := mget requestHeaders ":path" in
  if bool_decide (path = "") then (requestHeaders, Fail errMissingPath)
  else
    let newPath := gcpPath projectName region path in
    let v := "Bearer " +:+ credential in
    (<["Authorization" := v]> (<[":path" := newPath]> requestHeaders),
     Ok [(":path", newPath); ("Authorization", v)]).

(** The closure of [makeOpenAIApplyFn]. *)
Definition openAIApply (organization project : string) (requestHeaders : headers) (credential : string) :
    headers * outcome (list Header) :=
  let v := "Bearer " +:+ credential in
  let hs := (<["Authorization" := v]> requestHeaders, [("Authorization", v)]) in
  let hs := if bool_decide (organization ≠ "") then
              (<[openAIOrganizationHeader := organization]> hs.1,
               hs.2 ++ [(openAIOrganizationHeader, organization)])
            else hs in
  let hs := if bool_decide (project ≠ "") then
              (<[openAIProjectHeader := project]> hs.1, hs.2 ++ [(openAIProjectHeader, project)])
            else hs in
  (hs.1, Ok hs.2).

(** Calls the closure. *)
Definition applyCredential (f : applyCredentialFn) (requestHeaders : headers) (credential : string) :
    headers * outcome (list Header) :=
  match f with
  | applyBearerCredential =>
      let v := "Bearer " +:+ credential in
      (<["Authorization" := v]> requestHeaders, Ok [("Authorization", v)])
  | applyAnthropicCredential =>
      (<["x-api-key" := credential]> requestHeaders, Ok [("x-api-key", credential)])
  | applyAzureAPIKeyCredential =>
      (<["api-key" := credential]> requestHeaders, Ok [("api-key", credential)])
  | makeGCPApplyFn region projectName => gcpApply region projectName requestHeaders credential
  | makeOpenAIApplyFn organization project => openAIApply organization project requestHeaders credential
  end.

(** ** Static keys and tokens *)

Definition newAPIKeyHandler (auth : APIKeyAuth) : BackendAuthHandler := apiKeyHandler (TrimSpace (ak_Key auth)).

Definition apiKeyHandler_Do (apiKey : string) (requestHeaders : headers) : headers * outcome (list Header) :=
  (<["Authorization" := "Bearer " +:+ apiKey]> requestHeaders, Ok [("Authorization", "Bearer " +:+ apiKey)]).

Definition newAzureAPIKeyHandler (auth : AzureAPIKeyAuth) : outcome BackendAuthHandler :=
  if bool_decide (azk_Key auth = "") then Fail (errors_New "azure API key is required")
  else Ok (azureAPIKeyHandler (TrimSpace (azk_Key auth))).

Definition azureAPIKeyHandler_Do (apiKey : string) (requestHeaders : headers) : headers * outcome (list Header) :=
  (<["api-key" := apiKey]> requestHeaders, Ok [("api-key", apiKey)]).

Definition newAnthropicAPIKeyHandler (auth : AnthropicAPIKeyAuth) : BackendAuthHandler :=
  anthropicAPIKeyHandler (TrimSpace (ank_Key auth)).

Definition anthropicAPIKeyHandler_Do (apiKey : string) (requestHeaders : headers) : headers * outcome (list Header) :=
  (<["x-api-key" := apiKey]> requestHeaders, Ok [("x-api-key", apiKey)]).

Definition newAzureHandler (auth : AzureAuth) : BackendAuthHandler := azureHandler (TrimSpace (az_AccessToken auth)).

Definition azureHandler_Do (token : string) (requestHeaders : headers) : headers * outcome (list Header) :=
  (<["Authorization" := "Bearer " +:+ token]> requestHeaders, Ok [("Authorization", "Bearer " +:+ token)]).

Definition newOpenAIHandler (auth : OpenAIAuth) : BackendAuthHandler :=
  openAIHandler (TrimSpace (oa_AccessToken auth)) (makeOpenAIApplyFn (oa_Organization auth) (oa_Project auth)).

(** ** GCP *)

Definition newGCPHandler (auth : GCPAuth) : outcome gcpHandler :=
  if bool_decide (gcp_AccessToken auth ≠ "") then
    Ok {| gh_gcpAccessToken := gcp_AccessToken auth; gh_tokenSource := None;
          gh_region := gcp_Region auth; gh_projectName := gcp_ProjectName auth |}
  else
    let! ts := owrap "failed to find GCP default credentials: " google_FindDefaultCredentials in
    Ok {| gh_gcpAccessToken := ""; gh_tokenSource := Some ts;
          gh_region := gcp_Region auth; gh_projectName := gcp_ProjectName auth |}.

Definition gcpAccessToken (g : gcpHandler) : outcome string :=
  match gh_tokenSource g with
  | Some ts => owrap "failed to get GCP access token: " (tokenSource_Token ts)
  | None => Ok (gh_gcpAccessToken g)
  end.

Definition gcpHandler_Do (g : gcpHandler) (requestHeaders : headers) : headers * outcome (list Header) :=
  let path := mget requestHeaders ":path" in
  if bool_decide (path = "") then (requestHeaders, Fail errMissingPath)
  else
    let newPath := gcpPath (gh_projectName g) (gh_region g) path in
    match gcpAccessToken g with
    | Ok accessToken =>
        let v := "Bearer " +:+ accessToken in
        (<["Authorization" := v]> (<[":path" := newPath]> requestHeaders),
         Ok [(":path", newPath); ("Authorization", v)])
    | Fail e => (requestHeaders, Fail e)
    | Panic s => (requestHeaders, Panic s)
    end.

(** ** AWS *)

Definition newAWSHandler (auth : AWSAuth) : outcome awsHandler :=
  let! provider :=
    if bool_decide (aws_CredentialFileLiteral auth ≠ "") then
      let! _ := owrap "cannot create temp file for AWS credentials: " os_CreateTemp in
      let! _ := owrap "cannot write AWS credentials to temp file: "
                  (tmpfile_WriteString (aws_CredentialFileLiteral auth)) in
      owrap "cannot load from credentials file: "
        (config_LoadDefaultConfig (Some (aws_CredentialFileLiteral auth)) (aws_Region auth))
    else owrap "cannot load AWS config: " (config_LoadDefaultConfig None (aws_Region auth)) in
  Ok {| ah_credentialsProvider := provider; ah_region := aws_Region auth |}.

Definition signingHost (a : awsHandler) (requestHeaders : headers) : string :=
  let host := mget requestHeaders UpstreamHostHeader in
  if bool_decide (host ≠ "") then host
  else "bedrock-runtime." +:+ ah_region a +:+ ".amazonaws.com".

(** The signed request for a set of credentials. *)
Definition signRequest (a : awsHandler) (requestHeaders : headers) (mutatedBody : string) : SignRequest :=
  let host := signingHost a requestHeaders in
  let r := AWSBedrockRegionFromHost host in
  {| sr_Method := mget requestHeaders ":method";
     sr_URL := "https://" +:+ host +:+ mget requestHeaders ":path";
     sr_Host := host;
     sr_ContentLength := -1;
     sr_PayloadHash := hex_EncodeToString (crypto_sha256 mutatedBody);
     sr_Service := "bedrock";
     sr_Region := if bool_decide (r ≠ "") then r else ah_region a |}.

(** [for key, hdr := range req.Header]. *)
Fixpoint signedHeaders (signed : list (string * list string)) (requestHeaders : headers)
    (acc : list Header) : headers * outcome (list Header) :=
  match signed with
  | [] => (requestHeaders, Ok acc)
  | (key, hdr) :: signed =>
      if bool_decide (key = "Authorization") || HasPrefix key "X-Amz-" then
        match hdr with
        | [] => (requestHeaders, Panic "index out of range")
        | v :: _ => signedHeaders signed (<[key := v]> requestHeaders) (acc ++ [(key, v)])
        end
      else signedHeaders signed requestHeaders acc
  end.

Definition signWith (a : awsHandler) (credentials : AWSCredentials) (requestHeaders : headers)
    (mutatedBody : string) : headers * outcome (list Header) :=
  let req := signRequest a requestHeaders mutatedBody in
  match (let! _ := owrap "cannot create request: " (http_NewRequest (sr_Method req) (sr_URL req)) in
         owrap "cannot sign request: " (signer_SignHTTP credentials req)) with
  | Ok signed => signedHeaders signed requestHeaders []
  | Fail e => (requestHeaders, Fail e)
  | Panic s => (requestHeaders, Panic s)
  end.

Definition awsHandler_Do (a : awsHandler) (requestHeaders : headers) (mutatedBody : string) :
    headers * outcome (list Header) :=
  match owrap "cannot retrieve AWS credentials: " (provider_Retrieve (ah_credentialsProvider a)) with
  | Ok credentials => signWith a credentials requestHeaders mutatedBody
  | Fail e => (requestHeaders, Fail e)
  | Panic s => (requestHeaders, Panic s)
  end.

(** ** Per-request credentials *)

Definition errCredentialMissing : error :=
  errors_Sentinel "per-request credential missing" ErrCredentialMissing.
Definition errIncompleteAWSCredential : error :=
  errors_Sentinel "incomplete per-request AWS credential: access key ID and secret access key must both be present"
    ErrIncompleteAWSCredential.

Definition lookupMetadataValue (ctx : context) (o : CredentialOverride) : option Value :=
  match envoyMetadataFromContext ctx with
  | None => None
  | Some md =>
      match md !! co_DynamicMetadataNamespace o with
      | None => None
      | Some ns => ns !! co_DynamicMetadataKey o
      end
  end.

Definition resolveCredential (o : CredentialOverride) (ctx : context) (requestHeaders : headers) : string :=
  if bool_decide (co_HeaderName o ≠ "") then TrimSpace (mget requestHeaders (co_HeaderName o))
  else if bool_decide (co_DynamicMetadataNamespace o ≠ "") then
    TrimSpace (GetStringValue (lookupMetadataValue ctx o))
  else "".

Definition awsMetadataAccessKeyIDField : string := "accessKeyId".
Definition awsMetadataSecretAccessKeyField : string := "secretAccessKey".
Definition awsMetadataSessionTokenField : string := "sessionToken".
Definition awsCredentialSource : string := "AIGatewayCredentialOverride".

(** The three values of a per-request AWS credential, when a source is configured. *)
Definition awsCredentialParts (o : CredentialOverride) (ctx : context) (requestHeaders : headers) :
    option (string * string * string) :=
  if bool_decide (co_HeaderName o ≠ "") then
    let '(accessKeyIDHeader, secretAccessKeyHeader, sessionTokenHeader) :=
      AWSCredentialOverrideHeaderNames (co_HeaderName o) in
    Some (TrimSpace (mget requestHeaders accessKeyIDHeader),
          TrimSpace (mget requestHeaders secretAccessKeyHeader),
          TrimSpace (mget requestHeaders sessionTokenHeader))
  else if bool_decide (co_DynamicMetadataNamespace o ≠ "") then
    let fields := GetStructFields (lookupMetadataValue ctx o) in
    Some (TrimSpace (GetStringValue (fields !! awsMetadataAccessKeyIDField)),
          TrimSpace (GetStringValue (fields !! awsMetadataSecretAccessKeyField)),
          TrimSpace (GetStringValue (fields !! awsMetadataSessionTokenField)))
  else None.

Definition resolveAWSCredentials (o : CredentialOverride) (ctx : context) (requestHeaders : headers) :
    outcome (option AWSCredentials) :=
  match awsCredentialParts o ctx requestHeaders with
  | None => Ok None
  | Some (accessKeyID, secretAccessKey, sessionToken) =>
      if bool_decide (accessKeyID = "") && bool_decide (secretAccessKey = "") && bool_decide (sessionToken = "")
      then Ok None
      else if bool_decide (accessKeyID = "") || bool_decide (secretAccessKey = "")
      then Fail errIncompleteAWSCredential
      else Ok (Some {| cr_AccessKeyID := accessKeyID; cr_SecretAccessKey := secretAccessKey;
                       cr_SessionToken := sessionToken; cr_Source := awsCredentialSource |})
  end.

(** ** [BackendAuthHandler.Do] *)

Fixpoint Do (h : BackendAuthHandler) (ctx : context) (requestHeaders : headers) (mutatedBody : string) :
    headers * outcome (list Header) :=
  match h with
  | apiKeyHandler apiKey => apiKeyHandler_Do apiKey requestHeaders
  | azureAPIKeyHandler apiKey => azureAPIKeyHandler_Do apiKey requestHeaders
  | anthropicAPIKeyHandler apiKey => anthropicAPIKeyHandler_Do apiKey requestHeaders
  | azureHandler token => azureHandler_Do token requestHeaders
  | openAIHandler accessToken applyFn => applyCredential applyFn requestHeaders accessToken
  | GCPHandler g => gcpHandler_Do g requestHeaders
  | AWSHandler a => awsHandler_Do a requestHeaders mutatedBody
  | credentialOverrideHandler inner config applyFn =>
      let credential := resolveCredential config ctx requestHeaders in
      if bool_decide (credential = "") then
        if negb (co_FallbackToConfigured config) then (requestHeaders, Fail errCredentialMissing)
        else Do inner ctx requestHeaders mutatedBody
      else applyCredential applyFn requestHeaders credential
  | awsCredentialOverrideHandler inner config =>
      match resolveAWSCredentials config ctx requestHeaders with
      | Fail e => (requestHeaders, Fail e)
      | Panic s => (requestHeaders, Panic s)
      | Ok None =>
          if negb (co_FallbackToConfigured config) then (requestHeaders, Fail errCredentialMissing)
          else awsHandler_Do inner requestHeaders mutatedBody
      | Ok (Some credentials) => signWith inner credentials requestHeaders mutatedBody
      end
  end.

(** ** [NewHandler] *)

(** The [switch] for every provider but AWS. *)
Definition newInner (config : BackendAuth) : outcome (BackendAuthHandler * applyCredentialFn) :=
  match ba_APIKey config with
  | Some a => Ok (newAPIKeyHandler a, applyBearerCredential)
  | None =>
  match ba_AzureAPIKey config with
  | Some a =>
      let! h := newAzureAPIKeyHandler a in
      Ok (h, applyAzureAPIKeyCredential)
  | None =>
  match ba_AzureAuth config with
  | Some a => Ok (newAzureHandler a, applyBearerCredential)
  | None =>
  match ba_GCPAuth config with
  | Some a =>
      let! g := newGCPHandler a in
      Ok (GCPHandler g, makeGCPApplyFn (gcp_Region a) (gcp_ProjectName a))
  | None =>
  match ba_OpenAIAuth config with
  | Some a =>
      Ok (newOpenAIHandler a, makeOpenAIApplyFn (oa_Organization a) (oa_Project a))
  | None =>
  match ba_AnthropicAPIKey config with
  | Some a => Ok (newAnthropicAPIKeyHandler a, applyAnthropicCredential)
  | None => Fail (errors_New "no backend auth handler found")
  end end end end end end.

Definition NewHandler (config : BackendAuth) : outcome BackendAuthHandler :=
  match ba_AWSAuth config with
  | Some a =>
      let! inner := newAWSHandler a in
      match ba_CredentialOverride config with
      | None => Ok (AWSHandler inner)
      | Some o => Ok (awsCredentialOverrideHandler inner o)
      end
  | None =>
      let! '(inner, applyFn) := newInner config in
      match ba_CredentialOverride config with
      | Some o => Ok (credentialOverrideHandler inner o applyFn)
      | None => Ok inner
      end
  end.
End Handlers.

(** ** Properties *)

Section Props.
Context `{!CloudAuth}.

Notation headers := (gmap string string).

(** The handlers keep the local map and the returned headers in step. *)
Definition agrees (hs : headers) (r : headers * outcome (list Header)) : Prop :=
  match r.2 with
  | Ok l => r.1 = insert_all l hs
  | Fail _ => r.1 = hs
  | Panic _ => True
  end.

Lemma applyCredential_agrees f hs c : agrees hs (applyCredential f hs c).
Proof. destruct f; simpl; unfold gcpApply, openAIApply, agrees; simpl; repeat case_bool_decide; reflexivity. Qed.

Lemma signedHeaders_agrees signed hs0 acc :
  agrees hs0 (signedHeaders signed (insert_all acc hs0) acc).
Proof.
  revert acc. induction signed as [|[k vs] signed IH]; intros acc; simpl; [done|].
  destruct (_ || _); [|apply IH]. destruct vs as [|v vs]; [done|].
  rewrite <-(insert_all_snoc acc (k, v)). apply IH.
Qed.

Lemma signWith_agrees a c hs body : agrees hs (signWith a c hs body).
Proof.
  unfold signWith. destruct (let! _ := _ in _); [|done..]. apply (signedHeaders_agrees _ hs []).
Qed.

Lemma awsHandler_Do_agrees a hs body : agrees hs (awsHandler_Do a hs body).
Proof. unfold awsHandler_Do. destruct (owrap _ _); [apply signWith_agrees|done..]. Qed.

Lemma Do_in_step h ctx hs body : agrees hs (Do h ctx hs body).
Proof.
  induction h; simpl.
  1-4: reflexivity.
  - apply applyCredential_agrees.
  - unfold gcpHandler_Do. case_bool_decide; [done|]. destruct (gcpAccessToken _); unfold agrees; simpl; auto.
  - apply awsHandler_Do_agrees.
  - case_bool_decide; [|apply applyCredential_agrees]. by destruct (co_FallbackToConfigured _).
  - destruct (resolveAWSCredentials _ _ _) as [[c|]| |]; [apply signWith_agrees| |done..].
    destruct (co_FallbackToConfigured _); [apply awsHandler_Do_agrees|done].
Qed.

(** For every handler, the headers it returns for Envoy to set are exactly
    the ones it stores in the request's header map, and an error leaves the
    map untouched. *)
Theorem Do_agrees h ctx hs body : agrees hs (Do h ctx hs body).
Proof. apply Do_in_step. Qed.

(** The header names authentication may write. *)
Definition auth_header (k : string) : Prop :=
  k ∈ ["Authorization"; "api-key"; "x-api-key"; ":path"; openAIOrganizationHeader; openAIProjectHeader]
  ∨ HasPrefix k "X-Amz-" = true.

Lemma applyCredential_names f hs c l : (applyCredential f hs c).2 = Ok l → Forall auth_header l.*1.
Proof.
  destruct f; simpl; unfold gcpApply, openAIApply; simpl; repeat case_bool_decide; simpl; intros; simplify_eq; simpl;
    repeat constructor; left; set_solver.
Qed.

Lemma signedHeaders_names signed hs acc l :
  Forall auth_header acc.*1 → (signedHeaders signed hs acc).2 = Ok l → Forall auth_header l.*1.
Proof.
  revert hs acc. induction signed as [|[k vs] signed IH]; intros hs acc Ha; simpl; [by intros [= <-]|].
  destruct (_ || _) eqn:E; [|by apply IH]. destruct vs as [|v vs]; [done|].
  apply IH. rewrite fmap_app. apply Forall_app. split; [done|]. constructor; [|done]. simpl.
  apply orb_true_iff in E as [E|E]; [|by right]. apply bool_decide_eq_true in E as ->. left. set_solver.
Qed.

Lemma signWith_names a c hs body l : (signWith a c hs body).2 = Ok l → Forall auth_header l.*1.
Proof. unfold signWith. destruct (let! _ := _ in _); [by apply signedHeaders_names|done..]. Qed.

Lemma awsHandler_Do_names a hs body l : (awsHandler_Do a hs body).2 = Ok l → Forall auth_header l.*1.
Proof. unfold awsHandler_Do. destruct (owrap _ _); simpl; [apply signWith_names|done..]. Qed.

Lemma Do_names h ctx hs body l : (Do h ctx hs body).2 = Ok l → Forall auth_header l.*1.
Proof.
  revert l. induction h; simpl; intros l Hl.
  1-4: injection Hl as <-; repeat constructor; left; set_solver.
  - by eapply applyCredential_names.
  - unfold gcpHandler_Do in Hl. case_bool_decide; [done|].
    destruct (gcpAccessToken _); [|done..]. injection Hl as <-.
    repeat constructor; left; set_solver.
  - by eapply awsHandler_Do_names.
  - case_bool_decide; [|by eapply applyCredential_names]. by destruct (co_FallbackToConfigured _); auto.
  - destruct (resolveAWSCredentials _ _ _) as [[c|]| |]; [by eapply signWith_names| |done..].
    destruct (co_FallbackToConfigured _); [|done]. simpl in Hl. by eapply awsHandler_Do_names.
Qed.

(** Authentication writes only authentication headers (and, for GCP, the
    path): no handler can overwrite another request header. *)
Theorem Do_writes_auth_headers h ctx hs body l k :
  (Do h ctx hs body).2 = Ok l → ¬ auth_header k → (Do h ctx hs body).1 !! k = hs !! k.
Proof.
  intros Hl Hk. pose proof (Do_in_step h ctx hs body) as Ha. unfold agrees in Ha. rewrite Hl in Ha.
  rewrite Ha, lookup_insert_all.
  pose proof (Do_names _ _ _ _ _ Hl) as Hn.
  destruct (last_binding k l) as [v|] eqn:E; [|done].
  apply last_binding_elem in E. rewrite Forall_forall in Hn.
  destruct Hk. apply (Hn k). apply list_elem_of_fmap. by exists (k, v).
Qed.

(** ** Overrides *)

(** The decision of the single-value override: a per-request credential is
    the only credential used, whatever handler is configured; without one the
    request is refused with [ErrCredentialMissing] and nothing is written,
    unless falling back to the configured handler was asked for. *)
Theorem credentialOverride_decision inner config applyFn ctx hs body :
  Do (credentialOverrideHandler inner config applyFn) ctx hs body =
    if decide (resolveCredential config ctx hs ≠ "") then
      applyCredential applyFn hs (resolveCredential config ctx hs)
    else if co_FallbackToConfigured config then Do inner ctx hs body
    else (hs, Fail errCredentialMissing).
Proof.
  simpl. case_bool_decide as E; case_decide; try done. by destruct (co_FallbackToConfigured config).
Qed.

(** C37: a per-request AWS credential is used whole or not at all: when it is
    partial (a lone session token included) the request is refused with
    [ErrIncompleteAWSCredential], even when falling back is allowed, and no
    signature is computed from the configured credentials; when it is complete
    the request is signed with exactly these values. *)
Theorem awsOverride_whole_or_refused inner config ctx hs body ak sk st :
  awsCredentialParts config ctx hs = Some (ak, sk, st) →
  Do (awsCredentialOverrideHandler inner config) ctx hs body =
    if decide (ak ≠ "" ∧ sk ≠ "") then
      signWith inner {| cr_AccessKeyID := ak; cr_SecretAccessKey := sk;
                        cr_SessionToken := st; cr_Source := awsCredentialSource |} hs body
    else if decide (ak = "" ∧ sk = "" ∧ st = "") then
      if co_FallbackToConfigured config then awsHandler_Do inner hs body
      else (hs, Fail errCredentialMissing)
    else (hs, Fail errIncompleteAWSCredential).
Proof.
  intros Hp. simpl. unfold resolveAWSCredentials. rewrite Hp.
  repeat (case_bool_decide; simpl); repeat case_decide; simplify_eq/=; try tauto;
    by destruct (co_FallbackToConfigured config).
Qed.

(** The secret a handler without an override uses. *)
Definition configured_secret (h : BackendAuthHandler) : outcome string :=
  match h with
  | apiKeyHandler k | azureAPIKeyHandler k | anthropicAPIKeyHandler k => Ok k
  | azureHandler t | openAIHandler t _ => Ok t
  | GCPHandler g => gcpAccessToken g
  | _ => Fail (errors_New "not a single secret")
  end.

Lemma newGCPHandler_scope auth g :
  newGCPHandler auth = Ok g → gh_region g = gcp_Region auth ∧ gh_projectName g = gcp_ProjectName auth.
Proof. unfold newGCPHandler. case_bool_decide; intros; outcome_inv; by subst. Qed.

(** An override produces the same request the configured handler produces
    for the same secret: for every provider but AWS, [NewHandler] pairs the
    inner handler with the [applyCredentialFn] of the same headers. *)
Theorem newInner_apply_equiv config h f secret ctx hs body :
  newInner config = Ok (h, f) → configured_secret h = Ok secret →
  Do h ctx hs body = applyCredential f hs secret.
Proof.
  unfold newInner. intros Hn Hs.
  unfold newAzureAPIKeyHandler in Hn.
  repeat case_match; outcome_inv; simplify_eq/=; try done.
  match goal with H : newGCPHandler _ = Ok _ |- _ => apply newGCPHandler_scope in H as [Hr Hp] end.
  unfold gcpHandler_Do, gcpApply. by rewrite Hs, Hr, Hp.
Qed.

(** The signing scope follows the host the request goes to: for a Bedrock
    host the region signed for is the one in the host name, whatever region is
    configured, and for any other host the configured one. *)
Lemma signRequest_region a hs body :
  sr_Host (signRequest a hs body) = signingHost a hs ∧
  sr_Region (signRequest a hs body) =
    (if decide (AWSBedrockRegionFromHost (signingHost a hs) = "") then ah_region a
     else AWSBedrockRegionFromHost (signingHost a hs)).
Proof. simpl. split; [done|]. case_bool_decide; case_decide; naive_solver. Qed.
End Props.

(** ** Concrete runs *)

(** A cloud with one token source and one credential, whose signer writes its
    inputs into the headers. *)
#[local] Instance testCloud : CloudAuth := {|
  TokenSource := string;
  CredentialsProvider := string;
  google_FindDefaultCredentials := Ok "adc";
  tokenSource_Token ts := Ok ("token-of-" +:+ ts);
  os_CreateTemp := Ok tt;
  tmpfile_WriteString _ := Ok tt;
  config_LoadDefaultConfig literal region := Ok region;
  provider_Retrieve p := Ok {| cr_AccessKeyID := "configured"; cr_SecretAccessKey := "s";
                               cr_SessionToken := ""; cr_Source := p |};
  crypto_sha256 body := body;
  http_NewRequest _ _ := Ok tt;
  signer_SignHTTP c r := Ok [("Authorization", [cr_AccessKeyID c +:+ "@" +:+ sr_Region r]);
                             ("Content-Type", ["x"]); ("X-Amz-Date", ["now"])];
|}.

Definition testAWS : awsHandler :=
  Build_awsHandler testCloud "provider" "us-west-2".

Definition testOverride (fallback : bool) : CredentialOverride :=
  {| co_HeaderName := "x-aws-"; co_DynamicMetadataNamespace := ""; co_DynamicMetadataKey := "";
     co_FallbackToConfigured := fallback; co_InputHeadersToRemove := [] |}.

Lemma Do_writes_auth_headers_witness :
  (Do (AWSHandler testAWS) None {["content-type" := "json"]} "").1
    !! "content-type" = Some "json".
Proof.
  refine (Do_writes_auth_headers (AWSHandler testAWS) None
    {["content-type" := "json"]} "" _ "content-type" eq_refl _).
  intros [H|H]; [|vm_compute in H; discriminate H].
  repeat (apply elem_of_cons in H as [H|H]; [discriminate H|]). by apply elem_of_nil in H.
Defined.

Lemma awsOverride_whole_or_refused_witness :
  let hs := <["x-aws-access-key-id" := "AK"]> (<["x-aws-secret-access-key" := "SK"]> ∅) in
  (Do (awsCredentialOverrideHandler testAWS (testOverride true)) None hs "").2 =
    Ok [("Authorization", "AK@us-west-2"); ("X-Amz-Date", "now")] ∧
  (Do (awsCredentialOverrideHandler testAWS (testOverride true)) None
     {["x-aws-session-token" := "T"]} "").2 = Fail errIncompleteAWSCredential.
Proof.
  split.
  - rewrite (awsOverride_whole_or_refused _ _ _ _ _ "AK" "SK" ""); vm_compute; reflexivity.
  - rewrite (awsOverride_whole_or_refused _ _ _ _ _ "" "" "T"); vm_compute; reflexivity.
Defined.

Definition testGCP : BackendAuth :=
  {| ba_APIKey := None; ba_AWSAuth := None; ba_AzureAPIKey := None; ba_AnthropicAPIKey := None;
     ba_AzureAuth := None; ba_OpenAIAuth := None; ba_CredentialOverride := None;
     ba_GCPAuth := Some {| gcp_AccessToken := ""; gcp_Region := "r"; gcp_ProjectName := "p" |} |}.

Lemma newInner_apply_equiv_witness :
  (Do
     (GCPHandler (Build_gcpHandler testCloud "" (Some ("adc" : @TokenSource testCloud)) "r" "p")) None
     {[":path" := "x:generate"]} "").2 =
    Ok [(":path", "/v1/projects/p/locations/r/x:generate"); ("Authorization", "Bearer token-of-adc")].
Proof.
  rewrite (newInner_apply_equiv testGCP _ (makeGCPApplyFn "r" "p") "token-of-adc");
    vm_compute; reflexivity.
Defined.
