(* ===== verification/Costs.v ===== *)
(** * Request costs and dynamic metadata

    Models the part of [internal/extproc/processor_impl.go] that evaluates the
    configured costs of a request and builds the dynamic metadata Envoy's rate
    limiter and access log read ([evalCost] to
    [buildDynamicMetadataWithBackendIdentity], and the builders of the request
    phase).  The freshly built protobuf messages are not shared, so updating
    one is returning it. *)

From Stdlib Require Import ZArith.
From stdpp Require Import base gmap strings list.
From S2P Require Import Prelude GoStrings GoNum InternalApi TokenUsage FilterApi EnvoyTypes.

(** ** Building and merging metadata *)

(** A message whose only field is the gateway's namespace. *)
Definition namespaced (fields : Struct) : Struct :=
  {[AIGatewayFilterMetadataNamespace := VStruct fields]}.

(** The fields under the gateway's namespace ([GetStructValue] is nil for
    another kind of value). *)
Definition namespace_fields (s : Struct) : option Struct :=
  match s !! AIGatewayFilterMetadataNamespace with
  | Some (VStruct m) => Some m
  | _ => None
  end.

Definition buildContentLengthDynamicMetadataOnRequest (contentLength : nat) : Struct :=
  namespaced {["content_length" := NewNumberValue_Z (Z.of_nat contentLength)]}.

Definition buildBackendDynamicMetadata (backendName : string) : option Struct :=
  if bool_decide (backendName = "") then None
  else Some (namespaced {["backend_name" := VString backendName]}).

(** [LogRequestHeaderAttributes] is a package variable set at start-up; [range]
    visits it in an unspecified order. *)
Definition buildRequestHeaderDynamicMetadata
    (range : gmap string string → list (string * string))
    (LogRequestHeaderAttributes requestHeaders : gmap string string) : option Struct :=
  if bool_decide (LogRequestHeaderAttributes = ∅) then None
  else
    let fields := foldl (λ (fields : Struct) '(header, attr),
      match requestHeaders !! header with
      | Some value => if bool_decide (value = "") then fields else <[attr := VString value]> fields
      | None => fields
      end) ∅ (range LogRequestHeaderAttributes) in
    if bool_decide (fields = ∅) then None else Some (namespaced fields).

Definition mergeDynamicMetadata (base extra : option Struct) : option Struct :=
  match base, extra with
  | None, _ => extra
  | _, None => base
  | Some base, Some extra =>
      let baseFields := default ∅ (namespace_fields base) in
      match namespace_fields extra with
      | None => Some (<[AIGatewayFilterMetadataNamespace := VStruct baseFields]> base)
      | Some extraFields =>
          Some (<[AIGatewayFilterMetadataNamespace := VStruct (extraFields ∪ baseFields)]> base)
      end
  end.

(** ** Costs *)

Definition resolveAIServiceBackendName (explicitName backendName : string) : string :=
  if bool_decide (explicitName ≠ "") then explicitName
  else
    let derivedName := AIServiceBackendName backendName in
    if bool_decide (derivedName ≠ "") then derivedName else backendName.

Section Costs.
Context {Prog : Type} `{!CelEnv Prog}.

(** A nil CEL program is a nil interface: calling it panics. *)
Definition evalCost (costType : LLMRequestCostType) (celProg : option Prog) (costs : TokenUsage)
    (requestHeaders : gmap string string) (backendName routeName : string) : outcome Z :=
  if bool_decide (costType = LLMRequestCostTypeInputToken) then Ok (uint64 (InputTokens costs).1)
  else if bool_decide (costType = LLMRequestCostTypeCachedInputToken) then
    Ok (uint64 (CachedInputTokens costs).1)
  else if bool_decide (costType = LLMRequestCostTypeCacheCreationInputToken) then
    Ok (uint64 (CacheCreationInputTokens costs).1)
  else if bool_decide (costType = LLMRequestCostTypeOutputToken) then Ok (uint64 (OutputTokens costs).1)
  else if bool_decide (costType = LLMRequestCostTypeTotalToken) then Ok (uint64 (TotalTokens costs).1)
  else if bool_decide (costType = LLMRequestCostTypeReasoningToken) then
    Ok (uint64 (ReasoningTokens costs).1)
  else if bool_decide (costType = LLMRequestCostTypeCEL) then
    match celProg with
    | None => Panic "nil CEL program"
    | Some prog =>
        owrap "failed to evaluate CEL expression: "
          (EvaluateProgram prog
             {| cel_model := mget requestHeaders ModelNameHeaderKeyDefault;
                cel_backend := backendName;
                cel_route_name := routeName;
                cel_input_tokens := (InputTokens costs).1;
                cel_cached_input_tokens := (CachedInputTokens costs).1;
                cel_cache_creation_input_tokens := (CacheCreationInputTokens costs).1;
                cel_output_tokens := (OutputTokens costs).1;
                cel_total_tokens := (TotalTokens costs).1;
                cel_reasoning_tokens := (ReasoningTokens costs).1 |})
    end
  else Fail (errors_New ("unknown cost type: " +:+ costType)).

Definition evalRuntimeGlobalRequestCost (rc : RuntimeGlobalRequestCost Prog) (costs : TokenUsage)
    (requestHeaders : gmap string string) (backendName routeName : string) : outcome Z :=
  evalCost (gc_Type (rg_Cost rc)) (rg_CELProg rc) costs requestHeaders backendName routeName.

Definition evalRuntimeRequestCost (rc : RuntimeRequestCost Prog) (costs : TokenUsage)
    (requestHeaders : gmap string string) (backendName routeName : string) : outcome Z :=
  evalCost (rc_Type (rr_Cost rc)) (rr_CELProg rc) costs requestHeaders backendName routeName.

(** The three [continue] guards of the route-scoped loop. *)
Definition costApplies (rc : RuntimeRequestCost Prog) (shortBackend routeName actualModel : string) : bool :=
  negb ((bool_decide (rc_Backend (rr_Cost rc) ≠ "") && bool_decide (rc_Backend (rr_Cost rc) ≠ shortBackend))
        || bool_decide (rc_RouteName (rr_Cost rc) ≠ routeName)
        || (bool_decide (rc_Model (rr_Cost rc) ≠ "") && bool_decide (rc_Model (rr_Cost rc) ≠ actualModel))).

Definition routeCostBody (costs : TokenUsage) (requestHeaders : gmap string string)
    (backendName shortBackend routeName actualModel : string)
    (st : Struct * gset string) (rc : RuntimeRequestCost Prog) : outcome (Struct * gset string) :=
  let '(metadata, populatedKeys) := st in
  if negb (costApplies rc shortBackend routeName actualModel) then Ok st
  else
    let! cost := evalRuntimeRequestCost rc costs requestHeaders backendName routeName in
    Ok (<[rc_MetadataKey (rr_Cost rc) := NewNumberValue_Z cost]> metadata,
        {[rc_MetadataKey (rr_Cost rc)]} ∪ populatedKeys).

Definition globalCostBody (costs : TokenUsage) (requestHeaders : gmap string string)
    (backendName routeName : string) (populatedKeys : gset string)
    (metadata : Struct) (rc : RuntimeGlobalRequestCost Prog) : outcome Struct :=
  if bool_decide (gc_MetadataKey (rg_Cost rc) ∈ populatedKeys) then Ok metadata
  else
    let! cost := evalRuntimeGlobalRequestCost rc costs requestHeaders backendName routeName in
    Ok (<[gc_MetadataKey (rg_Cost rc) := NewNumberValue_Z cost]> metadata).

Definition insert_when (b : bool) (k : string) (v : Value) (m : Struct) : Struct :=
  if b then <[k := v]> m else m.

Definition buildDynamicMetadataWithBackendIdentity
    (globalRequestCosts : list (RuntimeGlobalRequestCost Prog))
    (requestCosts : list (RuntimeRequestCost Prog)) (costs : TokenUsage)
    (requestHeaders : gmap string string)
    (backendName aiServiceBackendName routeName responseModel : string) : outcome (option Struct) :=
  let shortBackend := aiServiceBackendName in
  let actualModel := mget requestHeaders ModelNameHeaderKeyDefault in
  let! '(metadata, populatedKeys) :=
    ofold (routeCostBody costs requestHeaders backendName shortBackend routeName actualModel)
      (∅, ∅) requestCosts in
  let! metadata :=
    ofold (globalCostBody costs requestHeaders backendName routeName populatedKeys) metadata globalRequestCosts in
  let metadata := <["model_name_override" := VString actualModel]> metadata in
  let metadata := insert_when (bool_decide (backendName ≠ "")) "ai_service_backend_name"
                    (VString shortBackend) metadata in
  let metadata := insert_when (bool_decide (routeName ≠ "")) "route_name" (VString routeName) metadata in
  let metadata := insert_when (bool_decide (responseModel ≠ "")) "response_model"
                    (VString responseModel) metadata in
  if bool_decide (metadata = ∅) then Ok None else Ok (Some (namespaced metadata)).

Definition buildDynamicMetadata (globalRequestCosts : list (RuntimeGlobalRequestCost Prog))
    (requestCosts : list (RuntimeRequestCost Prog)) (costs : TokenUsage)
    (requestHeaders : gmap string string) (backendName routeName responseModel : string) :
    outcome (option Struct) :=
  buildDynamicMetadataWithBackendIdentity globalRequestCosts requestCosts costs requestHeaders backendName
    (resolveAIServiceBackendName "" backendName) routeName responseModel.
End Costs.

(** [mergeWithTokenLatencyMetadata]: a nil message panics. *)
Definition mergeWithTokenLatencyMetadata (timeToFirstTokenMs interTokenLatencyMs : float64)
    (metadata : option Struct) : outcome Struct :=
  match metadata with
  | None => Panic "nil metadata"
  | Some metadata =>
      let inner := default ∅ (namespace_fields metadata) in
      Ok (<[AIGatewayFilterMetadataNamespace :=
              VStruct (<["token_latency_itl" := VNumber interTokenLatencyMs]>
                       (<["token_latency_ttft" := VNumber timeToFirstTokenMs]> inner))]> metadata)
  end.

(** ** Properties *)

Section CostProps.
Context {Prog : Type} `{!CelEnv Prog}.
Context (globals : list (RuntimeGlobalRequestCost Prog)) (routes : list (RuntimeRequestCost Prog)).
Context (costs : TokenUsage) (requestHeaders : gmap string string).
Context (backendName shortBackend routeName responseModel : string).

Let actualModel : string := mget requestHeaders ModelNameHeaderKeyDefault.

(** The values of the route-scoped costs that apply to this request, by key. *)
Definition route_values (l : list (RuntimeRequestCost Prog)) : list (string * outcome Z) :=
  (λ rc, (rc_MetadataKey (rr_Cost rc),
          evalRuntimeRequestCost rc costs requestHeaders backendName routeName)) <$>
    filter (λ rc, costApplies rc shortBackend routeName actualModel = true) l.

(** The values of the global costs whose key no applying route cost has. *)
Definition global_values (l : list (RuntimeGlobalRequestCost Prog)) : list (string * outcome Z) :=
  (λ rc, (gc_MetadataKey (rg_Cost rc),
          evalRuntimeGlobalRequestCost rc costs requestHeaders backendName routeName)) <$>
    filter (λ rc, gc_MetadataKey (rg_Cost rc) ∉ (route_values routes).*1) l.

(** The entries that are not costs. *)
Definition reserved_entry (k : string) : option Value :=
  if bool_decide (k = "response_model" ∧ responseModel ≠ "") then Some (VString responseModel)
  else if bool_decide (k = "route_name" ∧ routeName ≠ "") then Some (VString routeName)
  else if bool_decide (k = "ai_service_backend_name" ∧ backendName ≠ "") then Some (VString shortBackend)
  else if bool_decide (k = "model_name_override") then Some (VString actualModel)
  else None.

Definition cost_number (v : option (outcome Z)) : option Value :=
  match v with Some (Ok z) => Some (NewNumberValue_Z z) | _ => None end.

(** The two-tier rule: the applying route-scoped costs, then the global ones. *)
Definition cost_entry (k : string) : option Value :=
  match last_binding k (route_values routes) with
  | Some v => cost_number (Some v)
  | None => cost_number (last_binding k (global_values globals))
  end.

Lemma routeLoop_ok l m keys :
  ofold (routeCostBody costs requestHeaders backendName shortBackend routeName actualModel) (∅, ∅) l =
    Ok (m, keys) →
  keys = list_to_set (route_values l).*1 ∧
  (∀ k, m !! k = cost_number (last_binding k (route_values l))).
Proof.
  revert m keys. induction l as [|rc l IH] using rev_ind; intros m keys H.
  { simpl in H. simplify_eq. split; [done|]. intros k. by rewrite lookup_empty. }
  rewrite ofold_app in H. apply obind_ok_inv in H as ([m0 keys0] & H0 & H).
  destruct (IH _ _ H0) as [-> Hm]. simpl in H. apply obind_ok_inv in H as ([m1 keys1] & H & [= <- <-]).
  unfold route_values. rewrite filter_app, filter_cons, filter_nil.
  destruct (costApplies rc _ _ _) eqn:Ec; simpl in H.
  - apply obind_ok_inv in H as (z & Hz & [= <- <-]). rewrite decide_True by done.
    rewrite fmap_app, fmap_app. simpl. split; [set_solver|]. intros k.
    rewrite last_binding_snoc. simpl. rewrite Hz. unfold route_values in Hm.
    case_decide as E; [subst; by rewrite lookup_insert_eq|]. by rewrite lookup_insert_ne, Hm.
  - simplify_eq. by rewrite decide_False, app_nil_r.
Qed.

Lemma globalLoop_ok l m0 m :
  let keys : gset string := list_to_set (route_values routes).*1 in
  ofold (globalCostBody costs requestHeaders backendName routeName keys) m0 l = Ok m →
  ∀ k, m !! k = match last_binding k (global_values l) with
                | Some v => cost_number (Some v)
                | None => m0 !! k
                end.
Proof.
  intros keys. revert m. induction l as [|rc l IH] using rev_ind; intros m H k.
  { simpl in H. by simplify_eq. }
  rewrite ofold_app in H. apply obind_ok_inv in H as (m1 & H0 & H).
  specialize (IH _ H0 k). simpl in H. apply obind_ok_inv in H as (m2 & H & [= <-]).
  unfold global_values. rewrite filter_app, filter_cons, filter_nil. unfold globalCostBody in H.
  case_bool_decide as Ek; unfold keys in Ek; rewrite elem_of_list_to_set in Ek.
  - simplify_eq. rewrite decide_False by tauto. by rewrite app_nil_r.
  - outcome_inv. rewrite decide_True by done. rewrite fmap_app. simpl. rewrite last_binding_snoc. simpl.
    match goal with H : evalRuntimeGlobalRequestCost _ _ _ _ _ = Ok _ |- _ => rewrite H end. subst m2.
    case_decide as E; [subst; by rewrite lookup_insert_eq|]. by rewrite lookup_insert_ne, IH.
Qed.

Lemma lookup_insert_when (P : Prop) `{!Decision P} k k' v (m : Struct) :
  insert_when (bool_decide P) k v m !! k' = if bool_decide (k' = k ∧ P) then Some v else m !! k'.
Proof.
  unfold insert_when. case_bool_decide; [|by rewrite bool_decide_false by naive_solver].
  rewrite lookup_insert. case_decide; [by rewrite bool_decide_true by naive_solver|].
  by rewrite bool_decide_false by naive_solver.
Qed.

Lemma insert_when_ne b k v (m : Struct) : m ≠ ∅ → insert_when b k v m ≠ ∅.
Proof. unfold insert_when. destruct b; [|done]. intros _. apply insert_non_empty. Qed.

(** C35: the two-tier cost rule.  When the metadata is built, every key holds
    the identity entry of that name if there is one, else the value of the last
    route-scoped cost that applies to this route, backend and model, else the
    value of the last global cost of that key; a global cost never overrides a
    route-scoped one, and the result is never nil. *)
Theorem buildDynamicMetadata_two_tier r :
  buildDynamicMetadataWithBackendIdentity globals routes costs requestHeaders
    backendName shortBackend routeName responseModel = Ok r →
  ∃ m, r = Some (namespaced m) ∧
    ∀ k, m !! k = match reserved_entry k with Some v => Some v | None => cost_entry k end.
Proof.
  unfold buildDynamicMetadataWithBackendIdentity. fold actualModel. intros H.
  apply obind_ok_inv in H as ([m0 keys] & H0 & H). apply routeLoop_ok in H0 as [-> Hm0].
  apply obind_ok_inv in H as (m1 & H1 & H). pose proof (globalLoop_ok _ _ _ H1) as Hm1.
  rewrite bool_decide_false in H by (repeat apply insert_when_ne; apply insert_non_empty).
  injection H as <-. eexists. split; [done|]. intros k. rewrite !lookup_insert_when, lookup_insert.
  unfold reserved_entry, cost_entry.
  do 3 (case_bool_decide; [done|]). case_decide; case_bool_decide; [done|by subst..|].
  rewrite Hm1, Hm0.
  destruct (last_binding k (global_values globals)) eqn:Eg; [|by destruct (last_binding k (route_values routes))].
  assert (last_binding k (route_values routes) = None) as ->; [|done].
  apply last_binding_None. apply last_binding_elem in Eg.
  apply list_elem_of_fmap in Eg as (rc & [= -> ->] & Hrc). apply list_elem_of_filter in Hrc as [Hrc _]. done.
Qed.
End CostProps.

(** A token-count cost reaches the metadata exactly: the [uint32] counter
    fits the float64 of the protobuf number, so the rate limiter is charged
    the count that was reported (only CEL costs, which are 64 bits wide, can be
    rounded). *)
Theorem token_cost_exact {Prog} `{!CelEnv Prog} costType (prog : option Prog) costs hs backend route z :
  usage_wf costs → costType ≠ LLMRequestCostTypeCEL →
  evalCost costType prog costs hs backend route = Ok z →
  f64_is_Z (f64_of_Z z) z ∧
  z ∈ [inputTokens costs; cachedInputTokens costs; cacheCreationInputTokens costs;
       outputTokens costs; totalTokens costs; reasoningTokens costs].
Proof.
  intros (H1 & H2 & H3 & H4 & H5 & H6) Hcel He.
  assert (∀ v, in_uint32 v → f64_is_Z (f64_of_Z (uint64 v)) (uint64 v) ∧ uint64 v = v) as Hex.
  { intros v Hv. unfold in_uint32 in Hv. assert (uint64 v = v) as ->.
    { unfold uint64. rewrite Z.mod_small by lia. done. }
    split; [apply f64_of_Z_exact; lia|done]. }
  unfold evalCost in He. repeat case_bool_decide; simplify_eq; simpl;
    match goal with H : in_uint32 ?v |- context [uint64 ?v] =>
      destruct (Hex v H) as [? Heq]; split; [done|rewrite Heq; set_solver] end.
Qed.

Definition sampleUsage : TokenUsage := SetOutputTokens 30 (SetInputTokens 12 zeroUsage).

Lemma token_cost_exact_witness :
  f64_is_Z (f64_of_Z 12) 12 ∧
  evalCost (CelEnv0 := sumCel) LLMRequestCostTypeInputToken None sampleUsage ∅ "b" "r" = Ok 12%Z.
Proof.
  split; [|reflexivity].
  apply (token_cost_exact (CelEnv0 := sumCel) LLMRequestCostTypeInputToken None sampleUsage ∅ "b" "r" 12).
  - vm_compute. repeat split; congruence.
  - discriminate.
  - reflexivity.
Defined.

(** A global cost and a route-scoped one with the same key: the route's wins. *)
Definition sampleGlobals : list (RuntimeGlobalRequestCost unit) :=
  [{| rg_Cost := {| gc_MetadataKey := "cost"; gc_Type := LLMRequestCostTypeInputToken; gc_CEL := "" |};
      rg_CELProg := None |}].
Definition sampleRoutes : list (RuntimeRequestCost unit) :=
  [{| rr_Cost := {| rc_MetadataKey := "cost"; rc_RouteName := "ns/r"; rc_Type := LLMRequestCostTypeOutputToken;
                    rc_CEL := ""; rc_Backend := ""; rc_Model := "" |}; rr_CELProg := None |}].

Lemma buildDynamicMetadata_two_tier_witness :
  ∃ m, buildDynamicMetadataWithBackendIdentity (CelEnv0 := sumCel) sampleGlobals sampleRoutes sampleUsage
         {["x-ai-eg-model" := "gpt"]} "ns/b" "ns/b" "ns/r" "" = Ok (Some (namespaced m)) ∧
    m !! "cost" = Some (NewNumberValue_Z 30).
Proof.
  destruct (buildDynamicMetadata_two_tier (CelEnv0 := sumCel) sampleGlobals sampleRoutes sampleUsage
    {["x-ai-eg-model" := "gpt"]} "ns/b" "ns/b" "ns/r" "" _ eq_refl) as (m & Hr & Hm).
  exists m. split; [rewrite <-Hr; reflexivity|]. rewrite (Hm "cost"). reflexivity.
Defined.

(** A cost of type CEL whose expression is empty is accepted when the
    configuration is loaded and panics when it is evaluated. *)
Theorem empty_CEL_cost_panics {H Prog Codec} `{!CelEnv Prog} (fn : BackendAuth → outcome H)
    (NewCodec : string → Z → string → Z → outcome Codec) key :
  let c := {| gc_MetadataKey := key; gc_Type := LLMRequestCostTypeCEL; gc_CEL := "" |} in
  let config := {| cfg_Version := ""; cfg_UUID := ""; cfg_GlobalLLMRequestCosts := [c];
                   cfg_LLMRequestCosts := []; cfg_Backends := []; cfg_Models := []; cfg_ModelsByHost := ∅;
                   cfg_UnscopedModels := []; cfg_FileIDEncryption := None |} in
  ∃ rt, NewRuntimeConfig fn NewCodec config = Ok rt ∧
    ∀ usage hs backend id route model,
      buildDynamicMetadataWithBackendIdentity (rt_GlobalRequestCosts rt) (rt_RequestCosts rt) usage hs
        backend id route model = Panic "nil CEL program".
Proof. eexists. split; [reflexivity|]. intros. reflexivity. Qed.

(** ** Merging *)

(** Merging keeps what both sides say: the later builder's fields win,
    every other field of the earlier one stays, and merging with nothing
    changes nothing. *)
Theorem mergeDynamicMetadata_spec base extra k :
  let fields s := default ∅ (namespace_fields s) in
  match mergeDynamicMetadata base extra with
  | None => base = None ∧ extra = None
  | Some s =>
      fields s !! k =
        match (x ← extra; fields x !! k) with
        | Some v => Some v
        | None => b ← base; fields b !! k
        end
  end.
Proof.
  unfold mergeDynamicMetadata. destruct base as [b|], extra as [x|]; simpl; try done.
  - unfold namespace_fields at 3. destruct (namespace_fields x) as [fx|] eqn:Ex; simpl.
    + unfold namespace_fields at 1. rewrite lookup_insert_eq. simpl. rewrite lookup_union.
      unfold namespace_fields in Ex. destruct (x !! _) as [[]|]; simplify_eq. simpl.
      destruct (fx !! k); simpl; [by rewrite union_Some_l|]. by rewrite (left_id_L None union).
    + unfold namespace_fields at 1. rewrite lookup_insert_eq. simpl.
      unfold namespace_fields in Ex. destruct (x !! _) as [[]|]; simplify_eq; by rewrite lookup_empty.
  - by destruct (default ∅ (namespace_fields x) !! k).
Qed.
