(* ===== verification/ExtProc.v ===== *)
(** * The external processor: one request through the gateway

    Models [internal/extproc/processor_impl.go] (the router and the upstream
    processor of an LLM endpoint) and [internal/extproc/util.go].

    A request has one router processor and one upstream processor per attempt.
    An upstream processor works on its own fields and on its parent's: the
    operations below take and return the pair [up], the router and the upstream
    processor.  Calls on the metrics object and on the tracing span are recorded
    in order, as lists of events; [defer]red recordings are appended when the
    function returns.  Logging is left out.

    The endpoint specification, the translator, the tracer, the decompressors,
    the [sjson] library, the auth handler and the metrics getters are classes:
    their implementations are other packages.  A translator is a state machine;
    for the optional setter interfaces a translator that does not implement one
    has the identity.  Header maps are passed by reference in the source, but
    no holder of a reference observes a later change (the original headers are
    complete before the first upstream processor exists), so copies are taken. *)

From Stdlib Require Import ZArith.
From stdpp Require Import base gmap strings list.
From S2P Require Import Prelude GoStrings GoNum InternalApi TokenUsage FilterApi HeaderMutator EnvoyTypes BackendAuth Costs.

Notation headers := (gmap string string).

(** ** Readers and decompression *)

(** An [io.Reader]: what [io.ReadAll] returns, data and error. *)
Record reader := { rd_data : string; rd_err : option error }.

Definition bytes_NewReader (b : string) : reader := {| rd_data := b; rd_err := None |}.

Class Decompressors := {
  gzip_NewReader : string → outcome reader;
  brotli_NewReader : string → reader;
}.

Record contentDecodingResult := { cd_reader : reader; cd_isEncoded : bool }.

Definition decodeContentIfNeeded `{!Decompressors} (body contentEncoding : string) :
    outcome contentDecodingResult :=
  if bool_decide (body = "") then Ok {| cd_reader := bytes_NewReader body; cd_isEncoded := false |}
  else if bool_decide (contentEncoding = "gzip") then
    let! r := owrap "failed to decode gzip: " (gzip_NewReader body) in
    Ok {| cd_reader := r; cd_isEncoded := true |}
  else if bool_decide (contentEncoding = "br") then
    Ok {| cd_reader := brotli_NewReader body; cd_isEncoded := true |}
  else Ok {| cd_reader := bytes_NewReader body; cd_isEncoded := false |}.

Definition isGoodStatusCode (code : Z) : bool := (200 <=? code)%Z && (code <? 300)%Z.

(** ** Header and body mutations *)

Definition removeContentEncodingIfNeeded (headerMutation : option HeaderMutation)
    (bodyMutation : option BodyMutation) (isEncoded : bool) : option HeaderMutation :=
  if bool_decide (is_Some bodyMutation) && isEncoded then
    Some (addRemoveHeaders (default emptyHeaderMutation headerMutation) ["content-encoding"])
  else headerMutation.

(** The header mutation is never nil, the body mutation is nil when there is no body. *)
Definition mutationsFromTranslationResult (newHeaders : list Header) (newBody : option string) :
    HeaderMutation * option BodyMutation :=
  ({| hmut_SetHeaders := overwrite <$> newHeaders; hmut_RemoveHeaders := [] |},
   (λ b, {| bmut_Body := Some b |}) <$> newBody).

Definition GetBody (m : option BodyMutation) : option string := m ≫= bmut_Body.

Definition applyBodyMutation `{!Sjson} (bodyMutator : option BodyMutator)
    (bodyMutation : option BodyMutation) (originalRequestBodyRaw : option string) : option BodyMutation :=
  match bodyMutator with
  | None => bodyMutation
  | Some bm =>
      match bodyMutation with
      | None =>
          match BodyMutator_Mutate bm originalRequestBodyRaw with
          | Ok mutatedBody => Some {| bmut_Body := mutatedBody |}
          | _ => None
          end
      | Some m =>
          match bmut_Body m with
          | Some b =>
              if bool_decide (b ≠ "") then
                match BodyMutator_Mutate bm (Some b) with
                | Ok mutatedBody => Some {| bmut_Body := mutatedBody |}
                | _ => bodyMutation
                end
              else bodyMutation
          | None => bodyMutation
          end
      end
  end.

(** [headerMutationCarrier.Set]. *)
Definition carrier_Set (m : HeaderMutation) (kv : string * string) : HeaderMutation :=
  addSetHeaders m
    [{| hvo_AppendAction := APPEND_IF_EXISTS_OR_ADD; hvo_Key := kv.1; hvo_RawValue := kv.2 |}].

(** [setHeader] of [models_processor.go]. *)
Definition setHeader (m : HeaderMutation) (key value : string) : HeaderMutation := carrier_Set m (key, value).

(** ** Local replies *)

Definition dq : string := String (chr 34) "".

(** The message goes in as it is. *)
Definition formatUserFacingErrorJSON (errorType : string) (statusCode : Z) (message : string) : string :=
  "{" +:+ dq +:+ "type" +:+ dq +:+ ":" +:+ dq +:+ "error" +:+ dq +:+ "," +:+ dq +:+ "error" +:+ dq +:+ ":{" +:+
  dq +:+ "type" +:+ dq +:+ ":" +:+ dq +:+ errorType +:+ dq +:+ "," +:+
  dq +:+ "code" +:+ dq +:+ ":" +:+ dq +:+ Itoa statusCode +:+ dq +:+ "," +:+
  dq +:+ "message" +:+ dq +:+ ":" +:+ dq +:+ message +:+ dq +:+ "}}".

(** [codes.InvalidArgument]. *)
Definition codes_InvalidArgument : Z := 3.

Definition createUserFacingErrorResponse (statusCode : Z) (errorType message : string) : ProcessingResponse :=
  let body := formatUserFacingErrorJSON errorType statusCode message in
  let headerMutation := setHeader emptyHeaderMutation "content-type" "application/json" in
  let headerMutation := setHeader headerMutation "content-length" (itoa (String.length body)) in
  plainResponse (RespImmediate
    {| im_Status := statusCode; im_Headers := headerMutation; im_Body := body;
       im_GrpcStatus := codes_InvalidArgument |}).

Definition immediateBody (r : ProcessingResponse) : string :=
  match pr_Response r with RespImmediate i => im_Body i | _ => "" end.

(** ** Recorded calls *)

(** Calls on [metrics.Metrics]. *)
Inductive MetricsEvent :=
| MStartRequest (hs : headers)
| MSetOriginalModel (m : string)
| MSetRequestModel (m : string)
| MSetResponseModel (m : string)
| MSetBackend (b : Backend)
| MRecordRequestCompletion (success : bool) (hs : headers)
| MRecordTokenUsage (u : TokenUsage) (hs : headers)
| MRecordTokenLatency (tokens : Z) (endOfStream : bool) (hs : headers).

(** Calls on the tracing span. *)
Inductive SpanEvent :=
| SEndSpan
| SEndSpanOnError (code : Z) (body : string)
| SRecordBackend (schema name : string).

(** ** Interfaces of the other packages *)

(** The getters of the metrics object, as functions of the calls made on it. *)
Class MetricsGetters := {
  GetTimeToFirstTokenMs : list MetricsEvent → float64;
  GetInterTokenLatencyMs : list MetricsEvent → float64;
}.

(** [translator.Translator] with its optional setters. *)
Class Translator (ReqT T Span : Type) := {
  tr_RequestBody : T → option string → option ReqT → bool → T * outcome (list Header * option string);
  tr_ResponseHeaders : T → headers → T * outcome (list Header);
  tr_ResponseBody : T → headers → reader → bool → option Span →
    T * (list Header * option string * TokenUsage * string * option error);
  tr_ResponseError : T → headers → reader → T * outcome (list Header * option string);
  tr_SetContentType : T → string → T;
  tr_SetRequestHeaders : T → headers → T;
  tr_SetHeaderValueFilter : T → string → string → list string → T;
  tr_SetRedactionConfig : T → bool → bool → T;
}.

(** [endpointspec.Spec]: original model, parsed request, streaming, mutated body. *)
Class EndpointSpec (ReqT T : Type) := {
  eh_ParseBody : option string → bool → outcome (string * ReqT * bool * option string);
  eh_ParseMultipartBody : option string → string → bool → outcome (string * ReqT * bool * option string);
  eh_GetTranslator : VersionedAPISchema → string → outcome T;
}.

(** [tracingapi.RequestTracer]: the span, nil when the request is not sampled,
    and the headers injected through the carrier. *)
Class RequestTracer (ReqT Span : Type) := {
  StartSpanAndInjectHeaders : headers → ReqT → option string → option Span * list (string * string);
  isBackendSpan : Span → bool;
}.

(** [filterapi.BackendAuthHandler]. *)
Class AuthHandler (H : Type) := {
  auth_Do : H → context → headers → option string → headers * outcome (list Header);
}.

(** The handlers of [internal/backendauth] implement it. *)
#[export] Instance backendAuth_handler `{!CloudAuth} : AuthHandler BackendAuthHandler :=
  {| auth_Do h ctx hs body := Do h ctx hs (default "" body) |}.

(** ** Processors *)

Section Processors.
Context {ReqT T Span H Prog Codec : Type}.

Record routerProcessor := {
  rp_config : RuntimeConfig H Prog Codec;
  rp_requestHeaders : headers;
  rp_originalRequestBody : option ReqT;
  rp_originalRequestBodyRaw : option string;
  rp_originalModel : string;
  rp_forceBodyMutation : bool;
  rp_span : option Span;
  rp_spanEvents : list SpanEvent;
  (** The attempt whose upstream processor handles the response. *)
  rp_upstreamFilter : option nat;
  rp_upstreamFilterCount : nat;
  rp_localReplyEmitted : bool;
  rp_stream : bool;
  rp_debugLogEnabled : bool;
  rp_enableRedaction : bool;
}.

Definition newRouterProcessor (config : RuntimeConfig H Prog Codec) (requestHeaders : headers)
    (debugLogEnabled enableRedaction : bool) : routerProcessor :=
  {| rp_config := config; rp_requestHeaders := requestHeaders; rp_originalRequestBody := None;
     rp_originalRequestBodyRaw := None; rp_originalModel := ""; rp_forceBodyMutation := false;
     rp_span := None; rp_spanEvents := []; rp_upstreamFilter := None; rp_upstreamFilterCount := 0;
     rp_localReplyEmitted := false; rp_stream := false; rp_debugLogEnabled := debugLogEnabled;
     rp_enableRedaction := enableRedaction |}.

Record upstreamProcessor := {
  u_requestHeaders : headers;
  u_responseHeaders : headers;
  u_responseEncoding : string;
  u_compressedBuf : string;
  u_decompressedOffset : nat;
  u_responseStreamTerminated : bool;
  u_translator : option T;
  u_modelNameOverride : string;
  u_headerMutator : option HeaderMutator;
  u_bodyMutator : option BodyMutator;
  u_backendName : string;
  u_aiServiceBackendName : string;
  u_routeName : string;
  u_handler : option H;
  u_unsupportedBackendErr : option error;
  u_costs : TokenUsage;
  u_metrics : list MetricsEvent;
}.

Definition newUpstreamProcessor (reqHeader : headers) : upstreamProcessor :=
  {| u_requestHeaders := reqHeader; u_responseHeaders := ∅; u_responseEncoding := "";
     u_compressedBuf := ""; u_decompressedOffset := 0; u_responseStreamTerminated := false;
     u_translator := None; u_modelNameOverride := ""; u_headerMutator := None; u_bodyMutator := None;
     u_backendName := ""; u_aiServiceBackendName := ""; u_routeName := ""; u_handler := None;
     u_unsupportedBackendErr := None; u_costs := zeroUsage; u_metrics := [] |}.
End Processors.
Arguments routerProcessor : clear implicits.
Arguments upstreamProcessor : clear implicits.

Section Handlers.
Context {ReqT T Span H Prog Codec : Type}.
Context `{!Translator ReqT T Span, !EndpointSpec ReqT T, !RequestTracer ReqT Span, !AuthHandler H}.
Context `{!CelEnv Prog, !Decompressors, !Sjson, !MetricsGetters}.
(** The visiting orders of the [range] loops over Go maps. *)
Context (range1 range2 range3 : headers → list (string * string)).
(** The package variable [LogRequestHeaderAttributes]. *)
Context (LogRequestHeaderAttributes : headers).

(** ** Field updates *)

Definition set_requestHeaders (v : headers) (p : upstreamProcessor T H) : upstreamProcessor T H :=
  {| u_requestHeaders := v; u_responseHeaders := u_responseHeaders p; u_responseEncoding :=
     u_responseEncoding p; u_compressedBuf := u_compressedBuf p; u_decompressedOffset :=
     u_decompressedOffset p; u_responseStreamTerminated := u_responseStreamTerminated p;
     u_translator := u_translator p; u_modelNameOverride := u_modelNameOverride p; u_headerMutator
     := u_headerMutator p; u_bodyMutator := u_bodyMutator p; u_backendName := u_backendName p;
     u_aiServiceBackendName := u_aiServiceBackendName p; u_routeName := u_routeName p; u_handler :=
     u_handler p; u_unsupportedBackendErr := u_unsupportedBackendErr p; u_costs := u_costs p;
     u_metrics := u_metrics p |}.

Definition set_responseHeaders (v : headers) (p : upstreamProcessor T H) : upstreamProcessor T H :=
  {| u_requestHeaders := u_requestHeaders p; u_responseHeaders := v; u_responseEncoding :=
     u_responseEncoding p; u_compressedBuf := u_compressedBuf p; u_decompressedOffset :=
     u_decompressedOffset p; u_responseStreamTerminated := u_responseStreamTerminated p;
     u_translator := u_translator p; u_modelNameOverride := u_modelNameOverride p; u_headerMutator
     := u_headerMutator p; u_bodyMutator := u_bodyMutator p; u_backendName := u_backendName p;
     u_aiServiceBackendName := u_aiServiceBackendName p; u_routeName := u_routeName p; u_handler :=
     u_handler p; u_unsupportedBackendErr := u_unsupportedBackendErr p; u_costs := u_costs p;
     u_metrics := u_metrics p |}.

Definition set_responseEncoding (v : string) (p : upstreamProcessor T H) : upstreamProcessor T H :=
  {| u_requestHeaders := u_requestHeaders p; u_responseHeaders := u_responseHeaders p;
     u_responseEncoding := v; u_compressedBuf := u_compressedBuf p; u_decompressedOffset :=
     u_decompressedOffset p; u_responseStreamTerminated := u_responseStreamTerminated p;
     u_translator := u_translator p; u_modelNameOverride := u_modelNameOverride p; u_headerMutator
     := u_headerMutator p; u_bodyMutator := u_bodyMutator p; u_backendName := u_backendName p;
     u_aiServiceBackendName := u_aiServiceBackendName p; u_routeName := u_routeName p; u_handler :=
     u_handler p; u_unsupportedBackendErr := u_unsupportedBackendErr p; u_costs := u_costs p;
     u_metrics := u_metrics p |}.

Definition set_compressedBuf (v : string) (p : upstreamProcessor T H) : upstreamProcessor T H :=
  {| u_requestHeaders := u_requestHeaders p; u_responseHeaders := u_responseHeaders p;
     u_responseEncoding := u_responseEncoding p; u_compressedBuf := v; u_decompressedOffset :=
     u_decompressedOffset p; u_responseStreamTerminated := u_responseStreamTerminated p;
     u_translator := u_translator p; u_modelNameOverride := u_modelNameOverride p; u_headerMutator
     := u_headerMutator p; u_bodyMutator := u_bodyMutator p; u_backendName := u_backendName p;
     u_aiServiceBackendName := u_aiServiceBackendName p; u_routeName := u_routeName p; u_handler :=
     u_handler p; u_unsupportedBackendErr := u_unsupportedBackendErr p; u_costs := u_costs p;
     u_metrics := u_metrics p |}.

Definition set_decompressedOffset (v : nat) (p : upstreamProcessor T H) : upstreamProcessor T H :=
  {| u_requestHeaders := u_requestHeaders p; u_responseHeaders := u_responseHeaders p;
     u_responseEncoding := u_responseEncoding p; u_compressedBuf := u_compressedBuf p;
     u_decompressedOffset := v; u_responseStreamTerminated := u_responseStreamTerminated p;
     u_translator := u_translator p; u_modelNameOverride := u_modelNameOverride p; u_headerMutator
     := u_headerMutator p; u_bodyMutator := u_bodyMutator p; u_backendName := u_backendName p;
     u_aiServiceBackendName := u_aiServiceBackendName p; u_routeName := u_routeName p; u_handler :=
     u_handler p; u_unsupportedBackendErr := u_unsupportedBackendErr p; u_costs := u_costs p;
     u_metrics := u_metrics p |}.

Definition set_responseStreamTerminated (v : bool) (p : upstreamProcessor T H) : upstreamProcessor T H :=
  {| u_requestHeaders := u_requestHeaders p; u_responseHeaders := u_responseHeaders p;
     u_responseEncoding := u_responseEncoding p; u_compressedBuf := u_compressedBuf p;
     u_decompressedOffset := u_decompressedOffset p; u_responseStreamTerminated := v; u_translator
     := u_translator p; u_modelNameOverride := u_modelNameOverride p; u_headerMutator :=
     u_headerMutator p; u_bodyMutator := u_bodyMutator p; u_backendName := u_backendName p;
     u_aiServiceBackendName := u_aiServiceBackendName p; u_routeName := u_routeName p; u_handler :=
     u_handler p; u_unsupportedBackendErr := u_unsupportedBackendErr p; u_costs := u_costs p;
     u_metrics := u_metrics p |}.

Definition set_translator (v : option T) (p : upstreamProcessor T H) : upstreamProcessor T H :=
  {| u_requestHeaders := u_requestHeaders p; u_responseHeaders := u_responseHeaders p;
     u_responseEncoding := u_responseEncoding p; u_compressedBuf := u_compressedBuf p;
     u_decompressedOffset := u_decompressedOffset p; u_responseStreamTerminated :=
     u_responseStreamTerminated p; u_translator := v; u_modelNameOverride := u_modelNameOverride p;
     u_headerMutator := u_headerMutator p; u_bodyMutator := u_bodyMutator p; u_backendName :=
     u_backendName p; u_aiServiceBackendName := u_aiServiceBackendName p; u_routeName := u_routeName
     p; u_handler := u_handler p; u_unsupportedBackendErr := u_unsupportedBackendErr p; u_costs :=
     u_costs p; u_metrics := u_metrics p |}.

Definition set_unsupportedBackendErr (v : option error) (p : upstreamProcessor T H) : upstreamProcessor T H :=
  {| u_requestHeaders := u_requestHeaders p; u_responseHeaders := u_responseHeaders p;
     u_responseEncoding := u_responseEncoding p; u_compressedBuf := u_compressedBuf p;
     u_decompressedOffset := u_decompressedOffset p; u_responseStreamTerminated :=
     u_responseStreamTerminated p; u_translator := u_translator p; u_modelNameOverride :=
     u_modelNameOverride p; u_headerMutator := u_headerMutator p; u_bodyMutator := u_bodyMutator p;
     u_backendName := u_backendName p; u_aiServiceBackendName := u_aiServiceBackendName p;
     u_routeName := u_routeName p; u_handler := u_handler p; u_unsupportedBackendErr := v; u_costs
     := u_costs p; u_metrics := u_metrics p |}.

Definition set_costs (v : TokenUsage) (p : upstreamProcessor T H) : upstreamProcessor T H :=
  {| u_requestHeaders := u_requestHeaders p; u_responseHeaders := u_responseHeaders p;
     u_responseEncoding := u_responseEncoding p; u_compressedBuf := u_compressedBuf p;
     u_decompressedOffset := u_decompressedOffset p; u_responseStreamTerminated :=
     u_responseStreamTerminated p; u_translator := u_translator p; u_modelNameOverride :=
     u_modelNameOverride p; u_headerMutator := u_headerMutator p; u_bodyMutator := u_bodyMutator p;
     u_backendName := u_backendName p; u_aiServiceBackendName := u_aiServiceBackendName p;
     u_routeName := u_routeName p; u_handler := u_handler p; u_unsupportedBackendErr :=
     u_unsupportedBackendErr p; u_costs := v; u_metrics := u_metrics p |}.

Definition set_metrics (v : list MetricsEvent) (p : upstreamProcessor T H) : upstreamProcessor T H :=
  {| u_requestHeaders := u_requestHeaders p; u_responseHeaders := u_responseHeaders p;
     u_responseEncoding := u_responseEncoding p; u_compressedBuf := u_compressedBuf p;
     u_decompressedOffset := u_decompressedOffset p; u_responseStreamTerminated :=
     u_responseStreamTerminated p; u_translator := u_translator p; u_modelNameOverride :=
     u_modelNameOverride p; u_headerMutator := u_headerMutator p; u_bodyMutator := u_bodyMutator p;
     u_backendName := u_backendName p; u_aiServiceBackendName := u_aiServiceBackendName p;
     u_routeName := u_routeName p; u_handler := u_handler p; u_unsupportedBackendErr :=
     u_unsupportedBackendErr p; u_costs := u_costs p; u_metrics := v |}.

Definition set_spanEvents (v : list SpanEvent) (p : routerProcessor ReqT Span H Prog Codec) : routerProcessor ReqT Span H Prog Codec :=
  {| rp_config := rp_config p; rp_requestHeaders := rp_requestHeaders p; rp_originalRequestBody :=
     rp_originalRequestBody p; rp_originalRequestBodyRaw := rp_originalRequestBodyRaw p;
     rp_originalModel := rp_originalModel p; rp_forceBodyMutation := rp_forceBodyMutation p; rp_span
     := rp_span p; rp_spanEvents := v; rp_upstreamFilter := rp_upstreamFilter p;
     rp_upstreamFilterCount := rp_upstreamFilterCount p; rp_localReplyEmitted :=
     rp_localReplyEmitted p; rp_stream := rp_stream p; rp_debugLogEnabled := rp_debugLogEnabled p;
     rp_enableRedaction := rp_enableRedaction p |}.

Definition set_upstreamFilter (v : option nat) (p : routerProcessor ReqT Span H Prog Codec) : routerProcessor ReqT Span H Prog Codec :=
  {| rp_config := rp_config p; rp_requestHeaders := rp_requestHeaders p; rp_originalRequestBody :=
     rp_originalRequestBody p; rp_originalRequestBodyRaw := rp_originalRequestBodyRaw p;
     rp_originalModel := rp_originalModel p; rp_forceBodyMutation := rp_forceBodyMutation p; rp_span
     := rp_span p; rp_spanEvents := rp_spanEvents p; rp_upstreamFilter := v; rp_upstreamFilterCount
     := rp_upstreamFilterCount p; rp_localReplyEmitted := rp_localReplyEmitted p; rp_stream :=
     rp_stream p; rp_debugLogEnabled := rp_debugLogEnabled p; rp_enableRedaction :=
     rp_enableRedaction p |}.

Definition set_upstreamFilterCount (v : nat) (p : routerProcessor ReqT Span H Prog Codec) : routerProcessor ReqT Span H Prog Codec :=
  {| rp_config := rp_config p; rp_requestHeaders := rp_requestHeaders p; rp_originalRequestBody :=
     rp_originalRequestBody p; rp_originalRequestBodyRaw := rp_originalRequestBodyRaw p;
     rp_originalModel := rp_originalModel p; rp_forceBodyMutation := rp_forceBodyMutation p; rp_span
     := rp_span p; rp_spanEvents := rp_spanEvents p; rp_upstreamFilter := rp_upstreamFilter p;
     rp_upstreamFilterCount := v; rp_localReplyEmitted := rp_localReplyEmitted p; rp_stream :=
     rp_stream p; rp_debugLogEnabled := rp_debugLogEnabled p; rp_enableRedaction :=
     rp_enableRedaction p |}.

Definition set_localReplyEmitted (v : bool) (p : routerProcessor ReqT Span H Prog Codec) : routerProcessor ReqT Span H Prog Codec :=
  {| rp_config := rp_config p; rp_requestHeaders := rp_requestHeaders p; rp_originalRequestBody :=
     rp_originalRequestBody p; rp_originalRequestBodyRaw := rp_originalRequestBodyRaw p;
     rp_originalModel := rp_originalModel p; rp_forceBodyMutation := rp_forceBodyMutation p; rp_span
     := rp_span p; rp_spanEvents := rp_spanEvents p; rp_upstreamFilter := rp_upstreamFilter p;
     rp_upstreamFilterCount := rp_upstreamFilterCount p; rp_localReplyEmitted := v; rp_stream :=
     rp_stream p; rp_debugLogEnabled := rp_debugLogEnabled p; rp_enableRedaction :=
     rp_enableRedaction p |}.

(** The router processor and one of its upstream processors. *)
Definition up : Type := routerProcessor ReqT Span H Prog Codec * upstreamProcessor T H.

Definition onU (f : upstreamProcessor T H → upstreamProcessor T H) (s : up) : up := (s.1, f s.2).
Definition onR (f : routerProcessor ReqT Span H Prog Codec → routerProcessor ReqT Span H Prog Codec) (s : up) : up :=
  (f s.1, s.2).

Definition metric (e : MetricsEvent) : up → up := onU (λ u, set_metrics (u_metrics u ++ [e]) u).

(** [if r.span != nil { r.span.M(...) }]. *)
Definition spanCall (e : SpanEvent) : up → up :=
  onR (λ r, match rp_span r with
            | Some _ => set_spanEvents (rp_spanEvents r ++ [e]) r
            | None => r
            end).

Definition recordCompletion (success : bool) (s : up) : up :=
  metric (MRecordRequestCompletion success (u_requestHeaders s.2)) s.

(** [defer func() { if err != nil { RecordRequestCompletion(false) } }()]: a
    panic unwinds with a nil [err]. *)
Definition deferRecordOnErr {A} (r : up * outcome A) : up * outcome A :=
  match r.2 with
  | Fail _ => (recordCompletion false r.1, r.2)
  | _ => r
  end.

(** ** The router's request body *)

Definition router_ProcessRequestBody (r : routerProcessor ReqT Span H Prog Codec) (rawBody : HttpBody) :
    routerProcessor ReqT Span H Prog Codec * outcome ProcessingResponse :=
  let costConfigured := bool_decide (rt_RequestCosts (rp_config r) ≠ []) ||
                        bool_decide (rt_GlobalRequestCosts (rp_config r) ≠ []) in
  let contentType := mget (rp_requestHeaders r) "content-type" in
  match (if HasPrefix (ToLower contentType) "multipart/form-data"
         then eh_ParseMultipartBody (hb_Body rawBody) contentType costConfigured
         else eh_ParseBody (hb_Body rawBody) costConfigured) with
  | Panic p => (r, Panic p)
  | Fail e =>
      match GetUserFacingError e with
      | Some userFacingErr => (r, Ok (createUserFacingErrorResponse 400 "BadRequest" (err_msg userFacingErr)))
      | None => (r, Fail (Errorf_w "failed to parse request body: " e))
      end
  | Ok (originalModel, body, stream, mutatedOriginalBody) =>
      let originalRequestBodyRaw :=
        match mutatedOriginalBody with Some b => Some b | None => hb_Body rawBody end in
      let forceBodyMutation :=
        match mutatedOriginalBody with Some _ => true | None => rp_forceBodyMutation r end in
      let requestHeaders := <[ModelNameHeaderKeyDefault := originalModel]> (rp_requestHeaders r) in
      let originalPath := mget requestHeaders ":path" in
      let requestHeaders := <[OriginalPathHeader := originalPath]> requestHeaders in
      let requestHeaders := <[EnvoyOriginalPathHeader := originalPath]> requestHeaders in
      let headerMutation :=
        {| hmut_SetHeaders := overwrite <$> [(ModelNameHeaderKeyDefault, originalModel);
                                             (OriginalPathHeader, originalPath);
                                             (EnvoyOriginalPathHeader, originalPath)];
           hmut_RemoveHeaders := [] |} in
      let '(span, injected) := StartSpanAndInjectHeaders requestHeaders body (hb_Body rawBody) in
      let headerMutation := foldl carrier_Set headerMutation injected in
      ({| rp_config := rp_config r; rp_requestHeaders := requestHeaders; rp_originalRequestBody := Some body;
          rp_originalRequestBodyRaw := originalRequestBodyRaw; rp_originalModel := originalModel;
          rp_forceBodyMutation := forceBodyMutation; rp_span := span; rp_spanEvents := rp_spanEvents r;
          rp_upstreamFilter := rp_upstreamFilter r; rp_upstreamFilterCount := rp_upstreamFilterCount r;
          rp_localReplyEmitted := rp_localReplyEmitted r; rp_stream := stream;
          rp_debugLogEnabled := rp_debugLogEnabled r; rp_enableRedaction := rp_enableRedaction r |},
       Ok (plainResponse (RespRequestBody (Some (Some
         {| cm_HeaderMutation := Some headerMutation; cm_BodyMutation := None; cm_Status := CONTINUE;
            cm_ClearRouteCache := true |})))))
  end.

(** ** Selecting the backend of an attempt *)

Definition onRetry (r : routerProcessor ReqT Span H Prog Codec) : bool := bool_decide (1 < rp_upstreamFilterCount r).

(** [i] is the attempt's index.  The router processor has the upstream
    processor's type, so the failed type assertion does not arise. *)
Definition SetBackend_body (i : nat) (backend : RuntimeBackend H) (routeName : string) (s : up) :
    up * outcome unit :=
  let b := rb_Backend backend in
  let s := onR (λ r, set_upstreamFilterCount (S (rp_upstreamFilterCount r)) r) s in
  let s := metric (MSetBackend b) s in
  let s := match rp_span s.1 with
           | Some sp => if isBackendSpan sp then spanCall (SRecordBackend (sc_Name (be_Schema b)) (be_Name b)) s else s
           | None => s
           end in
  let rp := s.1 in
  let u := s.2 in
  let modelNameOverride := be_ModelNameOverride b in
  let requestHeaders :=
    if bool_decide (modelNameOverride ≠ "") then
      <[ModelNameHeaderKeyDefault := modelNameOverride]> (u_requestHeaders u)
    else u_requestHeaders u in
  let tr := eh_GetTranslator (be_Schema b) modelNameOverride in
  let u :=
    {| u_requestHeaders := requestHeaders; u_responseHeaders := u_responseHeaders u;
       u_responseEncoding := u_responseEncoding u; u_compressedBuf := u_compressedBuf u;
       u_decompressedOffset := u_decompressedOffset u;
       u_responseStreamTerminated := u_responseStreamTerminated u;
       u_translator := match tr with Ok t => Some t | _ => None end;
       u_modelNameOverride := modelNameOverride;
       u_headerMutator := Some (NewHeaderMutator (be_HeaderMutation b) (rp_requestHeaders rp));
       u_bodyMutator := Some (NewBodyMutator (be_BodyMutation b) (rp_originalRequestBodyRaw rp));
       u_backendName := be_Name b;
       u_aiServiceBackendName := resolveAIServiceBackendName (be_AIServiceBackendName b) (be_Name b);
       u_routeName := routeName; u_handler := rb_Handler backend;
       u_unsupportedBackendErr := u_unsupportedBackendErr u; u_costs := u_costs u; u_metrics := u_metrics u |} in
  let s := (rp, u) in
  match tr with
  | Panic p => (s, Panic p)
  | Fail e =>
      match GetUserFacingError e with
      | Some userFacingErr => (onU (set_unsupportedBackendErr (Some userFacingErr)) s, Ok tt)
      | None => (s, Fail (Errorf_w ("failed to create translator for backend " +:+ be_Name b +:+ ": ") e))
      end
  | Ok t =>
      let t := tr_SetContentType t (mget (rp_requestHeaders rp) "content-type") in
      let s := onR (set_upstreamFilter (Some i)) s in
      let t := tr_SetRequestHeaders t requestHeaders in
      let t := foldl (λ t f, tr_SetHeaderValueFilter t (hf_Name f) (hf_Mode f) (hf_Values f)) t
                 (be_HeaderValueFilters b) in
      let t := tr_SetRedactionConfig t (rp_debugLogEnabled rp) (rp_enableRedaction rp) in
      (onU (set_translator (Some t)) s, Ok tt)
  end.

Definition upstream_SetBackend (i : nat) (backend : RuntimeBackend H) (routeName : string) (s : up) :
    up * outcome unit :=
  deferRecordOnErr (SetBackend_body i backend routeName s).

(** ** The upstream request *)

Definition respondLocally (statusCode : Z) (errorType message : string) (s : up) : up * outcome ProcessingResponse :=
  let s := recordCompletion false s in
  let resp := createUserFacingErrorResponse statusCode errorType message in
  let s := onR (set_localReplyEmitted true) s in
  (spanCall (SEndSpanOnError statusCode (immediateBody resp)) s, Ok resp).

(** [cmp.Or] on strings. *)
Definition cmp_Or (a b : string) : string := if bool_decide (a ≠ "") then a else b.

(** The dynamic metadata of the request phase. *)
Definition requestMetadata (dm : option Struct) (u : upstreamProcessor T H) : option Struct :=
  mergeDynamicMetadata (mergeDynamicMetadata dm (buildBackendDynamicMetadata (u_backendName u)))
    (buildRequestHeaderDynamicMetadata range3 LogRequestHeaderAttributes (u_requestHeaders u)).

(** [if h := u.headerMutator; h != nil]. *)
Definition mutateHeaders (headerMutation : HeaderMutation) (s : up) : up * HeaderMutation :=
  match u_headerMutator s.2 with
  | Some h =>
      let '(requestHeaders, sets, removes) :=
        HeaderMutator_Mutate range1 range2 h (u_requestHeaders s.2) (onRetry s.1) in
      (onU (set_requestHeaders requestHeaders) s,
       addSetHeaders (addRemoveHeaders headerMutation removes) (overwrite <$> sets))
  | None => (s, headerMutation)
  end.

(** [if h := u.handler; h != nil]. *)
Definition authenticate (ctx : context) (body : option string) (s : up) : up * outcome (list Header) :=
  match u_handler s.2 with
  | None => (s, Ok [])
  | Some h =>
      let '(requestHeaders, r) := auth_Do h ctx (u_requestHeaders s.2) body in
      (onU (set_requestHeaders requestHeaders) s, r)
  end.

(** [for _, h := range headerMutation.SetHeaders]. *)
Definition storeSetHeaders (headerMutation : HeaderMutation) : up → up :=
  onU (λ u, set_requestHeaders
              (foldl (λ m h, <[hvo_Key h := hvo_RawValue h]> m) (u_requestHeaders u)
                 (hmut_SetHeaders headerMutation)) u).

(** From the translated request to the response for Envoy. *)
Definition dispatch (ctx : context) (newHeaders : list Header) (newBody : option string)
    (forceBodyMutation : bool) (s : up) : up * outcome ProcessingResponse :=
  let '(headerMutation, bodyMutation) := mutationsFromTranslationResult newHeaders newBody in
  let '(s, headerMutation) := mutateHeaders headerMutation s in
  let mutatorHasMutations := HasMutations (u_bodyMutator s.2) in
  let wantBodyReplace := bool_decide (is_Some bodyMutation) || forceBodyMutation || mutatorHasMutations in
  let bodyMutation :=
    if wantBodyReplace
    then applyBodyMutation (u_bodyMutator s.2) bodyMutation (rp_originalRequestBodyRaw s.1)
    else bodyMutation in
  let bodyMutation := default {| bmut_Body := None |} bodyMutation in
  let s := storeSetHeaders headerMutation s in
  let headerMutation := addRemoveHeaders headerMutation [UpstreamHostHeader] in
  let '(s, auth) := authenticate ctx (bmut_Body bodyMutation) s in
  match auth with
  | Panic p => (s, Panic p)
  | Fail e =>
      if errors_Is e ErrCredentialMissing then respondLocally 401 "Unauthorized" "missing upstream credential" s
      else (s, Fail (Errorf_w "failed to do auth request: " e))
  | Ok hdrs =>
      let headerMutation := addSetHeaders headerMutation (overwrite <$> hdrs) in
      if negb wantBodyReplace then
        (s, Ok {| pr_Response := RespRequestHeaders (Some (Some
                    {| cm_HeaderMutation := Some headerMutation; cm_BodyMutation := None;
                       cm_Status := CONTINUE; cm_ClearRouteCache := false |}));
                  pr_DynamicMetadata := requestMetadata None s.2; pr_StreamedMode := false |})
      else
        let dm := (λ b, buildContentLengthDynamicMetadataOnRequest (String.length b)) <$> bmut_Body bodyMutation in
        (s, Ok {| pr_Response := RespRequestHeaders (Some (Some
                    {| cm_HeaderMutation := Some headerMutation; cm_BodyMutation := Some bodyMutation;
                       cm_Status := CONTINUE_AND_REPLACE; cm_ClearRouteCache := false |}));
                  pr_DynamicMetadata := requestMetadata dm s.2; pr_StreamedMode := false |})
  end.

Definition ProcessRequestHeaders_body (ctx : context) (s : up) : up * outcome ProcessingResponse :=
  let s := metric (MStartRequest (u_requestHeaders s.2)) s in
  let s := metric (MSetOriginalModel (rp_originalModel s.1)) s in
  let s := metric (MSetRequestModel (cmp_Or (mget (u_requestHeaders s.2) ModelNameHeaderKeyDefault)
                                            (rp_originalModel s.1))) s in
  match u_unsupportedBackendErr s.2 with
  | Some e => respondLocally 422 "UnprocessableEntity" (err_msg e) s
  | None =>
      match u_translator s.2 with
      | None => (s, Panic "nil translator")
      | Some t =>
          let forceBodyMutation := onRetry s.1 || rp_forceBodyMutation s.1 in
          let '(t, r) := tr_RequestBody t (rp_originalRequestBodyRaw s.1) (rp_originalRequestBody s.1)
                           forceBodyMutation in
          let s := onU (set_translator (Some t)) s in
          match r with
          | Panic p => (s, Panic p)
          | Fail e =>
              match GetUserFacingError e with
              | Some userFacingErr => respondLocally 422 "UnprocessableEntity" (err_msg userFacingErr) s
              | None => (s, Fail (Errorf_w "failed to transform request: " e))
              end
          | Ok (newHeaders, newBody) => dispatch ctx newHeaders newBody forceBodyMutation s
          end
      end
  end.

Definition upstream_ProcessRequestHeaders (ctx : context) (s : up) : up * outcome ProcessingResponse :=
  deferRecordOnErr (ProcessRequestHeaders_body ctx s).
(** ** The upstream response *)

Definition respHeadersPassThrough : ProcessingResponse := plainResponse (RespResponseHeaders (Some None)).
Definition respBodyPassThrough : ProcessingResponse := plainResponse (RespResponseBody (Some None)).

Definition commonBody (headerMutation : option HeaderMutation) (bodyMutation : option BodyMutation) : Response :=
  RespResponseBody (Some (Some {| cm_HeaderMutation := headerMutation; cm_BodyMutation := bodyMutation;
                                  cm_Status := CONTINUE; cm_ClearRouteCache := false |})).

Definition ProcessResponseHeaders_body (headers : HeaderMap) (s : up) : up * outcome ProcessingResponse :=
  let responseHeaders := headersToMap headers in
  let s := onU (set_responseHeaders responseHeaders) s in
  let enc := mget responseHeaders "content-encoding" in
  let s := if bool_decide (enc ≠ "") then onU (set_responseEncoding enc) s else s in
  let s := onU (λ u, set_responseStreamTerminated false (set_decompressedOffset 0 (set_compressedBuf "" u))) s in
  match u_translator s.2 with
  | None => (s, Panic "nil translator")
  | Some t =>
      let '(t, r) := tr_ResponseHeaders t responseHeaders in
      let s := onU (set_translator (Some t)) s in
      match r with
      | Panic p => (s, Panic p)
      | Fail e => (s, Fail (Errorf_w "failed to transform response headers: " e))
      | Ok newHeaders =>
          let mode := rp_stream s.1 && bool_decide (mget responseHeaders ":status" = "200") in
          let '(headerMutation, _) := mutationsFromTranslationResult newHeaders None in
          let headerMutation :=
            if mode then addRemoveHeaders headerMutation ["content-length"] else headerMutation in
          (s, Ok {| pr_Response := RespResponseHeaders (Some (Some
                      {| cm_HeaderMutation := Some headerMutation; cm_BodyMutation := None;
                         cm_Status := CONTINUE; cm_ClearRouteCache := false |}));
                    pr_DynamicMetadata := None; pr_StreamedMode := mode |})
      end
  end.

Definition upstream_ProcessResponseHeaders (headers : HeaderMap) (s : up) : up * outcome ProcessingResponse :=
  if rp_localReplyEmitted s.1 then (s, Ok respHeadersPassThrough)
  else deferRecordOnErr (ProcessResponseHeaders_body headers s).

(** The tail of [decodeStreamingContent]: only what was not returned before. *)
Definition sliceFrom (u : upstreamProcessor T H) (allDecompressed : string) :
    upstreamProcessor T H * outcome contentDecodingResult :=
  if String.length allDecompressed <? u_decompressedOffset u then (u, Panic "slice bounds out of range")
  else
    (set_decompressedOffset (String.length allDecompressed) u,
     Ok {| cd_reader := bytes_NewReader (str_drop (u_decompressedOffset u) allDecompressed);
           cd_isEncoded := true |}).

(** A slice expression [s[n:]] panics when [n] exceeds the length. *)
Definition decodeStreamingContent (chunk : string) (endOfStream : bool) (u : upstreamProcessor T H) :
    upstreamProcessor T H * outcome contentDecodingResult :=
  let compressedBuf := u_compressedBuf u +:+ chunk in
  let u := set_compressedBuf compressedBuf u in
  match decodeContentIfNeeded compressedBuf (u_responseEncoding u) with
  | Fail e => (u, Fail e)
  | Panic p => (u, Panic p)
  | Ok decodingResult =>
      let allDecompressed := rd_data (cd_reader decodingResult) in
      match rd_err (cd_reader decodingResult) with
      | Some readErr =>
          if endOfStream || negb (errors_Is readErr IoErrUnexpectedEOF) then
            (u, Fail (Errorf_w "failed to decompress streaming content: " readErr))
          else sliceFrom u allDecompressed
      | None => sliceFrom u allDecompressed
      end
  end.

(** The token metrics of a translated chunk. *)
Definition recordUsage (endOfStream : bool) (s : up) : up :=
  let u := s.2 in
  if rp_stream s.1 then
    let s := metric (MRecordTokenLatency (OutputTokens (u_costs u)).1 endOfStream (u_requestHeaders u)) s in
    if endOfStream then metric (MRecordTokenUsage (u_costs u) (u_requestHeaders u)) s else s
  else metric (MRecordTokenUsage (u_costs u) (u_requestHeaders u)) s.

(** The dynamic metadata of a response chunk. *)
Definition responseMetadata (endOfStream : bool) (tokenUsage : TokenUsage) (responseModel : string) (s : up) :
    outcome (option Struct) :=
  let config := rp_config s.1 in
  let u := s.2 in
  if (endOfStream || negb (IsZero tokenUsage)) &&
     (bool_decide (rt_GlobalRequestCosts config ≠ []) || bool_decide (rt_RequestCosts config ≠ [])) then
    let identity := resolveAIServiceBackendName (u_aiServiceBackendName u) (u_backendName u) in
    let! metadata := owrap "failed to build dynamic metadata: "
      (buildDynamicMetadataWithBackendIdentity (rt_GlobalRequestCosts config) (rt_RequestCosts config)
         (u_costs u) (u_requestHeaders u) (u_backendName u) identity (u_routeName u) responseModel) in
    if rp_stream s.1 then
      let! m := mergeWithTokenLatencyMetadata (GetTimeToFirstTokenMs (u_metrics u))
                  (GetInterTokenLatencyMs (u_metrics u)) metadata in
      Ok (Some m)
    else Ok metadata
  else Ok None.

(** The body of [ProcessResponseBody] after the two early returns; the flag is
    [recordRequestCompletionErr]. *)
Definition ProcessResponseBody_body (body : HttpBody) (s : up) : up * outcome ProcessingResponse * bool :=
  let chunk := default "" (hb_Body body) in
  let '(u, decoded) :=
    if rp_stream s.1 && bool_decide (u_responseEncoding s.2 ≠ "")
    then decodeStreamingContent chunk (hb_EndOfStream body) s.2
    else (s.2, decodeContentIfNeeded chunk (u_responseEncoding s.2)) in
  let s := (s.1, u) in
  match decoded with
  | Fail e => (s, Fail e, false)
  | Panic p => (s, Panic p, false)
  | Ok decodingResult =>
  match u_translator s.2 with
  | None => (s, Panic "nil translator", false)
  | Some t =>
  let code := Atoi_value (mget (u_responseHeaders s.2) ":status") in
  if negb (isGoodStatusCode code) then
    let '(t, r) := tr_ResponseError t (u_responseHeaders s.2) (cd_reader decodingResult) in
    let s := onU (set_translator (Some t)) s in
    match r with
    | Panic p => (s, Panic p, false)
    | Fail e => (s, Fail (Errorf_w "failed to transform response error: " e), false)
    | Ok (newHeaders, newBody) =>
        let '(headerMutation, bodyMutation) := mutationsFromTranslationResult newHeaders newBody in
        let headerMutation :=
          removeContentEncodingIfNeeded (Some headerMutation) bodyMutation (cd_isEncoded decodingResult) in
        let b := match GetBody bodyMutation with Some b => b | None => chunk end in
        let s := spanCall (SEndSpanOnError code b) s in
        (s, Ok (plainResponse (commonBody headerMutation bodyMutation)), true)
    end
  else
    let '(t, (newHeaders, newBody, tokenUsage, responseModel, err)) :=
      tr_ResponseBody t (u_responseHeaders s.2) (cd_reader decodingResult) (hb_EndOfStream body) (rp_span s.1) in
    let s := onU (set_translator (Some t)) s in
    let '(headerMutation, bodyMutation) := mutationsFromTranslationResult newHeaders newBody in
    let headerMutation :=
      removeContentEncodingIfNeeded (Some headerMutation) bodyMutation (cd_isEncoded decodingResult) in
    match err with
    | Some e =>
        if rp_stream s.1 && errors_Is e StreamOverloadedError && bool_decide (default "" newBody ≠ "") then
          let s := onU (set_responseStreamTerminated true) s in
          let s := spanCall (SEndSpanOnError code (default "" newBody)) s in
          (s, Ok (plainResponse (commonBody headerMutation bodyMutation)), true)
        else (s, Fail (Errorf_w "failed to transform response: " e), false)
    | None =>
        let s := onU (λ u, set_costs (Override (u_costs u) tokenUsage) u) s in
        let s := metric (MSetResponseModel responseModel) s in
        let s := recordUsage (hb_EndOfStream body) s in
        match responseMetadata (hb_EndOfStream body) tokenUsage responseModel s with
        | Panic p => (s, Panic p, false)
        | Fail e => (s, Fail e, false)
        | Ok metadata =>
            let s := if hb_EndOfStream body then spanCall SEndSpan s else s in
            (s, Ok {| pr_Response := commonBody headerMutation bodyMutation;
                      pr_DynamicMetadata := metadata; pr_StreamedMode := false |}, false)
        end
    end
  end
  end.

Definition upstream_ProcessResponseBody (body : HttpBody) (s : up) : up * outcome ProcessingResponse :=
  if rp_localReplyEmitted s.1 then (s, Ok respBodyPassThrough)
  else if u_responseStreamTerminated s.2 then
    let '(_, bodyMutation) := mutationsFromTranslationResult [] (Some "") in
    (s, Ok (plainResponse (commonBody None bodyMutation)))
  else
    let '(s, r, recordRequestCompletionErr) := ProcessResponseBody_body body s in
    if is_fail r || recordRequestCompletionErr then (recordCompletion false s, r)
    else if hb_EndOfStream body then (recordCompletion true s, r)
    else (s, r).

(** ** The request: the router and its attempts *)

Record request := {
  rq_router : routerProcessor ReqT Span H Prog Codec;
  rq_attempts : list (upstreamProcessor T H);
}.

(** Runs an operation of the upstream processor of attempt [i] on the store;
    the index is always one of an existing attempt. *)
Definition withAttempt {A} (i : nat) (op : up → up * outcome A) (rq : request) : request * outcome A :=
  match rq_attempts rq !! i with
  | None => (rq, Panic "nil upstream processor")
  | Some u =>
      let '((r, u'), res) := op (rq_router rq, u) in
      ({| rq_router := r; rq_attempts := <[i := u']> (rq_attempts rq) |}, res)
  end.

Definition passThroughRequestHeaders : ProcessingResponse := plainResponse (RespRequestHeaders None).
Definition passThroughResponseHeaders : ProcessingResponse := plainResponse (RespResponseHeaders None).
Definition passThroughResponseBody : ProcessingResponse := plainResponse (RespResponseBody None).

Definition router_ProcessResponseHeaders (headers : HeaderMap) (rq : request) :
    request * outcome ProcessingResponse :=
  match rp_upstreamFilter (rq_router rq) with
  | Some i => withAttempt i (upstream_ProcessResponseHeaders headers) rq
  | None => (rq, Ok passThroughResponseHeaders)
  end.

Definition router_ProcessResponseBody (body : HttpBody) (rq : request) : request * outcome ProcessingResponse :=
  match rp_upstreamFilter (rq_router rq) with
  | Some i => withAttempt i (upstream_ProcessResponseBody body) rq
  | None => (rq, Ok passThroughResponseBody)
  end.
End Handlers.
