(* ===== verification/ExtProcProps.v ===== *)
(** * The external processor: properties

    Theorems about the handlers of [ExtProc]: what an upstream sees, when a
    request is completed in the metrics, local replies, retries, streaming
    decompression. *)

From Stdlib Require Import ZArith Lia.
From stdpp Require Import base gmap strings list.
From S2P Require Import Prelude GoStrings GoNum InternalApi TokenUsage FilterApi HeaderMutator EnvoyTypes BackendAuth Costs ExtProc.

(** ** Error bodies *)

(** A necessary condition for a text to be JSON (RFC 8259, section 7): every
    string is closed and holds no control character. *)
Inductive scan_state := Outside | Inside | Escaped.

Fixpoint json_scan (q : scan_state) (s : string) : bool :=
  match s with
  | "" => match q with Outside => true | _ => false end
  | String c s =>
      match q with
      | Outside => json_scan (if bool_decide (c = chr 34) then Inside else Outside) s
      | Inside =>
          if Ascii.nat_of_ascii c <? 32 then false
          else if bool_decide (c = chr 34) then json_scan Outside s
          else if bool_decide (c = chr 92) then json_scan Escaped s
          else json_scan Inside s
      | Escaped => json_scan Inside s
      end
  end.

Definition plain_char (c : Ascii.ascii) : bool :=
  (32 <=? Ascii.nat_of_ascii c) && negb (bool_decide (c = chr 34)) && negb (bool_decide (c = chr 92)).

Lemma json_scan_plain s t :
  forallb plain_char (schars s) = true → json_scan Inside (s +:+ t) = json_scan Inside t.
Proof.
  induction s as [|c s IH]; [by rewrite sapp_nil_l|].
  cbn [schars forallb]. intros [Hc Hs]%andb_true_iff. rewrite sapp_cons. cbn [json_scan].
  unfold plain_char in Hc. apply andb_true_iff in Hc as [[Hc H1]%andb_true_iff H2].
  apply negb_true_iff in H1, H2. rewrite H1, H2. apply Nat.leb_le in Hc.
  replace (Ascii.nat_of_ascii c <? 32) with false by (symmetry; apply Nat.ltb_ge; lia). auto.
Qed.

(** The body of a local reply is well formed as far as its strings go when
    the message has no quote, backslash or control character. *)
Theorem formatUserFacingErrorJSON_plain errorType statusCode message :
  statusCode ∈ [400%Z; 401%Z; 422%Z] → forallb plain_char (schars errorType) = true →
  forallb plain_char (schars message) = true →
  json_scan Outside (formatUserFacingErrorJSON errorType statusCode message) = true.
Proof.
  intros Hc He Hm. unfold formatUserFacingErrorJSON.
  assert (forallb plain_char (schars (Itoa statusCode)) = true) as Hs.
  { rewrite !elem_of_cons in Hc. by destruct Hc as [->|[->|[->|[]%elem_of_nil]]]; vm_compute. }
  set (rest2 := dq +:+ "}}"). set (code := Itoa statusCode) in *.
  set (rest1 := dq +:+ "," +:+ dq +:+ "message" +:+ _).
  set (rest0 := dq +:+ "," +:+ dq +:+ "code" +:+ _).
  transitivity (json_scan Inside (errorType +:+ rest0)); [reflexivity|].
  rewrite (json_scan_plain _ _ He).
  transitivity (json_scan Inside (code +:+ rest1)); [reflexivity|].
  rewrite (json_scan_plain _ _ Hs).
  transitivity (json_scan Inside (message +:+ rest2)); [reflexivity|].
  by rewrite (json_scan_plain _ _ Hm).
Qed.

Lemma formatUserFacingErrorJSON_plain_witness :
  json_scan Outside (formatUserFacingErrorJSON "BadRequest" 400 "malformed request: no model") = true.
Proof.
  apply (formatUserFacingErrorJSON_plain "BadRequest" 400 "malformed request: no model");
    [set_solver|reflexivity|reflexivity].
Defined.

(** The message is not escaped: an error text with a double quote or a line
    break, as JSON parsers produce them, yields a body that is not JSON. *)
Theorem formatUserFacingErrorJSON_not_escaped :
  json_scan Outside (formatUserFacingErrorJSON "BadRequest" 400 ("invalid character " +:+ dq)) = false ∧
  json_scan Outside (formatUserFacingErrorJSON "BadRequest" 400 ("syntax error" +:+ String (chr 10) "")) = false.
Proof. split; vm_compute; reflexivity. Qed.

(** ** Completion of a request in the metrics *)

Section Props.
Context {ReqT T Span H Prog Codec : Type}.
Context `{!Translator ReqT T Span, !EndpointSpec ReqT T, !RequestTracer ReqT Span, !AuthHandler H}.
Context `{!CelEnv Prog, !Decompressors, !Sjson, !MetricsGetters}.
Context (range1 range2 range3 : headers → list (string * string)).
Context (LogRequestHeaderAttributes : headers).

Notation up := (up (ReqT := ReqT) (T := T) (Span := Span) (H := H) (Prog := Prog) (Codec := Codec)).
Notation dispatch := (dispatch range1 range2 range3 LogRequestHeaderAttributes).
Notation ProcessRequestHeaders := (upstream_ProcessRequestHeaders range1 range2 range3 LogRequestHeaderAttributes).

(** The completions recorded on a metrics object, with their success flags. *)
Definition completion_of (e : MetricsEvent) : option bool :=
  match e with MRecordRequestCompletion b _ => Some b | _ => None end.
Definition completions (u : upstreamProcessor T H) : list bool := omap completion_of (u_metrics u).

Lemma completions_metric e (s : up) :
  completions (metric e s).2 = completions s.2 ++ option_list (completion_of e).
Proof. unfold completions. simpl. rewrite omap_app. simpl. by destruct (completion_of e). Qed.

Lemma completions_record b (s : up) : completions (recordCompletion b s).2 = completions s.2 ++ [b].
Proof. apply completions_metric. Qed.

Lemma spanCall_upstream e (s : up) : (spanCall e s).2 = s.2.
Proof. done. Qed.

Lemma spanCall_local e (s : up) : rp_localReplyEmitted (spanCall e s).1 = rp_localReplyEmitted s.1.
Proof. unfold spanCall, onR. simpl. by destruct (rp_span s.1). Qed.

Lemma spanCall_stream e (s : up) : rp_stream (spanCall e s).1 = rp_stream s.1.
Proof. unfold spanCall, onR. simpl. by destruct (rp_span s.1). Qed.

Lemma completions_deferred {A} (x : up * outcome A) :
  completions (deferRecordOnErr x).1.2 = completions x.1.2 ++ (if is_fail x.2 then [false] else []).
Proof.
  unfold deferRecordOnErr. destruct x as [s []]; simpl; rewrite ?app_nil_r; try done.
  apply completions_record.
Qed.

Lemma local_deferred {A} (x : up * outcome A) :
  rp_localReplyEmitted (deferRecordOnErr x).1.1 = rp_localReplyEmitted x.1.1.
Proof. by destruct x as [s []]. Qed.

(** What a step of the request phase may do: answer locally and record a
    failure, or leave the request open. *)
Definition request_post {A} (s : up) (x : up * outcome A) : Prop :=
  match x.2 with
  | Ok _ =>
      (rp_localReplyEmitted x.1.1 = true ∧ completions x.1.2 = completions s.2 ++ [false]) ∨
      (rp_localReplyEmitted x.1.1 = rp_localReplyEmitted s.1 ∧ completions x.1.2 = completions s.2)
  | _ => completions x.1.2 = completions s.2
  end.

Lemma respondLocally_post code ty msg (s : up) :
  request_post s (respondLocally code ty msg s).
Proof.
  left. unfold respondLocally. simpl. split; [by destruct (rp_span _)|apply completions_record].
Qed.

(** Changing fields other than the metrics does not change the postcondition. *)
Lemma request_post_from {A} (s s' : up) (x : up * outcome A) :
  rp_localReplyEmitted s.1 = rp_localReplyEmitted s'.1 → completions s.2 = completions s'.2 →
  request_post s x → request_post s' x.
Proof. unfold request_post. by intros -> ->. Qed.

(** The states before and after agree on what completion depends on. *)
Definition same_request (s s' : up) : Prop :=
  rp_localReplyEmitted s'.1 = rp_localReplyEmitted s.1 ∧ completions s'.2 = completions s.2.

Lemma mutateHeaders_same hm (s : up) : same_request s (mutateHeaders range1 range2 hm s).1.
Proof.
  unfold mutateHeaders. destruct (u_headerMutator s.2); [|done].
  by destruct (HeaderMutator_Mutate _ _ _ _ _) as [[rh sets] removes].
Qed.

Lemma authenticate_same ctx body (s : up) : same_request s (authenticate ctx body s).1.
Proof. unfold authenticate. destruct (u_handler s.2); [|done]. by destruct (auth_Do _ _ _ _). Qed.

Lemma dispatch_post ctx hs body force (s : up) : request_post s (dispatch ctx hs body force s).
Proof.
  unfold ExtProc.dispatch. destruct (mutationsFromTranslationResult hs body) as [hm bm].
  pose proof (mutateHeaders_same hm s) as [L1 C1]. destruct (mutateHeaders _ _ hm s) as [s1 hm1]. simpl in L1, C1.
  cbv zeta. set (b := bmut_Body _).
  pose proof (authenticate_same ctx b (storeSetHeaders hm1 s1)) as [L2 C2].
  destruct (authenticate ctx b _) as [s2 auth]. simpl in L2, C2. rewrite L1 in L2. unfold completions in C2.
  simpl in C2. fold (completions s2.2) (completions s1.2) in C2. rewrite C1 in C2.
  destruct auth as [hdrs|e|p]; [|destruct (errors_Is e ErrCredentialMissing)|].
  - destruct (negb _); right; done.
  - by eapply request_post_from, respondLocally_post.
  - done.
  - done.
Qed.

Lemma ProcessRequestHeaders_body_post ctx (s : up) :
  request_post s (ProcessRequestHeaders_body range1 range2 range3 LogRequestHeaderAttributes ctx s).
Proof.
  unfold ProcessRequestHeaders_body.
  set (s3 := metric (MSetRequestModel _) _).
  assert (rp_localReplyEmitted s3.1 = rp_localReplyEmitted s.1) as L by done.
  assert (completions s3.2 = completions s.2) as C.
  { unfold s3. rewrite !completions_metric. simpl. by rewrite !app_nil_r. }
  apply (request_post_from s3 s); [done..|]. clearbody s3. clear L C s.
  cbv zeta. destruct (u_unsupportedBackendErr s3.2); [apply respondLocally_post|].
  destruct (u_translator s3.2) as [t|]; [|done].
  destruct (tr_RequestBody _ _ _ _) as [t' [[hs b]|e|p]]; [|destruct (GetUserFacingError e)|done].
  - by eapply request_post_from, dispatch_post.
  - by eapply request_post_from, respondLocally_post.
  - done.
Qed.

Lemma SetBackend_same i backend route (s : up) : same_request s (SetBackend_body i backend route s).1.
Proof.
  unfold SetBackend_body. set (s1 := match rp_span _ with Some _ => _ | None => _ end).
  assert (same_request s s1) as [L C].
  { unfold s1, same_request. destruct (rp_span _) as [sp|]; [destruct (isBackendSpan sp)|].
    - rewrite spanCall_local, spanCall_upstream, completions_metric. by rewrite app_nil_r.
    - rewrite completions_metric. by rewrite app_nil_r.
    - rewrite completions_metric. by rewrite app_nil_r. }
  clearbody s1. cbv zeta. destruct (eh_GetTranslator _ _) as [t|e|p]; [|destruct (GetUserFacingError e)|]; done.
Qed.

(** ** Runs of the response phase *)

(** The body chunks Envoy sends after the response headers: in streamed mode any
    number, of which exactly the last ends the stream; otherwise the whole
    buffered body. *)
Definition chunks_ok (streamed : bool) (chunks : list HttpBody) : Prop :=
  ∃ pre last, chunks = pre ++ [last] ∧ Forall (λ c, hb_EndOfStream c = false) pre ∧
    hb_EndOfStream last = true ∧ (streamed = false → pre = []).

(** The server stops at the first error. *)
Fixpoint run_chunks (chunks : list HttpBody) (s : up) : up * outcome (list ProcessingResponse) :=
  match chunks with
  | [] => (s, Ok [])
  | c :: chunks =>
      match upstream_ProcessResponseBody c s with
      | (s, Ok p) =>
          match run_chunks chunks s with
          | (s, Ok ps) => (s, Ok (p :: ps))
          | (s, r) => (s, r)
          end
      | (s, Fail e) => (s, Fail e)
      | (s, Panic m) => (s, Panic m)
      end
  end.

Definition run_response (hdrs : HeaderMap) (chunks : bool → list HttpBody) (s : up) :
    up * outcome (list ProcessingResponse) :=
  match upstream_ProcessResponseHeaders hdrs s with
  | (s, Ok p) => run_chunks (chunks (pr_StreamedMode p)) s
  | (s, Fail e) => (s, Fail e)
  | (s, Panic m) => (s, Panic m)
  end.

(** One attempt: select the backend, translate and authenticate the request,
    handle the response. *)
Definition run_attempt (ctx : context) (i : nat) (backend : RuntimeBackend H) (route : string)
    (hdrs : HeaderMap) (chunks : bool → list HttpBody) (s : up) : up * outcome (list ProcessingResponse) :=
  match upstream_SetBackend i backend route s with
  | (s, Ok _) =>
      match ProcessRequestHeaders ctx s with
      | (s, Ok _) => run_response hdrs chunks s
      | (s, Fail e) => (s, Fail e)
      | (s, Panic m) => (s, Panic m)
      end
  | (s, Fail e) => (s, Fail e)
  | (s, Panic m) => (s, Panic m)
  end.

Definition no_panic {A} (r : outcome A) : Prop := match r with Panic _ => False | _ => True end.

(** The status the response was classified with. *)
Definition good_status (u : upstreamProcessor T H) : bool :=
  isGoodStatusCode (Atoi_value (mget (u_responseHeaders u) ":status")).

(** What the body of [ProcessResponseBody] leaves: the completions, the local
    reply flag and the status are unchanged, and a raised flag means the stream
    was terminated or the status is bad. *)
Definition body_post (s : up) (x : up * outcome ProcessingResponse * bool) : Prop :=
  let '(s', r, flag) := x in
  same_request s s' ∧ good_status s'.2 = good_status s.2 ∧
  (flag = false → u_responseStreamTerminated s'.2 = u_responseStreamTerminated s.2) ∧
  (flag = true → is_ok r = true ∧ (u_responseStreamTerminated s'.2 = true ∨ good_status s.2 = false)).

Lemma sliceFrom_keeps (u : upstreamProcessor T H) d :
  u_metrics (sliceFrom u d).1 = u_metrics u ∧ u_responseHeaders (sliceFrom u d).1 = u_responseHeaders u ∧
  u_responseStreamTerminated (sliceFrom u d).1 = u_responseStreamTerminated u ∧
  u_translator (sliceFrom u d).1 = u_translator u.
Proof. unfold sliceFrom. by destruct (_ <? _). Qed.

Lemma decodeStreaming_keeps chunk eos (u : upstreamProcessor T H) :
  let u' := (decodeStreamingContent chunk eos u).1 in
  u_metrics u' = u_metrics u ∧ u_responseHeaders u' = u_responseHeaders u ∧
  u_responseStreamTerminated u' = u_responseStreamTerminated u ∧ u_translator u' = u_translator u.
Proof.
  unfold decodeStreamingContent. destruct (decodeContentIfNeeded _ _) as [d| |]; [|done..].
  destruct (rd_err _); [destruct (_ || _); [done|]|];
    apply (sliceFrom_keeps (set_compressedBuf (u_compressedBuf u +:+ chunk) u)).
Qed.

Lemma recordUsage_same eos (s : up) :
  same_request s (recordUsage eos s) ∧ good_status (recordUsage eos s).2 = good_status s.2 ∧
  u_responseStreamTerminated (recordUsage eos s).2 = u_responseStreamTerminated s.2.
Proof.
  unfold recordUsage, same_request.
  destruct (rp_stream s.1), eos; rewrite ?completions_metric; simpl; by rewrite ?app_nil_r.
Qed.

Lemma recordUsage_completions eos (s : up) : completions (recordUsage eos s).2 = completions s.2.
Proof. apply recordUsage_same. Qed.

(** The tail of the body once a chunk is decoded. *)
Lemma translated_post s0 eos tokenUsage responseModel (s : up) hm bm :
  same_request s0 s → good_status s.2 = good_status s0.2 →
  u_responseStreamTerminated s.2 = u_responseStreamTerminated s0.2 →
  body_post s0
    (let s := onU (λ u, set_costs (Override (u_costs u) tokenUsage) u) s in
     let s := metric (MSetResponseModel responseModel) s in
     let s := recordUsage eos s in
     match responseMetadata eos tokenUsage responseModel s with
     | Panic p => (s, Panic p, false)
     | Fail e => (s, Fail e, false)
     | Ok metadata =>
         let s := if eos then spanCall SEndSpan s else s in
         (s, Ok {| pr_Response := commonBody hm bm; pr_DynamicMetadata := metadata; pr_StreamedMode := false |}, false)
     end).
Proof.
  intros [L C] G E. cbv zeta.
  set (s2 := metric _ _). set (s3 := recordUsage eos s2).
  assert (same_request s0 s3 ∧ good_status s3.2 = good_status s0.2 ∧
          u_responseStreamTerminated s3.2 = u_responseStreamTerminated s0.2) as (L3 & G3 & E3).
  { destruct (recordUsage_same eos s2) as ([L' C'] & G' & E'). fold s3 in L', C', G', E'.
    rewrite G', E'. split; [|done]. split; [by rewrite L'|]. rewrite C'. unfold s2.
    rewrite completions_metric. simpl. rewrite app_nil_r. exact C. }
  destruct (responseMetadata _ _ _ s3) as [m|e|p]; simpl; [|done..].
  destruct eos; [|done]. rewrite spanCall_upstream. split; [|done].
  destruct L3 as [L3 C3]. split; [by rewrite spanCall_local|done].
Qed.

Lemma ProcessResponseBody_body_post body (s : up) : body_post s (ProcessResponseBody_body body s).
Proof.
  unfold ProcessResponseBody_body. cbv zeta.
  destruct (if rp_stream s.1 && _ then _ else _) as [u decoded] eqn:Ed.
  assert (u_metrics u = u_metrics s.2 ∧ u_responseHeaders u = u_responseHeaders s.2 ∧
          u_responseStreamTerminated u = u_responseStreamTerminated s.2) as (M & R & E).
  { destruct (rp_stream s.1 && _); [|by simplify_eq].
    pose proof (decodeStreaming_keeps (default "" (hb_Body body)) (hb_EndOfStream body) s.2) as Hk.
    rewrite Ed in Hk. simpl in Hk. tauto. }
  clear Ed. assert (completions u = completions s.2) as C by (unfold completions; by rewrite M).
  assert (good_status u = good_status s.2) as G by (unfold good_status; by rewrite R).
  destruct decoded as [d|e|p]; [|done..]. cbn [fst snd].
  destruct (u_translator u) as [t|]; [|done].
  rewrite R. fold (good_status s.2). destruct (good_status s.2) eqn:Gs; simpl negb; cbv iota.
  - destruct (tr_ResponseBody _ _ _ _ _) as [t' [[[[hs b] usage] model] err]].
    destruct (mutationsFromTranslationResult hs b) as [hm bm]. destruct err as [e|].
    + destruct (rp_stream _ && _ && _).
      * unfold body_post, same_request. rewrite spanCall_local, spanCall_upstream, Gs.
        split; [done|]. split; [exact G|]. split; [done|]. intros _. split; [done|by left].
      * unfold body_post. by rewrite Gs.
    + apply translated_post; [done|by rewrite Gs|done].
  - destruct (tr_ResponseError _ _ _) as [t' [[hs b]|e|p]].
    + destruct (mutationsFromTranslationResult hs b) as [hm bm].
      unfold body_post, same_request. rewrite spanCall_local, spanCall_upstream, Gs.
      split; [done|]. split; [exact G|]. split; [done|]. intros _. split; [done|by right].
    + unfold body_post. by rewrite Gs.
    + unfold body_post. by rewrite Gs.
Qed.

(** A chunk of an open response: what it records and what it leaves open. *)
Lemma response_chunk c (s : up) :
  rp_localReplyEmitted s.1 = false → u_responseStreamTerminated s.2 = false →
  let x := upstream_ProcessResponseBody c s in
  rp_localReplyEmitted x.1.1 = false ∧ good_status x.1.2 = good_status s.2 ∧
  ((is_ok x.2 = true ∧ u_responseStreamTerminated x.1.2 = false ∧ completions x.1.2 = completions s.2 ∧
      hb_EndOfStream c = false) ∨
   (∃ b, completions x.1.2 = completions s.2 ++ [b] ∧
      (is_fail x.2 = true ∨ u_responseStreamTerminated x.1.2 = true ∨ hb_EndOfStream c = true ∨
       good_status s.2 = false)) ∨
   (is_ok x.2 = false ∧ is_fail x.2 = false)).
Proof.
  intros L E. unfold upstream_ProcessResponseBody. rewrite L, E.
  pose proof (ProcessResponseBody_body_post c s) as Hp.
  destruct (ProcessResponseBody_body c s) as [[s' r] flag].
  destruct Hp as ([L' C'] & G' & Hf & Ht). rewrite L in L'.
  destruct (is_fail r || flag) eqn:Ef; [|destruct (hb_EndOfStream c) eqn:Ee];
    simpl; (split; [done|]); (split; [exact G'|]).
  - right; left. exists false. rewrite <-C'. split; [apply completions_record|].
    apply orb_true_iff in Ef as [Ef| ->]; [by left|]. destruct (Ht eq_refl) as [_ [?|?]]; auto.
  - right; left. exists true. rewrite <-C'. split; [apply completions_record|auto].
  - apply orb_false_iff in Ef as [Ef ->].
    destruct r; [left|done|right; right]; rewrite ?Hf; auto.
Qed.

(** Chunks after a terminal error record nothing. *)
Lemma run_chunks_terminated chunks (s : up) :
  rp_localReplyEmitted s.1 = true ∨ u_responseStreamTerminated s.2 = true →
  (run_chunks chunks s).1 = s ∧ is_ok (run_chunks chunks s).2 = true.
Proof.
  intros Hs. induction chunks as [|c chunks [IH1 IH2]]; [done|]. simpl. unfold upstream_ProcessResponseBody.
  destruct (rp_localReplyEmitted s.1) eqn:L.
  - destruct (run_chunks chunks s) as [s' [ps|e|p]]; by simpl in *.
  - destruct Hs as [?| ->]; [done|]. simpl. destruct (run_chunks chunks s) as [s' [ps|e|p]]; by simpl in *.
Qed.

Lemma run_chunks_once pre last (s : up) :
  rp_localReplyEmitted s.1 = false → u_responseStreamTerminated s.2 = false →
  Forall (λ c, hb_EndOfStream c = false) pre → hb_EndOfStream last = true →
  (good_status s.2 = false → pre = []) →
  no_panic (run_chunks (pre ++ [last]) s).2 →
  ∃ b, completions (run_chunks (pre ++ [last]) s).1.2 = completions s.2 ++ [b].
Proof.
  revert s. induction pre as [|c pre IH]; intros s L E Hpre Hlast Hg Hp.
  - simpl in *. pose proof (response_chunk last s L E) as (_ & _ & Hc).
    destruct (upstream_ProcessResponseBody last s) as [s' [p|e|m]]; simpl in *; [| |done];
      destruct Hc as [(?&?&?&?)|[(b & Hb & _)|[]]]; try congruence; eauto.
  - apply Forall_cons in Hpre as [Hc0 Hpre].
    destruct (good_status s.2) eqn:Gs; [|discriminate (Hg eq_refl)].
    simpl in *. pose proof (response_chunk c s L E) as (L' & G' & Hc).
    destruct (upstream_ProcessResponseBody c s) as [s' [p|e|m]]; simpl in *; [| |done].
    + destruct Hc as [(_ & E' & C' & _)|[(b & Hb & Hterm)|[]]]; [| |done].
      * rewrite Gs in G'.
        destruct (IH s' L' E' Hpre Hlast) as [b Hb]; [by rewrite G'| |].
        { destruct (run_chunks _ s') as [? []]; done. }
        exists b. rewrite <-C', <-Hb. by destruct (run_chunks _ s') as [? []].
      * destruct Hterm as [?|[Et|[?|?]]]; [done| |congruence..].
        destruct (run_chunks_terminated (pre ++ [last]) s' (or_intror Et)) as [Hs' _].
        exists b. rewrite <-Hb. destruct (run_chunks _ s') as [s'' []]; simpl in *; by subst.
    + destruct Hc as [(?&?)|[(b & Hb & _)|[]]]; [done|eauto|done].
Qed.

Lemma ProcessResponseHeaders_body_post hdrs (s : up) :
  let x := ProcessResponseHeaders_body hdrs s in
  same_request s x.1 ∧
  match x.2 with
  | Ok p => u_responseStreamTerminated x.1.2 = false ∧
            (pr_StreamedMode p = true → good_status x.1.2 = true)
  | _ => True
  end.
Proof.
  unfold ProcessResponseHeaders_body.
  case_bool_decide; simpl; (destruct (u_translator s.2) as [t|]; [|done]);
    destruct (tr_ResponseHeaders t _) as [t' [hs|e|p]]; simpl; try done;
    (split; [done|]); (split; [done|]); intros [_ Hst]%andb_true_iff;
    apply bool_decide_eq_true in Hst; unfold good_status; simpl; by rewrite Hst.
Qed.

(** The outcome of the response headers phase. *)
Lemma response_headers hdrs (s : up) :
  rp_localReplyEmitted s.1 = false →
  let x := upstream_ProcessResponseHeaders hdrs s in
  rp_localReplyEmitted x.1.1 = false ∧
  match x.2 with
  | Ok p => completions x.1.2 = completions s.2 ∧ u_responseStreamTerminated x.1.2 = false ∧
            (pr_StreamedMode p = true → good_status x.1.2 = true)
  | Fail _ => completions x.1.2 = completions s.2 ++ [false]
  | Panic _ => True
  end.
Proof.
  intros L. unfold upstream_ProcessResponseHeaders. rewrite L. cbv zeta. rewrite local_deferred.
  pose proof (completions_deferred (ProcessResponseHeaders_body hdrs s)) as Hc.
  pose proof (ProcessResponseHeaders_body_post hdrs s) as [[L' C'] Hx].
  destruct (ProcessResponseHeaders_body hdrs s) as [s' [p|e|m]]; simpl in *; rewrite L'; [done| |done].
  split; [done|]. by rewrite Hc, C'.
Qed.

Lemma attempt_completions ctx i backend route hdrs chunks hs0 r :
  rp_localReplyEmitted r = false →
  (∀ streamed, chunks_ok streamed (chunks streamed)) →
  no_panic (run_attempt ctx i backend route hdrs chunks (r, newUpstreamProcessor hs0)).2 →
  ∃ b, completions (run_attempt ctx i backend route hdrs chunks (r, newUpstreamProcessor hs0)).1.2 = [b].
Proof.
  intros L Hch. set (s := (r, newUpstreamProcessor hs0) : up). unfold run_attempt, upstream_SetBackend.
  pose proof (SetBackend_same i backend route s) as [L1 C1].
  change (completions s.2) with (@nil bool) in C1. change (rp_localReplyEmitted s.1) with (rp_localReplyEmitted r) in L1.
  pose proof (completions_deferred (SetBackend_body i backend route s)) as D1.
  destruct (SetBackend_body i backend route s) as [s1 [[]|e|p]]; simpl in C1, L1, D1 |- *; rewrite C1 in D1;
    [|intros _; by rewrite D1; eauto|done].
  unfold upstream_ProcessRequestHeaders.
  pose proof (ProcessRequestHeaders_body_post ctx s1) as P2.
  pose proof (completions_deferred (ProcessRequestHeaders_body range1 range2 range3 LogRequestHeaderAttributes ctx s1)) as D2.
  destruct (ProcessRequestHeaders_body _ _ _ _ ctx s1) as [s2 [p2|e|p]]; unfold request_post in P2;
    simpl in P2, D2 |- *; [| |done].
  2: { intros _. rewrite D2, P2, C1. by eauto. }
  unfold run_response. destruct P2 as [[L2 C2]|[L2 C2]]; rewrite C1 in C2.
  - unfold upstream_ProcessResponseHeaders. rewrite L2. intros _.
    destruct (run_chunks_terminated (chunks (pr_StreamedMode respHeadersPassThrough)) s2 (or_introl L2)) as [-> _].
    rewrite C2. by eauto.
  - rewrite L1, L in L2. pose proof (response_headers hdrs s2 L2) as [L3 H3].
    destruct (upstream_ProcessResponseHeaders hdrs s2) as [s3 [p3|e|p]]; simpl in *; [| |done].
    + destruct H3 as (C3 & E3 & G3). destruct (Hch (pr_StreamedMode p3)) as (pre & last & Heq & Hpre & Hl & Hst).
      rewrite Heq. intros Hp.
      destruct (run_chunks_once pre last s3) as [b Hb]; try done.
      { intros Gf. apply Hst. destruct (pr_StreamedMode p3); [|done]. rewrite G3 in Gf; done. }
      exists b. by rewrite Hb, C3, C2.
    + intros _. rewrite H3, C2. by eauto.
Qed.

(** C1: every attempt is completed in the metrics exactly once.  From a fresh
    upstream processor, whatever the translator, the auth handler and the
    upstream do, an attempt that Envoy drives through its phases (backend
    selection, request headers, response headers, response chunks of which the
    last ends the stream) records one completion: not zero when it fails early
    or is answered locally, and not two when an error or a terminal stream
    event comes before the end of the stream. *)
Theorem attempt_completed_once ctx i backend route hdrs chunks hs0 r :
  rp_localReplyEmitted r = false →
  (∀ streamed, chunks_ok streamed (chunks streamed)) →
  no_panic (run_attempt ctx i backend route hdrs chunks (r, newUpstreamProcessor hs0)).2 →
  ∃ b, completions (run_attempt ctx i backend route hdrs chunks (r, newUpstreamProcessor hs0)).1.2 = [b].
Proof. apply attempt_completions. Qed.

(** ** After the last word *)

(** What every later chunk is answered with. *)
Definition silent_response (r : routerProcessor ReqT Span H Prog Codec) : ProcessingResponse :=
  if rp_localReplyEmitted r then respBodyPassThrough
  else plainResponse (commonBody None (Some {| bmut_Body := Some "" |})).

(** After the last word nothing more is said: once the gateway has answered
    locally or has sent a terminal stream error, every later body chunk leaves
    the state, the metrics and the span as they are; the local reply passes
    through untouched, and a chunk after a terminal error is replaced by an
    empty body. *)
Theorem response_is_over chunks (s : up) :
  rp_localReplyEmitted s.1 = true ∨ u_responseStreamTerminated s.2 = true →
  run_chunks chunks s = (s, Ok (replicate (length chunks) (silent_response s.1))).
Proof.
  intros Hs. unfold silent_response. induction chunks as [|c chunks IH]; [done|].
  simpl. unfold upstream_ProcessResponseBody. destruct (rp_localReplyEmitted s.1) eqn:L.
  - by rewrite IH.
  - destruct Hs as [?| E]; [done|]. rewrite E. simpl. by rewrite IH.
Qed.

(** ** The upstream request *)

(** The two responses of a dispatched request, for given parts of the header mutation. *)
Ltac dispatched sets removes hdrs :=
  destruct (negb _); intros [= <-]; right; eexists _, sets, removes, hdrs;
  (split; [reflexivity|]);
  (split; [unfold addSetHeaders, addRemoveHeaders; simpl;
           by rewrite ?fmap_app, <-?app_assoc, ?app_nil_r|]);
  (split; [done|eauto]).

(** Where the parts of a dispatched request's header mutation come from. *)
Lemma dispatch_headers ctx newHeaders newBody force (s : up) p :
  (dispatch ctx newHeaders newBody force s).2 = Ok p →
  (∃ i, pr_Response p = RespImmediate i ∧ im_Status i = 401%Z) ∨
  ∃ cm sets removes hdrs,
    pr_Response p = RespRequestHeaders (Some (Some cm)) ∧
    cm_HeaderMutation cm = Some {| hmut_SetHeaders := overwrite <$> (newHeaders ++ sets ++ hdrs);
                                   hmut_RemoveHeaders := removes ++ [UpstreamHostHeader] |} ∧
    (u_handler s.2 = None → hdrs = []) ∧
    match u_headerMutator s.2 with
    | Some h => ∃ m, HeaderMutator_Mutate range1 range2 h (u_requestHeaders s.2) (onRetry s.1) = (m, sets, removes)
    | None => sets = [] ∧ removes = []
    end.
Proof.
  unfold ExtProc.dispatch, mutateHeaders, mutationsFromTranslationResult, authenticate. cbv zeta.
  destruct (u_headerMutator s.2) as [h|];
    [destruct (HeaderMutator_Mutate _ _ _ _ _) as [[m sets] removes]|];
    cbn [u_handler onU storeSetHeaders snd fst set_requestHeaders];
    destruct (u_handler s.2) as [hd|];
    try (destruct (auth_Do _ _ _ _) as [rh [hdrs|e|pn]]; [|destruct (errors_Is e _)|done]);
    try done; try (intros [= <-]; left; eexists; split; reflexivity).
  - dispatched sets removes hdrs.
  - dispatched sets removes (@nil Header).
  - dispatched (@nil Header) (@nil string) hdrs.
  - dispatched (@nil Header) (@nil string) (@nil Header).
Qed.

(** The internal upstream-host header never reaches a provider by way of
    the client: every request the upstream filter lets through removes it, all
    headers it sets overwrite, and anything else it answers is a local reply
    with a 4xx status. *)
Theorem upstream_host_stripped ctx (s : up) p :
  (ProcessRequestHeaders ctx s).2 = Ok p →
  match pr_Response p with
  | RespImmediate i => im_Status i = 401%Z ∨ im_Status i = 422%Z
  | RespRequestHeaders (Some (Some cm)) =>
      ∃ hm, cm_HeaderMutation cm = Some hm ∧ UpstreamHostHeader ∈ hmut_RemoveHeaders hm ∧
        Forall (λ o, hvo_AppendAction o = OVERWRITE_IF_EXISTS_OR_ADD) (hmut_SetHeaders hm)
  | _ => False
  end.
Proof.
  unfold upstream_ProcessRequestHeaders. intros Hp.
  assert ((ProcessRequestHeaders_body range1 range2 range3 LogRequestHeaderAttributes ctx s).2 = Ok p) as H'.
  { unfold deferRecordOnErr in Hp. by destruct (ProcessRequestHeaders_body _ _ _ _ ctx s) as [? []]. }
  clear Hp. revert H'. unfold ProcessRequestHeaders_body. cbv zeta. set (s3 := metric (MSetRequestModel _) _).
  clearbody s3. destruct (u_unsupportedBackendErr s3.2); [intros [= <-]; simpl; auto|].
  destruct (u_translator s3.2) as [t|]; [|done].
  destruct (tr_RequestBody _ _ _ _) as [t' [[hs b]|e|q]]; [|destruct (GetUserFacingError e)|done].
  - intros [(i & -> & ->)|(cm & sets & removes & hdrs & -> & Hm & _)]%dispatch_headers; [by left|].
    eexists. split; [exact Hm|]. simpl. split; [set_solver|].
    apply Forall_fmap, Forall_true. done.
  - intros [= <-]. simpl. auto.
  - done.
Qed.

(** The headers a mutation sets, in order. *)
Definition set_pairs (hm : HeaderMutation) : list Header :=
  (λ o, (hvo_Key o, hvo_RawValue o)) <$> hmut_SetHeaders hm.

Lemma pairs_overwrite (l : list Header) : (λ o, (hvo_Key o, hvo_RawValue o)) <$> (overwrite <$> l) = l.
Proof. induction l as [|[k v] l IH]; [done|]. by rewrite !fmap_cons, IH. Qed.

(** On a retry the client's header wins over the translator's: a header the
    translator sets for this attempt, and that the client's request also had,
    goes upstream with the client's original value (for a backend without an
    auth handler and without a mutation of that header). *)
Theorem retry_overrides_translator `{!RangeOrder range1, !RangeOrder range2}
    ctx newHeaders newBody force (s : up) p h k v cm hm :
  (dispatch ctx newHeaders newBody force s).2 = Ok p →
  pr_Response p = RespRequestHeaders (Some (Some cm)) → cm_HeaderMutation cm = Some hm →
  onRetry s.1 = true → u_handler s.2 = None → u_headerMutator s.2 = Some h →
  shouldIgnoreHeader k = false → last_binding k (wanted_sets h) = None → k ∉ wanted_removes h →
  hmu_originalHeaders h !! k = Some v →
  last_binding k (set_pairs hm) = Some v.
Proof.
  intros Hd Hp Hcm Hr Hh Hm Hi Hs Hrm Ho.
  apply dispatch_headers in Hd as [(i & Hd & _)|(cm' & sets & removes & hdrs & Hd & Hcm' & Hnone & Hmut)];
    [congruence|]. rewrite Hp in Hd. injection Hd as <-. rewrite Hcm in Hcm'. injection Hcm' as ->.
  rewrite Hm in Hmut. destruct Hmut as [m Hmut]. rewrite (Hnone Hh), app_nil_r.
  unfold set_pairs. cbn [hmut_SetHeaders]. rewrite pairs_overwrite.
  pose proof (Mutate_view range1 range2 h (u_requestHeaders s.2) true k) as Hv.
  rewrite Hr in Hmut. rewrite Hmut in Hv. unfold expected_view in Hv. rewrite Hi, Hs in Hv. simpl in Hv.
  rewrite (bool_decide_false (k ∈ wanted_removes h)), Ho in Hv by done. injection Hv as _ Hb _.
  rewrite last_binding_app. by rewrite Hb.
Qed.

Lemma mutateHeaders_keeps hm (s : up) :
  u_bodyMutator (mutateHeaders range1 range2 hm s).1.2 = u_bodyMutator s.2 ∧
  (mutateHeaders range1 range2 hm s).1.1 = s.1.
Proof.
  unfold mutateHeaders. destruct (u_headerMutator s.2); [|done].
  by destruct (HeaderMutator_Mutate _ _ _ _ _) as [[rh sets] removes].
Qed.

(** The request body is replaced exactly when there is a reason to: the
    translator produced a body, the replay is forced (a retry, or a body changed
    while parsing) or a body mutation is configured.  Otherwise Envoy is told to
    continue with the body it has.  When the body is replayed without a new body
    and without configured mutations, it is the original request body. *)
Theorem body_replacement ctx newHeaders newBody force (s : up) p cm :
  (dispatch ctx newHeaders newBody force s).2 = Ok p →
  pr_Response p = RespRequestHeaders (Some (Some cm)) →
  let want := bool_decide (is_Some newBody) || force || HasMutations (u_bodyMutator s.2) in
  (cm_Status cm = if want then CONTINUE_AND_REPLACE else CONTINUE) ∧
  (want = false → cm_BodyMutation cm = None) ∧
  (newBody = None → force = true → is_Some (u_bodyMutator s.2) → HasMutations (u_bodyMutator s.2) = false →
     cm_BodyMutation cm = Some {| bmut_Body := rp_originalRequestBodyRaw s.1 |}).
Proof.
  unfold ExtProc.dispatch. unfold mutationsFromTranslationResult.
  pose proof (mutateHeaders_keeps {| hmut_SetHeaders := overwrite <$> newHeaders; hmut_RemoveHeaders := [] |} s) as [Hb Hr].
  destruct (mutateHeaders _ _ _ s) as [s1 hm1]. simpl in Hb, Hr. cbv zeta. rewrite Hb, Hr.
  replace (bool_decide (is_Some ((λ b, {| bmut_Body := Some b |}) <$> newBody)))
    with (bool_decide (is_Some newBody)) by (by destruct newBody).
  set (want := _ || HasMutations _). set (bm := default _ _).
  destruct (authenticate ctx _ _) as [s2 [hdrs|e|q]]; [|destruct (errors_Is e _)|done];
    [|intros [= <-]; done|done].
  destruct want eqn:Ew; simpl; intros [= <-] [= <-]; simpl; (split; [done|]); (split; [done|]);
    intros -> -> [b Hbm] Hm; [|done].
  unfold bm. simpl. rewrite Hbm in Hm |- *. simpl. by rewrite BodyMutator_Mutate_noop.
Qed.

(** ** Streaming decompression *)

(** A compressed stream as a decompressor sees it while it arrives: once the
    first [hdr] bytes are there a reader can be made; a prefix of the stream
    yields a prefix of the text, more bytes never yield less, and reading a
    proper prefix ends with [io.ErrUnexpectedEOF] at worst. *)
Record stream_decodes (enc full plain : string) (hdr : nat) : Prop := {
  sd_hdr : 0 < hdr;
  sd_prefix p : HasPrefix full p = true → hdr ≤ String.length p →
    ∃ r, decodeContentIfNeeded p enc = Ok {| cd_reader := r; cd_isEncoded := true |} ∧
      HasPrefix plain (rd_data r) = true ∧
      (rd_err r = None ∨ ∃ e, rd_err r = Some e ∧ errors_Is e IoErrUnexpectedEOF = true);
  sd_mono p q r r' : HasPrefix full p = true → HasPrefix full q = true →
    hdr ≤ String.length p → String.length p ≤ String.length q →
    decodeContentIfNeeded p enc = Ok {| cd_reader := r; cd_isEncoded := true |} →
    decodeContentIfNeeded q enc = Ok {| cd_reader := r'; cd_isEncoded := true |} →
    String.length (rd_data r) ≤ String.length (rd_data r');
  sd_full : hdr ≤ String.length full →
    decodeContentIfNeeded full enc =
      Ok {| cd_reader := {| rd_data := plain; rd_err := None |}; cd_isEncoded := true |};
}.

(** Decodes the chunks of a response in order, the last one ending the stream. *)
Fixpoint decode_chunks (chunks : list string) (u : upstreamProcessor T H) :
    upstreamProcessor T H * outcome (list string) :=
  match chunks with
  | [] => (u, Ok [])
  | c :: chunks =>
      match decodeStreamingContent c (bool_decide (chunks = [])) u with
      | (u, Ok d) =>
          match decode_chunks chunks u with
          | (u, Ok ds) => (u, Ok (rd_data (cd_reader d) :: ds))
          | (u, r) => (u, r)
          end
      | (u, Fail e) => (u, Fail e)
      | (u, Panic m) => (u, Panic m)
      end
  end.

Lemma sliceFrom_ok (u : upstreamProcessor T H) d :
  u_decompressedOffset u ≤ String.length d →
  sliceFrom u d = (set_decompressedOffset (String.length d) u,
                   Ok {| cd_reader := bytes_NewReader (str_drop (u_decompressedOffset u) d); cd_isEncoded := true |}).
Proof. intros Hd. unfold sliceFrom. by replace (_ <? _) with false by (symmetry; apply Nat.ltb_ge; lia). Qed.

(** The text decoded so far is the prefix of length [u_decompressedOffset]. *)
Lemma decode_step enc full plain hdr c more eos (u : upstreamProcessor T H) :
  (eos = true → more = "") →
  stream_decodes enc full plain hdr → u_responseEncoding u = enc →
  u_compressedBuf u +:+ c +:+ more = full → hdr ≤ String.length (u_compressedBuf u +:+ c) →
  (u_decompressedOffset u = 0 ∨
   ∃ r, hdr ≤ String.length (u_compressedBuf u) ∧
     decodeContentIfNeeded (u_compressedBuf u) enc = Ok {| cd_reader := r; cd_isEncoded := true |} ∧
     String.length (rd_data r) = u_decompressedOffset u) →
  ∃ r u', decodeContentIfNeeded (u_compressedBuf u +:+ c) enc = Ok {| cd_reader := r; cd_isEncoded := true |} ∧
    HasPrefix plain (rd_data r) = true ∧
    decodeStreamingContent c eos u =
      (u', Ok {| cd_reader := bytes_NewReader (str_drop (u_decompressedOffset u) (rd_data r)); cd_isEncoded := true |}) ∧
    u_compressedBuf u' = u_compressedBuf u +:+ c ∧ u_decompressedOffset u' = String.length (rd_data r) ∧
    u_decompressedOffset u ≤ String.length (rd_data r) ∧ u_responseEncoding u' = enc.
Proof.
  intros Heos Hsd He Hf Hl Hoff.
  assert (HasPrefix full (u_compressedBuf u +:+ c) = true) as Hp.
  { apply HasPrefix_spec. exists more. by rewrite <-Hf, sapp_assoc. }
  destruct (sd_prefix _ _ _ _ Hsd _ Hp Hl) as (r & Hr & Hpl & Herr).
  assert (u_decompressedOffset u ≤ String.length (rd_data r)) as Hle.
  { destruct Hoff as [->|(r0 & Hl0 & Hr0 & <-)]; [lia|].
    eapply (sd_mono _ _ _ _ Hsd (u_compressedBuf u)); [|exact Hp|exact Hl0| |exact Hr0|exact Hr].
    - apply HasPrefix_spec. exists (c +:+ more). by rewrite <-Hf.
    - rewrite slength_app. lia. }
  exists r, (set_decompressedOffset (String.length (rd_data r)) (set_compressedBuf (u_compressedBuf u +:+ c) u)).
  split; [exact Hr|]. split; [exact Hpl|]. split.
  - unfold decodeStreamingContent. cbn [u_responseEncoding set_compressedBuf]. rewrite He, Hr. cbn [cd_reader].
    destruct eos.
    + rewrite (Heos eq_refl), sapp_nil_r in Hf. rewrite Hf in Hr, Hl.
      rewrite (sd_full _ _ _ _ Hsd Hl) in Hr. injection Hr as <-. simpl. by rewrite sliceFrom_ok.
    + destruct Herr as [->|(e & -> & Heof)]; simpl; rewrite ?Heof; simpl; by rewrite sliceFrom_ok.
  - done.
Qed.

Lemma decode_chunks_spec enc full plain hdr chunks (u : upstreamProcessor T H) :
  stream_decodes enc full plain hdr → u_responseEncoding u = enc → chunks ≠ [] →
  u_compressedBuf u +:+ sconcat chunks = full →
  (match chunks with c :: _ => hdr ≤ String.length (u_compressedBuf u +:+ c) | [] => True end) →
  (u_decompressedOffset u = 0 ∨
   ∃ r, hdr ≤ String.length (u_compressedBuf u) ∧
     decodeContentIfNeeded (u_compressedBuf u) enc = Ok {| cd_reader := r; cd_isEncoded := true |} ∧
     String.length (rd_data r) = u_decompressedOffset u) →
  ∃ ds, (decode_chunks chunks u).2 = Ok ds ∧ length ds = length chunks ∧
    sconcat ds = str_drop (u_decompressedOffset u) plain.
Proof.
  intros Hsd. revert u. induction chunks as [|c chunks IH]; intros u He Hne Hf Hl Hoff; [done|].
  clear Hne. rewrite sconcat_cons in Hf.
  destruct (decode_step enc full plain hdr c (sconcat chunks) (bool_decide (chunks = [])) u)
    as (r & u' & Hr & Hpl & Hd & Hbuf & Ho & Hle & He'); try done.
  { intros ->%bool_decide_eq_true. done. }
  cbn [decode_chunks]. rewrite Hd. destruct (decide (chunks = [])) as [->|Hne].
  - exists [str_drop (u_decompressedOffset u) (rd_data r)]. split; [done|]. split; [done|].
    simpl in Hf. rewrite sapp_nil_r in Hf. rewrite Hf in Hr, Hl.
    rewrite (sd_full _ _ _ _ Hsd Hl) in Hr. injection Hr as <-. by rewrite sconcat_cons, sapp_nil_r.
  - destruct (IH u') as (ds & Hds & Hlen & Hcat); try done.
    + by rewrite Hbuf, <-sapp_assoc.
    + destruct chunks as [|c' chunks]; [done|]. rewrite Hbuf, slength_app. lia.
    + right. exists r. by rewrite Hbuf.
    + destruct (decode_chunks chunks u') as [u'' r'']. simpl in Hds. subst r''. eexists. split; [done|].
      split; [by simpl; rewrite Hlen|]. rewrite sconcat_cons, Hcat, Ho. simpl.
      by apply str_drop_split.
Qed.

(** Streaming decompression neither loses nor repeats a byte: for a
    compressed stream cut into chunks anywhere after its header, the pieces
    handed to the translator concatenate to the decompressed text, with no
    error and no panic. *)
Theorem streaming_decode_complete enc full plain hdr chunks (u : upstreamProcessor T H) :
  stream_decodes enc full plain hdr →
  u_responseEncoding u = enc → u_compressedBuf u = "" → u_decompressedOffset u = 0 →
  sconcat chunks = full → (∃ c rest, chunks = c :: rest ∧ hdr ≤ String.length c) →
  ∃ ds, (decode_chunks chunks u).2 = Ok ds ∧ length ds = length chunks ∧ sconcat ds = plain.
Proof.
  intros Hsd He Hb Ho Hf (c & rest & -> & Hc).
  destruct (decode_chunks_spec enc full plain hdr (c :: rest) u) as (ds & Hds & Hlen & Hcat); try done.
  - by rewrite Hb, sapp_nil_l.
  - by rewrite Hb, sapp_nil_l.
  - by left.
  - exists ds. rewrite Hcat, Ho. by destruct plain.
Qed.

(** A first chunk shorter than the compressed header is fatal: the reader
    cannot be created yet, and the stream is failed instead of waiting for more
    bytes. *)
Theorem short_first_chunk_fails chunk e (u : upstreamProcessor T H) :
  u_responseEncoding u = "gzip" → u_compressedBuf u = "" → chunk ≠ "" →
  gzip_NewReader chunk = Fail e → errors_Is e IoErrUnexpectedEOF = true →
  (decodeStreamingContent chunk false u).2 = Fail (Errorf_w "failed to decode gzip: " e).
Proof.
  intros He Hb Hc Hg _. unfold decodeStreamingContent, decodeContentIfNeeded. simpl. rewrite Hb, He, sapp_nil_l.
  rewrite bool_decide_false by done. simpl. by rewrite Hg.
Qed.

(** ** The router's request phase *)




(** A request body the endpoint rejects as malformed is answered with a 400
    and leaves the router untouched; any other parse failure fails the stream. *)
Theorem router_rejects_malformed (r : routerProcessor ReqT Span H Prog Codec) body e :
  HasPrefix (ToLower (mget (rp_requestHeaders r) "content-type")) "multipart/form-data" = false →
  eh_ParseBody body (bool_decide (rt_RequestCosts (rp_config r) ≠ []) ||
                     bool_decide (rt_GlobalRequestCosts (rp_config r) ≠ [])) = Fail e →
  let x := router_ProcessRequestBody r {| hb_Body := body; hb_EndOfStream := true |} in
  x.1 = r ∧
  (if decide (errors_Is e ErrMalformedRequest || errors_Is e ErrInvalidRequestBody = true)
   then ∃ p, x.2 = Ok p ∧ ∃ i, pr_Response p = RespImmediate i ∧ im_Status i = 400%Z
   else is_fail x.2 = true).
Proof.
  intros Hc Hp. unfold router_ProcessRequestBody. simpl. rewrite Hc, Hp. unfold GetUserFacingError.
  destruct (errors_Is e ErrMalformedRequest), (errors_Is e ErrInvalidRequestBody); simpl; split; try done; eauto.
Qed.
End Props.

(** ** Concrete runs *)

(** A translator that sets one header and passes bodies through, an endpoint
    that rejects an empty body, and a compression format of two header bytes,
    the text and a final [$]. *)
Module Sample.

Definition eof : error := errors_Sentinel "unexpected EOF" IoErrUnexpectedEOF.

#[local] Instance decompressors : Decompressors :=
  {| gzip_NewReader s :=
       if String.length s <? 2 then Fail eof
       else if HasSuffix s "$" then
         Ok {| rd_data := TrimSuffix (str_drop 2 s) "$"; rd_err := None |}
       else Ok {| rd_data := str_drop 2 s; rd_err := Some eof |};
     brotli_NewReader s := bytes_NewReader s |}.

#[local] Instance translator : Translator unit nat unit :=
  {| tr_RequestBody t _ _ _ := (t, Ok ([("anthropic-beta", "kept")], None));
     tr_ResponseHeaders t _ := (t, Ok []);
     tr_ResponseBody t _ r _ _ := (t, ([], Some (rd_data r), SetOutputTokens 5 zeroUsage, "gpt", None));
     tr_ResponseError t _ r := (t, Ok ([], None));
     tr_SetContentType t _ := t; tr_SetRequestHeaders t _ := t;
     tr_SetHeaderValueFilter t _ _ _ := t; tr_SetRedactionConfig t _ _ := t |}.

#[local] Instance endpoint : EndpointSpec unit nat :=
  {| eh_ParseBody b _ :=
       match b with
       | None => Fail (errors_Sentinel "malformed request" ErrMalformedRequest)
       | Some _ => Ok ("gpt", tt, true, None)
       end;
     eh_ParseMultipartBody _ _ _ := Fail (errors_New "no multipart");
     eh_GetTranslator _ _ := Ok 0 |}.

#[local] Instance tracer : RequestTracer unit unit :=
  {| StartSpanAndInjectHeaders _ _ _ := (Some tt, [("traceparent", "00")]); isBackendSpan _ := true |}.
#[local] Instance noauth : AuthHandler unit := {| auth_Do _ _ hs _ := (hs, Ok []) |}.
#[local] Instance cel : CelEnv unit := sumCel.
#[local] Instance sjson : Sjson :=
  {| sjson_DeleteBytes b _ := Ok b; sjson_SetRawBytes b _ _ := Ok b; sjson_SetBytes b _ _ := Ok b |}.
#[local] Instance getters : MetricsGetters :=
  {| GetTimeToFirstTokenMs _ := f64_of_Z 3; GetInterTokenLatencyMs _ := f64_of_Z 1 |}.

Definition config : RuntimeConfig unit unit unit :=
  {| rt_UUID := "id"; rt_GlobalRequestCosts := sampleGlobals; rt_RequestCosts := sampleRoutes;
     rt_DeclaredModels := []; rt_ModelsByHost := ∅; rt_UnscopedModels := []; rt_Backends := ∅;
     rt_FileIDCodec := None |}.

Definition clientHeaders : headers :=
  <[":path" := "/v1/messages"]> (<["anthropic-beta" := "kept,dropped"]> (<["x-ai-eg-model" := "spoofed"]> ∅)).

Definition router0 : routerProcessor unit unit unit unit unit := newRouterProcessor config clientHeaders false false.

Definition accepted := router_ProcessRequestBody router0 {| hb_Body := Some "{}"; hb_EndOfStream := true |}.

Definition backend : RuntimeBackend unit :=
  {| rb_Backend := {| be_Name := "ns/b/route/r/rule/0/ref/0"; be_AIServiceBackendName := "";
                      be_ModelNameOverride := ""; be_Schema := {| sc_Name := APISchemaAnthropic;
                      sc_Version := ""; sc_Prefix := "" |}; be_Auth := None; be_HeaderMutation := None;
                      be_BodyMutation := None; be_HeaderValueFilters := [] |};
     rb_Handler := None |}.

Definition hdrs : HeaderMap := [(":status", "200", ""); ("content-encoding", "gzip", "")].
Definition chunks (streamed : bool) : list HttpBody :=
  if streamed then [{| hb_Body := Some "GZa"; hb_EndOfStream := false |};
                    {| hb_Body := Some "b$"; hb_EndOfStream := true |}]
  else [{| hb_Body := Some "GZab$"; hb_EndOfStream := true |}].

Definition run := run_attempt map_to_list map_to_list map_to_list ∅ None 0 backend "ns/r" hdrs chunks
  (accepted.1, newUpstreamProcessor clientHeaders).

Lemma attempt_completed_once_witness :
  (∃ b, completions run.1.2 = [b]) ∧ completions run.1.2 = [true].
Proof.
  split; [|vm_compute; reflexivity].
  apply (attempt_completed_once map_to_list map_to_list map_to_list ∅ None 0 backend "ns/r" hdrs chunks).
  - reflexivity.
  - intros [].
    + exists [{| hb_Body := Some "GZa"; hb_EndOfStream := false |}], {| hb_Body := Some "b$"; hb_EndOfStream := true |}.
      repeat split; repeat constructor. discriminate.
    + exists [], {| hb_Body := Some "GZab$"; hb_EndOfStream := true |}. repeat split; repeat constructor.
  - vm_compute. exact I.
Defined.

(** The attempt before its response, as a first attempt and as a retry. *)
Definition selected (n : nat) :=
  (upstream_SetBackend 0 backend "ns/r"
     (set_upstreamFilterCount n accepted.1, newUpstreamProcessor clientHeaders)).1.

Lemma response_is_over_witness :
  run_chunks (chunks true) (onR (set_localReplyEmitted true) (selected 0)) =
    (onR (set_localReplyEmitted true) (selected 0), Ok [respBodyPassThrough; respBodyPassThrough]).
Proof. apply (response_is_over (chunks true)). left. reflexivity. Defined.

Definition dispatched (n : nat) := upstream_ProcessRequestHeaders map_to_list map_to_list map_to_list ∅ None (selected n).

(** The response of the first attempt. *)
Definition first_response : ProcessingResponse :=
  Eval vm_compute in match (dispatched 0).2 with Ok p => p | _ => passThroughRequestHeaders end.

Lemma upstream_host_stripped_witness :
  match pr_Response first_response with
  | RespRequestHeaders (Some (Some cm)) =>
      ∃ hm, cm_HeaderMutation cm = Some hm ∧ UpstreamHostHeader ∈ hmut_RemoveHeaders hm ∧
        Forall (λ o, hvo_AppendAction o = OVERWRITE_IF_EXISTS_OR_ADD) (hmut_SetHeaders hm)
  | _ => False
  end.
Proof.
  refine (upstream_host_stripped map_to_list map_to_list map_to_list ∅ None (selected 0) first_response _).
  vm_compute. reflexivity.
Defined.

(** The retry: the translator asks for the filtered header, the client's goes out. *)
Definition retried := dispatch map_to_list map_to_list map_to_list ∅ None [("anthropic-beta", "kept")] None true (selected 1).
Definition retry_response : ProcessingResponse :=
  Eval vm_compute in match retried.2 with Ok p => p | _ => passThroughRequestHeaders end.
Definition retry_common : CommonResponse :=
  Eval vm_compute in match pr_Response retry_response with
                     | RespRequestHeaders (Some (Some cm)) => cm
                     | _ => {| cm_HeaderMutation := None; cm_BodyMutation := None; cm_Status := CONTINUE;
                               cm_ClearRouteCache := false |}
                     end.
Definition retry_mutation : HeaderMutation :=
  Eval vm_compute in default emptyHeaderMutation (cm_HeaderMutation retry_common).

Lemma retry_overrides_translator_witness :
  last_binding "anthropic-beta" (set_pairs retry_mutation) = Some "kept,dropped".
Proof.
  refine (retry_overrides_translator map_to_list map_to_list map_to_list ∅
    None [("anthropic-beta", "kept")] None true (selected 1) retry_response
    (NewHeaderMutator None accepted.1.(rp_requestHeaders)) "anthropic-beta" _ retry_common _ _ _ _ _ _ _ _ _ _ _);
    try (vm_compute; reflexivity).
  vm_compute. intros Hin. inversion Hin.
Defined.

Lemma body_replacement_witness :
  cm_Status retry_common = CONTINUE_AND_REPLACE ∧ cm_BodyMutation retry_common = Some {| bmut_Body := Some "{}" |}.
Proof.
  destruct (body_replacement map_to_list map_to_list map_to_list ∅ None [("anthropic-beta", "kept")] None true
    (selected 1) retry_response retry_common) as (Hst & _ & Hb); [vm_compute; reflexivity..|].
  split; [exact Hst|]. rewrite Hb; try (vm_compute; reflexivity). vm_compute. eexists. reflexivity.
Defined.

Definition upstream0 (buf : string) : upstreamProcessor nat unit :=
  set_responseEncoding "gzip" (set_compressedBuf buf (newUpstreamProcessor ∅)).

Lemma sample_stream : stream_decodes "gzip" "GZab$" "ab" 2.
Proof.
  assert (∀ p, HasPrefix "GZab$" p = true → 2 ≤ String.length p →
    p ∈ ["GZ"; "GZa"; "GZab"; "GZab$"]) as Hp.
  { intros p [t Ht]%HasPrefix_spec Hl.
    assert (p = str_take (String.length p) "GZab$") as -> by (rewrite Ht; symmetry; apply str_take_app).
    assert (String.length p ≤ 5) as Hu.
    { apply (f_equal String.length) in Ht. rewrite slength_app in Ht. simpl in Ht. lia. }
    rewrite !elem_of_cons.
    destruct (String.length p) as [|[|[|[|[|[|]]]]]]; try lia; simpl; tauto. }
  split.
  - lia.
  - intros p H1 H2. specialize (Hp p H1 H2). rewrite !elem_of_cons, elem_of_nil in Hp.
    destruct Hp as [->|[->|[->|[->|[]]]]]; eexists; (split; [reflexivity|]); (split; [reflexivity|]); eauto.
  - intros p q r r' H1 H2 H3 H4. pose proof (Hp p H1 H3) as Hpp.
    pose proof (Hp q H2 (Nat.le_trans _ _ _ H3 H4)) as Hq. rewrite !elem_of_cons, elem_of_nil in Hpp, Hq.
    destruct Hpp as [->|[->|[->|[->|[]]]]], Hq as [->|[->|[->|[->|[]]]]]; simpl in H4; try lia;
      intros [= <-] [= <-]; simpl; lia.
  - reflexivity.
Qed.

Lemma streaming_decode_complete_witness :
  ∃ ds, (decode_chunks ["GZa"; "b"; "$"] (upstream0 "")).2 = Ok ds ∧ length ds = 3 ∧ sconcat ds = "ab".
Proof.
  apply (streaming_decode_complete "gzip" "GZab$" "ab" 2 ["GZa"; "b"; "$"] (upstream0 "") sample_stream);
    try reflexivity. exists "GZa", ["b"; "$"]. split; [reflexivity|]. simpl. lia.
Defined.

Lemma short_first_chunk_fails_witness :
  (decodeStreamingContent "G" false (upstream0 "")).2 = Fail (Errorf_w "failed to decode gzip: " eof).
Proof. apply (short_first_chunk_fails "G" eof (upstream0 "")); try reflexivity. discriminate. Defined.



Lemma router_rejects_malformed_witness :
  (router_ProcessRequestBody router0 {| hb_Body := None; hb_EndOfStream := true |}).1 = router0.
Proof.
  refine (proj1 (router_rejects_malformed router0 None (errors_Sentinel "malformed request" ErrMalformedRequest) _ _));
    vm_compute; reflexivity.
Defined.
End Sample.
