(* ===== verification/MetricsImpl.v ===== *)
(** * The metrics recorder

    Models [internal/metrics/metrics_impl.go]: the object that turns the calls an
    upstream processor makes into samples of the four GenAI instruments.  The
    processor model of [ExtProc] keeps the calls as a trace; here the trace is run
    on the recorder with a clock, which also implements the class
    [MetricsGetters]. *)

From Stdlib Require Import ZArith Lia.
From stdpp Require Import base gmap strings list.
From S2P Require Import Prelude GoStrings GoNum InternalApi TokenUsage FilterApi HeaderMutator EnvoyTypes BackendAuth Costs ExtProc ExtProcProps.

Local Open Scope Z_scope.

(** ** Time *)

(** [time.Duration], nanoseconds in an [int64]; a difference of times saturates. *)
Definition maxDuration : Z := 2 ^ 63 - 1.
Definition minDuration : Z := - 2 ^ 63.

(** [time.Since]: a start that was never set is the zero time, two thousand years ago. *)
Definition since (now : Z) (start : option Z) : Z :=
  match start with
  | Some t => Z.max minDuration (Z.min maxDuration (now - t))
  | None => maxDuration
  end.

Definition Seconds (d : Z) : float64 :=
  f64_add (f64_of_Z (Z.quot d (10 ^ 9))) (f64_div (f64_of_Z (Z.rem d (10 ^ 9))) (f64_of_Z (10 ^ 9))).
Definition Milliseconds (d : Z) : Z := Z.quot d (10 ^ 6).

(** ** The recorder *)

Inductive instrument := TokenUsageHistogram | RequestLatency | FirstTokenLatency | OutputTokenLatency.

#[export] Instance instrument_eq_dec : EqDecision instrument.
Proof. solve_decision. Defined.

(** A sample; an attribute set holds each key once. *)
Record sample := { sm_instrument : instrument; sm_value : float64; sm_attributes : gmap string string }.

Definition genaiAttributeOperationName : string := "gen_ai.operation.name".
Definition genaiAttributeProviderName : string := "gen_ai.provider.name".
Definition genaiAttributeOriginalModel : string := "gen_ai.original.model".
Definition genaiAttributeRequestModel : string := "gen_ai.request.model".
Definition genaiAttributeResponseModel : string := "gen_ai.response.model".
Definition genaiAttributeTokenType : string := "gen_ai.token.type".
Definition genaiAttributeErrorType : string := "error.type".
Definition genaiAttributeBackend : string := "gen_ai.backend".
Definition genaiErrorTypeFallback : string := "_OTHER".

Record metricsImpl := {
  mi_operation : string;
  mi_requestStart : option Z;
  mi_originalModel : string;
  mi_requestModel : string;
  mi_responseModel : string;
  mi_backend : string;
  mi_aiServiceBackend : string;
  mi_requestHeaderAttributeMapping : gmap string string;
  mi_firstTokenSent : bool;
  mi_timeToFirstToken : Z;
  mi_interTokenLatencySec : float64;
  mi_totalOutputTokens : Z;
  mi_samples : list sample;
}.

Definition NewMetrics (operation : string) (mapping : gmap string string) : metricsImpl :=
  {| mi_operation := operation; mi_requestStart := None; mi_originalModel := "unknown"; mi_requestModel := "unknown";
     mi_responseModel := "unknown"; mi_backend := "unknown"; mi_aiServiceBackend := "unknown";
     mi_requestHeaderAttributeMapping := mapping; mi_firstTokenSent := false; mi_timeToFirstToken := 0;
     mi_interTokenLatencySec := f64_of_Z 0; mi_totalOutputTokens := 0; mi_samples := [] |}.

Definition StartRequest (now : Z) (b : metricsImpl) : metricsImpl :=
  {| mi_operation := mi_operation b; mi_requestStart := Some now; mi_originalModel := mi_originalModel b; mi_requestModel := mi_requestModel b;
     mi_responseModel := mi_responseModel b; mi_backend := mi_backend b; mi_aiServiceBackend := mi_aiServiceBackend b;
     mi_requestHeaderAttributeMapping := mi_requestHeaderAttributeMapping b; mi_firstTokenSent := mi_firstTokenSent b;
     mi_timeToFirstToken := mi_timeToFirstToken b; mi_interTokenLatencySec := mi_interTokenLatencySec b;
     mi_totalOutputTokens := mi_totalOutputTokens b; mi_samples := mi_samples b |}.

Definition setModels (original request response : string) (b : metricsImpl) : metricsImpl :=
  {| mi_operation := mi_operation b; mi_requestStart := mi_requestStart b; mi_originalModel := original; mi_requestModel := request;
     mi_responseModel := response; mi_backend := mi_backend b; mi_aiServiceBackend := mi_aiServiceBackend b;
     mi_requestHeaderAttributeMapping := mi_requestHeaderAttributeMapping b; mi_firstTokenSent := mi_firstTokenSent b;
     mi_timeToFirstToken := mi_timeToFirstToken b; mi_interTokenLatencySec := mi_interTokenLatencySec b;
     mi_totalOutputTokens := mi_totalOutputTokens b; mi_samples := mi_samples b |}.

Definition SetOriginalModel (m : string) (b : metricsImpl) : metricsImpl := setModels m (mi_requestModel b) (mi_responseModel b) b.
Definition SetRequestModel (m : string) (b : metricsImpl) : metricsImpl := setModels (mi_originalModel b) m (mi_responseModel b) b.
Definition SetResponseModel (m : string) (b : metricsImpl) : metricsImpl :=
  if bool_decide (m ≠ mi_responseModel b) then setModels (mi_originalModel b) (mi_requestModel b) m b else b.

(** The provider of a schema, by the GenAI conventions. *)
Definition providerOf (backend : Backend) : string :=
  let name := sc_Name (be_Schema backend) in
  if bool_decide (name = APISchemaOpenAI) then "openai"
  else if bool_decide (name = APISchemaAzureOpenAI) then "azure.openai"
  else if bool_decide (name = APISchemaAWSBedrock) then "aws.bedrock"
  else if bool_decide (name = APISchemaAWSAnthropic) then "aws.anthropic"
  else if bool_decide (name = APISchemaGCPVertexAI) then "gcp.vertex_ai"
  else if bool_decide (name = APISchemaGCPAnthropic) then "gcp.anthropic"
  else if bool_decide (name = APISchemaAnthropic) then "anthropic"
  else if bool_decide (name = APISchemaCohere) then "cohere"
  else if bool_decide (name = APISchemaTypeSafe) then "typesafe"
  else be_Name backend.

Definition SetBackend (backend : Backend) (b : metricsImpl) : metricsImpl :=
  {| mi_operation := mi_operation b; mi_requestStart := mi_requestStart b; mi_originalModel := mi_originalModel b;
     mi_requestModel := mi_requestModel b; mi_responseModel := mi_responseModel b; mi_backend := providerOf backend;
     mi_aiServiceBackend :=
       if bool_decide (be_AIServiceBackendName backend = "") then AIServiceBackendName (be_Name backend) else be_AIServiceBackendName backend;
     mi_requestHeaderAttributeMapping := mi_requestHeaderAttributeMapping b; mi_firstTokenSent := mi_firstTokenSent b;
     mi_timeToFirstToken := mi_timeToFirstToken b; mi_interTokenLatencySec := mi_interTokenLatencySec b;
     mi_totalOutputTokens := mi_totalOutputTokens b; mi_samples := mi_samples b |}.

Definition emitSample (i : instrument) (v : float64) (attrs : gmap string string) (b : metricsImpl) : metricsImpl :=
  {| mi_operation := mi_operation b; mi_requestStart := mi_requestStart b; mi_originalModel := mi_originalModel b;
     mi_requestModel := mi_requestModel b; mi_responseModel := mi_responseModel b; mi_backend := mi_backend b;
     mi_aiServiceBackend := mi_aiServiceBackend b; mi_requestHeaderAttributeMapping := mi_requestHeaderAttributeMapping b;
     mi_firstTokenSent := mi_firstTokenSent b; mi_timeToFirstToken := mi_timeToFirstToken b;
     mi_interTokenLatencySec := mi_interTokenLatencySec b; mi_totalOutputTokens := mi_totalOutputTokens b;
     mi_samples := mi_samples b ++ [{| sm_instrument := i; sm_value := v; sm_attributes := attrs |}] |}.

(** The fields of the streaming calls. *)
Definition setLatency (sent : bool) (ttft : Z) (inter : float64) (total : Z) (b : metricsImpl) : metricsImpl :=
  {| mi_operation := mi_operation b; mi_requestStart := mi_requestStart b; mi_originalModel := mi_originalModel b;
     mi_requestModel := mi_requestModel b; mi_responseModel := mi_responseModel b; mi_backend := mi_backend b;
     mi_aiServiceBackend := mi_aiServiceBackend b; mi_requestHeaderAttributeMapping := mi_requestHeaderAttributeMapping b;
     mi_firstTokenSent := sent; mi_timeToFirstToken := ttft; mi_interTokenLatencySec := inter; mi_totalOutputTokens := total;
     mi_samples := mi_samples b |}.

Section Recorder.
Context (range : gmap string string → list (string * string)).

(** [attribute.NewSet]: the last value of a key stays. *)
Definition buildBaseAttributes (b : metricsImpl) (hs : headers) : gmap string string :=
  let base :=
    <[genaiAttributeBackend := mi_aiServiceBackend b]> (<[genaiAttributeResponseModel := mi_responseModel b]>
    (<[genaiAttributeRequestModel := mi_requestModel b]> (<[genaiAttributeOriginalModel := mi_originalModel b]>
    (<[genaiAttributeProviderName := mi_backend b]> {[genaiAttributeOperationName := mi_operation b]})))) in
  foldl (λ attrs '(headerName, labelName),
           match hs !! headerName with Some v => <[labelName := v]> attrs | None => attrs end)
    base (range (mi_requestHeaderAttributeMapping b)).

Definition RecordRequestCompletion (now : Z) (success : bool) (hs : headers) (b : metricsImpl) : metricsImpl :=
  let attrs := buildBaseAttributes b hs in
  emitSample RequestLatency (Seconds (since now (mi_requestStart b)))
    (if success then attrs else <[genaiAttributeErrorType := genaiErrorTypeFallback]> attrs) b.

(** One kind of token. *)
Definition recordTokens (attrs : gmap string string) (tokenType : string) (r : Z * bool) (b : metricsImpl) : metricsImpl :=
  if r.2 then emitSample TokenUsageHistogram (f64_of_Z r.1) (<[genaiAttributeTokenType := tokenType]> attrs) b else b.

Definition RecordTokenUsage (usage : TokenUsage) (hs : headers) (b : metricsImpl) : metricsImpl :=
  let attrs := buildBaseAttributes b hs in
  let b := recordTokens attrs "input" (InputTokens usage) b in
  let b := recordTokens attrs "cached_input" (CachedInputTokens usage) b in
  let b := recordTokens attrs "cache_creation_input" (CacheCreationInputTokens usage) b in
  let b := recordTokens attrs "output" (OutputTokens usage) b in
  recordTokens attrs "reasoning" (ReasoningTokens usage) b.

Definition mi_GetTimeToFirstTokenMs (b : metricsImpl) : float64 := f64_of_Z (Milliseconds (mi_timeToFirstToken b)).
Definition mi_GetInterTokenLatencyMs (b : metricsImpl) : float64 := f64_mul (mi_interTokenLatencySec b) (f64_of_Z 1000).

Definition RecordTokenLatency (now : Z) (tokens : Z) (endOfStream : bool) (hs : headers) (b : metricsImpl) : metricsImpl :=
  let attrs := buildBaseAttributes b hs in
  if negb (mi_firstTokenSent b) then
    let ttft := since now (mi_requestStart b) in
    emitSample FirstTokenLatency (Seconds ttft) attrs
      (setLatency true ttft (mi_interTokenLatencySec b) (mi_totalOutputTokens b) b)
  else
    let b := if mi_totalOutputTokens b <? tokens
             then setLatency true (mi_timeToFirstToken b) (mi_interTokenLatencySec b) tokens b else b in
    if endOfStream && (1 <? mi_totalOutputTokens b) then
      let currentElapsed := since now (mi_requestStart b) in
      let timeSinceFirstToken := int64 (currentElapsed - mi_timeToFirstToken b) in
      let inter := f64_div (Seconds timeSinceFirstToken) (f64_of_Z (uint32 (mi_totalOutputTokens b - 1))) in
      emitSample OutputTokenLatency inter attrs (setLatency true (mi_timeToFirstToken b) inter (mi_totalOutputTokens b) b)
    else b.

(** ** The calls of a processor *)

Definition call (now : Z) (e : MetricsEvent) (b : metricsImpl) : metricsImpl :=
  match e with
  | MStartRequest _ => StartRequest now b
  | MSetOriginalModel m => SetOriginalModel m b
  | MSetRequestModel m => SetRequestModel m b
  | MSetResponseModel m => SetResponseModel m b
  | MSetBackend backend => SetBackend backend b
  | MRecordRequestCompletion success hs => RecordRequestCompletion now success hs b
  | MRecordTokenUsage usage hs => RecordTokenUsage usage hs b
  | MRecordTokenLatency tokens endOfStream hs => RecordTokenLatency now tokens endOfStream hs b
  end.

(** The clock gives the time of the n-th call. *)
Definition record (clock : nat → Z) (es : list MetricsEvent) (b : metricsImpl) : metricsImpl :=
  foldl (λ b '(now, e), call now e b) b (imap (λ n e, (clock n, e)) es).
End Recorder.

(** The recorder gives the processor the latencies of the calls it made. *)
Definition recorderGetters (range : gmap string string → list (string * string)) (clock : nat → Z) (operation : string)
    (mapping : gmap string string) : MetricsGetters :=
  {| GetTimeToFirstTokenMs es := mi_GetTimeToFirstTokenMs (record range clock es (NewMetrics operation mapping));
     GetInterTokenLatencyMs es := mi_GetInterTokenLatencyMs (record range clock es (NewMetrics operation mapping)) |}.

(** ** The calls of an attempt *)

(** Completions, which [ExtProcProps] counts. *)
Definition completionTail (es : list MetricsEvent) : Prop := Forall (λ e, is_Some (completion_of e)) es.

(** The token calls of a translated chunk. *)
Definition tokenCalls (stream eos : bool) (n : Z) (u : TokenUsage) (hs : headers) : list MetricsEvent :=
  if stream then MRecordTokenLatency n eos hs :: (if eos then [MRecordTokenUsage u hs] else []) else [MRecordTokenUsage u hs].

Definition chunkCalls (stream eos : bool) (es : list MetricsEvent) : Prop :=
  ∃ mid tail, es = mid ++ tail ∧ completionTail tail ∧
    (mid = [] ∨ ∃ m n u hs, mid = MSetResponseModel m :: tokenCalls stream eos n u hs).

Lemma completionTail_nil : completionTail [].
Proof. constructor. Qed.
Lemma completionTail_one b hs : completionTail [MRecordRequestCompletion b hs].
Proof. repeat constructor. by exists b. Qed.
Lemma completionTail_app es1 es2 : completionTail es1 → completionTail es2 → completionTail (es1 ++ es2).
Proof. apply Forall_app_2. Qed.
#[export] Hint Resolve completionTail_nil completionTail_one completionTail_app : core.

Section Trace.
Context {ReqT T Span H Prog Codec : Type}.
Context `{!Translator ReqT T Span, !EndpointSpec ReqT T, !RequestTracer ReqT Span, !AuthHandler H}.
Context `{!CelEnv Prog, !Decompressors, !Sjson, !MetricsGetters}.
Context (range1 range2 range3 : headers → list (string * string)).
Context (LogRequestHeaderAttributes : headers).

Notation up := (up (ReqT := ReqT) (T := T) (Span := Span) (H := H) (Prog := Prog) (Codec := Codec)).

(** From [s] to [s'] the calls [es] were made; the mode of the stream is kept. *)
Definition calls (s s' : up) (es : list MetricsEvent) : Prop :=
  u_metrics s'.2 = u_metrics s.2 ++ es ∧ rp_stream s'.1 = rp_stream s.1.

Lemma calls_refl (s s' : up) : u_metrics s'.2 = u_metrics s.2 → rp_stream s'.1 = rp_stream s.1 → calls s s' [].
Proof. unfold calls. by rewrite app_nil_r. Qed.

Lemma calls_trans (s1 s2 s3 : up) es1 es2 : calls s1 s2 es1 → calls s2 s3 es2 → calls s1 s3 (es1 ++ es2).
Proof. intros [E1 R1] [E2 R2]. split; [by rewrite E2, E1, app_assoc|congruence]. Qed.

Lemma calls_then (s1 s2 s3 : up) es : calls s1 s2 es → calls s2 s3 [] → calls s1 s3 es.
Proof. intros C1 C2. rewrite <-(app_nil_r es). by eapply calls_trans. Qed.

Lemma calls_record b (s : up) : calls s (recordCompletion b s) [MRecordRequestCompletion b (u_requestHeaders s.2)].
Proof. done. Qed.

Lemma calls_span e (s : up) : calls s (spanCall e s) [].
Proof. apply calls_refl; [done|apply spanCall_stream]. Qed.

Lemma calls_deferred {A} (s : up) (x : up * outcome A) es :
  calls s x.1 es → ∃ tail, calls s (deferRecordOnErr x).1 (es ++ tail) ∧ completionTail tail ∧ (is_fail x.2 = false → tail = []).
Proof.
  intros Hx. destruct x as [s' [a|e|p]]; simpl in *; [exists []; by rewrite app_nil_r| |exists []; by rewrite app_nil_r].
  exists [MRecordRequestCompletion false (u_requestHeaders s'.2)]. split; [by eapply calls_trans|by auto].
Qed.

Lemma respondLocally_calls code ty msg (s : up) :
  ∃ tail, calls s (respondLocally code ty msg s).1 tail ∧ completionTail tail.
Proof.
  exists ([MRecordRequestCompletion false (u_requestHeaders s.2)] ++ []). split; [|rewrite app_nil_r; auto].
  unfold respondLocally. cbn [fst]. eapply calls_trans; [apply calls_record|].
  apply (calls_trans _ (onR (set_localReplyEmitted true) (recordCompletion false s)) _ [] []); [by apply calls_refl|apply calls_span].
Qed.

Lemma mutateHeaders_calls hm (s : up) : calls s (mutateHeaders range1 range2 hm s).1 [].
Proof.
  unfold mutateHeaders. destruct (u_headerMutator s.2); [|by apply calls_refl].
  destruct (HeaderMutator_Mutate _ _ _ _ _) as [[rh sets] removes]. by apply calls_refl.
Qed.

Lemma authenticate_calls ctx body (s : up) : calls s (authenticate ctx body s).1 [].
Proof.
  unfold authenticate. destruct (u_handler s.2); [|by apply calls_refl]. destruct (auth_Do _ _ _ _). by apply calls_refl.
Qed.

Lemma dispatch_calls ctx hs body force (s : up) :
  ∃ tail, calls s (dispatch range1 range2 range3 LogRequestHeaderAttributes ctx hs body force s).1 tail ∧ completionTail tail.
Proof.
  unfold dispatch. destruct (mutationsFromTranslationResult hs body) as [hm bm].
  pose proof (mutateHeaders_calls hm s) as C1. destruct (mutateHeaders _ _ hm s) as [s1 hm1]. cbn [fst] in C1.
  cbv zeta. set (b := bmut_Body _).
  pose proof (authenticate_calls ctx b (storeSetHeaders hm1 s1)) as C2. destruct (authenticate ctx b _) as [s2 auth]. cbn [fst] in C2.
  assert (calls s s2 []) as C.
  { apply (calls_trans _ s1 _ [] []); [done|]. by apply (calls_trans _ (storeSetHeaders hm1 s1) _ [] []); [apply calls_refl|]. }
  destruct auth as [hdrs|e|p]; [|destruct (errors_Is e ErrCredentialMissing)|]; [destruct (negb _)|..].
  - by exists [].
  - by exists [].
  - destruct (respondLocally_calls 401 "Unauthorized" "missing upstream credential" s2) as (tail & Ht & ?).
    exists ([] ++ tail). split; [by eapply calls_trans|done].
  - by exists [].
  - by exists [].
Qed.

Lemma SetBackend_calls i backend route (s : up) :
  ∃ tail, calls s (upstream_SetBackend i backend route s).1 (MSetBackend (rb_Backend backend) :: tail) ∧ completionTail tail ∧
    (is_ok (upstream_SetBackend i backend route s).2 = true → tail = []).
Proof.
  unfold upstream_SetBackend. assert (calls s (SetBackend_body i backend route s).1 [MSetBackend (rb_Backend backend)]) as Hc.
  { unfold SetBackend_body. set (s1 := match rp_span _ with Some _ => _ | None => _ end).
    assert (calls s s1 [MSetBackend (rb_Backend backend)]) as C.
    { unfold s1. set (s0 := metric _ _). assert (calls s s0 [MSetBackend (rb_Backend backend)]) as C0 by (split; reflexivity). clearbody s0.
      destruct (rp_span s0.1) as [sp|]; [destruct (isBackendSpan sp)|]; [|exact C0..].
      apply (calls_then _ s0); [done|apply calls_span]. }
    clearbody s1. cbv zeta. destruct (eh_GetTranslator _ _) as [t|e|p]; [|destruct (GetUserFacingError e)|]; exact C. }
  destruct (calls_deferred _ _ _ Hc) as (tail & Ht & Htail & Hok). exists tail. split; [done|]. split; [done|].
  intros Ho. apply Hok. unfold deferRecordOnErr in Ho. by destruct (SetBackend_body i backend route s) as [? []].
Qed.

Lemma ProcessRequestHeaders_calls ctx (s : up) :
  ∃ hs m1 m2 tail, calls s (upstream_ProcessRequestHeaders range1 range2 range3 LogRequestHeaderAttributes ctx s).1
    ([MStartRequest hs; MSetOriginalModel m1; MSetRequestModel m2] ++ tail) ∧ completionTail tail.
Proof.
  set (x := ProcessRequestHeaders_body range1 range2 range3 LogRequestHeaderAttributes ctx s).
  assert (∃ hs m1 m2 tail, calls s x.1 ([MStartRequest hs; MSetOriginalModel m1; MSetRequestModel m2] ++ tail) ∧ completionTail tail)
    as (hs & m1 & m2 & tail & Hc & Ht).
  { unfold x, ProcessRequestHeaders_body. set (s1 := metric (MStartRequest _) s). set (s2 := metric (MSetOriginalModel _) s1).
    set (s3 := metric (MSetRequestModel _) s2).
    assert (∃ hs m1 m2, calls s s3 [MStartRequest hs; MSetOriginalModel m1; MSetRequestModel m2]) as (hs & m1 & m2 & C3).
    { do 3 eexists. split; [|done]. cbn. by rewrite <-!app_assoc. }
    clearbody s3. exists hs, m1, m2. cbv zeta.
    destruct (u_unsupportedBackendErr s3.2).
    { destruct (respondLocally_calls 422 "UnprocessableEntity" (err_msg e) s3) as (tail & ? & ?). exists tail. split; [by eapply calls_trans|done]. }
    destruct (u_translator s3.2) as [t|]; [|exists []; by rewrite app_nil_r].
    destruct (tr_RequestBody _ _ _ _) as [t' [[hs' b]|e|p]]; [|destruct (GetUserFacingError e) as [e'|]|].
    - destruct (dispatch_calls ctx hs' b (onRetry s3.1 || rp_forceBodyMutation s3.1) (onU (set_translator (Some t')) s3)) as (tail & ? & ?).
      exists tail. split; [by eapply calls_trans|done].
    - destruct (respondLocally_calls 422 "UnprocessableEntity" (err_msg e') (onU (set_translator (Some t')) s3)) as (tail & ? & ?).
      exists tail. split; [by eapply calls_trans|done].
    - exists []. by rewrite app_nil_r.
    - exists []. by rewrite app_nil_r. }
  destruct (calls_deferred _ _ _ Hc) as (tail' & ? & ? & _). exists hs, m1, m2, (tail ++ tail'). rewrite app_assoc. auto.
Qed.

Lemma ProcessResponseHeaders_calls hdrs (s : up) :
  ∃ tail, calls s (upstream_ProcessResponseHeaders hdrs s).1 tail ∧ completionTail tail ∧
    ∀ p, (upstream_ProcessResponseHeaders hdrs s).2 = Ok p → pr_StreamedMode p = true → rp_stream s.1 = true.
Proof.
  unfold upstream_ProcessResponseHeaders. destruct (rp_localReplyEmitted s.1).
  { exists []. split; [by apply calls_refl|]. split; [done|]. by intros p [= <-]. }
  assert (calls s (ProcessResponseHeaders_body hdrs s).1 [] ∧
    ∀ p, (ProcessResponseHeaders_body hdrs s).2 = Ok p → pr_StreamedMode p = true → rp_stream s.1 = true) as [Hc Hs].
  { unfold ProcessResponseHeaders_body. case_bool_decide; simpl; (destruct (u_translator s.2) as [t|]; [destruct (tr_ResponseHeaders t _) as [t' [hs|e|p]]|]); simpl;
      (split; [by apply calls_refl|]); intros p' Hp'; try discriminate Hp'; injection Hp' as <-; cbn; by intros [? _]%andb_true_iff. }
  destruct (calls_deferred _ _ _ Hc) as (tail & ? & ? & _). exists tail. split; [done|]. split; [done|].
  intros p Hp. apply Hs. revert Hp. unfold deferRecordOnErr. by destruct (ProcessResponseHeaders_body hdrs s) as [? []].
Qed.
Lemma recordUsage_calls eos (s : up) :
  ∃ n u hs, calls s (recordUsage eos s) (tokenCalls (rp_stream s.1) eos n u hs).
Proof.
  exists (OutputTokens (u_costs s.2)).1, (u_costs s.2), (u_requestHeaders s.2). unfold recordUsage, tokenCalls, calls.
  destruct (rp_stream s.1) eqn:E, eos; cbn; rewrite <-?app_assoc; done.
Qed.

Lemma chunk_calls c (s : up) :
  ∃ es, calls s (upstream_ProcessResponseBody c s).1 es ∧ chunkCalls (rp_stream s.1) (hb_EndOfStream c) es.
Proof.
  assert (∀ mid, (mid = [] ∨ ∃ m n u hs, mid = MSetResponseModel m :: tokenCalls (rp_stream s.1) (hb_EndOfStream c) n u hs) →
    chunkCalls (rp_stream s.1) (hb_EndOfStream c) mid) as Hmid.
  { intros mid Hm. exists mid, []. by rewrite app_nil_r. }
  unfold upstream_ProcessResponseBody.
  destruct (rp_localReplyEmitted s.1); [exists []; split; [by apply calls_refl|by apply Hmid; left]|].
  destruct (u_responseStreamTerminated s.2); [exists []; split; [by apply calls_refl|by apply Hmid; left]|].
  assert (∃ mid, calls s (ProcessResponseBody_body c s).1.1 mid ∧
    (mid = [] ∨ ∃ m n u hs, mid = MSetResponseModel m :: tokenCalls (rp_stream s.1) (hb_EndOfStream c) n u hs)) as (mid & Hc & Hm).
  { unfold ProcessResponseBody_body. cbv zeta.
    destruct (if rp_stream s.1 && _ then _ else _) as [u decoded] eqn:Ed.
    assert (calls s (s.1, u) []) as C.
    { apply calls_refl; [|done]. cbn [snd]. destruct (rp_stream s.1 && _); [|by simplify_eq].
      pose proof (decodeStreaming_keeps (default "" (hb_Body c)) (hb_EndOfStream c) s.2) as Hk. rewrite Ed in Hk. simpl in Hk. tauto. }
    clear Ed. cbn [fst snd]. destruct decoded as [d|e|p]; [|exists []; by auto..].
    destruct (u_translator u) as [t|]; [|exists []; by auto].
    destruct (negb _).
    { destruct (tr_ResponseError _ _ _) as [t' [[hs b]|e|p]]; [|exists []; by auto..].
      destruct (mutationsFromTranslationResult hs b) as [hm bm]. exists []. split; [|by left].
      apply (calls_then _ (onU (set_translator (Some t')) (s.1, u))); [done|apply calls_span]. }
    destruct (tr_ResponseBody _ _ _ _ _) as [t' [[[[hs b] usage] model] err]].
    destruct (mutationsFromTranslationResult hs b) as [hm bm]. destruct err as [e|].
    { destruct (rp_stream _ && _ && _); exists []; (split; [|by left]); [|done].
      apply (calls_then _ (onU (set_responseStreamTerminated true) (onU (set_translator (Some t')) (s.1, u)))); [done|apply calls_span]. }
    set (s2 := metric (MSetResponseModel model) _).
    destruct (recordUsage_calls (hb_EndOfStream c) s2) as (n & us & hs' & Cu).
    assert (calls s s2 [MSetResponseModel model]) as C2 by (destruct C as [Cm Cs]; rewrite app_nil_r in Cm; split; [cbn; by rewrite <-Cm|exact Cs]).
    pose proof (calls_trans _ _ _ _ _ C2 Cu) as C3. assert (rp_stream s2.1 = rp_stream s.1) as Es by done. rewrite Es in C3. clearbody s2.
    exists ([MSetResponseModel model] ++ tokenCalls (rp_stream s.1) (hb_EndOfStream c) n us hs'). split; [|right; by eauto 6].
    destruct (responseMetadata _ _ _ _) as [md|e|p]; cbn [fst]; [|exact C3..].
    destruct (hb_EndOfStream c); [|exact C3]. eapply calls_then; [exact C3|apply calls_span]. }
  destruct (ProcessResponseBody_body c s) as [[s' r] flag]. cbn [fst] in Hc.
  destruct (is_fail r || flag); [|destruct (hb_EndOfStream c)]; cbn [fst].
  1, 2: eexists; (split; [eapply calls_trans; [exact Hc|apply calls_record]|]); exists mid; eexists; (split; [done|]); by auto.
  exists mid. split; [done|]. by apply Hmid.
Qed.

(** *** Counting the final calls *)

(** The calls that count the tokens of a response. *)
Definition finalCall (e : MetricsEvent) : bool :=
  match e with MRecordTokenUsage _ _ => true | MRecordTokenLatency _ eos _ => eos | _ => false end.
Definition finals : list MetricsEvent → list MetricsEvent := filter (λ e, Is_true (finalCall e)).

Lemma finals_cons e es : finals (e :: es) = (if finalCall e then [e] else []) ++ finals es.
Proof. unfold finals. rewrite filter_cons. destruct (finalCall e) eqn:E; [by rewrite decide_True|by rewrite decide_False by naive_solver]. Qed.

(** None, or those of one chunk. *)
Definition countedOnce (es : list MetricsEvent) : Prop :=
  finals es = [] ∨ ∃ n u hs, finals es = [MRecordTokenUsage u hs] ∨ finals es = [MRecordTokenLatency n true hs; MRecordTokenUsage u hs].

(** Start and backend are set only where the attempt begins. *)
Definition laterCall (e : MetricsEvent) : Prop :=
  match e with MStartRequest _ | MSetBackend _ | MSetOriginalModel _ | MSetRequestModel _ => False | _ => True end.

Lemma completionTail_finals es : completionTail es → finals es = [] ∧ Forall laterCall es.
Proof.
  induction 1 as [|e es [b He] _ [IH1 IH2]]; [done|]. unfold finals in *. rewrite filter_cons. destruct e; try done. by split; [|constructor].
Qed.

Lemma chunkCalls_finals stream eos es :
  chunkCalls stream eos es → countedOnce es ∧ (stream = true → eos = false → finals es = []) ∧ Forall laterCall es.
Proof.
  intros (mid & tail & -> & [Ht Hl]%completionTail_finals & Hm). unfold countedOnce, finals in *. rewrite filter_app, Ht, app_nil_r.
  assert (Forall laterCall mid → Forall laterCall (mid ++ tail)) as Hlater by (intros; by apply Forall_app_2).
  destruct Hm as [->|(m & n & u & hs & ->)]; [split_and!; auto|].
  unfold tokenCalls in *. destruct stream, eos; rewrite ?filter_cons; cbn; rewrite ?filter_cons; cbn; (split; [(by left) || (right; exists n, u, hs; by auto)|]); (split; [done|]);
    apply Hlater; by repeat constructor.
Qed.

Lemma run_chunks_calls pre last (s : up) :
  Forall (λ c, hb_EndOfStream c = false) pre → (rp_stream s.1 = false → pre = []) →
  ∃ es, calls s (run_chunks (pre ++ [last]) s).1 es ∧ countedOnce es ∧ Forall laterCall es.
Proof.
  revert s. induction pre as [|c pre IH]; intros s Hpre Hs.
  - destruct (chunk_calls last s) as (es & Hc & (He & _ & Hl)%chunkCalls_finals). exists es. split; [|done]. simpl.
    by destruct (upstream_ProcessResponseBody last s) as [s' []].
  - apply Forall_cons in Hpre as [Hc Hpre]. assert (rp_stream s.1 = true) as Es by (destruct (rp_stream s.1); naive_solver).
    destruct (chunk_calls c s) as (es & Hes & (He & Hn & Hl)%chunkCalls_finals). specialize (Hn Es Hc).
    simpl. destruct (upstream_ProcessResponseBody c s) as [s' [p|e|m]]; cbn [fst] in *; [|by exists es..].
    destruct (IH s' Hpre) as (es' & Hes' & He' & Hl'). { destruct Hes as [_ ->]. by rewrite Es. }
    exists (es ++ es'). split; [|split; [|by apply Forall_app_2]].
    + pose proof (calls_trans _ _ _ _ _ Hes Hes') as Hall. by destruct (run_chunks (pre ++ [last]) s') as [s'' []].
    + unfold countedOnce, finals in *. by rewrite filter_app, Hn.
Qed.
(** The calls of an attempt: the backend first; then, unless selecting it failed,
    the start of the request and its models; then those of the phases. *)
Lemma attempt_calls ctx i backend route hdrs chunks hs0 r :
  (∀ streamed, chunks_ok streamed (chunks streamed)) →
  let es := u_metrics (run_attempt range1 range2 range3 LogRequestHeaderAttributes ctx i backend route hdrs chunks
    (r, newUpstreamProcessor hs0) : up * _).1.2 in
  (∃ tail, es = MSetBackend (rb_Backend backend) :: tail ∧ completionTail tail) ∨
  ∃ hs m1 m2 rest, es = [MSetBackend (rb_Backend backend); MStartRequest hs; MSetOriginalModel m1; MSetRequestModel m2] ++ rest ∧
    countedOnce rest ∧ Forall laterCall rest.
Proof.
  intros Hch. cbv zeta. set (s := (r, newUpstreamProcessor hs0) : up). unfold run_attempt.
  destruct (SetBackend_calls i backend route s) as (tail & C1 & Ht & Hok).
  destruct (upstream_SetBackend i backend route s) as [s1 [[]|e|p]]; cbn [fst snd] in *; [|left; exists tail; by destruct C1 as [-> _]..].
  rewrite (Hok eq_refl) in C1. clear Hok Ht tail. right.
  destruct (ProcessRequestHeaders_calls ctx s1) as (hs & m1 & m2 & tail & C2 & Ht).
  destruct (upstream_ProcessRequestHeaders _ _ _ _ ctx s1) as [s2 [p2|e|p]]; cbn [fst snd] in *; cycle 1.
  1, 2: apply completionTail_finals in Ht as [Hf Hl]; exists hs, m1, m2, tail;
    destruct (calls_trans _ _ _ _ _ C1 C2) as [-> _]; (split; [done|]); split; [by left|done].
  unfold run_response. destruct (ProcessResponseHeaders_calls hdrs s2) as (tail3 & C3 & Ht3 & Hst).
  destruct (upstream_ProcessResponseHeaders hdrs s2) as [s3 [p3|e|p]]; cbn [fst snd] in *; cycle 1.
  1, 2: destruct (completionTail_finals (tail ++ tail3)) as [Hf Hl]; [by auto|]; exists hs, m1, m2, (tail ++ tail3);
    destruct (calls_trans _ _ _ _ _ (calls_trans _ _ _ _ _ C1 C2) C3) as [-> _]; (split; [by rewrite <-app_assoc|]); split; [by left|done].
  destruct (Hch (pr_StreamedMode p3)) as (pre & last & -> & Hpre & _ & Hs3).
  destruct (run_chunks_calls pre last s3 Hpre) as (es & C4 & He & Hl).
  { intros E. apply Hs3. destruct (pr_StreamedMode p3) eqn:Ep; [|done]. specialize (Hst p3 eq_refl Ep). destruct C3 as [_ C3]. congruence. }
  destruct (completionTail_finals (tail ++ tail3)) as [Hf Hl']; [by auto|]. exists hs, m1, m2, ((tail ++ tail3) ++ es).
  destruct (calls_trans _ _ _ _ _ (calls_trans _ _ _ _ _ (calls_trans _ _ _ _ _ C1 C2) C3) C4) as [-> _].
  split; [by rewrite <-!app_assoc|]. split; [|by apply Forall_app_2]. unfold countedOnce, finals in *. by rewrite filter_app, Hf.
Qed.
End Trace.

(** ** What an attempt leaves in the instruments *)

Section Samples.
Context (range : gmap string string → list (string * string)) (mapping : gmap string string).
Context `{!RangeOrder range}.

Definition samplesOf (i : instrument) (b : metricsImpl) : list sample := filter (λ s, sm_instrument s = i) (mi_samples b).

(** Header labels do not take the names of the recorder's own attributes. *)
Definition ownAttributes : list string :=
  [genaiAttributeOperationName; genaiAttributeProviderName; genaiAttributeOriginalModel; genaiAttributeRequestModel;
   genaiAttributeResponseModel; genaiAttributeTokenType; genaiAttributeErrorType; genaiAttributeBackend].
Context (labels_free : ∀ h l, mapping !! h = Some l → l ∉ ownAttributes).

Lemma record_cons clock e es b : record range clock (e :: es) b = record range (λ n, clock (S n)) es (call range (clock 0%nat) e b).
Proof. done. Qed.

Lemma base_own b hs k :
  mi_requestHeaderAttributeMapping b = mapping → k ∈ ownAttributes →
  buildBaseAttributes range b hs !! k =
    (<[genaiAttributeBackend := mi_aiServiceBackend b]> (<[genaiAttributeResponseModel := mi_responseModel b]>
    (<[genaiAttributeRequestModel := mi_requestModel b]> (<[genaiAttributeOriginalModel := mi_originalModel b]>
    (<[genaiAttributeProviderName := mi_backend b]> {[genaiAttributeOperationName := mi_operation b]})))) : gmap string string) !! k.
Proof.
  intros Hm Hk. unfold buildBaseAttributes. rewrite Hm. generalize (<[genaiAttributeBackend := mi_aiServiceBackend b]>
    (<[genaiAttributeResponseModel := mi_responseModel b]> (<[genaiAttributeRequestModel := mi_requestModel b]>
    (<[genaiAttributeOriginalModel := mi_originalModel b]> (<[genaiAttributeProviderName := mi_backend b]>
    ({[genaiAttributeOperationName := mi_operation b]} : gmap string string)))))).
  assert (∀ h l, (h, l) ∈ range mapping → l ≠ k) as Hl.
  { intros h l Hin ->. apply (elem_of_range range) in Hin. exact (labels_free h k Hin Hk). }
  induction (range mapping) as [|[h l] rest IH]; intros m; [done|]. cbn [foldl].
  rewrite IH by (intros; eapply Hl, elem_of_cons; by right). destruct (hs !! h); [|done].
  apply lookup_insert_ne, (Hl h l), elem_of_cons. by left.
Qed.

(** What stays the same after the start of an attempt. *)
Definition begun (start : option Z) (backend : Backend) (b : metricsImpl) : Prop :=
  mi_requestStart b = start ∧ mi_backend b = providerOf backend ∧ mi_requestHeaderAttributeMapping b = mapping.

Lemma later_begun start backend now e b : laterCall e → begun start backend b → begun start backend (call range now e b).
Proof.
  intros He (Hs & Hb & Hm). destruct e; try done; cbn.
  - unfold SetResponseModel. by case_bool_decide.
  - unfold RecordTokenUsage, recordTokens. repeat (destruct (snd _)); done.
  - unfold RecordTokenLatency. cbv zeta. repeat case_match; done.
Qed.

(** *** Duration of the request *)

Definition durationSample (now : Z) (ok : bool) (hs : headers) (b : metricsImpl) : sample :=
  {| sm_instrument := RequestLatency; sm_value := Seconds (since now (mi_requestStart b));
     sm_attributes := if ok then buildBaseAttributes range b hs
                      else <[genaiAttributeErrorType := genaiErrorTypeFallback]> (buildBaseAttributes range b hs) |}.

Definition tokenSamples (attrs : gmap string string) (tokenType : string) (r : Z * bool) : list sample :=
  if r.2 then [{| sm_instrument := TokenUsageHistogram; sm_value := f64_of_Z r.1;
                  sm_attributes := <[genaiAttributeTokenType := tokenType]> attrs |}] else [].

(** The samples of one call, by what it finds. *)
Definition newSamples (now : Z) (e : MetricsEvent) (b : metricsImpl) : list sample :=
  match e with
  | MRecordRequestCompletion ok hs => [durationSample now ok hs b]
  | MRecordTokenUsage u hs =>
      let attrs := buildBaseAttributes range b hs in
      tokenSamples attrs "input" (InputTokens u) ++ tokenSamples attrs "cached_input" (CachedInputTokens u) ++
      tokenSamples attrs "cache_creation_input" (CacheCreationInputTokens u) ++ tokenSamples attrs "output" (OutputTokens u) ++
      tokenSamples attrs "reasoning" (ReasoningTokens u)
  | MRecordTokenLatency tokens eos hs =>
      let attrs := buildBaseAttributes range b hs in
      if negb (mi_firstTokenSent b)
      then [{| sm_instrument := FirstTokenLatency; sm_value := Seconds (since now (mi_requestStart b)); sm_attributes := attrs |}]
      else
        let total := Z.max (mi_totalOutputTokens b) tokens in
        if eos && (1 <? total)
        then [{| sm_instrument := OutputTokenLatency;
                 sm_value := f64_div (Seconds (int64 (since now (mi_requestStart b) - mi_timeToFirstToken b))) (f64_of_Z (uint32 (total - 1)));
                 sm_attributes := attrs |}]
        else []
  | _ => []
  end.

Lemma recordTokens_samples attrs ty r b : mi_samples (recordTokens attrs ty r b) = mi_samples b ++ tokenSamples attrs ty r.
Proof. unfold recordTokens, tokenSamples. destruct (r.2); [done|]. by rewrite app_nil_r. Qed.

Lemma call_samples now e b : mi_samples (call range now e b) = mi_samples b ++ newSamples now e b.
Proof.
  destruct e; cbn [call newSamples]; rewrite ?app_nil_r; try done.
  - unfold SetResponseModel. by case_bool_decide.
  - unfold RecordTokenUsage. rewrite !recordTokens_samples. by rewrite <-!app_assoc.
  - unfold RecordTokenLatency. destruct (negb _); [done|]. cbv zeta.
    destruct (Z.ltb_spec (mi_totalOutputTokens b) tokens).
    + rewrite Z.max_r by lia. cbn [mi_totalOutputTokens setLatency]. destruct (_ && _); cbn; [done|by rewrite app_nil_r].
    + rewrite Z.max_l by lia. destruct (_ && _); cbn; [done|by rewrite app_nil_r].
Qed.

Lemma samplesOf_call i now e b : samplesOf i (call range now e b) = samplesOf i b ++ filter (λ s, sm_instrument s = i) (newSamples now e b).
Proof. unfold samplesOf. by rewrite call_samples, filter_app. Qed.

(** Tokens and latencies are other instruments. *)
Lemma newSamples_duration now e b :
  filter (λ s, sm_instrument s = RequestLatency) (newSamples now e b) =
    match e with MRecordRequestCompletion ok hs => [durationSample now ok hs b] | _ => [] end.
Proof.
  destruct e; try done; cbn [newSamples]; cbv zeta.
  - unfold tokenSamples. repeat (destruct (snd _)); done.
  - destruct (negb _); [done|]. by destruct (_ && _).
Qed.

Lemma no_completion clock es b : omap completion_of es = [] → samplesOf RequestLatency (record range clock es b) = samplesOf RequestLatency b.
Proof.
  revert clock b. induction es as [|e es IH]; intros clock b Hn; [done|]. rewrite record_cons. cbn in Hn.
  destruct e; cbn in Hn; try done; rewrite IH by done; rewrite samplesOf_call, newSamples_duration; by rewrite app_nil_r.
Qed.

Lemma one_completion clock es start backend b ok :
  Forall laterCall es → begun start backend b → omap completion_of es = [ok] →
  ∃ n hs b', es !! n = Some (MRecordRequestCompletion ok hs) ∧ begun start backend b' ∧
    samplesOf RequestLatency (record range clock es b) = samplesOf RequestLatency b ++ [durationSample (clock n) ok hs b'].
Proof.
  revert clock b. induction es as [|e es IH]; intros clock b Hl Hb Hc; [done|]. apply Forall_cons in Hl as [He Hl]. rewrite record_cons.
  assert (completion_of e = None ∨ ∃ hs, e = MRecordRequestCompletion ok hs ∧ omap completion_of es = []) as [Hn|(hs & -> & Hn)].
  { destruct e; auto. right. cbn in Hc. injection Hc as -> Hc. eauto. }
  - cbn in Hc. rewrite Hn in Hc. destruct (IH (λ n, clock (S n)) _ Hl (later_begun _ _ (clock 0%nat) _ _ He Hb) Hc) as (n & hs & b' & Hlk & Hb' & ->).
    exists (S n), hs, b'. split; [done|]. split; [done|]. rewrite samplesOf_call, newSamples_duration. f_equal. destruct e; try done; by rewrite app_nil_r.
  - exists 0%nat, hs, b. split; [done|]. split; [done|]. rewrite no_completion by done. by rewrite samplesOf_call, newSamples_duration.
Qed.

(** *** Tokens *)

Lemma recordTokens_sent attrs ty r b : mi_firstTokenSent (recordTokens attrs ty r b) = mi_firstTokenSent b.
Proof. unfold recordTokens. by destruct (r.2). Qed.
Lemma latency_sent now tokens eos hs b : mi_firstTokenSent (RecordTokenLatency range now tokens eos hs b) = true.
Proof. unfold RecordTokenLatency. cbv zeta. destruct (mi_firstTokenSent b) eqn:E; cbn [negb]; [|done]. destruct (mi_totalOutputTokens b <? tokens); destruct (_ && _); done. Qed.

Definition latencyCall (e : MetricsEvent) : bool := match e with MRecordTokenLatency _ _ _ => true | _ => false end.

Lemma token_filter i attrs ty r : i ≠ TokenUsageHistogram → filter (λ s, sm_instrument s = i) (tokenSamples attrs ty r) = [].
Proof. intros Hi. unfold tokenSamples. destruct (r.2); [|done]. rewrite filter_cons_False by (cbn; congruence). done. Qed.

(** The first token is measured once, whatever the calls. *)
Lemma firstToken_once clock es b :
  (length (samplesOf FirstTokenLatency (record range clock es b)) ≤
   length (samplesOf FirstTokenLatency b) + (if mi_firstTokenSent b then 0 else 1))%nat.
Proof.
  revert clock b. induction es as [|e es IH]; intros clock b; [cbn; lia|]. rewrite record_cons. etrans; [apply IH|].
  rewrite samplesOf_call, length_app. destruct e; cbn [call newSamples]; try (cbn; lia).
  - unfold SetResponseModel. case_bool_decide; cbn; lia.
  - rewrite filter_cons_False by done. cbn. lia.
  - unfold RecordTokenUsage. cbv zeta. rewrite !recordTokens_sent, !filter_app, !token_filter by done. cbn. lia.
  - rewrite latency_sent. destruct (mi_firstTokenSent b) eqn:E; cbn [negb]; [|rewrite filter_cons_True by done; cbn; lia].
    destruct (_ && _); [rewrite filter_cons_False by done|]; cbn; lia.
Qed.

(** The time per token is measured where the stream ends, the tokens where they
    are reported. *)
Lemma outputToken_finals clock es b :
  (length (samplesOf OutputTokenLatency (record range clock es b)) ≤
   length (samplesOf OutputTokenLatency b) + length (filter (λ e, Is_true (latencyCall e)) (finals es)))%nat.
Proof.
  revert clock b. induction es as [|e es IH]; intros clock b; [cbn; lia|]. rewrite record_cons. etrans; [apply IH|].
  rewrite samplesOf_call, length_app, finals_cons, filter_app, length_app.
  generalize (length (filter (λ e, Is_true (latencyCall e)) (finals es))) as k. generalize (length (samplesOf OutputTokenLatency b)) as j.
  intros j k. destruct e; cbn [newSamples finalCall]; cbv zeta; try (cbn; lia).
  - rewrite filter_cons_False by done. cbn. lia.
  - rewrite !filter_app, !token_filter by done. cbn. lia.
  - destruct (negb _); [rewrite filter_cons_False by done; cbn; lia|]. destruct endOfStream; cbn [andb]; [|cbn; lia].
    change (if true then [MRecordTokenLatency tokens true hs] else []) with [MRecordTokenLatency tokens true hs].
    rewrite (filter_cons_True (λ e, Is_true (latencyCall e))) by done. destruct (_ <? _); [rewrite filter_cons_True by done|]; cbn; lia.
Qed.

(** The samples of one kind of token. *)
Definition hasType (ty : string) (s : sample) : Prop := sm_instrument s = TokenUsageHistogram ∧ sm_attributes s !! genaiAttributeTokenType = Some ty.
#[local] Instance hasType_dec ty s : Decision (hasType ty s).
Proof. unfold hasType. apply _. Defined.
Definition typeSamples (ty : string) (b : metricsImpl) : list sample := filter (hasType ty) (mi_samples b).

Lemma tokenSamples_type ty attrs ty' r :
  (length (filter (hasType ty) (tokenSamples attrs ty' r)) ≤ if bool_decide (ty' = ty) then 1 else 0)%nat.
Proof.
  unfold tokenSamples. destruct (r.2); [|cbn; case_bool_decide; lia]. rewrite filter_cons. unfold hasType at 1.
  case_decide as Hd; [|cbn; case_bool_decide; lia]. destruct Hd as [_ Hd]. cbn in Hd. rewrite lookup_insert_eq in Hd.
  rewrite bool_decide_eq_true_2 by congruence. cbn. lia.
Qed.

Definition usageCall (e : MetricsEvent) : bool := match e with MRecordTokenUsage _ _ => true | _ => false end.

Lemma newSamples_type ty now e b :
  (length (filter (hasType ty) (newSamples now e b)) ≤ if usageCall e then 1 else 0)%nat.
Proof.
  destruct e; cbn [newSamples usageCall]; cbv zeta; try (cbn; lia).
  - rewrite filter_cons_False; [cbn; lia|]. by intros [? _].
  - rewrite !filter_app, !length_app. set (attrs := buildBaseAttributes _ _ _).
    pose proof (tokenSamples_type ty attrs "input" (InputTokens u)). pose proof (tokenSamples_type ty attrs "cached_input" (CachedInputTokens u)).
    pose proof (tokenSamples_type ty attrs "cache_creation_input" (CacheCreationInputTokens u)).
    pose proof (tokenSamples_type ty attrs "output" (OutputTokens u)). pose proof (tokenSamples_type ty attrs "reasoning" (ReasoningTokens u)).
    repeat case_bool_decide; try lia; subst; discriminate.
  - destruct (negb _); [rewrite filter_cons_False; [cbn; lia|by intros [? _]]|].
    destruct (_ && _); [rewrite filter_cons_False; [cbn; lia|by intros [? _]]|cbn; lia].
Qed.

Lemma tokenType_finals ty clock es b :
  (length (typeSamples ty (record range clock es b)) ≤
   length (typeSamples ty b) + length (filter (λ e, Is_true (usageCall e)) (finals es)))%nat.
Proof.
  revert clock b. induction es as [|e es IH]; intros clock b; [cbn; lia|]. rewrite record_cons. etrans; [apply IH|].
  unfold typeSamples. rewrite call_samples, filter_app, length_app, finals_cons, filter_app, length_app.
  pose proof (newSamples_type ty (clock 0%nat) e b) as Hn. clear IH.
  assert (length (filter (λ e, Is_true (usageCall e)) (if finalCall e then [e] else [])) = if usageCall e then 1 else 0)%nat as ->; [|lia].
  destruct e; try done. by destruct endOfStream.
Qed.

(** *** Attributes *)

Lemma newSamples_provider start backend now e b :
  begun start backend b → Forall (λ s, sm_attributes s !! genaiAttributeProviderName = Some (providerOf backend)) (newSamples now e b).
Proof.
  intros (_ & Hb & Hm). assert (∀ hs, buildBaseAttributes range b hs !! genaiAttributeProviderName = Some (providerOf backend)) as Hp.
  { intros hs. rewrite base_own by (done || (unfold ownAttributes; set_solver)). by rewrite <-Hb. }
  assert (∀ hs ty r, Forall (λ s, sm_attributes s !! genaiAttributeProviderName = Some (providerOf backend))
    (tokenSamples (buildBaseAttributes range b hs) ty r)) as Ht.
  { intros hs ty r. unfold tokenSamples. destruct (r.2); [|done]. constructor; [|done]. cbn. by rewrite lookup_insert_ne. }
  destruct e; cbn [newSamples]; cbv zeta; [done..| | |].
  - constructor; [|done]. destruct success; cbn; [apply Hp|by rewrite lookup_insert_ne].
  - by repeat apply Forall_app_2.
  - destruct (negb _); [constructor; [apply Hp|done]|]. destruct (_ && _); [|done]. constructor; [apply Hp|done].
Qed.

Lemma record_provider start backend clock es b :
  Forall laterCall es → begun start backend b →
  Forall (λ s, sm_attributes s !! genaiAttributeProviderName = Some (providerOf backend)) (mi_samples b) →
  Forall (λ s, sm_attributes s !! genaiAttributeProviderName = Some (providerOf backend)) (mi_samples (record range clock es b)).
Proof.
  revert clock b. induction es as [|e es IH]; intros clock b Hl Hb Hs; [done|]. apply Forall_cons in Hl as [He Hl]. rewrite record_cons.
  apply IH; [done|by apply later_begun|]. rewrite call_samples. apply Forall_app_2; [done|]. by eapply newSamples_provider.
Qed.

Lemma durationSample_error now ok hs b :
  mi_requestHeaderAttributeMapping b = mapping →
  sm_attributes (durationSample now ok hs b) !! genaiAttributeErrorType = if ok then None else Some genaiErrorTypeFallback.
Proof.
  intros Hm. destruct ok; cbn; [|by rewrite lookup_insert_eq]. rewrite base_own by (done || (unfold ownAttributes; set_solver)).
  rewrite !lookup_insert_ne by done. by rewrite lookup_singleton_ne.
Qed.

(** *** A begun attempt *)

(** What the calls after the start of an attempt leave. *)
Definition measured (start : option Z) (backend : Backend) (clock : nat → Z) (ok : bool) (rest : list MetricsEvent) (m : metricsImpl) : Prop :=
  (∃ n hs s, rest !! n = Some (MRecordRequestCompletion ok hs) ∧ samplesOf RequestLatency m = [s] ∧
     sm_value s = Seconds (since (clock n) start) ∧
     sm_attributes s !! genaiAttributeErrorType = if ok then None else Some genaiErrorTypeFallback) ∧
  (∀ ty, length (typeSamples ty m) ≤ 1)%nat ∧
  (length (samplesOf FirstTokenLatency m) ≤ 1)%nat ∧ (length (samplesOf OutputTokenLatency m) ≤ 1)%nat ∧
  Forall (λ s, sm_attributes s !! genaiAttributeProviderName = Some (providerOf backend)) (mi_samples m).

Lemma rest_measured start backend clock ok rest b :
  begun start backend b → mi_samples b = [] → Forall laterCall rest → countedOnce rest → omap completion_of rest = [ok] →
  measured start backend clock ok rest (record range clock rest b).
Proof.
  intros Hb Hs Hl Hc Ho.
  assert (∀ i, samplesOf i b = []) as Hs0 by (intros i; unfold samplesOf; by rewrite Hs).
  assert (∀ f, (∀ n hs u, f (MRecordTokenLatency n true hs) && f (MRecordTokenUsage u hs) = false) →
    (length (filter (λ e, Is_true (f e)) (finals rest)) ≤ 1)%nat) as Hcount.
  { intros f Hf. destruct Hc as [->|(n & u & hs & [->| ->])]; [cbn; lia|..]; rewrite !filter_cons; repeat case_decide; cbn; try lia.
    specialize (Hf n hs u). exfalso. destruct (f (MRecordTokenLatency n true hs)), (f (MRecordTokenUsage u hs)); done. }
  split_and!.
  - destruct (one_completion clock rest start backend b ok Hl Hb Ho) as (n & hs & b' & Hn & (Hst & _ & Hm) & Hsm).
    exists n, hs, (durationSample (clock n) ok hs b'). rewrite Hsm, Hs0. split_and!; [done..| |by apply durationSample_error].
    cbn. by rewrite Hst.
  - intros ty. pose proof (tokenType_finals ty clock rest b) as Ht. unfold typeSamples in Ht at 2. rewrite Hs in Ht. cbn [length filter] in Ht.
    specialize (Hcount usageCall ltac:(done)). etrans; [exact Ht|]. exact Hcount.
  - etrans; [apply firstToken_once|]. rewrite Hs0. destruct (mi_firstTokenSent b); cbn; lia.
  - etrans; [apply outputToken_finals|]. rewrite Hs0. apply Hcount. done.
  - apply (record_provider start); [done..|]. by rewrite Hs.
Qed.
End Samples.

Section Attempt.
Context {ReqT T Span H Prog Codec : Type}.
Context `{!Translator ReqT T Span, !EndpointSpec ReqT T, !RequestTracer ReqT Span, !AuthHandler H}.
Context `{!CelEnv Prog, !Decompressors, !Sjson}.
Context (range1 range2 range3 : headers → list (string * string)).
Context (LogRequestHeaderAttributes : headers).
Context (range : gmap string string → list (string * string)) `{!RangeOrder range}.
Context (clock : nat → Z) (operation : string) (mapping : gmap string string).
Context (labels_free : ∀ h l, mapping !! h = Some l → l ∉ ownAttributes).

(** The processor reads its latencies from the recorder. *)
#[local] Instance getters : MetricsGetters := recorderGetters range clock operation mapping.

(** What an attempt leaves in the instruments.  With the recorder behind the
    processor, whatever the translator, the auth handler and the upstream do, an
    attempt that Envoy drives through its phases leaves one sample of the request
    duration, which has the error attribute exactly when the attempt failed and
    measures from the start of the request, or from the zero time when selecting
    the backend failed before the start was set; each kind of token is counted at
    most once, the first token and the time per token are measured at most once;
    and every sample names the provider of the selected backend. *)
Theorem attempt_measured ctx i backend route hdrs chunks hs0 (r : routerProcessor ReqT Span H Prog Codec) :
  rp_localReplyEmitted r = false →
  (∀ streamed, chunks_ok streamed (chunks streamed)) →
  no_panic (run_attempt range1 range2 range3 LogRequestHeaderAttributes ctx i backend route hdrs chunks (r, newUpstreamProcessor hs0)).2 →
  let es := u_metrics (run_attempt range1 range2 range3 LogRequestHeaderAttributes ctx i backend route hdrs chunks
    (r, newUpstreamProcessor hs0)).1.2 in
  let m := record range clock es (NewMetrics operation mapping) in
  (∃ n ok hs start s, es !! n = Some (MRecordRequestCompletion ok hs) ∧ samplesOf RequestLatency m = [s] ∧
     sm_value s = Seconds (since (clock n) start) ∧
     sm_attributes s !! genaiAttributeErrorType = (if ok then None else Some genaiErrorTypeFallback) ∧
     ((start = Some (clock 1%nat) ∧ ∃ hs', es !! 1%nat = Some (MStartRequest hs')) ∨ (start = None ∧ n = 1%nat))) ∧
  (∀ ty, length (typeSamples ty m) ≤ 1)%nat ∧
  (length (samplesOf FirstTokenLatency m) ≤ 1)%nat ∧ (length (samplesOf OutputTokenLatency m) ≤ 1)%nat ∧
  Forall (λ s, sm_attributes s !! genaiAttributeProviderName = Some (providerOf (rb_Backend backend))) (mi_samples m).
Proof.
  intros L Hch Hp. cbv zeta.
  destruct (attempt_completions range1 range2 range3 LogRequestHeaderAttributes ctx i backend route hdrs chunks hs0 r L Hch Hp) as [ok Hok].
  pose proof (attempt_calls range1 range2 range3 LogRequestHeaderAttributes ctx i backend route hdrs chunks hs0 r Hch) as Hes. cbv zeta in Hes.
  unfold completions in Hok. set (es := u_metrics _) in *. clearbody es.
  destruct Hes as [(tail & -> & Ht)|(hs' & m1 & m2 & rest & -> & Hc & Hl)].
  - destruct (completionTail_finals _ Ht) as [Hf Hl].
    destruct (rest_measured range mapping labels_free None (rb_Backend backend) (λ n, clock (S n)) ok tail
      (SetBackend (rb_Backend backend) (NewMetrics operation mapping))) as [(n & hs & s & Hn & Hs & Hv & He) Hrest]; [done|done|done|by left|done|].
    split; [|exact Hrest]. exists (S n), ok, hs, None, s. split_and!; [done..|]. right. split; [done|].
    apply lookup_lt_Some in Hn. assert (length tail = 1%nat) as Hlen; [|lia]. cbn in Hok. clear -Ht Hok.
    transitivity (length (omap completion_of tail)); [|by rewrite Hok]. clear Hok. induction Ht as [|e tail [b He] _ IH]; [done|]. cbn. rewrite He. cbn. by rewrite IH.
  - set (b4 := record range clock [MSetBackend (rb_Backend backend); MStartRequest hs'; MSetOriginalModel m1; MSetRequestModel m2]
      (NewMetrics operation mapping)).
    destruct (rest_measured range mapping labels_free (Some (clock 1%nat)) (rb_Backend backend) (λ n, clock (S (S (S (S n))))) ok rest b4)
      as [(n & hs & s & Hn & Hs & Hv & He) Hrest]; [done|done|done|done|done|].
    split; [|exact Hrest]. exists (S (S (S (S n)))), ok, hs, (Some (clock 1%nat)), s. split_and!; [done..|]. left. split; [done|]. by exists hs'.
Qed.
End Attempt.

(** ** Samples *)
Module Sample.
Import ExtProcProps.Sample.
#[local] Existing Instances decompressors translator endpoint tracer noauth cel sjson.

(** A call every second; the tenant header is a label. *)
Definition clock (n : nat) : Z := 1000000000 * Z.of_nat n.
Definition mapping : gmap string string := {["x-tenant" := "tenant"]}.

#[local] Instance recorder : MetricsGetters := recorderGetters map_to_list clock "messages" mapping.

Definition measuredRun :=
  run_attempt map_to_list map_to_list map_to_list ∅ None 0 backend "ns/r"
    hdrs chunks (accepted.1, newUpstreamProcessor (<["x-tenant" := "t1"]> clientHeaders)).
Definition samples : list sample := mi_samples (record map_to_list clock (u_metrics measuredRun.1.2) (NewMetrics "messages" mapping)).

(** Two chunks: the first token after three seconds, five tokens in all, counted at the end. *)
Lemma samples_of_run :
  (λ s, (sm_instrument s, sm_value s, sm_attributes s !! genaiAttributeProviderName, sm_attributes s !! "tenant")) <$> samples =
  [(FirstTokenLatency, f64_of_Z 4, Some "anthropic", Some "t1");
   (OutputTokenLatency, f64_div (f64_of_Z 2) (f64_of_Z 4), Some "anthropic", Some "t1");
   (TokenUsageHistogram, f64_of_Z 5, Some "anthropic", Some "t1");
   (RequestLatency, f64_of_Z 8, Some "anthropic", Some "t1")].
Proof. vm_compute. reflexivity. Qed.

Lemma mapping_free h l : mapping !! h = Some l → l ∉ ownAttributes.
Proof.
  unfold mapping. intros [_ <-]%lookup_singleton_Some Hin. apply list_elem_of_In in Hin.
  vm_compute in Hin. repeat destruct Hin as [Hin|Hin]; discriminate || done.
Qed.

Lemma attempt_measured_witness :
  Forall (λ s, sm_attributes s !! genaiAttributeProviderName = Some "anthropic") samples.
Proof.
  apply (attempt_measured map_to_list map_to_list map_to_list ∅ map_to_list clock "messages" mapping
    mapping_free
    None 0 backend "ns/r" hdrs chunks).
  - reflexivity.
  - intros [].
    + exists [{| hb_Body := Some "GZa"; hb_EndOfStream := false |}], {| hb_Body := Some "b$"; hb_EndOfStream := true |}.
      repeat split; repeat constructor. discriminate.
    + exists [], {| hb_Body := Some "GZab$"; hb_EndOfStream := true |}. repeat split; repeat constructor.
  - vm_compute. exact I.
Defined.

(** Selecting the backend fails before the start of the request is set: the
    duration is measured from the zero time, some 292 years. *)
Definition noTranslator : EndpointSpec unit nat :=
  {| eh_ParseBody := eh_ParseBody; eh_ParseMultipartBody := eh_ParseMultipartBody;
     eh_GetTranslator _ _ := Fail (errors_New "no translator") |}.

Lemma failed_selection_duration :
  let es := u_metrics (upstream_SetBackend (EndpointSpec0 := noTranslator) 0 backend "ns/r" (accepted.1, newUpstreamProcessor clientHeaders)).1.2 in
  sm_value <$> mi_samples (record map_to_list clock es (NewMetrics "messages" ∅)) = [Seconds maxDuration].
Proof. vm_compute. reflexivity. Qed.
End Sample.
