(* ===== verification/Passthrough.v ===== *)
(** * Passthrough translators

    Models the translators of [internal/translator] that keep the schema of the
    client: OpenAI chat completions (openai_openai.go, openai_azureopenai.go),
    completions, embeddings and responses (openai_completions.go,
    openai_embeddings.go, openai_responses.go), and Anthropic messages
    (anthropic_anthropic.go, anthropic_gcpanthropic.go, anthropic_awsanthropic.go),
    with the helpers of util.go.  They rewrite the request path, the model and some
    fields, pass answers on and read the token usage from them.  Response logging is
    left out.  JSON decoding, sjson and the AWS event stream are classes. *)

From Stdlib Require Import Ascii ZArith Lia SpecFloat.
From stdpp Require Import base gmap strings list.
From S2P Require Import Prelude GoStrings GoNum InternalApi TokenUsage FilterApi HeaderMutator EnvoyTypes BackendAuth Costs ExtProc.

(** ** Paths *)

(** [path.Join] of a rooted path: empty elements are left out, then [path.Clean]. *)
Definition cleanStep (acc : list string) (e : string) : list string :=
  if bool_decide (e = "") || bool_decide (e = ".") then acc
  else if bool_decide (e = "..") then removelast acc
  else acc ++ [e].
Definition path_Join (elems : list string) : string :=
  String "/" (Join (foldl cleanStep [] (elems ≫= λ e, Split e "/")) "/").

(** [url.PathEscape]. *)
Definition path_safe (c : ascii) : bool :=
  in_range 97 122 c || in_range 65 90 c || in_range 48 57 c || bool_decide (c ∈ schars "-_.~$&+=:@").
Definition path_upper_hex (n : nat) : ascii := if n <? 10 then chr (48 + n) else chr (55 + n).
Fixpoint PathEscape (s : string) : string :=
  match s with
  | "" => ""
  | String c s =>
      if path_safe c then String c (PathEscape s)
      else String "%" (String (path_upper_hex (nat_of_ascii c / 16)) (String (path_upper_hex (nat_of_ascii c mod 16)) (PathEscape s)))
  end.

(** ** Helpers of util.go *)

Definition pathHeaderName : string := ":path".
Definition statusHeaderName : string := ":status".
Definition contentTypeHeaderName : string := "content-type".
Definition contentLengthHeaderName : string := "content-length".
Definition jsonContentType : string := "application/json".
Definition openAIBackendError : string := "OpenAIBackendError".

Definition LF : ascii := chr 10.
Definition CR : ascii := chr 13.
Definition LFLF : string := String LF (String LF "").
Definition CRLFCRLF : string := String CR (String LF (String CR (String LF ""))).

Definition sseDataPrefix : string := "data:".
Definition sseDataPrefixSpace : string := "data: ".
Definition sseEventPrefixSpace : string := "event: ".
Definition sseDoneMessage : string := "[DONE]".

Definition cutSSEFieldPrefix (line fieldName : string) : option string :=
  if HasPrefix line fieldName then Some (TrimPrefix (TrimPrefix line fieldName) " ") else None.
Definition cutSSEDataPrefix (line : string) : option string := cutSSEFieldPrefix line sseDataPrefix.

Definition nextSSEEvent (buffer : string) : option (string * string) :=
  let cut n sep := Some (str_take n buffer, str_drop (n + sep) buffer) in
  match Index buffer LFLF, Index buffer CRLFCRLF with
  | lfEnd, Some crlfEnd =>
      match lfEnd with
      | Some l => if crlfEnd <? l then cut crlfEnd 4 else cut l 2
      | None => cut crlfEnd 4
      end
  | Some l, None => cut l 2
  | None, None => None
  end.

(** A nil slice has no bytes. *)
Definition len0 (b : option string) : bool := match b with None | Some "" => true | _ => false end.

Definition forceOriginalBodyIfEmpty (forceBodyMutation : bool) (newBody original : option string) : option string :=
  if forceBodyMutation && len0 newBody then original else newBody.

(** [if len(newBody) > 0]: the content length. *)
Definition lengthHeader (newBody : option string) : list Header :=
  if len0 newBody then [] else [(contentLengthHeaderName, itoa (String.length (default "" newBody)))].

(** The loop over the complete lines of a buffer: each line found is handled, the
    rest stays. *)
Fixpoint scanLines {St} (handle : St → string → St) (st : St) (line buffered : string) : St * string :=
  match buffered with
  | "" => (st, line)
  | String c rest =>
      if bool_decide (c = LF) then scanLines handle (handle st line) "" rest
      else scanLines handle st (line +:+ String c "") rest
  end.

(** ** OpenAI messages *)

Record PromptTokensDetails := { pd_CachedTokens : Z; pd_CacheWriteTokens : Z; pd_CacheCreationTokens : Z }.
Definition CacheWriteTokensValue (p : PromptTokensDetails) : Z := Z.max (pd_CacheWriteTokens p) (pd_CacheCreationTokens p).

Record CompletionTokensDetails := { cd_ReasoningTokens : Z }.
Record Usage := {
  us_PromptTokens : Z;
  us_CompletionTokens : Z;
  us_TotalTokens : Z;
  us_CompletionTokensDetails : option CompletionTokensDetails;
  us_PromptTokensDetails : option PromptTokensDetails;
}.

(** The fields of the messages that the translators read. *)
Record ChatCompletionRequest := { cq_Model : string; cq_Stream : bool }.
Record ChatCompletionResponseChunk := { ck_Model : string; ck_Usage : option Usage }.
Record ChatCompletionResponse := { cr_Model : string; cr_Usage : Usage }.
Record CompletionRequest := { oq_Model : string; oq_Stream : bool }.
Record CompletionResponse := { co_Model : string; co_Usage : option Usage }.
Record EmbeddingResponse := { em_Model : string; em_PromptTokens : Z; em_TotalTokens : Z }.

Record ResponseUsage := {
  ru_InputTokens : Z; ru_OutputTokens : Z; ru_TotalTokens : Z;
  ru_InputTokensDetails : PromptTokensDetails; ru_ReasoningTokens : Z }.
Record ResponseRequest := { rq_Model : string; rq_Stream : bool }.
Record OpenAIResponse := { rs_Model : string; rs_Usage : option ResponseUsage }.
Inductive ResponseStreamEvent :=
| ResponseCreated (r : OpenAIResponse)
| ResponseCompleted (r : OpenAIResponse)
| ResponseIncomplete (r : OpenAIResponse)
| ResponseFailed (r : OpenAIResponse)
| ResponseOtherEvent (type : string).

Record OpenAIError := { oe_Type : string; oe_ErrorType : string; oe_Message : string; oe_Code : string }.

(** A [null] body decodes to a nil response. *)
Class OpenAIJson := {
  unmarshal_Chunk : string → option ChatCompletionResponseChunk;
  decode_ChatResponse : reader → option ChatCompletionResponse + error;
  unmarshal_Completion : string → CompletionResponse + error;
  decode_Embedding : reader → EmbeddingResponse + error;
  decode_Response : reader → OpenAIResponse + error;
  unmarshal_ResponseEvent : string → option ResponseStreamEvent;
  marshal_Error : OpenAIError → outcome string;
}.

Definition zeroOpenAIUsage : Usage :=
  {| us_PromptTokens := 0; us_CompletionTokens := 0; us_TotalTokens := 0; us_CompletionTokensDetails := None; us_PromptTokensDetails := None |}.

(** The setters the chat and completion translators call for a usage. *)
Definition setUsage (tokenUsage : TokenUsage) (usage : Usage) : TokenUsage :=
  let t := SetInputTokens (uint32 (us_PromptTokens usage)) tokenUsage in
  let t := SetOutputTokens (uint32 (us_CompletionTokens usage)) t in
  let t := SetTotalTokens (uint32 (us_TotalTokens usage)) t in
  let t := match us_PromptTokensDetails usage with
           | Some d => SetCacheCreationInputTokens (uint32 (CacheWriteTokensValue d)) (SetCachedInputTokens (uint32 (pd_CachedTokens d)) t)
           | None => t
           end in
  match us_CompletionTokensDetails usage with
  | Some d => SetReasoningTokens (uint32 (cd_ReasoningTokens d)) t
  | None => t
  end.

Section OpenAI.
Context `{OJ : !OpenAIJson, SJ : !Sjson}.

Definition convertErrorOpenAIToOpenAIError (respHeaders : headers) (body : reader) : outcome (list Header * option string) :=
  match Index (mget respHeaders contentTypeHeaderName) jsonContentType with
  | Some _ => Ok ([], None)
  | None =>
      match rd_err body with
      | Some e => Fail (Errorf_w "failed to read error body: " e)
      | None =>
          let! newBody := owrap "failed to marshal error body: " (marshal_Error
            {| oe_Type := "error"; oe_ErrorType := openAIBackendError; oe_Message := rd_data body; oe_Code := mget respHeaders statusHeaderName |}) in
          Ok ([(contentTypeHeaderName, jsonContentType); (contentLengthHeaderName, itoa (String.length newBody))], Some newBody)
      end
  end.

(** [sjson.SetBytesOptions(original, "model", ...)] when an override is configured. *)
Definition overrideModel (what : string) (modelNameOverride : string) (original : option string) : outcome (option string) :=
  if bool_decide (modelNameOverride ≠ "") then
    let! b := owrap what (sjson_SetBytes (default "" original) "model" modelNameOverride) in Ok (Some b)
  else Ok None.

(** *** Chat completions *)

Record chatTranslator := {
  ct_modelNameOverride : string;
  ct_forceRequestBodyMutation : bool;
  ct_path : string;
  ct_requestModel : string;
  ct_streamingResponseModel : string;
  ct_stream : bool;
  ct_buffered : string;
  ct_recorded : list ChatCompletionResponseChunk;  (* the calls on the span *)
}.

Definition newChat (force : bool) (path modelNameOverride : string) : chatTranslator :=
  {| ct_modelNameOverride := modelNameOverride; ct_forceRequestBodyMutation := force; ct_path := path; ct_requestModel := "";
     ct_streamingResponseModel := ""; ct_stream := false; ct_buffered := ""; ct_recorded := [] |}.
Definition NewChatCompletionOpenAIToOpenAITranslator (prefix modelNameOverride : string) : chatTranslator :=
  newChat false (path_Join ["/"; prefix; "chat/completions"]) modelNameOverride.
Definition NewChatCompletionOpenAIToAWSOpenAITranslator (prefix modelNameOverride : string) : chatTranslator :=
  newChat true (path_Join ["/"; prefix; "chat/completions"]) modelNameOverride.

(** What a request fixes: the model it is for and whether the answer is streamed. *)
Definition chat_requested (model : string) (stream : bool) (o : chatTranslator) : chatTranslator :=
  {| ct_modelNameOverride := ct_modelNameOverride o; ct_forceRequestBodyMutation := ct_forceRequestBodyMutation o; ct_path := ct_path o;
     ct_requestModel := model; ct_streamingResponseModel := ct_streamingResponseModel o; ct_stream := stream || ct_stream o;
     ct_buffered := ct_buffered o; ct_recorded := ct_recorded o |}.

Definition chat_RequestBody (o : chatTranslator) (original : option string) (req : option ChatCompletionRequest) (forceBodyMutation : bool) :
    chatTranslator * outcome (list Header * option string) :=
  match req with
  | None => (o, Panic "nil request")
  | Some req =>
      match overrideModel "failed to set model name: " (ct_modelNameOverride o) original with
      | Ok newBody =>
          let o := chat_requested (cmp_Or (ct_modelNameOverride o) (cq_Model req)) (cq_Stream req) o in
          let newBody := forceOriginalBodyIfEmpty (forceBodyMutation || ct_forceRequestBodyMutation o) newBody original in
          (o, Ok ((pathHeaderName, ct_path o) :: lengthHeader newBody, newBody))
      | Fail e => (chat_requested (cq_Model req) (cq_Stream req) o, Fail e)
      | Panic p => (o, Panic p)
      end
  end.

(** The state of the scan: the translator's model, the recorded chunks and the
    usage of this batch. *)
Record chatScan := { sc_model : string; sc_recorded : list ChatCompletionResponseChunk; sc_usage : TokenUsage }.

Definition chat_line (traced : bool) (st : chatScan) (line : string) : chatScan :=
  match cutSSEDataPrefix line with
  | None => st
  | Some data =>
      match unmarshal_Chunk data with
      | Some event =>
          {| sc_model := if bool_decide (ck_Model event ≠ "") then ck_Model event else sc_model st;
             sc_recorded := if traced then sc_recorded st ++ [event] else sc_recorded st;
             sc_usage := match ck_Usage event with Some usage => setUsage (sc_usage st) usage | None => sc_usage st end |}
      | None => st
      end
  end.

Definition chat_extractUsageFromBufferEvent (traced : bool) (o : chatTranslator) : chatTranslator * TokenUsage :=
  let '(st, rest) := scanLines (chat_line traced)
    {| sc_model := ct_streamingResponseModel o; sc_recorded := ct_recorded o; sc_usage := zeroUsage |} "" (ct_buffered o) in
  ({| ct_modelNameOverride := ct_modelNameOverride o; ct_forceRequestBodyMutation := ct_forceRequestBodyMutation o; ct_path := ct_path o;
      ct_requestModel := ct_requestModel o; ct_streamingResponseModel := sc_model st; ct_stream := ct_stream o; ct_buffered := rest;
      ct_recorded := sc_recorded st |}, sc_usage st).

Definition chat_append (b : string) (o : chatTranslator) : chatTranslator :=
  {| ct_modelNameOverride := ct_modelNameOverride o; ct_forceRequestBodyMutation := ct_forceRequestBodyMutation o; ct_path := ct_path o;
     ct_requestModel := ct_requestModel o; ct_streamingResponseModel := ct_streamingResponseModel o; ct_stream := ct_stream o;
     ct_buffered := ct_buffered o +:+ b; ct_recorded := ct_recorded o |}.

Definition chat_ResponseBody (o : chatTranslator) (body : reader) (traced : bool) :
    chatTranslator * (list Header * option string * TokenUsage * string * option error) :=
  if ct_stream o then
    match rd_err body with
    | Some e => (o, ([], None, zeroUsage, ct_requestModel o, Some (Errorf_w "failed to read body: " e)))
    | None =>
        let '(o, tokenUsage) := chat_extractUsageFromBufferEvent traced (chat_append (rd_data body) o) in
        (o, ([], None, tokenUsage, cmp_Or (ct_streamingResponseModel o) (ct_requestModel o), None))
    end
  else
    match decode_ChatResponse body with
    | inl resp =>
        let resp := default {| cr_Model := ""; cr_Usage := zeroOpenAIUsage |} resp in
        (o, ([], None, setUsage zeroUsage (cr_Usage resp), cmp_Or (cr_Model resp) (ct_requestModel o), None))
    | inr e => (o, ([], None, zeroUsage, "", Some (Errorf_w "failed to unmarshal body: " e)))
    end.

(** *** Azure: the model is the deployment of the path *)

Definition azure_path (modelName apiVersion : string) : string :=
  "/openai/deployments/" +:+ modelName +:+ "/chat/completions?api-version=" +:+ apiVersion.

Definition azureChat_RequestBody (apiVersion : string) (o : chatTranslator) (raw : option string) (req : option ChatCompletionRequest)
    (forceBodyMutation : bool) : chatTranslator * outcome (list Header * option string) :=
  match req with
  | None => (o, Panic "nil request")
  | Some req =>
      let modelName := cmp_Or (ct_modelNameOverride o) (cq_Model req) in
      (chat_requested modelName (cq_Stream req) o,
       Ok ((pathHeaderName, azure_path modelName apiVersion) ::
           (if forceBodyMutation then [(contentLengthHeaderName, itoa (String.length (default "" raw)))] else []), None))
  end.

(** *** Completions *)

Record completionTranslator := {
  pt_modelNameOverride : string;
  pt_path : string;
  pt_stream : bool;
  pt_buffered : string;
  pt_streamingResponseModel : string;
  pt_recorded : list CompletionResponse;
}.

Definition NewCompletionOpenAIToOpenAITranslator (apiVersion modelNameOverride : string) : completionTranslator :=
  {| pt_modelNameOverride := modelNameOverride; pt_path := path_Join ["/"; apiVersion; "completions"]; pt_stream := false; pt_buffered := "";
     pt_streamingResponseModel := ""; pt_recorded := [] |}.

Definition completion_set (stream : bool) (buffered model : string) (recorded : list CompletionResponse) (o : completionTranslator) :
    completionTranslator :=
  {| pt_modelNameOverride := pt_modelNameOverride o; pt_path := pt_path o; pt_stream := stream; pt_buffered := buffered;
     pt_streamingResponseModel := model; pt_recorded := recorded |}.

Definition completion_RequestBody (o : completionTranslator) (original : option string) (req : option CompletionRequest) (onRetry : bool) :
    completionTranslator * outcome (list Header * option string) :=
  match req with
  | None => (o, Panic "nil request")
  | Some req =>
      let o := completion_set (oq_Stream req) (pt_buffered o) (pt_streamingResponseModel o) (pt_recorded o) o in
      (o, let! newBody := overrideModel "failed to set model name: " (pt_modelNameOverride o) original in
          let newBody := if onRetry && len0 newBody then original else newBody in
          Ok ((pathHeaderName, pt_path o) :: lengthHeader newBody, newBody))
  end.

(** The setters of the answer that is not streamed leave negative counts out. *)
Definition setNonNegative (set : Z → TokenUsage → TokenUsage) (n : Z) (t : TokenUsage) : TokenUsage :=
  if (0 <=? n)%Z then set (uint32 n) t else t.

Definition setUsageChecked (usage : Usage) (t : TokenUsage) : TokenUsage :=
  let t := setNonNegative SetInputTokens (us_PromptTokens usage) t in
  let t := setNonNegative SetOutputTokens (us_CompletionTokens usage) t in
  let t := setNonNegative SetTotalTokens (us_TotalTokens usage) t in
  let t := match us_PromptTokensDetails usage with
           | Some d => setNonNegative SetCacheCreationInputTokens (CacheWriteTokensValue d) (setNonNegative SetCachedInputTokens (pd_CachedTokens d) t)
           | None => t
           end in
  match us_CompletionTokensDetails usage with
  | Some d => setNonNegative SetReasoningTokens (cd_ReasoningTokens d) t
  | None => t
  end.

Record completionScan := { cs_model : string; cs_recorded : list CompletionResponse; cs_usage : TokenUsage }.

Definition completion_line (traced : bool) (st : completionScan) (line : string) : completionScan :=
  match cutSSEDataPrefix line with
  | None => st
  | Some data =>
      if bool_decide (data = sseDoneMessage) then st
      else
        match unmarshal_Completion data with
        | inl event =>
            {| cs_model := if bool_decide (co_Model event ≠ "") then co_Model event else cs_model st;
               cs_recorded := if traced then cs_recorded st ++ [event] else cs_recorded st;
               cs_usage := match co_Usage event with Some usage => setUsage (cs_usage st) usage | None => cs_usage st end |}
        | inr _ => st
        end
  end.

Definition completion_ResponseBody (o : completionTranslator) (body : reader) (traced : bool) :
    completionTranslator * (list Header * option string * TokenUsage * string * option error) :=
  match rd_err body with
  | Some e => (o, ([], None, zeroUsage, "", Some (Errorf_w "failed to read body: " e)))
  | None =>
      if pt_stream o then
        let '(st, rest) := scanLines (completion_line traced)
          {| cs_model := pt_streamingResponseModel o; cs_recorded := pt_recorded o; cs_usage := zeroUsage |} "" (pt_buffered o +:+ rd_data body) in
        (completion_set true rest (cs_model st) (cs_recorded st) o, ([], None, cs_usage st, cs_model st, None))
      else
        match unmarshal_Completion (rd_data body) with
        | inl resp =>
            (o, ([], None, match co_Usage resp with Some usage => setUsageChecked usage zeroUsage | None => zeroUsage end, co_Model resp, None))
        | inr e => (o, ([], None, zeroUsage, "", Some (Errorf_w "failed to unmarshal body: " e)))
        end
  end.

(** *** Embeddings *)

Record embeddingTranslator := { et_modelNameOverride : string; et_path : string }.

Definition NewEmbeddingOpenAIToOpenAITranslator (apiVersion modelNameOverride : string) : embeddingTranslator :=
  {| et_modelNameOverride := modelNameOverride; et_path := path_Join ["/"; apiVersion; "embeddings"] |}.

Definition embedding_RequestBody (o : embeddingTranslator) (original : option string) (onRetry : bool) : outcome (list Header * option string) :=
  let! newBody := overrideModel "failed to set model name: " (et_modelNameOverride o) original in
  let newBody := if onRetry && len0 newBody then original else newBody in
  Ok ((pathHeaderName, et_path o) :: lengthHeader newBody, newBody).

Definition embedding_ResponseBody (body : reader) : list Header * option string * TokenUsage * string * option error :=
  match decode_Embedding body with
  | inl resp =>
      ([], None, SetTotalTokens (uint32 (em_TotalTokens resp)) (SetInputTokens (uint32 (em_PromptTokens resp)) zeroUsage), em_Model resp, None)
  | inr e => ([], None, zeroUsage, "", Some (Errorf_w "failed to unmarshal body: " e))
  end.

(** *** Responses *)

Record responsesTranslator := {
  rt_modelNameOverride : string;
  rt_forceRequestBodyMutation : bool;
  rt_path : string;
  rt_stream : bool;
  rt_streamingResponseModel : string;
  rt_requestModel : string;
  rt_buffered : string;
  rt_recorded : list ResponseStreamEvent;
}.

Definition NewResponsesOpenAIToOpenAITranslator (force : bool) (prefix modelNameOverride : string) : responsesTranslator :=
  {| rt_modelNameOverride := modelNameOverride; rt_forceRequestBodyMutation := force; rt_path := path_Join ["/"; prefix; "responses"];
     rt_stream := false; rt_streamingResponseModel := ""; rt_requestModel := ""; rt_buffered := ""; rt_recorded := [] |}.

Definition responses_requested (model : string) (stream : bool) (o : responsesTranslator) : responsesTranslator :=
  {| rt_modelNameOverride := rt_modelNameOverride o; rt_forceRequestBodyMutation := rt_forceRequestBodyMutation o; rt_path := rt_path o;
     rt_stream := stream; rt_streamingResponseModel := rt_streamingResponseModel o; rt_requestModel := model; rt_buffered := rt_buffered o;
     rt_recorded := rt_recorded o |}.

Definition responses_RequestBody (o : responsesTranslator) (original : option string) (req : option ResponseRequest) (forceBodyMutation : bool) :
    responsesTranslator * outcome (list Header * option string) :=
  match req with
  | None => (o, Panic "nil request")
  | Some req =>
      match overrideModel "failed to set model: " (rt_modelNameOverride o) original with
      | Ok newBody =>
          let o := responses_requested (cmp_Or (rt_modelNameOverride o) (rq_Model req)) (rq_Stream req) o in
          let newBody := forceOriginalBodyIfEmpty (forceBodyMutation || rt_forceRequestBodyMutation o) newBody original in
          (o, Ok ((pathHeaderName, rt_path o) :: lengthHeader newBody, newBody))
      | Fail e => (responses_requested (rq_Model req) (rt_stream o) o, Fail e)
      | Panic p => (o, Panic p)
      end
  end.

Definition appendAzureOpenAIAPIVersion (path apiVersion : string) : string :=
  let open := HasSuffix path "?" || HasSuffix path "&" in
  let separator := if Contains path "?" && negb open then "&" else if open then "" else "?" in
  path +:+ separator +:+ "api-version=" +:+ apiVersion.

Definition azureResponses_RequestBody (apiVersion : string) (o : responsesTranslator) (raw : option string) (req : option ResponseRequest)
    (forceBodyMutation : bool) : responsesTranslator * outcome (list Header * option string) :=
  let '(o, r) := responses_RequestBody o raw req forceBodyMutation in
  (o, let! r := r in
      match r.1 with
      | [] => Panic "index out of range"
      | h :: newHeaders =>
          let path := if bool_decide (h.2 = "") then "/openai/responses" else h.2 in
          Ok ((pathHeaderName, appendAzureOpenAIAPIVersion path apiVersion) :: newHeaders, r.2)
      end).

Definition setTokenUsageFromResponse (tokenUsage : TokenUsage) (resp : OpenAIResponse) : TokenUsage :=
  match rs_Usage resp with
  | None => tokenUsage
  | Some u =>
      let t := SetInputTokens (uint32 (ru_InputTokens u)) tokenUsage in
      let t := SetOutputTokens (uint32 (ru_OutputTokens u)) t in
      let t := SetTotalTokens (uint32 (ru_TotalTokens u)) t in
      let t := SetCachedInputTokens (uint32 (pd_CachedTokens (ru_InputTokensDetails u))) t in
      let t := SetCacheCreationInputTokens (uint32 (CacheWriteTokensValue (ru_InputTokensDetails u))) t in
      SetReasoningTokens (uint32 (ru_ReasoningTokens u)) t
  end.

Record responsesScan := { ps_model : string; ps_recorded : list ResponseStreamEvent; ps_usage : TokenUsage }.

Definition responses_line (traced : bool) (st : responsesScan) (line : string) : responsesScan :=
  match cutSSEDataPrefix line with
  | None => st
  | Some data =>
      if bool_decide (data = "") || bool_decide (data = sseDoneMessage) then st
      else
        match unmarshal_ResponseEvent data with
        | Some event =>
            {| ps_model := match event with
                           | ResponseCreated r => if bool_decide (rs_Model r ≠ "") then rs_Model r else ps_model st
                           | _ => ps_model st
                           end;
               ps_recorded := if traced then ps_recorded st ++ [event] else ps_recorded st;
               ps_usage := match event with
                           | ResponseCompleted r | ResponseIncomplete r | ResponseFailed r => setTokenUsageFromResponse (ps_usage st) r
                           | _ => ps_usage st
                           end |}
        | None => st
        end
  end.

(** Event after event, and the lines of each; every event takes two bytes at least. *)
Fixpoint scanEvents (fuel : nat) (traced : bool) (st : responsesScan) (buffered : string) : responsesScan * string :=
  match fuel with
  | 0 => (st, buffered)
  | S fuel =>
      match nextSSEEvent buffered with
      | None => (st, buffered)
      | Some (event, remaining) => scanEvents fuel traced (foldl (responses_line traced) st (Split event LF)) remaining
      end
  end.

Definition responses_ResponseBody (o : responsesTranslator) (body : reader) (traced : bool) :
    responsesTranslator * (list Header * option string * TokenUsage * string * option error) :=
  if rt_stream o then
    match rd_err body with
    | Some e => (o, ([], None, zeroUsage, "", Some (Errorf_w "failed to read body: " e)))
    | None =>
        let buffered := rt_buffered o +:+ rd_data body in
        let '(st, rest) := scanEvents (String.length buffered) traced
          {| ps_model := rt_streamingResponseModel o; ps_recorded := rt_recorded o; ps_usage := zeroUsage |} buffered in
        ({| rt_modelNameOverride := rt_modelNameOverride o; rt_forceRequestBodyMutation := rt_forceRequestBodyMutation o; rt_path := rt_path o;
            rt_stream := true; rt_streamingResponseModel := ps_model st; rt_requestModel := rt_requestModel o; rt_buffered := rest;
            rt_recorded := ps_recorded st |},
         ([], None, ps_usage st, cmp_Or (ps_model st) (rt_requestModel o), None))
    end
  else
    match decode_Response body with
    | inl resp => (o, ([], None, setTokenUsageFromResponse zeroUsage resp, cmp_Or (rs_Model resp) (rt_requestModel o), None))
    | inr e => (o, ([], None, zeroUsage, "", Some (Errorf_w "failed to unmarshal body: " e)))
    end.
End OpenAI.

(** ** Anthropic messages *)

(** The counts are JSON numbers. *)
Record AnthropicUsage := { au_CacheCreation : float64; au_CacheRead : float64; au_Input : float64; au_Output : float64 }.
Record MessagesRequest := { mq_Model : string; mq_Stream : bool }.
Record MessageStart := { ms_Model : string; ms_Usage : option AnthropicUsage }.
Record MessageDelta := { md_Usage : AnthropicUsage }.
Record MessagesResponse := { mr_Model : string; mr_Usage : option AnthropicUsage }.
Record MessagesStreamChunk := { mc_Type : string; mc_MessageStart : option MessageStart; mc_MessageDelta : option MessageDelta }.
Record AnthropicError := { ae_Type : string; ae_ErrorType : string; ae_Message : string }.

(** Conversions of a [float64] to integers; out of range they depend on the
    implementation. *)
Class FloatConv := { f64_to_int64 : float64 → Z; f64_to_uint32 : float64 → Z }.

Definition f64_nonneg (f : float64) : bool := SFleb (S754_zero false) f.
Definition f64_pos (f : float64) : bool := SFltb (S754_zero false) f.

(** The JSON value of a text, gjson on it, and the decoders of its parts. *)
Class AnthropicJson := {
  json_value : string → option string;
  gjson_type : string → option string;
  gjson_message : string → string;
  decode_MessageStart : string → option MessageStart;
  unmarshal_MessageDelta : string → option MessageDelta;
  unmarshal_part : string → string → bool;
  decode_MessagesResponse : reader → MessagesResponse + error;
  marshal_AnthropicError : AnthropicError → outcome string;
}.

(** [eventstream.Decoder.Decode]: the payload of the first message and the bytes it
    takes; the bytes of the wrapped event; the JSON of a list of strings. *)
Class EventStream := {
  decode_message : string → option (string * nat);
  unmarshal_rawEvent : string → option string;
  sjson_SetStrings : string → string → list string → outcome string;
}.

Section Anthropic.
Context `{AJ : !AnthropicJson, FC : !FloatConv, ES : !EventStream, SJ : !Sjson}.

Definition UnmarshalJSON (data : string) : option MessagesStreamChunk :=
  match gjson_type data with
  | None => None
  | Some typ =>
      let chunk start delta := Some {| mc_Type := typ; mc_MessageStart := start; mc_MessageDelta := delta |} in
      if bool_decide (typ = "message_start") then
        match decode_MessageStart (gjson_message data) with Some m => chunk (Some m) None | None => None end
      else if bool_decide (typ = "message_delta") then
        match unmarshal_MessageDelta data with Some d => chunk None (Some d) | None => None end
      else if bool_decide (typ ∈ ["message_stop"; "content_block_start"; "content_block_delta"; "content_block_stop"]) then
        if unmarshal_part typ data then chunk None None else None
      else if bool_decide (typ = "ping") then chunk None None
      else None
  end.

Definition unmarshal_MessagesStreamChunk (data : string) : option MessagesStreamChunk := v ← json_value data; UnmarshalJSON v.

Record anthropicTranslator := {
  at_modelNameOverride : string;
  at_path : string;
  at_rawQuery : string;
  at_requestModel : string;
  at_stream : bool;
  at_buffered : string;
  at_streamingResponseModel : string;
  at_streamingTokenUsage : TokenUsage;
  at_recorded : list MessagesStreamChunk;
}.

Definition NewAnthropicToAnthropicTranslator (prefix modelNameOverride : string) : anthropicTranslator :=
  {| at_modelNameOverride := modelNameOverride; at_path := path_Join ["/"; prefix; "messages"]; at_rawQuery := ""; at_requestModel := "";
     at_stream := false; at_buffered := ""; at_streamingResponseModel := ""; at_streamingTokenUsage := zeroUsage; at_recorded := [] |}.

Definition at_request (query model : string) (stream : bool) (a : anthropicTranslator) : anthropicTranslator :=
  {| at_modelNameOverride := at_modelNameOverride a; at_path := at_path a; at_rawQuery := query; at_requestModel := model; at_stream := stream;
     at_buffered := at_buffered a; at_streamingResponseModel := at_streamingResponseModel a; at_streamingTokenUsage := at_streamingTokenUsage a;
     at_recorded := at_recorded a |}.

Definition at_SetRequestHeaders (a : anthropicTranslator) (hs : headers) : anthropicTranslator :=
  at_request (match cut_at "?" (mget hs OriginalPathHeader) with Some (_, q) => q | None => "" end) (at_requestModel a) (at_stream a) a.

Definition at_RequestBody (a : anthropicTranslator) (original : option string) (body : option MessagesRequest) (forceBodyMutation : bool) :
    anthropicTranslator * outcome (list Header * option string) :=
  match body with
  | None => (a, Panic "nil request")
  | Some body =>
      match overrideModel "failed to set model name: " (at_modelNameOverride a) original with
      | Ok newBody =>
          let a := at_request (at_rawQuery a) (cmp_Or (at_modelNameOverride a) (mq_Model body)) (mq_Stream body) a in
          let newBody := forceOriginalBodyIfEmpty forceBodyMutation newBody original in
          let newPath := if bool_decide (at_rawQuery a ≠ "") then at_path a +:+ "?" +:+ at_rawQuery a else at_path a in
          (a, Ok ((pathHeaderName, newPath) :: lengthHeader newBody, newBody))
      | Fail e => (at_request (at_rawQuery a) (mq_Model body) (mq_Stream body) a, Fail e)
      | Panic p => (a, Panic p)
      end
  end.

(** *** The usage of a stream *)

Definition extractUsage (u : AnthropicUsage) : TokenUsage :=
  ExtractTokenUsageFromExplicitCaching (f64_to_int64 (au_Input u)) (f64_to_int64 (au_Output u)) (Some (f64_to_int64 (au_CacheRead u)))
    (Some (f64_to_int64 (au_CacheCreation u))).

(** The counts of a delta over those known: a count that is not positive is not
    there. *)
Definition mergeDelta (u : AnthropicUsage) (t : TokenUsage) : TokenUsage :=
  let t := if f64_nonneg (au_Output u) then SetOutputTokens (f64_to_uint32 (au_Output u)) t else t in
  if f64_pos (au_Input u) || f64_pos (au_CacheRead u) || f64_pos (au_CacheCreation u) then
    let cacheRead := cachedInputTokens t in
    let cacheCreation := cacheCreationInputTokens t in
    let unifiedInput := inputTokens t in
    let rawInput := if (uint32 (cacheRead + cacheCreation) <=? unifiedInput)%Z then uint32 (uint32 (unifiedInput - cacheRead) - cacheCreation) else 0%Z in
    let rawInput := if f64_pos (au_Input u) then f64_to_uint32 (au_Input u) else rawInput in
    let cacheRead := if f64_pos (au_CacheRead u) then f64_to_uint32 (au_CacheRead u) else cacheRead in
    let cacheCreation := if f64_pos (au_CacheCreation u) then f64_to_uint32 (au_CacheCreation u) else cacheCreation in
    let t := SetCachedInputTokens cacheRead t in
    let t := SetCacheCreationInputTokens cacheCreation t in
    SetInputTokens (uint32 (uint32 (rawInput + cacheRead) + cacheCreation)) t
  else t.

Record messagesScan := { an_model : string; an_usage : TokenUsage; an_recorded : list MessagesStreamChunk }.

Definition reflectStreamingEvent (eventUnion : MessagesStreamChunk) (st : messagesScan) : messagesScan :=
  match mc_MessageStart eventUnion with
  | Some message =>
      {| an_model := if bool_decide (ms_Model message ≠ "") then ms_Model message else an_model st;
         an_usage := match ms_Usage message with Some u => Override (an_usage st) (extractUsage u) | None => an_usage st end;
         an_recorded := an_recorded st |}
  | None =>
      match mc_MessageDelta eventUnion with
      | Some delta => {| an_model := an_model st; an_usage := mergeDelta (md_Usage delta) (an_usage st); an_recorded := an_recorded st |}
      | None => st
      end
  end.

Definition recordEvent (traced : bool) (e : MessagesStreamChunk) (st : messagesScan) : messagesScan :=
  {| an_model := an_model st; an_usage := an_usage st; an_recorded := if traced then an_recorded st ++ [e] else an_recorded st |}.

Definition messages_line (traced : bool) (st : messagesScan) (line : string) : messagesScan :=
  match cutSSEDataPrefix line with
  | None => st
  | Some data =>
      match unmarshal_MessagesStreamChunk data with
      | Some eventUnion => reflectStreamingEvent eventUnion (recordEvent traced eventUnion st)
      | None => st
      end
  end.

Definition updateTotalTokens (t : TokenUsage) : TokenUsage :=
  let outputSet := outputTokenSet t in
  let t := if outputSet && negb (inputTokenSet t) then SetInputTokens 0%Z t else t in
  let t := if outputSet && negb (cachedInputTokenSet t) then SetCachedInputTokens 0%Z t else t in
  let t := if outputSet && negb (cacheCreationInputTokenSet t) then SetCacheCreationInputTokens 0%Z t else t in
  if inputTokenSet t && outputSet then SetTotalTokens (uint32 (inputTokens t + outputTokens t)) t else t.

Definition at_scan (a : anthropicTranslator) : messagesScan :=
  {| an_model := at_streamingResponseModel a; an_usage := at_streamingTokenUsage a; an_recorded := at_recorded a |}.
Definition at_scanned (st : messagesScan) (usage : TokenUsage) (buffered : string) (a : anthropicTranslator) : anthropicTranslator :=
  {| at_modelNameOverride := at_modelNameOverride a; at_path := at_path a; at_rawQuery := at_rawQuery a; at_requestModel := at_requestModel a;
     at_stream := at_stream a; at_buffered := buffered; at_streamingResponseModel := an_model st; at_streamingTokenUsage := usage;
     at_recorded := an_recorded st |}.

Definition at_ResponseBody (a : anthropicTranslator) (body : reader) (traced : bool) :
    anthropicTranslator * (list Header * option string * TokenUsage * string * option error) :=
  if at_stream a then
    match rd_err body with
    | Some e => (a, ([], None, zeroUsage, at_requestModel a, Some (Errorf_w "failed to read body: " e)))
    | None =>
        let '(st, rest) := scanLines (messages_line traced) (at_scan a) "" (at_buffered a +:+ rd_data body) in
        let a := at_scanned st (updateTotalTokens (an_usage st)) rest a in
        (a, ([], None, at_streamingTokenUsage a, cmp_Or (at_streamingResponseModel a) (at_requestModel a), None))
    end
  else
    match decode_MessagesResponse body with
    | inl resp =>
        (a, ([], None, match mr_Usage resp with Some u => extractUsage u | None => zeroUsage end, cmp_Or (mr_Model resp) (at_requestModel a), None))
    | inr e => (a, ([], None, zeroUsage, "", Some (Errorf_w "failed to unmarshal body: " e)))
    end.

Definition anthropicErrorType (statusCode : string) : string :=
  if bool_decide (statusCode = "400") then "invalid_request_error"
  else if bool_decide (statusCode = "401") then "authentication_error"
  else if bool_decide (statusCode = "403") then "permission_error"
  else if bool_decide (statusCode = "404") then "not_found_error"
  else if bool_decide (statusCode = "413") then "request_too_large"
  else if bool_decide (statusCode = "429") then "rate_limit_error"
  else if bool_decide (statusCode = "503") then "service_unavailable_error"
  else if bool_decide (statusCode = "529") then "overloaded_error"
  else "internal_server_error".

Definition at_ResponseError (respHeaders : headers) (body : reader) : outcome (list Header * option string) :=
  match Index (mget respHeaders contentTypeHeaderName) jsonContentType with
  | Some _ => Ok ([], None)
  | None =>
      match rd_err body with
      | Some e => Fail (Errorf_w "failed to read error body: " e)
      | None =>
          let! newBody := owrap "failed to marshal error body: " (marshal_AnthropicError
            {| ae_Type := "error"; ae_ErrorType := anthropicErrorType (mget respHeaders statusHeaderName); ae_Message := rd_data body |}) in
          Ok ([(contentTypeHeaderName, jsonContentType); (contentLengthHeaderName, itoa (String.length newBody))], Some newBody)
      end
  end.

(** *** Anthropic on GCP *)

Definition anthropicVersionKey : string := "anthropic_version".
Definition anthropicBetaHeaderName : string := "anthropic-beta".

Definition buildGCPModelPathSuffix (publisher model gcpMethod : string) (queryParams : list string) : string :=
  "publishers/" +:+ publisher +:+ "/models/" +:+ model +:+ ":" +:+ gcpMethod +:+
  match queryParams with [] => "" | _ => "?" +:+ Join queryParams "&" end.

(** The fields of the embedded translator and those that shadow them. *)
Record gcpAnthropicTranslator := {
  ga_embedded : anthropicTranslator;
  ga_apiVersion : string;
  ga_modelNameOverride : string;
  ga_requestModel : string;
  ga_anthropicBetas : list string;
  ga_betaFilterMode : string;
  ga_betaFilterValues : list string;
}.

Definition zeroAnthropicTranslator : anthropicTranslator :=
  {| at_modelNameOverride := ""; at_path := ""; at_rawQuery := ""; at_requestModel := ""; at_stream := false; at_buffered := "";
     at_streamingResponseModel := ""; at_streamingTokenUsage := zeroUsage; at_recorded := [] |}.

Definition NewAnthropicToGCPAnthropicTranslator (apiVersion modelNameOverride : string) : gcpAnthropicTranslator :=
  {| ga_embedded := zeroAnthropicTranslator; ga_apiVersion := apiVersion; ga_modelNameOverride := modelNameOverride; ga_requestModel := "";
     ga_anthropicBetas := []; ga_betaFilterMode := ""; ga_betaFilterValues := [] |}.

Definition ga_SetRequestHeaders (a : gcpAnthropicTranslator) (hs : headers) : gcpAnthropicTranslator :=
  {| ga_embedded := ga_embedded a; ga_apiVersion := ga_apiVersion a; ga_modelNameOverride := ga_modelNameOverride a;
     ga_requestModel := ga_requestModel a; ga_anthropicBetas := parseCommaSeparatedHeader hs anthropicBetaHeaderName;
     ga_betaFilterMode := ga_betaFilterMode a; ga_betaFilterValues := ga_betaFilterValues a |}.

Definition ga_SetHeaderValueFilter (a : gcpAnthropicTranslator) (name mode : string) (values : list string) : gcpAnthropicTranslator :=
  if negb (EqualFold name anthropicBetaHeaderName) then a
  else {| ga_embedded := ga_embedded a; ga_apiVersion := ga_apiVersion a; ga_modelNameOverride := ga_modelNameOverride a;
          ga_requestModel := ga_requestModel a; ga_anthropicBetas := ga_anthropicBetas a; ga_betaFilterMode := mode; ga_betaFilterValues := values |}.

Definition ga_request (model : string) (stream : bool) (a : gcpAnthropicTranslator) : gcpAnthropicTranslator :=
  {| ga_embedded := at_request (at_rawQuery (ga_embedded a)) (at_requestModel (ga_embedded a)) stream (ga_embedded a);
     ga_apiVersion := ga_apiVersion a; ga_modelNameOverride := ga_modelNameOverride a; ga_requestModel := model;
     ga_anthropicBetas := ga_anthropicBetas a; ga_betaFilterMode := ga_betaFilterMode a; ga_betaFilterValues := ga_betaFilterValues a |}.

(** [v, _ := f()]: the value when [f] succeeds, nil otherwise. *)
Definition value_of (r : outcome string) : string := match r with Ok s => s | _ => "" end.

(** The header of a filter that changed the values. *)
Definition betaHeader (betas : list string * bool) : list Header :=
  if betas.2 then [(anthropicBetaHeaderName, Join betas.1 ",")] else [].

Definition ga_RequestBody (a : gcpAnthropicTranslator) (raw : option string) (req : option MessagesRequest) (_ : bool) :
    gcpAnthropicTranslator * outcome (list Header * option string) :=
  match req with
  | None => (a, Panic "nil request")
  | Some req =>
      let a := ga_request (cmp_Or (ga_modelNameOverride a) (mq_Model req)) (mq_Stream req) a in
      if bool_decide (ga_apiVersion a = "") then
        (a, Fail (errors_New "anthropic_version is required for GCP Vertex AI but not provided in backend configuration"))
      else
        let mutatedBody := value_of (sjson_SetBytes (default "" raw) anthropicVersionKey (ga_apiVersion a)) in
        let newBody := value_of (sjson_DeleteBytes mutatedBody "model") in
        let specifier := if mq_Stream req then "streamRawPredict" else "rawPredict" in
        let path := buildGCPModelPathSuffix "anthropic" (ga_requestModel a) specifier [] in
        (a, Ok ([(pathHeaderName, path); (contentLengthHeaderName, itoa (String.length newBody))] ++
                betaHeader (filterHeaderValues (ga_anthropicBetas a) (ga_betaFilterMode a) (ga_betaFilterValues a)), Some newBody))
  end.

(** The methods of the embedded translator see its own fields. *)
Definition ga_ResponseBody (a : gcpAnthropicTranslator) (body : reader) (traced : bool) :
    gcpAnthropicTranslator * (list Header * option string * TokenUsage * string * option error) :=
  let '(e, r) := at_ResponseBody (ga_embedded a) body traced in
  ({| ga_embedded := e; ga_apiVersion := ga_apiVersion a; ga_modelNameOverride := ga_modelNameOverride a; ga_requestModel := ga_requestModel a;
      ga_anthropicBetas := ga_anthropicBetas a; ga_betaFilterMode := ga_betaFilterMode a; ga_betaFilterValues := ga_betaFilterValues a |}, r).

(** *** Anthropic on AWS *)

Definition awsBedrockSupportedAnthropicBetas : list string :=
  ["afk-mode-2026-01-31"; "computer-use-2024-10-22"; "computer-use-2025-01-24"; "context-1m-2025-08-07"; "context-management-2025-06-27";
   "dangerous-tool-use-2026-09-03"; "dev-full-thinking-2025-05-14"; "fine-grained-tool-streaming-2025-05-14";
   "interleaved-thinking-2025-05-14"; "mcp-client-2025-04-04"; "mcp-client-2025-11-20"; "model-context-window-exceeded-2025-08-26";
   "output-128k-2025-02-19"; "pdfs-2024-09-25"; "search-results-2025-06-09"; "thinking-binding-controls-2026-08-01";
   "thinking-token-count-2026-05-13"; "token-counting-2024-11-01"; "token-efficient-tools-2025-02-19"; "tool-search-tool-2025-10-19";
   "web-search-2025-03-05"].

Definition anthropicAPIToBedrockBetaAliases (beta : string) : string :=
  if bool_decide (beta = "advanced-tool-use-2025-11-20") then "tool-search-tool-2025-10-19" else beta.

Record awsAnthropicTranslator := {
  wa_embedded : anthropicTranslator;
  wa_apiVersion : string;
  wa_anthropicBetas : list string;
  wa_betaFilterMode : string;
  wa_betaFilterValues : list string;
}.

Definition NewAnthropicToAWSAnthropicTranslator (apiVersion modelNameOverride : string) : awsAnthropicTranslator :=
  {| wa_embedded := NewAnthropicToAnthropicTranslator "" modelNameOverride; wa_apiVersion := apiVersion; wa_anthropicBetas := [];
     wa_betaFilterMode := ""; wa_betaFilterValues := [] |}.

(** Each flag Bedrock knows, under its Bedrock name, once. *)
Definition addBeta (acc : list string) (beta : string) : list string :=
  let beta := anthropicAPIToBedrockBetaAliases beta in
  if bool_decide (beta ∈ awsBedrockSupportedAnthropicBetas) && bool_decide (beta ∉ acc) then acc ++ [beta] else acc.

Definition wa_SetRequestHeaders (a : awsAnthropicTranslator) (hs : headers) : awsAnthropicTranslator :=
  {| wa_embedded := wa_embedded a; wa_apiVersion := wa_apiVersion a;
     wa_anthropicBetas := foldl addBeta [] (parseCommaSeparatedHeader hs anthropicBetaHeaderName);
     wa_betaFilterMode := wa_betaFilterMode a; wa_betaFilterValues := wa_betaFilterValues a |}.

Definition wa_SetHeaderValueFilter (a : awsAnthropicTranslator) (name mode : string) (values : list string) : awsAnthropicTranslator :=
  if negb (EqualFold name anthropicBetaHeaderName) then a
  else {| wa_embedded := wa_embedded a; wa_apiVersion := wa_apiVersion a; wa_anthropicBetas := wa_anthropicBetas a;
          wa_betaFilterMode := mode; wa_betaFilterValues := values |}.

Definition wa_withEmbedded (a : awsAnthropicTranslator) (e : anthropicTranslator) : awsAnthropicTranslator :=
  {| wa_embedded := e; wa_apiVersion := wa_apiVersion a; wa_anthropicBetas := wa_anthropicBetas a; wa_betaFilterMode := wa_betaFilterMode a;
     wa_betaFilterValues := wa_betaFilterValues a |}.

Definition wa_ResponseHeaders (a : awsAnthropicTranslator) (hs : headers) : list Header :=
  if at_stream (wa_embedded a) && bool_decide (mget hs contentTypeHeaderName = "application/vnd.amazon.eventstream")
  then [(contentTypeHeaderName, "text/event-stream")] else [].

Definition wa_RequestBody (a : awsAnthropicTranslator) (rawBody : option string) (body : option MessagesRequest) (_ : bool) :
    awsAnthropicTranslator * outcome (list Header * option string) :=
  match body with
  | None => (a, Panic "nil request")
  | Some body =>
      let e := wa_embedded a in
      let e := at_request (at_rawQuery e) (cmp_Or (at_modelNameOverride e) (mq_Model body)) (mq_Stream body) e in
      (wa_withEmbedded a e,
       let! newBody := owrap "failed to set anthropic_version field: " (sjson_SetBytes (default "" rawBody) anthropicVersionKey (wa_apiVersion a)) in
       let newBody := value_of (sjson_DeleteBytes newBody "model") in
       let newBody := value_of (sjson_DeleteBytes newBody "stream") in
       let betas := filterHeaderValues (wa_anthropicBetas a) (wa_betaFilterMode a) (wa_betaFilterValues a) in
       let! newBody := match betas.1 with
                       | [] => Ok newBody
                       | l => owrap "failed to set anthropic_beta field: " (sjson_SetStrings newBody "anthropic_beta" l)
                       end in
       let path := "/model/" +:+ PathEscape (at_requestModel e) +:+ (if mq_Stream body then "/invoke-with-response-stream" else "/invoke") in
       Ok ([(pathHeaderName, path); (contentLengthHeaderName, itoa (String.length newBody))] ++ betaHeader betas, Some newBody))
  end.

(** The messages of the event stream at the head of the buffer; a message takes a
    byte at least, and what is not whole yet stays. *)
Fixpoint convertEvents (fuel : nat) (traced : bool) (st : messagesScan) (out buffered : string) : messagesScan * string * string :=
  match fuel with
  | 0 => (st, out, buffered)
  | S fuel =>
      match decode_message buffered with
      | None => (st, out, buffered)
      | Some (payload, n) =>
          let rest := str_drop n buffered in
          match unmarshal_rawEvent payload with
          | None => convertEvents fuel traced st out rest
          | Some bytes =>
              match unmarshal_MessagesStreamChunk bytes with
              | None => convertEvents fuel traced st out rest
              | Some event =>
                  convertEvents fuel traced (reflectStreamingEvent event (recordEvent traced event st))
                    (out +:+ sseEventPrefixSpace +:+ mc_Type event +:+ String LF (sseDataPrefixSpace +:+ bytes +:+ LFLF)) rest
              end
          end
      end
  end.

Definition wa_ResponseBody (a : awsAnthropicTranslator) (body : reader) (endOfStream traced : bool) :
    awsAnthropicTranslator * (list Header * option string * TokenUsage * string * option error) :=
  let e := wa_embedded a in
  if negb (at_stream e) then let '(e, r) := at_ResponseBody e body traced in (wa_withEmbedded a e, r)
  else
    match rd_err body with
    | Some err => (a, ([], Some "", zeroUsage, "", Some (Errorf_w "failed to read body: " err)))
    | None =>
        let buffered := at_buffered e +:+ rd_data body in
        let '(st, out, rest) := convertEvents (String.length buffered) traced (at_scan e) "" buffered in
        let usage := if endOfStream then updateTotalTokens (an_usage st) else an_usage st in
        let e := at_scanned st usage rest e in
        (wa_withEmbedded a e, ([], Some out, usage, cmp_Or (at_streamingResponseModel e) (at_requestModel e), None))
    end.
End Anthropic.

(** ** The translator interface of the processor *)

Section Instances.
Context {Span : Type} `{OJ : !OpenAIJson, AJ : !AnthropicJson, FC : !FloatConv, ES : !EventStream, SJ : !Sjson}.

Definition traced (span : option Span) : bool := bool_decide (is_Some span).

#[export] Instance chat_Translator : Translator ChatCompletionRequest chatTranslator Span :=
  {| tr_RequestBody := chat_RequestBody; tr_ResponseHeaders t _ := (t, Ok []);
     tr_ResponseBody t _ body _ span := chat_ResponseBody t body (traced span);
     tr_ResponseError t hs body := (t, convertErrorOpenAIToOpenAIError hs body);
     tr_SetContentType t _ := t; tr_SetRequestHeaders t _ := t; tr_SetHeaderValueFilter t _ _ _ := t; tr_SetRedactionConfig t _ _ := t |}.

(** The error of a completion is passed on as it is. *)
#[export] Instance completion_Translator : Translator CompletionRequest completionTranslator Span :=
  {| tr_RequestBody := completion_RequestBody; tr_ResponseHeaders t _ := (t, Ok []);
     tr_ResponseBody t _ body _ span := completion_ResponseBody t body (traced span);
     tr_ResponseError t hs body := (t, Ok ([], None));
     tr_SetContentType t _ := t; tr_SetRequestHeaders t _ := t; tr_SetHeaderValueFilter t _ _ _ := t; tr_SetRedactionConfig t _ _ := t |}.

#[export] Instance responses_Translator : Translator ResponseRequest responsesTranslator Span :=
  {| tr_RequestBody := responses_RequestBody; tr_ResponseHeaders t _ := (t, Ok []);
     tr_ResponseBody t _ body _ span := responses_ResponseBody t body (traced span);
     tr_ResponseError t hs body := (t, convertErrorOpenAIToOpenAIError hs body);
     tr_SetContentType t _ := t; tr_SetRequestHeaders t _ := t; tr_SetHeaderValueFilter t _ _ _ := t; tr_SetRedactionConfig t _ _ := t |}.

#[export] Instance messages_Translator : Translator MessagesRequest anthropicTranslator Span :=
  {| tr_RequestBody := at_RequestBody; tr_ResponseHeaders t _ := (t, Ok []);
     tr_ResponseBody t _ body _ span := at_ResponseBody t body (traced span);
     tr_ResponseError t hs body := (t, at_ResponseError hs body);
     tr_SetContentType t _ := t; tr_SetRequestHeaders := at_SetRequestHeaders; tr_SetHeaderValueFilter t _ _ _ := t; tr_SetRedactionConfig t _ _ := t |}.

#[export] Instance gcpMessages_Translator : Translator MessagesRequest gcpAnthropicTranslator Span :=
  {| tr_RequestBody := ga_RequestBody; tr_ResponseHeaders t _ := (t, Ok []);
     tr_ResponseBody t _ body _ span := ga_ResponseBody t body (traced span);
     tr_ResponseError t hs body := (t, at_ResponseError hs body);
     tr_SetContentType t _ := t; tr_SetRequestHeaders := ga_SetRequestHeaders; tr_SetHeaderValueFilter := ga_SetHeaderValueFilter;
     tr_SetRedactionConfig t _ _ := t |}.

#[export] Instance awsMessages_Translator : Translator MessagesRequest awsAnthropicTranslator Span :=
  {| tr_RequestBody := wa_RequestBody; tr_ResponseHeaders t hs := (t, Ok (wa_ResponseHeaders t hs));
     tr_ResponseBody t _ body eos span := wa_ResponseBody t body eos (traced span);
     tr_ResponseError t hs body := (t, at_ResponseError hs body);
     tr_SetContentType t _ := t; tr_SetRequestHeaders := wa_SetRequestHeaders; tr_SetHeaderValueFilter := wa_SetHeaderValueFilter;
     tr_SetRedactionConfig t _ _ := t |}.
End Instances.
