(* ===== verification/PassthroughProps.v ===== *)
(** * Passthrough translators: properties

    The token usage of a streamed answer does not depend on how the network cuts
    it: a class states what a streaming translator promises to the processor, the
    translators of [Passthrough] discharge it, and the theorem about the processor
    is proved against the class.  Then what the usage is, for each provider. *)

From Stdlib Require Import Ascii ZArith Lia SpecFloat.
From stdpp Require Import base gmap strings list.
From S2P Require Import Prelude GoStrings GoNum InternalApi TokenUsage FilterApi HeaderMutator EnvoyTypes BackendAuth Costs ExtProc ExtProcProps Passthrough.

(** ** Lines *)

Section Lines.
Context {St : Type} (handle : St → string → St).

Lemma scanLines_app st line a b :
  scanLines handle st line (a +:+ b) = let '(st', rest) := scanLines handle st line a in scanLines handle st' rest b.
Proof.
  revert st line. induction a as [|c a IH]; intros st line; [by rewrite sapp_nil_l|]. rewrite sapp_cons. cbn [scanLines].
  case_bool_decide; apply IH.
Qed.

(** What stays in the buffer has no line end. *)
Lemma scanLines_rest st line a : Contains line LF = false → Contains (scanLines handle st line a).2 LF = false.
Proof.
  revert st line. induction a as [|c a IH]; intros st line Hl; [done|]. cbn [scanLines]. case_bool_decide as Hc; apply IH; [done|].
  rewrite Contains_app, Hl. by apply Contains_false_cons.
Qed.

Lemma scanLines_prefix st line a b : Contains a LF = false → scanLines handle st line (a +:+ b) = scanLines handle st (line +:+ a) b.
Proof.
  revert line. induction a as [|c a IH]; intros line Ha; [by rewrite sapp_nil_l, sapp_nil_r|]. apply Contains_false_cons in Ha as [Hc Ha].
  rewrite sapp_cons. cbn [scanLines]. rewrite bool_decide_eq_false_2 by done. rewrite IH by done. by rewrite <-sapp_assoc.
Qed.

(** Reading on from what a first part leaves is reading both parts at once. *)
Lemma scanLines_resume st buffered a b :
  Contains buffered LF = false →
  let '(st', rest) := scanLines handle st "" (buffered +:+ a) in
  Contains rest LF = false ∧ scanLines handle st' "" (rest +:+ b) = scanLines handle st "" (buffered +:+ (a +:+ b)).
Proof.
  intros Hb. pose proof (scanLines_rest st "" (buffered +:+ a) eq_refl) as Hr. rewrite (sapp_assoc buffered a b), (scanLines_app st "" (buffered +:+ a) b).
  destruct (scanLines handle st "" (buffered +:+ a)) as [st' rest]. split; [done|]. by rewrite scanLines_prefix.
Qed.
End Lines.

(** Handlers that keep a relation keep it over a scan. *)
Lemma scanLines_related {St} (handle : St → string → St) (R : St → St → Prop) st st' line a :
  (∀ st st' l, R st st' → R (handle st l) (handle st' l)) → R st st' →
  R (scanLines handle st line a).1 (scanLines handle st' line a).1 ∧ (scanLines handle st line a).2 = (scanLines handle st' line a).2.
Proof.
  intros Hh. revert st st' line. induction a as [|c a IH]; intros st st' line HR; [done|]. cbn [scanLines]. case_bool_decide; auto.
Qed.

(** ** Events *)

(** Where the first event ends and how long its separator is. *)
Definition nextCut (buffer : string) : option (nat * nat) :=
  match Index buffer LFLF, Index buffer CRLFCRLF with
  | Some l, Some c => if c <? l then Some (c, 4) else Some (l, 2)
  | None, Some c => Some (c, 4)
  | Some l, None => Some (l, 2)
  | None, None => None
  end.

Lemma nextSSEEvent_cut s : nextSSEEvent s = (λ '(n, k), (str_take n s, str_drop (n + k) s)) <$> nextCut s.
Proof. unfold nextSSEEvent, nextCut. destruct (Index s LFLF), (Index s CRLFCRLF); try done. by case_match. Qed.

Lemma nextCut_bounds s n k : nextCut s = Some (n, k) → n + k ≤ String.length s ∧ 2 ≤ k.
Proof.
  unfold nextCut. destruct (Index s LFLF) as [l|] eqn:El, (Index s CRLFCRLF) as [c|] eqn:Ec; try case_match; intros; simplify_eq;
    (apply Index_le in El || apply Index_le in Ec); (apply Index_le in Ec || idtac); cbn in *; lia.
Qed.

Lemma nextCut_cons c s :
  nextCut (String c s) =
    if HasPrefix (String c s) LFLF then Some (0, 2) else if HasPrefix (String c s) CRLFCRLF then Some (0, 4)
    else (λ '(n, k), (S n, k)) <$> nextCut s.
Proof.
  unfold nextCut. cbn [Index]. destruct (HasPrefix (String c s) LFLF) eqn:E1.
  - destruct (HasPrefix (String c s) CRLFCRLF); [done|]. by destruct (Index s CRLFCRLF).
  - destruct (HasPrefix (String c s) CRLFCRLF) eqn:E2; [by destruct (Index s LFLF)|].
    destruct (Index s LFLF) as [l|], (Index s CRLFCRLF) as [d|]; try done. cbn [fmap option_fmap option_map].
    change (S d <? S l) with (d <? l). destruct (d <? l) eqn:Ed; rewrite ?Ed; done.
Qed.

(** More bytes do not move the end of an event. *)
Lemma nextCut_app a b p : nextCut a = Some p → nextCut (a +:+ b) = Some p.
Proof.
  revert p. induction a as [|c a IH]; intros p; [done|]. rewrite sapp_cons, !nextCut_cons. rewrite <-sapp_cons. intros Hp.
  destruct (HasPrefix (String c a) LFLF) eqn:E1.
  { apply HasPrefix_spec in E1 as [t E1]. rewrite E1, <-sapp_assoc, HasPrefix_app. done. }
  destruct (HasPrefix (String c a) CRLFCRLF) eqn:E2.
  { apply HasPrefix_spec in E2 as [t E2]. rewrite E2 in E1 |- *. rewrite <-sapp_assoc, HasPrefix_app. done. }
  destruct (nextCut a) as [q|] eqn:Eq; [|done]. rewrite (IH q eq_refl). destruct q as [n k]. destruct (nextCut_bounds _ _ _ Eq) as [Hl Hk].
  rewrite HasPrefix_app_l by (cbn; lia). rewrite E1.
  destruct (HasPrefix (String c a +:+ b) CRLFCRLF) eqn:E3; [|done]. exfalso.
  destruct (decide (4 ≤ String.length (String c a))); [rewrite HasPrefix_app_l in E3 by done; congruence|].
  apply HasPrefix_spec in E3 as [t E3]. destruct a as [|x [|y [|z a]]]; cbn in *; try lia.
  change (String c (String x (String y b)) = String CR (String LF (String CR (String LF t)))) in E3. injection E3 as -> -> -> _. done.
Qed.

Lemma str_take_le n s t : n ≤ String.length s → str_take n (s +:+ t) = str_take n s.
Proof.
  revert n. induction s as [|c s IH]; intros [|n] Hn; cbn in Hn; try lia; try done; try (by destruct t).
  rewrite sapp_cons. cbn. by rewrite IH by lia.
Qed.

Section Events.
Context `{OJ : !OpenAIJson} (tr : bool).

Lemma scanEvents_step fuel st s :
  String.length s ≤ fuel →
  scanEvents fuel tr st s =
    match nextCut s with
    | None => (st, s)
    | Some (n, k) => scanEvents (pred fuel) tr (foldl (responses_line tr) st (Split (str_take n s) LF)) (str_drop (n + k) s)
    end.
Proof.
  intros Hl. destruct fuel as [|fuel]; cbn [scanEvents pred].
  - destruct (nextCut s) as [[n k]|] eqn:E; [|done]. apply nextCut_bounds in E. lia.
  - rewrite nextSSEEvent_cut. by destruct (nextCut s) as [[n k]|].
Qed.

(** The fuel is enough. *)
Lemma scanEvents_fuel f f' st s : String.length s ≤ f → String.length s ≤ f' → scanEvents f tr st s = scanEvents f' tr st s.
Proof.
  revert f' st s. induction f as [|f IH]; intros f' st s Hf Hf'; rewrite !scanEvents_step by lia;
    destruct (nextCut s) as [[n k]|] eqn:E; try done; apply nextCut_bounds in E; [lia|]. apply IH; rewrite slength_drop; lia.
Qed.

Lemma scanEvents_resume f f' st a b :
  String.length a ≤ f → String.length (a +:+ b) ≤ f' →
  scanEvents f' tr st (a +:+ b) = let '(st', rest) := scanEvents f tr st a in scanEvents (String.length (rest +:+ b)) tr st' (rest +:+ b).
Proof.
  revert f' st a. induction f as [|f IH]; intros f' st a Hf Hf'; rewrite (scanEvents_step _ st a) by lia;
    destruct (nextCut a) as [[n k]|] eqn:E; try (by apply scanEvents_fuel); destruct (nextCut_bounds _ _ _ E) as [Hl Hk]; [lia|].
  rewrite scanEvents_step by done. rewrite (nextCut_app _ _ _ E). rewrite str_take_le, str_drop_le by lia. cbn [pred].
  rewrite slength_app in Hf'. apply IH; rewrite ?slength_app, !slength_drop; lia.
Qed.

(** Handlers that keep a relation keep it over the events. *)
Lemma scanEvents_related (R : responsesScan → responsesScan → Prop) f st st' s :
  (∀ st st' l, R st st' → R (responses_line tr st l) (responses_line tr st' l)) → R st st' →
  R (scanEvents f tr st s).1 (scanEvents f tr st' s).1 ∧ (scanEvents f tr st s).2 = (scanEvents f tr st' s).2.
Proof.
  intros Hh. revert st st' s. induction f as [|f IH]; intros st st' s HR; [done|]. cbn [scanEvents].
  destruct (nextSSEEvent s) as [[ev rest]|]; [|done]. apply IH. generalize (Split ev LF) as ls. intros ls. revert st st' HR.
  induction ls as [|l ls IHl]; intros st st' HR; [done|]. cbn. auto.
Qed.
End Events.

(** ** Usage *)

(** [Override] field by field. *)
Lemma Override_fields u o :
  Override u o = mkUsage (if inputTokenSet o then inputTokens o else inputTokens u) (if outputTokenSet o then outputTokens o else outputTokens u)
    (if totalTokenSet o then totalTokens o else totalTokens u) (if cachedInputTokenSet o then cachedInputTokens o else cachedInputTokens u)
    (if cacheCreationInputTokenSet o then cacheCreationInputTokens o else cacheCreationInputTokens u)
    (if reasoningTokenSet o then reasoningTokens o else reasoningTokens u)
    (inputTokenSet o || inputTokenSet u) (outputTokenSet o || outputTokenSet u) (totalTokenSet o || totalTokenSet u)
    (cachedInputTokenSet o || cachedInputTokenSet u) (cacheCreationInputTokenSet o || cacheCreationInputTokenSet u)
    (reasoningTokenSet o || reasoningTokenSet u).
Proof. destruct u, o as [? ? ? ? ? ? [][][][][][]]; reflexivity. Qed.

Lemma Override_assoc a b c : Override (Override a b) c = Override a (Override b c).
Proof.
  rewrite (Override_fields (Override a b)), (Override_fields a (Override b c)), (Override_fields a b), (Override_fields b c). cbn.
  f_equal; try apply orb_assoc; repeat case_match; done.
Qed.

Lemma Override_zero a : Override a zeroUsage = a.
Proof. done. Qed.

Lemma setUsage_Override t u : setUsage t u = Override t (setUsage zeroUsage u).
Proof. rewrite Override_fields. unfold setUsage. destruct t, (us_PromptTokensDetails u), (us_CompletionTokensDetails u); reflexivity. Qed.

Lemma setTokenUsageFromResponse_Override t r : setTokenUsageFromResponse t r = Override t (setTokenUsageFromResponse zeroUsage r).
Proof. rewrite Override_fields. unfold setTokenUsageFromResponse. destruct t, (rs_Usage r); reflexivity. Qed.

(** ** What a streaming translator promises *)

Definition concat_all (cs : list string) : string := foldr String.append "" cs.

Class Streaming {ReqT T Span : Type} `(TR : !Translator ReqT T Span) := {
  st_open : T → Prop;
  st_feed : option Span → T → string → T * TokenUsage * string;
  (** On a chunk it passes the bytes on and reports a usage and a model. *)
  st_respond sp t hs c eos :
    st_open t → tr_ResponseBody t hs (bytes_NewReader c) eos sp =
      ((st_feed sp t c).1.1, ([], None, (st_feed sp t c).1.2, (st_feed sp t c).2, None));
  st_keeps sp t c : st_open t → st_open (st_feed sp t c).1.1;
  (** Two chunks are one. *)
  st_cut sp t a b :
    st_open t →
    let '(t1, u1, _) := st_feed sp t a in
    let '(t2, u2, m2) := st_feed sp t1 b in
    let '(t12, u12, m12) := st_feed sp t (a +:+ b) in
    t2 = t12 ∧ m2 = m12 ∧ ∀ costs, Override (Override costs u1) u2 = Override costs u12;
}.

Section Feed.
Context {ReqT T Span : Type} `{TR : !Translator ReqT T Span} `{SL : !Streaming TR} (sp : option Span).

(** The state, the accumulated costs and the last model after some chunks. *)
Definition feedAll (t : T) (costs : TokenUsage) (model : string) (cs : list string) : T * TokenUsage * string :=
  foldl (λ '(t, costs, _) c, let '(t', u, m) := st_feed sp t c in (t', Override costs u, m)) (t, costs, model) cs.

Lemma feedAll_uncut t costs model c cs :
  st_open t →
  feedAll t costs model (c :: cs) =
    let '(t', u, m) := st_feed sp t (c +:+ concat_all cs) in (t', Override costs u, m).
Proof.
  revert t costs model c. induction cs as [|d cs IH]; intros t costs model c Ht.
  - unfold feedAll. cbn. rewrite sapp_nil_r. by destruct (st_feed sp t c) as [[t' u] m].
  - pose proof (st_cut sp t c (d +:+ concat_all cs) Ht) as Hcut. pose proof (st_keeps sp t c Ht) as Hk.
    unfold feedAll. cbn [foldl]. destruct (st_feed sp t c) as [[t1 u1] m1]. specialize (IH t1 (Override costs u1) m1 d Hk).
    unfold feedAll in IH. cbn [foldl] in IH. rewrite IH.
    change (concat_all (d :: cs)) with (d +:+ concat_all cs).
    destruct (st_feed sp t1 (d +:+ concat_all cs)) as [[t2 u2] m2]. destruct (st_feed sp t (c +:+ (d +:+ concat_all cs))) as [[t12 u12] m12]. destruct Hcut as (-> & -> & Hc). by rewrite Hc.
Qed.
End Feed.

(** ** The processor on a stream *)

Section Processor.
Context {ReqT T Span H Prog Codec : Type}.
Context `{TR : !Translator ReqT T Span, SL : !Streaming TR, !RequestTracer ReqT Span, !AuthHandler H}.
Context `{!CelEnv Prog, !Decompressors, !Sjson, !MetricsGetters}.

Notation up := (up (ReqT := ReqT) (T := T) (Span := Span) (H := H) (Prog := Prog) (Codec := Codec)).

(** The streamed answer of a good status, not compressed, with translator [t]; the
    configured costs evaluate. *)
Record open_stream (s : up) (t : T) : Prop := {
  os_local : rp_localReplyEmitted s.1 = false;
  os_terminated : u_responseStreamTerminated s.2 = false;
  os_stream : rp_stream s.1 = true;
  os_encoding : u_responseEncoding s.2 = "";
  os_status : good_status s.2 = true;
  os_translator : u_translator s.2 = Some t;
  os_costs : ∀ eos usage model (s' : up), rp_config s'.1 = rp_config s.1 → is_ok (responseMetadata eos usage model s') = true;
}.

(** The body of the chunk goes to the client as it is. *)
Definition passes (p : ProcessingResponse) : Prop := ∃ hm, pr_Response p = commonBody hm None.

Lemma decode_plain body : decodeContentIfNeeded body "" = Ok {| cd_reader := bytes_NewReader body; cd_isEncoded := false |}.
Proof. unfold decodeContentIfNeeded. by case_bool_decide. Qed.

(** The calls that report an answer: the last model that was set is [model], and the
    accumulated costs were recorded. *)
Definition modelCall (c : MetricsEvent) : option string := match c with MSetResponseModel m => Some m | _ => None end.
Definition reportedCalls (s : up) (model : string) : Prop :=
  last (omap modelCall (u_metrics s.2)) = Some model ∧ MRecordTokenUsage (u_costs s.2) (u_requestHeaders s.2) ∈ u_metrics s.2.

Lemma last_model l c : last (omap modelCall (l ++ [c])) = if modelCall c is Some m then Some m else last (omap modelCall l).
Proof. rewrite omap_app. cbn. destruct (modelCall c); cbn; [by rewrite last_snoc|by rewrite app_nil_r]. Qed.

Lemma chunk_step c (s : up) t :
  open_stream s t → st_open t →
  let '(t', u, m) := st_feed (rp_span s.1) t (default "" (hb_Body c)) in
  ∃ s' p, upstream_ProcessResponseBody c s = (s', Ok p) ∧ passes p ∧ open_stream s' t' ∧ rp_span s'.1 = rp_span s.1 ∧
    u_costs s'.2 = Override (u_costs s.2) u ∧ (hb_EndOfStream c = true → reportedCalls s' m).
Proof.
  intros [L E R Enc St Ht Hc] Ho. unfold upstream_ProcessResponseBody. rewrite L, E. unfold ProcessResponseBody_body. cbv zeta.
  rewrite R, Enc. cbn [andb bool_decide]. rewrite bool_decide_eq_false_2 by (by intros Hx; apply Hx).
  rewrite decode_plain. cbn [fst snd cd_reader cd_isEncoded]. rewrite Ht. unfold good_status in St. rewrite St. cbn [negb].
  rewrite st_respond by done. destruct (st_feed (rp_span s.1) t (default "" (hb_Body c))) as [[t' u] m] eqn:Ef. cbn [fst snd].
  destruct (mutationsFromTranslationResult [] None) as [hm bm] eqn:Em.
  assert (bm = None) as -> by (by injection Em as _ <-).
  set (s1 := metric (MSetResponseModel m) _). set (s2 := recordUsage (hb_EndOfStream c) s1).
  assert (rp_config s2.1 = rp_config s.1 ∧ rp_span s2.1 = rp_span s.1 ∧ rp_stream s2.1 = true ∧ rp_localReplyEmitted s2.1 = false ∧
    u_responseStreamTerminated s2.2 = false ∧ u_responseEncoding s2.2 = "" ∧ u_responseHeaders s2.2 = u_responseHeaders s.2 ∧
    u_translator s2.2 = Some t' ∧ u_costs s2.2 = Override (u_costs s.2) u) as (C1 & C2 & C3 & C4 & C5 & C6 & C7 & C8 & C9).
  { unfold s2, recordUsage. destruct (rp_stream s1.1); [destruct (hb_EndOfStream c)|]; cbn; rewrite ?Enc; done. }
  assert (hb_EndOfStream c = true → reportedCalls s2 m) as Hrep.
  { intros He. unfold s2, recordUsage, reportedCalls. rewrite He. change (rp_stream s1.1) with (rp_stream s.1). rewrite R. cbn.
    rewrite !last_model, !elem_of_app, !list_elem_of_singleton. auto. }
  clearbody s2. clear s1. pose proof (Hc (hb_EndOfStream c) u m s2 C1) as Hm.
  destruct (responseMetadata _ _ _ s2) as [md|e|p]; [|done..]. cbn [is_fail orb].
  assert (open_stream s2 t') as Hopen.
  { split; [done..| |done|]. { unfold good_status. by rewrite C7. } rewrite C1. exact Hc. }
  destruct (hb_EndOfStream c) eqn:He.
  - eexists _, _. split; [reflexivity|]. split; [by eexists|]. rewrite <-C9.
    destruct Hopen as [O1 O2 O3 O4 O5 O6 O7]. unfold spanCall, onR, recordCompletion, metric, onU. cbn.
    destruct (rp_span s2.1) eqn:Es; cbn; rewrite ?Es; (split; [by split|]); (split; [by rewrite <-C2|]); (split; [done|]); intros _;
      destruct (Hrep eq_refl); (split; [etransitivity; [apply last_model|done]|apply elem_of_app; by left]).
  - eexists _, _. split; [reflexivity|]. split; [by eexists|]. done.
Qed.

Definition bodies (cs : list HttpBody) : list string := (λ c, default "" (hb_Body c)) <$> cs.

Lemma run_stream cs last (s : up) t :
  open_stream s t → st_open t → hb_EndOfStream last = true →
  let '(t', costs, m) := feedAll (rp_span s.1) t (u_costs s.2) "" (bodies (cs ++ [last])) in
  ∃ s' ps, run_chunks (cs ++ [last]) s = (s', Ok ps) ∧ Forall passes ps ∧ u_translator s'.2 = Some t' ∧ u_costs s'.2 = costs ∧ reportedCalls s' m.
Proof.
  generalize "" as m0. revert s t. induction cs as [|c cs IH]; intros s t m0 Hs Ht Hlast.
  - unfold feedAll. cbn. pose proof (chunk_step last s t Hs Ht) as Hc. destruct (st_feed _ t _) as [[t' u] m].
    destruct Hc as (s' & p & -> & Hp & Hs' & _ & Hu & Hr). exists s', [p]. split_and!; [done|by constructor|by destruct Hs'|done|by apply Hr].
  - unfold feedAll. cbn. pose proof (chunk_step c s t Hs Ht) as Hc. pose proof (st_keeps (rp_span s.1) t (default "" (hb_Body c)) Ht) as Hk.
    destruct (st_feed _ t _) as [[t1 u1] m1]. destruct Hc as (s1 & p & -> & Hp & Hs1 & Hsp & Hu & _).
    specialize (IH s1 t1 m1 Hs1 Hk Hlast). unfold feedAll, bodies in IH. rewrite Hsp, Hu in IH.
    destruct (foldl _ _ _) as [[t' costs] m]. destruct IH as (s' & ps & -> & Hps & Htr & Hcosts & Hr).
    exists s', (p :: ps). split_and!; [done|by constructor|done..].
Qed.

Lemma stream_uncut cs last (s : up) t :
  open_stream s t → st_open t → hb_EndOfStream last = true →
  ∃ s' ps, run_chunks (cs ++ [last]) s = (s', Ok ps) ∧ Forall passes ps ∧ length ps = length (cs ++ [last]) ∧
    let '(t', u, m) := st_feed (rp_span s.1) t (concat_all (bodies (cs ++ [last]))) in
    u_translator s'.2 = Some t' ∧ u_costs s'.2 = Override (u_costs s.2) u ∧ reportedCalls s' m.
Proof.
  intros Hs Ht Hlast. pose proof (run_stream cs last s t Hs Ht Hlast) as Hr.
  assert (∃ b bs, bodies (cs ++ [last]) = b :: bs) as (b & bs & E) by (unfold bodies; destruct cs; cbn; eauto).
  rewrite E in Hr |- *. rewrite feedAll_uncut in Hr by done. change (concat_all (b :: bs)) with (b +:+ concat_all bs).
  destruct (st_feed _ t _) as [[t' u] m]. destruct Hr as (s' & ps & Hrun & Hps & Hrest). exists s', ps. split; [done|]. split; [done|]. split; [|done].
  clear -Hrun. revert s ps s' Hrun. generalize (cs ++ [last]) as l. induction l as [|c l IH]; intros s ps s'; cbn; [by intros [= _ <-]|].
  destruct (upstream_ProcessResponseBody c s) as [s1 [p|e|q]]; [|done..]. destruct (run_chunks l s1) as [s2 [ps'|e|q]] eqn:Er; [|done..].
  intros [= <- <-]. cbn. f_equal. by eapply IH.
Qed.
(** Two ways to cut one answer end with the same costs, the same translator state
    and the same reported model, and all its bytes go to the client as they are. *)
Definition cutsAgree (fresh : T → Prop) : Prop :=
  ∀ cs last cs' last' (s : up) t,
    open_stream s t → fresh t → hb_EndOfStream last = true → hb_EndOfStream last' = true →
    concat_all (bodies (cs ++ [last])) = concat_all (bodies (cs' ++ [last'])) →
    ∃ s1 ps1 s2 ps2 m, run_chunks (cs ++ [last]) s = (s1, Ok ps1) ∧ run_chunks (cs' ++ [last']) s = (s2, Ok ps2) ∧
      Forall passes ps1 ∧ length ps1 = length (cs ++ [last]) ∧ u_costs s1.2 = u_costs s2.2 ∧ u_translator s1.2 = u_translator s2.2 ∧
      reportedCalls s1 m ∧ reportedCalls s2 m.

Lemma streaming_cutsAgree fresh : (∀ t, fresh t → st_open t) → cutsAgree fresh.
Proof using SL.
  intros Hf cs last cs' last' s t Hs Ht Hl Hl' E. destruct (stream_uncut cs last s t Hs (Hf t Ht) Hl) as (s1 & ps1 & R1 & P1 & L1 & Hx).
  destruct (stream_uncut cs' last' s t Hs (Hf t Ht) Hl') as (s2 & ps2 & R2 & _ & _ & Hy). rewrite <-E in Hy.
  destruct (st_feed _ t _) as [[t' u] m]. destruct Hx as (T1 & C1 & M1), Hy as (T2 & C2 & M2). exists s1, ps1, s2, ps2, m. split_and!; congruence || done.
Qed.
End Processor.

(** ** The translators keep the promises *)

Section Instances.
Context {Span : Type} `{OJ : !OpenAIJson, AJ : !AnthropicJson, FC : !FloatConv, SJ : !Sjson}.

(** *** Chat completions *)

Definition chat_open (o : chatTranslator) : Prop := ct_stream o = true ∧ Contains (ct_buffered o) LF = false.

Definition chat_feed (sp : option Span) (o : chatTranslator) (c : string) : chatTranslator * TokenUsage * string :=
  let '(o, u) := chat_extractUsageFromBufferEvent (traced sp) (chat_append c o) in
  (o, u, cmp_Or (ct_streamingResponseModel o) (ct_requestModel o)).

(** The usage of a batch on top of an earlier one. *)
Lemma chat_scan_usage tr st u line a :
  let r := scanLines (chat_line tr) st line a in
  let r' := scanLines (chat_line tr) {| sc_model := sc_model st; sc_recorded := sc_recorded st; sc_usage := Override u (sc_usage st) |} line a in
  r'.2 = r.2 ∧ sc_model r'.1 = sc_model r.1 ∧ sc_recorded r'.1 = sc_recorded r.1 ∧ sc_usage r'.1 = Override u (sc_usage r.1).
Proof.
  cbv zeta. set (R := λ st' st : chatScan, sc_model st' = sc_model st ∧ sc_recorded st' = sc_recorded st ∧ sc_usage st' = Override u (sc_usage st)).
  destruct (scanLines_related (chat_line tr) R {| sc_model := sc_model st; sc_recorded := sc_recorded st; sc_usage := Override u (sc_usage st) |} st line a)
    as [HR Hr]; [|done|by split].
  intros s1 s2 l (Hm & Hrec & Hu). unfold chat_line. destruct (cutSSEDataPrefix l); [|done]. destruct (unmarshal_Chunk _) as [ev|]; [|done].
  unfold R. cbn. rewrite Hm, Hrec. split_and!; [done..|]. destruct (ck_Usage ev); [|done].
  rewrite setUsage_Override, Hu, Override_assoc. f_equal. by rewrite <-setUsage_Override.
Qed.

#[export, refine] Instance chat_Streaming : Streaming (chat_Translator (Span := Span)) := {| st_open := chat_open; st_feed := chat_feed |}.
Proof.
  - intros sp t hs c eos [Hs _]. cbn. unfold chat_ResponseBody, chat_feed. rewrite Hs. cbn [rd_err rd_data bytes_NewReader].
    by destruct (chat_extractUsageFromBufferEvent _ _) as [o u].
  - intros sp t c [Hs Hb]. unfold chat_feed, chat_extractUsageFromBufferEvent. cbn [ct_buffered chat_append].
    pose proof (scanLines_rest (chat_line (traced sp)) {| sc_model := ct_streamingResponseModel t; sc_recorded := ct_recorded t; sc_usage := zeroUsage |}
      "" (ct_buffered t +:+ c) eq_refl) as Hr. cbn. destruct (scanLines _ _ _ _) as [st rest]. by split.
  - intros sp t a b [Hs Hb]. unfold chat_feed, chat_extractUsageFromBufferEvent. cbn [ct_buffered chat_append ct_streamingResponseModel ct_recorded].
    set (st0 := {| sc_model := ct_streamingResponseModel t; sc_recorded := ct_recorded t; sc_usage := zeroUsage |}).
    pose proof (scanLines_resume (chat_line (traced sp)) st0 (ct_buffered t) a b Hb) as Hres. cbn.
    destruct (scanLines (chat_line (traced sp)) st0 "" (ct_buffered t +:+ a)) as [st1 rest1]. destruct Hres as [_ <-]. cbn.
    pose proof (chat_scan_usage (traced sp) {| sc_model := sc_model st1; sc_recorded := sc_recorded st1; sc_usage := zeroUsage |} (sc_usage st1) ""
      (rest1 +:+ b)) as Hu. cbv zeta in Hu. cbn [sc_model sc_recorded sc_usage] in Hu. rewrite Override_zero in Hu.
    assert (st1 = {| sc_model := sc_model st1; sc_recorded := sc_recorded st1; sc_usage := sc_usage st1 |}) as Heta by by destruct st1.
    rewrite <-Heta in Hu.
    destruct (scanLines _ {| sc_model := _ |} "" (rest1 +:+ b)) as [st2 rest2]. destruct (scanLines _ st1 "" (rest1 +:+ b)) as [st12 rest12].
    cbn in *. destruct Hu as (-> & -> & -> & Hu). split; [done|]. split; [done|]. intros costs. by rewrite Hu, Override_assoc.
Defined.

(** *** Completions *)

Definition completion_open (o : completionTranslator) : Prop := pt_stream o = true ∧ Contains (pt_buffered o) LF = false.

Definition completion_scan (o : completionTranslator) : completionScan :=
  {| cs_model := pt_streamingResponseModel o; cs_recorded := pt_recorded o; cs_usage := zeroUsage |}.

Definition completion_feed (sp : option Span) (o : completionTranslator) (c : string) : completionTranslator * TokenUsage * string :=
  let '(st, rest) := scanLines (completion_line (traced sp)) (completion_scan o) "" (pt_buffered o +:+ c) in
  (completion_set true rest (cs_model st) (cs_recorded st) o, cs_usage st, cs_model st).

Lemma completion_scan_usage tr st u line a :
  let r := scanLines (completion_line tr) st line a in
  let r' := scanLines (completion_line tr) {| cs_model := cs_model st; cs_recorded := cs_recorded st; cs_usage := Override u (cs_usage st) |} line a in
  r'.2 = r.2 ∧ cs_model r'.1 = cs_model r.1 ∧ cs_recorded r'.1 = cs_recorded r.1 ∧ cs_usage r'.1 = Override u (cs_usage r.1).
Proof.
  cbv zeta. set (R := λ st' st : completionScan, cs_model st' = cs_model st ∧ cs_recorded st' = cs_recorded st ∧ cs_usage st' = Override u (cs_usage st)).
  destruct (scanLines_related (completion_line tr) R {| cs_model := cs_model st; cs_recorded := cs_recorded st; cs_usage := Override u (cs_usage st) |} st line a)
    as [HR Hr]; [|done|by split].
  intros s1 s2 l (Hm & Hrec & Hu). unfold completion_line. destruct (cutSSEDataPrefix l); [|done]. case_bool_decide; [done|].
  destruct (unmarshal_Completion _) as [ev|]; [|done]. unfold R. cbn. rewrite Hm, Hrec. split_and!; [done..|]. destruct (co_Usage ev); [|done].
  rewrite setUsage_Override, Hu, Override_assoc. f_equal. by rewrite <-setUsage_Override.
Qed.

#[export, refine] Instance completion_Streaming : Streaming (completion_Translator (Span := Span)) :=
  {| st_open := completion_open; st_feed := completion_feed |}.
Proof.
  - intros sp t hs c eos [Hs _]. cbn. unfold completion_ResponseBody, completion_feed, completion_scan. rewrite Hs. cbn [rd_err rd_data bytes_NewReader].
    by destruct (scanLines _ _ _ _) as [st rest].
  - intros sp t c [Hs Hb]. unfold completion_feed.
    pose proof (scanLines_rest (completion_line (traced sp)) (completion_scan t) "" (pt_buffered t +:+ c) eq_refl) as Hr.
    destruct (scanLines _ _ _ _) as [st rest]. by split.
  - intros sp t a b [Hs Hb]. unfold completion_feed.
    pose proof (scanLines_resume (completion_line (traced sp)) (completion_scan t) (pt_buffered t) a b Hb) as Hres.
    destruct (scanLines (completion_line (traced sp)) (completion_scan t) "" (pt_buffered t +:+ a)) as [st1 rest1]. destruct Hres as [_ <-]. cbn.
    pose proof (completion_scan_usage (traced sp) {| cs_model := cs_model st1; cs_recorded := cs_recorded st1; cs_usage := zeroUsage |} (cs_usage st1) ""
      (rest1 +:+ b)) as Hu. cbv zeta in Hu. cbn [cs_model cs_recorded cs_usage] in Hu. rewrite Override_zero in Hu.
    assert (st1 = {| cs_model := cs_model st1; cs_recorded := cs_recorded st1; cs_usage := cs_usage st1 |}) as Heta by by destruct st1.
    rewrite <-Heta in Hu. unfold completion_scan. cbn.
    destruct (scanLines _ {| cs_model := _ |} "" (rest1 +:+ b)) as [st2 rest2]. destruct (scanLines _ st1 "" (rest1 +:+ b)) as [st12 rest12].
    cbn in *. destruct Hu as (-> & -> & -> & Hu). split; [done|]. split; [done|]. intros costs. by rewrite Hu, Override_assoc.
Defined.

(** *** Responses *)

Definition responses_scan (o : responsesTranslator) : responsesScan :=
  {| ps_model := rt_streamingResponseModel o; ps_recorded := rt_recorded o; ps_usage := zeroUsage |}.
Definition responses_scanned (st : responsesScan) (rest : string) (o : responsesTranslator) : responsesTranslator :=
  {| rt_modelNameOverride := rt_modelNameOverride o; rt_forceRequestBodyMutation := rt_forceRequestBodyMutation o; rt_path := rt_path o;
     rt_stream := true; rt_streamingResponseModel := ps_model st; rt_requestModel := rt_requestModel o; rt_buffered := rest;
     rt_recorded := ps_recorded st |}.

Definition responses_feed (sp : option Span) (o : responsesTranslator) (c : string) : responsesTranslator * TokenUsage * string :=
  let buffered := rt_buffered o +:+ c in
  let '(st, rest) := scanEvents (String.length buffered) (traced sp) (responses_scan o) buffered in
  (responses_scanned st rest o, ps_usage st, cmp_Or (ps_model st) (rt_requestModel o)).

Lemma responses_scan_usage tr f st u a :
  let r := scanEvents f tr st a in
  let r' := scanEvents f tr {| ps_model := ps_model st; ps_recorded := ps_recorded st; ps_usage := Override u (ps_usage st) |} a in
  r'.2 = r.2 ∧ ps_model r'.1 = ps_model r.1 ∧ ps_recorded r'.1 = ps_recorded r.1 ∧ ps_usage r'.1 = Override u (ps_usage r.1).
Proof.
  cbv zeta. set (R := λ st' st : responsesScan, ps_model st' = ps_model st ∧ ps_recorded st' = ps_recorded st ∧ ps_usage st' = Override u (ps_usage st)).
  destruct (scanEvents_related tr R f {| ps_model := ps_model st; ps_recorded := ps_recorded st; ps_usage := Override u (ps_usage st) |} st a)
    as [HR Hr]; [|done|by split].
  intros s1 s2 l (Hm & Hrec & Hu). unfold responses_line. destruct (cutSSEDataPrefix l); [|done]. case_match; [done|].
  destruct (unmarshal_ResponseEvent _) as [ev|]; [|done]. unfold R. cbn. rewrite Hm, Hrec. split_and!; [done..|].
  destruct ev; try done; by rewrite setTokenUsageFromResponse_Override, Hu, Override_assoc, <-setTokenUsageFromResponse_Override.
Qed.

#[export, refine] Instance responses_Streaming : Streaming (responses_Translator (Span := Span)) :=
  {| st_open o := rt_stream o = true; st_feed := responses_feed |}.
Proof.
  - intros sp t hs c eos Hs. cbn. unfold responses_ResponseBody, responses_feed, responses_scan. rewrite Hs. cbn [rd_err rd_data bytes_NewReader].
    by destruct (scanEvents _ _ _ _) as [st rest].
  - intros sp t c Hs. unfold responses_feed. by destruct (scanEvents _ _ _ _) as [st rest].
  - intros sp t a b Hs. unfold responses_feed. cbv zeta. rewrite (sapp_assoc (rt_buffered t) a b).
    rewrite (scanEvents_resume (traced sp) (String.length (rt_buffered t +:+ a)) (String.length ((rt_buffered t +:+ a) +:+ b))) by lia.
    destruct (scanEvents _ (traced sp) (responses_scan t) (rt_buffered t +:+ a)) as [st1 rest1].
    change (rt_buffered (responses_scanned st1 rest1 t)) with rest1.
    change (responses_scan (responses_scanned st1 rest1 t)) with {| ps_model := ps_model st1; ps_recorded := ps_recorded st1; ps_usage := zeroUsage |}.
    pose proof (responses_scan_usage (traced sp) (String.length (rest1 +:+ b))
      {| ps_model := ps_model st1; ps_recorded := ps_recorded st1; ps_usage := zeroUsage |} (ps_usage st1) (rest1 +:+ b)) as Hu.
    cbv zeta in Hu. cbn [ps_model ps_recorded ps_usage] in Hu. rewrite Override_zero in Hu.
    assert (st1 = {| ps_model := ps_model st1; ps_recorded := ps_recorded st1; ps_usage := ps_usage st1 |}) as Heta by by destruct st1.
    rewrite <-Heta in Hu.
    destruct (scanEvents _ _ {| ps_model := _ |} (rest1 +:+ b)) as [st2 rest2]. destruct (scanEvents _ _ st1 (rest1 +:+ b)) as [st12 rest12].
    cbn [fst snd] in Hu. destruct Hu as (-> & Hm & Hr & Hu). unfold responses_scanned. cbn. rewrite Hm, Hr. split; [done|]. split; [done|].
    intros costs. by rewrite Hu, Override_assoc.
Defined.

(** *** Messages *)

(** A counter that is not set is zero. *)
Definition unsetZero (t : TokenUsage) : Prop :=
  (inputTokenSet t = false → inputTokens t = 0%Z) ∧ (outputTokenSet t = false → outputTokens t = 0%Z) ∧
  (totalTokenSet t = false → totalTokens t = 0%Z) ∧ (cachedInputTokenSet t = false → cachedInputTokens t = 0%Z) ∧
  (cacheCreationInputTokenSet t = false → cacheCreationInputTokens t = 0%Z) ∧ (reasoningTokenSet t = false → reasoningTokens t = 0%Z).

(** Usages that differ only in what [updateTotalTokens] brings up to date. *)
Definition similar (t t' : TokenUsage) : Prop :=
  unsetZero t ∧ unsetZero t' ∧ inputTokens t = inputTokens t' ∧ outputTokens t = outputTokens t' ∧ cachedInputTokens t = cachedInputTokens t' ∧
  cacheCreationInputTokens t = cacheCreationInputTokens t' ∧ reasoningTokens t = reasoningTokens t' ∧
  outputTokenSet t = outputTokenSet t' ∧ reasoningTokenSet t = reasoningTokenSet t' ∧ (outputTokenSet t = false → t = t').

Lemma updateTotal_set t :
  unsetZero t → outputTokenSet t = true →
  updateTotalTokens t = mkUsage (inputTokens t) (outputTokens t) (uint32 (inputTokens t + outputTokens t)) (cachedInputTokens t)
    (cacheCreationInputTokens t) (reasoningTokens t) true true true true true (reasoningTokenSet t).
Proof.
  destruct t as [i o tt c cc r [] [] ts [] [] rs]; unfold unsetZero; cbn; intros (Hi & _ & _ & Hc & Hcc & _); try done; intros _;
    rewrite ?Hi, ?Hc, ?Hcc by done; done.
Qed.

Lemma updateTotal_unset t : outputTokenSet t = false → updateTotalTokens t = t.
Proof. unfold updateTotalTokens. intros ->. cbn. by rewrite andb_false_r. Qed.

Lemma updateTotal_wf t : unsetZero t → unsetZero (updateTotalTokens t).
Proof.
  intros Ht. destruct (outputTokenSet t) eqn:E; [|by rewrite updateTotal_unset]. rewrite updateTotal_set by done.
  unfold unsetZero in *. cbn. intuition discriminate.
Qed.

Lemma similar_update t t' : similar t t' → updateTotalTokens t = updateTotalTokens t'.
Proof.
  intros (Ht & Ht' & Hi & Ho & Hc & Hcc & Hr & Hos & Hrs & He). destruct (outputTokenSet t) eqn:E; [|by rewrite (He eq_refl)].
  rewrite !updateTotal_set by done. congruence.
Qed.

Lemma update_similar t : unsetZero t → similar (updateTotalTokens t) t.
Proof.
  intros Ht. destruct (outputTokenSet t) eqn:E.
  - pose proof (updateTotal_wf t Ht) as Hw. rewrite updateTotal_set in Hw |- * by done. unfold similar. cbn. by rewrite E.
  - rewrite updateTotal_unset by done. unfold similar. by rewrite E.
Qed.

Definition full (x : TokenUsage) : Prop :=
  inputTokenSet x = true ∧ outputTokenSet x = true ∧ totalTokenSet x = true ∧ cachedInputTokenSet x = true ∧ cacheCreationInputTokenSet x = true ∧
  reasoningTokenSet x = false.

Lemma extractUsage_full u : full (extractUsage u).
Proof. done. Qed.

Lemma Override_similar t t' x : full x → similar t t' → similar (Override t x) (Override t' x).
Proof.
  intros (F1 & F2 & F3 & F4 & F5 & F6) (Ht & Ht' & Hi & Ho & Hc & Hcc & Hr & Hos & Hrs & He). rewrite !Override_fields.
  unfold similar, unsetZero in *. rewrite F1, F2, F3, F4, F5, F6. cbn. rewrite Hr, Hrs. intuition discriminate.
Qed.

Lemma mergeDelta_similar u t t' : similar t t' → similar (mergeDelta u t) (mergeDelta u t').
Proof.
  intros Hs. unfold mergeDelta. set (t1 := if f64_nonneg _ then _ else t). set (t1' := if f64_nonneg _ then _ else t').
  assert (similar t1 t1') as (Ht & Ht' & Hi & Ho & Hc & Hcc & Hr & Hos & Hrs & He).
  { unfold t1, t1'. destruct (f64_nonneg _); [|done]. destruct Hs as (Ht & Ht' & Hi & Ho & Hc & Hcc & Hr & Hos & Hrs & He).
    unfold similar, unsetZero in *. cbn. intuition discriminate. }
  clearbody t1 t1'. destruct (_ || _); [|unfold similar; split_and!; auto].
  cbv zeta. rewrite Hi, Hc, Hcc. unfold similar, unsetZero in *. cbn. split_and!; try tauto; try congruence.
  intros E. specialize (He E). by subst t1'.
Qed.

(** What was set stays set. *)
Definition covers (t t' : TokenUsage) : Prop :=
  (inputTokenSet t → inputTokenSet t') ∧ (outputTokenSet t → outputTokenSet t') ∧ (totalTokenSet t → totalTokenSet t') ∧
  (cachedInputTokenSet t → cachedInputTokenSet t') ∧ (cacheCreationInputTokenSet t → cacheCreationInputTokenSet t') ∧
  (reasoningTokenSet t → reasoningTokenSet t').

Lemma covers_refl t : covers t t.
Proof. unfold covers. tauto. Qed.
Lemma covers_trans t1 t2 t3 : covers t1 t2 → covers t2 t3 → covers t1 t3.
Proof. unfold covers. tauto. Qed.
Lemma covers_Override t x : covers t (Override t x).
Proof. rewrite Override_fields. unfold covers. cbn. rewrite !orb_True. tauto. Qed.
Lemma covers_mergeDelta u t : covers t (mergeDelta u t).
Proof. unfold mergeDelta. destruct (f64_nonneg _), (_ || _); unfold covers; cbn; tauto. Qed.
Lemma covers_update t : covers t (updateTotalTokens t).
Proof. destruct t as [? ? ? ? ? ? [][][][][][]]; unfold covers; cbn; tauto. Qed.

Lemma covered_field (s s' : bool) (z z' : Z) :
  (s = false → z = 0%Z) → (s' = false → z' = 0%Z) → (s → s') → (if s' then z' else z) = z' ∧ s' || s = s'.
Proof. destruct s, s'; cbn; intros H H' Hc; split; try done; try (by destruct Hc); by rewrite H, H'. Qed.

Lemma Override_covered t t' : unsetZero t → unsetZero t' → covers t t' → Override t t' = t'.
Proof.
  intros (H1 & H2 & H3 & H4 & H5 & H6) (G1 & G2 & G3 & G4 & G5 & G6) (C1 & C2 & C3 & C4 & C5 & C6). rewrite Override_fields.
  destruct (covered_field _ _ _ _ H1 G1 C1) as [-> ->], (covered_field _ _ _ _ H2 G2 C2) as [-> ->], (covered_field _ _ _ _ H3 G3 C3) as [-> ->],
    (covered_field _ _ _ _ H4 G4 C4) as [-> ->], (covered_field _ _ _ _ H5 G5 C5) as [-> ->], (covered_field _ _ _ _ H6 G6 C6) as [-> ->].
  by destruct t'.
Qed.

Lemma mergeDelta_wf u t : unsetZero t → unsetZero (mergeDelta u t).
Proof. unfold mergeDelta, unsetZero. destruct (f64_nonneg _), (_ || _); cbn; intuition discriminate. Qed.

Lemma Override_unsetZero t x : unsetZero t → full x → unsetZero (Override t x).
Proof.
  intros Ht (F1 & F2 & F3 & F4 & F5 & F6). rewrite Override_fields. unfold unsetZero in *. rewrite F1, F2, F3, F4, F5, F6. cbn.
  intuition discriminate.
Qed.

#[local] Arguments Override : simpl never.
#[local] Arguments mergeDelta : simpl never.
#[local] Arguments extractUsage : simpl never.
#[local] Arguments updateTotalTokens : simpl never.

(** What a line leaves of the usage, and that it treats similar usages alike. *)
Definition scan_grows (st st' : messagesScan) : Prop := unsetZero (an_usage st') ∧ covers (an_usage st) (an_usage st').

Lemma messages_line_grows tr st line : unsetZero (an_usage st) → scan_grows st (messages_line tr st line).
Proof.
  intros Hw. unfold messages_line, scan_grows. destruct (cutSSEDataPrefix line); [|by split; [|apply covers_refl]].
  destruct (unmarshal_MessagesStreamChunk _) as [ev|]; [|by split; [|apply covers_refl]]. unfold reflectStreamingEvent, recordEvent. cbn.
  destruct (mc_MessageStart ev) as [m|]; cbn.
  - destruct (ms_Usage m) as [u|]; [|by split; [|apply covers_refl]]. split; [apply Override_unsetZero; [done|apply extractUsage_full]|apply covers_Override].
  - destruct (mc_MessageDelta ev); cbn; [|by split; [|apply covers_refl]]. split; [by apply mergeDelta_wf|apply covers_mergeDelta].
Qed.

Lemma messages_scan_grows tr st line a : unsetZero (an_usage st) → scan_grows st (scanLines (messages_line tr) st line a).1.
Proof.
  revert st line. induction a as [|c a IH]; intros st line Hw; [by split; [|apply covers_refl]|]. cbn [scanLines]. case_bool_decide; [|by apply IH].
  destruct (messages_line_grows tr st line Hw) as [Hw' Hc]. destruct (IH _ "" Hw') as [Hw'' Hc']. split; [done|]. by eapply covers_trans.
Qed.

Definition scan_similar (st st' : messagesScan) : Prop :=
  an_model st = an_model st' ∧ an_recorded st = an_recorded st' ∧ similar (an_usage st) (an_usage st').

Lemma messages_line_similar tr st st' line : scan_similar st st' → scan_similar (messages_line tr st line) (messages_line tr st' line).
Proof.
  intros (Hm & Hr & Hs). unfold messages_line. destruct (cutSSEDataPrefix line); [|done].
  destruct (unmarshal_MessagesStreamChunk _) as [ev|]; [|done]. unfold reflectStreamingEvent, recordEvent, scan_similar. cbn.
  destruct (mc_MessageStart ev) as [m|]; cbn.
  - rewrite Hm, Hr. split; [done|]. split; [done|]. destruct (ms_Usage m); [|done]. by apply Override_similar.
  - destruct (mc_MessageDelta ev); cbn; rewrite Hr; (split; [done|]); (split; [done|]); [by apply mergeDelta_similar|done].
Qed.

Definition messages_open (a : anthropicTranslator) : Prop :=
  at_stream a = true ∧ Contains (at_buffered a) LF = false ∧ unsetZero (at_streamingTokenUsage a).

Definition messages_feed (sp : option Span) (a : anthropicTranslator) (c : string) : anthropicTranslator * TokenUsage * string :=
  let '(st, rest) := scanLines (messages_line (traced sp)) (at_scan a) "" (at_buffered a +:+ c) in
  (at_scanned st (updateTotalTokens (an_usage st)) rest a, updateTotalTokens (an_usage st), cmp_Or (an_model st) (at_requestModel a)).

#[export, refine] Instance messages_Streaming : Streaming (messages_Translator (Span := Span)) :=
  {| st_open := messages_open; st_feed := messages_feed |}.
Proof.
  - intros sp t hs c eos [Hs _]. cbn. unfold at_ResponseBody, messages_feed. rewrite Hs. cbn [rd_err rd_data bytes_NewReader].
    by destruct (scanLines _ _ _ _) as [st rest].
  - intros sp t c (Hs & Hb & Hw). unfold messages_feed.
    pose proof (scanLines_rest (messages_line (traced sp)) (at_scan t) "" (at_buffered t +:+ c) eq_refl) as Hr.
    destruct (messages_scan_grows (traced sp) (at_scan t) "" (at_buffered t +:+ c) Hw) as [Hg _].
    destruct (scanLines _ _ _ _) as [st rest]. split; [done|]. split; [done|]. by apply updateTotal_wf.
  - intros sp t a b (Hs & Hb & Hw). unfold messages_feed.
    pose proof (scanLines_resume (messages_line (traced sp)) (at_scan t) (at_buffered t) a b Hb) as Hres.
    destruct (messages_scan_grows (traced sp) (at_scan t) "" (at_buffered t +:+ a) Hw) as [Hg _].
    destruct (scanLines (messages_line (traced sp)) (at_scan t) "" (at_buffered t +:+ a)) as [st1 rest1]. destruct Hres as [_ <-]. cbn [fst] in Hg.
    set (st1' := at_scan (at_scanned st1 (updateTotalTokens (an_usage st1)) rest1 t)). change (at_buffered (at_scanned _ _ rest1 _)) with rest1.
    destruct (scanLines_related (messages_line (traced sp)) scan_similar st1' st1 "" (rest1 +:+ b)) as [(Hm & Hrec & Hsim) Hrest].
    { intros ? ? l. apply messages_line_similar. }
    { split; [done|]. split; [done|]. by apply update_similar. }
    destruct (messages_scan_grows (traced sp) st1' "" (rest1 +:+ b)) as [Hg2 Hcov]; [by apply updateTotal_wf|].
    destruct (scanLines _ st1' "" (rest1 +:+ b)) as [st2 rest2]. destruct (scanLines _ st1 "" (rest1 +:+ b)) as [st12 rest12]. cbn in *.
    pose proof (similar_update _ _ Hsim) as Hup. subst rest2. unfold at_scanned. cbn. rewrite Hm, Hrec, <-Hup. split; [done|]. split; [done|].
    intros costs. rewrite Override_assoc. f_equal. apply Override_covered; [by apply updateTotal_wf|by apply updateTotal_wf|].
    eapply covers_trans; [exact Hcov|apply covers_update].
Defined.

(** *** Messages on GCP: the embedded translator reads the answer *)

Definition gcp_feed (sp : option Span) (a : gcpAnthropicTranslator) (c : string) : gcpAnthropicTranslator * TokenUsage * string :=
  let '(e, u, m) := messages_feed sp (ga_embedded a) c in
  ({| ga_embedded := e; ga_apiVersion := ga_apiVersion a; ga_modelNameOverride := ga_modelNameOverride a; ga_requestModel := ga_requestModel a;
      ga_anthropicBetas := ga_anthropicBetas a; ga_betaFilterMode := ga_betaFilterMode a; ga_betaFilterValues := ga_betaFilterValues a |}, u, m).

#[export, refine] Instance gcpMessages_Streaming : Streaming (gcpMessages_Translator (Span := Span)) :=
  {| st_open a := messages_open (ga_embedded a); st_feed := gcp_feed |}.
Proof.
  - intros sp t hs c eos Ht. pose proof (st_respond (Streaming := messages_Streaming) sp (ga_embedded t) hs c eos Ht) as Hr. cbn in Hr |- *.
    unfold ga_ResponseBody, gcp_feed. rewrite Hr. by destruct (messages_feed sp (ga_embedded t) c) as [[e u] m].
  - intros sp t c Ht. pose proof (st_keeps (Streaming := messages_Streaming) sp (ga_embedded t) c Ht) as Hk. cbn in Hk. unfold gcp_feed.
    by destruct (messages_feed sp (ga_embedded t) c) as [[e u] m].
  - intros sp t a b Ht. pose proof (st_cut (Streaming := messages_Streaming) sp (ga_embedded t) a b Ht) as Hc. cbn in Hc. unfold gcp_feed.
    destruct (messages_feed sp (ga_embedded t) a) as [[e1 u1] m1]. cbn. destruct (messages_feed sp e1 b) as [[e2 u2] m2].
    destruct (messages_feed sp (ga_embedded t) (a +:+ b)) as [[e12 u12] m12]. destruct Hc as (-> & -> & Hc). done.
Defined.

(** The model that is reported when the answer names none is a field of the
    embedded translator, and the request sets the field that shadows it. *)
Lemma gcp_fallback_model_unset version override raw req force :
  let a := (ga_RequestBody (NewAnthropicToGCPAnthropicTranslator version override) raw (Some req) force).1 in
  ga_requestModel a = cmp_Or override (mq_Model req) ∧ at_requestModel (ga_embedded a) = "".
Proof. cbn. by case_bool_decide. Qed.

(** A negative count of completion tokens is left out of an answer that is not
    streamed, and wraps in one that is. *)
Lemma negative_count_wraps_when_streamed usage :
  us_CompletionTokens usage = (-1)%Z →
  reported FOutput (setUsageChecked usage zeroUsage) = None ∧ reported FOutput (setUsage zeroUsage usage) = Some (2 ^ 32 - 1)%Z.
Proof.
  intros Hc. unfold setUsageChecked, setUsage, setNonNegative. rewrite Hc. cbn.
  split; repeat case_match; done.
Qed.
End Instances.

(** ** The network does not change what is counted *)

Section Cuts.
Context {Span H Prog Codec : Type} `{OJ : !OpenAIJson, AJ : !AnthropicJson, FC : !FloatConv}.
Context `{RT : ∀ ReqT, RequestTracer ReqT Span, !AuthHandler H, !CelEnv Prog, !Decompressors, !Sjson, !MetricsGetters}.

(** C3: the network does not change what is counted.  A streamed answer with a success
    status and no content encoding, while the configured costs evaluate
    ([open_stream]), read by a chat, completion, responses, messages or GCP messages
    translator that has read nothing yet, is passed to the client byte for byte; the
    costs and the model that are recorded at its end are the same for every way its
    bytes are cut into chunks.  Compressed answers are decoded chunk by chunk and are
    not covered. *)
Theorem usage_of_whole_stream :
  cutsAgree (T := chatTranslator) (Span := Span) (H := H) (Prog := Prog) (Codec := Codec) (λ t, ct_stream t = true ∧ ct_buffered t = "") ∧
  cutsAgree (T := completionTranslator) (Span := Span) (H := H) (Prog := Prog) (Codec := Codec) (λ t, pt_stream t = true ∧ pt_buffered t = "") ∧
  cutsAgree (T := responsesTranslator) (Span := Span) (H := H) (Prog := Prog) (Codec := Codec) (λ t, rt_stream t = true) ∧
  cutsAgree (T := anthropicTranslator) (Span := Span) (H := H) (Prog := Prog) (Codec := Codec)
    (λ t, at_stream t = true ∧ at_buffered t = "" ∧ at_streamingTokenUsage t = zeroUsage) ∧
  cutsAgree (T := gcpAnthropicTranslator) (Span := Span) (H := H) (Prog := Prog) (Codec := Codec)
    (λ t, at_stream (ga_embedded t) = true ∧ at_buffered (ga_embedded t) = "" ∧ at_streamingTokenUsage (ga_embedded t) = zeroUsage).
Proof.
  split_and!; apply streaming_cutsAgree; intros t; cbn.
  - intros [Hs Hb]. split; [done|]. by rewrite Hb.
  - intros [Hs Hb]. split; [done|]. by rewrite Hb.
  - done.
  - intros (Hs & Hb & Hz). split; [done|]. by rewrite Hb, Hz.
  - intros (Hs & Hb & Hz). split; [done|]. by rewrite Hb, Hz.
Qed.
End Cuts.
