(* ===== verification/Billing.v ===== *)
(** * What a streamed answer of messages costs

    The Anthropic stream reports its counts in pieces: the counts of the message
    start, then deltas whose missing counts are zero, with the cached tokens beside
    the input tokens.  The translator keeps one total of input tokens and takes it
    apart again at each delta.  [bill] is the account itself; the theorems show that
    the translator keeps it and that the processor records it. *)

From Stdlib Require Import Ascii ZArith Lia SpecFloat.
From stdpp Require Import base gmap strings list.
From S2P Require Import Prelude GoStrings GoNum InternalApi TokenUsage FilterApi HeaderMutator EnvoyTypes BackendAuth Costs ExtProc ExtProcProps Passthrough PassthroughProps.

(** ** The account *)

Record counts := { c_raw : Z; c_read : Z; c_creation : Z; c_out : Z }.
Definition noCounts : counts := {| c_raw := 0; c_read := 0; c_creation := 0; c_out := 0 |}.

(** A message start gives all counts, a delta those it changes. *)
Inductive billEvent := Start (c : counts) | Delta (c : counts).

Definition newer (n old : Z) : Z := if (0 <? n)%Z then n else old.

Definition bill (c : counts) (e : billEvent) : counts :=
  match e with
  | Start c' => c'
  | Delta d => {| c_raw := newer (c_raw d) (c_raw c); c_read := newer (c_read d) (c_read c); c_creation := newer (c_creation d) (c_creation c);
                  c_out := c_out d |}
  end.

Definition c_input (c : counts) : Z := (c_raw c + c_read c + c_creation c)%Z.

(** Counts of tokens: not negative, and the total fits 32 bits. *)
Definition countable (c : counts) : Prop :=
  (0 ≤ c_raw c ∧ 0 ≤ c_read c ∧ 0 ≤ c_creation c ∧ 0 ≤ c_out c ∧ c_input c + c_out c < 2 ^ 32)%Z.

(** Every state of the account is countable, and so are the events. *)
Fixpoint countableFrom (c : counts) (evs : list billEvent) : Prop :=
  match evs with
  | [] => True
  | e :: evs => countable (match e with Start d | Delta d => d end) ∧ countable (bill c e) ∧ countableFrom (bill c e) evs
  end.

(** What is reported for an account. *)
Definition usageOf (c : counts) : TokenUsage :=
  mkUsage (c_input c) (c_out c) (c_input c + c_out c) (c_read c) (c_creation c) 0 true true true true true false.

(** ** The events of a body *)

(** The conversions of Go on a number that the integer type has. *)
Class FloatConvLaws `{FC : !FloatConv} : Prop := {
  f64_to_int64_exact f z : f64_is_Z f z → (0 ≤ z < 2 ^ 63)%Z → f64_to_int64 f = z;
  f64_to_uint32_exact f z : f64_is_Z f z → (0 ≤ z < 2 ^ 32)%Z → f64_to_uint32 f = z;
}.

Definition counts_of (u : AnthropicUsage) (c : counts) : Prop :=
  f64_is_Z (au_Input u) (c_raw c) ∧ f64_is_Z (au_CacheRead u) (c_read c) ∧ f64_is_Z (au_CacheCreation u) (c_creation c) ∧
  f64_is_Z (au_Output u) (c_out c).

(** What an event of the stream says about the account. *)
Inductive says : MessagesStreamChunk → list billEvent → Prop :=
| says_start e m u c : mc_MessageStart e = Some m → ms_Usage m = Some u → counts_of u c → says e [Start c]
| says_start_only e m : mc_MessageStart e = Some m → ms_Usage m = None → says e []
| says_delta e d c : mc_MessageStart e = None → mc_MessageDelta e = Some d → counts_of (md_Usage d) c → says e [Delta c]
| says_nothing e : mc_MessageStart e = None → mc_MessageDelta e = None → says e [].

Section Billing.
Context {Span : Type} `{AJ : !AnthropicJson, FC : !FloatConv, FL : !FloatConvLaws}.

Definition eventOf (line : string) : option MessagesStreamChunk := data ← cutSSEDataPrefix line; unmarshal_MessagesStreamChunk data.

(** The complete lines of a body. *)
Definition linesOf (body : string) : list string := (scanLines (λ ls l, ls ++ [l]) [] "" body).1.
Definition eventsOf (body : string) : list MessagesStreamChunk := omap eventOf (linesOf body).

Lemma scanLines_fold {St} (handle : St → string → St) st body : (scanLines handle st "" body).1 = foldl handle st (linesOf body).
Proof.
  unfold linesOf. enough (∀ line ls st0, st = foldl handle st0 ls →
    (scanLines handle st line body).1 = foldl handle st0 (scanLines (λ ls l, ls ++ [l]) ls line body).1) as Hg by by apply Hg.
  revert st. induction body as [|c body IH]; intros st line ls st0 ->; [done|]. cbn [scanLines]. case_bool_decide; [|by apply IH].
  apply IH. by rewrite foldl_app.
Qed.

Lemma messages_scan_events tr st body :
  (scanLines (messages_line tr) st "" body).1 = foldl (λ st e, reflectStreamingEvent e (recordEvent tr e st)) st (eventsOf body).
Proof.
  rewrite scanLines_fold. unfold eventsOf. generalize (linesOf body) as ls. intros ls. revert st. induction ls as [|l ls IH]; intros st; [done|].
  cbn [foldl omap list_omap]. rewrite IH. unfold messages_line, eventOf. destruct (cutSSEDataPrefix l) as [d|]; cbn; [|done].
  by destruct (unmarshal_MessagesStreamChunk d).
Qed.

(** ** One event *)

(** The translator's usage keeps the account; some event came when [b]. *)
Definition keeps (b : bool) (t : TokenUsage) (c : counts) : Prop :=
  unsetZero t ∧ inputTokens t = c_input c ∧ outputTokens t = c_out c ∧ cachedInputTokens t = c_read c ∧ cacheCreationInputTokens t = c_creation c ∧
  reasoningTokens t = 0%Z ∧ outputTokenSet t = b ∧ reasoningTokenSet t = false ∧ (b = false → t = zeroUsage) ∧ countable c.

Lemma f64_pos_is_Z f z : f64_is_Z f z → (0 ≤ z)%Z → f64_pos f = (0 <? z)%Z.
Proof.
  destruct f as [s|s| |s m e]; cbn; [by intros ->|done..|]. intros [He Hm] Hz. unfold f64_pos, SFltb. cbn.
  assert (0 < 2 ^ (- e))%Z by (apply Z.pow_pos_nonneg; lia).
  destruct s; [assert (Z.neg m < 0)%Z by lia; nia|]. symmetry. apply Z.ltb_lt. assert (0 < Z.pos m)%Z by lia. nia.
Qed.

Lemma f64_nonneg_is_Z f z : f64_is_Z f z → (0 ≤ z)%Z → f64_nonneg f = true.
Proof.
  destruct f as [s|s| |s m e]; cbn; [by intros ->|done..|]. intros [He Hm] Hz. unfold f64_nonneg, SFleb. cbn.
  assert (0 < 2 ^ (- e))%Z by (apply Z.pow_pos_nonneg; lia). destruct s; [|done]. assert (Z.neg m < 0)%Z by lia. nia.
Qed.

Lemma keeps_start b t c u d :
  keeps b t c → counts_of u d → countable d → keeps true (Override t (extractUsage u)) d.
Proof.
  intros (Hw & _ & _ & _ & _ & Hr & _ & Hrs & _) (U1 & U2 & U3 & U4) Hd. destruct (Hd) as (D1 & D2 & D3 & D4 & D5). unfold c_input in D5.
  destruct (Extract_fields (f64_to_int64 (au_Input u)) (f64_to_int64 (au_Output u)) (Some (f64_to_int64 (au_CacheRead u)))
    (Some (f64_to_int64 (au_CacheCreation u)))) as (E1 & E2 & _ & E4 & E5 & _).
  pose proof (Override_unsetZero t (extractUsage u) Hw (extractUsage_full u)) as Hw'. fold (extractUsage u) in E1, E2, E4, E5.
  unfold reported in E1, E2, E4, E5. cbn -[extractUsage] in E1, E2, E4, E5.
  destruct (extractUsage_full u) as (F1 & F2 & F3 & F4 & F5 & F6). rewrite F1 in E1. rewrite F2 in E2. rewrite F4 in E4. rewrite F5 in E5.
  apply (inj Some) in E1, E2, E4, E5.
  unfold total_input in *. cbn [from_option id] in *.
  rewrite (f64_to_int64_exact _ _ U1), (f64_to_int64_exact _ _ U2), (f64_to_int64_exact _ _ U3), uint32_id in E1 by (unfold in_uint32; lia).
  rewrite (f64_to_int64_exact _ _ U4), uint32_id in E2 by (unfold in_uint32; lia).
  rewrite (f64_to_int64_exact _ _ U2), uint32_id in E4 by (unfold in_uint32; lia).
  rewrite (f64_to_int64_exact _ _ U3), uint32_id in E5 by (unfold in_uint32; lia).
  unfold keeps. split; [done|]. rewrite Override_fields, F1, F2, F3, F4, F5, F6. cbn -[extractUsage]. unfold c_input.
  split_and!; try done; lia.
Qed.

Lemma to_uint32_counted f z : f64_is_Z f z → (0 ≤ z < 2 ^ 32)%Z → f64_to_uint32 f = z.
Proof. apply f64_to_uint32_exact. Qed.

Lemma keeps_delta b t c u d :
  keeps b t c → counts_of u d → countable d → countable (bill c (Delta d)) → keeps true (mergeDelta u t) (bill c (Delta d)).
Proof.
  intros (Hw & Hi & Ho & Hc & Hcc & Hr & Hos & Hrs & Hb & Hcount) (U1 & U2 & U3 & U4) (D1 & D2 & D3 & D4 & D5) Hd.
  pose proof (mergeDelta_wf u t Hw) as Hw'. unfold keeps. split; [done|]. clear Hw'.
  destruct Hcount as (C1 & C2 & C3 & C4 & C5). destruct (Hd) as (B1 & B2 & B3 & B4 & B5). unfold c_input in *. cbn in B1, B2, B3, B4, B5.
  unfold mergeDelta. rewrite (f64_nonneg_is_Z _ _ U4 D4). rewrite (f64_pos_is_Z _ _ U1 D1), (f64_pos_is_Z _ _ U2 D2), (f64_pos_is_Z _ _ U3 D3).
  rewrite (to_uint32_counted _ _ U1), (to_uint32_counted _ _ U2), (to_uint32_counted _ _ U3), (to_uint32_counted _ _ U4) by lia.
  set (t1 := SetOutputTokens (c_out d) t).
  assert (uint32 (uint32 (inputTokens t1 - cachedInputTokens t1) - cacheCreationInputTokens t1) = c_raw c) as Hraw.
  { cbn. rewrite Hi, Hc, Hcc, !uint32_id; unfold in_uint32; rewrite ?uint32_id; unfold in_uint32; lia. }
  assert ((uint32 (cachedInputTokens t1 + cacheCreationInputTokens t1) <=? inputTokens t1)%Z = true) as Hle.
  { apply Z.leb_le. cbn. rewrite Hi, Hc, Hcc, uint32_id; unfold in_uint32; lia. }
  cbv zeta. rewrite Hle, Hraw. unfold newer in *.
  assert (inputTokens t1 = c_input c ∧ outputTokens t1 = c_out d ∧ cachedInputTokens t1 = c_read c ∧ cacheCreationInputTokens t1 = c_creation c ∧
    reasoningTokens t1 = 0%Z ∧ outputTokenSet t1 = true ∧ reasoningTokenSet t1 = false) as (T1 & T2 & T3 & T4 & T5 & T6 & T7) by done.
  clearbody t1. destruct (_ || _) eqn:Eany.
  - cbn. rewrite T3, T4. split_and!; try done. clear -B1 B2 B3 B4 B5. unfold c_input. cbn. unfold newer.
    generalize dependent (if (0 <? c_raw d)%Z then c_raw d else c_raw c). generalize dependent (if (0 <? c_read d)%Z then c_read d else c_read c).
    generalize dependent (if (0 <? c_creation d)%Z then c_creation d else c_creation c). intros. rewrite (uint32_id (_ + _)) by (unfold in_uint32; rewrite uint32_id; unfold in_uint32; lia).
    rewrite uint32_id by (unfold in_uint32; lia). done.
  - apply orb_false_iff in Eany as [Eany E3]. apply orb_false_iff in Eany as [E1 E2]. fold (bill c (Delta d)).
    assert (bill c (Delta d) = {| c_raw := c_raw c; c_read := c_read c; c_creation := c_creation c; c_out := c_out d |}) as Eb.
    { unfold bill, newer. by rewrite E1, E2, E3. }
    rewrite Eb in Hd |- *. unfold c_input. cbn. split_and!; done.
Qed.

(** ** The whole stream *)

Definition reflectAll (tr : bool) : messagesScan → list MessagesStreamChunk → messagesScan :=
  foldl (λ st e, reflectStreamingEvent e (recordEvent tr e st)).

Definition some {A} (l : list A) : bool := match l with [] => false | _ => true end.

Lemma some_app {A} (l l' : list A) : some (l ++ l') = some l || some l'.
Proof. by destruct l. Qed.

Lemma countableFrom_app c evs evs' : countableFrom c (evs ++ evs') ↔ countableFrom c evs ∧ countableFrom (foldl bill c evs) evs'.
Proof. revert c. induction evs as [|e evs IH]; intros c; cbn; [tauto|]. rewrite IH. tauto. Qed.

Lemma keeps_event tr b st c e evs :
  says e evs → countableFrom c evs → keeps b (an_usage st) c →
  keeps (b || some evs) (an_usage (reflectStreamingEvent e (recordEvent tr e st))) (foldl bill c evs).
Proof.
  intros Hs Hc Hk. unfold reflectStreamingEvent.
  destruct Hs as [e m u d Hm Hu Hd|e m Hm Hu|e d d' Hm Hd Hcs|e Hm Hd]; rewrite Hm; cbn -[Override extractUsage mergeDelta]; rewrite ?orb_false_r, ?orb_true_r.
  - rewrite Hu. destruct Hc as [Hc _]. by eapply keeps_start.
  - by rewrite Hu.
  - rewrite Hd. destruct Hc as (Hc & Hb & _). by eapply keeps_delta.
  - by rewrite Hd.
Qed.

Lemma keeps_events tr b st c chunks evss :
  Forall2 says chunks evss → countableFrom c (concat evss) → keeps b (an_usage st) c →
  keeps (b || some (concat evss)) (an_usage (reflectAll tr st chunks)) (foldl bill c (concat evss)).
Proof.
  intros Hs. revert b st c. induction Hs as [|e evs chunks evss He _ IH]; intros b st c Hc Hk; cbn; [by rewrite orb_false_r|].
  apply countableFrom_app in Hc as [Hc Hcs]. rewrite some_app, foldl_app, orb_assoc. apply IH; [done|]. by apply keeps_event.
Qed.

(** With the totals brought up to date, the usage is that of the account. *)
Lemma keeps_usage t c : keeps true t c → updateTotalTokens t = usageOf c.
Proof.
  intros (Hw & Hi & Ho & Hc & Hcc & Hr & Hos & Hrs & _ & Hcount). rewrite updateTotal_set by done. unfold usageOf.
  destruct Hcount as (C1 & C2 & C3 & C4 & C5). rewrite uint32_id; [congruence|]. rewrite Hi, Ho. unfold in_uint32, c_input in *. lia.
Qed.

Lemma keeps_none : keeps false zeroUsage noCounts.
Proof. unfold keeps, unsetZero, countable. cbn. split_and!; (done || lia). Qed.

Lemma messages_feed_billed (sp : option Span) a body evss :
  at_buffered a = "" → at_streamingTokenUsage a = zeroUsage → Forall2 says (eventsOf body) evss → concat evss ≠ [] →
  countableFrom noCounts (concat evss) → (messages_feed sp a body).1.2 = usageOf (foldl bill noCounts (concat evss)).
Proof.
  intros Hb Hz Hs Hne Hc. unfold messages_feed. pose proof (messages_scan_events (traced sp) (at_scan a) body) as Hscan.
  rewrite Hb, sapp_nil_l. destruct (scanLines _ _ _ _) as [st rest]. cbn in Hscan |- *. apply keeps_usage. rewrite Hscan.
  pose proof (keeps_events (traced sp) false (at_scan a) noCounts _ _ Hs Hc) as Hk. cbn in Hk. rewrite Hz in Hk. specialize (Hk keeps_none).
  destruct (concat evss); [done|]. exact Hk.
Qed.
End Billing.

Section Processor.
Context {Span H Prog Codec : Type} `{AJ : !AnthropicJson, FC : !FloatConv, FL : !FloatConvLaws}.
Context `{!RequestTracer MessagesRequest Span, !AuthHandler H, !CelEnv Prog, !Decompressors, !Sjson, !MetricsGetters}.

Notation up := (up (ReqT := MessagesRequest) (T := anthropicTranslator) (Span := Span) (H := H) (Prog := Prog) (Codec := Codec)).

(** C2: a streamed answer of messages is billed by its account.  When the answer has
    a success status and no content encoding, the configured costs evaluate, and its
    events report token counts whose totals fit 32 bits, and a fresh translator reads it
    from its start, then, however the bytes are cut into chunks, the costs the processor records at the end are those of the
    account: the latest input count with the cached and the cache creation tokens, the
    last output count, and their sum.  A compressed answer is not covered: a first
    chunk shorter than the gzip header fails it. *)
Theorem messages_stream_billed cs last (s : up) t evss :
  rp_stream s.1 = true → rp_localReplyEmitted s.1 = false → u_responseStreamTerminated s.2 = false → good_status s.2 = true →
  u_responseEncoding s.2 = "" →
  (∀ eos usage model (s' : up), rp_config s'.1 = rp_config s.1 → is_ok (responseMetadata eos usage model s') = true) →
  u_translator s.2 = Some t → at_stream t = true → at_buffered t = "" → at_streamingTokenUsage t = zeroUsage → u_costs s.2 = zeroUsage →
  hb_EndOfStream last = true → Forall2 says (eventsOf (concat_all (bodies (cs ++ [last])))) evss → concat evss ≠ [] →
  countableFrom noCounts (concat evss) →
  ∃ s' ps, run_chunks (cs ++ [last]) s = (s', Ok ps) ∧ Forall passes ps ∧
    u_costs s'.2 = usageOf (foldl bill noCounts (concat evss)) ∧
    MRecordTokenUsage (usageOf (foldl bill noCounts (concat evss))) (u_requestHeaders s'.2) ∈ u_metrics s'.2.
Proof.
  intros O1 O2 O3 O4 O5 O6 O7 Ht Hb Hz Hcosts Hlast Hsay Hne Hc.
  destruct (stream_uncut cs last s t) as (s' & ps & Hrun & Hps & _ & Hrest); [done| |done|].
  { split; [done|]. by rewrite Hb, Hz. }
  pose proof (messages_feed_billed (rp_span s.1) t _ evss Hb Hz Hsay Hne Hc) as Hbill. cbn in Hrest.
  destruct (messages_feed _ _ _) as [[t' u] m]. cbn in Hbill. subst u. destruct Hrest as (_ & Hcs & _ & Hrec). rewrite Hcosts in Hcs.
  exists s', ps. split; [done|]. split; [done|]. rewrite Hcs in Hrec |- *. done.
Qed.
End Processor.

(** ** An answer in three pieces *)

Module Sample.
Import ExtProcProps.Sample.
#[local] Existing Instances decompressors noauth cel sjson getters.

(** Truncation of a finite number. *)
Definition trunc (f : float64) : Z :=
  match f with
  | S754_finite s m e => (if s then -1 else 1) * (if (0 <=? e)%Z then Z.pos m * 2 ^ e else Z.pos m / 2 ^ (- e))
  | _ => 0
  end%Z.

#[local] Instance conv : FloatConv := {| f64_to_int64 := trunc; f64_to_uint32 := trunc |}.
Lemma trunc_exact f z : f64_is_Z f z → (0 ≤ z)%Z → trunc f = z.
Proof.
  destruct f as [s|s| |s m e]; cbn -[Z.leb Z.opp Z.mul Z.pow Z.div]; [done|done|done|]. intros [He Hm] Hz.
  assert (0 < 2 ^ (- e))%Z as Hp by (apply Z.pow_pos_nonneg; lia).
  destruct s; [assert (Z.neg m < 0)%Z by lia; nia|]. rewrite Z.mul_1_l, Hm. destruct (0 <=? e)%Z eqn:E.
  - apply Z.leb_le in E. assert (e = 0%Z) as -> by lia. cbn. lia.
  - by rewrite Z.div_mul by lia.
Qed.
#[local] Instance convLaws : FloatConvLaws.
Proof. split; cbn; intros f z Hf [Hz _]; by apply trunc_exact. Qed.

(** The text of an event is its type; a start counts 10 tokens of input, 3 read from
    the cache and 2 written to it, a delta counts 7 tokens of output. *)
Definition startUsage : AnthropicUsage :=
  {| au_CacheCreation := f64_of_Z 2; au_CacheRead := f64_of_Z 3; au_Input := f64_of_Z 10; au_Output := f64_of_Z 1 |}.
Definition deltaUsage : AnthropicUsage :=
  {| au_CacheCreation := f64_of_Z 0; au_CacheRead := f64_of_Z 5; au_Input := f64_of_Z 0; au_Output := f64_of_Z 7 |}.
#[local] Instance json : AnthropicJson :=
  {| json_value s := Some s; gjson_type s := Some s; gjson_message s := s;
     decode_MessageStart _ := Some {| ms_Model := "claude"; ms_Usage := Some startUsage |};
     unmarshal_MessageDelta _ := Some {| md_Usage := deltaUsage |}; unmarshal_part _ _ := true;
     decode_MessagesResponse _ := inr (errors_New "not streamed"); marshal_AnthropicError _ := Ok "" |}.

#[local] Instance endpoint : EndpointSpec MessagesRequest anthropicTranslator :=
  {| eh_ParseBody _ _ := Ok ("claude", {| mq_Model := "claude"; mq_Stream := true |}, true, None);
     eh_ParseMultipartBody _ _ _ := Fail (errors_New "no multipart");
     eh_GetTranslator _ _ := Ok (NewAnthropicToAnthropicTranslator "v1" "") |}.
#[local] Instance tracer : RequestTracer MessagesRequest unit :=
  {| StartSpanAndInjectHeaders _ _ _ := (Some tt, []); isBackendSpan _ := true |}.

Definition noCosts : RuntimeConfig unit unit unit :=
  {| rt_UUID := "id"; rt_GlobalRequestCosts := []; rt_RequestCosts := []; rt_DeclaredModels := []; rt_ModelsByHost := ∅; rt_UnscopedModels := [];
     rt_Backends := ∅; rt_FileIDCodec := None |}.

(** The processor once the headers of the answer are in. *)
Definition opened :=
  let '(r, _) := router_ProcessRequestBody (newRouterProcessor noCosts clientHeaders false false) {| hb_Body := Some "{}"; hb_EndOfStream := true |} in
  let '(s, _) := upstream_SetBackend 0 backend "ns/r" (r, newUpstreamProcessor clientHeaders) in
  let '(s, _) := upstream_ProcessRequestHeaders map_to_list map_to_list map_to_list ∅ None s in
  let '(s, _) := upstream_ProcessResponseHeaders [(":status", "200", "")] s in s.
Definition opened_translator : anthropicTranslator := default (NewAnthropicToAnthropicTranslator "" "") (u_translator opened.2).

Lemma opened_stream : open_stream opened opened_translator.
Proof.
  split; [vm_compute; reflexivity..|]. intros eos usage model s' Hs. unfold responseMetadata. rewrite Hs.
  change (rp_config opened.1) with noCosts. cbn. by rewrite andb_false_r.
Qed.

Definition line (s : string) : string := "data: " +:+ s +:+ String LF "".
Definition pieces : list HttpBody :=
  [{| hb_Body := Some "data: message_"; hb_EndOfStream := false |};
   {| hb_Body := Some ("start" +:+ String LF (line "ping" +:+ "da")); hb_EndOfStream := false |}].
Definition lastPiece : HttpBody := {| hb_Body := Some ("ta: message_delta" +:+ String LF ""); hb_EndOfStream := true |}.

#[local] Instance openai : OpenAIJson :=
  {| unmarshal_Chunk _ := None; decode_ChatResponse _ := inl None; unmarshal_Completion _ := inr (errors_New "no");
     decode_Embedding _ := inr (errors_New "no"); decode_Response _ := inr (errors_New "no"); unmarshal_ResponseEvent _ := None;
     marshal_Error _ := Ok "" |}.
#[local] Instance anyTracer ReqT : RequestTracer ReqT unit :=
  {| StartSpanAndInjectHeaders _ _ _ := (Some tt, []); isBackendSpan _ := true |}.

(** The answer in three pieces and in one. *)
Definition whole : HttpBody := {| hb_Body := Some (concat_all (bodies (pieces ++ [lastPiece]))); hb_EndOfStream := true |}.

Lemma usage_of_whole_stream_witness :
  ∃ s1 ps1 s2 ps2, run_chunks (pieces ++ [lastPiece]) opened = (s1, Ok ps1) ∧ run_chunks [whole] opened = (s2, Ok ps2) ∧
    u_costs s1.2 = u_costs s2.2 ∧ u_costs s2.2 = mkUsage 17 7 24 5 2 0 true true true true true false ∧ reportedCalls s1 "claude".
Proof.
  destruct (usage_of_whole_stream (Span := unit) (H := unit) (Prog := unit) (Codec := unit)) as (_ & _ & _ & Hm & _).
  destruct (Hm pieces lastPiece [] whole opened opened_translator) as (s1 & ps1 & s2 & ps2 & m & R1 & R2 & _ & _ & C & _ & M1 & M2);
    [exact opened_stream|vm_compute; split_and!; done|reflexivity|reflexivity|vm_compute; reflexivity|].
  exists s1, ps1, s2, ps2. split; [exact R1|]. split; [exact R2|]. split; [exact C|].
  assert ((u_costs (run_chunks [whole] opened).1.2, last (omap modelCall (u_metrics (run_chunks [whole] opened).1.2))) =
    (mkUsage 17 7 24 5 2 0 true true true true true false, Some "claude")) as E by (vm_compute; reflexivity).
  cbn [app] in R2. rewrite R2 in E. cbn [fst] in E. injection E as -> E. split; [done|]. destruct M2 as [M2 _].
  assert (m = "claude") as <- by congruence. exact M1.
Defined.
Definition startCounts : counts := {| c_raw := 10; c_read := 3; c_creation := 2; c_out := 1 |}.
Definition deltaCounts : counts := {| c_raw := 0; c_read := 5; c_creation := 0; c_out := 7 |}.

Lemma messages_stream_billed_witness :
  ∃ s' ps, run_chunks (pieces ++ [lastPiece]) opened = (s', Ok ps) ∧ u_costs s'.2 = mkUsage 17 7 24 5 2 0 true true true true true false.
Proof.
  destruct (messages_stream_billed pieces lastPiece opened opened_translator [[Start startCounts]; []; [Delta deltaCounts]])
    as (s' & ps & Hrun & _ & Hc & _); [| | | | |exact (os_costs _ _ opened_stream)|..]; [vm_compute; reflexivity..| | | |].
  - assert (eventsOf (concat_all (bodies (pieces ++ [lastPiece]))) =
      [{| mc_Type := "message_start"; mc_MessageStart := Some {| ms_Model := "claude"; ms_Usage := Some startUsage |}; mc_MessageDelta := None |};
       {| mc_Type := "ping"; mc_MessageStart := None; mc_MessageDelta := None |};
       {| mc_Type := "message_delta"; mc_MessageStart := None; mc_MessageDelta := Some {| md_Usage := deltaUsage |} |}]) as ->
      by (vm_compute; reflexivity).
    apply Forall2_cons; split; [|apply Forall2_cons; split; [|apply Forall2_cons; split; [|by constructor]]].
    + eapply says_start; [done..|]. split_and!; by apply f64_of_Z_exact.
    + by apply says_nothing.
    + eapply says_delta; [done..|]. split_and!; by apply f64_of_Z_exact.
  - done.
  - cbn. unfold countable, c_input. cbn. lia.
  - exists s', ps. by split.
Defined.
End Sample.
