(* ===== verification/Redaction.v ===== *)
(** * Keeping secrets out of the logs

    Models [internal/redaction/redaction.go] and the redaction helpers of
    [internal/extproc/server.go] ([isSensitiveHeader] to
    [redactImmediateResponse]).  A decoded JSON value is [JSON]; the members of
    an object are a list whose order no theorem depends on.  SHA-256 is an
    argument. *)

From Stdlib Require Import ZArith.
From stdpp Require Import base gmap strings list.
From S2P Require Import Prelude GoStrings InternalApi FilterApi EnvoyTypes BackendAuth ExtProc.

(** ** Content *)

(** The shapes [encoding/json] produces for [any]. *)
Inductive JSON :=
| JNull
| JBool (b : bool)
| JNumber (n : string)
| JString (s : string)
| JArray (l : list JSON)
| JObject (l : list (string * JSON)).

Section Content.
Context (sha256 : string → string).

Definition ComputeContentHash (s : string) : string := str_take 16 (hex_EncodeToString (sha256 s)).

Definition RedactString (s : string) : string :=
  if bool_decide (s = "") then ""
  else "[REDACTED LENGTH=" +:+ itoa (String.length s) +:+ " HASH=" +:+ ComputeContentHash s +:+ "]".

Fixpoint RedactJSONTree (v : JSON) : JSON :=
  match v with
  | JString s => JString (RedactString s)
  | JArray l => JArray (map RedactJSONTree l)
  | JObject l =>
      JObject (map (λ '(k, e), if bool_decide (k = "type") then (k, e) else (k, RedactJSONTree e)) l)
  | JNull | JBool _ | JNumber _ => v
  end.

(** [redactBodyMutation]: an absent or empty body is kept. *)
Definition redactBodyMutation (bodyMutation : option BodyMutation) : option BodyMutation :=
  match bodyMutation with
  | Some {| bmut_Body := Some b |} =>
      if bool_decide (b = "") then bodyMutation else Some {| bmut_Body := Some (RedactString b) |}
  | _ => bodyMutation
  end.
End Content.

(** ** Headers *)

Definition sensitiveHeaderKeys : list string := ["authorization"; "x-api-key"; "api-key"; "x-amz-security-token"].
Definition sensitiveHeaderRedactedValue : string := "[REDACTED]".
Definition awsCredentialHeaderSuffixes : list string := ["-access-key-id"; "-secret-access-key"; "-session-token"].

Definition isSensitiveHeader (key : string) (sensitiveKeys : list string) : bool :=
  let lower := ToLower key in
  if bool_decide (lower ∈ sensitiveKeys) || HasPrefix lower "x-aigw-" then true
  else existsb (HasSuffix lower) awsCredentialHeaderSuffixes.

(** A log attribute, [None] for the zero [slog.Attr]. *)
Definition filterSensitiveHeadersForLogging (headers : HeaderMap) (sensitiveKeys : list string) :
    list (option (string * string)) :=
  (λ '(key, value, rawValue),
    if isSensitiveHeader key sensitiveKeys then Some (key, sensitiveHeaderRedactedValue)
    else if bool_decide (value ≠ "") then Some (key, value)
    else if utf8_Valid rawValue then Some (key, rawValue)
    else None) <$> headers.

(** The copy of a redacted header keeps its key only. *)
Definition redactHeaderMutation (original : option HeaderMutation) (sensitiveKeys : list string) : HeaderMutation :=
  let m := default emptyHeaderMutation original in
  {| hmut_RemoveHeaders := hmut_RemoveHeaders m;
     hmut_SetHeaders := (λ h,
       if isSensitiveHeader (hvo_Key h) sensitiveKeys
       then {| hvo_AppendAction := APPEND_IF_EXISTS_OR_ADD; hvo_Key := hvo_Key h;
               hvo_RawValue := sensitiveHeaderRedactedValue |}
       else h) <$> hmut_SetHeaders m |}.

Section Responses.
Context (sha256 : string → string).

(** The copy of the message under [RequestHeaders], [RequestBody] and
    [ResponseBody]: the status is dropped, the body is redacted on demand. *)
Definition redactCommon (r : option (option CommonResponse)) (sensitiveKeys : list string) (redactBody : bool) :
    option (option CommonResponse) :=
  match r with
  | Some (Some c) =>
      Some (Some {| cm_HeaderMutation := Some (redactHeaderMutation (cm_HeaderMutation c) sensitiveKeys);
                    cm_BodyMutation := if redactBody then redactBodyMutation sha256 (cm_BodyMutation c)
                                       else cm_BodyMutation c;
                    cm_Status := CONTINUE; cm_ClearRouteCache := cm_ClearRouteCache c |})
  | _ => None
  end.

Definition redactProcessingResponseRequestHeaders := redactCommon.
Definition redactRequestBodyResponse := redactCommon.
Definition redactResponseBodyResponseFull (r : option (option CommonResponse)) (sensitiveKeys : list string) :=
  redactCommon r sensitiveKeys true.

Definition redactImmediateResponse (r : ImmediateResponse) (sensitiveKeys : list string) : ImmediateResponse :=
  {| im_Status := im_Status r; im_Headers := redactHeaderMutation (Some (im_Headers r)) sensitiveKeys;
     im_Body := im_Body r; im_GrpcStatus := im_GrpcStatus r |}.
End Responses.

(** ** Properties *)

(** What a handler of [internal/backendauth] injects is redacted in the
    debug logs: the only headers of its result that are logged in clear are the
    rewritten path, the OpenAI organization and project, and the SigV4 headers
    other than the session token. *)
Theorem credential_headers_redacted `{!CloudAuth} h ctx hs body l o :
  (Do h ctx hs body).2 = Ok l →
  o ∈ hmut_SetHeaders (redactHeaderMutation
        (Some {| hmut_SetHeaders := overwrite <$> l; hmut_RemoveHeaders := [] |}) sensitiveHeaderKeys) →
  hvo_RawValue o = sensitiveHeaderRedactedValue ∨
  hvo_Key o ∈ [":path"; openAIOrganizationHeader; openAIProjectHeader] ∨
  (HasPrefix (hvo_Key o) "X-Amz-" = true ∧ EqualFold (hvo_Key o) "X-Amz-Security-Token" = false).
Proof.
  intros Hl Ho. apply Do_names in Hl. simpl in Ho.
  apply list_elem_of_fmap in Ho as (o' & -> & Ho'). apply list_elem_of_fmap in Ho' as ([k v] & -> & Hkv).
  simpl. destruct (isSensitiveHeader k sensitiveHeaderKeys) eqn:E; [by left|right]. simpl.
  rewrite Forall_forall in Hl. destruct (Hl k) as [Hk|Hk].
  - apply list_elem_of_fmap. by exists (k, v).
  - left. rewrite !elem_of_cons, elem_of_nil in Hk.
    destruct Hk as [->|[->|[->|[->|[->|[->|[]]]]]]]; try (vm_compute in E; discriminate); set_solver.
  - right. split; [done|]. unfold EqualFold. apply bool_decide_eq_false. intros Hf.
    unfold isSensitiveHeader in E. rewrite Hf in E. vm_compute in E. discriminate.
Qed.

(** The per-request AWS credential headers are redacted under every prefix
    that ends in a dash. *)
Theorem aws_override_headers_sensitive prefix keys :
  let '(a, s, t) := AWSCredentialOverrideHeaderNames (prefix +:+ "-") in
  isSensitiveHeader a keys = true ∧ isSensitiveHeader s keys = true ∧ isSensitiveHeader t keys = true.
Proof.
  assert (∀ suffix, suffix ∈ awsCredentialHeaderSuffixes → ToLower suffix = suffix →
    isSensitiveHeader (prefix +:+ suffix) keys = true) as Hs.
  { intros suffix Hin Hlow. unfold isSensitiveHeader. destruct (_ || _); [done|].
    apply existsb_exists. exists suffix. split; [by apply list_elem_of_In|].
    rewrite ToLower_app, Hlow. apply HasSuffix_app. }
  simpl. rewrite <-!sapp_assoc. split_and!; apply Hs; try reflexivity; set_solver.
Qed.

(** And are not under a prefix without one: the secret access key of a
    policy whose prefix is [awscred] is logged in clear. *)
Theorem aws_override_headers_leak :
  let '(_, s, _) := AWSCredentialOverrideHeaderNames "awscred" in isSensitiveHeader s sensitiveHeaderKeys = false.
Proof. vm_compute. reflexivity. Qed.

(** The string leaves a redacted tree must not show: those not under a key [type]. *)
Fixpoint user_strings (v : JSON) : list string :=
  match v with
  | JString s => [s]
  | JArray l => flat_map user_strings l
  | JObject l => flat_map (λ '(k, e), if bool_decide (k = "type") then [] else user_strings e) l
  | _ => []
  end.

(** Induction through the nested lists. *)
Fixpoint JSON_nested_ind (P : JSON → Prop)
    (Hn : P JNull) (Hb : ∀ b, P (JBool b)) (Hnum : ∀ n, P (JNumber n)) (Hs : ∀ s, P (JString s))
    (Ha : ∀ l, Forall P l → P (JArray l)) (Ho : ∀ l, Forall (λ p, P p.2) l → P (JObject l)) (v : JSON) : P v :=
  match v with
  | JNull => Hn
  | JBool b => Hb b
  | JNumber n => Hnum n
  | JString s => Hs s
  | JArray l =>
      Ha l ((fix go l : Forall P l :=
               match l with
               | [] => Forall_nil_2 _
               | x :: l => Forall_cons_2 _ _ _ (JSON_nested_ind P Hn Hb Hnum Hs Ha Ho x) (go l)
               end) l)
  | JObject l =>
      Ho l ((fix go l : Forall (λ p, P p.2) l :=
               match l with
               | [] => Forall_nil_2 _
               | (k, x) :: l => Forall_cons_2 (λ p, P p.2) (k, x) l (JSON_nested_ind P Hn Hb Hnum Hs Ha Ho x) (go l)
               end) l)
  end.

(** Redaction replaces every string leaf outside a [type] member, in place,
    and keeps everything else. *)
Theorem RedactJSONTree_leaves sha256 v :
  user_strings (RedactJSONTree sha256 v) = RedactString sha256 <$> user_strings v.
Proof.
  induction v as [| | |s|l IH|l IH] using JSON_nested_ind; try done.
  - simpl. induction IH as [|x l Hx _ IH]; simpl; [done|]. by rewrite Hx, IH, fmap_app.
  - simpl. induction IH as [|[k x] l Hx _ IH]; simpl; [done|]. simpl in Hx.
    destruct (bool_decide (k = "type")) eqn:E; simpl; rewrite E; [done|]. by rewrite Hx, IH, fmap_app.
Qed.

(** A member named [type] is kept whole, whatever it holds: user text below
    such a key reaches the log in clear. *)
Theorem RedactJSONTree_type_leak sha256 secret :
  RedactJSONTree sha256 (JObject [("type", JObject [("note", JString secret)])]) =
    JObject [("type", JObject [("note", JString secret)])].
Proof. reflexivity. Qed.

#[local] Existing Instance testCloud.

Lemma credential_headers_redacted_witness :
  let l := [("Authorization", "Bearer secret")] in
  (Do (apiKeyHandler "secret") None ∅ "").2 = Ok l ∧
  ∀ o, o ∈ hmut_SetHeaders (redactHeaderMutation
        (Some {| hmut_SetHeaders := overwrite <$> l; hmut_RemoveHeaders := [] |}) sensitiveHeaderKeys) →
    hvo_RawValue o = sensitiveHeaderRedactedValue ∨
    hvo_Key o ∈ [":path"; openAIOrganizationHeader; openAIProjectHeader] ∨
    (HasPrefix (hvo_Key o) "X-Amz-" = true ∧ EqualFold (hvo_Key o) "X-Amz-Security-Token" = false).
Proof.
  split; [reflexivity|]. intros o.
  apply (credential_headers_redacted (apiKeyHandler "secret") None ∅ "").
  reflexivity.
Defined.
