(* ===== verification/Server.v ===== *)
(** * The external processor server

    Models [internal/extproc/server.go] without its logging: processor lookup,
    backend selection, and the [Process] loop of one stream on the state all
    streams share, the map from internal request ids to router processors.
    Processors are objects on a store, addressed by number; their methods are
    the class [ProcessorOps].  The map is accessed under a mutex, so a message
    of one stream is handled in one step; [system] interleaves the steps of any
    number of streams. *)

From Stdlib Require Import ZArith.
From stdpp Require Import base gmap strings list.
From S2P Require Import Prelude GoStrings InternalApi FilterApi EnvoyTypes BackendAuth ExtProc.

(** ** Attributes *)

(** [status.Error(codes.Internal, msg)] as an error. *)
Definition statusError (msg : string) : error := errors_New ("rpc error: code = Internal desc = " +:+ msg).

Definition resolveBackendName (isEndpointPicker : bool) (attributes : Struct) : outcome string :=
  let backendNamePath :=
    if isEndpointPicker then XDSClusterMetadataBackendNamePath else XDSUpstreamHostMetadataBackendNamePath in
  let missing := Fail (statusError ("missing backend name in attributes at path: " +:+ backendNamePath)) in
  match attributes !! backendNamePath with
  | Some b => Ok (GetStringValue (Some b))
  | None =>
      if negb isEndpointPicker then
        match attributes !! XDSClusterMetadataBackendNamePath with
        | Some b => Ok (GetStringValue (Some b))
        | None => missing
        end
      else missing
  end.

Definition resolveRouteName (attributes : Struct) : string :=
  match attributes !! XDSRouteMetadataRouteNamePath with
  | Some routeName => GetStringValue (Some routeName)
  | None => ""
  end.

Definition setUpstreamHostAttributes (headers : gmap string string) (attributes : option Struct) :
    gmap string string :=
  let headers := delete UpstreamHostHeader headers in
  match attributes with
  | None => headers
  | Some fields =>
      match fields !! XDSUpstreamHostMetadataUpstreamHostPath with
      | Some v =>
          let host := GetStringValue (Some v) in
          if bool_decide (host ≠ "") then <[UpstreamHostHeader := host]> headers else headers
      | None => headers
      end
  end.

(** ** Messages and results *)

(** The messages of a stream.  [attributes] is nil for the router filter; the
    struct under the filter's name may be absent. *)
Inductive ProcessingRequest :=
| ReqRequestHeaders (headers : option HeaderMap) (attributes : option (gmap string Struct))
    (metadata : option Metadata)
| ReqRequestBody (b : HttpBody)
| ReqResponseHeaders (headers : HeaderMap)
| ReqResponseBody (b : HttpBody)
| ReqOther (goType : string).

(** One turn of the loop: send a response and go on, or return a gRPC status,
    possibly after sending a response. *)
Inductive loop_result :=
| LoopSend (resp : ProcessingResponse)
| LoopReturn (sent : option ProcessingResponse) (code : Z) (msg : string).

Definition codes_Unknown : Z := 2.
Definition codes_NotFound : Z := 5.
Definition codes_Internal : Z := 13.

Definition internalReqIDHeader : string := EnvoyAIGatewayHeaderPrefix +:+ "internal-req-id".
Definition extProcAttributes : string := "envoy.filters.http.ext_proc".

(** [Processor]: the methods update the receiver; [SetBackend] also updates the
    router processor it is given. *)
Class ProcessorOps (P H : Type) := {
  p_ProcessRequestHeaders : P → context → option HeaderMap → P * outcome ProcessingResponse;
  p_ProcessRequestBody : P → context → HttpBody → P * outcome ProcessingResponse;
  p_ProcessResponseHeaders : P → context → HeaderMap → P * outcome ProcessingResponse;
  p_ProcessResponseBody : P → context → HttpBody → P * outcome ProcessingResponse;
  p_SetBackend : P → context → RuntimeBackend H → string → P → P * P * outcome unit;
}.

Section Server.
Context {P H Prog Codec : Type} `{!ProcessorOps P H}.

(** [ProcessorFactory], applied to the server's configuration. *)
Definition ProcessorFactory : Type := RuntimeConfig H Prog Codec → gmap string string → bool → bool → outcome P.

Record Server := {
  sv_enableRedaction : bool;
  sv_config : RuntimeConfig H Prog Codec;
  sv_processorFactories : gmap string ProcessorFactory;
  sv_prefixProcessorFactories : list (string * ProcessorFactory);
}.

Definition Register (path : string) (newProcessor : ProcessorFactory) (s : Server) : Server :=
  {| sv_enableRedaction := sv_enableRedaction s; sv_config := sv_config s;
     sv_processorFactories := <[path := newProcessor]> (sv_processorFactories s);
     sv_prefixProcessorFactories := sv_prefixProcessorFactories s |}.

Definition RegisterPrefix (prefix : string) (newProcessor : ProcessorFactory) (s : Server) : Server :=
  {| sv_enableRedaction := sv_enableRedaction s; sv_config := sv_config s;
     sv_processorFactories := sv_processorFactories s;
     sv_prefixProcessorFactories := sv_prefixProcessorFactories s ++ [(prefix, newProcessor)] |}.

(** [LoadConfig]: a configuration that cannot be built leaves the old one. *)
Definition LoadConfig (newRuntimeConfig : Config → outcome (RuntimeConfig H Prog Codec)) (config : Config) (s : Server) :
    Server * outcome unit :=
  match owrap "cannot create runtime filter config: " (newRuntimeConfig config) with
  | Ok newConfig =>
      ({| sv_enableRedaction := sv_enableRedaction s; sv_config := newConfig;
          sv_processorFactories := sv_processorFactories s;
          sv_prefixProcessorFactories := sv_prefixProcessorFactories s |}, Ok tt)
  | Fail e => (s, Fail e)
  | Panic p => (s, Panic p)
  end.

(** ** Processor lookup *)

Definition stripQuery (path : string) : string :=
  match Index path "?" with Some i => str_take i path | None => path end.

Definition matchesPrefix (path prefix : string) : bool :=
  bool_decide (path = prefix) || HasPrefix path (prefix +:+ "/").

(** [for i := range s.prefixProcessorFactories]: the best so far and its length. *)
Definition prefixBody {F : Type} (path : string) (best : option F * Z) (pf : string * F) : option F * Z :=
  if matchesPrefix path pf.1 && bool_decide (best.2 < Z.of_nat (String.length pf.1))%Z
  then (Some pf.2, Z.of_nat (String.length pf.1))
  else best.

Definition factoryForPath {F : Type} (exact : gmap string F) (prefixes : list (string * F)) (path : string) : option F :=
  match exact !! path with
  | Some f => Some f
  | None => (foldl (prefixBody path) (None, -1)%Z prefixes).1
  end.

Definition processorForPath (s : Server) (requestHeaders : gmap string string) (isUpstreamFilter : bool) : outcome P :=
  let pathHeader := if isUpstreamFilter then OriginalPathHeader else ":path" in
  let path := stripQuery (mget requestHeaders pathHeader) in
  match factoryForPath (sv_processorFactories s) (sv_prefixProcessorFactories s) path with
  | Some newProcessor => newProcessor (sv_config s) requestHeaders isUpstreamFilter (sv_enableRedaction s)
  | None => Fail (Err ("no processor registered for the given path: " +:+ path) [ErrNoProcessor])
  end.

(** ** The [Process] loop *)

(** What all streams share: the processors and the map of router processors. *)
Record shared := {
  sh_procs : gmap nat P;
  sh_next : nat;
  sh_routerProcessorsPerReqID : gmap string nat;
}.

(** The locals of one [Process] call: no processor stands for [passThroughProcessor]. *)
Record stream_local := {
  lo_p : option nat;
  lo_isUpstreamFilter : bool;
  lo_internalReqID : string;
}.

Definition initialLocal : stream_local :=
  {| lo_p := None; lo_isUpstreamFilter := false; lo_internalReqID := "" |}.

Definition setProc (a : nat) (p : P) (sh : shared) : shared :=
  {| sh_procs := <[a := p]> (sh_procs sh); sh_next := sh_next sh;
     sh_routerProcessorsPerReqID := sh_routerProcessorsPerReqID sh |}.

Definition allocProc (p : P) (sh : shared) : nat * shared :=
  (sh_next sh,
   {| sh_procs := <[sh_next sh := p]> (sh_procs sh); sh_next := S (sh_next sh);
      sh_routerProcessorsPerReqID := sh_routerProcessorsPerReqID sh |}).

Definition setRouterMap (m : gmap string nat) (sh : shared) : shared :=
  {| sh_procs := sh_procs sh; sh_next := sh_next sh; sh_routerProcessorsPerReqID := m |}.

(** [p] is the address of the upstream processor. *)
Definition setBackend (s : Server) (ctx : context) (p : nat) (internalReqID : string) (isEndpointPicker : bool)
    (attributes : option Struct) (sh : shared) : shared * outcome unit :=
  match attributes with
  | None => (sh, Fail (statusError "missing attributes in request"))
  | Some fields =>
      if bool_decide (fields = ∅) then (sh, Fail (statusError "missing attributes in request"))
      else
        match resolveBackendName isEndpointPicker fields with
        | Fail e => (sh, Fail e)
        | Panic m => (sh, Panic m)
        | Ok backendName =>
            let routeName := resolveRouteName fields in
            match rt_Backends (sv_config s) !! backendName with
            | None => (sh, Fail (statusError ("unknown backend: " +:+ backendName)))
            | Some backend =>
                match sh_routerProcessorsPerReqID sh !! internalReqID with
                | None => (sh, Fail (statusError ("no router processor found, request_id=" +:+ internalReqID +:+
                                                  ", backend=" +:+ backendName)))
                | Some r =>
                    match sh_procs sh !! p, sh_procs sh !! r with
                    | Some pv, Some rv =>
                        let '(pv, rv, res) := p_SetBackend pv ctx backend routeName rv in
                        (setProc p pv (setProc r rv sh),
                         match res with
                         | Fail e => Fail (statusError ("cannot set backend: " +:+ err_msg e))
                         | res => res
                         end)
                    | _, _ => (sh, Panic "nil processor")
                    end
                end
            end
        end
  end.

(** Adds the internal request id to a router filter's header response. *)
Definition injectReqID (internalReqID : string) (resp : ProcessingResponse) : ProcessingResponse :=
  match pr_Response resp with
  | RespRequestHeaders r =>
      let c := default {| cm_HeaderMutation := None; cm_BodyMutation := None; cm_Status := CONTINUE;
                          cm_ClearRouteCache := false |} (mjoin r) in
      let hm := default emptyHeaderMutation (cm_HeaderMutation c) in
      {| pr_Response := RespRequestHeaders (Some (Some
           {| cm_HeaderMutation := Some (carrier_Set hm (internalReqIDHeader, internalReqID));
              cm_BodyMutation := cm_BodyMutation c; cm_Status := cm_Status c;
              cm_ClearRouteCache := cm_ClearRouteCache c |}));
         pr_DynamicMetadata := pr_DynamicMetadata resp; pr_StreamedMode := pr_StreamedMode resp |}
  | _ => resp
  end.

(** Calls a method of the processor at an address, or of [passThroughProcessor]. *)
Definition callProc (p : option nat) (method : P → P * outcome ProcessingResponse)
    (passThrough : ProcessingResponse) (sh : shared) : shared * outcome ProcessingResponse :=
  match p with
  | None => (sh, Ok passThrough)
  | Some a =>
      match sh_procs sh !! a with
      | None => (sh, Panic "nil processor")
      | Some pv => let '(pv, r) := method pv in (setProc a pv sh, r)
      end
  end.

Definition processMsg (lo : stream_local) (req : ProcessingRequest) (sh : shared) :
    shared * outcome ProcessingResponse :=
  let wrap what (x : shared * outcome ProcessingResponse) := (x.1, owrap what x.2) in
  match req with
  | ReqRequestHeaders headers _ metadata =>
      let ctx := WithEnvoyMetadata None metadata in
      let '(sh, r) := wrap "cannot process request headers: "
        (callProc (lo_p lo) (λ p, p_ProcessRequestHeaders p ctx headers) passThroughRequestHeaders sh) in
      (sh, match r with
           | Ok resp => if negb (lo_isUpstreamFilter lo) then Ok (injectReqID (lo_internalReqID lo) resp) else r
           | r => r
           end)
  | ReqRequestBody b =>
      wrap "cannot process request body: "
        (callProc (lo_p lo) (λ p, p_ProcessRequestBody p None b) (plainResponse (RespRequestBody None)) sh)
  | ReqResponseHeaders headers =>
      wrap "cannot process response headers: "
        (callProc (lo_p lo) (λ p, p_ProcessResponseHeaders p None headers) passThroughResponseHeaders sh)
  | ReqResponseBody b =>
      wrap "cannot process response body: "
        (callProc (lo_p lo) (λ p, p_ProcessResponseBody p None b) passThroughResponseBody sh)
  | ReqOther goType => (sh, Fail (errors_New ("unknown request type: " +:+ goType)))
  end.

(** The tail of a turn: process the message and send the response. *)
Definition finishTurn (lo : stream_local) (req : ProcessingRequest) (sh : shared) :
    stream_local * shared * loop_result :=
  let '(sh, r) := processMsg lo req sh in
  match r with
  | Ok resp => (lo, sh, LoopSend resp)
  | Fail e => (lo, sh, LoopReturn None codes_Unknown ("error processing request message: " +:+ err_msg e))
  | Panic m => (lo, sh, LoopReturn None codes_Unknown m)
  end.

Definition notFoundResponse (path : string) : ProcessingResponse :=
  plainResponse (RespImmediate
    {| im_Status := 404; im_Headers := emptyHeaderMutation; im_Body := "unsupported path: " +:+ path;
       im_GrpcStatus := codes_NotFound |}).

(** One turn of the loop, with the value [uuidFn] would return. *)
Definition turn (s : Server) (uuid : string) (req : ProcessingRequest) (lo : stream_local) (sh : shared) :
    stream_local * shared * loop_result :=
  match req with
  | ReqRequestHeaders (Some headers) attributes _ =>
      let headersMap := headersToMap headers in
      let originalReqID := mget headersMap "x-request-id" in
      let isUpstreamFilter := bool_decide (is_Some attributes) in
      let attrs := attributes ≫= (λ a, a !! extProcAttributes) in
      let internalReqID :=
        if isUpstreamFilter then mget headersMap internalReqIDHeader else originalReqID +:+ "-" +:+ uuid in
      let lo := {| lo_p := lo_p lo; lo_isUpstreamFilter := isUpstreamFilter; lo_internalReqID := internalReqID |} in
      if isUpstreamFilter && bool_decide (internalReqID = "") then
        (lo, sh, LoopReturn None codes_Internal "missing internal request ID header from router filter")
      else
        let headersMap := if isUpstreamFilter then setUpstreamHostAttributes headersMap attrs else headersMap in
        match processorForPath s headersMap isUpstreamFilter with
        | Panic m => (lo, sh, LoopReturn None codes_Unknown m)
        | Fail e =>
            if errors_Is e ErrNoProcessor then
              let path := mget headersMap ":path" in
              (lo, sh, LoopReturn (Some (notFoundResponse path)) codes_NotFound ("unsupported path: " +:+ path))
            else (lo, sh, LoopReturn None codes_NotFound (err_msg e))
        | Ok p =>
            let '(a, sh) := allocProc p sh in
            let lo := {| lo_p := Some a; lo_isUpstreamFilter := isUpstreamFilter; lo_internalReqID := internalReqID |} in
            let isEndpointPicker := bool_decide (is_Some (headersMap !! EndpointPickerHeaderKey)) in
            if isUpstreamFilter then
              match setBackend s None a internalReqID isEndpointPicker attrs sh with
              | (sh, Ok _) => finishTurn lo req sh
              | (sh, Fail e) =>
                  (lo, sh, LoopReturn None codes_Unknown ("error processing request message: " +:+ err_msg e))
              | (sh, Panic m) => (lo, sh, LoopReturn None codes_Unknown m)
              end
            else
              finishTurn lo req (setRouterMap (<[internalReqID := a]> (sh_routerProcessorsPerReqID sh)) sh)
        end
  | _ => finishTurn lo req sh
  end.

(** The deferred cleanup of [Process]. *)
Definition closeStream (lo : stream_local) (sh : shared) : shared :=
  if negb (lo_isUpstreamFilter lo)
  then setRouterMap (delete (lo_internalReqID lo) (sh_routerProcessorsPerReqID sh)) sh
  else sh.

(** ** Streams running side by side *)

(** The live streams, the shared state, and the UUIDs drawn so far. *)
Record system := {
  sy_streams : gmap nat stream_local;
  sy_shared : shared;
  sy_uuids : gset string;
}.

Definition is_headers (req : ProcessingRequest) : bool :=
  match req with ReqRequestHeaders (Some _) _ _ => true | _ => false end.

(** Envoy sends the request headers first, once per stream. *)
Definition in_order (req : ProcessingRequest) (lo : stream_local) : Prop :=
  is_headers req = true → lo = initialLocal.

Inductive sys_step (s : Server) : system → system → Prop :=
| sys_open i y :
    sy_streams y !! i = None →
    sys_step s y {| sy_streams := <[i := initialLocal]> (sy_streams y);
                    sy_shared := sy_shared y; sy_uuids := sy_uuids y |}
| sys_turn i y lo req uuid lo' sh' resp :
    sy_streams y !! i = Some lo → in_order req lo →
    uuid ∉ sy_uuids y → String.length uuid = 36 →
    turn s uuid req lo (sy_shared y) = (lo', sh', LoopSend resp) →
    sys_step s y {| sy_streams := <[i := lo']> (sy_streams y);
                    sy_shared := sh'; sy_uuids := {[uuid]} ∪ sy_uuids y |}
| sys_return i y lo req uuid lo' sh' sent code msg :
    sy_streams y !! i = Some lo → in_order req lo →
    uuid ∉ sy_uuids y → String.length uuid = 36 →
    turn s uuid req lo (sy_shared y) = (lo', sh', LoopReturn sent code msg) →
    sys_step s y {| sy_streams := delete i (sy_streams y);
                    sy_shared := closeStream lo' sh'; sy_uuids := {[uuid]} ∪ sy_uuids y |}
| sys_end i y lo :
    sy_streams y !! i = Some lo →
    sys_step s y {| sy_streams := delete i (sy_streams y);
                    sy_shared := closeStream lo (sy_shared y); sy_uuids := sy_uuids y |}.

Definition initialSystem : system :=
  {| sy_streams := ∅;
     sy_shared := {| sh_procs := ∅; sh_next := 0; sh_routerProcessorsPerReqID := ∅ |};
     sy_uuids := ∅ |}.

(** The reachable states. *)
Inductive reachable (s : Server) : system → Prop :=
| reachable_init : reachable s initialSystem
| reachable_step y y' : reachable s y → sys_step s y y' → reachable s y'.

(** A router stream that has its processor. *)
Definition routes (lo : stream_local) (id : string) (a : nat) : Prop :=
  lo_isUpstreamFilter lo = false ∧ lo_internalReqID lo = id ∧ lo_p lo = Some a.

Definition drawn_id (uuids : gset string) (id : string) : Prop :=
  ∃ orig uuid, uuid ∈ uuids ∧ String.length uuid = 36 ∧ id = orig +:+ "-" +:+ uuid.

(** The map holds exactly the router processors of the live router streams. *)
Record sys_inv (y : system) : Prop := {
  inv_map id a :
    sh_routerProcessorsPerReqID (sy_shared y) !! id = Some a ↔
    ∃ i lo, sy_streams y !! i = Some lo ∧ routes lo id a;
  inv_ids id a : sh_routerProcessorsPerReqID (sy_shared y) !! id = Some a → drawn_id (sy_uuids y) id;
  inv_unique i j lo lo' id a a' :
    sy_streams y !! i = Some lo → sy_streams y !! j = Some lo' →
    routes lo id a → routes lo' id a' → i = j;
  inv_fresh i lo : sy_streams y !! i = Some lo → lo_p lo = None → lo_isUpstreamFilter lo = false →
    lo_internalReqID lo = "";
  inv_addr id a : sh_routerProcessorsPerReqID (sy_shared y) !! id = Some a → a < sh_next (sy_shared y);
}.

(** ** What a turn does to the map *)

Definition same_map (sh sh' : shared) : Prop :=
  sh_routerProcessorsPerReqID sh' = sh_routerProcessorsPerReqID sh ∧ sh_next sh' = sh_next sh.

Lemma callProc_map p method pt sh : same_map sh (callProc p method pt sh).1.
Proof.
  unfold callProc. destruct p as [a|]; [|done]. destruct (sh_procs sh !! a); [|done]. by destruct (method _).
Qed.

Lemma processMsg_map lo req sh : same_map sh (processMsg lo req sh).1.
Proof. destruct req; simpl; try apply callProc_map. done. Qed.

Lemma finishTurn_map lo req sh :
  (finishTurn lo req sh).1.1 = lo ∧ same_map sh (finishTurn lo req sh).1.2.
Proof.
  unfold finishTurn. pose proof (processMsg_map lo req sh) as Hm.
  destruct (processMsg lo req sh) as [sh' [r|e|m]]; done.
Qed.

Lemma setBackend_map s ctx p id ep attrs sh : same_map sh (setBackend s ctx p id ep attrs sh).1.
Proof.
  unfold setBackend. destruct attrs as [fields|]; [|done]. case_bool_decide; [done|].
  destruct (resolveBackendName ep fields) as [b| |]; [|done..].
  destruct (rt_Backends (sv_config s) !! b) as [be|]; [|done].
  destruct (sh_routerProcessorsPerReqID sh !! id) as [r|]; [|done].
  destruct (sh_procs sh !! p), (sh_procs sh !! r); try done. by destruct (p_SetBackend _ _ _ _ _) as [[] ?].
Qed.

(** The four ways a turn can end, by what it does to the map and the locals. *)
Inductive turn_effect (uuid : string) (req : ProcessingRequest) (lo : stream_local) (sh : shared)
    (lo' : stream_local) (sh' : shared) (r : loop_result) : Prop :=
| effect_none : is_headers req = false → lo' = lo → same_map sh sh' → turn_effect uuid req lo sh lo' sh' r
| effect_upstream :
    is_headers req = true → lo_isUpstreamFilter lo' = true →
    sh_routerProcessorsPerReqID sh' = sh_routerProcessorsPerReqID sh → sh_next sh ≤ sh_next sh' →
    turn_effect uuid req lo sh lo' sh' r
| effect_rejected orig :
    is_headers req = true → (∃ sent code msg, r = LoopReturn sent code msg) →
    lo' = {| lo_p := lo_p lo; lo_isUpstreamFilter := false; lo_internalReqID := orig +:+ "-" +:+ uuid |} →
    sh' = sh → turn_effect uuid req lo sh lo' sh' r
| effect_registered orig :
    is_headers req = true →
    lo' = {| lo_p := Some (sh_next sh); lo_isUpstreamFilter := false; lo_internalReqID := orig +:+ "-" +:+ uuid |} →
    sh_routerProcessorsPerReqID sh' =
      <[orig +:+ "-" +:+ uuid := sh_next sh]> (sh_routerProcessorsPerReqID sh) →
    sh_next sh' = S (sh_next sh) → turn_effect uuid req lo sh lo' sh' r.

Lemma turn_has_effect s uuid req lo sh lo' sh' r :
  turn s uuid req lo sh = (lo', sh', r) → turn_effect uuid req lo sh lo' sh' r.
Proof.
  assert (∀ req, is_headers req = false → finishTurn lo req sh = (lo', sh', r) →
    turn_effect uuid req lo sh lo' sh' r) as Hother.
  { intros req' Hreq Hf. pose proof (finishTurn_map lo req' sh) as Hm. rewrite Hf in Hm. destruct Hm. by apply effect_none. }
  destruct req as [[headers|] attributes md|b|hd|b|]; unfold turn; try (by apply Hother).
  clear Hother. set (orig := mget (headersToMap headers) "x-request-id").
  destruct attributes as [attrs|]; cbn [bool_decide]; cbv zeta.
  - rewrite (bool_decide_true (is_Some _)) by eauto. simpl andb. case_bool_decide.
    { intros [= <- <- <-]. by apply effect_upstream. }
    destruct (processorForPath s _ true) as [p|e|m]; [|destruct (errors_Is e _)|];
      [|intros [= <- <- <-]; by apply effect_upstream..].
    destruct (allocProc p sh) as [a sh1] eqn:Ea. injection Ea as <- <-.
    match goal with |- context [setBackend s None ?a ?id ?ep ?at_ ?sh1] =>
      pose proof (setBackend_map s None a id ep at_ sh1) as [Hm Hn];
      destruct (setBackend s None a id ep at_ sh1) as [sh2 [[]|e|m]] end; simpl in Hm, Hn.
    + intros Hf. match type of Hf with finishTurn ?l ?q ?h = _ => pose proof (finishTurn_map l q h) as Hft end.
      rewrite Hf in Hft. simpl in Hft. destruct Hft as [-> [Hm' Hn']]. apply effect_upstream; simpl; [done..| |lia].
      by rewrite Hm', Hm.
    + intros [= <- <- <-]. apply effect_upstream; simpl; [done..|lia].
    + intros [= <- <- <-]. apply effect_upstream; simpl; [done..|lia].
  - rewrite (bool_decide_false (is_Some _)) by (intros [? [=]]). simpl andb. cbv iota.
    destruct (processorForPath s _ false) as [p|e|m]; [|destruct (errors_Is e _)|];
      [|intros [= <- <- <-]; eapply effect_rejected; eauto..].
    destruct (allocProc p sh) as [a sh1] eqn:Ea. injection Ea as <- <-. simpl.
    intros Hf. match type of Hf with finishTurn ?l ?q ?h = _ => pose proof (finishTurn_map l q h) as Hft end.
    rewrite Hf in Hft. simpl in Hft. destruct Hft as [-> [Hm' Hn']]. eapply effect_registered; eauto.
Qed.

(** ** The invariant *)

Lemma sapp_inj_suffix s1 s2 t1 t2 :
  String.length t1 = String.length t2 → s1 +:+ t1 = s2 +:+ t2 → t1 = t2.
Proof.
  intros Hl He. assert (String.length s1 = String.length s2) as Hl'.
  { apply (f_equal String.length) in He. rewrite !slength_app in He. lia. }
  apply (f_equal (str_drop (String.length s1))) in He. rewrite str_drop_app in He.
  by rewrite Hl', str_drop_app in He.
Qed.

Lemma drawn_id_inv uuids id uuid orig :
  uuid ∉ uuids → String.length uuid = 36 → drawn_id uuids id → id ≠ orig +:+ "-" +:+ uuid.
Proof.
  intros Hu Hl (orig' & uuid' & Hin & Hl' & ->) He.
  rewrite !sapp_assoc in He. apply sapp_inj_suffix in He; [by subst|lia].
Qed.

Lemma drawn_id_grow uuids uuid id : drawn_id uuids id → drawn_id ({[uuid]} ∪ uuids) id.
Proof. intros (orig & u & ? & ?). exists orig, u. set_solver. Qed.

Lemma sys_inv_grow streams sh uuids uuid :
  sys_inv {| sy_streams := streams; sy_shared := sh; sy_uuids := uuids |} →
  sys_inv {| sy_streams := streams; sy_shared := sh; sy_uuids := {[uuid]} ∪ uuids |}.
Proof. intros [Hm Hi Hu Hf Ha]. split; simpl; eauto using drawn_id_grow. Qed.

(** Only the map, and the store growing, matter to the invariant. *)
Lemma sys_inv_shared y sh' :
  sys_inv y → sh_routerProcessorsPerReqID sh' = sh_routerProcessorsPerReqID (sy_shared y) →
  sh_next (sy_shared y) ≤ sh_next sh' →
  sys_inv {| sy_streams := sy_streams y; sy_shared := sh'; sy_uuids := sy_uuids y |}.
Proof.
  intros [Hm Hi Hu Hf Ha] Hs Hn. split; simpl; rewrite ?Hs; eauto.
  intros id a Hl. specialize (Ha _ _ Hl). lia.
Qed.

(** A stream that routes nothing can be replaced by another one. *)
Lemma sys_inv_replace y i lo' :
  sys_inv y → (∀ lo id a, sy_streams y !! i = Some lo → ¬ routes lo id a) →
  (∀ id a, ¬ routes lo' id a) →
  (lo_p lo' = None → lo_isUpstreamFilter lo' = false → lo_internalReqID lo' = "") →
  sys_inv {| sy_streams := <[i := lo']> (sy_streams y); sy_shared := sy_shared y; sy_uuids := sy_uuids y |}.
Proof.
  intros [Hm Hi Hu Hf Ha] Hold Hnew Hnone. split; simpl.
  - intros id a. rewrite Hm. split.
    + intros (j & lo & Hj & Hr). exists j, lo. split; [|done]. rewrite lookup_insert_ne; [done|].
      intros ->. by eapply Hold.
    + intros (j & lo & Hj & Hr). apply lookup_insert_Some in Hj as [[<- <-]|[_ Hj]]; [by destruct (Hnew id a)|eauto].
  - eauto.
  - intros j k lo lo2 id a a' Hj Hk Hr Hr2.
    apply lookup_insert_Some in Hj as [[<- <-]|[_ Hj]]; [by destruct (Hnew id a)|].
    apply lookup_insert_Some in Hk as [[<- <-]|[_ Hk]]; [by destruct (Hnew id a')|]. eauto.
  - intros j lo Hj. apply lookup_insert_Some in Hj as [[<- <-]|[_ Hj]]; eauto.
  - eauto.
Qed.

(** Closing a stream removes exactly its own entry. *)
Lemma sys_inv_close y i lo :
  sys_inv y → sy_streams y !! i = Some lo →
  sys_inv {| sy_streams := delete i (sy_streams y); sy_shared := closeStream lo (sy_shared y); sy_uuids := sy_uuids y |}.
Proof.
  intros [Hm Hi Hu Hf Ha] Hlo.
  assert (∀ id a, sh_routerProcessorsPerReqID (closeStream lo (sy_shared y)) !! id = Some a ↔
    ∃ j lo', delete i (sy_streams y) !! j = Some lo' ∧ routes lo' id a) as Hm'.
  { intros id a. unfold closeStream. destruct (lo_isUpstreamFilter lo) eqn:Eu; simpl.
    - rewrite Hm. split; intros (j & lo' & Hj & Hr).
      + exists j, lo'. split; [|done]. rewrite lookup_delete_ne; [done|]. intros ->. simplify_eq. destruct Hr. congruence.
      + apply lookup_delete_Some in Hj as [_ Hj]. eauto.
    - rewrite lookup_delete_Some, Hm. split.
      + intros [Hne (j & lo' & Hj & Hr)]. exists j, lo'. split; [|done]. rewrite lookup_delete_ne; [done|].
        intros ->. simplify_eq. destruct Hr as (_ & <- & _). done.
      + intros (j & lo' & [Hne Hj]%lookup_delete_Some & Hr). split; [|eauto].
        intros Heq. destruct (lo_p lo) as [a'|] eqn:Ep.
        * apply Hne. eapply Hu; [exact Hlo|exact Hj| |exact Hr]. by repeat split.
        * assert (id = "") as -> by (rewrite <-Heq; eauto).
          destruct (Hi "" a) as (orig & u & _ & Hl & He); [apply Hm; eauto|].
          apply (f_equal String.length) in He. rewrite !slength_app in He. simpl in He. lia. }
  assert (∀ id a, sh_routerProcessorsPerReqID (closeStream lo (sy_shared y)) !! id = Some a →
    sh_routerProcessorsPerReqID (sy_shared y) !! id = Some a) as Hsub.
  { intros id a. unfold closeStream. destruct (lo_isUpstreamFilter lo); simpl; [done|]. by intros [_ ?]%lookup_delete_Some. }
  split; simpl; [exact Hm'|by eauto| | |].
  - intros j k lo1 lo2 id a a' [_ Hj]%lookup_delete_Some [_ Hk]%lookup_delete_Some. eauto.
  - intros j lo1 [_ Hj]%lookup_delete_Some. eauto.
  - intros id a Hl. apply Hsub, Ha in Hl. unfold closeStream. by destruct (lo_isUpstreamFilter lo).
Qed.

Lemma initialLocal_routes id a : ¬ routes initialLocal id a.
Proof. by intros (_ & _ & [=]). Qed.

(** Registering a router stream under a fresh id. *)
Lemma sys_inv_register y i uuid orig sh' :
  sys_inv y → sy_streams y !! i = Some initialLocal → uuid ∉ sy_uuids y → String.length uuid = 36 →
  let id := orig +:+ "-" +:+ uuid in
  sh_routerProcessorsPerReqID sh' = <[id := sh_next (sy_shared y)]> (sh_routerProcessorsPerReqID (sy_shared y)) →
  sh_next sh' = S (sh_next (sy_shared y)) →
  sys_inv {| sy_streams := <[i := {| lo_p := Some (sh_next (sy_shared y)); lo_isUpstreamFilter := false;
                                     lo_internalReqID := id |}]> (sy_streams y);
             sy_shared := sh'; sy_uuids := {[uuid]} ∪ sy_uuids y |}.
Proof.
  intros [Hm Hi Hu Hf Ha] Hlo Hfr Hlen id Hs Hn.
  assert (∀ j lo a, sy_streams y !! j = Some lo → ¬ routes lo id a) as Hno.
  { intros j lo a Hj Hr. assert (sh_routerProcessorsPerReqID (sy_shared y) !! id = Some a) as Hl by (apply Hm; eauto).
    by apply (drawn_id_inv _ _ uuid orig Hfr Hlen (Hi _ _ Hl)). }
  split; simpl; rewrite ?Hs.
  - intros id' a. rewrite lookup_insert_Some, Hm. split.
    + intros [[<- <-]|[Hne (j & lo & Hj & Hr)]].
      * eexists i, _. rewrite lookup_insert_eq. by repeat split.
      * exists j, lo. split; [|done]. rewrite lookup_insert_ne; [done|]. intros ->. rewrite Hlo in Hj. injection Hj as <-.
        by apply initialLocal_routes in Hr.
    + intros (j & lo & Hj & Hr). apply lookup_insert_Some in Hj as [[<- <-]|[Hne Hj]].
      * destruct Hr as (_ & <- & [= <-]). by left.
      * right. split; [|eauto]. intros <-. by eapply Hno.
  - intros id' a. rewrite lookup_insert_Some. intros [[<- _]|[_ Hl]].
    + exists orig, uuid. set_solver.
    + eauto using drawn_id_grow.
  - intros j k lo lo2 id' a a' Hj Hk Hr Hr2.
    apply lookup_insert_Some in Hj as [[<- <-]|[Hne Hj]]; apply lookup_insert_Some in Hk as [[<- <-]|[Hne2 Hk]]; try done.
    + destruct Hr as (_ & <- & _). by destruct (Hno _ _ _ Hk Hr2).
    + destruct Hr2 as (_ & <- & _). by destruct (Hno _ _ _ Hj Hr).
    + eauto.
  - intros j lo Hj. apply lookup_insert_Some in Hj as [[<- <-]|[_ Hj]]; [done|eauto].
  - intros id' a. rewrite lookup_insert_Some, Hn. intros [[_ <-]|[_ Hl]]; [lia|]. apply Ha in Hl. lia.
Qed.

(** A fresh stream becomes an upstream one. *)
Lemma sys_inv_upstream y i lo' sh' :
  sys_inv y → sy_streams y !! i = Some initialLocal → lo_isUpstreamFilter lo' = true →
  sh_routerProcessorsPerReqID sh' = sh_routerProcessorsPerReqID (sy_shared y) →
  sh_next (sy_shared y) ≤ sh_next sh' →
  sys_inv {| sy_streams := <[i := lo']> (sy_streams y); sy_shared := sh'; sy_uuids := sy_uuids y |}.
Proof.
  intros Hy Hi Hu Hm Hn.
  apply (sys_inv_replace {| sy_streams := sy_streams y; sy_shared := sh'; sy_uuids := sy_uuids y |}).
  - by apply sys_inv_shared.
  - simpl. intros lo0 id a Hlo0. rewrite Hi in Hlo0. injection Hlo0 as <-. apply initialLocal_routes.
  - intros id a (Hf & _). congruence.
  - intros _ Hf. congruence.
Qed.

Lemma sys_inv_init : sys_inv initialSystem.
Proof.
  split; simpl; try done.
  - intros id a. split; [done|]. by intros (i & lo & Hi & _).
Qed.

Lemma sys_step_inv s y y' : sys_inv y → sys_step s y y' → sys_inv y'.
Proof.
  intros Hy Hstep. destruct Hstep as
    [i y Hi|i y lo req uuid lo' sh' resp Hi Ho Hfr Hlen Ht|i y lo req uuid lo' sh' sent code msg Hi Ho Hfr Hlen Ht|i y lo Hi].
  - apply sys_inv_replace; [done| |apply initialLocal_routes|done]. intros lo id a Hlo. congruence.
  - apply turn_has_effect in Ht as [_ -> [Hm Hn]|Hh Hu Hm Hn|orig Hh (? & ? & ? & [=]) _ _|orig Hh -> Hm Hn].
    + rewrite insert_id by done. apply sys_inv_grow.
      apply sys_inv_shared; [done..|lia].
    + apply sys_inv_grow.
      rewrite (Ho Hh) in Hi. by apply sys_inv_upstream.
    + rewrite (Ho Hh) in Hi. by apply sys_inv_register.
  - apply turn_has_effect in Ht as [_ -> [Hm Hn]|Hh Hu Hm Hn|orig Hh _ -> ->|orig Hh -> Hm Hn].
    + apply sys_inv_grow.
      apply (sys_inv_close {| sy_streams := sy_streams y; sy_shared := sh'; sy_uuids := sy_uuids y |}); [|done].
      apply sys_inv_shared; [done..|lia].
    + apply sys_inv_grow.
      rewrite (Ho Hh) in Hi. pose proof (sys_inv_upstream y i lo' sh' Hy Hi Hu Hm Hn) as Hup.
      eapply sys_inv_close in Hup; [|by simpl; rewrite lookup_insert_eq]. simpl in Hup.
      by rewrite delete_insert_eq in Hup.
    + apply sys_inv_grow.
      rewrite (Ho Hh) in *. 
      replace (closeStream _ (sy_shared y)) with (closeStream initialLocal (sy_shared y)); [by apply sys_inv_close|].
      unfold closeStream. simpl. f_equal. rewrite !delete_id; [done| |].
      * destruct (_ !! (orig +:+ "-" +:+ uuid)) as [a|] eqn:El; [|done].
        by apply (inv_ids _ Hy), (drawn_id_inv _ _ uuid orig Hfr Hlen) in El.
      * destruct (_ !! "") as [a|] eqn:El; [|done]. apply (inv_ids _ Hy) in El as (o & u & _ & Hl & He).
        apply (f_equal String.length) in He. rewrite !slength_app in He. simpl in He. lia.
    + rewrite (Ho Hh) in Hi. pose proof (sys_inv_register y i uuid orig sh' Hy Hi Hfr Hlen Hm Hn) as Hreg.
      eapply sys_inv_close in Hreg; [|by simpl; rewrite lookup_insert_eq]. simpl in Hreg.
      by rewrite delete_insert_eq in Hreg.
  - by apply sys_inv_close.
Qed.

(** C17: in every interleaving of any number of streams, the map of router
    processors holds exactly the processors of the live router streams: a
    stream that ends takes its entry with it (nothing leaks) and no other (a
    retry of another request still finds its router), and no two requests share
    an entry even when clients repeat a request id. *)
Theorem router_map_exact s y :
  reachable s y →
  ∀ id a, sh_routerProcessorsPerReqID (sy_shared y) !! id = Some a ↔
    ∃ i, (∃ lo, sy_streams y !! i = Some lo ∧ routes lo id a) ∧
         ∀ j lo' a', sy_streams y !! j = Some lo' → routes lo' id a' → j = i.
Proof.
  intros Hr. assert (sys_inv y) as Hy.
  { induction Hr as [|y y' _ IH Hs]; [apply sys_inv_init|by eapply sys_step_inv]. }
  intros id a. rewrite (inv_map _ Hy). split.
  - intros (i & lo & Hi & Hl). exists i. split; [eauto|]. intros j lo' a' Hj Hl'. by eapply (inv_unique _ Hy).
  - intros (i & (lo & Hi & Hl) & _). eauto.
Qed.
End Server.
Arguments Server : clear implicits.

(** ** Lookup and attributes: properties *)

(** [f] is the first registration of the longest matching prefix. *)
Definition longest_prefix {F} (path : string) (prefixes : list (string * F)) (p : string) (f : F) : Prop :=
  ∃ l1 l2, prefixes = l1 ++ (p, f) :: l2 ∧ matchesPrefix path p = true ∧
    (∀ q g, (q, g) ∈ l1 → matchesPrefix path q = true → String.length q < String.length p) ∧
    (∀ q g, (q, g) ∈ l2 → matchesPrefix path q = true → String.length q ≤ String.length p).

Lemma prefixLoop_spec {F} path (l : list (string * F)) :
  match foldl (prefixBody path) (None, (-1)%Z) l with
  | (None, n) => n = (-1)%Z ∧ ∀ q g, (q, g) ∈ l → matchesPrefix path q = false
  | (Some f, n) => ∃ p, longest_prefix path l p f ∧ n = Z.of_nat (String.length p)
  end.
Proof.
  induction l as [|[q g] l IH] using rev_ind; [split; [done|set_solver]|].
  rewrite foldl_app. simpl. destruct (foldl _ _ l) as [[f|] n].
  - destruct IH as (p & (l1 & l2 & -> & Hp & H1 & H2) & ->). unfold prefixBody. simpl.
    destruct (matchesPrefix path q) eqn:Eq; simpl; [case_bool_decide as Hlt|].
    + exists q. split; [|done]. exists (l1 ++ (p, f) :: l2), []. split; [done|]. split; [done|]. split; [|set_solver].
      intros q' g' Hin Hq. rewrite elem_of_app, elem_of_cons in Hin. destruct Hin as [Hin|[[= -> ->]|Hin]].
      * specialize (H1 _ _ Hin Hq). lia.
      * lia.
      * specialize (H2 _ _ Hin Hq). lia.
    + exists p. split; [|done]. exists l1, (l2 ++ [(q, g)]). rewrite <-app_assoc. split; [done|]. split; [done|].
      split; [done|]. intros q' g' [Hin|[= -> ->]%list_elem_of_singleton]%elem_of_app Hq; [by eapply H2|lia].
    + exists p. split; [|done]. exists l1, (l2 ++ [(q, g)]). rewrite <-app_assoc. split; [done|]. split; [done|].
      split; [done|]. intros q' g' [Hin|[= -> ->]%list_elem_of_singleton]%elem_of_app Hq; [by eapply H2|congruence].
  - destruct IH as [-> Hnone]. unfold prefixBody. simpl. destruct (matchesPrefix path q) eqn:Eq; simpl.
    + rewrite bool_decide_true by lia. exists q. split; [|done]. exists l, []. split; [done|]. split; [done|].
      split; [|set_solver]. intros q' g' Hin Hq. rewrite (Hnone _ _ Hin) in Hq. done.
    + split; [done|]. intros q' g' [Hin|[= -> ->]%list_elem_of_singleton]%elem_of_app; eauto.
Qed.

(** The processor of a path: an exact registration wins; otherwise the
    first registration of the longest prefix the path equals or continues at a
    [/]; otherwise there is none.  In particular a prefix never matches inside
    a segment. *)
Theorem factoryForPath_spec {F} (exact : gmap string F) prefixes path :
  match factoryForPath exact prefixes path with
  | Some f => exact !! path = Some f ∨ (exact !! path = None ∧ ∃ p, longest_prefix path prefixes p f)
  | None => exact !! path = None ∧ ∀ q g, (q, g) ∈ prefixes → path ≠ q ∧ HasPrefix path (q +:+ "/") = false
  end.
Proof.
  unfold factoryForPath. destruct (exact !! path) as [f|] eqn:E; [by left|].
  pose proof (prefixLoop_spec path prefixes) as Hs.
  destruct (foldl _ _ prefixes) as [[f|] n]; simpl.
  - right. split; [done|]. destruct Hs as (p & Hp & _). eauto.
  - split; [done|]. intros q g Hin. destruct Hs as [_ Hn]. specialize (Hn _ _ Hin).
    unfold matchesPrefix in Hn. apply orb_false_iff in Hn as [Hn1 Hn2].
    by apply bool_decide_eq_false in Hn1.
Qed.

(** The upstream host a handler signs for comes from the control plane
    only: whatever the client sent under that header, after the overlay it is
    the non-empty string of the host metadata or absent, and no other header
    changed. *)
Theorem setUpstreamHostAttributes_spec headers attributes k :
  setUpstreamHostAttributes headers attributes !! k =
    if decide (k = UpstreamHostHeader) then
      let host := GetStringValue (attributes ≫= (.!! XDSUpstreamHostMetadataUpstreamHostPath)) in
      if decide (host = "") then None else Some host
    else headers !! k.
Proof.
  unfold setUpstreamHostAttributes. destruct (decide (k = UpstreamHostHeader)) as [->|Hne].
  - destruct attributes as [fields|]; simpl; [|by rewrite lookup_delete_eq].
    destruct (fields !! _) as [v|]; simpl; [|by rewrite lookup_delete_eq].
    case_bool_decide; case_decide; try done; [by rewrite lookup_insert_eq|by rewrite lookup_delete_eq].
  - destruct attributes as [fields|]; simpl; [|by rewrite lookup_delete_ne].
    destruct (fields !! _) as [v|]; simpl; [|by rewrite lookup_delete_ne].
    case_bool_decide; [rewrite lookup_insert_ne by done|]; by rewrite lookup_delete_ne.
Qed.

(** ** A concrete run *)

Module Sample.
#[local] Instance ops : ProcessorOps unit unit :=
  {| p_ProcessRequestHeaders p _ _ := (p, Ok passThroughRequestHeaders);
     p_ProcessRequestBody p _ _ := (p, Ok (plainResponse (RespRequestBody None)));
     p_ProcessResponseHeaders p _ _ := (p, Ok passThroughResponseHeaders);
     p_ProcessResponseBody p _ _ := (p, Ok passThroughResponseBody);
     p_SetBackend p _ _ _ r := (p, r, Ok tt) |}.

Definition config : RuntimeConfig unit unit unit :=
  {| rt_UUID := "id"; rt_GlobalRequestCosts := []; rt_RequestCosts := []; rt_DeclaredModels := [];
     rt_ModelsByHost := ∅; rt_UnscopedModels := []; rt_Backends := ∅; rt_FileIDCodec := None |}.

Definition server : Server unit unit unit unit :=
  Register "/v1/chat/completions" (λ _ _ _ _, Ok tt)
    {| sv_enableRedaction := false; sv_config := config; sv_processorFactories := ∅;
       sv_prefixProcessorFactories := [] |}.

Definition uuid : string := "123e4567-e89b-12d3-a456-426614174000".
Definition request : ProcessingRequest :=
  ReqRequestHeaders (Some [(":path", "/v1/chat/completions?x=1", ""); ("x-request-id", "r", "")]) None None.

Definition opened : system (P := unit) :=
  {| sy_streams := <[7 := initialLocal]> (sy_streams (P := unit) initialSystem);
     sy_shared := sy_shared initialSystem; sy_uuids := ∅ |}.

Definition turned := turn server uuid request initialLocal (sy_shared opened).

Definition running : system (P := unit) :=
  {| sy_streams := <[7 := turned.1.1]> (sy_streams opened); sy_shared := turned.1.2;
     sy_uuids := {[uuid]} ∪ sy_uuids opened |}.

Lemma running_reachable : reachable server running.
Proof.
  eapply reachable_step; [eapply reachable_step; [apply reachable_init|apply (sys_open _ 7); reflexivity]|].
  eapply (sys_turn server 7 opened initialLocal request uuid); try reflexivity.
  - intros _. reflexivity.
  - apply not_elem_of_empty.
Qed.

Lemma router_map_exact_witness :
  sh_routerProcessorsPerReqID (sy_shared running) !! ("r-" +:+ uuid) = Some 0.
Proof.
  apply (router_map_exact server running running_reachable). exists 7. split.
  - exists turned.1.1. split; [reflexivity|]. repeat split; reflexivity.
  - intros j lo' a' Hj (_ & _ & Hp). destruct (decide (j = 7)) as [->|Hne]; [reflexivity|exfalso].
    unfold running, opened in Hj. simpl in Hj. rewrite !lookup_insert_ne in Hj by congruence.
    rewrite lookup_empty in Hj. discriminate Hj.
Defined.
End Sample.
