(* ===== verification/Models.v ===== *)
(** * The models endpoints

    Models [internal/extproc/models_processor.go]: which declared models a host
    may see, and the model lists answered for [/v1/models] in the OpenAI and
    the Anthropic format.  [json.Marshal] and the RFC 3339 formatting of a time
    are arguments; [range] visits the host map in an unspecified order. *)

From Stdlib Require Import Ascii ZArith.
From stdpp Require Import base gmap strings list.
From S2P Require Import Prelude GoStrings FilterApi EnvoyTypes ExtProc.

(** ** Hosts *)

(** The index of the last [c]. *)
Definition LastIndexByte (s : string) (c : Ascii.ascii) : option nat :=
  (λ i, String.length s - 1 - i) <$> Index (String.rev s) (String c "").

(** [net.SplitHostPort], the host only; [None] is an error. *)
Definition SplitHostPort_host (hostport : string) : option string :=
  match LastIndexByte hostport ":"%char with
  | None => None
  | Some i =>
      match hostport with
      | String "["%char _ =>
          match Index hostport "]" with
          | None => None
          | Some e =>
              if bool_decide (e + 1 = i) then
                let host := str_drop 1 (str_take e hostport) in
                if Contains (str_drop 1 hostport) "["%char || Contains (str_drop (e + 1) hostport) "]"%char
                then None else Some host
              else None
          end
      | _ =>
          let host := str_take i hostport in
          if Contains host ":"%char then None
          else if Contains hostport "["%char || Contains hostport "]"%char then None
          else Some host
      end
  end.

Definition requestHost (headers : gmap string string) : string :=
  let host := mget headers ":authority" in
  let host := if bool_decide (host = "") then mget headers "host" else host in
  if bool_decide (host = "") then ""
  else ToLower (match SplitHostPort_host host with Some h => h | None => host end).

(** ** Selection *)

(** Whether a wildcard pattern covers a host, and the length of its suffix. *)
Definition wildcardMatch (host pattern : string) : option nat :=
  if negb (HasPrefix pattern "*.") then None
  else
    let suffix := TrimPrefix pattern "*." in
    if negb (HasSuffix host ("." +:+ suffix)) then None
    else
      let prefix := TrimSuffix host ("." +:+ suffix) in
      if Contains prefix "."%char then None else Some (String.length suffix).

(** The best length so far and [bestMatchModels], which may be nil. *)
Definition wildcardBody (host : string) (best : Z * option (list Model)) (entry : string * option (list Model)) :
    Z * option (list Model) :=
  let '(pattern, models) := entry in
  match wildcardMatch host pattern with
  | Some n => if bool_decide (best.1 < Z.of_nat n)%Z then (Z.of_nat n, models) else best
  | None => best
  end.

Definition selectModelsForHost {H Prog Codec} (range : gmap string (option (list Model)) → list (string * option (list Model)))
    (host : string) (cfg : RuntimeConfig H Prog Codec) : list Model :=
  if bool_decide (host = "") || bool_decide (rt_ModelsByHost cfg = ∅) then rt_DeclaredModels cfg
  else
    match rt_ModelsByHost cfg !! host with
    | Some exact => default [] exact
    | None =>
        match (foldl (wildcardBody host) ((-1)%Z, None) (range (rt_ModelsByHost cfg))).2 with
        | Some bestMatchModels => bestMatchModels
        | None => rt_UnscopedModels cfg
        end
    end.

(** ** The answers *)

Record OpenAIModel := { om_ID : string; om_Object : string; om_OwnedBy : string; om_Created : Z }.
Record OpenAIModelList := { oml_Object : string; oml_Data : list OpenAIModel }.
Record AnthropicModel := { am_ID : string; am_Type : string; am_DisplayName : string; am_CreatedAt : string }.
Record AnthropicModelList := { aml_Data : list AnthropicModel; aml_FirstID : string; aml_LastID : string }.

Section Models.
Context {H Prog Codec : Type}.
Context (range : gmap string (option (list Model)) → list (string * option (list Model))).
Context (formatRFC3339 : Z → string).

(** The model list of a router filter's processor; an upstream filter's is a
    pass-through. *)
Definition NewModelsProcessor (config : RuntimeConfig H Prog Codec) (requestHeaders : gmap string string)
    (isUpstreamFilter : bool) : option OpenAIModelList :=
  if isUpstreamFilter then None
  else
    let selectedModels := selectModelsForHost range (requestHost requestHeaders) config in
    Some {| oml_Object := "list";
            oml_Data := (λ m, {| om_ID := md_Name m; om_Object := "model"; om_OwnedBy := md_OwnedBy m;
                                 om_Created := md_CreatedAt m |}) <$> selectedModels |}.

Definition NewAnthropicModelsProcessor (config : RuntimeConfig H Prog Codec) (requestHeaders : gmap string string)
    (isUpstreamFilter : bool) : option AnthropicModelList :=
  if isUpstreamFilter then None
  else
    let selectedModels := selectModelsForHost range (requestHost requestHeaders) config in
    let data := (λ m, {| am_ID := md_Name m; am_Type := "model"; am_DisplayName := md_Name m;
                         am_CreatedAt := formatRFC3339 (md_CreatedAt m) |}) <$> selectedModels in
    Some {| aml_Data := data;
            aml_FirstID := default "" (am_ID <$> head data);
            aml_LastID := default "" (am_ID <$> last data) |}.

(** [ProcessRequestHeaders] of both: the marshalled list as an immediate response. *)
Definition models_ProcessRequestHeaders {L : Type} (json_Marshal : L → outcome string) (models : L) :
    outcome ProcessingResponse :=
  let! body := owrap "failed to marshal body: " (json_Marshal models) in
  let headerMutation := setHeader emptyHeaderMutation "content-length" (itoa (String.length body)) in
  let headerMutation := setHeader headerMutation "content-type" "application/json" in
  Ok (plainResponse (RespImmediate {| im_Status := 200; im_Headers := headerMutation; im_Body := body;
                                      im_GrpcStatus := 0 |})).
End Models.

(** ** Properties *)

(** A wildcard stands for exactly one label. *)
Lemma wildcardMatch_spec host pattern n :
  wildcardMatch host pattern = Some n ↔
  ∃ label suffix, host = label +:+ String "."%char suffix ∧ Contains label "."%char = false ∧
    pattern = "*." +:+ suffix ∧ n = String.length suffix.
Proof.
  unfold wildcardMatch. split.
  - destruct (HasPrefix pattern "*.") eqn:E1; simpl; [|done].
    apply HasPrefix_spec in E1 as [suffix ->]. rewrite TrimPrefix_app.
    destruct (HasSuffix host ("." +:+ suffix)) eqn:E2; simpl; [|done].
    apply HasSuffix_spec in E2 as [label ->]. rewrite TrimSuffix_app.
    destruct (Contains label _) eqn:E3; [done|]. intros [= <-]. by exists label, suffix.
  - intros (label & suffix & -> & Hl & -> & ->). rewrite HasPrefix_app, TrimPrefix_app. simpl negb. cbv iota.
    change (String "."%char suffix) with ("." +:+ suffix). by rewrite HasSuffix_app, TrimSuffix_app, Hl.
Qed.

(** The only wildcard pattern that can cover a host. *)
Definition wildcard_of (host : string) : option string :=
  (λ '(_, suffix), "*." +:+ suffix) <$> cut_at "."%char host.

Lemma wildcardMatch_unique host pattern n :
  wildcardMatch host pattern = Some n → wildcard_of host = Some pattern.
Proof.
  intros (label & suffix & -> & Hl & -> & _)%wildcardMatch_spec. unfold wildcard_of.
  by rewrite cut_at_app.
Qed.

Lemma wildcard_of_match host pattern :
  wildcard_of host = Some pattern → ∃ n, wildcardMatch host pattern = Some n.
Proof.
  unfold wildcard_of. destruct (cut_at _ host) as [[label suffix]|] eqn:E; [|done]. intros [= <-].
  apply cut_at_Some in E as [-> Hl]. exists (String.length suffix). apply wildcardMatch_spec. by exists label, suffix.
Qed.

(** Which models a host sees, whatever order the host map is visited in:
    without a host or without host scoping, all declared models; otherwise the
    models of exactly that host, else those of the one wildcard pattern that
    replaces the host's first label, else only the models of routes that are
    not scoped to a host.  Models scoped to other hosts are never returned. *)
Theorem selectModelsForHost_spec {H Prog Codec} range `{!RangeOrder range} host (cfg : RuntimeConfig H Prog Codec) :
  selectModelsForHost range host cfg =
    if bool_decide (host = "" ∨ rt_ModelsByHost cfg = ∅) then rt_DeclaredModels cfg
    else match rt_ModelsByHost cfg !! host with
         | Some models => default [] models
         | None => default (rt_UnscopedModels cfg) (mjoin (wildcard_of host ≫= (rt_ModelsByHost cfg !!.)))
         end.
Proof.
  unfold selectModelsForHost. rewrite bool_decide_or. destruct (_ || _); [done|].
  destruct (rt_ModelsByHost cfg !! host); [done|].
  destruct (wildcard_of host) as [pat|] eqn:Ew.
  - pose proof (foldl_local (wildcardBody host) fst (λ w, w) pat (wildcardBody host)
      ((-1)%Z, None) (range (rt_ModelsByHost cfg))) as Hl. simpl in Hl. rewrite Hl; clear Hl.
    + rewrite (filter_range range). simpl. destruct (rt_ModelsByHost cfg !! pat) as [models|]; [|done].
      destruct (wildcard_of_match _ _ Ew) as [n Hn]. simpl. rewrite Hn.
      rewrite bool_decide_true by lia. by destruct models.
    + intros w [p ms] Hp. simpl in *. destruct (wildcardMatch host p) eqn:E; [|done].
      apply wildcardMatch_unique in E. congruence.
    + done.
    + apply (range_NoDup range).
  - assert (∀ l w, foldl (wildcardBody host) w l = w) as Hid; [|by rewrite Hid].
    induction l as [|[p ms] l IH]; intros w; simpl; [done|].
    destruct (wildcardMatch host p) eqn:E; [|apply IH]. apply wildcardMatch_unique in E. congruence.
Qed.

(** Hosts against a scoped configuration. *)
Example hosts_example :
  let m name := {| md_Name := name; md_OwnedBy := ""; md_CreatedAt := 0 |} in
  let cfg : RuntimeConfig unit unit unit :=
    {| rt_UUID := ""; rt_GlobalRequestCosts := []; rt_RequestCosts := []; rt_DeclaredModels := [m "a"; m "b"; m "c"];
       rt_ModelsByHost := <["api.x.com" := Some [m "a"]]> {["*.x.com" := Some [m "b"]]};
       rt_UnscopedModels := [m "c"]; rt_Backends := ∅; rt_FileIDCodec := None |} in
  (λ host, md_Name <$> selectModelsForHost map_to_list host cfg) <$>
    ["api.x.com"; "www.x.com"; "a.b.x.com"; "x.com"; "evil.com"; requestHost {["host" := "API.x.com:8080"]}] =
    [["a"]; ["b"]; ["c"]; ["c"]; ["c"]; ["a"]].
Proof. vm_compute. reflexivity. Qed.

Lemma selectModelsForHost_spec_witness :
  let m name := {| md_Name := name; md_OwnedBy := ""; md_CreatedAt := 0 |} in
  let cfg : RuntimeConfig unit unit unit :=
    {| rt_UUID := ""; rt_GlobalRequestCosts := []; rt_RequestCosts := []; rt_DeclaredModels := [m "a"; m "b"];
       rt_ModelsByHost := {["*.x.com" := Some [m "a"]]};
       rt_UnscopedModels := [m "b"]; rt_Backends := ∅; rt_FileIDCodec := None |} in
  selectModelsForHost map_to_list "www.x.com" cfg = [m "a"] ∧ selectModelsForHost map_to_list "y.com" cfg = [m "b"].
Proof. split; rewrite selectModelsForHost_spec; vm_compute; reflexivity. Defined.
