(* ===== verification/ExtProcBuilder.v ===== *)
(** * The container of the external processor

    Models [internal/controller/extproc_builder.go] and
    [internal/controller/gateway_mutator.go]: the configuration of the external
    processor from the controller options, its container, the hash that tells when
    it changed, and the admission webhook that adds it to the pods of a Gateway.  The
    fields of Kubernetes objects are those the code reads or writes; log lines are
    left out. *)

From Stdlib Require Import Ascii ZArith Lia.
From stdpp Require Import base gmap strings list.
From S2P Require Import Prelude GoStrings GoNum InternalApi Kube McpConfig McpController FilterApi ConfigBundle.

(** ** Kubernetes objects *)

Record EnvVar := { ev_Name : string; ev_Value : string }.
Record VolumeMount := { vm_Name : string; vm_MountPath : string; vm_ReadOnly : bool }.
Record SecurityContext := {
  sx_AllowPrivilegeEscalation : option bool;
  sx_Drop : list string;
  sx_Privileged : option bool;
  sx_RunAsGroup : option Z;
  sx_RunAsNonRoot : option bool;
  sx_RunAsUser : option Z;
  sx_Seccomp : option string;
}.
Record ResourceRequirements := { rq_Limits : list (string * string); rq_Requests : list (string * string) }.
Record Probe := {
  pb_Path : string;
  pb_Port : Z;
  pb_InitialDelaySeconds : Z;
  pb_TimeoutSeconds : Z;
  pb_PeriodSeconds : Z;
  pb_SuccessThreshold : Z;
  pb_FailureThreshold : Z;
}.
Record Container := {
  ct_Name : string;
  ct_Image : string;
  ct_ImagePullPolicy : string;
  ct_Ports : list (string * Z);
  ct_Args : list string;
  ct_Env : list EnvVar;
  ct_VolumeMounts : list VolumeMount;
  ct_SecurityContext : option SecurityContext;
  ct_ReadinessProbe : option Probe;
  ct_Resources : ResourceRequirements;
  ct_RestartPolicy : option string;
}.

(** A volume without sources is an empty directory; a source is a Secret with its
    key, the path and whether it may be missing. *)
Record Volume := { vo_Name : string; vo_Sources : option (list (string * string * string * bool)) }.
Record Pod := {
  po_Namespace : string;
  po_Name : string;
  po_Deleted : bool;
  po_Labels : gmap string string;
  po_InitContainers : list Container;
  po_Containers : list Container;
  po_Volumes : list Volume;
  po_ImagePullSecrets : list string;
}.

(** ** The configuration of a Gateway *)

Record KubernetesContainerSpec := {
  kc_Image : option string;
  kc_ImageRepository : option string;
  kc_Env : list EnvVar;
  kc_Resources : option ResourceRequirements;
  kc_SecurityContext : option SecurityContext;
  kc_VolumeMounts : list VolumeMount;
}.
Record GatewayConfigExtProc := { ge_Kubernetes : option KubernetesContainerSpec; ge_MetadataForwardingNamespaces : list string }.

(** The spec of the resource. *)
Record GatewayConfig := {
  gc_ExtProc : option GatewayConfigExtProc;
  gc_GlobalLLMRequestCosts : list aigLLMRequestCost;
  gc_ForwardProxy : option string;
}.

(** ** Options *)

(** The fields for the external processor. *)
Record Options := {
  op_ExtProcImage : string;
  op_ExtProcImagePullPolicy : string;
  op_ExtProcLogLevel : string;
  op_ExtProcLogFormat : string;
  op_ExtProcEnableRedaction : bool;
  op_UDSPath : string;
  op_RequestHeaderAttributes : option string;
  op_TracingRequestHeaderAttributes : option string;
  op_MetricsRequestHeaderAttributes : option string;
  op_LogRequestHeaderAttributes : option string;
  op_RootPrefix : string;
  op_EndpointPrefixes : string;
  op_ExtProcExtraEnvVars : string;
  op_ExtProcImagePullSecrets : string;
  op_ExtProcMaxRecvMsgSize : Z;
  op_MCPSessionEncryptionSeed : string;
  op_MCPSessionEncryptionIterations : Z;
  op_MCPFallbackSessionEncryptionSeed : string;
  op_MCPFallbackSessionEncryptionIterations : Z;
  op_FileIDEncryptionSeed : string;
  op_FileIDEncryptionIterations : Z;
  op_FileIDFallbackEncryptionSeed : string;
  op_FileIDFallbackEncryptionIterations : Z;
}.

Record extProcBuilder := {
  eb_image : string;
  eb_imagePullPolicy : string;
  eb_logLevel : string;
  eb_logFormat : string;
  eb_enableRedaction : bool;
  eb_udsPath : string;
  eb_requestHeaderAttributes : option string;
  eb_spanRequestHeaderAttributes : option string;
  eb_metricsRequestHeaderAttributes : option string;
  eb_logRequestHeaderAttributes : option string;
  eb_rootPrefix : string;
  eb_endpointPrefixes : string;
  eb_extraEnvVars : list EnvVar;
  eb_imagePullSecrets : list string;
  eb_maxRecvMsgSize : Z;
  eb_extProcAsSideCar : bool;
  eb_mcpSessionEncryptionSeed : string;
  eb_mcpSessionEncryptionIterations : Z;
  eb_mcpFallbackSessionEncryptionSeed : string;
  eb_mcpFallbackSessionEncryptionIterations : Z;
  eb_fileIDEncryptionSeed : string;
  eb_fileIDEncryptionIterations : Z;
  eb_fileIDFallbackEncryptionSeed : string;
  eb_fileIDFallbackEncryptionIterations : Z;
}.

(** One pair of the list, at a position from one; an empty pair is skipped. *)
Definition parseEnvVar (position : nat) (pair : string) : outcome (option EnvVar) :=
  let pair := TrimSpace pair in
  if bool_decide (pair = "") then Ok None
  else
    match cut_at "=" pair with
    | None => Fail (errors_New ("invalid env var pair at position " +:+ itoa position +:+ ": " +:+ Quote pair +:+ " (expected format: KEY=value)"))
    | Some (key, value) =>
        let key := TrimSpace key in
        if bool_decide (key = "") then Fail (errors_New ("empty env var name at position " +:+ itoa position +:+ ": " +:+ Quote pair))
        else Ok (Some {| ev_Name := key; ev_Value := value |})
    end.

Definition ParseExtraEnvVars (s : string) : outcome (list EnvVar) :=
  if bool_decide (s = "") then Ok []
  else
    let! vars := omapM (λ p, parseEnvVar p.1 p.2) (imap (λ i pair, (S i, pair)) (Split s ";")) in
    Ok (omap id vars).

Definition ParseImagePullSecrets (s : string) : list string :=
  if bool_decide (s = "") then [] else filter (λ name, name ≠ "") (TrimSpace <$> Split s ";").

(** Environment variables that do not parse are logged and left out. *)
Definition newExtProcBuilder (options : Options) (extProcAsSideCar : bool) : extProcBuilder :=
  {| eb_image := op_ExtProcImage options;
     eb_imagePullPolicy := op_ExtProcImagePullPolicy options;
     eb_logLevel := op_ExtProcLogLevel options;
     eb_logFormat := op_ExtProcLogFormat options;
     eb_enableRedaction := op_ExtProcEnableRedaction options;
     eb_udsPath := op_UDSPath options;
     eb_requestHeaderAttributes := op_RequestHeaderAttributes options;
     eb_spanRequestHeaderAttributes := op_TracingRequestHeaderAttributes options;
     eb_metricsRequestHeaderAttributes := op_MetricsRequestHeaderAttributes options;
     eb_logRequestHeaderAttributes := op_LogRequestHeaderAttributes options;
     eb_rootPrefix := op_RootPrefix options;
     eb_endpointPrefixes := op_EndpointPrefixes options;
     eb_extraEnvVars := match ParseExtraEnvVars (op_ExtProcExtraEnvVars options) with Ok vars => vars | _ => [] end;
     eb_imagePullSecrets := ParseImagePullSecrets (op_ExtProcImagePullSecrets options);
     eb_maxRecvMsgSize := op_ExtProcMaxRecvMsgSize options;
     eb_extProcAsSideCar := extProcAsSideCar;
     eb_mcpSessionEncryptionSeed := op_MCPSessionEncryptionSeed options;
     eb_mcpSessionEncryptionIterations := op_MCPSessionEncryptionIterations options;
     eb_mcpFallbackSessionEncryptionSeed := op_MCPFallbackSessionEncryptionSeed options;
     eb_mcpFallbackSessionEncryptionIterations := op_MCPFallbackSessionEncryptionIterations options;
     eb_fileIDEncryptionSeed := op_FileIDEncryptionSeed options;
     eb_fileIDEncryptionIterations := op_FileIDEncryptionIterations options;
     eb_fileIDFallbackEncryptionSeed := op_FileIDFallbackEncryptionSeed options;
     eb_fileIDFallbackEncryptionIterations := op_FileIDFallbackEncryptionIterations options |}.

(** ** Seeds *)

(** A fallback without a seed is left out. *)
Definition fallbackOf (seed : string) (iterations : Z) : string * Z := if bool_decide (seed ≠ "") then (seed, iterations) else ("", 0%Z).

Definition mcpSessionEncryption (b : extProcBuilder) : option MCPSessionEncryption :=
  if bool_decide (eb_mcpSessionEncryptionSeed b = "") then None
  else
    let '(fallbackSeed, fallbackIterations) := fallbackOf (eb_mcpFallbackSessionEncryptionSeed b) (eb_mcpFallbackSessionEncryptionIterations b) in
    Some {| se_Seed := eb_mcpSessionEncryptionSeed b; se_Iterations := eb_mcpSessionEncryptionIterations b; se_FallbackSeed := fallbackSeed;
            se_FallbackIterations := fallbackIterations |}.

Definition fileIDEncryption (b : extProcBuilder) : option FileIDEncryption :=
  if bool_decide (eb_fileIDEncryptionSeed b = "") then None
  else
    let '(fallbackSeed, fallbackIterations) := fallbackOf (eb_fileIDFallbackEncryptionSeed b) (eb_fileIDFallbackEncryptionIterations b) in
    Some {| fe_Seed := eb_fileIDEncryptionSeed b; fe_Iterations := eb_fileIDEncryptionIterations b; fe_FallbackSeed := fallbackSeed;
            fe_FallbackIterations := fallbackIterations |}.

(** ** Image *)

Definition imageTagOrDigest (image : string) : string :=
  if bool_decide (image = "") then ""
  else
    match Index image "@" with
    | Some idx => str_drop idx image
    | None =>
        match LastIndex image ":" with
        | Some lastColon =>
            if match LastIndex image "/" with Some lastSlash => lastSlash <? lastColon | None => true end then str_drop lastColon image else ""
        | None => ""
        end
    end.

Definition mergeImageWithRepository (baseImage repository : string) : string :=
  if bool_decide (repository = "") then baseImage
  else
    let suffix := imageTagOrDigest baseImage in
    if bool_decide (suffix = "") then repository else repository +:+ suffix.

Definition resolveExtProcImage (b : extProcBuilder) (extProc : option GatewayConfigExtProc) : string :=
  match extProc ≫= ge_Kubernetes with
  | None => eb_image b
  | Some kubernetesExtProc =>
      match kc_Image kubernetesExtProc, kc_ImageRepository kubernetesExtProc with
      | Some image, _ => image
      | None, Some repository => mergeImageWithRepository (eb_image b) repository
      | None, None => eb_image b
      end
  end.

Record extProcContainerInput := { ci_gatewayConfig : option GatewayConfig; ci_needMCP : bool }.

Definition extProcSpecFromInput (input : extProcContainerInput) : option GatewayConfigExtProc := ci_gatewayConfig input ≫= gc_ExtProc.

Definition extProcImage (b : extProcBuilder) (input : extProcContainerInput) : string := resolveExtProcImage b (extProcSpecFromInput input).

(** ** Environment *)

Definition kubernetesOf (gatewayConfig : option GatewayConfig) : option KubernetesContainerSpec := (gatewayConfig ≫= gc_ExtProc) ≫= ge_Kubernetes.

(** The variables so far and the position of the last one of each name. *)
Definition addGlobal (acc : list EnvVar * gmap string nat) (env : EnvVar) : list EnvVar * gmap string nat :=
  let '(result, index) := acc in (result ++ [env], <[ev_Name env := length result]> index).

Definition addOverride (acc : list EnvVar * gmap string nat) (env : EnvVar) : list EnvVar * gmap string nat :=
  let '(result, index) := acc in
  match index !! ev_Name env with
  | Some i => (<[i := env]> result, index)
  | None => (result ++ [env], <[ev_Name env := length result]> index)
  end.

Definition mergeEnvVars (b : extProcBuilder) (gatewayConfig : option GatewayConfig) : list EnvVar :=
  (foldl addOverride (foldl addGlobal ([], ∅) (eb_extraEnvVars b)) (default [] (kc_Env <$> kubernetesOf gatewayConfig))).1.

(** ** Arguments *)

Definition LogFormatText : string := "text".
Definition MCPProxyAddr : string := "127.0.0.1:9856".
Definition extProcAdminPort : Z := 1064.

Definition nonDefaultLogFormat (b : extProcBuilder) : string := if bool_decide (eb_logFormat b = LogFormatText) then "" else eb_logFormat b.

Definition optArg (flag : string) (value : option string) : list string := match value with Some v => [flag; v] | None => [] end.

Definition buildExtProcBaseArgs (b : extProcBuilder) (needMCP : bool) : list string :=
  ["-logLevel"; eb_logLevel b;
   "-extProcAddr"; "unix://" +:+ eb_udsPath b;
   "-adminPort"; Itoa extProcAdminPort;
   "-rootPrefix"; eb_rootPrefix b;
   "-maxRecvMsgSize"; Itoa (eb_maxRecvMsgSize b)] ++
  (let f := nonDefaultLogFormat b in if bool_decide (f ≠ "") then ["-logFormat"; f] else []) ++
  (if needMCP then ["-mcpAddr"; MCPProxyAddr] else []) ++
  optArg "-requestHeaderAttributes" (eb_requestHeaderAttributes b) ++
  optArg "-spanRequestHeaderAttributes" (eb_spanRequestHeaderAttributes b) ++
  optArg "-metricsRequestHeaderAttributes" (eb_metricsRequestHeaderAttributes b) ++
  optArg "-logRequestHeaderAttributes" (eb_logRequestHeaderAttributes b) ++
  (if bool_decide (eb_endpointPrefixes b ≠ "") then ["-endpointPrefixes"; eb_endpointPrefixes b] else []) ++
  (if eb_enableRedaction b then ["-enableRedaction"] else []).

(** ** Container *)

Definition mutationNamePrefix : string := "ai-gateway-".
Definition extProcContainerName : string := mutationNamePrefix +:+ "extproc".
Definition extProcUDSVolumeName : string := mutationNamePrefix +:+ "extproc-uds".

(** [filepath.Dir]: the text to the last separator, cleaned. *)
Definition cleanElem (rooted : bool) (acc : list string) (e : string) : list string :=
  if bool_decide (e = "") || bool_decide (e = ".") then acc
  else if bool_decide (e = "..") then
    match last acc with
    | None => if rooted then acc else [".."]
    | Some e' => if bool_decide (e' = "..") then acc ++ [".."] else removelast acc
    end
  else acc ++ [e].
Definition filepath_Clean (path : string) : string :=
  let rooted := HasPrefix path "/" in
  let elems := foldl (cleanElem rooted) [] (Split path "/") in
  if rooted then String "/" (Join elems "/") else if bool_decide (elems = []) then "." else Join elems "/".
Definition filepath_Dir (path : string) : string :=
  filepath_Clean (match LastIndex path "/" with Some i => str_take (S i) path | None => "" end).

Definition defaultSecurityContext : SecurityContext :=
  {| sx_AllowPrivilegeEscalation := Some false; sx_Drop := ["ALL"]; sx_Privileged := Some false; sx_RunAsGroup := Some 65532%Z;
     sx_RunAsNonRoot := Some true; sx_RunAsUser := Some 65532%Z; sx_Seccomp := Some "RuntimeDefault" |}.

Definition buildExtProcContainer (b : extProcBuilder) (input : extProcContainerInput) : Container :=
  let kubernetesExtProc := extProcSpecFromInput input ≫= ge_Kubernetes in
  {| ct_Name := extProcContainerName;
     ct_Image := extProcImage b input;
     ct_ImagePullPolicy := eb_imagePullPolicy b;
     ct_Ports := [("aigw-admin", extProcAdminPort)];
     ct_Args := buildExtProcBaseArgs b (ci_needMCP input);
     ct_Env := mergeEnvVars b (ci_gatewayConfig input);
     ct_VolumeMounts := {| vm_Name := extProcUDSVolumeName; vm_MountPath := filepath_Dir (eb_udsPath b); vm_ReadOnly := false |} ::
                        default [] (kc_VolumeMounts <$> kubernetesExtProc);
     ct_SecurityContext := Some (default defaultSecurityContext (kubernetesExtProc ≫= kc_SecurityContext));
     ct_ReadinessProbe := Some {| pb_Path := "/health"; pb_Port := extProcAdminPort; pb_InitialDelaySeconds := 2; pb_TimeoutSeconds := 5;
                                  pb_PeriodSeconds := 10; pb_SuccessThreshold := 1; pb_FailureThreshold := 1 |};
     ct_Resources := default {| rq_Limits := []; rq_Requests := [] |} (kubernetesExtProc ≫= kc_Resources);
     ct_RestartPolicy := if eb_extProcAsSideCar b then Some "Always" else None |}.

(** ** The hash of the configuration *)

Record extProcConfigDigest := {
  dg_Image : string;
  dg_ImagePullPolicy : string;
  dg_LogLevel : string;
  dg_LogFormat : string;
  dg_EnableRedaction : bool;
  dg_UDSPath : string;
  dg_RequestHeaderAttributes : option string;
  dg_SpanRequestHeaderAttributes : option string;
  dg_MetricsRequestHeaderAttributes : option string;
  dg_LogRequestHeaderAttributes : option string;
  dg_RootPrefix : string;
  dg_EndpointPrefixes : string;
  dg_ExtraEnvVars : list EnvVar;
  dg_ImagePullSecrets : list string;
  dg_MaxRecvMsgSize : Z;
  dg_ExtProcAsSideCar : bool;
  dg_NeedMCP : bool;
  dg_GatewayConfigExtProc : option GatewayConfigExtProc;
}.

Definition digestOf (b : extProcBuilder) (input : extProcContainerInput) : extProcConfigDigest :=
  {| dg_Image := extProcImage b input;
     dg_ImagePullPolicy := eb_imagePullPolicy b;
     dg_LogLevel := eb_logLevel b;
     dg_LogFormat := nonDefaultLogFormat b;
     dg_EnableRedaction := eb_enableRedaction b;
     dg_UDSPath := eb_udsPath b;
     dg_RequestHeaderAttributes := eb_requestHeaderAttributes b;
     dg_SpanRequestHeaderAttributes := eb_spanRequestHeaderAttributes b;
     dg_MetricsRequestHeaderAttributes := eb_metricsRequestHeaderAttributes b;
     dg_LogRequestHeaderAttributes := eb_logRequestHeaderAttributes b;
     dg_RootPrefix := eb_rootPrefix b;
     dg_EndpointPrefixes := eb_endpointPrefixes b;
     dg_ExtraEnvVars := eb_extraEnvVars b;
     dg_ImagePullSecrets := eb_imagePullSecrets b;
     dg_MaxRecvMsgSize := eb_maxRecvMsgSize b;
     dg_ExtProcAsSideCar := eb_extProcAsSideCar b;
     dg_NeedMCP := ci_needMCP input;
     dg_GatewayConfigExtProc := extProcSpecFromInput input |}.

(** The error of [Marshal] is discarded: a digest always marshals. *)
Definition extProcContainerHash (stdjson_Marshal : extProcConfigDigest → string) (sha256 : string → string) (b : extProcBuilder)
    (input : extProcContainerInput) : string :=
  hex_EncodeToString (sha256 (stdjson_Marshal (digestOf b input))).

(** ** Routes of a Gateway *)

Definition parentRefsMatchGateway (routeNamespace : string) (parentRefs : list ParentReference) (gatewayName gatewayNamespace : string) : bool :=
  existsb (λ ref, bool_decide (pa_Name ref = gatewayName) && bool_decide (namespaceOr (pa_Namespace ref) routeNamespace = gatewayNamespace)) parentRefs.

Definition filterAIGatewayRoutesForGateway (routes : list AIGatewayRoute) (gatewayName gatewayNamespace : string) : list AIGatewayRoute :=
  filter (λ r, parentRefsMatchGateway (ar_Namespace r) (ar_ParentRefs r) gatewayName gatewayNamespace = true) routes.

Definition filterMCPRoutesForGateway (routes : list aigMCPRoute) (gatewayName gatewayNamespace : string) : list aigMCPRoute :=
  filter (λ r, parentRefsMatchGateway (ro_Namespace r) (ro_ParentRefs r) gatewayName gatewayNamespace = true) routes.

Definition mcpRouteToAttachedGatewayIndexFunc (r : aigMCPRoute) : list string :=
  (λ ref, namespacedNameIndexKey (pa_Name ref) (namespaceOr (pa_Namespace ref) (ro_Namespace r))) <$> ro_ParentRefs r.

(** The routes of the index, or of the API server when the index has none; [all] is
    [None] without a reader of the API server. *)
Definition listRoutesForGateway {R} (what : string) (select : list R → string → string → list R) (cached : string → outcome (list R))
    (all : option (outcome (list R))) (gatewayName gatewayNamespace : string) : outcome (list R) :=
  match cached (namespacedNameIndexKey gatewayName gatewayNamespace), all with
  | Ok (r :: rs), _ => Ok (r :: rs)
  | Panic p, _ => Panic p
  | r, None => r
  | _, Some all => let! l := owrap what all in Ok (select l gatewayName gatewayNamespace)
  end.

Definition listAIGatewayRoutesForGateway := listRoutesForGateway "failed to list routes: " filterAIGatewayRoutesForGateway.
Definition listMCPRoutesForGateway := listRoutesForGateway "failed to list MCP routes: " filterMCPRoutesForGateway.

(** ** The admission webhook *)

(** What the webhook reads: the routes of the cache and of the API server, the
    Secrets of a namespace, the annotations of a Gateway and the configurations. *)
Class MutatorClient := {
  cached_AIGatewayRoutes : string → outcome (list AIGatewayRoute);
  all_AIGatewayRoutes : option (outcome (list AIGatewayRoute));
  cached_MCPRoutes : string → outcome (list aigMCPRoute);
  all_MCPRoutes : option (outcome (list aigMCPRoute));
  get_BundleIndex : string → string → outcome (option unit);
  get_GatewayAnnotations : string → string → outcome (gmap string string);
  get_GatewayConfig : string → string → outcome GatewayConfig;
}.

Definition GatewayConfigAnnotationKey : string := "aigateway.envoyproxy.io/gateway-config".
Definition egOwningGatewayNameLabel : string := "gateway.envoyproxy.io/owning-gateway-name".
Definition egOwningGatewayNamespaceLabel : string := "gateway.envoyproxy.io/owning-gateway-namespace".
Definition k8sVolumeNameMaxLen : nat := 63.
Definition filterConfigBundleMountPath : string := "/etc/filter-config-bundle".

Section Mutator.
Context `{MC : !MutatorClient} (sha256 : string → string) (b : extProcBuilder).

Definition filterConfigBundleVolumeName (gwName gwNamespace : string) : string :=
  truncateAndAppendHash (mutationNamePrefix +:+ gwName +:+ "-" +:+ gwNamespace) (shortStableHash sha256 (gwNamespace +:+ "/" +:+ gwName))
    (k8sVolumeNameMaxLen - String.length "-bundle") +:+ "-bundle".

(** The configuration an annotation names. *)
Definition configOf (gatewayNamespace : string) (annotations : gmap string string) : outcome (option GatewayConfig) :=
  let configName := mget annotations GatewayConfigAnnotationKey in
  if bool_decide (configName = "") then Ok None
  else
    match get_GatewayConfig gatewayNamespace configName with
    | Ok c => Ok (Some c)
    | Fail e => if errors_Is e KubeNotFound then Ok None else Fail (Errorf_w "failed to get GatewayConfig: " e)
    | Panic p => Panic p
    end.

Definition mutator_fetchGatewayConfig (gatewayName gatewayNamespace : string) : outcome (option GatewayConfig) :=
  match get_GatewayAnnotations gatewayNamespace gatewayName with
  | Ok annotations => configOf gatewayNamespace annotations
  | Fail e => if errors_Is e KubeNotFound then Ok None else Fail (Errorf_w "failed to get Gateway: " e)
  | Panic p => Panic p
  end.

Definition mountEnvoy (c : Container) : Container :=
  if bool_decide (ct_Name c = "envoy") then
    {| ct_Name := ct_Name c; ct_Image := ct_Image c; ct_ImagePullPolicy := ct_ImagePullPolicy c; ct_Ports := ct_Ports c; ct_Args := ct_Args c;
       ct_Env := ct_Env c;
       ct_VolumeMounts := ct_VolumeMounts c ++ [{| vm_Name := extProcUDSVolumeName; vm_MountPath := filepath_Dir (eb_udsPath b); vm_ReadOnly := false |}];
       ct_SecurityContext := ct_SecurityContext c; ct_ReadinessProbe := ct_ReadinessProbe c; ct_Resources := ct_Resources c;
       ct_RestartPolicy := ct_RestartPolicy c |}
  else c.

(** The container with the arguments and the mount of the bundle. *)
Definition injectedContainer (gatewayName gatewayNamespace : string) (input : extProcContainerInput) : Container :=
  let c := buildExtProcContainer b input in
  {| ct_Name := ct_Name c; ct_Image := ct_Image c; ct_ImagePullPolicy := ct_ImagePullPolicy c; ct_Ports := ct_Ports c;
     ct_Args := "-configBundlePath" :: filterConfigBundleMountPath :: ct_Args c;
     ct_Env := ct_Env c;
     ct_VolumeMounts := ct_VolumeMounts c ++
       [{| vm_Name := filterConfigBundleVolumeName gatewayName gatewayNamespace; vm_MountPath := filterConfigBundleMountPath; vm_ReadOnly := true |}];
     ct_SecurityContext := ct_SecurityContext c; ct_ReadinessProbe := ct_ReadinessProbe c; ct_Resources := ct_Resources c;
     ct_RestartPolicy := ct_RestartPolicy c |}.

Definition injectInto (pod : Pod) (gatewayName gatewayNamespace : string) (input : extProcContainerInput) : Pod :=
  let container := injectedContainer gatewayName gatewayNamespace input in
  {| po_Namespace := po_Namespace pod; po_Name := po_Name pod; po_Deleted := po_Deleted pod; po_Labels := po_Labels pod;
     po_InitContainers := po_InitContainers pod ++ (if eb_extProcAsSideCar b then [container] else []);
     po_Containers := mountEnvoy <$> (po_Containers pod ++ (if eb_extProcAsSideCar b then [] else [container]));
     po_Volumes := po_Volumes pod ++
       [{| vo_Name := extProcUDSVolumeName; vo_Sources := None |};
        {| vo_Name := filterConfigBundleVolumeName gatewayName gatewayNamespace;
           vo_Sources := Some (bundleProjections sha256 gatewayName gatewayNamespace) |}];
     po_ImagePullSecrets := po_ImagePullSecrets pod ++ eb_imagePullSecrets b |}.

Definition mutatePod (pod : Pod) (gatewayName gatewayNamespace : string) : outcome Pod :=
  let! routes := owrap "failed to list routes: " (listAIGatewayRoutesForGateway cached_AIGatewayRoutes all_AIGatewayRoutes gatewayName gatewayNamespace) in
  let! mcpRoutes := owrap "failed to list MCP routes: " (listMCPRoutesForGateway cached_MCPRoutes all_MCPRoutes gatewayName gatewayNamespace) in
  match routes, mcpRoutes with
  | [], [] => Ok pod
  | _, _ =>
      let bundleConfigIndexSecretName := FilterConfigBundleIndexSecretName sha256 gatewayName gatewayNamespace in
      match get_BundleIndex (po_Namespace pod) bundleConfigIndexSecretName with
      | Ok (Some _) =>
          let! gatewayConfig := owrap "failed to fetch GatewayConfig: " (mutator_fetchGatewayConfig gatewayName gatewayNamespace) in
          Ok (injectInto pod gatewayName gatewayNamespace {| ci_gatewayConfig := gatewayConfig; ci_needMCP := bool_decide (mcpRoutes ≠ []) |})
      | Ok None => Ok pod
      | Fail e =>
          if errors_Is e KubeNotFound then Ok pod
          else Fail (Errorf_w ("failed to get bundled filter config secret " +:+ bundleConfigIndexSecretName +:+ ": ") e)
      | Panic p => Panic p
      end
  end.

Definition Default (pod : Pod) : outcome Pod :=
  mutatePod pod (mget (po_Labels pod) egOwningGatewayNameLabel) (mget (po_Labels pod) egOwningGatewayNamespaceLabel).
End Mutator.
