(* ===== verification/FilterConfig.v ===== *)
(** * The filter configuration a Gateway gets

    Models the generation of the external processor's configuration in
    [internal/controller/gateway.go]: the conversions of the API objects, the merge
    of the mutations of route and backend, the credentials of a
    [BackendSecurityPolicy], the cost expressions of quotas and the loop of
    [reconcileFilterConfigSecret] over the routes of the Gateway.  The Kubernetes
    clients are classes; [range] is the order a map is visited in.  Log lines are
    left out. *)

From Stdlib Require Import Ascii ZArith Lia.
From stdpp Require Import base gmap strings list.
From S2P Require Import Prelude GoStrings GoNum InternalApi Kube RateLimit McpConfig McpController FilterApi ConfigBundle HeaderMutator EnvoyTypes ExtProc ExtProcBuilder.

(** ** API objects *)

Record aigVersionedAPISchema := { vs_Name : string; vs_Version : option string; vs_Prefix : option string }.
Record aigHTTPHeaderValueFilter := { ahf_Name : string; ahf_Mode : string; ahf_Values : list string }.
Definition HTTPHeaderValueFilterModeDenylist : string := "Denylist".

Record BackendObjectReference := { bo_Group : option string; bo_Kind : option string; bo_Name : string; bo_Namespace : option string }.

Record AIServiceBackendSpec := {
  bs_BackendRef : BackendObjectReference;
  bs_APISchema : aigVersionedAPISchema;
  bs_HeaderMutation : option aigHTTPHeaderMutation;
  bs_BodyMutation : option aigHTTPBodyMutation;
  bs_HeaderValueFilters : list aigHTTPHeaderValueFilter;
}.

Record SecretObjectReference := { so_Name : string; so_Namespace : option string }.

(** A credentials struct that holds a reference to a secret, which may be nil. *)
Definition SecretHolder : Type := option SecretObjectReference.

(** The OIDC client of Envoy Gateway's API, as far as it is used.  A token exchange of
    which nothing else is used is its OIDC client. *)
Record OIDC := {
  od_Issuer : string;
  od_TokenEndpoint : option string;
  od_ClientID : option string;
  od_ClientSecret : SecretObjectReference;
  od_Scopes : list string;
}.

Record AWSOIDCExchangeToken := { wx_OIDC : OIDC; wx_AwsRoleArn : string }.
Record AWSCredentials := { wc_Region : string; wc_CredentialsFile : option SecretHolder; wc_OIDCExchangeToken : option AWSOIDCExchangeToken }.
Record AzureCredentials := {
  zc_ClientID : string; zc_TenantID : string; zc_ClientSecretRef : option SecretObjectReference; zc_OIDCExchangeToken : option OIDC }.
Record GCPWorkloadIdentityFederationConfig := {
  gw_ProjectID : string;
  gw_WorkloadIdentityProviderName : string;
  gw_WorkloadIdentityPoolName : string;
  gw_OIDCExchangeToken : OIDC;
  gw_ServiceAccountImpersonation : option string;
}.
Record GCPCredentials := {
  pc_ProjectName : string; pc_Region : string; pc_CredentialsFile : option SecretHolder;
  pc_WorkloadIdentityFederationConfig : option GCPWorkloadIdentityFederationConfig }.
Record SPIFFEJWTSVID := { sv_SocketPath : string; sv_Audience : string }.
Record OpenAISubjectToken := { sj_OIDCExchangeToken : option OIDC; sj_SPIFFEJWTSVID : option SPIFFEJWTSVID }.
Record OpenAIWorkloadIdentityFederationConfig := {
  ow_IdentityProviderID : string; ow_ServiceAccountID : string; ow_SubjectToken : OpenAISubjectToken }.
Record OpenAICredentials := {
  oc_Organization : string; oc_Project : string; oc_WorkloadIdentityFederationConfig : OpenAIWorkloadIdentityFederationConfig }.

Record CredentialOverrideFromRequestHeaders := { fh_Header : string; fh_FallbackToConfigured : option bool }.
Record CredentialOverrideFromDynamicMetadata := { fm_Namespace : string; fm_Key : string; fm_FallbackToConfigured : option bool }.
Record aigCredentialOverride := {
  cv_FromRequestHeaders : option CredentialOverrideFromRequestHeaders;
  cv_FromDynamicMetadata : option CredentialOverrideFromDynamicMetadata;
}.

Definition BackendSecurityPolicyTypeAPIKey : string := "APIKey".
Definition BackendSecurityPolicyTypeAWSCredentials : string := "AWSCredentials".
Definition BackendSecurityPolicyTypeAzureAPIKey : string := "AzureAPIKey".
Definition BackendSecurityPolicyTypeAnthropicAPIKey : string := "AnthropicAPIKey".
Definition BackendSecurityPolicyTypeAzureCredentials : string := "AzureCredentials".
Definition BackendSecurityPolicyTypeGCPCredentials : string := "GCPCredentials".
Definition BackendSecurityPolicyTypeOpenAICredentials : string := "OpenAICredentials".

Record LocalPolicyTargetReference := { lt_Group : string; lt_Kind : string; lt_Name : string }.

Record BackendSecurityPolicy := {
  bp_Namespace : string;
  bp_Name : string;
  bp_TargetRefs : list LocalPolicyTargetReference;
  bp_Type : string;
  bp_APIKey : option SecretHolder;
  bp_AWSCredentials : option AWSCredentials;
  bp_AzureAPIKey : option SecretHolder;
  bp_AzureCredentials : option AzureCredentials;
  bp_GCPCredentials : option GCPCredentials;
  bp_AnthropicAPIKey : option SecretHolder;
  bp_OpenAICredentials : option OpenAICredentials;
  bp_CredentialOverride : option aigCredentialOverride;
  bp_Deleted : bool;
  bp_HasFinalizer : bool;
}.

Definition backendSecurityPolicyTargetRefsIndexFunc (p : BackendSecurityPolicy) : list string :=
  (λ t, namespacedNameIndexKey (lt_Name t) (bp_Namespace p)) <$> bp_TargetRefs p.

(** ** Conversions *)

Definition schemaToFilterAPI (schema : aigVersionedAPISchema) : VersionedAPISchema :=
  let name := vs_Name schema in
  let prefix := default "" (vs_Prefix schema) in
  let version := default "" (vs_Version schema) in
  if bool_decide (name = APISchemaOpenAI) || bool_decide (name = APISchemaAnthropic) then
    {| sc_Name := name; sc_Version := ""; sc_Prefix := cmp_Or prefix "v1" |}
  else if bool_decide (name = APISchemaAWSOpenAI) then {| sc_Name := name; sc_Version := ""; sc_Prefix := cmp_Or prefix "openai/v1" |}
  else if bool_decide (name = APISchemaTypeSafe) then {| sc_Name := name; sc_Version := cmp_Or version "v1"; sc_Prefix := "" |}
  else {| sc_Name := name; sc_Version := version; sc_Prefix := "" |}.

Definition headerMutationToFilterAPI (m : option aigHTTPHeaderMutation) : option HTTPHeaderMutation :=
  (λ m, {| hm_Set := (λ '(n, v), (ToLower n, v)) <$> ahm_Set m; hm_Remove := ToLower <$> ahm_Remove m |}) <$> m.

Definition headerValueFiltersToFilterAPI (filters : list aigHTTPHeaderValueFilter) : list HTTPHeaderValueFilter :=
  (λ f, {| hf_Name := ToLower (ahf_Name f); hf_Mode := cmp_Or (ahf_Mode f) HTTPHeaderValueFilterModeDenylist; hf_Values := ahf_Values f |}) <$> filters.

Definition bodyMutationToFilterAPI (m : option aigHTTPBodyMutation) : option HTTPBodyMutation :=
  (λ m, {| bm_Set := abm_Set m; bm_Remove := abm_Remove m |}) <$> m.

Section Costs.
Context {Prog : Type} `{CE : !CelEnv Prog}.

Definition validateCELExpression (cost : aigLLMRequestCost) : outcome string :=
  match alc_CEL cost with
  | None => Fail (errors_New "missing CEL expression")
  | Some expr => let! _ := owrap "invalid CEL expression: " (NewProgram (Prog := Prog) expr) in Ok expr
  end.

Definition costExpression (cost : aigLLMRequestCost) : outcome string :=
  if bool_decide (alc_Type cost = LLMRequestCostTypeCEL) then validateCELExpression cost else Ok "".

Definition aigwGlobalLLMRequestCostToFilterAPI (cost : aigLLMRequestCost) : outcome GlobalLLMRequestCost :=
  let! cel := costExpression cost in
  Ok {| gc_MetadataKey := alc_MetadataKey cost; gc_Type := alc_Type cost; gc_CEL := cel |}.

Definition aigwLLMRequestCostToFilterAPI (cost : aigLLMRequestCost) (routeName : string) : outcome LLMRequestCost :=
  let! cel := costExpression cost in
  Ok {| rc_MetadataKey := alc_MetadataKey cost; rc_RouteName := routeName; rc_Type := alc_Type cost; rc_CEL := cel; rc_Backend := ""; rc_Model := "" |}.
End Costs.

(** ** Mutations of route and backend *)

Section Merge.
(** The orders in which the maps of set operations and of removals are visited. *)
Context (range : gmap string (string * string) → list (string * (string * string))).
Context (rangeRemove : gmap string () → list (string * ())).

(** A map from the key of each operation, the later operation replacing the earlier. *)
Definition byKey {A} (key : A → string) (l : list A) : gmap string A := foldl (λ m a, <[key a := a]> m) ∅ l.
Definition removals (key : string → string) (l : list string) : list string :=
  (rangeRemove (foldl (λ m h, <[key h := ()]> m) ∅ l)).*1.

Definition mergeBodyMutations (routeLevel backendLevel : option aigHTTPBodyMutation) : option aigHTTPBodyMutation :=
  match routeLevel, backendLevel with
  | None, _ => backendLevel
  | _, None => routeLevel
  | Some r, Some b =>
      Some {| abm_Set := (range (byKey fst (abm_Set b ++ abm_Set r))).*2; abm_Remove := removals id (abm_Remove b ++ abm_Remove r) |}
  end.

Definition mergeHeaderMutations (routeLevel backendLevel : option aigHTTPHeaderMutation) : option aigHTTPHeaderMutation :=
  match routeLevel, backendLevel with
  | None, _ => backendLevel
  | _, None => routeLevel
  | Some r, Some b =>
      Some {| ahm_Set := (range (byKey (λ h, ToLower h.1) (ahm_Set b ++ ahm_Set r))).*2;
              ahm_Remove := removals ToLower (ahm_Remove b ++ ahm_Remove r) |}
  end.
End Merge.

(** ** Credentials *)

Definition AWSCredentialOverrideHeaderPrefix : string := "x-aigw-aws-".
Definition AWSCredentialOverrideMetadataKey : string := "x-aigw-aws-credentials".

Definition defaultOverrideHeaderName (t : string) : string :=
  if bool_decide (t = BackendSecurityPolicyTypeAPIKey) then "x-aigw-api-key"
  else if bool_decide (t = BackendSecurityPolicyTypeAnthropicAPIKey) then "x-aigw-anthropic-api-key"
  else if bool_decide (t = BackendSecurityPolicyTypeAzureAPIKey) then "x-aigw-azure-api-key"
  else if bool_decide (t = BackendSecurityPolicyTypeAzureCredentials) then "x-aigw-azure-access-token"
  else if bool_decide (t = BackendSecurityPolicyTypeGCPCredentials) then "x-aigw-gcp-access-token"
  else if bool_decide (t = BackendSecurityPolicyTypeOpenAICredentials) then "x-aigw-openai-access-token"
  else if bool_decide (t = BackendSecurityPolicyTypeAWSCredentials) then AWSCredentialOverrideHeaderPrefix
  else "".

Definition defaultOverrideMetadataKey (t : string) : string :=
  if bool_decide (t = BackendSecurityPolicyTypeAWSCredentials) then AWSCredentialOverrideMetadataKey else defaultOverrideHeaderName t.

Definition overrideInputHeaders (t headerName : string) : list string :=
  if bool_decide (t = BackendSecurityPolicyTypeAWSCredentials) then
    let '(accessKeyID, secretAccessKey, sessionToken) := AWSCredentialOverrideHeaderNames headerName in
    [accessKeyID; secretAccessKey; sessionToken]
  else [headerName].

Definition resolveCredentialOverride (bspType : string) (override : option aigCredentialOverride) (hasStaticCredential : bool) :
    outcome (option CredentialOverride) :=
  match override with
  | None => Ok None
  | Some override =>
      let result :=
        match cv_FromRequestHeaders override, cv_FromDynamicMetadata override with
        | Some src, _ =>
            let headerName := ToLower (if bool_decide (fh_Header src = "") then defaultOverrideHeaderName bspType else fh_Header src) in
            {| co_HeaderName := headerName; co_DynamicMetadataNamespace := ""; co_DynamicMetadataKey := "";
               co_FallbackToConfigured := default true (fh_FallbackToConfigured src);
               co_InputHeadersToRemove := overrideInputHeaders bspType headerName |}
        | None, Some src =>
            {| co_HeaderName := ""; co_DynamicMetadataNamespace := fm_Namespace src;
               co_DynamicMetadataKey := if bool_decide (fm_Key src = "") then defaultOverrideMetadataKey bspType else fm_Key src;
               co_FallbackToConfigured := default true (fm_FallbackToConfigured src); co_InputHeadersToRemove := [] |}
        | None, None =>
            {| co_HeaderName := ""; co_DynamicMetadataNamespace := ""; co_DynamicMetadataKey := ""; co_FallbackToConfigured := false;
               co_InputHeadersToRemove := [] |}
        end in
      if co_FallbackToConfigured result && negb hasStaticCredential then
        Fail (errors_New "credentialOverride with fallbackToConfigured=true requires a static credential to be configured")
      else Ok (Some result)
  end.

(** A field of a nil struct. *)
Definition deref {A} (o : option A) : outcome A := match o with Some a => Ok a | None => Panic "nil pointer dereference" end.

Definition backendSecurityPolicySecretRef (bsp : BackendSecurityPolicy) : outcome (option (string * string)) :=
  let t := bp_Type bsp in
  let! secretRef :=
    if bool_decide (t = BackendSecurityPolicyTypeAPIKey) then deref (bp_APIKey bsp)
    else if bool_decide (t = BackendSecurityPolicyTypeAWSCredentials) then
      let! c := deref (bp_AWSCredentials bsp) in Ok (mjoin (wc_CredentialsFile c))
    else if bool_decide (t = BackendSecurityPolicyTypeGCPCredentials) then
      let! c := deref (bp_GCPCredentials bsp) in Ok (mjoin (pc_CredentialsFile c))
    else if bool_decide (t = BackendSecurityPolicyTypeAzureAPIKey) then deref (bp_AzureAPIKey bsp)
    else if bool_decide (t = BackendSecurityPolicyTypeAnthropicAPIKey) then deref (bp_AnthropicAPIKey bsp)
    else if bool_decide (t = BackendSecurityPolicyTypeAzureCredentials) then
      let! c := deref (bp_AzureCredentials bsp) in Ok (zc_ClientSecretRef c)
    else Ok None in
  Ok ((λ r, (so_Name r, default (bp_Namespace bsp) (so_Namespace r))) <$> secretRef).

Definition apiKeyInSecret : string := "apiKey".
Definition AwsCredentialsKey : string := "credentials".
Definition AzureAccessTokenKey : string := "azureAccessToken".
Definition GCPAccessTokenKey : string := "gcpAccessToken".
Definition OpenAIAccessTokenKey : string := "openAIAccessToken".
Definition GetBSPSecretName (bspName : string) : string := "ai-eg-bsp-" +:+ bspName.

Definition noAuth : BackendAuth :=
  {| ba_APIKey := None; ba_AWSAuth := None; ba_AzureAPIKey := None; ba_AnthropicAPIKey := None; ba_AzureAuth := None; ba_GCPAuth := None;
     ba_OpenAIAuth := None; ba_CredentialOverride := None |}.

(** What is used of the Kubernetes clients beside the grants. *)
Class GatewayClient := {
  get_AIServiceBackend : string → string → outcome AIServiceBackendSpec;
  list_BackendSecurityPolicies : string → string → outcome (list BackendSecurityPolicy);
  list_TargetingQuotaPolicies : string → outcome (list QuotaPolicy);
  get_SecretIn : string → string → outcome Secret;
}.

Section Credentials.
Context `{GC : !GrantClient, CL : !GatewayClient}.

Definition getSecretData (namespace name dataKey : string) : outcome string :=
  let! secret := owrap ("failed to get secret " +:+ namespace +:+ "/" +:+ name +:+ ": ") (get_SecretIn namespace name) in
  match sec_Data secret !! dataKey, sec_StringData secret !! dataKey with
  | Some value, _ => Ok value
  | None, Some value => Ok value
  | None, None => Fail (errors_New ("secret " +:+ namespace +:+ "/" +:+ name +:+ " does not contain key " +:+ dataKey))
  end.

Definition getBSPSecretRefData (bsp : BackendSecurityPolicy) (dataKey : string) : outcome string :=
  let! ref := backendSecurityPolicySecretRef bsp in
  match ref with
  | None => Fail (errors_New ("secretRef is not set for policy " +:+ bp_Namespace bsp +:+ "/" +:+ bp_Name bsp))
  | Some (name, namespace) =>
      let! _ := validateSecretReference (bp_Namespace bsp) namespace name in
      getSecretData namespace name dataKey
  end.

(** The secret the rotation of a policy writes. *)
Definition rotatedSecret (bsp : BackendSecurityPolicy) (dataKey : string) : outcome string :=
  getSecretData (bp_Namespace bsp) (GetBSPSecretName (bp_Name bsp)) dataKey.

Definition awsAuthOf (bsp : BackendSecurityPolicy) : outcome AWSAuth :=
  let! awsCred := deref (bp_AWSCredentials bsp) in
  if bool_decide (wc_CredentialsFile awsCred = None) && bool_decide (wc_OIDCExchangeToken awsCred = None) then
    Ok {| aws_CredentialFileLiteral := ""; aws_Region := wc_Region awsCred |}
  else
    let! literal := match wc_CredentialsFile awsCred with
                    | Some _ => getBSPSecretRefData bsp AwsCredentialsKey
                    | None => rotatedSecret bsp AwsCredentialsKey
                    end in
    Ok {| aws_CredentialFileLiteral := literal; aws_Region := wc_Region awsCred |}.

(** With whether there is a token of the gateway's own. *)
Definition gcpAuthOf (bsp : BackendSecurityPolicy) : outcome (GCPAuth * bool) :=
  let! gcpCreds := deref (bp_GCPCredentials bsp) in
  if bool_decide (pc_CredentialsFile gcpCreds = None) && bool_decide (pc_WorkloadIdentityFederationConfig gcpCreds = None) then
    Ok ({| gcp_AccessToken := ""; gcp_Region := pc_Region gcpCreds; gcp_ProjectName := pc_ProjectName gcpCreds |}, false)
  else
    let! token := rotatedSecret bsp GCPAccessTokenKey in
    Ok ({| gcp_AccessToken := token; gcp_Region := pc_Region gcpCreds; gcp_ProjectName := pc_ProjectName gcpCreds |}, true).

Definition staticAuthOf (bsp : BackendSecurityPolicy) : outcome (BackendAuth * bool) :=
  let t := bp_Type bsp in
  let n := noAuth in
  if bool_decide (t = BackendSecurityPolicyTypeAPIKey) then
    let! k := getBSPSecretRefData bsp apiKeyInSecret in
    Ok ({| ba_APIKey := Some {| ak_Key := k |}; ba_AWSAuth := None; ba_AzureAPIKey := None; ba_AnthropicAPIKey := None; ba_AzureAuth := None;
           ba_GCPAuth := None; ba_OpenAIAuth := None; ba_CredentialOverride := None |}, true)
  else if bool_decide (t = BackendSecurityPolicyTypeAzureAPIKey) then
    let! k := getBSPSecretRefData bsp apiKeyInSecret in
    Ok ({| ba_APIKey := None; ba_AWSAuth := None; ba_AzureAPIKey := Some {| azk_Key := k |}; ba_AnthropicAPIKey := None; ba_AzureAuth := None;
           ba_GCPAuth := None; ba_OpenAIAuth := None; ba_CredentialOverride := None |}, true)
  else if bool_decide (t = BackendSecurityPolicyTypeAnthropicAPIKey) then
    let! k := getBSPSecretRefData bsp apiKeyInSecret in
    Ok ({| ba_APIKey := None; ba_AWSAuth := None; ba_AzureAPIKey := None; ba_AnthropicAPIKey := Some {| ank_Key := k |}; ba_AzureAuth := None;
           ba_GCPAuth := None; ba_OpenAIAuth := None; ba_CredentialOverride := None |}, true)
  else if bool_decide (t = BackendSecurityPolicyTypeAWSCredentials) then
    let! a := awsAuthOf bsp in
    Ok ({| ba_APIKey := None; ba_AWSAuth := Some a; ba_AzureAPIKey := None; ba_AnthropicAPIKey := None; ba_AzureAuth := None; ba_GCPAuth := None;
           ba_OpenAIAuth := None; ba_CredentialOverride := None |}, true)
  else if bool_decide (t = BackendSecurityPolicyTypeAzureCredentials) then
    let! token := rotatedSecret bsp AzureAccessTokenKey in
    Ok ({| ba_APIKey := None; ba_AWSAuth := None; ba_AzureAPIKey := None; ba_AnthropicAPIKey := None;
           ba_AzureAuth := Some {| az_AccessToken := token |}; ba_GCPAuth := None; ba_OpenAIAuth := None; ba_CredentialOverride := None |}, true)
  else if bool_decide (t = BackendSecurityPolicyTypeGCPCredentials) then
    let! r := gcpAuthOf bsp in
    Ok ({| ba_APIKey := None; ba_AWSAuth := None; ba_AzureAPIKey := None; ba_AnthropicAPIKey := None; ba_AzureAuth := None;
           ba_GCPAuth := Some r.1; ba_OpenAIAuth := None; ba_CredentialOverride := None |}, r.2)
  else if bool_decide (t = BackendSecurityPolicyTypeOpenAICredentials) then
    let! token := rotatedSecret bsp OpenAIAccessTokenKey in
    let! c := deref (bp_OpenAICredentials bsp) in
    Ok ({| ba_APIKey := None; ba_AWSAuth := None; ba_AzureAPIKey := None; ba_AnthropicAPIKey := None; ba_AzureAuth := None; ba_GCPAuth := None;
           ba_OpenAIAuth := Some {| oa_AccessToken := token; oa_Organization := oc_Organization c; oa_Project := oc_Project c |};
           ba_CredentialOverride := None |}, true)
  else Fail (errors_New ("invalid backend security type " +:+ t +:+ " for policy " +:+ bp_Name bsp)).

Definition setCredentialOverride (o : option CredentialOverride) (a : BackendAuth) : BackendAuth :=
  {| ba_APIKey := ba_APIKey a; ba_AWSAuth := ba_AWSAuth a; ba_AzureAPIKey := ba_AzureAPIKey a; ba_AnthropicAPIKey := ba_AnthropicAPIKey a;
     ba_AzureAuth := ba_AzureAuth a; ba_GCPAuth := ba_GCPAuth a; ba_OpenAIAuth := ba_OpenAIAuth a; ba_CredentialOverride := o |}.

Definition bspToFilterAPIBackendAuth (bsp : BackendSecurityPolicy) : outcome BackendAuth :=
  let! r := staticAuthOf bsp in
  match bp_CredentialOverride bsp with
  | None => Ok r.1
  | Some o =>
      let! c := owrap ("invalid credentialOverride for policy " +:+ bp_Name bsp +:+ ": ") (resolveCredentialOverride (bp_Type bsp) (Some o) r.2) in
      Ok (setCredentialOverride c r.1)
  end.

(** The policies of a list that target an object, once for each target that does. *)
Definition matchingBSPs (group kind name : string) (l : list BackendSecurityPolicy) : list BackendSecurityPolicy :=
  policy ← l; target ← bp_TargetRefs policy;
  if bool_decide (lt_Name target = name) && bool_decide (lt_Group target = group) && bool_decide (lt_Kind target = kind) then [policy] else [].

Definition backendWithMaybeBSP (namespace name : string) : outcome (AIServiceBackendSpec * option BackendSecurityPolicy) :=
  let! backend := get_AIServiceBackend namespace name in
  let! l := owrap ("failed to list BackendSecurityPolicies for backend " +:+ name +:+ ": ")
    (list_BackendSecurityPolicies namespace (namespacedNameIndexKey name namespace)) in
  match matchingBSPs aiServiceBackendGroup aiServiceBackendKind name l with
  | [] => Ok (backend, None)
  | [bsp] => Ok (backend, Some bsp)
  | _ => Fail (errors_New ("multiple BackendSecurityPolicies found for backend " +:+ name))
  end.

Definition getBSPForInferencePool (namespace name : string) : outcome (option BackendSecurityPolicy) :=
  let! l := owrap ("failed to list BackendSecurityPolicies for inference pool " +:+ name +:+ ": ")
    (list_BackendSecurityPolicies namespace (namespacedNameIndexKey name namespace)) in
  match matchingBSPs inferencePoolGroup inferencePoolKind name l with
  | [] => Ok None
  | [bsp] => Ok (Some bsp)
  | _ => Fail (errors_New ("multiple BackendSecurityPolicies found for inference pool " +:+ name +:+ " in namespace " +:+ namespace))
  end.
End Credentials.

Definition stripCredentialOverrideInputHeaders (b : Backend) : Backend :=
  match be_Auth b ≫= ba_CredentialOverride with
  | Some o =>
      if bool_decide (co_InputHeadersToRemove o = []) then b
      else
        let m := default {| hm_Set := []; hm_Remove := [] |} (be_HeaderMutation b) in
        {| be_Name := be_Name b; be_AIServiceBackendName := be_AIServiceBackendName b; be_ModelNameOverride := be_ModelNameOverride b;
           be_Schema := be_Schema b; be_Auth := be_Auth b;
           be_HeaderMutation := Some {| hm_Set := hm_Set m; hm_Remove := hm_Remove m ++ co_InputHeadersToRemove o |};
           be_BodyMutation := be_BodyMutation b; be_HeaderValueFilters := be_HeaderValueFilters b |}
  | None => b
  end.

(** ** One backend *)

Definition isCtxErr (err : error) : bool := errors_Is err ContextCanceled || errors_Is err ContextDeadlineExceeded.

(** An error of an interrupted read ends the reconcile, any other skips the backend. *)
Definition skipUnlessCtx {A} (what : string) (r : outcome A) : outcome (option A) :=
  match r with
  | Ok a => Ok (Some a)
  | Fail e => if isCtxErr e then Fail (Errorf_w what e) else Ok None
  | Panic p => Panic p
  end.

Section Reconcile.
Context `{GC : !GrantClient, CL : !GatewayClient}.
Context (range : gmap string (string * string) → list (string * (string * string))).
Context (rangeRemove : gmap string () → list (string * ())).

Definition validateBackendRef (routeNamespace backendNamespace : string) (ref : AIGatewayRouteRuleBackendRef) : outcome unit :=
  if IsCrossNamespace ref routeNamespace then
    if IsInferencePool ref then validateInferencePoolReference routeNamespace backendNamespace (rb_Name ref)
    else validateAIServiceBackendReference routeNamespace backendNamespace (rb_Name ref)
  else Ok tt.

Definition inferencePoolSchema : VersionedAPISchema := {| sc_Name := APISchemaOpenAI; sc_Version := "v1"; sc_Prefix := "v1" |}.

(** The backend of a reference with the security policy that targets it. *)
Definition resolveBackend (backendNamespace : string) (ref : AIGatewayRouteRuleBackendRef) (name : string) :
    outcome (option (Backend * option BackendSecurityPolicy)) :=
  let backend schema aiName hm bm hf :=
    {| be_Name := name; be_AIServiceBackendName := aiName; be_ModelNameOverride := rb_ModelNameOverride ref; be_Schema := schema; be_Auth := None;
       be_HeaderMutation := hm; be_BodyMutation := bm; be_HeaderValueFilters := hf |} in
  if IsInferencePool ref then
    let! r := skipUnlessCtx ("reconcile interrupted while reading backend security policy for inference pool " +:+ rb_Name ref +:+ ": ")
      (getBSPForInferencePool backendNamespace (rb_Name ref)) in
    Ok ((λ bsp, (backend inferencePoolSchema "" None None [], bsp)) <$> r)
  else
    let! r := skipUnlessCtx ("reconcile interrupted while reading backend " +:+ rb_Name ref +:+ ": ")
      (backendWithMaybeBSP backendNamespace (rb_Name ref)) in
    Ok ((λ '(spec, bsp),
          (backend (schemaToFilterAPI (bs_APISchema spec)) (NamespacedNameKey backendNamespace (rb_Name ref))
             (headerMutationToFilterAPI (mergeHeaderMutations range rangeRemove (rb_HeaderMutation ref) (bs_HeaderMutation spec)))
             (bodyMutationToFilterAPI (mergeBodyMutations range rangeRemove (rb_BodyMutation ref) (bs_BodyMutation spec)))
             (headerValueFiltersToFilterAPI (bs_HeaderValueFilters spec)), bsp)) <$> r).

Definition setAuth (auth : BackendAuth) (b : Backend) : Backend :=
  {| be_Name := be_Name b; be_AIServiceBackendName := be_AIServiceBackendName b; be_ModelNameOverride := be_ModelNameOverride b;
     be_Schema := be_Schema b; be_Auth := Some auth; be_HeaderMutation := be_HeaderMutation b; be_BodyMutation := be_BodyMutation b;
     be_HeaderValueFilters := be_HeaderValueFilters b |}.

(** One turn of the loop over the references; [None] leaves the backend out. *)
Definition backendOf (route : AIGatewayRoute) (ruleIndex backendRefIndex : nat) (ref : AIGatewayRouteRuleBackendRef) : outcome (option Backend) :=
  let name := PerRouteRuleRefBackendName (ar_Namespace route) (rb_Name ref) (ar_Name route) ruleIndex backendRefIndex in
  let backendNamespace := GetNamespace ref (ar_Namespace route) in
  match validateBackendRef (ar_Namespace route) backendNamespace ref with
  | Fail _ => Ok None
  | Panic p => Panic p
  | Ok _ =>
      let! r := resolveBackend backendNamespace ref name in
      match r with
      | None => Ok None
      | Some (b, None) => Ok (Some b)
      | Some (b, Some bsp) =>
          let! auth := skipUnlessCtx ("reconcile interrupted while reading auth for backend security policy " +:+ bp_Name bsp +:+ ": ")
            (bspToFilterAPIBackendAuth bsp) in
          Ok ((λ auth, stripCredentialOverrideInputHeaders (setAuth auth b)) <$> auth)
      end
  end.

(** The references of the rules with their indexes. *)
Definition indexedRefs (route : AIGatewayRoute) : list (nat * nat * AIGatewayRouteRuleBackendRef) :=
  rule ← imap pair (ar_Rules route); ref ← imap pair (ru_BackendRefs rule.2); [(rule.1, ref.1, ref.2)].

Definition routeBackends (route : AIGatewayRoute) : outcome (list Backend) :=
  let! bs := omapM (λ '(i, j, ref), backendOf route i j ref) (indexedRefs route) in
  Ok (omap id bs).
End Reconcile.

(** ** Models *)

Definition defaultOwnedBy : string := "Envoy AI Gateway".
Definition HeaderMatchExact : string := "Exact".

(** A header match that declares a model. *)
Definition declaresModel (h : HTTPHeaderMatch) : bool :=
  match hx_Type h with Some t => bool_decide (t = HeaderMatchExact) | None => true end && bool_decide (hx_Name h = ModelNameHeaderKeyDefault).

Definition modelsOf (route : AIGatewayRoute) : list Model :=
  rule ← ar_Rules route;
  if ru_ExcludeFromModelsEndpoint rule then []
  else
    hs ← ru_Matches rule; h ← hs;
    if declaresModel h then
      [{| md_Name := hx_Value h; md_OwnedBy := default defaultOwnedBy (ru_ModelsOwnedBy rule);
          md_CreatedAt := default (ar_CreationTimestamp route) (ru_ModelsCreatedAt rule) |}]
    else [].

Definition appendModel (model : Model) (m : gmap string (option (list Model))) (hn : string) : gmap string (option (list Model)) :=
  <[hn := Some (default [] (mjoin (m !! hn)) ++ [model])]> m.

(** ** Costs *)

Section Quotas.
Context {Prog : Type} `{CE : !CelEnv Prog, GC : !GrantClient, CL : !GatewayClient}.
Context (rangeBackends : gmap string () → list (string * ())).

Definition QuotaCostMetadataKey : string := "quota_cost".

(** The names of a list of backends that are not empty. *)
Definition nonEmptyNames (f : Backend → string) (l : list Backend) : gmap string () :=
  foldl (λ m b, if bool_decide (f b ≠ "") then <[f b := ()]> m else m) ∅ l.

(** The policies of the backends, each once. *)
Definition collectPolicies (seen : list QuotaPolicy) (backendKey : string) : outcome (list QuotaPolicy) :=
  match cut_at "/" backendKey with
  | None => Ok seen
  | Some (backendNamespace, backendName) =>
      if bool_decide (backendNamespace = "") || bool_decide (backendName = "") then Ok seen
      else
        let! matches := list_TargetingQuotaPolicies (namespacedNameIndexKey backendName backendNamespace) in
        Ok (foldl (λ seen p, if bool_decide (NamespacedNameKey (qp_Namespace p) (qp_Name p) ∈
                                 (λ q, NamespacedNameKey (qp_Namespace q) (qp_Name q)) <$> seen)
                             then seen else seen ++ [p]) seen matches)
  end.

Definition authorizedTargetsOf (qp : QuotaPolicy) : list TargetReference :=
  filter (λ ref, is_ok (validateQuotaPolicyAIServiceBackendReference (qp_Namespace qp) (TargetNamespace ref (qp_Namespace qp)) (tg_Name ref)) = true)
    (qp_TargetRefs qp).

Definition targetKey (qp : QuotaPolicy) (ref : TargetReference) : string :=
  NamespacedNameKey (TargetNamespace ref (qp_Namespace qp)) (tg_Name ref).

(** The cost entries of one model of a policy. *)
Definition injectModel (routeModels : gmap string ()) (routeName : string) (qp : QuotaPolicy) (authorizedTargets : list TargetReference)
    (costs : list LLMRequestCost) (pmq : PerModelQuota) : list LLMRequestCost :=
  match pm_ModelName pmq with
  | None => costs
  | Some modelName =>
      if bool_decide (routeModels ≠ ∅) && bool_decide (routeModels !! modelName = None) then costs
      else
        let expr := default "total_tokens" (qd_CostExpression (pm_Quota pmq)) in
        if negb (is_ok (NewProgram (Prog := Prog) expr)) then costs
        else
          foldl (λ costs ref,
            if bool_decide ((modelName, targetKey qp ref) ∈ (λ c, (rc_Model c, rc_Backend c)) <$> costs) then costs
            else costs ++ [{| rc_MetadataKey := QuotaCostMetadataKey; rc_RouteName := routeName; rc_Type := LLMRequestCostTypeCEL; rc_CEL := expr;
                              rc_Backend := targetKey qp ref; rc_Model := modelName |}]) costs authorizedTargets
  end.

Definition injectPolicy (backends routeModels : gmap string ()) (routeName : string) (costs : list LLMRequestCost) (qp : QuotaPolicy) :
    list LLMRequestCost :=
  let authorizedTargets := authorizedTargetsOf qp in
  if existsb (λ ref, bool_decide (is_Some (backends !! targetKey qp ref))) authorizedTargets
  then foldl (injectModel routeModels routeName qp authorizedTargets) costs (qp_PerModelQuotas qp)
  else costs.

(** The entries for a route, from all the backends collected so far; nothing when
    the policies cannot be listed. *)
Definition injectQuotaPolicyCostExpressions (collected : list Backend) (routeName : string) : outcome (list LLMRequestCost) :=
  let backends := nonEmptyNames be_AIServiceBackendName collected in
  let routeModels := nonEmptyNames be_ModelNameOverride collected in
  match ofold collectPolicies [] (rangeBackends backends).*1 with
  | Ok policies => Ok (foldl (injectPolicy backends routeModels routeName) [] policies)
  | Fail _ => Ok []
  | Panic p => Panic p
  end.
End Quotas.

(** ** The configuration *)

Section FilterConfig.
Context {Prog : Type} `{CE : !CelEnv Prog, GC : !GrantClient, CL : !GatewayClient}.
Context (range : gmap string (string * string) → list (string * (string * string))).
Context (rangeUnit : gmap string () → list (string * ())).
Context (rangeCosts : gmap string LLMRequestCost → list (string * LLMRequestCost)).

(** The locals of the loop over the routes. *)
Record filterState := {
  fs_Backends : list Backend;
  fs_Models : list Model;
  fs_ModelsByHost : gmap string (option (list Model));
  fs_LLMRequestCosts : list LLMRequestCost;
  fs_unscopedModels : list Model;
  fs_hasEffectiveRoute : bool;
}.

Definition routeCosts (route : AIGatewayRoute) : outcome (gmap string LLMRequestCost) :=
  ofold (λ dedup cost,
    let! fc := owrap ("failed to convert LLMRequestCosts for route " +:+ ar_Name route +:+ ": ")
      (aigwLLMRequestCostToFilterAPI cost (NamespacedNameKey (ar_Namespace route) (ar_Name route))) in
    Ok (<[rc_MetadataKey fc := fc]> dedup)) ∅ (ar_LLMRequestCosts route).

(** The models of a route, listed for its hostnames or for every host. *)
Definition declareModels (route : AIGatewayRoute) (st : filterState) : filterState :=
  let models := modelsOf route in
  let scoped := bool_decide (ar_Hostnames route ≠ []) in
  {| fs_Backends := fs_Backends st; fs_Models := fs_Models st ++ models;
     fs_ModelsByHost := if scoped then foldl (λ m model, foldl (appendModel model) m (ar_Hostnames route)) (fs_ModelsByHost st) models
                        else fs_ModelsByHost st;
     fs_LLMRequestCosts := fs_LLMRequestCosts st;
     fs_unscopedModels := if scoped then fs_unscopedModels st else fs_unscopedModels st ++ models;
     fs_hasEffectiveRoute := true |}.

Definition addRoute (st : filterState) (route : AIGatewayRoute) : outcome filterState :=
  if ar_Deleted route then Ok st
  else
    let st := declareModels route st in
    let! bs := routeBackends range rangeUnit route in
    let backends := fs_Backends st ++ bs in
    let! costs :=
      if bool_decide (bs ≠ []) then
        let! dedup := routeCosts route in
        let! quota := injectQuotaPolicyCostExpressions (Prog := Prog) rangeUnit backends (NamespacedNameKey (ar_Namespace route) (ar_Name route)) in
        Ok (quota ++ (rangeCosts dedup).*2)
      else Ok [] in
    Ok {| fs_Backends := backends; fs_Models := fs_Models st; fs_ModelsByHost := fs_ModelsByHost st;
          fs_LLMRequestCosts := fs_LLMRequestCosts st ++ costs; fs_unscopedModels := fs_unscopedModels st;
          fs_hasEffectiveRoute := fs_hasEffectiveRoute st |}.

Definition emptyState : filterState :=
  {| fs_Backends := []; fs_Models := []; fs_ModelsByHost := ∅; fs_LLMRequestCosts := []; fs_unscopedModels := []; fs_hasEffectiveRoute := false |}.

(** The models of the routes without hostnames belong to every host, once a route
    has one. *)
Definition promote (st : filterState) : gmap string (option (list Model)) * list Model :=
  if bool_decide (fs_ModelsByHost st ≠ ∅) && bool_decide (fs_unscopedModels st ≠ []) then
    ((λ l, Some (default [] l ++ fs_unscopedModels st)) <$> fs_ModelsByHost st, fs_unscopedModels st)
  else (fs_ModelsByHost st, []).

(** The configuration, and whether there is an effective route. *)
Definition filterConfig (builder : extProcBuilder) (version uuid : string) (aiGatewayRoutes : list AIGatewayRoute)
    (mcpRoutes : list aigMCPRoute) (defaultLLMCosts : list aigLLMRequestCost) : outcome (Config * option MCPConfig * bool) :=
  let! globals := omapM (λ cost, owrap "failed to convert global LLMRequestCosts: " (aigwGlobalLLMRequestCostToFilterAPI cost)) defaultLLMCosts in
  let! st := ofold addRoute emptyState aiGatewayRoutes in
  let '(modelsByHost, unscopedModels) := promote st in
  let '(mcp, effectiveMCPRoute) := mcpConfig mcpRoutes in
  let mcp := (λ m, {| mc_BackendListenerAddr := mc_BackendListenerAddr m; mc_Routes := mc_Routes m;
                      mc_SessionEncryption := mcpSessionEncryption builder |}) <$> mcp in
  Ok ({| cfg_Version := version; cfg_UUID := uuid; cfg_GlobalLLMRequestCosts := globals; cfg_LLMRequestCosts := fs_LLMRequestCosts st;
         cfg_Backends := fs_Backends st; cfg_Models := fs_Models st; cfg_ModelsByHost := modelsByHost; cfg_UnscopedModels := unscopedModels;
         cfg_FileIDEncryption := fileIDEncryption builder |}, mcp, fs_hasEffectiveRoute st || effectiveMCPRoute).

Context (sha256 : string → string) (yaml_MarshalIndex : ConfigBundleIndex → outcome string).
Context (yaml_Marshal : Config → option MCPConfig → outcome string).
Context {K : Type} `{KS : !KubeSecrets K}.

Definition reconcileFilterConfigSecret (builder : extProcBuilder) (version gatewayName gatewayNamespace : string)
    (aiGatewayRoutes : list AIGatewayRoute) (mcpRoutes : list aigMCPRoute) (uuid : string) (defaultLLMCosts : list aigLLMRequestCost) (k : K) :
    K * outcome bool :=
  match filterConfig builder version uuid aiGatewayRoutes mcpRoutes defaultLLMCosts with
  | Ok (ec, mcp, hasEffectiveRoute) =>
      match owrap "failed to marshal extproc config: " (yaml_Marshal ec mcp) with
      | Ok marshaled =>
          let '(k, r) := writeFilterConfigBundle sha256 yaml_MarshalIndex version gatewayName gatewayNamespace marshaled uuid k in
          (k, let! _ := r in Ok hasEffectiveRoute)
      | Fail e => (k, Fail e)
      | Panic p => (k, Panic p)
      end
  | Fail e => (k, Fail e)
  | Panic p => (k, Panic p)
  end.
End FilterConfig.
