(* ===== verification/FilterConfigProps.v ===== *)
(** * The filter configuration: properties

    Which backends a Gateway's configuration holds and with which credentials,
    that the credential of a request never reaches the backend as a header, and
    which models a host is shown. *)

From Stdlib Require Import Ascii ZArith Lia.
From stdpp Require Import base gmap strings list.
From S2P Require Import Prelude GoStrings GoNum InternalApi Kube RateLimit McpConfig McpController FilterApi ConfigBundle HeaderMutator EnvoyTypes ExtProc Models ExtProcBuilder FilterConfig.

Lemma Forall2_elem_r {A B} (P : A → B → Prop) l k y : Forall2 P l k → y ∈ k → ∃ x, x ∈ l ∧ P x y.
Proof. induction 1 as [|x y' l k Hxy _ IH]; intros Hy; [by apply not_elem_of_nil in Hy|]. apply elem_of_cons in Hy as [->|Hy]; set_solver. Qed.

(** ** Security policies *)

(** A list with an index key in a namespace holds the objects of that namespace
    with that key. *)
Class GatewayClientLaws (CL : GatewayClient) (policies : list BackendSecurityPolicy) := {
  list_BackendSecurityPolicies_index ns key l :
    list_BackendSecurityPolicies ns key = Ok l →
    l = filter (λ p, bp_Namespace p = ns ∧ key ∈ backendSecurityPolicyTargetRefsIndexFunc p) policies;
}.

(** A policy targets an object of its own namespace. *)
Definition targets (group kind ns name : string) (p : BackendSecurityPolicy) : Prop :=
  bp_Namespace p = ns ∧ ∃ t, t ∈ bp_TargetRefs p ∧ lt_Name t = name ∧ lt_Group t = group ∧ lt_Kind t = kind.

Lemma elem_of_matching group kind name l p :
  p ∈ matchingBSPs group kind name l ↔ p ∈ l ∧ ∃ t, t ∈ bp_TargetRefs p ∧ lt_Name t = name ∧ lt_Group t = group ∧ lt_Kind t = kind.
Proof.
  unfold matchingBSPs. rewrite list_elem_of_bind. split.
  - intros (q & Hp & Hq). apply list_elem_of_bind in Hp as (t & Hp & Ht). destruct (_ && _) eqn:E; [|by apply not_elem_of_nil in Hp].
    rewrite !andb_true_iff, !bool_decide_eq_true in E. destruct E as [[? ?] ?]. apply list_elem_of_singleton in Hp as ->.
    split; [done|]. by exists t.
  - intros (Hp & t & Ht & Hn & Hg & Hk). exists p. split; [|done]. apply list_elem_of_bind. exists t. split; [|done].
    rewrite !bool_decide_true by done. by apply list_elem_of_singleton.
Qed.

Section Policies.
Context `{CL : !GatewayClient} (policies : list BackendSecurityPolicy) `{CLL : !GatewayClientLaws CL policies}.

Lemma matching_targets group kind ns name l p :
  list_BackendSecurityPolicies ns (namespacedNameIndexKey name ns) = Ok l →
  p ∈ matchingBSPs group kind name l ↔ p ∈ policies ∧ targets group kind ns name p.
Proof.
  intros ->%list_BackendSecurityPolicies_index. rewrite elem_of_matching, list_elem_of_filter. unfold targets. split; [naive_solver|].
  intros (Hp & Hns & t & Ht & Hn & Hg & Hk). split_and!; [done| |done|by exists t].
  unfold backendSecurityPolicyTargetRefsIndexFunc. apply list_elem_of_fmap. exists t. by rewrite Hn, Hns.
Qed.

(** The policy that was found is the only one, and none was found when there is
    none. *)
Definition policyOf (group kind ns name : string) (found : option BackendSecurityPolicy) : Prop :=
  match found with
  | None => ∀ q, q ∈ policies → ¬ targets group kind ns name q
  | Some p => p ∈ policies ∧ targets group kind ns name p ∧ ∀ q, q ∈ policies → targets group kind ns name q → q = p
  end.

Lemma matching_policyOf group kind ns name l :
  list_BackendSecurityPolicies ns (namespacedNameIndexKey name ns) = Ok l →
  match matchingBSPs group kind name l with
  | [] => policyOf group kind ns name None
  | [p] => policyOf group kind ns name (Some p)
  | _ => True
  end.
Proof.
  intros Hl. pose proof (λ p, matching_targets group kind ns name l p Hl) as Hm.
  destruct (matchingBSPs group kind name l) as [|p [|q ms]]; cbn; [| |done].
  - intros q Hq Ht. by apply (not_elem_of_nil q), Hm.
  - split; [by apply (Hm p), list_elem_of_singleton|]. split; [by apply (Hm p), list_elem_of_singleton|].
    intros q Hq Ht. by apply list_elem_of_singleton, Hm.
Qed.
End Policies.

(** ** The backends of a configuration *)

(** The kind of object a reference names. *)
Definition refKind (ref : AIGatewayRouteRuleBackendRef) : resourceKind := if IsInferencePool ref then poolKind else backendKind.

(** A policy whose credential is read from the secret it refers to. *)
Definition readsSecretRef (p : BackendSecurityPolicy) : bool :=
  bool_decide (bp_Type p ∈ [BackendSecurityPolicyTypeAPIKey; BackendSecurityPolicyTypeAzureAPIKey; BackendSecurityPolicyTypeAnthropicAPIKey]) ||
  bool_decide (bp_Type p = BackendSecurityPolicyTypeAWSCredentials) &&
    match bp_AWSCredentials p with Some c => bool_decide (is_Some (wc_CredentialsFile c)) | None => false end.

Section Backends.
Context `{GC : !GrantClient, CL : !GatewayClient} (policies : list BackendSecurityPolicy) (grants : list ReferenceGrant).
Context `{CLL : !GatewayClientLaws CL policies, GL : !GrantClientLaws GC grants}.
Context (namespaces : Forall (λ g, Contains (rg_Namespace g) "." = false) grants).
Context (range : gmap string (string * string) → list (string * (string * string))).
Context (rangeRemove : gmap string () → list (string * ())).

(** A reference within a namespace, or one a grant permits. *)
Definition permitted (from : resourceKind) (ns : string) (target : resourceKind) (targetNs name : string) : Prop :=
  ns = targetNs ∨ ∃ g, g ∈ grants ∧ permits g from ns target targetNs name.

(** The credentials of a published backend are those of the one policy for it. *)
Definition secured (group kind ns name : string) (auth : option BackendAuth) : Prop :=
  match auth with
  | None => ∀ q, q ∈ policies → ¬ targets group kind ns name q
  | Some a => ∃ p, policyOf policies group kind ns name (Some p) ∧ bspToFilterAPIBackendAuth p = Ok a ∧
      (readsSecretRef p = true → ∃ secret secretNs, backendSecurityPolicySecretRef p = Ok (Some (secret, secretNs)) ∧
         (Contains secretNs "." = false → permitted securityPolicyKind (bp_Namespace p) coreSecretKind secretNs secret))
  end.

Lemma skip_ok {A} what (r : outcome A) a : skipUnlessCtx what r = Ok (Some a) → r = Ok a.
Proof. destruct r as [x|e|p]; cbn; [by intros [= ->]|by destruct (isCtxErr e)|done]. Qed.

Lemma validate_permitted from ns target targetNs name :
  Contains targetNs "." = false → validateReference from ns target targetNs name = Ok tt → permitted from ns target targetNs name.
Proof using GL namespaces.
  intros Hdot Hv. pose proof (validateReference_spec grants namespaces from ns target targetNs name Hdot) as Hs. by rewrite Hv in Hs.
Qed.

Lemma secretRef_read p key v :
  getBSPSecretRefData p key = Ok v →
  ∃ secret secretNs, backendSecurityPolicySecretRef p = Ok (Some (secret, secretNs)) ∧
    (Contains secretNs "." = false → permitted securityPolicyKind (bp_Namespace p) coreSecretKind secretNs secret).
Proof using GL namespaces.
  unfold getBSPSecretRefData. intros (ref & Href & H)%obind_ok_inv. destruct ref as [[secret secretNs]|]; [|done].
  apply obind_ok_inv in H as ([] & Hv & _). exists secret, secretNs. split; [done|]. intros Hdot. by apply validate_permitted.
Qed.

Lemma auth_secret p a :
  bspToFilterAPIBackendAuth p = Ok a → readsSecretRef p = true →
  ∃ secret secretNs, backendSecurityPolicySecretRef p = Ok (Some (secret, secretNs)) ∧
    (Contains secretNs "." = false → permitted securityPolicyKind (bp_Namespace p) coreSecretKind secretNs secret).
Proof using GL namespaces.
  unfold bspToFilterAPIBackendAuth. intros ([r st] & Hs & _)%obind_ok_inv Hr. unfold staticAuthOf in Hs. cbv zeta in Hs.
  unfold readsSecretRef in Hr.
  destruct (bool_decide (bp_Type p = BackendSecurityPolicyTypeAPIKey)) eqn:E1; [apply obind_ok_inv in Hs as (k & Hk & _); by eapply secretRef_read|].
  destruct (bool_decide (bp_Type p = BackendSecurityPolicyTypeAzureAPIKey)) eqn:E2; [apply obind_ok_inv in Hs as (k & Hk & _); by eapply secretRef_read|].
  destruct (bool_decide (bp_Type p = BackendSecurityPolicyTypeAnthropicAPIKey)) eqn:E3;
    [apply obind_ok_inv in Hs as (k & Hk & _); by eapply secretRef_read|].
  apply bool_decide_eq_false in E1, E2, E3. rewrite bool_decide_eq_false_2 in Hr by (clear -E1 E2 E3; set_solver). cbn [orb] in Hr.
  apply andb_true_iff in Hr as [Ht Hf]. rewrite Ht in Hs. apply obind_ok_inv in Hs as (w & Hw & _). unfold awsAuthOf in Hw.
  apply obind_ok_inv in Hw as (c & Hc & Hw). destruct (bp_AWSCredentials p) as [c'|]; [|done]. cbn in Hc. injection Hc as ->.
  destruct (wc_CredentialsFile c) as [f|]; [|done]. cbn [andb] in Hw. rewrite bool_decide_eq_false_2 in Hw by done. cbn [andb] in Hw.
  apply obind_ok_inv in Hw as (lit & Hlit & _). by eapply secretRef_read.
Qed.

Lemma strip_auth b : be_Auth (stripCredentialOverrideInputHeaders b) = be_Auth b ∧ be_Name (stripCredentialOverrideInputHeaders b) = be_Name b.
Proof. unfold stripCredentialOverrideInputHeaders. destruct (be_Auth b ≫= _); [|done]. by case_bool_decide. Qed.

Lemma resolveBackend_spec ns ref name b bsp :
  resolveBackend range rangeRemove ns ref name = Ok (Some (b, bsp)) →
  be_Name b = name ∧ be_Auth b = None ∧ policyOf policies (rk_Group (refKind ref)) (rk_Kind (refKind ref)) ns (rb_Name ref) bsp.
Proof using CLL.
  unfold resolveBackend, refKind. cbv zeta. destruct (IsInferencePool ref).
  - intros ([found|] & Hf & [= <- <-])%obind_ok_inv. cbn. split; [done|]. split; [done|]. apply skip_ok in Hf. unfold getBSPForInferencePool in Hf.
    apply obind_ok_inv in Hf as (l & Hl%owrap_ok_inv & Hf).
    pose proof (matching_policyOf policies inferencePoolGroup inferencePoolKind ns (rb_Name ref) l Hl) as Hm.
    destruct (matchingBSPs _ _ _ l) as [|p [|q ms]]; by simplify_eq.
  - intros ([[spec found]|] & Hf & [= <- <-])%obind_ok_inv. cbn. split; [done|]. split; [done|]. apply skip_ok in Hf. unfold backendWithMaybeBSP in Hf.
    apply obind_ok_inv in Hf as (backend & _ & Hf). apply obind_ok_inv in Hf as (l & Hl%owrap_ok_inv & Hf).
    pose proof (matching_policyOf policies aiServiceBackendGroup aiServiceBackendKind ns (rb_Name ref) l Hl) as Hm.
    destruct (matchingBSPs _ _ _ l) as [|p [|q ms]]; by simplify_eq.
Qed.

(** A published backend stands for a reference of a route, which is permitted, and
    has the credentials of its policy. *)
Definition publishedFor (route : AIGatewayRoute) (b : Backend) : Prop :=
  ∃ i j ref, (i, j, ref) ∈ indexedRefs route ∧
    be_Name b = PerRouteRuleRefBackendName (ar_Namespace route) (rb_Name ref) (ar_Name route) i j ∧
    let ns := GetNamespace ref (ar_Namespace route) in
    (Contains ns "." = false → permitted routeKind (ar_Namespace route) (refKind ref) ns (rb_Name ref)) ∧
    secured (rk_Group (refKind ref)) (rk_Kind (refKind ref)) ns (rb_Name ref) (be_Auth b).

Lemma GetNamespace_local ref ns : IsCrossNamespace ref ns = false → GetNamespace ref ns = ns.
Proof.
  unfold IsCrossNamespace, GetNamespace, namespaceOr. destruct (rb_Namespace ref) as [n|]; [|done].
  repeat case_bool_decide; cbn; try done; intros; naive_solver.
Qed.

Lemma validateBackendRef_ok route ref :
  let ns := GetNamespace ref (ar_Namespace route) in
  validateBackendRef (ar_Namespace route) ns ref = Ok tt → Contains ns "." = false →
  permitted routeKind (ar_Namespace route) (refKind ref) ns (rb_Name ref).
Proof using GL namespaces.
  cbv zeta. unfold validateBackendRef, refKind. intros Hv Hdot. destruct (IsCrossNamespace ref (ar_Namespace route)) eqn:Ec.
  - destruct (IsInferencePool ref); by apply validate_permitted.
  - left. symmetry. by apply GetNamespace_local.
Qed.

(** The headers a credential may come from are removed. *)
Definition stripped (b : Backend) : Prop :=
  ∀ a o h, be_Auth b = Some a → ba_CredentialOverride a = Some o → h ∈ co_InputHeadersToRemove o →
    ∃ m, be_HeaderMutation b = Some m ∧ h ∈ hm_Remove m.

Lemma strip_stripped b : stripped (stripCredentialOverrideInputHeaders b).
Proof.
  intros a o h. rewrite (proj1 (strip_auth b)). intros Ha Ho Hh. unfold stripCredentialOverrideInputHeaders. rewrite Ha. cbn. rewrite Ho.
  case_bool_decide as E; [rewrite E in Hh; by apply not_elem_of_nil in Hh|]. eexists. split; [done|]. cbn. apply elem_of_app. by right.
Qed.

Lemma backendOf_published route i j ref b :
  (i, j, ref) ∈ indexedRefs route → backendOf range rangeRemove route i j ref = Ok (Some b) → publishedFor route b ∧ stripped b.
Proof using CLL GL namespaces.
  intros Hin. unfold backendOf. cbv zeta. destruct (validateBackendRef _ _ ref) as [[]|e|p] eqn:Ev; [|done..].
  intros ([[b0 bsp]|] & Hr & H)%obind_ok_inv; [|done]. apply resolveBackend_spec in Hr as (Hn & Ha & Hp).
  assert (∀ b', be_Name b' = be_Name b0 → secured (rk_Group (refKind ref)) (rk_Kind (refKind ref)) (GetNamespace ref (ar_Namespace route)) (rb_Name ref)
    (be_Auth b') → publishedFor route b') as Hpub.
  { intros b' Hn' Hsec. exists i, j, ref. split; [done|]. split; [congruence|]. cbv zeta. split; [|done]. by apply validateBackendRef_ok. }
  destruct bsp as [bsp|].
  - apply obind_ok_inv in H as ([auth|] & Hauth & H); [|done]. injection H as <-. apply skip_ok in Hauth. split; [|apply strip_stripped].
    apply Hpub; [by rewrite (proj2 (strip_auth _))|]. rewrite (proj1 (strip_auth _)). exists bsp. split; [done|]. split; [done|].
    intros Hreads. by eapply auth_secret.
  - injection H as <-. split; [apply Hpub; [done|]; by rewrite Ha|]. intros a o h. by rewrite Ha.
Qed.

Lemma routeBackends_published route bs b :
  routeBackends range rangeRemove route = Ok bs → b ∈ bs → publishedFor route b ∧ stripped b.
Proof using CLL GL namespaces.
  unfold routeBackends. intros (os & Hos & [= <-])%obind_ok_inv Hb. apply omapM_ok in Hos. apply list_elem_of_omap in Hb as (o & Ho & Hb).
  cbn in Hb. subst o. apply (Forall2_elem_r _ _ _ _ Hos) in Ho as ([[i j] ref] & Hin & Hf). by eapply backendOf_published.
Qed.
End Backends.

(** ** The loop over the routes *)

Section Loop.
Context {Prog : Type} `{CE : !CelEnv Prog, GC : !GrantClient, CL : !GatewayClient}.
Context (range : gmap string (string * string) → list (string * (string * string))).
Context (rangeUnit : gmap string () → list (string * ())).
Context (rangeCosts : gmap string LLMRequestCost → list (string * LLMRequestCost)).

Notation addRoute := (addRoute (Prog := Prog) range rangeUnit rangeCosts).
Notation live routes := (filter (λ r, ar_Deleted r = false) routes).

(** What a turn adds. *)
Lemma addRoute_ok st route st' :
  addRoute st route = Ok st' →
  if ar_Deleted route then st' = st
  else ∃ bs, routeBackends range rangeUnit route = Ok bs ∧ fs_Backends st' = fs_Backends st ++ bs ∧
         fs_Models st' = fs_Models st ++ modelsOf route ∧
         fs_ModelsByHost st' = fs_ModelsByHost (declareModels route st) ∧ fs_unscopedModels st' = fs_unscopedModels (declareModels route st).
Proof.
  unfold FilterConfig.addRoute. destruct (ar_Deleted route); [by intros [= <-]|]. cbv zeta.
  intros (bs & Hbs & (costs & _ & [= <-])%obind_ok_inv)%obind_ok_inv. by exists bs.
Qed.

Lemma loop_backends st routes st' :
  ofold addRoute st routes = Ok st' →
  ∃ bss, Forall2 (λ r bs, routeBackends range rangeUnit r = Ok bs) (live routes) bss ∧ fs_Backends st' = fs_Backends st ++ concat bss.
Proof.
  revert st. induction routes as [|r routes IH]; intros st; cbn [ofold].
  - intros [= <-]. exists []. by rewrite app_nil_r.
  - intros (st1 & H1%addRoute_ok & H2)%obind_ok_inv. destruct (IH _ H2) as (bss & Hf & Hb). rewrite filter_cons.
    destruct (ar_Deleted r) eqn:Ed.
    + subst st1. exists bss. rewrite decide_False by done. done.
    + destruct H1 as (bs & Hr & Hb1 & _). exists (bs :: bss). rewrite decide_True by done. split; [by constructor|].
      by rewrite Hb, Hb1, <-app_assoc.
Qed.

Lemma filterConfig_ok builder version uuid routes mcpRoutes globals ec mcp eff :
  filterConfig (Prog := Prog) range rangeUnit rangeCosts builder version uuid routes mcpRoutes globals = Ok (ec, mcp, eff) →
  ∃ st, ofold addRoute emptyState routes = Ok st ∧ cfg_Backends ec = fs_Backends st ∧ cfg_Models ec = fs_Models st ∧
    (cfg_ModelsByHost ec, cfg_UnscopedModels ec) = promote st.
Proof.
  unfold filterConfig. intros (gs & _ & (st & Hst & H)%obind_ok_inv)%obind_ok_inv. exists st. split; [done|].
  destruct (promote st) as [mbh um]. destruct (mcpConfig mcpRoutes) as [m e]. by injection H as <- _ _.
Qed.

(** A route is effective when it is not being deleted. *)
Definition effective (routes : list AIGatewayRoute) (mcpRoutes : list aigMCPRoute) : Prop :=
  Exists (λ r, ar_Deleted r = false) routes ∨ Exists (λ r, ro_Deleted r = false) mcpRoutes.

Lemma loop_effective st routes st' :
  ofold addRoute st routes = Ok st' → fs_hasEffectiveRoute st' = true ↔ fs_hasEffectiveRoute st = true ∨ Exists (λ r, ar_Deleted r = false) routes.
Proof.
  revert st. induction routes as [|r routes IH]; intros st; cbn [ofold]; [intros [= <-]; rewrite Exists_nil; tauto|].
  intros (st1 & H1 & H2%IH)%obind_ok_inv. rewrite H2, Exists_cons. unfold FilterConfig.addRoute in H1. destruct (ar_Deleted r) eqn:Ed.
  - injection H1 as <-. split; [tauto|]. intros [?|[?|?]]; tauto || done.
  - cbv zeta in H1. apply obind_ok_inv in H1 as (bs & _ & (costs & _ & [= <-])%obind_ok_inv). cbn. tauto.
Qed.

Lemma filterConfig_effective builder version uuid routes mcpRoutes globals ec mcp eff :
  filterConfig (Prog := Prog) range rangeUnit rangeCosts builder version uuid routes mcpRoutes globals = Ok (ec, mcp, eff) →
  eff = true ↔ effective routes mcpRoutes.
Proof.
  unfold filterConfig, effective. intros (gs & _ & (st & Hst%loop_effective & H)%obind_ok_inv)%obind_ok_inv. cbn in Hst. destruct (promote st) as [mbh um].
  assert ((mcpConfig mcpRoutes).2 = true ↔ Exists (λ r, ro_Deleted r = false) mcpRoutes) as Hm.
  { unfold mcpConfig. destruct mcpRoutes as [|r l]; [by rewrite Exists_nil|]. cbn [snd]. rewrite bool_decide_eq_true, Exists_exists.
    split.
    - destruct (filter _ _) as [|x xs] eqn:E; [done|]. intros _. exists x. assert (x ∈ x :: xs) as Hx by left. rewrite <-E in Hx.
      apply list_elem_of_filter in Hx as [? ?]. by split.
    - intros (x & Hx & Hd) E. assert (x ∈ filter (λ r, ro_Deleted r = false) (r :: l)) as Hin by by apply list_elem_of_filter.
      rewrite E in Hin. by apply elem_of_nil in Hin. }
  destruct (mcpConfig mcpRoutes) as [m e]. injection H as _ _ <-. cbn in Hm. rewrite orb_true_iff, Hst, Hm. intuition discriminate.
Qed.

Lemma config_backend builder version uuid routes mcpRoutes globals ec mcp eff b :
  filterConfig (Prog := Prog) range rangeUnit rangeCosts builder version uuid routes mcpRoutes globals = Ok (ec, mcp, eff) → b ∈ cfg_Backends ec →
  ∃ route bs, route ∈ routes ∧ ar_Deleted route = false ∧ routeBackends range rangeUnit route = Ok bs ∧ b ∈ bs.
Proof.
  intros (st & Hst & -> & _)%filterConfig_ok. apply loop_backends in Hst as (bss & Hf & ->). cbn. intros (bs & Hb & Hin)%list_elem_of_In%in_concat.
  apply list_elem_of_In in Hb, Hin. apply (Forall2_elem_r _ _ _ _ Hf) in Hb as (route & Hr & Hbs). apply list_elem_of_filter in Hr as [Hd Hr].
  by exists route, bs.
Qed.
End Loop.

(** ** Which models a host is shown *)

Definition entryOf (mbh : gmap string (option (list Model))) (h : string) : list Model := default [] (mjoin (mbh !! h)).
Definition noNil (mbh : gmap string (option (list Model))) : Prop := ∀ h, mbh !! h ≠ Some None.

Lemma appendModel_entry model mbh hosts h m :
  let mbh' := foldl (appendModel model) mbh hosts in
  (m ∈ entryOf mbh' h ↔ m ∈ entryOf mbh h ∨ h ∈ hosts ∧ m = model) ∧ (is_Some (mbh' !! h) ↔ is_Some (mbh !! h) ∨ h ∈ hosts).
Proof.
  cbv zeta. revert mbh. induction hosts as [|hn hosts IH]; intros mbh; cbn [foldl]; [rewrite !elem_of_nil; tauto|].
  destruct (IH (appendModel model mbh hn)) as [IH1 IH2]. rewrite IH1, IH2, elem_of_cons. unfold entryOf, appendModel.
  destruct (decide (h = hn)) as [->|Hne].
  - rewrite lookup_insert_eq. cbn. rewrite elem_of_app, list_elem_of_singleton. assert (is_Some (Some (Some (default [] (mjoin (mbh !! hn)) ++ [model])))) by done.
    tauto.
  - rewrite lookup_insert_ne by done. tauto.
Qed.

Lemma appendModel_noNil model mbh hosts : noNil mbh → noNil (foldl (appendModel model) mbh hosts).
Proof.
  revert mbh. induction hosts as [|hn hosts IH]; intros mbh Hn; [done|]. apply IH. intros h. unfold appendModel.
  destruct (decide (h = hn)) as [->|]; [by rewrite lookup_insert_eq|by rewrite lookup_insert_ne].
Qed.

Lemma appendModels_entry models mbh hosts h m :
  let mbh' := foldl (λ mbh model, foldl (appendModel model) mbh hosts) mbh models in
  (m ∈ entryOf mbh' h ↔ m ∈ entryOf mbh h ∨ h ∈ hosts ∧ m ∈ models) ∧ (is_Some (mbh' !! h) ↔ is_Some (mbh !! h) ∨ h ∈ hosts ∧ models ≠ []).
Proof.
  cbv zeta. revert mbh. induction models as [|model models IH]; intros mbh; cbn [foldl]; [rewrite !elem_of_nil; tauto|].
  destruct (IH (foldl (appendModel model) mbh hosts)) as [IH1 IH2]. rewrite IH1, IH2, elem_of_cons.
  destruct (appendModel_entry model mbh hosts h m) as [A1 A2]. rewrite A1, A2. assert (model :: models ≠ []) by done. tauto.
Qed.

Lemma appendModels_noNil models mbh hosts : noNil mbh → noNil (foldl (λ mbh model, foldl (appendModel model) mbh hosts) mbh models).
Proof. revert mbh. induction models as [|model models IH]; intros mbh Hn; [done|]. by apply IH, appendModel_noNil. Qed.

Section Shown.
Context {Prog : Type} `{CE : !CelEnv Prog, GC : !GrantClient, CL : !GatewayClient}.
Context (range : gmap string (string * string) → list (string * (string * string))).
Context (rangeUnit : gmap string () → list (string * ())).
Context (rangeCosts : gmap string LLMRequestCost → list (string * LLMRequestCost)).

(** A model some route that is not being deleted declares, under a condition. *)
Definition declared (P : AIGatewayRoute → Prop) (routes : list AIGatewayRoute) (m : Model) : Prop :=
  ∃ route, route ∈ routes ∧ ar_Deleted route = false ∧ m ∈ modelsOf route ∧ P route.

(** A host is scoped when a route with models names it. *)
Definition scopedHost (routes : list AIGatewayRoute) (h : string) : Prop :=
  ∃ route, route ∈ routes ∧ ar_Deleted route = false ∧ h ∈ ar_Hostnames route ∧ modelsOf route ≠ [].

Lemma declared_nil P m : ¬ declared P [] m.
Proof. by intros (r & ?%not_elem_of_nil & _). Qed.
Lemma declared_cons P r routes m : declared P (r :: routes) m ↔ (ar_Deleted r = false ∧ m ∈ modelsOf r ∧ P r) ∨ declared P routes m.
Proof.
  unfold declared. split.
  - intros (q & [->|Hq]%elem_of_cons & Hd & Hm & HP); [by left|right]. by exists q.
  - intros [(Hd & Hm & HP)|(q & Hq & Hd & Hm & HP)]; [exists r|exists q]; (split; [by constructor|done]).
Qed.
Lemma scopedHost_nil h : ¬ scopedHost [] h.
Proof. by intros (r & ?%not_elem_of_nil & _). Qed.
Lemma scopedHost_cons r routes h :
  scopedHost (r :: routes) h ↔ (ar_Deleted r = false ∧ h ∈ ar_Hostnames r ∧ modelsOf r ≠ []) ∨ scopedHost routes h.
Proof.
  unfold scopedHost. split.
  - intros (q & [->|Hq]%elem_of_cons & Hd & Hm & HP); [by left|right]. by exists q.
  - intros [(Hd & Hm & HP)|(q & Hq & Hd & Hm & HP)]; [exists r|exists q]; (split; [by constructor|done]).
Qed.

Lemma declared_iff P Q routes m :
  (∀ r, r ∈ routes → ar_Deleted r = false → m ∈ modelsOf r → P r ↔ Q r) → declared P routes m ↔ declared Q routes m.
Proof. unfold declared. intros HPQ. split; intros (r & Hr & Hd & Hm & HP); exists r; (split_and!; [done..|]); by eapply HPQ. Qed.

Lemma declared_or P Q routes m : declared P routes m ∨ declared Q routes m ↔ declared (λ r, P r ∨ Q r) routes m.
Proof.
  unfold declared. split.
  - intros [(r & Hr & Hd & Hm & HP)|(r & Hr & Hd & Hm & HP)]; exists r; tauto.
  - intros (r & Hr & Hd & Hm & [HP|HP]); [left|right]; by exists r.
Qed.

(** The hosts a route with models names are scoped. *)
Lemma named_scoped routes r h m : r ∈ routes → ar_Deleted r = false → m ∈ modelsOf r → h ∈ ar_Hostnames r → scopedHost routes h.
Proof. intros Hr Hd Hm Hh. exists r. split_and!; [done..|]. intros E. rewrite E in Hm. by apply not_elem_of_nil in Hm. Qed.

Lemma loop_models st routes st' :
  ofold (addRoute (Prog := Prog) range rangeUnit rangeCosts) st routes = Ok st' →
  (∀ m, m ∈ fs_Models st' ↔ m ∈ fs_Models st ∨ declared (λ _, True) routes m) ∧
  (∀ m, m ∈ fs_unscopedModels st' ↔ m ∈ fs_unscopedModels st ∨ declared (λ r, ar_Hostnames r = []) routes m) ∧
  (∀ h m, m ∈ entryOf (fs_ModelsByHost st') h ↔ m ∈ entryOf (fs_ModelsByHost st) h ∨ declared (λ r, h ∈ ar_Hostnames r) routes m) ∧
  (∀ h, is_Some (fs_ModelsByHost st' !! h) ↔ is_Some (fs_ModelsByHost st !! h) ∨ scopedHost routes h) ∧
  (noNil (fs_ModelsByHost st) → noNil (fs_ModelsByHost st')).
Proof.
  revert st. induction routes as [|r routes IH]; intros st; cbn [ofold].
  { intros [= <-]. split_and!; [intros m|intros m|intros h m|intros h|done].
    - pose proof (declared_nil (λ _, True) m). tauto.
    - pose proof (declared_nil (λ r, ar_Hostnames r = []) m). tauto.
    - pose proof (declared_nil (λ r, h ∈ ar_Hostnames r) m). tauto.
    - pose proof (scopedHost_nil h). tauto. }
  intros (st1 & H1%addRoute_ok & H2)%obind_ok_inv. destruct (IH _ H2) as (I1 & I2 & I3 & I4 & I5). destruct (ar_Deleted r) eqn:Ed.
  { assert (¬ true = false) as Ht by done. subst st1.
    split_and!; [intros m|intros m|intros h m|intros h|done]; rewrite ?declared_cons, ?scopedHost_cons, Ed; [rewrite I1|rewrite I2|rewrite I3|rewrite I4]; tauto. }
  destruct H1 as (bs & _ & _ & E1 & E2 & E3). unfold declareModels in E2, E3. cbn in E2, E3. case_bool_decide as Hh.
  - split_and!.
    + intros m. rewrite declared_cons, I1, E1, elem_of_app. tauto.
    + intros m. rewrite declared_cons, I2, E3. tauto.
    + intros h m. rewrite declared_cons, I3, E2, (proj1 (appendModels_entry (modelsOf r) (fs_ModelsByHost st) (ar_Hostnames r) h m)). tauto.
    + intros h. rewrite scopedHost_cons, I4, E2. rewrite (proj2 (appendModels_entry (modelsOf r) (fs_ModelsByHost st) (ar_Hostnames r) h
        {| md_Name := ""; md_OwnedBy := ""; md_CreatedAt := 0 |})). tauto.
    + intros Hn. apply I5. rewrite E2. by apply appendModels_noNil.
  - assert (∀ h, h ∉ ar_Hostnames r) as Hno by (rewrite Hh; intros h; apply not_elem_of_nil). split_and!.
    + intros m. rewrite declared_cons, I1, E1, elem_of_app. tauto.
    + intros m. rewrite declared_cons, I2, E3, elem_of_app. tauto.
    + intros h m. specialize (Hno h). rewrite declared_cons, I3, E2. tauto.
    + intros h. specialize (Hno h). rewrite scopedHost_cons, I4, E2. tauto.
    + intros Hn. apply I5. by rewrite E2.
Qed.
End Shown.

Section ShownProps.
Context {H Prog Codec : Type} `{CE : !CelEnv Prog, GC : !GrantClient, CL : !GatewayClient}.
Context (range : gmap string (string * string) → list (string * (string * string))).
Context (rangeUnit : gmap string () → list (string * ())).
Context (rangeCosts : gmap string LLMRequestCost → list (string * LLMRequestCost)).
Context (rangeHosts : gmap string (option (list Model)) → list (string * option (list Model))) `{RH : !RangeOrder rangeHosts}.
Context (fn : BackendAuth → outcome H) (NewCodec : string → Z → string → Z → outcome Codec).

(** A route's models are shown on a host when the route has no hostnames, when the
    host is not known, when the route names the host, or when it names the wildcard of
    a host that no route with models names. *)
Definition shownOn (routes : list AIGatewayRoute) (host : string) (route : AIGatewayRoute) : Prop :=
  ar_Hostnames route = [] ∨ host = "" ∨ host ∈ ar_Hostnames route ∨
  ¬ scopedHost routes host ∧ ∃ pat, wildcard_of host = Some pat ∧ pat ∈ ar_Hostnames route.

Lemma promote_entry st h m :
  noNil (fs_ModelsByHost st) → is_Some (fs_ModelsByHost st !! h) →
  m ∈ entryOf (promote st).1 h ↔ m ∈ entryOf (fs_ModelsByHost st) h ∨ m ∈ fs_unscopedModels st.
Proof.
  intros Hn [l Hl]. assert (∃ ms, l = Some ms) as [ms ->] by (destruct l; [by eexists|by apply Hn in Hl]).
  unfold promote, entryOf. destruct (_ && _) eqn:E; cbn.
  - rewrite lookup_fmap, Hl. cbn. by rewrite elem_of_app.
  - rewrite Hl. cbn. rewrite bool_decide_eq_true_2 in E by (intros Hz; rewrite Hz in Hl; by rewrite lookup_empty in Hl). cbn in E.
    destruct (fs_unscopedModels st); [|done]. rewrite elem_of_nil. tauto.
Qed.

Lemma promote_lookup st h : is_Some ((promote st).1 !! h) ↔ is_Some (fs_ModelsByHost st !! h).
Proof. unfold promote. destruct (_ && _); cbn; [|done]. by rewrite lookup_fmap, fmap_is_Some. Qed.

Lemma promote_unscoped st m : fs_ModelsByHost st ≠ ∅ → m ∈ (promote st).2 ↔ m ∈ fs_unscopedModels st.
Proof.
  intros Hne. unfold promote. rewrite bool_decide_eq_true_2 by done. cbn. by destruct (fs_unscopedModels st).
Qed.

Lemma promote_noNil st : noNil (fs_ModelsByHost st) → noNil (promote st).1.
Proof. unfold promote. destruct (_ && _); cbn; [|done]. intros _ h. rewrite lookup_fmap. by destruct (fs_ModelsByHost st !! h). Qed.

Lemma runtime_models ec rc :
  NewRuntimeConfig (Prog := Prog) fn NewCodec ec = Ok rc →
  rt_DeclaredModels rc = cfg_Models ec ∧ rt_ModelsByHost rc = cfg_ModelsByHost ec ∧ rt_UnscopedModels rc = cfg_UnscopedModels ec.
Proof.
  unfold NewRuntimeConfig. intros (bs & _ & (gc & _ & (cs & _ & (co & _ & [= <-])%obind_ok_inv)%obind_ok_inv)%obind_ok_inv)%obind_ok_inv. done.
Qed.

(** What the configuration says about models, from the routes. *)
Lemma config_models builder version uuid routes mcpRoutes globals ec mcp eff m :
  filterConfig (Prog := Prog) range rangeUnit rangeCosts builder version uuid routes mcpRoutes globals = Ok (ec, mcp, eff) →
  (m ∈ cfg_Models ec ↔ declared (λ _, True) routes m) ∧ noNil (cfg_ModelsByHost ec) ∧
  (∀ h, is_Some (cfg_ModelsByHost ec !! h) ↔ scopedHost routes h) ∧
  (∀ h, scopedHost routes h → m ∈ entryOf (cfg_ModelsByHost ec) h ↔ declared (λ r, h ∈ ar_Hostnames r ∨ ar_Hostnames r = []) routes m) ∧
  (cfg_ModelsByHost ec ≠ ∅ → m ∈ cfg_UnscopedModels ec ↔ declared (λ r, ar_Hostnames r = []) routes m).
Proof.
  intros (st & Hst & _ & Hm & Hp)%filterConfig_ok.
  assert (cfg_ModelsByHost ec = (promote st).1 ∧ cfg_UnscopedModels ec = (promote st).2) as [-> ->] by by rewrite <-Hp.
  destruct (loop_models _ _ _ _ _ _ Hst) as (I1 & I2 & I3 & I4 & I5). cbn in I1, I2, I3, I4.
  assert (noNil (fs_ModelsByHost st)) as Hn by (apply I5; intros h; cbn; by rewrite lookup_empty).
  assert (∀ h, is_Some ((promote st).1 !! h) ↔ scopedHost routes h) as Hsc.
  { intros h. rewrite promote_lookup, I4, lookup_empty. split; [intros [[? ?]|?]; done|by right]. }
  split; [rewrite Hm, I1, elem_of_nil; tauto|]. split; [by apply promote_noNil|]. split; [done|]. split.
  - intros h Hh. rewrite promote_entry, I3, I2, <-declared_or; [|done|by apply promote_lookup, Hsc].
    unfold entryOf at 1. rewrite lookup_empty. cbn. rewrite elem_of_nil. tauto.
  - intros Hne. rewrite promote_unscoped, I2, elem_of_nil; [tauto|]. intros E. apply Hne. unfold promote. rewrite E. by case_bool_decide.
Qed.

(** C10: which models a client is shown, from the routes to the models endpoint.
    With the configuration of a Gateway loaded by the external processor, the models
    listed for a host are exactly those declared by a route that is not being deleted
    and that either has no hostnames, or names the host, or names the wildcard of the
    host's first label while no route with models names the host itself; a request
    without a host is shown the models of every route. *)
Theorem host_sees_route_models builder version uuid routes mcpRoutes globals ec mcp eff (rc : RuntimeConfig H Prog Codec) host m :
  filterConfig (Prog := Prog) range rangeUnit rangeCosts builder version uuid routes mcpRoutes globals = Ok (ec, mcp, eff) →
  NewRuntimeConfig fn NewCodec ec = Ok rc →
  m ∈ selectModelsForHost rangeHosts host rc ↔ declared (shownOn routes host) routes m.
Proof using RH.
  intros Hc (R1 & R2 & R3)%runtime_models. destruct (config_models _ _ _ _ _ _ _ _ _ m Hc) as (Hall & Hnil & Hsc & Hent & Hun).
  rewrite (selectModelsForHost_spec rangeHosts), R1, R2, R3. clear R1 R2 R3 Hc. case_bool_decide as Hcase.
  { rewrite Hall. apply declared_iff. intros r Hr Hd Hmr. unfold shownOn. destruct Hcase as [->|Hempty]; [tauto|]. split; [|done]. intros _. left.
    destruct (ar_Hostnames r) as [|h hs] eqn:Eh; [done|]. exfalso.
    assert (scopedHost routes h) as [x Hx]%Hsc by (eapply named_scoped; [done..|rewrite Eh; by constructor]). by rewrite Hempty in Hx. }
  assert (host ≠ "" ∧ cfg_ModelsByHost ec ≠ ∅) as [Hhost Hne] by tauto. specialize (Hun Hne).
  destruct (cfg_ModelsByHost ec !! host) as [l|] eqn:El.
  { assert (scopedHost routes host) as Hscoped by (apply Hsc; by rewrite El). specialize (Hent host Hscoped). unfold entryOf in Hent.
    rewrite El in Hent. cbn in Hent. rewrite Hent. apply declared_iff. intros r _ _ _. unfold shownOn. tauto. }
  assert (¬ scopedHost routes host) as Hns by (intros [x Hx]%Hsc; by rewrite El in Hx).
  assert (∀ r, r ∈ routes → ar_Deleted r = false → m ∈ modelsOf r → host ∉ ar_Hostnames r) as Hno.
  { intros r Hr Hd Hmr Hin. apply Hns. by eapply named_scoped. }
  destruct (wildcard_of host) as [pat|] eqn:Ew; cbn.
  - destruct (cfg_ModelsByHost ec !! pat) as [[ms|]|] eqn:Ep; cbn; [| |].
    + assert (scopedHost routes pat) as Hp by (apply Hsc; by rewrite Ep). specialize (Hent pat Hp). unfold entryOf in Hent. rewrite Ep in Hent.
      cbn in Hent. rewrite Hent. apply declared_iff. intros r Hr Hd Hmr. specialize (Hno r Hr Hd Hmr). unfold shownOn. rewrite Ew.
      split; [|naive_solver]. intros [Hin|Hnil']; [|by left]. do 3 right. split; [done|]. by exists pat.
    + by apply Hnil in Ep.
    + rewrite Hun. apply declared_iff. intros r Hr Hd Hmr. specialize (Hno r Hr Hd Hmr). unfold shownOn. rewrite Ew. split; [by left|].
      intros [?|[?|[?|(_ & q & [= <-] & Hin)]]]; [done..|]. exfalso.
      assert (scopedHost routes pat) as [x Hx]%Hsc by (by eapply named_scoped). by rewrite Ep in Hx.
  - rewrite Hun. apply declared_iff. intros r Hr Hd Hmr. specialize (Hno r Hr Hd Hmr). unfold shownOn. rewrite Ew. split; [by left|].
    intros [?|[?|[?|(_ & q & ? & _)]]]; done.
Qed.
End ShownProps.

(** ** What the external processor can select *)

Section Selectable.
Context {H Prog Codec : Type} `{CE : !CelEnv Prog, GC : !GrantClient, CL : !GatewayClient}.
Context (policies : list BackendSecurityPolicy) (grants : list ReferenceGrant).
Context `{CLL : !GatewayClientLaws CL policies, GL : !GrantClientLaws GC grants}.
Context (namespaces : Forall (λ g, Contains (rg_Namespace g) "." = false) grants).
Context (range : gmap string (string * string) → list (string * (string * string))).
Context (rangeUnit : gmap string () → list (string * ())).
Context (rangeCosts : gmap string LLMRequestCost → list (string * LLMRequestCost)).
Context (fn : BackendAuth → outcome H) (NewCodec : string → Z → string → Z → outcome Codec).

Lemma selectable_backend builder version uuid routes mcpRoutes globals ec mcp eff (rc : RuntimeConfig H Prog Codec) name rb :
  filterConfig (Prog := Prog) range rangeUnit rangeCosts builder version uuid routes mcpRoutes globals = Ok (ec, mcp, eff) →
  NewRuntimeConfig fn NewCodec ec = Ok rc → rt_Backends rc !! name = Some rb →
  ∃ route, route ∈ routes ∧ ar_Deleted route = false ∧ publishedFor policies grants route (rb_Backend rb) ∧ stripped (rb_Backend rb) ∧
    be_Name (rb_Backend rb) = name ∧ runtime_of fn (rb_Backend rb) rb.
Proof using CLL GL namespaces.
  intros Hc (Hb & _)%NewRuntimeConfig_spec Hrb. specialize (Hb name). destruct (last_binding name _) as [b|] eqn:El; [|by rewrite Hrb in Hb].
  destruct Hb as (rb' & Hrb' & Hof). assert (rb' = rb) as -> by congruence. apply last_binding_elem in El.
  apply list_elem_of_fmap in El as (b' & [= -> ->] & Hin). destruct (config_backend _ _ _ _ _ _ _ _ _ _ _ _ _ Hc Hin) as (route & bs & Hr & Hd & Hbs & Hb).
  destruct (routeBackends_published policies grants namespaces range rangeUnit route bs b' Hbs Hb) as [Hp Hs].
  assert (rb_Backend rb = b') as -> by apply Hof. by exists route.
Qed.

(** C4: no backend is selectable without its credentials.  Every backend the
    external processor can select under a Gateway's configuration stands for a
    reference of a route that is not being deleted; a reference across namespaces
    is permitted by a grant of the target namespace; when a security policy
    targets the backend, it is the only one, the auth handler is made of exactly
    its credentials, and a secret it takes from another namespace is permitted by
    a grant; and a backend without a handler has no security policy at all. *)
Theorem selectable_backend_secured builder version uuid routes mcpRoutes globals ec mcp eff (rc : RuntimeConfig H Prog Codec) name rb :
  filterConfig (Prog := Prog) range rangeUnit rangeCosts builder version uuid routes mcpRoutes globals = Ok (ec, mcp, eff) →
  NewRuntimeConfig fn NewCodec ec = Ok rc → rt_Backends rc !! name = Some rb →
  ∃ route i j ref, route ∈ routes ∧ ar_Deleted route = false ∧ (i, j, ref) ∈ indexedRefs route ∧
    name = PerRouteRuleRefBackendName (ar_Namespace route) (rb_Name ref) (ar_Name route) i j ∧
    let ns := GetNamespace ref (ar_Namespace route) in
    (Contains ns "." = false → permitted grants routeKind (ar_Namespace route) (refKind ref) ns (rb_Name ref)) ∧
    match rb_Handler rb with
    | Some h => ∃ auth, be_Auth (rb_Backend rb) = Some auth ∧ fn auth = Ok h ∧
                  secured policies grants (rk_Group (refKind ref)) (rk_Kind (refKind ref)) ns (rb_Name ref) (Some auth)
    | None => ∀ q, q ∈ policies → ¬ targets (rk_Group (refKind ref)) (rk_Kind (refKind ref)) ns (rb_Name ref) q
    end.
Proof using CLL GL namespaces.
  intros Hc Hn Hrb. destruct (selectable_backend _ _ _ _ _ _ _ _ _ _ _ _ Hc Hn Hrb) as (route & Hr & Hd & Hp & _ & Hname & Hof).
  destruct Hp as (i & j & ref & Hin & Hbn & Hperm & Hsec). exists route, i, j, ref. split_and!; [done..|congruence|]. cbv zeta. split; [done|].
  destruct Hof as (_ & Hh). destruct (be_Auth (rb_Backend rb)) as [auth|].
  - destruct Hh as (h & Hf & ->). by exists auth.
  - by rewrite Hh.
Qed.

Context (range1 range2 : gmap string string → list (string * string)) `{R1 : !RangeOrder range1, R2 : !RangeOrder range2}.

(** C9: a header that carries a client's own credential is stripped.  When a selectable
    backend takes its credential from request headers, then on the first attempt and on
    every retry no such header is in the request the backend gets, while the handler
    still finds it in the local headers.  Two kinds of headers are excepted, and both
    reach the backend: one the configured header mutation sets itself, and one whose
    name the gateway reserves, which the mutator ignores. *)
Theorem credential_header_stripped builder version uuid routes mcpRoutes globals ec mcp eff (rc : RuntimeConfig H Prog Codec) name rb
    auth override h original headers onRetry :
  filterConfig (Prog := Prog) range rangeUnit rangeCosts builder version uuid routes mcpRoutes globals = Ok (ec, mcp, eff) →
  NewRuntimeConfig fn NewCodec ec = Ok rc → rt_Backends rc !! name = Some rb →
  be_Auth (rb_Backend rb) = Some auth → ba_CredentialOverride auth = Some override → h ∈ co_InputHeadersToRemove override →
  shouldIgnoreHeader h = false → last_binding h (wanted_sets (NewHeaderMutator (be_HeaderMutation (rb_Backend rb)) original)) = None →
  let '(local, sets, removes) := HeaderMutator_Mutate range1 range2 (NewHeaderMutator (be_HeaderMutation (rb_Backend rb)) original) headers onRetry in
  upstream_header headers sets removes h = None ∧ (∀ v, headers !! h = Some v → local !! h = Some v).
Proof using CLL GL namespaces R1 R2.
  intros Hc Hn Hrb Ha Ho Hh Hi Hset. destruct (selectable_backend _ _ _ _ _ _ _ _ _ _ _ _ Hc Hn Hrb) as (route & _ & _ & _ & Hs & _).
  destruct (Hs auth override h Ha Ho Hh) as (m & Hm & Hin). set (mu := NewHeaderMutator _ original).
  assert (h ∈ wanted_removes mu) as Hw by (unfold wanted_removes, mu; cbn; rewrite Hm; by apply list_elem_of_filter).
  pose proof (Mutate_view range1 range2 mu headers onRetry h) as Hv. destruct (HeaderMutator_Mutate _ _ _ _ _) as [[local sets] removes].
  unfold expected_view in Hv. rewrite Hi in Hv. fold mu in Hset. rewrite Hset in Hv. rewrite (bool_decide_true (h ∈ wanted_removes mu)) in Hv by done.
  unfold upstream_header. destruct onRetry; cbn [negb] in Hv; injection Hv as Hl Hs' Hr; rewrite Hs', Hr; (split; [|by intros v Hv'; rewrite Hl, Hv']);
    (destruct (headers !! h); [by rewrite bool_decide_eq_true_2|by case_match]).
Qed.
End Selectable.

(** ** Limits of the code *)

Section Limits.
Context `{GC : !GrantClient, CL : !GatewayClient}.
Context (range : gmap string (string * string) → list (string * (string * string))).
Context (rangeRemove : gmap string () → list (string * ())).

(** A read of the grants that is interrupted leaves the backend out. *)
Lemma interrupted_grant_read_skips route i j ref e :
  validateBackendRef (ar_Namespace route) (GetNamespace ref (ar_Namespace route)) ref = Fail e → isCtxErr e = true →
  backendOf range rangeRemove route i j ref = Ok None.
Proof. intros Hv _. unfold backendOf. by rewrite Hv. Qed.

(** Other reads that are interrupted end the reconcile. *)
Lemma interrupted_backend_read_fails route i j ref e :
  validateBackendRef (ar_Namespace route) (GetNamespace ref (ar_Namespace route)) ref = Ok tt → IsInferencePool ref = false →
  backendWithMaybeBSP (GetNamespace ref (ar_Namespace route)) (rb_Name ref) = Fail e → isCtxErr e = true →
  is_ok (backendOf range rangeRemove route i j ref) = false.
Proof. intros Hv Hi Hb He. unfold backendOf. rewrite Hv. unfold resolveBackend. rewrite Hi, Hb. cbn. by rewrite He. Qed.
End Limits.

Module Sample.

Definition ref (name : string) (ns : option string) (model : string) : AIGatewayRouteRuleBackendRef :=
  {| rb_Name := name; rb_Namespace := ns; rb_Group := None; rb_Kind := None; rb_ModelNameOverride := model; rb_HeaderMutation := None;
     rb_BodyMutation := None; rb_Weight := None; rb_Priority := None |}.
Definition rule (model : string) (refs : list AIGatewayRouteRuleBackendRef) : AIGatewayRouteRule :=
  {| ru_BackendRefs := refs; ru_Matches := [[{| hx_Type := None; hx_Name := ModelNameHeaderKeyDefault; hx_Value := model |}]];
     ru_ModelsOwnedBy := None; ru_ModelsCreatedAt := None; ru_ExcludeFromModelsEndpoint := false; ru_Name := None; ru_Timeouts := None;
     ru_StreamIdleTimeout := None |}.
Definition route (name : string) (hosts : list string) (rules : list AIGatewayRouteRule) : AIGatewayRoute :=
  {| ar_Namespace := "team"; ar_Name := name; ar_Deleted := false; ar_CreationTimestamp := 0; ar_ParentRefs := []; ar_Hostnames := hosts;
     ar_Rules := rules; ar_LLMRequestCosts := []; ar_HasFinalizer := true; ar_Labels := ∅;
     ar_Annotations := ∅ |}.

(** A route for one host with a backend of its own and one of another namespace,
    and a route for every host. *)
Definition scopedRoute : AIGatewayRoute := route "r" ["api.x.com"] [rule "gpt-4" [ref "openai" None ""; ref "shared" (Some "infra") ""]].
Definition openRoute : AIGatewayRoute := route "s" [] [rule "claude" [ref "openai" None ""]].

Definition keyPolicy : BackendSecurityPolicy :=
  {| bp_Namespace := "team"; bp_Name := "key";
     bp_TargetRefs := [{| lt_Group := aiServiceBackendGroup; lt_Kind := aiServiceBackendKind; lt_Name := "openai" |}];
     bp_Type := BackendSecurityPolicyTypeAPIKey; bp_APIKey := Some (Some {| so_Name := "s"; so_Namespace := None |}); bp_AWSCredentials := None;
     bp_AzureAPIKey := None; bp_AzureCredentials := None; bp_GCPCredentials := None; bp_AnthropicAPIKey := None; bp_OpenAICredentials := None;
     bp_CredentialOverride := Some {| cv_FromRequestHeaders := Some {| fh_Header := ""; fh_FallbackToConfigured := None |};
                                      cv_FromDynamicMetadata := None |};
     bp_Deleted := false; bp_HasFinalizer := true |}.
Definition policies : list BackendSecurityPolicy := [keyPolicy].
Definition grant : ReferenceGrant :=
  {| rg_Namespace := "infra"; rg_Name := "g"; rg_Deleted := false;
     rg_From := [{| gf_Group := aiServiceBackendGroup; gf_Kind := aiGatewayRouteKind; gf_Namespace := "team" |}];
     rg_To := [{| gt_Group := aiServiceBackendGroup; gt_Kind := aiServiceBackendKind; gt_Name := None |}] |}.

Definition spec : AIServiceBackendSpec :=
  {| bs_BackendRef := {| bo_Group := None; bo_Kind := None; bo_Name := "b"; bo_Namespace := None |};
     bs_APISchema := {| vs_Name := APISchemaOpenAI; vs_Version := None; vs_Prefix := None |}; bs_HeaderMutation := None; bs_BodyMutation := None;
     bs_HeaderValueFilters := [] |}.
Definition total : QuotaDefinition :=
  {| qd_CostExpression := None; qd_DefaultBucket := {| qv_Limit := 100; qv_Duration := "1h"; qv_FromMetadata := None |}; qd_BucketRules := [] |}.
Definition claudeQuota : QuotaPolicy :=
  {| qp_Namespace := "team"; qp_Name := "q"; qp_UID := "1"; qp_Deleted := false; qp_HasFinalizer := true;
     qp_TargetRefs := [{| tg_Group := aiServiceBackendGroup; tg_Kind := aiServiceBackendKind; tg_Namespace := None; tg_Name := "openai" |}];
     qp_ServiceQuota := qd_DefaultBucket total; qp_PerModelQuotas := [{| pm_ModelName := Some "claude"; pm_Quota := total |}] |}.

#[local] Instance cel : CelEnv unit := sumCel.
#[local] Instance grantClient : GrantClient :=
  {| list_ReferenceGrants key := Ok (filter (λ g, key ∈ referenceGrantToTargetKindIndexFunc g) [grant]) |}.
#[local] Instance grantLaws : GrantClientLaws grantClient [grant].
Proof. split. intros key l H. by injection H as <-. Qed.
#[local] Instance client : GatewayClient :=
  {| get_AIServiceBackend _ _ := Ok spec;
     list_BackendSecurityPolicies ns key := Ok (filter (λ p, bp_Namespace p = ns ∧ key ∈ backendSecurityPolicyTargetRefsIndexFunc p) policies);
     list_TargetingQuotaPolicies _ := Ok [claudeQuota];
     get_SecretIn _ _ := Ok {| sec_Name := "s"; sec_Data := {["apiKey" := "sk"]}; sec_StringData := ∅ |} |}.
#[local] Instance clientLaws : GatewayClientLaws client policies.
Proof. split. intros ns key l H. by injection H as <-. Qed.

Definition builder : extProcBuilder := Build_extProcBuilder "" "" "" "" false "" None None None None "" "" [] [] 0 false "" 0 "" 0 "" 0 "" 0.
Definition generated := filterConfig (Prog := unit) map_to_list map_to_list map_to_list builder "v" "id" [scopedRoute; openRoute] [] [].
Definition config : Config := match generated with Ok (ec, _, _) => ec | _ => {| cfg_Version := ""; cfg_UUID := ""; cfg_GlobalLLMRequestCosts := [];
  cfg_LLMRequestCosts := []; cfg_Backends := []; cfg_Models := []; cfg_ModelsByHost := ∅; cfg_UnscopedModels := []; cfg_FileIDEncryption := None |} end.
Definition runtime : outcome (RuntimeConfig BackendAuth unit unit) := NewRuntimeConfig (Prog := unit) Ok (λ _ _ _ _, Ok tt) config.
Definition loaded : RuntimeConfig BackendAuth unit unit :=
  match runtime with
  | Ok rc => rc
  | _ => {| rt_UUID := ""; rt_GlobalRequestCosts := []; rt_RequestCosts := []; rt_DeclaredModels := []; rt_ModelsByHost := ∅; rt_UnscopedModels := [];
            rt_Backends := ∅; rt_FileIDCodec := None |}
  end.

Lemma models_of_hosts :
  (λ h, md_Name <$> selectModelsForHost map_to_list h loaded) <$> ["api.x.com"; "y.com"; ""] = [["gpt-4"; "claude"]; ["claude"]; ["gpt-4"; "claude"]].
Proof. vm_compute. reflexivity. Qed.

Lemma host_sees_route_models_witness :
  ∃ m, md_Name m = "claude" ∧ m ∈ selectModelsForHost map_to_list "y.com" loaded.
Proof.
  exists {| md_Name := "claude"; md_OwnedBy := defaultOwnedBy; md_CreatedAt := 0 |}. split; [reflexivity|].
  eapply (host_sees_route_models map_to_list map_to_list map_to_list map_to_list Ok (λ _ _ _ _, Ok tt) builder "v" "id" [scopedRoute; openRoute] [] []);
    [vm_compute; reflexivity|vm_compute; reflexivity|].
  exists openRoute. split; [right; left|]. split; [reflexivity|]. split; [left|]. by left.
Defined.

Lemma namespaces : Forall (λ g, Contains (rg_Namespace g) "." = false) [grant].
Proof. by repeat constructor. Qed.

Definition openaiName : string := PerRouteRuleRefBackendName "team" "openai" "r" 0 0.
Definition openaiBackend : RuntimeBackend BackendAuth :=
  default {| rb_Backend := {| be_Name := ""; be_AIServiceBackendName := ""; be_ModelNameOverride := ""; be_Schema := inferencePoolSchema; be_Auth := None;
     be_HeaderMutation := None; be_BodyMutation := None; be_HeaderValueFilters := [] |}; rb_Handler := None |} (rt_Backends loaded !! openaiName).

Lemma openai_handler : is_Some (rb_Handler openaiBackend).
Proof. vm_compute. by eexists. Qed.

Lemma selectable_backend_secured_witness :
  ∃ p h, p ∈ policies ∧ rb_Handler openaiBackend = Some h ∧ bspToFilterAPIBackendAuth p = Ok h.
Proof.
  destruct (selectable_backend_secured policies [grant] namespaces map_to_list map_to_list map_to_list Ok (λ _ _ _ _, Ok tt) builder "v" "id"
    [scopedRoute; openRoute] [] [] config None true loaded openaiName openaiBackend) as (r & i & j & ref' & _ & _ & _ & _ & _ & Hh);
    [vm_compute; reflexivity..|].
  destruct openai_handler as [h Eh]. rewrite Eh in Hh. destruct Hh as (auth & _ & Hf & p & (Hp & _) & Hauth & _). injection Hf as ->.
  exists p, h. split; [exact Hp|]. split; [exact Eh|exact Hauth].
Defined.

Lemma credential_header_stripped_witness :
  let '(local, sets, removes) := HeaderMutator_Mutate map_to_list map_to_list (NewHeaderMutator (be_HeaderMutation (rb_Backend openaiBackend)) ∅)
    {["x-aigw-api-key" := "sk-client"]} false in
  upstream_header {["x-aigw-api-key" := "sk-client"]} sets removes "x-aigw-api-key" = None ∧
  ∀ v, ({["x-aigw-api-key" := "sk-client"]} : gmap string string) !! "x-aigw-api-key" = Some v → local !! "x-aigw-api-key" = Some v.
Proof.
  eapply (credential_header_stripped policies [grant] namespaces map_to_list map_to_list map_to_list Ok (λ _ _ _ _, Ok tt) map_to_list map_to_list
    builder "v" "id" [scopedRoute; openRoute] [] [] config None true loaded openaiName openaiBackend); [vm_compute; reflexivity..| | |].
  - vm_compute. left.
  - vm_compute. reflexivity.
  - vm_compute. reflexivity.
Defined.

(** A header name with the gateway's own prefix is not removed. *)
Lemma reserved_credential_header_reaches_backend :
  let m := be_HeaderMutation (stripCredentialOverrideInputHeaders (setAuth (setCredentialOverride (Some {| co_HeaderName := "x-ai-eg-key";
    co_DynamicMetadataNamespace := ""; co_DynamicMetadataKey := ""; co_FallbackToConfigured := false; co_InputHeadersToRemove := ["x-ai-eg-key"] |}) noAuth)
    (rb_Backend openaiBackend))) in
  let '(_, sets, removes) := HeaderMutator_Mutate map_to_list map_to_list (NewHeaderMutator m ∅) {["x-ai-eg-key" := "sk-client"]} false in
  upstream_header {["x-ai-eg-key" := "sk-client"]} sets removes "x-ai-eg-key" = Some "sk-client".
Proof. vm_compute. reflexivity. Qed.

(** The quota cost of a model is left out of a route that has no overrides when an
    earlier route has one. *)
Lemma earlier_route_hides_quota_cost :
  let earlier := route "r" [] [rule "gpt-4" [ref "openai" None "gpt-4o"]] in
  let costs routes := match filterConfig (Prog := unit) map_to_list map_to_list map_to_list builder "v" "id" routes [] [] with
                      | Ok (ec, _, _) => (λ c, (rc_RouteName c, rc_Model c)) <$> cfg_LLMRequestCosts ec | _ => [] end in
  costs [openRoute] = [("team/s", "claude")] ∧ costs [earlier; openRoute] = [].
Proof. vm_compute. done. Qed.

(** The removal a route asks for does not take back what the backend sets. *)
Lemma route_removal_loses_to_backend_set :
  let route := {| ahm_Set := []; ahm_Remove := ["x-team"] |} in
  let backend := {| ahm_Set := [("x-team", "a")]; ahm_Remove := [] |} in
  let m := headerMutationToFilterAPI (mergeHeaderMutations map_to_list map_to_list (Some route) (Some backend)) in
  let '(_, sets, removes) := HeaderMutator_Mutate map_to_list map_to_list (NewHeaderMutator m ∅) ∅ false in
  upstream_header ∅ sets removes "x-team" = Some "a".
Proof. vm_compute. reflexivity. Qed.
End Sample.
