(* ===== verification/Rotation.v ===== *)
(** * Rotation of backend credentials

    Models [internal/controller/backend_security_policy.go], the rotators of
    [internal/controller/rotators] and the token providers of
    [internal/controller/tokenprovider]: how the credential of a
    BackendSecurityPolicy is obtained from a cloud, stored in a Secret with its time of
    expiry, and replaced before it expires.

    The cluster, the clock and the clouds are one world that calls change; [World] and
    [Clouds] are what is used of them.  Times are instants in nanoseconds, a duration
    is an [int64] of nanoseconds.  A proxy is its URL.  Log lines are left out, and of
    the fields of a Secret its type. *)

From Stdlib Require Import Ascii ZArith Lia.
From stdpp Require Import base gmap strings list.
From S2P Require Import Prelude GoStrings GoNum Kube RateLimit QuotaController FilterApi ConfigBundle FilterConfig.

(** ** Times *)

Definition Second : Z := 1000000000.
Definition Minute : Z := 60 * Second.

(** [time.Time{}], the first of January of the year 1. *)
Definition zeroTime : Z := -62135596800 * Second.

(** [t.Sub(u)], at the ends of the range of a duration. *)
Definition Sub (t u : Z) : Z := Z.max min_int64 (Z.min max_int64 (t - u)).

Definition DefaultPreRotationWindow : Z := 5 * Minute.

(** ** The world *)

Record KSecret := {
  ks_Namespace : string;
  ks_Name : string;
  ks_Annotations : gmap string string;
  ks_Data : gmap string string;
  ks_OwnerReferences : list string;
}.

#[global] Instance KSecret_eq_dec : EqDecision KSecret.
Proof. solve_decision. Defined.

(** A call that changes the world and may fail. *)
Definition M (W A : Type) : Type := W → W * outcome A.

Definition mret {W A} (a : A) : M W A := λ w, (w, Ok a).
Definition mlift {W A} (o : outcome A) : M W A := λ w, (w, o).
Definition mseq {W A B} (m : M W A) (k : A → M W B) : M W B := λ w,
  match m w with
  | (w, Ok a) => k a w
  | (w, Fail e) => (w, Fail e)
  | (w, Panic p) => (w, Panic p)
  end.
Definition mwrap {W A} (prefix : string) (m : M W A) : M W A := λ w, let '(w, o) := m w in (w, owrap prefix o).

(** A call whose error is looked at. *)
Definition mtry {W A B} (m : M W A) (k : outcome A → M W B) : M W B := λ w,
  match m w with
  | (w, Panic p) => (w, Panic p)
  | (w, o) => k o w
  end.

Notation "'do!' x ':=' m 'in' k" := (mseq m (λ x, k)) (at level 10, x binder, m at level 100, k at level 200) : go_scope.

(** What is used of the cluster and the clock.  [w_secrets], [w_reads] and [w_clock]
    tell what is stored, which Secrets were read and what time it is. *)
Class World (W : Type) := {
  w_secrets : W → gmap (string * string) KSecret;
  w_reads : W → list (string * string);
  w_clock : W → Z;
  time_Now : M W Z;
  get_Secret : string → string → M W KSecret;
  create_Secret : KSecret → M W unit;
  update_Secret : KSecret → M W unit;
  get_Policy : string → string → M W BackendSecurityPolicy;
  get_TargetBackend : string → string → M W unit;
  get_TargetPool : string → string → M W unit;
  send_BackendEvent : string → string → W → W;
  send_PoolEvent : string → string → W → W;
  update_PolicyFinalizer : BackendSecurityPolicy → bool → W → W;
  update_PolicyStatus : BackendSecurityPolicy → string → string → W → W;
}.

(** What controller-runtime tells and writes about owners. *)
Class Owners := {
  HasOwnerReference : list string → BackendSecurityPolicy → bool;
  SetControllerReference : BackendSecurityPolicy → KSecret → outcome KSecret;
}.

(** [Format] and [Parse] of the package time with the layout RFC3339, and [String]. *)
Class Rfc3339 := {
  time_Format : Z → string;
  time_String : Z → string;
  time_Parse : string → outcome Z;
}.

(** ** Tokens *)

Record TokenExpiry := { te_Token : string; te_ExpiresAt : Z }.

(** A token provider is its [GetToken]. *)
Definition TokenProvider (W : Type) : Type := M W TokenExpiry.

Definition SecretReferenceValidator : Type := string → string → string → outcome unit.

(** What an OIDC provider says of itself: the issuer and the token endpoint, and the
    scopes it supports. *)
Record OidcProvider := { op_ProviderConfig : outcome (string * string); op_SupportedScopes : outcome (list string) }.

Record ClientCredentials := { cc_ClientID : string; cc_ClientSecret : string; cc_Scopes : list string; cc_TokenURL : string }.
Record oauth2Token := { ot_AccessToken : string; ot_Expiry : Z; ot_ExpiresIn : Z }.

Record AwsConfig := { ac_Region : string; ac_ProxyURL : option string }.
Record AssumeRoleInput := { ai_RoleArn : string; ai_WebIdentityToken : string; ai_RoleSessionName : string }.
Record AwsIdentity := {
  wi_Expiration : option Z; wi_AccessKeyId : option string; wi_SecretAccessKey : option string; wi_SessionToken : option string }.

Record ExchangeTokenRequest := {
  xr_GrantType : string; xr_Audience : string; xr_Scope : string; xr_RequestedTokenType : string; xr_SubjectToken : string;
  xr_SubjectTokenType : string }.
Record CredentialsConfig := { ic_TargetPrincipal : string; ic_Scopes : list string }.

Record openAITokenExchangeRequest := {
  or_GrantType : string; or_SubjectToken : string; or_SubjectTokenType : string; or_IdentityProviderID : string; or_ServiceAccountID : string }.
Record openAITokenExchangeResponse := { os_AccessToken : string; os_ExpiresAt : Z }.
Record openAIErrorResponse := { oe_Message : string; oe_Code : string }.

(** [hp_ReadAll n] is what [io.ReadAll] gives of the first [n] bytes of the body. *)
Record HttpResponse := { hp_StatusCode : Z; hp_ReadAll : nat → outcome string }.

(** An HTTP client: the proxy and the bearer token it adds. *)
Record HttpClient := { hc_Proxy : option string; hc_Authorization : option string }.

(** What is used of the SDKs of the clouds, the HTTP client, the JSON codec and the
    environment. *)
Class Clouds (W : Type) := {
  os_Getenv : string → string;
  url_Parse : string → outcome string;
  oidc_NewProvider : string → M W OidcProvider;
  clientcredentials_Token : ClientCredentials → M W oauth2Token;
  aws_LoadDefaultConfig : outcome unit;
  sts_AssumeRoleWithWebIdentity : AwsConfig → AssumeRoleInput → M W (option AwsIdentity);
  azure_NewClientAssertionCredential : option string → string → string → outcome unit;
  azure_AssertionToken : option string → string → string → M W string → list string → M W (string * Z);
  azure_NewClientSecretCredential : option string → string → string → string → outcome unit;
  azure_SecretToken : option string → string → string → string → list string → M W (string * Z);
  google_CredentialsFromJSON : string → string → outcome unit;
  google_Token : string → string → M W (string * Z);
  google_NewSTSService : HttpClient → outcome unit;
  google_ExchangeToken : HttpClient → ExchangeTokenRequest → M W (string * Z);
  google_CredentialsTokenSource : HttpClient → CredentialsConfig → outcome unit;
  google_ImpersonatedToken : HttpClient → CredentialsConfig → M W (string * Z);
  spiffe_FetchJWTSVID : option string → string → M W (string * Z);
  json_MarshalExchange : openAITokenExchangeRequest → outcome string;
  json_UnmarshalExchange : string → outcome openAITokenExchangeResponse;
  json_UnmarshalError : string → outcome openAIErrorResponse;
  http_NewRequest : string → outcome unit;
  http_Post : HttpClient → string → string → M W HttpResponse;
}.

Definition clientSecretKey : string := "client-secret".

Section Providers.
Context {W : Type} `{WO : !World W, CO : !Clouds W}.

Definition GetClientSecret (namespace name : string) : M W string :=
  do! secret := mwrap "failed to get client secret: " (get_Secret namespace name) in
  match ks_Data secret !! clientSecretKey with
  | Some clientSecret => mret clientSecret
  | None => mlift (Fail (errors_New ("failed to get client secret: no secret data found using key '" +:+ clientSecretKey +:+ "' in secret name '" +:+
                                     name +:+ "' and namespace '" +:+ namespace)))
  end.

(** *** OIDC *)

Record oidcTokenProvider := {
  tp_oidcConfig : OIDC;
  tp_ownerNamespace : string;
  tp_validateSecretRef : option SecretReferenceValidator;
}.

(** The provider gets the configuration with the token endpoint and the scopes that
    were discovered. *)
Definition discovered (oidcConfig : OIDC) (tokenURL : string) (supportedScopes : list string) : OIDC :=
  {| od_Issuer := od_Issuer oidcConfig;
     od_TokenEndpoint := match od_TokenEndpoint oidcConfig with None => Some tokenURL | e => e end;
     od_ClientID := od_ClientID oidcConfig; od_ClientSecret := od_ClientSecret oidcConfig;
     od_Scopes := od_Scopes oidcConfig ++ filter (λ s, s ∉ od_Scopes oidcConfig) supportedScopes |}.

Definition NewOidcTokenProvider (oidcConfig : option OIDC) (ownerNamespace : string) (validateSecretRef : option SecretReferenceValidator) :
    M W oidcTokenProvider :=
  match oidcConfig with
  | None => mlift (Fail (errors_New "provided oidc config is nil"))
  | Some oidcConfig =>
      let issuerURL := od_Issuer oidcConfig in
      do! oidcProvider := mwrap ("failed to create oidc config: " +:+ Quote issuerURL +:+ ", ") (oidc_NewProvider issuerURL) in
      do! config := mlift (owrap ("failed to decode oidc config claims: " +:+ Quote issuerURL +:+ ", ") (op_ProviderConfig oidcProvider)) in
      do! scopes := mlift (owrap "failed to get scopes_supported field in claim: " (op_SupportedScopes oidcProvider)) in
      if bool_decide (config.1 = "") then mlift (Fail (errors_New "issuer is required in oidc provider config"))
      else if bool_decide (config.2 = "") then mlift (Fail (errors_New "token_endpoint is required in oidc provider config"))
      else mret {| tp_oidcConfig := discovered oidcConfig config.2 scopes; tp_ownerNamespace := ownerNamespace; tp_validateSecretRef := validateSecretRef |}
  end.

(** Who may read the client secret. *)
Definition authorizeClientSecret (o : oidcTokenProvider) (secretNamespace : string) : outcome unit :=
  if bool_decide (secretNamespace = tp_ownerNamespace o) then Ok tt
  else match tp_validateSecretRef o with
       | None => Fail (errors_New ("cross-namespace oidc client secret reference from namespace " +:+ tp_ownerNamespace o +:+ " to namespace " +:+
                                   secretNamespace +:+ " is not permitted"))
       | Some validate => validate (tp_ownerNamespace o) secretNamespace (so_Name (od_ClientSecret (tp_oidcConfig o)))
       end.

Definition oidc_GetToken (o : oidcTokenProvider) : TokenProvider W :=
  let oidcConfig := tp_oidcConfig o in
  match so_Namespace (od_ClientSecret oidcConfig) with
  | None => mlift (Fail (errors_New "oidc client secret namespace is nil"))
  | Some secretNamespace =>
      do! _ := mlift (authorizeClientSecret o secretNamespace) in
      do! clientSecret := GetClientSecret secretNamespace (so_Name (od_ClientSecret oidcConfig)) in
      do! clientID := mlift (deref (od_ClientID oidcConfig)) in
      do! token := mwrap "failed to get oauth2 token: "
        (clientcredentials_Token {| cc_ClientID := clientID; cc_ClientSecret := clientSecret; cc_Scopes := od_Scopes oidcConfig;
                                    cc_TokenURL := default "" (od_TokenEndpoint oidcConfig) |}) in
      if (0 <? ot_ExpiresIn token)%Z then
        do! now := time_Now in
        mret {| te_Token := ot_AccessToken token; te_ExpiresAt := now + int64 (ot_ExpiresIn token * Second) |}
      else mret {| te_Token := ot_AccessToken token; te_ExpiresAt := ot_Expiry token |}
  end.

(** *** Azure *)

Definition azureProxy : option string :=
  let azureProxyURL := os_Getenv "AI_GATEWAY_AZURE_PROXY_URL" in
  if bool_decide (azureProxyURL = "") then None
  else match url_Parse azureProxyURL with Ok proxyURL => Some proxyURL | _ => None end.

Definition azureScopeURL : string := "https://cognitiveservices.azure.com/.default".

Definition ofPair (t : string * Z) : TokenExpiry := {| te_Token := t.1; te_ExpiresAt := t.2 |}.

Definition azure_GetToken (tenantID clientID : string) (tokenProvider : TokenProvider W) (scopes : list string) : TokenProvider W :=
  do! azureToken := azure_AssertionToken azureProxy tenantID clientID (do! token := tokenProvider in mret (te_Token token)) scopes in
  mret (ofPair azureToken).

Definition NewAzureTokenProvider (tenantID clientID : string) (tokenProvider : TokenProvider W) (scopes : list string) : M W (TokenProvider W) :=
  do! _ := mlift (azure_NewClientAssertionCredential azureProxy tenantID clientID) in
  mret (azure_GetToken tenantID clientID tokenProvider scopes).

Definition azureClientSecret_GetToken (tenantID clientID clientSecret : string) (scopes : list string) : TokenProvider W :=
  do! azureToken := azure_SecretToken azureProxy tenantID clientID clientSecret scopes in mret (ofPair azureToken).

Definition NewAzureClientSecretTokenProvider (tenantID clientID clientSecret : string) (scopes : list string) : M W (TokenProvider W) :=
  do! _ := mlift (azure_NewClientSecretCredential azureProxy tenantID clientID clientSecret) in
  mret (azureClientSecret_GetToken tenantID clientID clientSecret scopes).

(** *** Google *)

Definition cloudPlatformScope : string := "https://www.googleapis.com/auth/cloud-platform".

Definition gcp_GetToken (gcpCredentialLiteral : string) : TokenProvider W :=
  do! token := google_Token gcpCredentialLiteral cloudPlatformScope in mret (ofPair token).

Definition NewGCPTokenProvider (gcpCredentialLiteral : string) : M W (TokenProvider W) :=
  do! _ := mlift (google_CredentialsFromJSON gcpCredentialLiteral cloudPlatformScope) in
  mret (gcp_GetToken gcpCredentialLiteral).

(** *** SPIFFE *)

Definition spiffe_GetToken (socketAddr audience : string) : TokenProvider W :=
  do! svid := mwrap "failed to fetch JWT-SVID from SPIFFE Workload API: "
                (spiffe_FetchJWTSVID (if bool_decide (socketAddr = "") then None else Some socketAddr) audience) in
  mret (ofPair svid).

Definition NewSPIFFETokenProvider (socketAddr audience : string) : M W (TokenProvider W) :=
  if bool_decide (audience = "") then mlift (Fail (errors_New "SPIFFE JWT-SVID audience must not be empty"))
  else mret (spiffe_GetToken socketAddr audience).

(** *** OpenAI *)

Definition tokenExchangeGrantType : string := "urn:ietf:params:oauth:grant-type:token-exchange".
Definition jwtTokenType : string := "urn:ietf:params:oauth:token-type:jwt".
Definition maxErrorBodyLength : nat := 512.
Definition OpenAIProxyEnvVar : string := "AI_GATEWAY_OPENAI_PROXY_URL".
Definition OpenAITokenExchangeURL : string := "https://auth.openai.com/oauth/token".

Record OpenAIWorkloadIdentityConfig := { wf_TokenURL : string; wf_IdentityProviderID : string; wf_ServiceAccountID : string }.

(** The proxy of an environment variable. *)
Definition proxyOf (envVar : string) : outcome (option string) :=
  let proxyURLStr := os_Getenv envVar in
  if bool_decide (proxyURLStr = "") then Ok None
  else let! proxyURL := owrap ("invalid " +:+ envVar +:+ ": ") (url_Parse proxyURLStr) in Ok (Some proxyURL).

Definition newOpenAITransport : outcome (option string) := proxyOf OpenAIProxyEnvVar.

(** The error of an answer that is not 200. *)
Definition exchangeFailure (status : Z) (body : string) : error :=
  match json_UnmarshalError body with
  | Ok errResp =>
      if bool_decide (oe_Message errResp ≠ "") then
        errors_New ("token exchange failed with status " +:+ Itoa status +:+ ": " +:+ oe_Code errResp +:+ ": " +:+ oe_Message errResp)
      else errors_New ("token exchange failed with status " +:+ Itoa status +:+ ": " +:+ str_take maxErrorBodyLength body)
  | _ => errors_New ("token exchange failed with status " +:+ Itoa status +:+ ": " +:+ str_take maxErrorBodyLength body)
  end.

(** What an answer of 200 holds. *)
Definition exchangedToken (body : string) : outcome TokenExpiry :=
  let! tokenResp := owrap "failed to decode token exchange response: " (json_UnmarshalExchange body) in
  if bool_decide (os_AccessToken tokenResp = "") then Fail (errors_New "token exchange response has no access_token")
  else if (os_ExpiresAt tokenResp <=? 0)%Z then Fail (errors_New "token exchange response has no expires_at")
  else Ok {| te_Token := os_AccessToken tokenResp; te_ExpiresAt := os_ExpiresAt tokenResp * Second |}.

Definition openAI_GetToken (config : OpenAIWorkloadIdentityConfig) (subjectTokens : TokenProvider W) (proxy : option string) : TokenProvider W :=
  do! subject := mwrap "failed to get subject token: " subjectTokens in
  do! reqBody := mlift (owrap "failed to encode token exchange request: "
    (json_MarshalExchange {| or_GrantType := tokenExchangeGrantType; or_SubjectToken := te_Token subject; or_SubjectTokenType := jwtTokenType;
                             or_IdentityProviderID := wf_IdentityProviderID config; or_ServiceAccountID := wf_ServiceAccountID config |})) in
  do! _ := mlift (owrap "failed to create token exchange request: " (http_NewRequest (wf_TokenURL config))) in
  do! resp := mwrap "failed to send token exchange request: "
    (http_Post {| hc_Proxy := proxy; hc_Authorization := None |} (wf_TokenURL config) reqBody) in
  do! body := mlift (owrap "failed to read token exchange response: " (hp_ReadAll resp (2 ^ 20))) in
  if bool_decide (hp_StatusCode resp = 200%Z) then mlift (exchangedToken body) else mlift (Fail (exchangeFailure (hp_StatusCode resp) body)).

Definition NewOpenAIWorkloadIdentityTokenProvider (config : OpenAIWorkloadIdentityConfig) (subjectTokens : TokenProvider W) : M W (TokenProvider W) :=
  if bool_decide (wf_TokenURL config = "") then mlift (Fail (errors_New "token exchange URL must not be empty"))
  else if bool_decide (wf_IdentityProviderID config = "") then mlift (Fail (errors_New "identity provider ID must not be empty"))
  else if bool_decide (wf_ServiceAccountID config = "") then mlift (Fail (errors_New "service account ID must not be empty"))
  else do! transport := mlift newOpenAITransport in mret (openAI_GetToken config subjectTokens transport).
End Providers.

(** ** Rotators *)

Definition ExpirationTimeAnnotationKey : string := "rotators/expiration-time".

(** The interface of a rotator. *)
Record Rotator (W : Type) := {
  rt_IsExpired : Z → M W bool;
  rt_GetPreRotationTime : M W Z;
  rt_Rotate : M W Z;
}.
Arguments rt_IsExpired {W} _ _.
Arguments rt_GetPreRotationTime {W} _.
Arguments rt_Rotate {W} _.

Section Rotators.
Context {W : Type} `{WO : !World W, CO : !Clouds W, RF : !Rfc3339}.

Definition LookupSecret (namespace name : string) : M W KSecret := λ w,
  match get_Secret namespace name w with
  | (w, Fail e) => (w, Fail (if errors_Is e KubeNotFound then e else Errorf_w "failed to get secret: " e))
  | r => r
  end.

Definition updateExpirationSecretAnnotation (secret : KSecret) (updateTime : Z) : KSecret :=
  {| ks_Namespace := ks_Namespace secret; ks_Name := ks_Name secret;
     ks_Annotations := <[ExpirationTimeAnnotationKey := time_Format updateTime]> (ks_Annotations secret);
     ks_Data := ks_Data secret; ks_OwnerReferences := ks_OwnerReferences secret |}.

Definition GetExpirationSecretAnnotation (secret : KSecret) : outcome Z :=
  match ks_Annotations secret !! ExpirationTimeAnnotationKey with
  | None => Fail (errors_New ("secret " +:+ ks_Namespace secret +:+ "/" +:+ ks_Name secret +:+ " missing " +:+ ExpirationTimeAnnotationKey +:+ " annotation"))
  | Some expirationTime => owrap "failed to parse expiration time annotation: " (time_Parse expirationTime)
  end.

Definition IsBufferedTimeExpired (buffer expirationTime : Z) : M W bool :=
  do! now := time_Now in mret (expirationTime + int64 (- buffer) <? now)%Z.

Definition setData (data : gmap string string) (secret : KSecret) : KSecret :=
  {| ks_Namespace := ks_Namespace secret; ks_Name := ks_Name secret; ks_Annotations := ks_Annotations secret; ks_Data := data;
     ks_OwnerReferences := ks_OwnerReferences secret |}.

Definition emptySecret (namespace name : string) : KSecret :=
  {| ks_Namespace := namespace; ks_Name := name; ks_Annotations := ∅; ks_Data := ∅; ks_OwnerReferences := [] |}.

(** The part the rotators share: the Secret is updated, or created when there is none. *)
Definition storeCredential (namespace secretName : string) (populate : KSecret → KSecret) : M W unit :=
  mtry (LookupSecret namespace secretName) (λ r,
    match r with
    | Ok secret => update_Secret (populate secret)
    | Fail e => if errors_Is e KubeNotFound then create_Secret (populate (emptySecret namespace secretName)) else mlift (Fail e)
    | Panic p => mlift (Panic p)
    end).

(** The time of the Secret's annotation less the window. *)
Definition preRotationTime (preRotationWindow : Z) (secret : KSecret) : outcome Z :=
  let! expirationTime := GetExpirationSecretAnnotation secret in Ok (expirationTime + int64 (- preRotationWindow))%Z.

(** The token of the access token rotators under the key of its cloud. *)
Definition populateToken (key : string) (token : TokenExpiry) (secret : KSecret) : KSecret :=
  let secret := updateExpirationSecretAnnotation secret (te_ExpiresAt token) in setData (<[key := te_Token token]> (ks_Data secret)) secret.

Definition GetPreRotationTime (preRotationWindow : Z) (namespace name : string) : M W Z :=
  mtry (LookupSecret namespace (GetBSPSecretName name)) (λ r,
    match r with
    | Ok secret => mlift (preRotationTime preRotationWindow secret)
    | Fail e => if errors_Is e KubeNotFound then mret zeroTime else mlift (Fail e)
    | Panic p => mlift (Panic p)
    end).

Definition tokenRotate (key namespace name : string) (tokenProvider : TokenProvider W) : M W Z :=
  do! token := tokenProvider in
  do! _ := storeCredential namespace (GetBSPSecretName name) (populateToken key token) in
  mret (te_ExpiresAt token).

Definition tokenRotator (key : string) (preRotationWindow : Z) (namespace name : string) (tokenProvider : TokenProvider W) : Rotator W :=
  {| rt_IsExpired := IsBufferedTimeExpired 0; rt_GetPreRotationTime := GetPreRotationTime preRotationWindow namespace name;
     rt_Rotate := tokenRotate key namespace name tokenProvider |}.

Definition NewAzureTokenRotator := tokenRotator AzureAccessTokenKey.
Definition NewGCPTokenRotator := tokenRotator GCPAccessTokenKey.
Definition NewOpenAITokenRotator := tokenRotator OpenAIAccessTokenKey.

(** *** AWS *)

Record awsCredentials := { cr_profile : string; cr_accessKeyID : string; cr_secretAccessKey : string; cr_sessionToken : string; cr_region : string }.

Definition newline : string := String (ascii_of_nat 10) "".

Definition formatAWSCredentialsFile (creds : awsCredentials) : string :=
  "[" +:+ cr_profile creds +:+ "]" +:+ newline +:+
  "aws_access_key_id = " +:+ cr_accessKeyID creds +:+ newline +:+
  "aws_secret_access_key = " +:+ cr_secretAccessKey creds +:+ newline +:+
  (if bool_decide (cr_sessionToken creds = "") then "" else "aws_session_token = " +:+ cr_sessionToken creds +:+ newline) +:+
  "region = " +:+ cr_region creds +:+ newline.

Definition updateAWSCredentialsInSecret (secret : KSecret) (creds : awsCredentials) : KSecret :=
  setData (<[AwsCredentialsKey := formatAWSCredentialsFile creds]> (ks_Data secret)) secret.

Definition credentialsOf (identity : AwsIdentity) (region : string) : awsCredentials :=
  {| cr_profile := "default"; cr_accessKeyID := default "" (wi_AccessKeyId identity);
     cr_secretAccessKey := default "" (wi_SecretAccessKey identity); cr_sessionToken := default "" (wi_SessionToken identity); cr_region := region |}.

Definition populateSecretWithAwsIdentity (expiration : Z) (identity : AwsIdentity) (region : string) (secret : KSecret) : KSecret :=
  updateAWSCredentialsInSecret (updateExpirationSecretAnnotation secret expiration) (credentialsOf identity region).

Record AWSOIDCRotator := {
  ao_config : AwsConfig;
  ao_namespace : string;
  ao_name : string;
  ao_preRotationWindow : Z;
  ao_oidc : OIDC;
  ao_roleArn : string;
  ao_region : string;
  ao_validateSecretRef : SecretReferenceValidator;
}.

Definition NewAWSOIDCRotator (namespace name : string) (preRotationWindow : Z) (oidc : OIDC) (roleArn region : string)
    (validateSecretRef : SecretReferenceValidator) : outcome AWSOIDCRotator :=
  let! _ := owrap "failed to load AWS config: " aws_LoadDefaultConfig in
  let proxyURL := os_Getenv "AI_GATEWAY_STS_PROXY_URL" in
  Ok {| ao_config := {| ac_Region := region; ac_ProxyURL := if bool_decide (proxyURL = "") then None else Some proxyURL |};
        ao_namespace := namespace; ao_name := name; ao_preRotationWindow := preRotationWindow; ao_oidc := oidc; ao_roleArn := roleArn;
        ao_region := region; ao_validateSecretRef := validateSecretRef |}.

Definition aws_GetPreRotationTime (r : AWSOIDCRotator) : M W Z :=
  do! secret := LookupSecret (ao_namespace r) (GetBSPSecretName (ao_name r)) in mlift (preRotationTime (ao_preRotationWindow r) secret).

Definition assumeRoleWithToken (r : AWSOIDCRotator) (token : string) : M W (option AwsIdentity) :=
  sts_AssumeRoleWithWebIdentity (ao_config r)
    {| ai_RoleArn := ao_roleArn r; ai_WebIdentityToken := token; ai_RoleSessionName := "ai-gateway-" +:+ ao_name r |}.

Definition aws_Rotate (r : AWSOIDCRotator) : M W Z :=
  do! oidcProvider := NewOidcTokenProvider (Some (ao_oidc r)) (ao_namespace r) (Some (ao_validateSecretRef r)) in
  do! accessToken := oidc_GetToken oidcProvider in
  do! awsIdentity := assumeRoleWithToken r (te_Token accessToken) in
  match awsIdentity with
  | None => mlift (Fail (errors_New ("unexpected nil awsIdentity credentials for " +:+ ao_name r +:+ " in " +:+ ao_namespace r)))
  | Some identity =>
      do! expiration := mlift (deref (wi_Expiration identity)) in
      do! _ := storeCredential (ao_namespace r) (GetBSPSecretName (ao_name r)) (populateSecretWithAwsIdentity expiration identity (ao_region r)) in
      mret expiration
  end.

Definition awsRotator (r : AWSOIDCRotator) : Rotator W :=
  {| rt_IsExpired := IsBufferedTimeExpired 0; rt_GetPreRotationTime := aws_GetPreRotationTime r; rt_Rotate := aws_Rotate r |}.

(** *** Google workload identities *)

Definition GCPProjectNameKey : string := "projectName".
Definition GCPRegionKey : string := "region".
Definition GCPServiceAccountJSON : string := "service_account.json".
Definition gcpIAMScope : string := "https://www.googleapis.com/auth/iam".
Definition tokenTypeAccessToken : string := "urn:ietf:params:oauth:token-type:access_token".

(** [gcpauth.NewTransport]; the environment does not change, so that the shared
    transport is the one a first call would make. *)
Definition gcpauth_NewTransport : outcome (option string) := proxyOf "AI_GATEWAY_GCP_AUTH_PROXY_URL".

Definition newBearerAuthRoundTripper (transport : option string) (token : string) : HttpClient :=
  {| hc_Proxy := transport; hc_Authorization := if bool_decide (token = "") then None else Some ("Bearer " +:+ token) |}.

Definition stsAudience (wifConfig : GCPWorkloadIdentityFederationConfig) : string :=
  "//iam.googleapis.com/projects/" +:+ gw_ProjectID wifConfig +:+ "/locations/global/workloadIdentityPools/" +:+
  gw_WorkloadIdentityPoolName wifConfig +:+ "/providers/" +:+ gw_WorkloadIdentityProviderName wifConfig.

Definition exchangeJWTForSTSToken (transport : option string) (jwtToken : string) (wifConfig : GCPWorkloadIdentityFederationConfig) : M W TokenExpiry :=
  let httpClient := newBearerAuthRoundTripper transport "" in
  do! _ := mlift (owrap "error creating GCP STS service client: " (google_NewSTSService httpClient)) in
  do! resp := mwrap ("error calling GCP STS Token API with audience " +:+ stsAudience wifConfig +:+ ": ")
    (google_ExchangeToken httpClient
       {| xr_GrantType := tokenExchangeGrantType; xr_Audience := stsAudience wifConfig; xr_Scope := gcpIAMScope;
          xr_RequestedTokenType := tokenTypeAccessToken; xr_SubjectToken := jwtToken; xr_SubjectTokenType := jwtTokenType |}) in
  do! now := time_Now in
  mret {| te_Token := resp.1; te_ExpiresAt := now + int64 (resp.2 * Second) |}.

Definition serviceAccountEmail (serviceAccountName projectName : string) : string :=
  serviceAccountName +:+ "@" +:+ projectName +:+ ".iam.gserviceaccount.com".

Definition impersonateServiceAccount (transport : option string) (stsToken serviceAccountName projectName : string) : M W TokenExpiry :=
  let saEmail := serviceAccountEmail serviceAccountName projectName in
  let config := {| ic_TargetPrincipal := saEmail; ic_Scopes := [cloudPlatformScope] |} in
  let httpClient := newBearerAuthRoundTripper transport stsToken in
  do! _ := mlift (owrap ("error creating impersonated credentials for service account " +:+ saEmail +:+ ": ")
                    (google_CredentialsTokenSource httpClient config)) in
  do! token := mwrap ("error getting access token for service account " +:+ saEmail +:+ ": ") (google_ImpersonatedToken httpClient config) in
  mret (ofPair token).

Definition populateInSecret (accessToken region projectName : string) (expiryTime : Z) (secret : KSecret) : KSecret :=
  setData (<[GCPAccessTokenKey := accessToken]> (<[GCPProjectNameKey := projectName]> (<[GCPRegionKey := region]> ∅)))
    (updateExpirationSecretAnnotation secret expiryTime).

Record gcpOIDCTokenRotator := {
  go_transport : option string;
  go_gcpCredentials : GCPCredentials;
  go_namespace : string;
  go_name : string;
  go_preRotationWindow : Z;
  go_oidcProvider : TokenProvider W;
}.

Definition NewGCPOIDCTokenRotator (bsp : BackendSecurityPolicy) (preRotationWindow : Z) (tokenProvider : TokenProvider W) : outcome gcpOIDCTokenRotator :=
  let! transport := owrap "error initializing GCP transport: " gcpauth_NewTransport in
  match bp_GCPCredentials bsp with
  | None => Fail (errors_New ("GCP credentials are not configured in BackendSecurityPolicy " +:+ bp_Namespace bsp +:+ "/" +:+ bp_Name bsp))
  | Some creds => Ok {| go_transport := transport; go_gcpCredentials := creds; go_namespace := bp_Namespace bsp; go_name := bp_Name bsp;
                        go_preRotationWindow := preRotationWindow; go_oidcProvider := tokenProvider |}
  end.

Definition gcpOIDC_GetPreRotationTime (r : gcpOIDCTokenRotator) : M W Z :=
  mtry (LookupSecret (go_namespace r) (GetBSPSecretName (go_name r))) (λ o,
    match o with
    | Ok secret =>
        mlift (let! expirationTime := owrap "failed to get expiration time from secret: " (GetExpirationSecretAnnotation secret) in
               Ok (expirationTime + int64 (- go_preRotationWindow r))%Z)
    | Fail e => if errors_Is e KubeNotFound then mret zeroTime else mlift (Fail (Errorf_w "failed to lookup secret: " e))
    | Panic p => mlift (Panic p)
    end).

(** The token of the service account, or of the workload itself. *)
Definition gcpAccessToken (r : gcpOIDCTokenRotator) (wifConfig : GCPWorkloadIdentityFederationConfig) (stsToken : TokenExpiry) : M W TokenExpiry :=
  match gw_ServiceAccountImpersonation wifConfig with
  | Some serviceAccountName =>
      mwrap ("failed to impersonate service account " +:+ serviceAccountEmail serviceAccountName (pc_ProjectName (go_gcpCredentials r)) +:+ ": ")
        (impersonateServiceAccount (go_transport r) (te_Token stsToken) serviceAccountName (pc_ProjectName (go_gcpCredentials r)))
  | None => mret stsToken
  end.

(** A rotator is only made for a policy with a federation. *)
Definition gcpOIDC_Rotate (r : gcpOIDCTokenRotator) : M W Z :=
  let creds := go_gcpCredentials r in
  do! oidcTokenExpiry := mwrap "failed to obtain OIDC token: " (go_oidcProvider r) in
  do! wifConfig := mlift (deref (pc_WorkloadIdentityFederationConfig creds)) in
  do! stsToken := mwrap ("failed to exchange JWT for STS token (project: " +:+ gw_ProjectID wifConfig +:+ ", pool: " +:+
                         gw_WorkloadIdentityPoolName wifConfig +:+ "): ")
    (exchangeJWTForSTSToken (go_transport r) (te_Token oidcTokenExpiry) wifConfig) in
  do! token := gcpAccessToken r wifConfig stsToken in
  do! _ := storeCredential (go_namespace r) (GetBSPSecretName (go_name r))
    (populateInSecret (te_Token token) (pc_Region creds) (pc_ProjectName creds) (te_ExpiresAt token)) in
  mret (te_ExpiresAt token).

Definition gcpOIDCRotator (r : gcpOIDCTokenRotator) : Rotator W :=
  {| rt_IsExpired := IsBufferedTimeExpired 0; rt_GetPreRotationTime := gcpOIDC_GetPreRotationTime r; rt_Rotate := gcpOIDC_Rotate r |}.
End Rotators.

(** ** The reconciler *)

(** The requeue of a run and its error. *)
Definition Reply : Type := Z * option error.

(** An early return with an empty result. *)
Definition settle {W} (m : M W Reply) : M W Reply := λ w,
  match m w with
  | (w, Fail e) => (w, Ok (0%Z, Some e))
  | r => r
  end.

Section Controller.
Context {W : Type} `{WO : !World W, CO : !Clouds W, RF : !Rfc3339, GC : !GrantClient, OW : !Owners}.
Context (preRotationWindow : Z).

(** The second half of [executeRotation], with the error of the first. *)
Definition rotateIfExpired (rotator : Rotator W) (rotationTime : Z) (err : option error) : M W Reply :=
  do! expired := rt_IsExpired rotator rotationTime in
  if expired : bool then
    mtry (rt_Rotate rotator) (λ r,
      match r with
      | Ok expirationTime =>
          let rotationTime := (expirationTime + int64 (- preRotationWindow))%Z in
          do! now := time_Now in
          if (0 <? Sub rotationTime now)%Z then mret (Sub rotationTime now, None)
          else mret (Minute, Some (errors_New ("newly rotated credential is already expired " +:+ time_String rotationTime)))
      | Fail e => mret (Minute, Some e)
      | Panic p => mlift (Panic p)
      end)
  else do! now := time_Now in mret (Sub rotationTime now, err).

Definition executeRotation (rotator : Rotator W) : M W Reply :=
  mtry (rt_GetPreRotationTime rotator) (λ r,
    match r with
    | Ok rotationTime => rotateIfExpired rotator rotationTime None
    | Fail e => if errors_Is e KubeNotFound then rotateIfExpired rotator zeroTime (Some e) else mret (Minute, Some e)
    | Panic p => mlift (Panic p)
    end).

(** ** The token providers of a policy *)

Definition getBackendSecurityPolicyAuthOIDC (bsp : BackendSecurityPolicy) : option OIDC :=
  let t := bp_Type bsp in
  if bool_decide (t = BackendSecurityPolicyTypeAWSCredentials) then c ← bp_AWSCredentials bsp; wx_OIDC <$> wc_OIDCExchangeToken c
  else if bool_decide (t = BackendSecurityPolicyTypeAzureCredentials) then c ← bp_AzureCredentials bsp; zc_OIDCExchangeToken c
  else if bool_decide (t = BackendSecurityPolicyTypeGCPCredentials) then
    c ← bp_GCPCredentials bsp; gw_OIDCExchangeToken <$> pc_WorkloadIdentityFederationConfig c
  else if bool_decide (t = BackendSecurityPolicyTypeOpenAICredentials) then
    c ← bp_OpenAICredentials bsp; sj_OIDCExchangeToken (ow_SubjectToken (oc_WorkloadIdentityFederationConfig c))
  else None.

(** The value of a key of a Secret a policy may refer to. *)
Definition referredValue (bsp : BackendSecurityPolicy) (ref : SecretObjectReference) (key what : string) : M W string :=
  let secretNamespace := default (bp_Namespace bsp) (so_Namespace ref) in
  do! _ := mlift (validateSecretReference (bp_Namespace bsp) secretNamespace (so_Name ref)) in
  do! secret := LookupSecret secretNamespace (so_Name ref) in
  match ks_Data secret !! key with
  | Some value => mret value
  | None => mlift (Fail (errors_New ("missing " +:+ what +:+ " " +:+ key)))
  end.

Definition oidcProviderOf (bsp : BackendSecurityPolicy) (oidc : OIDC) : M W (TokenProvider W) :=
  do! p := NewOidcTokenProvider (Some oidc) (bp_Namespace bsp) (Some validateSecretReference) in mret (oidc_GetToken p).

Definition subjectTokensOf (bsp : BackendSecurityPolicy) (subject : OpenAISubjectToken) : M W (TokenProvider W) :=
  match sj_SPIFFEJWTSVID subject, sj_OIDCExchangeToken subject with
  | Some svid, _ => mwrap "failed to initialize subject token provider: " (NewSPIFFETokenProvider (sv_SocketPath svid) (sv_Audience svid))
  | None, Some oidc => mwrap "failed to initialize subject token provider: " (oidcProviderOf bsp oidc)
  | None, None => mlift (Fail (errors_New ("one of spiffeJWTSVID or oidcExchangeToken must be defined, namespace " +:+ bp_Namespace bsp +:+
                                           " name " +:+ bp_Name bsp)))
  end.

Definition openAIConfigOf (wif : OpenAIWorkloadIdentityFederationConfig) : OpenAIWorkloadIdentityConfig :=
  {| wf_TokenURL := OpenAITokenExchangeURL; wf_IdentityProviderID := ow_IdentityProviderID wif; wf_ServiceAccountID := ow_ServiceAccountID wif |}.

Definition newOpenAITokenProvider (bsp : BackendSecurityPolicy) : M W (TokenProvider W) :=
  do! creds := mlift (deref (bp_OpenAICredentials bsp)) in
  let wif := oc_WorkloadIdentityFederationConfig creds in
  do! subjectTokens := subjectTokensOf bsp (ow_SubjectToken wif) in
  NewOpenAIWorkloadIdentityTokenProvider (openAIConfigOf wif) subjectTokens.

Definition validateGCPCredentialsParams (gcpCreds : option GCPCredentials) : outcome unit :=
  match gcpCreds with
  | None => Fail (errors_New "invalid backend security policy, gcp credentials cannot be nil")
  | Some c =>
      if bool_decide (pc_ProjectName c = "") then Fail (errors_New "invalid GCP credentials configuration: projectName cannot be empty")
      else if bool_decide (pc_Region c = "") then Fail (errors_New "invalid GCP credentials configuration: region cannot be empty")
      else match pc_WorkloadIdentityFederationConfig c with
           | None => Ok tt
           | Some wif =>
               if bool_decide (gw_ProjectID wif = "") then
                 Fail (errors_New "invalid GCP Workload Identity Federation configuration: projectID cannot be empty")
               else if bool_decide (gw_WorkloadIdentityPoolName wif = "") then
                 Fail (errors_New "invalid GCP Workload Identity Federation configuration: workloadIdentityPoolName cannot be empty")
               else if bool_decide (gw_WorkloadIdentityProviderName wif = "") then
                 Fail (errors_New "invalid GCP Workload Identity Federation configuration: workloadIdentityProvider.name cannot be empty")
               else Ok tt
           end
  end.

(** ** The rotator of a policy; [None] when there is nothing to rotate *)

Definition awsRotatorOf (bsp : BackendSecurityPolicy) : M W (option (Rotator W)) :=
  match getBackendSecurityPolicyAuthOIDC bsp with
  | None => mret None
  | Some oidc =>
      do! creds := mlift (deref (bp_AWSCredentials bsp)) in
      do! exchange := mlift (deref (wc_OIDCExchangeToken creds)) in
      do! r := mlift (NewAWSOIDCRotator (bp_Namespace bsp) (bp_Name bsp) preRotationWindow oidc (wx_AwsRoleArn exchange) (wc_Region creds)
                        validateSecretReference) in
      mret (Some (awsRotator r))
  end.

Definition azureRotatorOf (bsp : BackendSecurityPolicy) : M W (option (Rotator W)) :=
  do! creds := mlift (deref (bp_AzureCredentials bsp)) in
  do! provider :=
    match getBackendSecurityPolicyAuthOIDC bsp, zc_ClientSecretRef creds with
    | Some oidc, _ =>
        do! oidcProvider := oidcProviderOf bsp oidc in
        NewAzureTokenProvider (zc_TenantID creds) (zc_ClientID creds) oidcProvider [azureScopeURL]
    | None, Some secretRef =>
        do! clientSecret := referredValue bsp secretRef clientSecretKey "azure client secret key" in
        NewAzureClientSecretTokenProvider (zc_TenantID creds) (zc_ClientID creds) clientSecret [azureScopeURL]
    | None, None => mlift (Fail (errors_New ("one of secret ref or oidc must be defined, namespace " +:+ bp_Namespace bsp +:+ " name " +:+ bp_Name bsp)))
    end in
  mret (Some (NewAzureTokenRotator preRotationWindow (bp_Namespace bsp) (bp_Name bsp) provider)).

Definition gcpRotatorOf (bsp : BackendSecurityPolicy) : M W (option (Rotator W)) :=
  do! _ := mlift (owrap "invalid GCP credentials configuration: " (validateGCPCredentialsParams (bp_GCPCredentials bsp))) in
  do! creds := mlift (deref (bp_GCPCredentials bsp)) in
  match getBackendSecurityPolicyAuthOIDC bsp, pc_CredentialsFile creds with
  | Some oidc, _ =>
      do! oidcProvider := mwrap "failed to initialize OIDC provider: " (oidcProviderOf bsp oidc) in
      do! r := mlift (NewGCPOIDCTokenRotator bsp preRotationWindow oidcProvider) in
      mret (Some (gcpOIDCRotator r))
  | None, Some credentialFile =>
      do! ref := mlift (deref credentialFile) in
      do! serviceAccountKeyJSON := referredValue bsp ref GCPServiceAccountJSON "gcp service account key" in
      do! tokenProvider := NewGCPTokenProvider serviceAccountKeyJSON in
      mret (Some (NewGCPTokenRotator preRotationWindow (bp_Namespace bsp) (bp_Name bsp) tokenProvider))
  | None, None => mret None
  end.

Definition openAIRotatorOf (bsp : BackendSecurityPolicy) : M W (option (Rotator W)) :=
  do! provider := newOpenAITokenProvider bsp in
  mret (Some (NewOpenAITokenRotator preRotationWindow (bp_Namespace bsp) (bp_Name bsp) provider)).

Definition rotatorOf (bsp : BackendSecurityPolicy) : M W (option (Rotator W)) :=
  let t := bp_Type bsp in
  if bool_decide (t = BackendSecurityPolicyTypeAWSCredentials) then awsRotatorOf bsp
  else if bool_decide (t = BackendSecurityPolicyTypeAzureCredentials) then azureRotatorOf bsp
  else if bool_decide (t = BackendSecurityPolicyTypeGCPCredentials) then gcpRotatorOf bsp
  else if bool_decide (t = BackendSecurityPolicyTypeOpenAICredentials) then openAIRotatorOf bsp
  else mlift (Fail (errors_New ("backend security type " +:+ t +:+ " does not support OIDC token exchange"))).

Definition getBSPGeneratedSecretName (bsp : BackendSecurityPolicy) : outcome string :=
  let t := bp_Type bsp in
  if bool_decide (t = BackendSecurityPolicyTypeAWSCredentials) then
    let! c := deref (bp_AWSCredentials bsp) in Ok (if bool_decide (wc_OIDCExchangeToken c = None) then "" else GetBSPSecretName (bp_Name bsp))
  else if bool_decide (t = BackendSecurityPolicyTypeAzureCredentials) then
    let! c := deref (bp_AzureCredentials bsp) in Ok (if bool_decide (zc_OIDCExchangeToken c = None) then "" else GetBSPSecretName (bp_Name bsp))
  else if bool_decide (t = BackendSecurityPolicyTypeGCPCredentials) then
    let! c := deref (bp_GCPCredentials bsp) in
    Ok (if bool_decide (pc_WorkloadIdentityFederationConfig c = None) then "" else GetBSPSecretName (bp_Name bsp))
  else if bool_decide (t ∈ [BackendSecurityPolicyTypeAPIKey; BackendSecurityPolicyTypeAzureAPIKey; BackendSecurityPolicyTypeAnthropicAPIKey]) then Ok ""
  else if bool_decide (t = BackendSecurityPolicyTypeOpenAICredentials) then Ok (GetBSPSecretName (bp_Name bsp))
  else Panic ("BUG: unsupported backend security policy type: " +:+ t).

(** The generated Secret belongs to its policy. *)
Definition ownSecret (bsp : BackendSecurityPolicy) (secretName : string) : M W unit :=
  do! secret := mwrap ("failed to lookup backend security policy secret " +:+ bp_Namespace bsp +:+ "/" +:+ secretName +:+ ": ")
    (LookupSecret (bp_Namespace bsp) secretName) in
  if HasOwnerReference (ks_OwnerReferences secret) bsp then mret tt
  else match SetControllerReference bsp secret with
       | Ok updated => mwrap ("failed to update secret " +:+ ks_Namespace updated +:+ "/" +:+ ks_Name updated +:+ " with owner reference: ")
                         (update_Secret updated)
       | Fail e => mlift (Panic ("BUG: failed to set controller reference for secret " +:+ bp_Namespace bsp +:+ "/" +:+ bp_Name bsp +:+ ": " +:+ err_msg e))
       | Panic p => mlift (Panic p)
       end.

Definition rotateCredential (bsp : BackendSecurityPolicy) : M W Reply :=
  settle (
    do! rotator := rotatorOf bsp in
    match rotator with
    | None => mret (0%Z, None)
    | Some rotator =>
        do! res := executeRotation rotator in
        match res.2 with
        | Some e =>
            mret (res.1, Some (Errorf_w ("failed to execute rotation for backend security policy " +:+ bp_Namespace bsp +:+ "/" +:+ bp_Name bsp +:+ ": ") e))
        | None =>
            do! secretName := mlift (getBSPGeneratedSecretName bsp) in
            if bool_decide (secretName = "") then mret res
            else mtry (ownSecret bsp secretName) (λ r,
                   match r with
                   | Ok _ => mret res
                   | Fail e => mret (res.1, Some e)
                   | Panic p => mlift (Panic p)
                   end)
        end
    end).

(** The types whose Secret is not written by a rotator. *)
Definition staticTypes : list string :=
  [BackendSecurityPolicyTypeAPIKey; BackendSecurityPolicyTypeAzureAPIKey; BackendSecurityPolicyTypeAnthropicAPIKey].

Definition validateStaticCredentialSecretRef (bsp : BackendSecurityPolicy) : outcome unit :=
  if bool_decide (bp_Type bsp ∈ staticTypes ++ [BackendSecurityPolicyTypeAWSCredentials]) then
    let! ref := backendSecurityPolicySecretRef bsp in
    match ref with
    | None => Ok tt
    | Some (name, namespace) => validateSecretReference (bp_Namespace bsp) namespace name
    end
  else Ok tt.

(** One target: it is told when it is there. *)
Definition syncTarget (bsp : BackendSecurityPolicy) (ref : LocalPolicyTargetReference) : M W unit :=
  let tell get send what :=
    mtry (get (bp_Namespace bsp) (lt_Name ref)) (λ r,
      match r with
      | Ok _ => λ w, (send (bp_Namespace bsp) (lt_Name ref) w, Ok tt)
      | Fail e => if errors_Is e KubeNotFound then mret tt
                  else mlift (Fail (Errorf_w ("failed to get targeted " +:+ what +:+ " " +:+ lt_Name ref +:+ ": ") e))
      | Panic p => mlift (Panic p)
      end) in
  if bool_decide (lt_Group ref = aiServiceBackendGroup) && bool_decide (lt_Kind ref = aiServiceBackendKind) then
    tell get_TargetBackend send_BackendEvent "AIServiceBackend"
  else if bool_decide (lt_Group ref = inferencePoolGroup) && bool_decide (lt_Kind ref = inferencePoolKind) then
    tell get_TargetPool send_PoolEvent "InferencePool"
  else mret tt.

Fixpoint syncTargets (bsp : BackendSecurityPolicy) (refs : list LocalPolicyTargetReference) : M W unit :=
  match refs with
  | [] => mret tt
  | ref :: refs => do! _ := syncTarget bsp ref in syncTargets bsp refs
  end.

Definition syncBackendSecurityPolicy (bsp : BackendSecurityPolicy) : M W unit := syncTargets bsp (bp_TargetRefs bsp).

(** A policy whose credential the controller obtains; AWS without a file or an exchange
    is left to the chain of the pods. *)
Definition requiresRotation (bsp : BackendSecurityPolicy) : bool :=
  negb (bool_decide (bp_Type bsp ∈ staticTypes)) &&
  negb (bool_decide (bp_Type bsp = BackendSecurityPolicyTypeAWSCredentials) &&
        match bp_AWSCredentials bsp with
        | Some c => bool_decide (wc_CredentialsFile c = None) && bool_decide (wc_OIDCExchangeToken c = None)
        | None => false
        end).

(** The targets are told also when the Secret of a static credential may not be
    referred to. *)
Definition syncAndCheck (bsp : BackendSecurityPolicy) (requeue : Z) : M W Reply :=
  match validateStaticCredentialSecretRef bsp with
  | Panic p => mlift (Panic p)
  | grantErr =>
      mtry (syncBackendSecurityPolicy bsp) (λ r,
        match r with
        | Ok _ => mret (requeue, match grantErr with Fail e => Some e | _ => None end)
        | Fail e => mret (requeue, Some e)
        | Panic p => mlift (Panic p)
        end)
  end.

Definition reconcile (bsp : BackendSecurityPolicy) : M W Reply := λ w,
  let '(w, deleted) := handleFinalizer (bp_Deleted bsp) (bp_HasFinalizer bsp) (λ w, (syncBackendSecurityPolicy bsp w).1)
    (λ on w, update_PolicyFinalizer bsp on w) w in
  if deleted then (w, Ok (0%Z, None))
  else
    (do! res := (if requiresRotation bsp then rotateCredential bsp else mret (0%Z, None)) in
     match res.2 with
     | Some _ => mret res
     | None => syncAndCheck bsp res.1
     end) w.

Definition Reconcile (namespace name : string) : M W Reply :=
  mtry (get_Policy namespace name) (λ r,
    match r with
    | Ok bsp => λ w,
        match reconcile bsp w with
        | (w, Ok res) =>
            (match res.2 with
             | Some e => update_PolicyStatus bsp ConditionTypeNotAccepted (err_msg e) w
             | None => update_PolicyStatus bsp ConditionTypeAccepted "BackendSecurityPolicy reconciled successfully" w
             end, Ok res)
        | r => r
        end
    | Fail e => mret (0%Z, if errors_Is e KubeNotFound then None else Some e)
    | Panic p => mlift (Panic p)
    end).
End Controller.
