(* ===== verification/RotationProps.v ===== *)
(** * Rotation of backend credentials: properties

    A credential is replaced before it expires, what is published is what the cloud
    issued to the policy's own identity, and a run reads only Secrets the policy may
    refer to: the definitions are in [Rotation]. *)

From Stdlib Require Import Ascii ZArith Lia.
From stdpp Require Import base gmap strings list.
From S2P Require Import Prelude GoStrings GoNum GoCodec Kube RateLimit QuotaController FilterApi ConfigBundle FilterConfig FilterConfigProps Rotation.

(** ** What the world does *)

Section Laws.
Context {W : Type} `{WO : !World W}.

(** A call that stores and reads no Secret. *)
Definition silent (w w' : W) : Prop := w_secrets w' = w_secrets w ∧ w_reads w' = w_reads w ∧ (w_clock w ≤ w_clock w')%Z.

(** The relation between the worlds before and after a call. *)
Definition within {A} (R : W → W → Prop) (m : M W A) : Prop := ∀ w w' o, m w = (w', o) → R w w'.

(** A value a call can return. *)
Definition returns {A} (m : M W A) (a : A) : Prop := ∃ w w', m w = (w', Ok a).

(** A relation that calls compose in and that holds of every call of the world but the
    reading of a Secret outside of [P] and the writing of one outside of [Q]. *)
Record admits (R : W → W → Prop) (P : string → string → Prop) (Q : KSecret → Prop) : Prop := {
  ad_refl w : R w w;
  ad_trans w1 w2 w3 : R w1 w2 → R w2 w3 → R w1 w3;
  ad_silent w w' : silent w w' → R w w';
  ad_get ns name : P ns name → within R (get_Secret ns name);
  ad_create s : Q s → within R (create_Secret s);
  ad_update s : Q s → within R (update_Secret s);
}.

Definition keyOf (s : KSecret) : string * string := (ks_Namespace s, ks_Name s).
End Laws.

(** Documented behaviour of a call: reads return what is stored, a successful write
    stores and no write touches another Secret, the clock does not go back.  What a
    failed write leaves of its own Secret is not said. *)
Class WorldLaws (W : Type) `{WO : !World W} := {
  time_Now_spec w : ∃ w' t, time_Now w = (w', Ok t) ∧ silent w w' ∧ (w_clock w ≤ t ≤ w_clock w')%Z;
  get_Secret_spec ns name w w' o : get_Secret ns name w = (w', o) →
    w_secrets w' = w_secrets w ∧ w_reads w' = w_reads w ++ [(ns, name)] ∧ (w_clock w ≤ w_clock w')%Z ∧
    match o with
    | Ok s => w_secrets w !! (ns, name) = Some s ∧ keyOf s = (ns, name)
    | Fail e => errors_Is e KubeNotFound = true → w_secrets w !! (ns, name) = None
    | Panic _ => True
    end;
  create_Secret_spec s w w' o : create_Secret s w = (w', o) →
    w_reads w' = w_reads w ∧ (w_clock w ≤ w_clock w')%Z ∧ (o = Ok tt → w_secrets w' !! keyOf s = Some s) ∧
    ∀ x, x ≠ keyOf s → w_secrets w' !! x = w_secrets w !! x;
  update_Secret_spec s w w' o : update_Secret s w = (w', o) →
    w_reads w' = w_reads w ∧ (w_clock w ≤ w_clock w')%Z ∧ (o = Ok tt → w_secrets w' !! keyOf s = Some s) ∧
    ∀ x, x ≠ keyOf s → w_secrets w' !! x = w_secrets w !! x;
  get_Policy_spec ns name w w' o : get_Policy ns name w = (w', o) →
    silent w w' ∧ (∀ bsp, o = Ok bsp → bp_Namespace bsp = ns ∧ bp_Name bsp = name);
  get_TargetBackend_silent ns name : within silent (get_TargetBackend ns name);
  get_TargetPool_silent ns name : within silent (get_TargetPool ns name);
  send_BackendEvent_silent ns name w : silent w (send_BackendEvent ns name w);
  send_PoolEvent_silent ns name w : silent w (send_PoolEvent ns name w);
  update_PolicyFinalizer_silent bsp on w : silent w (update_PolicyFinalizer bsp on w);
  update_PolicyStatus_silent bsp c m w : silent w (update_PolicyStatus bsp c m w);
}.

(** The clouds store and read no Secret of the cluster; the SDK of Azure runs the
    callback it was given. *)
Class CloudsLaws (W : Type) `{WO : !World W, CO : !Clouds W} := {
  oidc_NewProvider_silent u : within silent (oidc_NewProvider u);
  clientcredentials_Token_silent c : within silent (clientcredentials_Token c);
  sts_Assume_silent c i : within silent (sts_AssumeRoleWithWebIdentity c i);
  azure_AssertionToken_within R P Q p t c cb s : admits R P Q → within R cb → within R (azure_AssertionToken p t c cb s);
  azure_SecretToken_silent p t c k s : within silent (azure_SecretToken p t c k s);
  google_Token_silent c s : within silent (google_Token c s);
  google_ExchangeToken_silent c r : within silent (google_ExchangeToken c r);
  google_ImpersonatedToken_silent c r : within silent (google_ImpersonatedToken c r);
  spiffe_Fetch_silent s a : within silent (spiffe_FetchJWTSVID s a);
  http_Post_silent c u b : within silent (http_Post c u b);
}.

(** A time written in RFC3339 is read back to the second, within the four digits of
    its year. *)
Definition rfcRange (t : Z) : Prop := (0 ≤ t < 253402300800 * Second)%Z.

Class Rfc3339Laws (RF : Rfc3339) := {
  time_Parse_Format t : rfcRange t → time_Parse (time_Format t) = Ok (t / Second * Second)%Z;
}.

(** An owner reference changes nothing else of a Secret. *)
Class OwnersLaws (OW : Owners) := {
  SetControllerReference_keeps bsp s s' : SetControllerReference bsp s = Ok s' →
    keyOf s' = keyOf s ∧ ks_Annotations s' = ks_Annotations s ∧ ks_Data s' = ks_Data s;
}.

(** ** Calls within a relation *)

Create HintDb world.

Section Within.
Context {W : Type} `{WO : !World W} (R : W → W → Prop) (P : string → string → Prop) (Q : KSecret → Prop) (AD : admits R P Q).

Lemma within_mret {A} (a : A) : within R (mret a).
Proof. intros w w' o [= <- <-]. apply (ad_refl R P Q AD). Qed.

Lemma within_mlift {A} (x : outcome A) : within R (mlift x).
Proof. intros w w' o [= <- <-]. apply (ad_refl R P Q AD). Qed.

Lemma within_run {A B} (m : M W A) (k : A → M W B) : within R m → (∀ a, returns m a → within R (k a)) → within R (mseq m k).
Proof.
  intros Hm Hk w w' o. unfold mseq. destruct (m w) as [w1 [a|e|p]] eqn:E; intros H.
  - eapply (ad_trans R P Q AD); [by eapply Hm|]. eapply Hk; [by exists w, w1|done].
  - injection H as <- <-. by eapply Hm.
  - injection H as <- <-. by eapply Hm.
Qed.

Lemma within_mseq {A B} (m : M W A) (k : A → M W B) : within R m → (∀ a, within R (k a)) → within R (mseq m k).
Proof. intros Hm Hk. apply within_run; auto. Qed.

Lemma within_mwrap {A} p (m : M W A) : within R m → within R (mwrap p m).
Proof. intros Hm w w' o. unfold mwrap. destruct (m w) as [w1 r] eqn:E. intros [= <- <-]. by eapply Hm. Qed.

Lemma within_mtry_run {A B} (m : M W A) (k : outcome A → M W B) :
  within R m → (∀ a, returns m a → within R (k (Ok a))) → (∀ e, within R (k (Fail e))) → within R (mtry m k).
Proof.
  intros Hm Hk Hf w w' o. unfold mtry. destruct (m w) as [w1 [a|e|p]] eqn:E; intros H.
  - eapply (ad_trans R P Q AD); [by eapply Hm|]. eapply Hk; [by exists w, w1|done].
  - eapply (ad_trans R P Q AD); [by eapply Hm|by eapply Hf].
  - injection H as <- <-. by eapply Hm.
Qed.

Lemma within_mtry {A B} (m : M W A) (k : outcome A → M W B) : within R m → (∀ o, within R (k o)) → within R (mtry m k).
Proof. intros Hm Hk. apply within_mtry_run; auto. Qed.

Lemma within_silent {A} (m : M W A) : within silent m → within R m.
Proof. intros Hm w w' o H. eapply (ad_silent R P Q AD), Hm, H. Qed.

Lemma within_settle (m : M W Reply) : within R m → within R (settle m).
Proof. intros Hm w w' o. unfold settle. destruct (m w) as [w1 [a|e|p]] eqn:E; intros [= <- <-]; by eapply Hm. Qed.

Lemma within_effect {A} (f : W → W) (o : outcome A) : (∀ w, silent w (f w)) → within R (λ w, (f w, o)).
Proof. intros Hf w w' o' [= <- <-]. apply (ad_silent R P Q AD), Hf. Qed.

Context `{WL : !WorldLaws W}.

Lemma within_now : within R time_Now.
Proof.
  apply within_silent. intros w w' o H. destruct (time_Now_spec w) as (w1 & t & E & Hs & _).
  rewrite E in H. by injection H as <- <-.
Qed.
End Within.

Ltac within_step :=
  match goal with
  | AD : admits _ _ _ |- within _ (mret _) => by eapply within_mret
  | AD : admits _ _ _ |- within _ (mlift _) => by eapply within_mlift
  | AD : admits _ _ _ |- within _ time_Now => by eapply within_now
  | AD : admits _ _ _ |- within _ (mseq _ _) => eapply within_mseq; [exact AD| |intros ?]
  | |- within _ (mwrap _ _) => apply within_mwrap
  | AD : admits _ _ _ |- within _ (mtry _ _) => eapply within_mtry; [exact AD| |intros [?|?|?]]
  | AD : admits _ _ _ |- within _ (get_Secret _ _) => eapply ad_get; [exact AD|]
  | AD : admits _ _ _ |- within _ (create_Secret _) => eapply ad_create; [exact AD|]
  | AD : admits _ _ _ |- within _ (update_Secret _) => eapply ad_update; [exact AD|]
  | |- within _ (if ?b then _ else _) => destruct b eqn:?
  | |- within _ (match ?x with _ => _ end) => destruct x eqn:?
  | |- within _ (let _ := _ in _) => cbv zeta
  end.

#[export] Hint Resolve oidc_NewProvider_silent clientcredentials_Token_silent sts_Assume_silent azure_SecretToken_silent
  google_Token_silent google_ExchangeToken_silent google_ImpersonatedToken_silent spiffe_Fetch_silent http_Post_silent
  get_TargetBackend_silent get_TargetPool_silent : world.

(** A call that is within every relation, as far as it does not read a Secret. *)
Ltac within_silently := match goal with AD : admits _ _ _ |- within _ _ => eapply within_silent; [exact AD|solve [auto with world]] end.
Ltac within := repeat first [within_step|within_silently].


(** The Secrets a policy of a namespace may read. *)
Definition readable `{GC : !GrantClient} (ns : string) (secretNs name : string) : Prop := validateSecretReference ns secretNs name = Ok tt.

Lemma readable_own `{GC : !GrantClient} ns name : readable ns ns name.
Proof. unfold readable, validateSecretReference, validateReference. by rewrite bool_decide_true. Qed.

(** ** What a call returns *)

(** The branch of the type of a policy. *)
Ltac of_type Ht := rewrite Ht; repeat (rewrite bool_decide_false by done); try rewrite bool_decide_true by done.

Section Returns.
Context {W : Type} `{WO : !World W, CO : !Clouds W, RF : !Rfc3339, GC : !GrantClient}.

Lemma returns_mlift {A} (o : outcome A) a : returns (W := W) (mlift o) a → o = Ok a.
Proof. intros (w & w' & [= <- ->]). done. Qed.

Lemma returns_mret {A} (x a : A) : returns (W := W) (mret x) a → a = x.
Proof. intros (w & w' & [= <- <-]). done. Qed.

Lemma returns_mseq {A B} (m : M W A) (k : A → M W B) b : returns (mseq m k) b → ∃ a, returns m a ∧ returns (k a) b.
Proof.
  intros (w & w' & H). unfold mseq in H. destruct (m w) as [w1 [a|e|p]] eqn:E; [|done..]. exists a. split; [by exists w, w1|by exists w1, w'].
Qed.

Lemma returns_mwrap {A} p (m : M W A) a : returns (mwrap p m) a → returns m a.
Proof. intros (w & w' & H). unfold mwrap in H. destruct (m w) as [w1 [x|e|q]] eqn:E; [|done..]. injection H as <- <-. by exists w, w1. Qed.

Lemma provider_returns oidc owner v p :
  returns (NewOidcTokenProvider oidc owner v) p → tp_ownerNamespace p = owner ∧ tp_validateSecretRef p = v.
Proof.
  unfold NewOidcTokenProvider. destruct oidc as [oidc|]; [|by intros H%returns_mlift]. cbv zeta.
  intros (x & _ & (c & _ & (s & _ & H)%returns_mseq)%returns_mseq)%returns_mseq. revert H.
  case_bool_decide; [by intros ?%returns_mlift|]. case_bool_decide; [by intros ?%returns_mlift|]. by intros ->%returns_mret.
Qed.


(** The token provider of a policy, with the key its token is stored under. *)
Inductive providerOf (bsp : BackendSecurityPolicy) : string → TokenProvider W → Prop :=
| po_azure creds oidc q :
    bp_Type bsp = BackendSecurityPolicyTypeAzureCredentials → bp_AzureCredentials bsp = Some creds → zc_OIDCExchangeToken creds = Some oidc →
    returns (oidcProviderOf bsp oidc) q →
    providerOf bsp AzureAccessTokenKey (azure_GetToken (zc_TenantID creds) (zc_ClientID creds) q [azureScopeURL])
| po_azureSecret creds ref secret :
    bp_Type bsp = BackendSecurityPolicyTypeAzureCredentials → bp_AzureCredentials bsp = Some creds → zc_ClientSecretRef creds = Some ref →
    returns (referredValue bsp ref clientSecretKey "azure client secret key") secret →
    providerOf bsp AzureAccessTokenKey (azureClientSecret_GetToken (zc_TenantID creds) (zc_ClientID creds) secret [azureScopeURL])
| po_gcp creds ref json :
    bp_Type bsp = BackendSecurityPolicyTypeGCPCredentials → bp_GCPCredentials bsp = Some creds → pc_CredentialsFile creds = Some (Some ref) →
    returns (referredValue bsp ref GCPServiceAccountJSON "gcp service account key") json →
    providerOf bsp GCPAccessTokenKey (gcp_GetToken json)
| po_openAI creds q proxy :
    bp_Type bsp = BackendSecurityPolicyTypeOpenAICredentials → bp_OpenAICredentials bsp = Some creds →
    returns (subjectTokensOf bsp (ow_SubjectToken (oc_WorkloadIdentityFederationConfig creds))) q →
    providerOf bsp OpenAIAccessTokenKey (openAI_GetToken (openAIConfigOf (oc_WorkloadIdentityFederationConfig creds)) q proxy).

Context (window : Z).

(** The rotators of a policy. *)
Inductive rotatorFor (bsp : BackendSecurityPolicy) : Rotator W → Prop :=
| rf_aws creds x r :
    bp_Type bsp = BackendSecurityPolicyTypeAWSCredentials → bp_AWSCredentials bsp = Some creds → wc_OIDCExchangeToken creds = Some x →
    NewAWSOIDCRotator (W := W) (bp_Namespace bsp) (bp_Name bsp) window (wx_OIDC x) (wx_AwsRoleArn x) (wc_Region creds) validateSecretReference = Ok r →
    rotatorFor bsp (awsRotator r)
| rf_token key provider :
    providerOf bsp key provider → rotatorFor bsp (tokenRotator key window (bp_Namespace bsp) (bp_Name bsp) provider)
| rf_gcp creds wif q r :
    bp_Type bsp = BackendSecurityPolicyTypeGCPCredentials → bp_GCPCredentials bsp = Some creds → pc_WorkloadIdentityFederationConfig creds = Some wif →
    returns (oidcProviderOf bsp (gw_OIDCExchangeToken wif)) q → NewGCPOIDCTokenRotator bsp window q = Ok r →
    rotatorFor bsp (gcpOIDCRotator r).

Lemma deref_ok {A} (o : option A) a : deref o = Ok a → o = Some a.
Proof. destruct o; [by intros [= ->]|done]. Qed.

Ltac returned :=
  repeat match goal with
  | H : returns (mseq _ _) _ |- _ => apply returns_mseq in H as (? & ? & H)
  | H : returns (mwrap _ _) _ |- _ => apply returns_mwrap in H
  | H : returns (mret _) _ |- _ => apply returns_mret in H
  | H : returns (mlift _) _ |- _ => apply returns_mlift in H
  | H : deref _ = Ok _ |- _ => apply deref_ok in H
  | H : Some _ = Some _ |- _ => injection H as H
  end.

Lemma awsRotatorOf_for bsp r :
  bp_Type bsp = BackendSecurityPolicyTypeAWSCredentials → returns (awsRotatorOf window bsp) (Some r) → rotatorFor bsp r.
Proof.
  intros Ht. unfold awsRotatorOf, getBackendSecurityPolicyAuthOIDC. of_type Ht.
  destruct (bp_AWSCredentials bsp) as [c|] eqn:Ec; cbn; [|by intros H%returns_mret].
  destruct (wc_OIDCExchangeToken c) as [x|] eqn:Ex; cbn; [|by intros H%returns_mret]. intros H. returned. simplify_eq.
  by eapply rf_aws.
Qed.

Lemma azureRotatorOf_for bsp r :
  bp_Type bsp = BackendSecurityPolicyTypeAzureCredentials → returns (azureRotatorOf window bsp) (Some r) → rotatorFor bsp r.
Proof.
  intros Ht. unfold azureRotatorOf, getBackendSecurityPolicyAuthOIDC. of_type Ht. intros H. returned. subst r. apply rf_token.
  rewrite H0 in H1. cbn in H1. destruct (zc_OIDCExchangeToken x) as [oidc|] eqn:Eo.
  - returned. unfold NewAzureTokenProvider in H1. returned. subst. by eapply po_azure.
  - destruct (zc_ClientSecretRef x) as [ref|] eqn:Er; [|by returned]. returned. unfold NewAzureClientSecretTokenProvider in H1. returned. subst.
    by eapply po_azureSecret.
Qed.

Lemma gcpRotatorOf_for bsp r :
  bp_Type bsp = BackendSecurityPolicyTypeGCPCredentials → returns (gcpRotatorOf window bsp) (Some r) → rotatorFor bsp r.
Proof.
  intros Ht. unfold gcpRotatorOf, getBackendSecurityPolicyAuthOIDC. of_type Ht. intros H. returned.
  rewrite H1 in H. cbn in H. destruct (pc_WorkloadIdentityFederationConfig x0) as [wif|] eqn:Eo; cbn in H.
  - returned. subst r. by eapply rf_gcp.
  - destruct (pc_CredentialsFile x0) as [ref|] eqn:Er; [|by returned]. returned. subst r ref. apply rf_token.
    unfold NewGCPTokenProvider in *. returned. subst. by eapply po_gcp.
Qed.

Lemma openAIRotatorOf_for bsp r :
  bp_Type bsp = BackendSecurityPolicyTypeOpenAICredentials → returns (openAIRotatorOf window bsp) (Some r) → rotatorFor bsp r.
Proof.
  intros Ht. unfold openAIRotatorOf, newOpenAITokenProvider. intros H. returned. subst r. apply rf_token. cbv zeta in *. returned.
  unfold NewOpenAIWorkloadIdentityTokenProvider in *. repeat (case_bool_decide; [by returned|]). returned. subst. by eapply po_openAI.
Qed.

Lemma rotatorOf_for bsp r : returns (rotatorOf window bsp) (Some r) → rotatorFor bsp r.
Proof.
  unfold rotatorOf. cbv zeta. repeat case_bool_decide; auto using awsRotatorOf_for, azureRotatorOf_for, gcpRotatorOf_for, openAIRotatorOf_for.
  intros Hr. by returned.
Qed.
End Returns.


(** ** What a run does to the world *)

Section Sync.
Context {W : Type} `{WO : !World W, GC : !GrantClient, WL : !WorldLaws W}.
Context (R : W → W → Prop) (P : string → string → Prop) (Q : KSecret → Prop) (AD : admits R P Q).

Lemma sync_within bsp : within R (syncBackendSecurityPolicy bsp).
Proof using AD WL.
  unfold syncBackendSecurityPolicy. induction (bp_TargetRefs bsp) as [|ref refs IH]; cbn; within; [|done].
  unfold syncTarget. within; eapply within_effect; [exact AD| |exact AD|]; intros w; [apply send_BackendEvent_silent|apply send_PoolEvent_silent].
Qed.

Lemma syncAndCheck_within bsp requeue : within R (syncAndCheck bsp requeue).
Proof using AD WL. unfold syncAndCheck. within; apply sync_within. Qed.

Lemma finalizer_within bsp w :
  R w (handleFinalizer (bp_Deleted bsp) (bp_HasFinalizer bsp) (λ w, (syncBackendSecurityPolicy bsp w).1)
         (λ on w, update_PolicyFinalizer bsp on w) w).1.
Proof using AD WL.
  assert (∀ on w, R w (update_PolicyFinalizer bsp on w)) as Hu by (intros; apply (ad_silent R _ _ AD), update_PolicyFinalizer_silent).
  unfold handleFinalizer. destruct (bp_Deleted bsp), (bp_HasFinalizer bsp); cbn; [|by apply (ad_refl R _ _ AD) ..|by apply Hu].
  eapply (ad_trans R _ _ AD); [|apply Hu]. destruct (syncBackendSecurityPolicy bsp w) as [w1 o] eqn:E. by eapply sync_within.
Qed.
End Sync.

(** The Secret of a policy's own credential. *)
Definition generated (ns name : string) (s : KSecret) : Prop := keyOf s = (ns, GetBSPSecretName name).

Section Runs.
Context {W : Type} `{WO : !World W, CO : !Clouds W, RF : !Rfc3339, GC : !GrantClient, OW : !Owners}.
Context `{WL : !WorldLaws W, CLW : !CloudsLaws W}.
Context `{OL : !OwnersLaws OW}.
Context (window : Z) (R : W → W → Prop) (ns name : string) (AD : admits R (readable ns) (generated ns name)).

Lemma within_lift_ok {A B} (o : outcome A) (k : A → M W B) : (∀ a, o = Ok a → within R (k a)) → within R (mseq (mlift o) k).
Proof using AD.
  intros Hk w w' r. unfold mseq, mlift. destruct o as [a|e|p]; intros H; [by eapply Hk|..]; injection H as <- <-; apply (ad_refl R _ _ AD).
Qed.

Lemma Lookup_within secretNs secretName : readable ns secretNs secretName → within R (LookupSecret secretNs secretName).
Proof using AD.
  intros Hr w w' o. unfold LookupSecret. destruct (get_Secret secretNs secretName w) as [w1 [s|e|p]] eqn:E; intros [= <- <-];
    by eapply (ad_get R _ _ AD).
Qed.

Lemma provider_within oidc owner v : within R (NewOidcTokenProvider oidc owner v).
Proof using AD CLW. unfold NewOidcTokenProvider. within. Qed.

Lemma oidc_GetToken_within p :
  tp_ownerNamespace p = ns → tp_validateSecretRef p = Some validateSecretReference → within R (oidc_GetToken p).
Proof using AD CLW WL.
  intros Hns Hv. unfold oidc_GetToken. cbv zeta. destruct (so_Namespace _) as [sns|]; [|within]. apply within_lift_ok. intros [] Ha.
  unfold GetClientSecret. within. unfold authorizeClientSecret in Ha. rewrite Hv, Hns in Ha. case_bool_decide as Hs; [|done].
  subst sns. apply readable_own.
Qed.

Lemma Lookup_returns secretNs secretName s : returns (LookupSecret secretNs secretName) s → keyOf s = (secretNs, secretName).
Proof using WL.
  intros (w & w' & H). unfold LookupSecret in H. destruct (get_Secret _ _ w) as [w1 [x|e|p]] eqn:E; [|done..]. injection H as <- <-.
  by apply get_Secret_spec in E as (_ & _ & _ & _ & ?).
Qed.

Lemma store_within populate : (∀ s, keyOf (populate s) = keyOf s) → within R (storeCredential ns (GetBSPSecretName name) populate).
Proof using AD WL.
  intros Hk. unfold storeCredential. eapply within_mtry_run; [exact AD|apply Lookup_within, readable_own|..].
  - intros s Hs%Lookup_returns. eapply ad_update; [exact AD|]. unfold generated. by rewrite Hk.
  - intros e. within. unfold generated. by rewrite Hk.
Qed.

Lemma tokenRotator_within key (provider : TokenProvider W) :
  within R provider → within R (rt_GetPreRotationTime (tokenRotator key window ns name provider)) ∧
  within R (rt_Rotate (tokenRotator key window ns name provider)).
Proof using AD WL.
  intros Hp. cbn. unfold GetPreRotationTime, tokenRotate. split; within; [apply Lookup_within, readable_own|apply Hp|by apply store_within].
Qed.

Lemma awsRotator_within r :
  ao_namespace r = ns → ao_name r = name → ao_validateSecretRef r = validateSecretReference →
  within R (rt_GetPreRotationTime (awsRotator r)) ∧ within R (rt_Rotate (awsRotator r)).
Proof using AD CLW WL.
  intros Hns Hn Hv. cbn. unfold aws_GetPreRotationTime, aws_Rotate, assumeRoleWithToken. rewrite Hns, Hn, Hv.
  split; [within; apply Lookup_within, readable_own|]. eapply within_run; [exact AD|apply provider_within|].
  intros p [Ho Hs]%provider_returns. within; [by apply oidc_GetToken_within|by apply store_within].
Qed.

Lemma gcpOIDCRotator_within r :
  go_namespace r = ns → go_name r = name → within R (go_oidcProvider r) →
  within R (rt_GetPreRotationTime (gcpOIDCRotator r)) ∧ within R (rt_Rotate (gcpOIDCRotator r)).
Proof using AD CLW WL.
  intros Hns Hn Hp. cbn. unfold gcpOIDC_GetPreRotationTime, gcpOIDC_Rotate, gcpAccessToken, exchangeJWTForSTSToken, impersonateServiceAccount.
  rewrite Hns, Hn. split; within; [apply Lookup_within, readable_own|apply Hp|by apply store_within].
Qed.

Lemma oidcProviderOf_within bsp oidc : within R (oidcProviderOf bsp oidc).
Proof using AD CLW. unfold oidcProviderOf. within. apply provider_within. Qed.

Lemma oidcProviderOf_returns bsp oidc p : bp_Namespace bsp = ns → returns (oidcProviderOf bsp oidc) p → within R p.
Proof using AD CLW WL.
  intros Hns (q & [Ho Hv]%provider_returns & ->%returns_mret)%returns_mseq. apply oidc_GetToken_within; [by rewrite Ho|done].
Qed.

Lemma referredValue_within bsp ref key what : bp_Namespace bsp = ns → within R (referredValue bsp ref key what).
Proof using AD.
  intros Hns. unfold referredValue. cbv zeta. apply within_lift_ok. intros [] Hv. within. apply Lookup_within. unfold readable. by rewrite <-Hns.
Qed.

Definition rotatorWithin (r : Rotator W) : Prop :=
  within R (rt_GetPreRotationTime r) ∧ within R (rt_Rotate r) ∧ ∀ t, within R (rt_IsExpired r t).

Lemma IsExpired_within buffer t : within R (IsBufferedTimeExpired buffer t).
Proof using AD WL. unfold IsBufferedTimeExpired. within. Qed.

Lemma rotatorWithin_intro r :
  within R (rt_GetPreRotationTime r) ∧ within R (rt_Rotate r) → rt_IsExpired r = IsBufferedTimeExpired 0 → rotatorWithin r.
Proof using AD WL. intros [Hp Hr] He. split_and!; [done..|]. rewrite He. intros t. apply IsExpired_within. Qed.

Lemma subject_within bsp subject q : bp_Namespace bsp = ns → returns (subjectTokensOf bsp subject) q → within R q.
Proof using AD CLW WL.
  intros Hns. unfold subjectTokensOf, NewSPIFFETokenProvider. destruct (sj_SPIFFEJWTSVID subject) as [svid|].
  - intros H%returns_mwrap. case_bool_decide; [by apply returns_mlift in H|]. apply returns_mret in H as ->. unfold spiffe_GetToken. within.
  - destruct (sj_OIDCExchangeToken subject) as [oidc|]; [|by intros H%returns_mlift]. intros H%returns_mwrap. by eapply oidcProviderOf_returns.
Qed.

Lemma providerOf_within bsp key q : bp_Namespace bsp = ns → providerOf bsp key q → within R q.
Proof using AD CLW WL.
  intros Hns [creds oidc p _ _ _ Hp|creds ref secret _ _ _ _|creds ref json _ _ _ _|creds p proxy _ _ Hp].
  - unfold azure_GetToken. within. eapply azure_AssertionToken_within; [exact AD|]. within. by eapply oidcProviderOf_returns.
  - unfold azureClientSecret_GetToken. within.
  - unfold gcp_GetToken. within.
  - unfold openAI_GetToken. within. by eapply subject_within.
Qed.

Lemma rotatorFor_within bsp r : bp_Namespace bsp = ns → bp_Name bsp = name → rotatorFor window bsp r → rotatorWithin r.
Proof using AD CLW WL.
  intros Hns Hn [creds x r' _ _ _ Hr|key q Hq|creds wif q r' _ _ _ Hq Hr]; (apply rotatorWithin_intro; [|done]).
  - unfold NewAWSOIDCRotator in Hr. outcome_inv. subst r'. by apply awsRotator_within.
  - rewrite Hns, Hn. apply tokenRotator_within. by eapply providerOf_within.
  - unfold NewGCPOIDCTokenRotator in Hr. outcome_inv. destruct (bp_GCPCredentials bsp); [|done].
    outcome_inv. subst r'. apply gcpOIDCRotator_within; [done..|]. by eapply oidcProviderOf_returns.
Qed.

Lemma rotatorOf_within bsp : bp_Namespace bsp = ns → within R (rotatorOf window bsp).
Proof using AD CLW.
  intros Hns. unfold rotatorOf, awsRotatorOf, azureRotatorOf, gcpRotatorOf, openAIRotatorOf, newOpenAITokenProvider, NewAzureTokenProvider,
    NewAzureClientSecretTokenProvider, NewGCPTokenProvider, NewOpenAIWorkloadIdentityTokenProvider, subjectTokensOf, NewSPIFFETokenProvider.
  within; first [by apply referredValue_within|apply oidcProviderOf_within].
Qed.

Lemma executeRotation_within r : rotatorWithin r → within R (executeRotation window r).
Proof using AD WL. intros (Hp & Hr & He). unfold executeRotation, rotateIfExpired. within; auto. Qed.

Lemma ownSecret_within bsp : bp_Namespace bsp = ns → within R (ownSecret bsp (GetBSPSecretName name)).
Proof using AD WL OL.
  intros Hns. unfold ownSecret. rewrite Hns. eapply within_run; [exact AD|apply within_mwrap, Lookup_within, readable_own|].
  intros s Hs%returns_mwrap%Lookup_returns. within. unfold generated.
  match goal with H : SetControllerReference _ _ = Ok _ |- _ => apply SetControllerReference_keeps in H as [Hk _] end. by rewrite Hk.
Qed.

Lemma generatedName_of bsp n : getBSPGeneratedSecretName bsp = Ok n → n = "" ∨ n = GetBSPSecretName (bp_Name bsp).
Proof.
  unfold getBSPGeneratedSecretName. cbv zeta. repeat case_bool_decide; intros Hn; outcome_inv; subst; try done; try (case_bool_decide; auto); auto.
Qed.

Lemma rotateCredential_within bsp : bp_Namespace bsp = ns → bp_Name bsp = name → within R (rotateCredential window bsp).
Proof using AD CLW WL OL.
  intros Hns Hn. unfold rotateCredential. eapply within_settle. eapply within_run; [exact AD|by apply rotatorOf_within|].
  intros [r|] Hr; [|within]. eapply within_mseq; [exact AD|eapply executeRotation_within, rotatorFor_within; [done..|]; by apply rotatorOf_for|].
  intros res. destruct res.2; [within|]. apply within_lift_ok. intros secretName Hs%generatedName_of. rewrite Hn in Hs. case_bool_decide; [within|].
  destruct Hs as [-> | ->]; [done|]. within. by apply ownSecret_within.
Qed.

Lemma reconcile_within bsp : bp_Namespace bsp = ns → bp_Name bsp = name → within R (reconcile window bsp).
Proof using AD CLW WL OL.
  intros Hns Hn w w' o. unfold reconcile. pose proof (finalizer_within R _ _ AD bsp w) as Hf. destruct (handleFinalizer _ _ _ _ w) as [w1 deleted].
  cbn in Hf. destruct deleted; [by intros [= <- <-]|]. intros H. eapply (ad_trans R _ _ AD); [exact Hf|]. revert H.
  match goal with |- ?m w1 = _ → _ => enough (within R m) as Hm by apply Hm end.
  within; [by apply rotateCredential_within|by eapply syncAndCheck_within].
Qed.

Lemma Reconcile_within : within R (Reconcile window ns name).
Proof using AD CLW WL OL.
  intros w w' o. unfold Reconcile, mtry. destruct (get_Policy ns name w) as [w1 r] eqn:E. destruct (get_Policy_spec _ _ _ _ _ E) as [Hs Hp].
  apply (ad_silent R _ _ AD) in Hs. destruct r as [bsp|e|p]; [|intros [= <- <-]; done..]. destruct (Hp bsp eq_refl) as [Hns Hn].
  destruct (reconcile window bsp w1) as [w2 r] eqn:Er. apply (reconcile_within bsp Hns Hn) in Er.
  assert (R w w2) as Hr by (eapply (ad_trans R _ _ AD); done). destruct r as [res|e|p]; intros [= <- <-]; [|done..].
  eapply (ad_trans R _ _ AD); [exact Hr|]. destruct res.2; apply (ad_silent R _ _ AD), update_PolicyStatus_silent.
Qed.
End Runs.

Section Reads.
Context {W : Type} `{WO : !World W, CO : !Clouds W, RF : !Rfc3339, GC : !GrantClient, OW : !Owners}.
Context `{WL : !WorldLaws W, CLW : !CloudsLaws W, OL : !OwnersLaws OW}.
Context (grants : list ReferenceGrant) `{GL : !GrantClientLaws GC grants}.
Context (namespaces : Forall (λ g, Contains (rg_Namespace g) "." = false) grants).

(** The Secrets read are among those of [P], the Secrets written among those of [Q]. *)
Definition touchesOnly (P : string → string → Prop) (Q : KSecret → Prop) (w w' : W) : Prop :=
  (∀ x, x ∈ w_reads w' → x ∈ w_reads w ∨ P x.1 x.2) ∧ (∀ x, w_secrets w' !! x ≠ w_secrets w !! x → ∃ s, keyOf s = x ∧ Q s).

Lemma touches_admits P Q : admits (touchesOnly P Q) P Q.
Proof using WL.
  split.
  - intros w. split; [by left|done].
  - intros w1 w2 w3 [H1 H1'] [H2 H2']. split; [intros x [Hx|Hx]%H2; [by apply H1|by right]|]. intros x Hx.
    destruct (decide (w_secrets w3 !! x = w_secrets w2 !! x)) as [E|]; [|by apply H2']. apply H1'. by rewrite <-E.
  - intros w w' (H & H' & _). split; [intros x; rewrite H'; by left|intros x; by rewrite H].
  - intros ns name HP w w' o H. apply get_Secret_spec in H as (Hs & Hr & _). split; [|intros x; by rewrite Hs]. intros x. rewrite Hr, elem_of_app,
      list_elem_of_singleton. intros [Hx|Hx]; [by left|]. subst x. by right.
  - intros s HQ w w' o H. apply create_Secret_spec in H as (Hr & _ & _ & Hs). split; [intros x; rewrite Hr; by left|]. intros x Hx.
    exists s. split; [|done]. destruct (decide (x = keyOf s)) as [->|Hne]; [done|]. by destruct (Hx (Hs x Hne)).
  - intros s HQ w w' o H. apply update_Secret_spec in H as (Hr & _ & _ & Hs). split; [intros x; rewrite Hr; by left|]. intros x Hx.
    exists s. split; [|done]. destruct (decide (x = keyOf s)) as [->|Hne]; [done|]. by destruct (Hx (Hs x Hne)).
Qed.

(** C13: A run of the reconciler of security policies, whatever the policy says and
    whether or not the run succeeds, reads only Secrets of the policy's own namespace or
    Secrets that a ReferenceGrant lets policies of this namespace refer to, and writes
    no Secret but the one of its own credential. *)
Theorem secrets_touched_permitted window ns name w w' o :
  Reconcile window ns name w = (w', o) →
  (∀ x, x ∈ w_reads w' → x ∉ w_reads w → Contains x.1 "." = false → permitted grants securityPolicyKind ns coreSecretKind x.1 x.2) ∧
  ∀ x, x ≠ (ns, GetBSPSecretName name) → w_secrets w' !! x = w_secrets w !! x.
Proof using WL CLW OL GL namespaces.
  intros H. apply (Reconcile_within window _ _ _ (touches_admits (readable ns) (generated ns name))) in H as [Hr Hs]. split.
  - intros x Hx Hn Hd. destruct (Hr x Hx) as [?|Hv]; [done|]. by apply (validate_permitted grants namespaces).
  - intros x Hx. destruct (decide (w_secrets w' !! x = w_secrets w !! x)) as [|Hne]; [done|]. destruct (Hs x Hne) as (s & Hk & Hg).
    destruct Hx. by rewrite <-Hk.
Qed.
End Reads.

(** ** Credentials do not lapse *)

Section Lapse.
Context {W : Type} `{WO : !World W, CO : !Clouds W, RF : !Rfc3339, GC : !GrantClient, OW : !Owners}.
Context `{WL : !WorldLaws W, CLW : !CloudsLaws W, OL : !OwnersLaws OW, RL : !Rfc3339Laws RF}.

(** A call that leaves the Secrets as they are. *)
Definition keeps (w w' : W) : Prop := w_secrets w' = w_secrets w ∧ (w_clock w ≤ w_clock w')%Z.

Lemma keeps_admits : admits keeps (λ _ _, True) (λ _, False).
Proof using WL.
  split; [by split| | |by intros ? ? ? ? ? ? (? & _ & ? & _)%get_Secret_spec|done..].
  - intros w1 w2 w3 [H1 ?] [H2 ?]. split; [by rewrite H2|lia].
  - intros w w' (? & _ & ?). by split.
Qed.

Lemma clock_admits P Q : admits (λ w w' : W, w_clock w ≤ w_clock w')%Z P Q.
Proof using WL.
  split; [done|by intros; lia|by intros w w' (_ & _ & ?)|by intros ? ? _ ? ? ? (_ & _ & ? & _)%get_Secret_spec| |].
  - by intros ? _ ? ? ? (_ & ? & _)%create_Secret_spec.
  - by intros ? _ ? ? ? (_ & ? & _)%update_Secret_spec.
Qed.

(** The expiry that is written on the Secret of a policy. *)
Definition annotated (ns name : string) (w : W) : option string :=
  s ← w_secrets w !! (ns, GetBSPSecretName name); ks_Annotations s !! ExpirationTimeAnnotationKey.

(** The expiry of the stored credential of a policy. *)
Definition expiryOf (ns name : string) (w : W) : option Z :=
  a ← annotated ns name w; match time_Parse a with Ok t => Some t | _ => None end.

(** What a rotator promises to the reconciler. *)
Record rotatorLaws (window : Z) (ns name : string) (r : Rotator W) : Prop := {
  rl_expired t w w' o : rt_IsExpired r t w = (w', o) →
    keeps w w' ∧ ∃ now, o = Ok (t <? now)%Z ∧ (w_clock w ≤ now ≤ w_clock w')%Z;
  rl_pre w w' o : rt_GetPreRotationTime r w = (w', o) →
    keeps w w' ∧ ∀ t, o = Ok t → t = zeroTime ∨ expiryOf ns name w = Some (t + window)%Z;
  rl_rotate w w' e : rt_Rotate r w = (w', Ok e) →
    annotated ns name w' = Some (time_Format e) ∧ (w_clock w ≤ w_clock w')%Z;
}.

Lemma IsExpired_spec t w w' o :
  IsBufferedTimeExpired 0 t w = (w', o) → keeps w w' ∧ ∃ now, o = Ok (t <? now)%Z ∧ (w_clock w ≤ now ≤ w_clock w')%Z.
Proof using WL.
  unfold IsBufferedTimeExpired, mseq. destruct (time_Now_spec w) as (w1 & now & -> & (Hs & _ & Hc) & Hn). intros [= <- <-]. split; [by split|].
  exists now. by rewrite Z.add_0_r.
Qed.

Lemma Lookup_spec ns n w w' o :
  LookupSecret ns n w = (w', o) → keeps w w' ∧ ∀ s, o = Ok s → w_secrets w !! (ns, n) = Some s ∧ keyOf s = (ns, n).
Proof using WL.
  unfold LookupSecret. destruct (get_Secret ns n w) as [w1 r] eqn:E. apply get_Secret_spec in E as (Hs & _ & Hc & Hr).
  destruct r as [s|e|p]; intros [= <- <-]; (split; [by split|]); intros ? [= <-]. done.
Qed.

Lemma preRotation_expiry window ns name w s t :
  in_int64 (- window) → w_secrets w !! (ns, GetBSPSecretName name) = Some s → preRotationTime window s = Ok t →
  expiryOf ns name w = Some (t + window)%Z.
Proof.
  intros Hw Hs H. unfold preRotationTime, GetExpirationSecretAnnotation in H. unfold expiryOf, annotated. rewrite Hs. cbn.
  destruct (ks_Annotations s !! _) as [a|]; cbn; [|done]. destruct (time_Parse a) as [x|e|p]; cbn in *; [|done..]. injection H as <-.
  rewrite int64_id by done. f_equal. lia.
Qed.

Lemma store_spec ns n populate w w' :
  (∀ s, keyOf (populate s) = keyOf s) → storeCredential ns n populate w = (w', Ok tt) → ∃ s, w_secrets w' !! (ns, n) = Some (populate s).
Proof using WL.
  intros Hk. unfold storeCredential, mtry. destruct (LookupSecret ns n w) as [w1 [s|e|p]] eqn:E; [| |done].
  - apply Lookup_spec in E as [_ Hs]. destruct (Hs s eq_refl) as [_ Hks]. intros H. apply update_Secret_spec in H as (_ & _ & H & _). exists s.
    rewrite <-Hks, <-(Hk s). by apply H.
  - destruct (errors_Is e KubeNotFound); [|done]. intros H. apply create_Secret_spec in H as (_ & _ & H & _). exists (emptySecret ns n).
    change (ns, n) with (keyOf (emptySecret ns n)). rewrite <-Hk. by apply H.
Qed.

Lemma mseq_ok_inv {A B} (m : M W A) (k : A → M W B) w w' b :
  mseq m k w = (w', Ok b) → ∃ w1 a, m w = (w1, Ok a) ∧ k a w1 = (w', Ok b).
Proof. unfold mseq. destruct (m w) as [w1 [a|e|p]]; [|done..]. intros H. by exists w1, a. Qed.

(** What a successful rotation stores: a Secret with the expiry that is returned. *)
Definition stores (ns name : string) (m : M W Z) : Prop := ∀ w w' e, m w = (w', Ok e) →
  ∃ populate s, w_secrets w' !! (ns, GetBSPSecretName name) = Some (populate (updateExpirationSecretAnnotation s e)) ∧
    ∀ s, ks_Annotations (populate s) = ks_Annotations s.

Lemma stores_annotated ns name m w w' e : stores ns name m → m w = (w', Ok e) → annotated ns name w' = Some (time_Format e).
Proof.
  intros Hs H. destruct (Hs _ _ _ H) as (populate & s & Hl & Hp). unfold annotated. rewrite Hl. cbn. rewrite Hp. cbn. by rewrite lookup_insert_eq.
Qed.

Lemma tokenRotate_stores key ns name provider : stores ns name (tokenRotate key ns name provider).
Proof using WL.
  intros w w' e (w1 & token & _ & (w2 & [] & Hs & [= <- <-])%mseq_ok_inv)%mseq_ok_inv.
  apply store_spec in Hs as [s Hs]; [|done]. exists (λ x, setData (<[key := te_Token token]> (ks_Data x)) x), s. done.
Qed.

Lemma awsRotate_stores r : stores (ao_namespace r) (ao_name r) (aws_Rotate r).
Proof using WL.
  intros w w' e (w1 & p & _ & (w2 & token & _ & (w3 & [identity|] & _ & H)%mseq_ok_inv)%mseq_ok_inv)%mseq_ok_inv; [|done].
  apply mseq_ok_inv in H as (w4 & x & _ & (w5 & [] & Hs & [= <- <-])%mseq_ok_inv). apply store_spec in Hs as [s Hs]; [|done].
  exists (λ s, updateAWSCredentialsInSecret s (credentialsOf identity (ao_region r))), s. done.
Qed.

Lemma gcpOIDCRotate_stores r : stores (go_namespace r) (go_name r) (gcpOIDC_Rotate r).
Proof using WL.
  intros w w' e (w1 & t & _ & (w2 & wif & _ & (w3 & sts & _ & (w4 & token & _ & (w5 & [] & Hs & [= <- <-])%mseq_ok_inv)%mseq_ok_inv)%mseq_ok_inv)%mseq_ok_inv)%mseq_ok_inv.
  apply store_spec in Hs as [s Hs]; [|done]. eexists (setData _), s. split; [exact Hs|done].
Qed.

Lemma GetPreRotationTime_spec window ns name w w' o :
  in_int64 (- window) → GetPreRotationTime window ns name w = (w', o) →
  keeps w w' ∧ ∀ t, o = Ok t → t = zeroTime ∨ expiryOf ns name w = Some (t + window)%Z.
Proof using WL.
  intros Hw. unfold GetPreRotationTime, mtry. destruct (LookupSecret _ _ w) as [w1 r] eqn:E. apply Lookup_spec in E as [Hk Hs].
  destruct r as [s|e|p]; [intros [= <- <-]|destruct (errors_Is e KubeNotFound); intros [= <- <-]|intros [= <- <-]]; (split; [done|]); intros t Ht.
  - right. eapply preRotation_expiry; [done|by apply Hs|done].
  - injection Ht as <-. by left.
  - done.
  - done.
Qed.

Lemma rotatorFor_laws window bsp r :
  in_int64 (- window) → rotatorFor window bsp r → rotatorLaws window (bp_Namespace bsp) (bp_Name bsp) r.
Proof using WL CLW.
  intros Hw Hr. destruct (rotatorFor_within window _ _ _ (clock_admits _ _) bsp r eq_refl eq_refl Hr) as (_ & Hc & _).
  destruct Hr as [creds x r' _ _ _ Hr|key q Hq|creds wif q r' _ _ _ Hq Hr].
  - unfold NewAWSOIDCRotator in Hr. outcome_inv. subst r'. split; [intros; by eapply IsExpired_spec| |intros w w' e Hrun; split; [|by eapply Hc]].
    + cbn. unfold aws_GetPreRotationTime, mseq, mlift. cbn. intros w w' o. destruct (LookupSecret _ _ w) as [w1 [s|e|p]] eqn:E;
        apply Lookup_spec in E as [Hk Hs]; intros [= <- <-]; (split; [done|]); intros t Ht; [|done..]. right.
      eapply preRotation_expiry; [done|by apply Hs|done].
    + pose proof (stores_annotated _ _ _ _ _ _ (awsRotate_stores _) Hrun) as Ha. exact Ha.
  - split; [intros; by eapply IsExpired_spec|intros; by eapply GetPreRotationTime_spec|intros w w' e Hrun; split; [|by eapply Hc]].
    eapply stores_annotated; [apply tokenRotate_stores|exact Hrun].
  - unfold NewGCPOIDCTokenRotator in Hr. outcome_inv. destruct (bp_GCPCredentials bsp) as [c|]; [|done]. outcome_inv. subst r'.
    split; [intros; by eapply IsExpired_spec| |intros w w' e Hrun; split; [|by eapply Hc]].
    + cbn. unfold gcpOIDC_GetPreRotationTime, mtry, mlift. cbn. intros w w' o. destruct (LookupSecret _ _ w) as [w1 [s|e|p]] eqn:E;
        apply Lookup_spec in E as [Hk Hs]; [|destruct (errors_Is e KubeNotFound)|]; intros [= <- <-]; (split; [done|]); intros t Ht; [| |done..].
      * right. eapply preRotation_expiry; [done|by apply Hs|]. unfold preRotationTime.
        destruct (GetExpirationSecretAnnotation s); [done|done|done].
      * injection Ht as <-. by left.
    + pose proof (stores_annotated _ _ _ _ _ _ (gcpOIDCRotate_stores _) Hrun) as Ha. exact Ha.
Qed.

Lemma Sub_le t u : (0 < Sub t u)%Z → (Sub t u ≤ t - u)%Z.
Proof. unfold Sub, min_int64, max_int64. lia. Qed.

Lemma Sub_exact t u : (0 < Sub t u < max_int64)%Z → Sub t u = (t - u)%Z.
Proof. unfold Sub, min_int64, max_int64. lia. Qed.

Lemma keeps_expiry ns name w w' : keeps w w' → expiryOf ns name w' = expiryOf ns name w.
Proof. intros [Hs _]. unfold expiryOf, annotated. by rewrite Hs. Qed.

Lemma annotated_expiry ns name w e :
  annotated ns name w = Some (time_Format e) → rfcRange e → ∃ t, expiryOf ns name w = Some t ∧ (t ≤ e < t + Second)%Z.
Proof using RL.
  intros Ha Hr. exists (e / Second * Second)%Z. unfold expiryOf. rewrite Ha. cbn. rewrite time_Parse_Format by done. split; [done|].
  unfold Second. pose proof (Z.mod_pos_bound e 1000000000) as Hm. pose proof (Z.div_mod e 1000000000) as Hd. lia.
Qed.

(** A bound on the clock under which expiries stay within the years RFC3339 writes. *)
Definition clockRange (w : W) : Prop := (w_clock w + 2 * 2 ^ 63 < 253402300800 * Second)%Z.

(** What a run that asks to be run again tells: the credential outlives the next run's
    due time by the window, up to the part of a second the annotation drops. *)
Definition renewed (window : Z) (ns name : string) (requeue : Z) (w w' : W) : Prop :=
  ∃ t now, expiryOf ns name w' = Some t ∧ (w_clock w ≤ now ≤ w_clock w')%Z ∧ (now + requeue + window < t + Second)%Z.

Lemma rotateIfExpired_spec window ns name r t err w w' requeue :
  in_int64 (- window) → rotatorLaws window ns name r → rotateIfExpired window r t err w = (w', Ok (requeue, None)) →
  t = zeroTime ∨ expiryOf ns name w = Some (t + window)%Z →
  (0 < requeue < max_int64)%Z → (0 < window)%Z → (0 ≤ w_clock w)%Z → clockRange w' → renewed window ns name requeue w w'.
Proof using WL RL.
  intros Hw HL H Ht Hq Hpos Hclock Hrange. apply mseq_ok_inv in H as (w1 & b & Ee & H).
  destruct (rl_expired _ _ _ _ HL _ _ _ _ Ee) as [Hk1 (now & [= ->] & Hn)].
  destruct (t <? now)%Z eqn:Et.
  - unfold mtry in H. destruct (rt_Rotate r w1) as [w2 [e|e|p]] eqn:Er; [|done..]. destruct (rl_rotate _ _ _ _ HL _ _ _ Er) as [Ha Hc2].
    apply mseq_ok_inv in H as (w3 & now2 & En & H). destruct (time_Now_spec w2) as (w3' & n & En' & (Hs3 & _ & Hc3) & Hn3).
    rewrite En' in En. injection En as -> ->. destruct (0 <? Sub _ now2)%Z eqn:Ep; [|done]. injection H as <- <-.
    rewrite int64_id in * by done. apply Sub_exact in Hq as Eq. rewrite Eq in *. assert (annotated ns name w3 = Some (time_Format e)) as Ha3.
    { unfold annotated in *. by rewrite Hs3. }
    unfold clockRange, in_int64, max_int64, rfcRange, keeps in *. destruct (annotated_expiry _ _ _ _ Ha3) as (x & Hx & Hb); [unfold rfcRange; lia|].
    exists x, now2. split; [done|]. lia.
  - apply mseq_ok_inv in H as (w3 & now2 & En & H). destruct (time_Now_spec w1) as (w3' & n & En' & Hs & Hn3). rewrite En' in En. injection En as -> ->.
    injection H as <- <- Herr. destruct Ht as [->|Ht]; [unfold keeps, zeroTime, Second in *; lia|]. exists (t + window)%Z, now2.
    rewrite (keeps_expiry _ _ w1 w3), (keeps_expiry _ _ w w1) by (done || (destruct Hs as (? & _ & ?); by split)). split; [done|].
    pose proof (Sub_le t now2) as Hle. unfold keeps, Second in *. lia.
Qed.

Lemma executeRotation_spec window ns name r w w' requeue :
  in_int64 (- window) → rotatorLaws window ns name r → executeRotation window r w = (w', Ok (requeue, None)) →
  (0 < requeue < max_int64)%Z → (0 < window)%Z → (0 ≤ w_clock w)%Z → clockRange w' → renewed window ns name requeue w w'.
Proof using WL RL.
  intros Hw HL H Hq Hpos Hclock Hrange. unfold executeRotation, mtry in H.
  destruct (rt_GetPreRotationTime r w) as [w1 o] eqn:Epre. destruct (rl_pre _ _ _ _ HL _ _ _ Epre) as [Hk Hpre].
  assert (renewed window ns name requeue w1 w' → renewed window ns name requeue w w') as Hgo.
  { intros (t & now & ? & ? & ?). exists t, now. unfold keeps in Hk. split_and!; [done|lia..]. }
  apply Hgo. destruct o as [t|e|p]; [| |done].
  - eapply rotateIfExpired_spec; try done; [|unfold keeps in Hk; lia]. rewrite (keeps_expiry _ _ _ _ Hk). by apply Hpre.
  - destruct (errors_Is e KubeNotFound); [|done]. eapply rotateIfExpired_spec; try done; [by left|unfold keeps in Hk; lia].
Qed.

Lemma renewed_mono window ns name requeue w0 w w' w'' :
  (w_clock w0 ≤ w_clock w)%Z → renewed window ns name requeue w w' → expiryOf ns name w'' = expiryOf ns name w' →
  (w_clock w' ≤ w_clock w'')%Z → renewed window ns name requeue w0 w''.
Proof. intros Hc (t & now & Ht & Hn & Hb) He Hc'. exists t, now. rewrite He. split_and!; [done|lia..]. Qed.

Lemma ownSecret_keeps bsp w w' :
  ownSecret bsp (GetBSPSecretName (bp_Name bsp)) w = (w', Ok tt) →
  expiryOf (bp_Namespace bsp) (bp_Name bsp) w' = expiryOf (bp_Namespace bsp) (bp_Name bsp) w ∧ (w_clock w ≤ w_clock w')%Z.
Proof using WL OL GC.
  intros H. split; [|by eapply (ownSecret_within _ _ _ (clock_admits _ _) bsp eq_refl)].
  unfold ownSecret in H. apply mseq_ok_inv in H as (w1 & s & Hl & H). unfold mwrap in Hl.
  destruct (LookupSecret _ _ w) as [w2 [x|e|p]] eqn:El; [|done..]. injection Hl as -> ->. apply Lookup_spec in El as [Hk Hs].
  destruct (Hs s eq_refl) as [Hw Hks]. rewrite <-(keeps_expiry _ _ _ _ Hk). destruct (HasOwnerReference _ _); [by injection H as <-|].
  destruct (SetControllerReference bsp s) as [u|e|p] eqn:Eu; [|done..]. apply SetControllerReference_keeps in Eu as (Hku & Hau & _).
  unfold mwrap in H. destruct (update_Secret u w1) as [w3 [[]|e|p]] eqn:E3; [|done..]. injection H as <-.
  apply update_Secret_spec in E3 as (_ & _ & H3 & _). specialize (H3 eq_refl). rewrite Hku, Hks in H3. unfold expiryOf, annotated. rewrite H3.
  destruct Hk as [-> _]. rewrite Hw. cbn. by rewrite Hau.
Qed.

Lemma rotateCredential_spec window bsp w w' requeue :
  in_int64 (- window) → rotateCredential window bsp w = (w', Ok (requeue, None)) →
  (0 < requeue < max_int64)%Z → (0 < window)%Z → (0 ≤ w_clock w)%Z → clockRange w' →
  renewed window (bp_Namespace bsp) (bp_Name bsp) requeue w w'.
Proof using WL CLW OL RL.
  intros Hw H Hq Hpos Hclock Hrange. unfold rotateCredential, settle in H.
  destruct (mseq _ _ w) as [wx [res|e|p]] eqn:E in H; [|done..]. injection H as -> ->.
  apply mseq_ok_inv in E as (w1 & [r|] & Er & E); [|injection E as _ <-; lia].
  assert (w_clock w ≤ w_clock w1)%Z as Hc1 by (by eapply (rotatorOf_within window _ _ (bp_Name bsp) (clock_admits _ _) bsp eq_refl)).
  assert (rotatorLaws window (bp_Namespace bsp) (bp_Name bsp) r) as HL by (apply rotatorFor_laws; [done|]; apply rotatorOf_for; by exists w, w1).
  apply mseq_ok_inv in E as (w2 & res & Ex & E). destruct res as [q err]. cbn [fst snd] in E. destruct err as [e|]; [done|].
  apply mseq_ok_inv in E as (w3 & n & En & E). injection En as <- En. apply generatedName_of in En.
  assert (∃ u, w' = u ∧ q = requeue ∧ expiryOf (bp_Namespace bsp) (bp_Name bsp) u = expiryOf (bp_Namespace bsp) (bp_Name bsp) w2 ∧
    (w_clock w2 ≤ w_clock u)%Z) as (u & -> & -> & He & Hc).
  { case_bool_decide as Hn; [injection E as <- <-; eauto with lia|]. destruct En as [-> | ->]; [done|]. unfold mtry in E.
    destruct (ownSecret _ _ w2) as [w4 [[]|e|p]] eqn:Eo; [|done..]. injection E as <- <-. apply ownSecret_keeps in Eo as [? ?]. eauto. }
  eapply renewed_mono; [exact Hc1| |exact He|exact Hc]. eapply executeRotation_spec; try done; [lia|]. unfold clockRange in *. lia.
Qed.

(** A run of the reconciler that succeeds and asks to be run again. *)
Lemma Reconcile_renews window ns name w w' requeue :
  in_int64 (- window) → Reconcile window ns name w = (w', Ok (requeue, None)) →
  (0 < requeue < max_int64)%Z → (0 < window)%Z → (0 ≤ w_clock w)%Z → clockRange w' → renewed window ns name requeue w w'.
Proof using WL CLW OL RL.
  intros Hw H Hq Hpos Hclock Hrange. unfold Reconcile, mtry in H. destruct (get_Policy ns name w) as [w1 o] eqn:Ep.
  destruct (get_Policy_spec _ _ _ _ _ Ep) as [(_ & _ & Hc1) Hp]. destruct o as [bsp|e|p]; [|by destruct (errors_Is e KubeNotFound); injection H as _ <-; lia|done].
  destruct (Hp bsp eq_refl) as [<- <-]. destruct (reconcile window bsp w1) as [w2 [res|e|p]] eqn:Er; [|done..]. injection H as <- ->. cbn [snd] in *.
  set (w3 := update_PolicyStatus _ _ _ w2) in *. assert (silent w2 w3) as (Hs3 & _ & Hc3) by apply update_PolicyStatus_silent.
  unfold reconcile in Er. pose proof (finalizer_within _ _ _ (clock_admits (λ _ _, True) (λ _, True)) bsp w1) as Hf.
  destruct (handleFinalizer _ _ _ _ w1) as [w1' deleted]. cbn in Hf. destruct deleted; [injection Er as _ <-; lia|].
  apply mseq_ok_inv in Er as (w2' & [q err] & Er & E). cbn [fst snd] in E. destruct err as [e|]; [done|].
  assert (keeps w2' w2 ∧ q = requeue) as [[Hs2 Hc2] ->].
  { split; [by eapply (syncAndCheck_within _ _ _ keeps_admits)|]. unfold syncAndCheck in E. unfold mtry in E.
    destruct (validateStaticCredentialSecretRef bsp) as [[]|e|p]; [|destruct (syncBackendSecurityPolicy _ _) as [? [?|?|?]]; done|done].
    destruct (syncBackendSecurityPolicy _ _) as [? [?|?|?]]; [by injection E|done..]. }
  destruct (requiresRotation bsp); [|injection Er as _ <-; lia]. eapply renewed_mono; [| |by apply (keeps_expiry _ _ w2' w3); split; [rewrite Hs3|]; [done|lia]|lia].
  2: { eapply rotateCredential_spec; try done; [lia|]. unfold clockRange in *. lia. }
  lia.
Qed.

(** One run: the worlds it starts and ends in and when it asks to be run again. *)
Record run := { rn_start : W; rn_end : W; rn_requeue : Z }.

(** A run that succeeds within a duration and is to be repeated. *)
Definition goodRun (window duration : Z) (ns name : string) (r : run) : Prop :=
  Reconcile window ns name (rn_start r) = (rn_end r, Ok (rn_requeue r, None)) ∧ (0 < rn_requeue r < max_int64)%Z ∧
  (0 ≤ w_clock (rn_start r))%Z ∧ (w_clock (rn_end r) ≤ w_clock (rn_start r) + duration)%Z ∧ clockRange (rn_end r).

(** The next run starts at most a delay after it is due, and finds the Secret the run
    before it left. *)
Definition follows (delay : Z) (ns name : string) (r r' : run) : Prop :=
  (w_clock (rn_start r') ≤ w_clock (rn_end r) + rn_requeue r + delay)%Z ∧
  w_secrets (rn_start r') !! (ns, GetBSPSecretName name) = w_secrets (rn_end r) !! (ns, GetBSPSecretName name).

Definition schedule (window duration delay : Z) (ns name : string) (rs : list run) : Prop :=
  Forall (goodRun window duration ns name) rs ∧
  ∀ i r r', rs !! i = Some r → rs !! S i = Some r' → follows delay ns name r r'.

(** C11: The credential of a policy does not lapse: when the runs of the reconciler
    succeed, take at most [duration] and start at most [delay] after they are due, and
    the window is longer than two durations, the delay and a second, then the credential
    a run leaves is still valid when the next run has ended, and so at every time until
    it was replaced. *)
Theorem credential_never_lapses window duration delay ns name rs i r r' :
  (0 < window < 2 ^ 63)%Z → (2 * duration + delay + Second ≤ window)%Z → schedule window duration delay ns name rs →
  rs !! i = Some r → rs !! S i = Some r' →
  ∃ t, expiryOf ns name (rn_end r) = Some t ∧ expiryOf ns name (rn_start r') = Some t ∧ (w_clock (rn_end r') < t)%Z.
Proof using WL CLW OL RL.
  intros Hw Hlong [Hgood Hnext] Hr Hr'. destruct (Hnext _ _ _ Hr Hr') as [Hdue Hsame]. rewrite Forall_lookup in Hgood.
  destruct (Hgood _ _ Hr) as (H & Hq & Hc & Hd & Hrange). destruct (Hgood _ _ Hr') as (_ & _ & _ & Hd' & _).
  destruct (Reconcile_renews window _ _ _ _ _ ltac:(unfold in_int64; lia) H Hq ltac:(lia) Hc Hrange) as (t & now & Ht & Hn & Hb).
  exists t. split; [done|]. split; [|lia]. unfold expiryOf, annotated in *. by rewrite Hsame.
Qed.
End Lapse.

(** ** What is published is what was issued *)

Section Published.
Context {W : Type} `{WO : !World W, CO : !Clouds W, RF : !Rfc3339, GC : !GrantClient, CL : !GatewayClient}.
Context `{WL : !WorldLaws W}.

Definition awsBackendAuth (literal region : string) : BackendAuth :=
  {| ba_APIKey := None; ba_AWSAuth := Some {| aws_CredentialFileLiteral := literal; aws_Region := region |}; ba_AzureAPIKey := None;
     ba_AnthropicAPIKey := None; ba_AzureAuth := None; ba_GCPAuth := None; ba_OpenAIAuth := None; ba_CredentialOverride := None |}.
Definition azureBackendAuth (token : string) : BackendAuth :=
  {| ba_APIKey := None; ba_AWSAuth := None; ba_AzureAPIKey := None; ba_AnthropicAPIKey := None;
     ba_AzureAuth := Some {| az_AccessToken := token |}; ba_GCPAuth := None; ba_OpenAIAuth := None; ba_CredentialOverride := None |}.
Definition gcpBackendAuth (creds : GCPCredentials) (token : string) : BackendAuth :=
  {| ba_APIKey := None; ba_AWSAuth := None; ba_AzureAPIKey := None; ba_AnthropicAPIKey := None; ba_AzureAuth := None;
     ba_GCPAuth := Some {| gcp_AccessToken := token; gcp_Region := pc_Region creds; gcp_ProjectName := pc_ProjectName creds |};
     ba_OpenAIAuth := None; ba_CredentialOverride := None |}.
Definition openAIBackendAuth (creds : OpenAICredentials) (token : string) : BackendAuth :=
  {| ba_APIKey := None; ba_AWSAuth := None; ba_AzureAPIKey := None; ba_AnthropicAPIKey := None; ba_AzureAuth := None; ba_GCPAuth := None;
     ba_OpenAIAuth := Some {| oa_AccessToken := token; oa_Organization := oc_Organization creds; oa_Project := oc_Project creds |};
     ba_CredentialOverride := None |}.

(** A credential a cloud issued for the identity of a policy, with its expiry. *)
Inductive issuedTo (bsp : BackendSecurityPolicy) : BackendAuth → Z → Prop :=
| it_aws creds x config token identity e :
    bp_AWSCredentials bsp = Some creds → wc_OIDCExchangeToken creds = Some x → ac_Region config = wc_Region creds →
    returns (sts_AssumeRoleWithWebIdentity config
      {| ai_RoleArn := wx_AwsRoleArn x; ai_WebIdentityToken := token; ai_RoleSessionName := "ai-gateway-" +:+ bp_Name bsp |}) (Some identity) →
    wi_Expiration identity = Some e →
    issuedTo bsp (awsBackendAuth (formatAWSCredentialsFile (credentialsOf identity (wc_Region creds))) (wc_Region creds)) e
| it_azure creds callback token e :
    bp_AzureCredentials bsp = Some creds →
    returns (azure_AssertionToken azureProxy (zc_TenantID creds) (zc_ClientID creds) callback [azureScopeURL]) (token, e) →
    issuedTo bsp (azureBackendAuth token) e
| it_azureSecret creds ref secret token e :
    bp_AzureCredentials bsp = Some creds → zc_ClientSecretRef creds = Some ref →
    returns (referredValue bsp ref clientSecretKey "azure client secret key") secret →
    returns (azure_SecretToken azureProxy (zc_TenantID creds) (zc_ClientID creds) secret [azureScopeURL]) (token, e) →
    issuedTo bsp (azureBackendAuth token) e
| it_gcpFile creds ref json token e :
    bp_GCPCredentials bsp = Some creds → pc_CredentialsFile creds = Some (Some ref) →
    returns (referredValue bsp ref GCPServiceAccountJSON "gcp service account key") json →
    returns (google_Token json cloudPlatformScope) (token, e) →
    issuedTo bsp (gcpBackendAuth creds token) e
| it_gcpWorkload creds wif client jwt token expiresIn now :
    bp_GCPCredentials bsp = Some creds → pc_WorkloadIdentityFederationConfig creds = Some wif → gw_ServiceAccountImpersonation wif = None →
    returns (google_ExchangeToken client
      {| xr_GrantType := tokenExchangeGrantType; xr_Audience := stsAudience wif; xr_Scope := gcpIAMScope;
         xr_RequestedTokenType := tokenTypeAccessToken; xr_SubjectToken := jwt; xr_SubjectTokenType := jwtTokenType |}) (token, expiresIn) →
    returns time_Now now →
    issuedTo bsp (gcpBackendAuth creds token) (now + int64 (expiresIn * Second))
| it_gcpAccount creds wif account client token e :
    bp_GCPCredentials bsp = Some creds → pc_WorkloadIdentityFederationConfig creds = Some wif → gw_ServiceAccountImpersonation wif = Some account →
    returns (google_ImpersonatedToken client
      {| ic_TargetPrincipal := serviceAccountEmail account (pc_ProjectName creds); ic_Scopes := [cloudPlatformScope] |}) (token, e) →
    issuedTo bsp (gcpBackendAuth creds token) e
| it_openAI creds client subject reqBody resp body token :
    bp_OpenAICredentials bsp = Some creds →
    json_MarshalExchange {| or_GrantType := tokenExchangeGrantType; or_SubjectToken := subject; or_SubjectTokenType := jwtTokenType;
      or_IdentityProviderID := ow_IdentityProviderID (oc_WorkloadIdentityFederationConfig creds);
      or_ServiceAccountID := ow_ServiceAccountID (oc_WorkloadIdentityFederationConfig creds) |} = Ok reqBody →
    returns (http_Post client OpenAITokenExchangeURL reqBody) resp → hp_StatusCode resp = 200%Z → hp_ReadAll resp (2 ^ 20) = Ok body →
    exchangedToken body = Ok token →
    issuedTo bsp (openAIBackendAuth creds (te_Token token)) (te_ExpiresAt token).

(** The client of the Gateway reconciler sees the Secrets of a world. *)
Definition reflects (w : W) : Prop := ∀ ns n s, w_secrets w !! (ns, n) = Some s →
  get_SecretIn ns n = Ok {| sec_Name := n; sec_Data := ks_Data s; sec_StringData := ∅ |}.

Lemma rotatedSecret_of w bsp s key v :
  reflects w → w_secrets w !! (bp_Namespace bsp, GetBSPSecretName (bp_Name bsp)) = Some s → ks_Data s !! key = Some v → rotatedSecret bsp key = Ok v.
Proof. intros Hr Hs Hv. unfold rotatedSecret, getSecretData. rewrite (Hr _ _ _ Hs). cbn. by rewrite Hv. Qed.

Lemma tokenRotate_data key ns name provider w w' e :
  tokenRotate key ns name provider w = (w', Ok e) →
  ∃ token s, returns provider token ∧ te_ExpiresAt token = e ∧ w_secrets w' !! (ns, GetBSPSecretName name) = Some s ∧
    ks_Data s !! key = Some (te_Token token).
Proof using WL.
  intros (w1 & token & Hp & (w2 & [] & Hs & [= <- <-])%mseq_ok_inv)%mseq_ok_inv. apply store_spec in Hs as [s Hs]; [|done].
  exists token. eexists. split; [by exists w, w1|]. split; [done|]. split; [exact Hs|]. cbn. by rewrite lookup_insert_eq.
Qed.

(** Takes apart what a call returned. *)
Ltac returned_by := repeat match goal with
  | H : returns (mseq _ _) _ |- _ => apply returns_mseq in H as (? & ? & H)
  | H : returns (mwrap _ _) _ |- _ => apply returns_mwrap in H
  | H : returns (mret _) _ |- _ => apply returns_mret in H
  | H : returns (mlift _) _ |- _ => apply returns_mlift in H
  | H : owrap _ _ = Ok _ |- _ => apply owrap_ok_inv in H
  end.

Lemma provided_issued bsp key provider token v :
  providerOf bsp key provider → returns provider token → rotatedSecret bsp key = Ok v → v = te_Token token →
  ∃ a, staticAuthOf bsp = Ok (a, true) ∧ issuedTo bsp a (te_ExpiresAt token).
Proof.
  intros [creds oidc p Ht Hc Ho Hp|creds ref secret Ht Hc Hr Hs|creds ref json Ht Hc Hr Hs|creds p proxy Ht Hc Hp] Htoken Hv ->;
    unfold staticAuthOf; cbv zeta; of_type Ht.
  - unfold azure_GetToken in Htoken. returned_by. subst token. rewrite Hv. cbn. eexists. split; [done|]. cbn. destruct x as [tok e].
    by eapply it_azure.
  - unfold azureClientSecret_GetToken in Htoken. returned_by. subst token. rewrite Hv. cbn. eexists. split; [done|]. destruct x as [tok e].
    by eapply it_azureSecret.
  - unfold gcp_GetToken in Htoken. returned_by. subst token. unfold gcpAuthOf. rewrite Hc. cbn. rewrite Hr. cbn. rewrite Hv. cbn. eexists. split; [done|]. destruct x as [tok e]. by eapply it_gcpFile.
  - unfold openAI_GetToken in Htoken. returned_by. rewrite Hv, Hc. cbn. eexists. split; [done|].
    case_bool_decide as Hst; [|by returned_by]. returned_by. by eapply it_openAI.
Qed.

Lemma aws_issued window bsp creds x r w w' e :
  bp_Type bsp = BackendSecurityPolicyTypeAWSCredentials → bp_AWSCredentials bsp = Some creds → wc_OIDCExchangeToken creds = Some x →
  wc_CredentialsFile creds = None →
  NewAWSOIDCRotator (W := W) (bp_Namespace bsp) (bp_Name bsp) window (wx_OIDC x) (wx_AwsRoleArn x) (wc_Region creds) validateSecretReference = Ok r →
  aws_Rotate r w = (w', Ok e) → reflects w' → ∃ a, staticAuthOf bsp = Ok (a, true) ∧ issuedTo bsp a e.
Proof using WL.
  intros Ht Hc Hx Hfile Hr Hrot Hrefl. unfold NewAWSOIDCRotator in Hr. outcome_inv. subst r. unfold aws_Rotate in Hrot. cbn in Hrot.
  apply mseq_ok_inv in Hrot as (w1 & p & _ & (w2 & token & _ & (w3 & [identity|] & Hi & Hrot)%mseq_ok_inv)%mseq_ok_inv); [|done].
  apply mseq_ok_inv in Hrot as (w4 & exp & He & (w5 & [] & Hs & [= <- <-])%mseq_ok_inv). injection He as <- He. apply deref_ok in He.
  apply store_spec in Hs as [s Hs]; [|done]. cbn in Hs. unfold staticAuthOf. cbv zeta. of_type Ht. unfold awsAuthOf. rewrite Hc. cbn.
  rewrite Hfile, Hx. cbn. erewrite rotatedSecret_of; [|exact Hrefl|exact Hs|cbn; by rewrite lookup_insert_eq]. cbn.
  eexists. split; [done|]. eapply it_aws; [exact Hc|exact Hx| |exists w2, w3; exact Hi|exact He]. done.
Qed.

(** The token of a federation is that of its service account, or its own. *)
Lemma gcpAccessToken_issued bsp creds wif r jwt sts token :
  bp_GCPCredentials bsp = Some creds → pc_WorkloadIdentityFederationConfig creds = Some wif → go_gcpCredentials r = creds →
  returns (exchangeJWTForSTSToken (go_transport r) jwt wif) sts → returns (gcpAccessToken r wif sts) token →
  issuedTo bsp (gcpBackendAuth creds (te_Token token)) (te_ExpiresAt token).
Proof.
  intros Hc Hw Hr Hsts Htok. unfold gcpAccessToken in Htok. destruct (gw_ServiceAccountImpersonation wif) as [account|] eqn:Ea.
  - unfold impersonateServiceAccount in Htok. rewrite Hr in Htok. returned_by. subst token. destruct x0 as [tok e]. by eapply it_gcpAccount.
  - unfold exchangeJWTForSTSToken in Hsts. returned_by. subst. destruct x0 as [tok secs]. by eapply it_gcpWorkload.
Qed.

Lemma gcp_issued window bsp creds wif q r w w' e :
  bp_Type bsp = BackendSecurityPolicyTypeGCPCredentials → bp_GCPCredentials bsp = Some creds → pc_WorkloadIdentityFederationConfig creds = Some wif →
  NewGCPOIDCTokenRotator bsp window q = Ok r → gcpOIDC_Rotate r w = (w', Ok e) → reflects w' →
  ∃ a, staticAuthOf bsp = Ok (a, true) ∧ issuedTo bsp a e.
Proof using WL.
  intros Ht Hc Hwif Hr Hrot Hrefl. unfold NewGCPOIDCTokenRotator in Hr. outcome_inv. rewrite Hc in *. outcome_inv. subst r.
  unfold gcpOIDC_Rotate in Hrot. cbn in Hrot. apply mseq_ok_inv in Hrot as (w1 & jwt & _ & Hrot). apply mseq_ok_inv in Hrot as (w2 & wif' & Hd & Hrot).
  injection Hd as <- Hd. apply deref_ok in Hd. rewrite Hwif in Hd. injection Hd as <-. apply mseq_ok_inv in Hrot as (w3 & sts & Hsts & Hrot).
  apply mseq_ok_inv in Hrot as (w4 & token & Htok & (w5 & [] & Hs & [= <- <-])%mseq_ok_inv). apply store_spec in Hs as [s Hs]; [|done].
  unfold staticAuthOf. cbv zeta. of_type Ht. unfold gcpAuthOf. rewrite Hc. cbn. rewrite Hwif. cbn. rewrite andb_false_r.
  erewrite rotatedSecret_of; [|exact Hrefl|exact Hs|cbn; by rewrite lookup_insert_eq]. cbn. eexists. split; [done|].
  eapply gcpAccessToken_issued; [exact Hc|exact Hwif| | |exists w3, w4; exact Htok]; [done|]. eapply returns_mwrap. exists w1, w3. exact Hsts.
Qed.

(** The policy is for AWS and names a credentials file. *)
Definition namesFile (bsp : BackendSecurityPolicy) (creds : FilterConfig.AWSCredentials) : Prop :=
  bp_Type bsp = BackendSecurityPolicyTypeAWSCredentials ∧ bp_AWSCredentials bsp = Some creds ∧ wc_CredentialsFile creds ≠ None.

(** C12: The configuration carries the credential that was issued.  When the rotator of a
    policy has rotated, and the policy is not one for AWS that names a credentials file
    beside the exchange, the credentials of the backends of the policy are those that a
    cloud issued for the policy's own identity (its role, tenant and client, service
    account or federation), and the expiry by which the next rotation is planned is
    theirs.  A policy for AWS that names both is rotated all the same, but its backends
    get what is in the file's Secret. *)
Theorem published_is_issued window bsp r w w' e :
  returns (rotatorOf window bsp) (Some r) → rt_Rotate r w = (w', Ok e) → reflects w' →
  ((∀ creds, ¬ namesFile bsp creds) → ∃ a, staticAuthOf bsp = Ok (a, true) ∧ issuedTo bsp a e) ∧
  (∀ creds, namesFile bsp creds →
    staticAuthOf bsp = let! literal := getBSPSecretRefData bsp AwsCredentialsKey in Ok (awsBackendAuth literal (wc_Region creds), true)).
Proof using WL.
  intros Hr%rotatorOf_for Hrot Hrefl. split.
  - intros Hfile. destruct Hr as [creds x r' Ht Hc Hx Hr|key q Hq|creds wif q r' Ht Hc Hwif Hq Hr].
    + eapply aws_issued; [exact Ht|exact Hc|exact Hx| |exact Hr|exact Hrot|done]. apply dec_stable. intros Hn. by apply (Hfile creds).
    + apply tokenRotate_data in Hrot as (token & s & Hp & <- & Hs & Hd). eapply provided_issued; [done..| |done]. by eapply rotatedSecret_of.
    + eapply gcp_issued; [exact Ht|exact Hc|exact Hwif|exact Hr|exact Hrot|done].
  - intros creds (Ht & Hc & Hf). unfold staticAuthOf. cbv zeta. of_type Ht. unfold awsAuthOf. rewrite Hc. cbn.
    rewrite (bool_decide_false (wc_CredentialsFile creds = None)) by done. cbn. destruct (wc_CredentialsFile creds); [|done].
    by destruct (getBSPSecretRefData bsp AwsCredentialsKey).
Qed.
End Published.

(** ** A cluster and its clouds *)

Module RotationSample.
(** A cluster with one policy; each look at the clock takes a nanosecond. *)
Record cluster := { cs_secrets : gmap (string * string) KSecret; cs_reads : list (string * string); cs_clock : Z; cs_policy : BackendSecurityPolicy }.

Definition at_time (t : Z) (c : cluster) : cluster :=
  {| cs_secrets := cs_secrets c; cs_reads := cs_reads c; cs_clock := t; cs_policy := cs_policy c |}.
Definition with_secret (s : KSecret) (c : cluster) : cluster :=
  {| cs_secrets := <[keyOf s := s]> (cs_secrets c); cs_reads := cs_reads c; cs_clock := cs_clock c; cs_policy := cs_policy c |}.
Definition with_policy (p : BackendSecurityPolicy) (c : cluster) : cluster :=
  {| cs_secrets := cs_secrets c; cs_reads := cs_reads c; cs_clock := cs_clock c; cs_policy := p |}.
Definition notFound : error := errors_Sentinel "not found" KubeNotFound.

#[export] Instance world : World cluster := {|
  w_secrets := cs_secrets; w_reads := cs_reads; w_clock := cs_clock;
  time_Now c := (at_time (cs_clock c + 1) c, Ok (cs_clock c + 1)%Z);
  get_Secret ns name c :=
    ({| cs_secrets := cs_secrets c; cs_reads := cs_reads c ++ [(ns, name)]; cs_clock := cs_clock c; cs_policy := cs_policy c |},
     match cs_secrets c !! (ns, name) with
     | Some s => if bool_decide (keyOf s = (ns, name)) then Ok s else Fail (errors_New "stored under another name")
     | None => Fail notFound
     end);
  create_Secret s c := (with_secret s c, Ok tt);
  update_Secret s c := (with_secret s c, Ok tt);
  get_Policy ns name c :=
    (c, if bool_decide (bp_Namespace (cs_policy c) = ns) && bool_decide (bp_Name (cs_policy c) = name) then Ok (cs_policy c) else Fail notFound);
  get_TargetBackend _ _ c := (c, Ok tt);
  get_TargetPool _ _ c := (c, Ok tt);
  send_BackendEvent _ _ c := c;
  send_PoolEvent _ _ c := c;
  update_PolicyFinalizer _ _ c := c;
  update_PolicyStatus _ _ _ c := c;
|}.

Lemma silent_refl (c : cluster) : silent c c.
Proof. by split_and!. Qed.

#[export] Instance world_laws : WorldLaws cluster.
Proof.
  split; try (intros; apply silent_refl); try (by intros ? ? ? ? ? [= <- <-]; apply silent_refl).
  - intros c. exists (at_time (cs_clock c + 1) c), (cs_clock c + 1)%Z. split; [done|]. cbn. split; [|lia]. split_and!; cbn; [done..|lia].
  - intros ns name c c' o [= <- <-]. cbn. split_and!; [done..|]. destruct (cs_secrets c !! _) as [s|]; [|done]. by case_bool_decide.
  - intros s c c' o [= <- <-]. cbn. split_and!; [done..|intros _; by rewrite lookup_insert_eq|]. intros x Hx. by rewrite lookup_insert_ne.
  - intros s c c' o [= <- <-]. cbn. split_and!; [done..|intros _; by rewrite lookup_insert_eq|]. intros x Hx. by rewrite lookup_insert_ne.
  - intros ns name c c' o [= <- <-]. split; [apply silent_refl|]. intros bsp H. destruct (_ && _) eqn:E; [|done]. injection H as <-.
    rewrite andb_true_iff, !bool_decide_eq_true in E. done.
Qed.

(** Each cloud answers with a token of an hour. *)
Definition hour (c : cluster) : Z := cs_clock c + 3600 * Second.
#[export] Instance clouds : Clouds cluster := {|
  os_Getenv _ := "";
  url_Parse u := Ok u;
  oidc_NewProvider u c := (c, Ok {| op_ProviderConfig := Ok (u, u +:+ "/token"); op_SupportedScopes := Ok ["openid"] |});
  clientcredentials_Token cc c := (c, Ok {| ot_AccessToken := "jwt-" +:+ cc_ClientID cc; ot_Expiry := hour c; ot_ExpiresIn := 0 |});
  aws_LoadDefaultConfig := Ok tt;
  sts_AssumeRoleWithWebIdentity _ i c :=
    (c, Ok (Some {| wi_Expiration := Some (hour c); wi_AccessKeyId := Some "AK"; wi_SecretAccessKey := Some ("SK-" +:+ ai_RoleArn i); wi_SessionToken := None |}));
  azure_NewClientAssertionCredential _ _ _ := Ok tt;
  azure_AssertionToken _ tenant client callback _ := do! jwt := callback in λ c, (c, Ok ("azure-" +:+ client +:+ "-" +:+ jwt, hour c));
  azure_NewClientSecretCredential _ _ _ _ := Ok tt;
  azure_SecretToken _ tenant client _ _ c := (c, Ok ("azure-" +:+ client, hour c));
  google_CredentialsFromJSON _ _ := Ok tt;
  google_Token _ _ c := (c, Ok ("google", hour c));
  google_NewSTSService _ := Ok tt;
  google_ExchangeToken _ _ c := (c, Ok ("sts", 3600%Z));
  google_CredentialsTokenSource _ _ := Ok tt;
  google_ImpersonatedToken _ _ c := (c, Ok ("account", hour c));
  spiffe_FetchJWTSVID _ _ c := (c, Ok ("svid", hour c));
  json_MarshalExchange r := Ok (or_SubjectToken r);
  json_UnmarshalExchange body := Ok {| os_AccessToken := body; os_ExpiresAt := 4000000000 |};
  json_UnmarshalError _ := Fail (errors_New "not JSON");
  http_NewRequest _ := Ok tt;
  http_Post _ _ body c := (c, Ok {| hp_StatusCode := 200; hp_ReadAll _ := Ok body |});
|}.

#[export] Instance clouds_laws : CloudsLaws cluster.
Proof.
  split; try (by intros; intros ? ? ? [= <- <-]; apply silent_refl).
  intros R P Q p t c cb s AD Hcb. cbn. eapply within_mseq; [exact AD|exact Hcb|]. intros a w w' o [= <- <-]. apply (ad_refl R P Q AD).
Qed.

(** Times in seconds. *)
#[export] Instance seconds : Rfc3339 := {|
  time_Format t := Itoa (t / Second);
  time_String t := Itoa t;
  time_Parse s := match ParseInt64 s with Some n => Ok (n * Second)%Z | None => Fail (errors_New "not a time") end;
|}.

#[export] Instance seconds_laws : Rfc3339Laws seconds.
Proof.
  split. intros t Ht. cbn. rewrite ParseInt64_pretty; [done|]. unfold rfcRange, in_int64, Second in *.
  pose proof (Z.div_pos t 1000000000). pose proof (Z.div_le_upper_bound t 1000000000 (253402300800)). lia.
Qed.

#[export] Instance owners : Owners := {|
  HasOwnerReference refs bsp := bool_decide (bp_Name bsp ∈ refs);
  SetControllerReference bsp s :=
    Ok {| ks_Namespace := ks_Namespace s; ks_Name := ks_Name s; ks_Annotations := ks_Annotations s; ks_Data := ks_Data s;
          ks_OwnerReferences := ks_OwnerReferences s ++ [bp_Name bsp] |};
|}.

#[export] Instance owners_laws : OwnersLaws owners.
Proof. split. by intros bsp s s' [= <-]. Qed.

(** A policy of a team whose client secret is in another namespace, with a grant. *)
Definition grant : ReferenceGrant :=
  {| rg_Namespace := "vault"; rg_Name := "g"; rg_Deleted := false;
     rg_From := [{| gf_Group := aiServiceBackendGroup; gf_Kind := backendSecurityPolicyKind; gf_Namespace := "team" |}];
     rg_To := [{| gt_Group := ""; gt_Kind := secretKind; gt_Name := Some "app" |}] |}.
#[export] Instance grantClient : GrantClient :=
  {| list_ReferenceGrants key := Ok (filter (λ g, key ∈ referenceGrantToTargetKindIndexFunc g) [grant]) |}.
#[export] Instance grantLaws : GrantClientLaws grantClient [grant].
Proof. split. intros key l H. by injection H as <-. Qed.
Lemma rotation_namespaces : Forall (λ g, Contains (rg_Namespace g) "." = false) [grant].
Proof. by repeat constructor. Qed.

Definition azure (ref : option SecretObjectReference) (oidc : option OIDC) : option AzureCredentials :=
  Some {| zc_ClientID := "app"; zc_TenantID := "tenant"; zc_ClientSecretRef := ref; zc_OIDCExchangeToken := oidc |}.
Definition openAI : OpenAICredentials :=
  {| oc_Organization := "org"; oc_Project := "p"; oc_WorkloadIdentityFederationConfig :=
       {| ow_IdentityProviderID := "idp"; ow_ServiceAccountID := "sa"; ow_SubjectToken :=
            {| sj_OIDCExchangeToken := None; sj_SPIFFEJWTSVID := Some {| sv_SocketPath := ""; sv_Audience := "openai" |} |} |} |}.
Definition policyOfType (t : string) (creds : option AzureCredentials) : BackendSecurityPolicy :=
  {| bp_Namespace := "team"; bp_Name := "azure";
     bp_TargetRefs := [{| lt_Group := aiServiceBackendGroup; lt_Kind := aiServiceBackendKind; lt_Name := "gpt" |}];
     bp_Type := t; bp_APIKey := None; bp_AWSCredentials := None; bp_AzureAPIKey := None; bp_AzureCredentials := creds; bp_GCPCredentials := None;
     bp_AnthropicAPIKey := None; bp_OpenAICredentials := Some openAI; bp_CredentialOverride := None; bp_Deleted := false; bp_HasFinalizer := true |}.
Definition secretPolicy : BackendSecurityPolicy :=
  policyOfType BackendSecurityPolicyTypeAzureCredentials (azure (Some {| so_Name := "app"; so_Namespace := Some "vault" |}) None).
Definition openAIPolicy : BackendSecurityPolicy := policyOfType BackendSecurityPolicyTypeOpenAICredentials None.

Definition vaultSecret : KSecret :=
  {| ks_Namespace := "vault"; ks_Name := "app"; ks_Annotations := ∅; ks_Data := {[clientSecretKey := "s3cret"]}; ks_OwnerReferences := [] |}.
Definition start : cluster :=
  with_secret vaultSecret {| cs_secrets := ∅; cs_reads := []; cs_clock := 1800000000 * Second; cs_policy := secretPolicy |}.

Definition reconciled (c : cluster) : cluster * outcome Reply := Reconcile DefaultPreRotationWindow "team" "azure" c.
Definition requeueOf (c : cluster) : Z := match (reconciled c).2 with Ok (q, _) => q | _ => 0%Z end.
Definition runFrom (c : cluster) : run := {| rn_start := c; rn_end := (reconciled c).1; rn_requeue := requeueOf c |}.

Definition first : run := runFrom start.
(** The second run, half a second late. *)
Definition second : run := runFrom (at_time (cs_clock (rn_end first) + rn_requeue first + 500000000) (rn_end first)).

Lemma secrets_touched_permitted_witness :
  ("vault", "app") ∈ w_reads (rn_end first) ∧ permitted [grant] securityPolicyKind "team" coreSecretKind "vault" "app".
Proof.
  assert (("vault", "app") ∈ w_reads (rn_end first)) as Hx by (vm_compute; left). split; [exact Hx|].
  destruct (secrets_touched_permitted [grant] rotation_namespaces DefaultPreRotationWindow "team" "azure" start (reconciled start).1 (reconciled start).2) as [Hr _].
  - destruct (reconciled start) as [w o] eqn:E. exact E.
  - apply (Hr ("vault", "app") Hx); [by apply not_elem_of_nil|reflexivity].
Defined.

Lemma credential_never_lapses_witness :
  ∃ t, expiryOf "team" "azure" (rn_end first) = Some t ∧ (w_clock (rn_end second) < t)%Z ∧ expiryOf "team" "azure" (rn_end second) ≠ Some t.
Proof.
  destruct (credential_never_lapses DefaultPreRotationWindow 1000 Second "team" "azure" [first; second] 0 first second) as (t & Ht & Hs & Hc).
  - unfold DefaultPreRotationWindow, Minute, Second. lia.
  - unfold DefaultPreRotationWindow, Minute, Second. lia.
  - split.
    + constructor; [|constructor; [|constructor]]; unfold goodRun; split_and!; vm_compute; first [reflexivity|congruence].
    + intros [|[|i]] r r' H H'; [|done..]. injection H as <-. injection H' as <-. split; [vm_compute; congruence|reflexivity].
  - reflexivity.
  - reflexivity.
  - exists t. split; [exact Ht|]. split; [exact Hc|]. rewrite <-Ht. vm_compute. congruence.
Defined.

(** What the reconciler of Gateways sees of a cluster. *)
Definition gatewayClient (c : cluster) : GatewayClient := {|
  get_AIServiceBackend _ _ := Fail notFound;
  list_BackendSecurityPolicies _ _ := Ok [];
  list_TargetingQuotaPolicies _ := Ok [];
  get_SecretIn ns n := match cs_secrets c !! (ns, n) with
                       | Some s => Ok {| sec_Name := n; sec_Data := ks_Data s; sec_StringData := ∅ |}
                       | None => Fail notFound
                       end;
|}.

Definition rotator : Rotator cluster :=
  match (rotatorOf DefaultPreRotationWindow secretPolicy start).2 with
  | Ok (Some r) => r
  | _ => {| rt_IsExpired _ := mret false; rt_GetPreRotationTime := mret 0%Z; rt_Rotate := mret 0%Z |}
  end.
Definition rotated : cluster * outcome Z := rt_Rotate rotator start.

Lemma published_is_issued_witness :
  ∃ a e, rotated.2 = Ok e ∧ staticAuthOf (CL := gatewayClient rotated.1) secretPolicy = Ok (a, true) ∧ issuedTo secretPolicy a e.
Proof.
  assert (∃ e, rotated.2 = Ok e) as [e He] by (eexists; vm_compute; reflexivity).
  destruct (published_is_issued (CL := gatewayClient rotated.1) DefaultPreRotationWindow secretPolicy rotator start rotated.1 e) as [(a & Ha & Hi) _].
  - exists start, (rotatorOf DefaultPreRotationWindow secretPolicy start).1. reflexivity.
  - rewrite <-He. unfold rotated. apply surjective_pairing.
  - intros ns n s Hs. cbn. change (cs_secrets rotated.1 !! (ns, n) = Some s) in Hs. rewrite Hs. reflexivity.
  - intros creds (Hc & _). discriminate Hc.
  - exists a, e. split; [exact He|]. split; [exact Ha|exact Hi].
Defined.

(** *** What the code does not manage *)

(** A run that reads the clock just before and just after the rotation is due asks for a
    requeue that is not positive and reports no error, so that it is not run again. *)
Lemma wakeup_lost :
  let due := at_time (default 0%Z (expiryOf "team" "azure" (rn_end first)) - DefaultPreRotationWindow - 1) (rn_end first) in
  match reconciled due with
  | (w, Ok (q, None)) => (q <=? 0)%Z && bool_decide (w_secrets w = w_secrets due)
  | _ => false
  end = true.
Proof. vm_compute. reflexivity. Qed.

(** The Secret of a policy with a client secret is created without an owner. *)
Lemma generated_without_owner :
  (ks_OwnerReferences <$> cs_secrets (rn_end first) !! ("team", GetBSPSecretName "azure")) = Some [] ∧
  getBSPGeneratedSecretName secretPolicy = Ok "".
Proof. vm_compute. done. Qed.

(** A policy that changes its type keeps the credential of the old type until that
    expires, and has no credential of the new one meanwhile. *)
Lemma type_change_waits :
  let c := with_policy openAIPolicy (rn_end first) in
  let generatedData w := ks_Data <$> w_secrets w !! ("team", GetBSPSecretName "azure") in
  match reconciled c with
  | (w, Ok (_, None)) => bool_decide (generatedData w = generatedData c) && negb (is_ok (staticAuthOf (CL := gatewayClient w) openAIPolicy))
  | _ => false
  end = true.
Proof. vm_compute. reflexivity. Qed.

(** A Secret whose expiry cannot be read is not rotated. *)
Lemma unreadable_expiry_stays :
  let c := with_secret (emptySecret "team" (GetBSPSecretName "azure")) start in
  match reconciled c with
  | (w, Ok (q, Some _)) => (q =? Minute)%Z && bool_decide (w_secrets w = w_secrets c)
  | _ => false
  end = true.
Proof. vm_compute. reflexivity. Qed.
End RotationSample.
