(* ===== verification/AiRoute.v ===== *)
(** * HTTPRoutes of an AIGatewayRoute

    Models [internal/controller/ai_gateway_route.go]: the HTTPRoute a route becomes,
    with the references it drops, the hash of the quotas of its backends, and the
    reconciler around it.  The Kubernetes client is a class on the state of the
    cluster; [sort.Slice] is a merge sort on the keys; log lines are left out. *)

From Stdlib Require Import Ascii ZArith Lia.
From stdpp Require Import base gmap strings list sorting.
From S2P Require Import Prelude GoStrings GoNum InternalApi Kube RateLimit QuotaController FilterApi ConfigBundle FilterConfig.

(** ** HTTPRoutes *)

Record HTTPBackendRef := { hb_Ref : BackendObjectReference; hb_Weight : option Z }.

(** A match with its header matches and the prefix of the path; a filter is the name
    of an extension resource. *)
Record HTTPRouteRule := {
  hr_Name : option string;
  hr_BackendRefs : list HTTPBackendRef;
  hr_Matches : list (list HTTPHeaderMatch * string);
  hr_Filters : list string;
  hr_Timeouts : option HTTPRouteTimeouts;
}.

Record HTTPRoute := {
  ht_Namespace : string;
  ht_Name : string;
  ht_Labels : gmap string string;
  ht_Annotations : gmap string string;
  ht_Rules : list HTTPRouteRule;
  ht_ParentRefs : list ParentReference;
  ht_Hostnames : list string;
}.

Definition hostRewriteHTTPFilterName : string := "ai-eg-host-rewrite".
Definition routeNotFoundResponseHTTPFilterName : string := "ai-eg-route-not-found-response".
Definition egAnnotationPrefix : string := "gateway.envoyproxy.io/".
Definition httpRouteBackendRefPriorityAnnotationKey : string := egAnnotationPrefix +:+ "backend-ref-priority".
Definition httpRouteAnnotationForAIGatewayGeneratedIndication : string := egAnnotationPrefix +:+ "ai-gateway-generated".
Definition httpRouteQuotaPolicyHashAnnotationKey : string := egAnnotationPrefix +:+ "quota-policy-hash".

Definition getHostRewriteFilterName (baseName : string) : string := hostRewriteHTTPFilterName +:+ "-" +:+ baseName.
Definition getRouteNotFoundFilterName (baseName : string) : string := routeNotFoundResponseHTTPFilterName +:+ "-" +:+ baseName.

(** An extension filter: the host of the backend, or a direct response. *)
Inductive HTTPRouteFilterSpec := BackendHostname | DirectResponse (status : Z) (body : string).
Record HTTPRouteFilter := { hf_Name : string; hf_Namespace : string; hf_Spec : HTTPRouteFilterSpec }.

Definition generateHTTPRouteFilters (route : AIGatewayRoute) : list HTTPRouteFilter :=
  [{| hf_Name := getHostRewriteFilterName (ar_Name route); hf_Namespace := ar_Namespace route; hf_Spec := BackendHostname |};
   {| hf_Name := getRouteNotFoundFilterName (ar_Name route); hf_Namespace := ar_Namespace route;
      hf_Spec := DirectResponse 404
        "No matching route found. It is likely because the model specified in your request is not configured in the Gateway." |}].

(** ** Priorities *)

Definition buildPriorityAnnotation (rules : list AIGatewayRouteRule) : string :=
  Join (rule ← imap pair rules; br ← ru_BackendRefs rule.2;
        [itoa rule.1 +:+ ":" +:+ rb_Name br +:+ ":" +:+ Itoa (default 0%Z (rb_Priority br))]) ",".

(** ** Backends *)

Section References.
Context `{GC : !GrantClient, CL : !GatewayClient}.

(** Every error of the read is reported as a backend that was not found. *)
Definition validateAndGetBackend (route : AIGatewayRoute) (ref : AIGatewayRouteRuleBackendRef) : outcome AIServiceBackendSpec :=
  let backendNamespace := GetNamespace ref (ar_Namespace route) in
  let! _ := if IsCrossNamespace ref (ar_Namespace route)
            then validateAIServiceBackendReference (ar_Namespace route) backendNamespace (rb_Name ref) else Ok tt in
  match get_AIServiceBackend backendNamespace (rb_Name ref) with
  | Ok backend => Ok backend
  | Fail _ => Fail (errors_New ("AIServiceBackend " +:+ rb_Name ref +:+ "." +:+ backendNamespace +:+ " not found"))
  | Panic p => Panic p
  end.

(** The reference of the HTTPRoute for one of the route, or the error that drops it. *)
Definition httpBackendRef (route : AIGatewayRoute) (ref : AIGatewayRouteRuleBackendRef) : outcome HTTPBackendRef :=
  let backendNamespace := GetNamespace ref (ar_Namespace route) in
  if IsInferencePool ref then
    let! _ := if IsCrossNamespace ref (ar_Namespace route)
              then validateInferencePoolReference (ar_Namespace route) backendNamespace (rb_Name ref) else Ok tt in
    Ok {| hb_Ref := {| bo_Group := rb_Group ref; bo_Kind := rb_Kind ref; bo_Name := rb_Name ref; bo_Namespace := Some backendNamespace |};
          hb_Weight := rb_Weight ref |}
  else
    let! backend := owrap ("failed to get AIServiceBackend " +:+ namespacedNameIndexKey (rb_Name ref) backendNamespace +:+ ": ")
      (validateAndGetBackend route ref) in
    let obj := bs_BackendRef backend in
    let obj := if bool_decide (bo_Namespace obj = None) && bool_decide (backendNamespace ≠ "") && bool_decide (backendNamespace ≠ ar_Namespace route)
               then {| bo_Group := bo_Group obj; bo_Kind := bo_Kind obj; bo_Name := bo_Name obj; bo_Namespace := Some backendNamespace |} else obj in
    Ok {| hb_Ref := obj; hb_Weight := rb_Weight ref |}.

(** The references that are kept, and the errors of those that are not. *)
Definition httpBackendRefs (route : AIGatewayRoute) (refs : list AIGatewayRouteRuleBackendRef) : outcome (list HTTPBackendRef * list error) :=
  ofold (λ acc ref,
    match httpBackendRef route ref with
    | Ok br => Ok (acc.1 ++ [br], acc.2)
    | Fail e => Ok (acc.1, acc.2 ++ [e])
    | Panic p => Panic p
    end) ([], []) refs.

Definition ruleOf (rootPrefix : string) (route : AIGatewayRoute) (rule : AIGatewayRouteRule) : outcome (HTTPRouteRule * list error) :=
  let! r := httpBackendRefs route (ru_BackendRefs rule) in
  Ok ({| hr_Name := ru_Name rule; hr_BackendRefs := r.1; hr_Matches := (λ headers, (headers, rootPrefix)) <$> ru_Matches rule;
         hr_Filters := [getHostRewriteFilterName (ar_Name route)]; hr_Timeouts := Some (GetTimeoutsOrDefault rule) |}, r.2).

Definition notFoundRule (rootPrefix : string) (route : AIGatewayRoute) : HTTPRouteRule :=
  {| hr_Name := Some "route-not-found"; hr_BackendRefs := []; hr_Matches := [([], rootPrefix)];
     hr_Filters := [getRouteNotFoundFilterName (ar_Name route)]; hr_Timeouts := None |}.
End References.

(** ** The hash of the quotas *)

Section Quotas.
Context `{GC : !GrantClient, CL : !GatewayClient}.
Context (rangePolicies : gmap string QuotaPolicy → list (string * QuotaPolicy)).

(** The locals of the loops: effective policies, policies seen, backends seen, and
    which targets are permitted. *)
Record quotaState := {
  qs_seen : gmap string QuotaPolicy;
  qs_processed : gset string;
  qs_backends : gset string;
  qs_grants : gmap (string * string * string) bool;
}.

Definition withTargetRefs (p : QuotaPolicy) (targets : list TargetReference) : QuotaPolicy :=
  {| qp_Namespace := qp_Namespace p; qp_Name := qp_Name p; qp_UID := qp_UID p; qp_Deleted := qp_Deleted p; qp_HasFinalizer := qp_HasFinalizer p;
     qp_TargetRefs := targets; qp_ServiceQuota := qp_ServiceQuota p; qp_PerModelQuotas := qp_PerModelQuotas p |}.

Definition allowedTarget (policy : QuotaPolicy) (acc : gmap (string * string * string) bool * list TargetReference) (target : TargetReference) :
    outcome (gmap (string * string * string) bool * list TargetReference) :=
  let targetNamespace := TargetNamespace target (qp_Namespace policy) in
  let grantKey := (qp_Namespace policy, targetNamespace, tg_Name target) in
  let! allowed :=
    match acc.1 !! grantKey with
    | Some allowed => Ok allowed
    | None =>
        match validateQuotaPolicyAIServiceBackendReference (qp_Namespace policy) targetNamespace (tg_Name target) with
        | Ok _ => Ok true
        | Fail _ => Ok false
        | Panic p => Panic p
        end
    end in
  Ok (<[grantKey := allowed]> acc.1, if allowed then acc.2 ++ [target] else acc.2).

Definition addPolicy (st : quotaState) (policy : QuotaPolicy) : outcome quotaState :=
  let policyKey := NamespacedNameKey (qp_Namespace policy) (qp_Name policy) in
  if qp_Deleted policy then Ok st
  else if bool_decide (policyKey ∈ qs_processed st) then Ok st
  else
    let! r := ofold (allowedTarget policy) (qs_grants st, []) (qp_TargetRefs policy) in
    let '(grants, targets) := r in
    Ok {| qs_seen := if bool_decide (targets ≠ []) then <[policyKey := withTargetRefs policy targets]> (qs_seen st) else qs_seen st;
          qs_processed := {[policyKey]} ∪ qs_processed st; qs_backends := qs_backends st; qs_grants := grants |}.

Definition addBackendRef (route : AIGatewayRoute) (st : quotaState) (ref : AIGatewayRouteRuleBackendRef) : outcome quotaState :=
  if IsInferencePool ref then Ok st
  else
    let key := namespacedNameIndexKey (rb_Name ref) (GetNamespace ref (ar_Namespace route)) in
    if bool_decide (key ∈ qs_backends st) then Ok st
    else
      let! policies := owrap ("failed to list QuotaPolicies for backend " +:+ key +:+ ": ") (list_TargetingQuotaPolicies key) in
      ofold addPolicy {| qs_seen := qs_seen st; qs_processed := qs_processed st; qs_backends := {[key]} ∪ qs_backends st; qs_grants := qs_grants st |} policies.

Definition fetchEffectiveQuotaPoliciesForRoute (route : AIGatewayRoute) : outcome (list QuotaPolicy) :=
  let! st := ofold (addBackendRef route) {| qs_seen := ∅; qs_processed := ∅; qs_backends := ∅; qs_grants := ∅ |} (ar_Rules route ≫= ru_BackendRefs) in
  Ok (rangePolicies (qs_seen st)).*2.

(** By namespace, then by name. *)
Definition policyBefore (p q : QuotaPolicy) : Prop :=
  if bool_decide (qp_Namespace p ≠ qp_Namespace q) then String.le (qp_Namespace p) (qp_Namespace q) else String.le (qp_Name p) (qp_Name q).

#[global] Instance policyBefore_dec p q : Decision (policyBefore p q).
Proof. unfold policyBefore. destruct (bool_decide _); apply _. Defined.

Definition hashedPolicy (p : QuotaPolicy) : string * string * (list TargetReference * QuotaValue * list PerModelQuota) :=
  (qp_Namespace p, qp_Name p, (qp_TargetRefs p, qp_ServiceQuota p, qp_PerModelQuotas p)).

Context (stdjson_Marshal : list (string * string * (list TargetReference * QuotaValue * list PerModelQuota)) → outcome string) (sha256 : string → string).

Definition hashQuotaPolicies (policies : list QuotaPolicy) : outcome string :=
  if bool_decide (length policies = 0) then Ok ""
  else
    let! data := owrap "failed to marshal QuotaPolicies for hashing: " (stdjson_Marshal (hashedPolicy <$> merge_sort policyBefore policies)) in
    Ok (hex_EncodeToString (str_take 8 (sha256 data))).

Definition computeQuotaPolicyHash (route : AIGatewayRoute) : outcome string :=
  let name := ar_Namespace route +:+ "/" +:+ ar_Name route in
  let! policies := owrap ("failed to fetch effective QuotaPolicies for route " +:+ name +:+ ": ") (fetchEffectiveQuotaPoliciesForRoute route) in
  owrap ("failed to compute QuotaPolicy hash for route " +:+ name +:+ ": ") (hashQuotaPolicies policies).

(** ** The HTTPRoute *)

(** The rules and the annotations are set before the hash is computed; the parents and
    the hosts only when it was. *)
Definition newHTTPRoute (rootPrefix : string) (dst : HTTPRoute) (route : AIGatewayRoute) : HTTPRoute * outcome unit :=
  match omapM (ruleOf rootPrefix route) (ar_Rules route) with
  | Fail e => (dst, Fail e)
  | Panic p => (dst, Panic p)
  | Ok rules =>
      let annotations :=
        <[httpRouteAnnotationForAIGatewayGeneratedIndication := "true"]>
          (<[httpRouteBackendRefPriorityAnnotationKey := buildPriorityAnnotation (ar_Rules route)]> (ar_Annotations route ∪ ht_Annotations dst)) in
      let set annotations parentRefs hostnames :=
        {| ht_Namespace := ht_Namespace dst; ht_Name := ht_Name dst; ht_Labels := ar_Labels route ∪ ht_Labels dst; ht_Annotations := annotations;
           ht_Rules := rules.*1 ++ [notFoundRule rootPrefix route]; ht_ParentRefs := parentRefs; ht_Hostnames := hostnames |} in
      match owrap "failed to compute QuotaPolicy hash: " (computeQuotaPolicyHash route) with
      | Fail e => (set annotations (ht_ParentRefs dst) (ht_Hostnames dst), Fail e)
      | Panic p => (set annotations (ht_ParentRefs dst) (ht_Hostnames dst), Panic p)
      | Ok quotaHash =>
          let annotations := if bool_decide (quotaHash = "") then delete httpRouteQuotaPolicyHashAnnotationKey annotations
                             else <[httpRouteQuotaPolicyHashAnnotationKey := quotaHash]> annotations in
          (set annotations (ar_ParentRefs route) (ar_Hostnames route), match rules ≫= snd with [] => Ok tt | errs => Fail (errors_Join errs) end)
      end
  end.
End Quotas.

(** ** The reconciler *)

(** What is used of the client, on the state of the cluster. *)
Class RouteClient (K : Type) := {
  get_AIGatewayRouteIn : K → string → string → outcome AIGatewayRoute;
  get_HTTPRouteFilter : K → string → string → outcome unit;
  create_HTTPRouteFilter : K → HTTPRouteFilter → K * outcome unit;
  get_HTTPRoute : K → string → string → outcome HTTPRoute;
  create_HTTPRoute : K → HTTPRoute → K * outcome unit;
  update_HTTPRoute : K → HTTPRoute → K * outcome unit;
  get_Gateway : K → string → string → outcome unit;
  send_GatewayEvent : K → string → string → K;
  update_RouteFinalizer : K → AIGatewayRoute → bool → K;
  update_RouteStatus : K → AIGatewayRoute → string → string → K;
}.


Section Reconcile.
Context {K : Type} `{RC : !RouteClient K, GC : !GrantClient, CL : !GatewayClient}.
Context (rangePolicies : gmap string QuotaPolicy → list (string * QuotaPolicy)).
Context (stdjson_Marshal : list (string * string * (list TargetReference * QuotaValue * list PerModelQuota)) → outcome string) (sha256 : string → string).
Context (rootPrefix : string).

Definition syncGateway (namespace name : string) (k : K) : K * outcome unit :=
  match get_Gateway k namespace name with
  | Ok _ => (send_GatewayEvent k namespace name, Ok tt)
  | Fail e => (k, Fail (if errors_Is e KubeNotFound then Errorf_w ("gateway " +:+ namespace +:+ "/" +:+ name +:+ " not found: ") e
                        else Errorf_w ("failed to get Gateway " +:+ namespace +:+ "/" +:+ name +:+ ": ") e))
  | Panic p => (k, Panic p)
  end.

(** A Gateway that is gone is skipped while the route is being deleted. *)
Fixpoint syncParents (route : AIGatewayRoute) (parents : list ParentReference) (k : K) : K * outcome unit :=
  match parents with
  | [] => (k, Ok tt)
  | p :: parents =>
      match syncGateway (default (ar_Namespace route) (pa_Namespace p)) (pa_Name p) k with
      | (k, Ok _) => syncParents route parents k
      | (k, Fail e) => if ar_Deleted route && errors_Is e KubeNotFound then syncParents route parents k else (k, Fail e)
      | (k, Panic p) => (k, Panic p)
      end
  end.

Definition syncGateways (route : AIGatewayRoute) (k : K) : K * outcome unit := syncParents route (ar_ParentRefs route) k.

Fixpoint ensureFilters (filters : list HTTPRouteFilter) (k : K) : K * outcome unit :=
  match filters with
  | [] => (k, Ok tt)
  | f :: filters =>
      match get_HTTPRouteFilter k (hf_Namespace f) (hf_Name f) with
      | Ok _ => ensureFilters filters k
      | Fail e =>
          if errors_Is e KubeNotFound then
            match create_HTTPRouteFilter k f with
            | (k, Ok _) => ensureFilters filters k
            | (k, r) => (k, owrap ("failed to create HTTPRouteFilter " +:+ hf_Name f +:+ ": ") r)
            end
          else (k, Fail (Errorf_w ("failed to get HTTPRouteFilter " +:+ hf_Name f +:+ ": ") e))
      | Panic p => (k, Panic p)
      end
  end.

(** The HTTPRoute to fill, and whether it exists. *)
Definition currentHTTPRoute (route : AIGatewayRoute) (k : K) : outcome (HTTPRoute * bool) :=
  match get_HTTPRoute k (ar_Namespace route) (ar_Name route) with
  | Ok r => Ok (r, true)
  | Fail e =>
      if errors_Is e KubeNotFound then
        Ok ({| ht_Namespace := ar_Namespace route; ht_Name := ar_Name route; ht_Labels := ar_Labels route; ht_Annotations := ar_Annotations route;
               ht_Rules := []; ht_ParentRefs := []; ht_Hostnames := [] |}, false)
      else Fail (Errorf_w "failed to get HTTPRoute: " e)
  | Panic p => Panic p
  end.

(** After the finalizer. *)
Definition syncRoute (route : AIGatewayRoute) (k : K) : K * outcome unit :=
  match ensureFilters (generateHTTPRouteFilters route) k with
  | (k, Ok _) =>
      match currentHTTPRoute route k with
      | Fail e => (k, Fail e)
      | Panic p => (k, Panic p)
      | Ok (dst, existingRoute) =>
          match newHTTPRoute rangePolicies stdjson_Marshal sha256 rootPrefix dst route with
          | (_, Panic p) => (k, Panic p)
          | (httpRoute, newHTTPRouteErr) =>
              let '(k, r) := if existingRoute : bool then let '(k, r) := update_HTTPRoute k httpRoute in (k, owrap "failed to update HTTPRoute: " r)
                             else let '(k, r) := create_HTTPRoute k httpRoute in (k, owrap "failed to create HTTPRoute: " r) in
              match r with
              | Ok _ =>
                  match syncGateways route k with
                  | (k, Ok _) => (k, owrap "failed to construct a new HTTPRoute: " newHTTPRouteErr)
                  | (k, r) => (k, owrap "failed to sync gw pods: " r)
                  end
              | r => (k, r)
              end
          end
      end
  | r => r
  end.

Definition syncAIGatewayRoute (route : AIGatewayRoute) (k : K) : K * outcome unit :=
  let '(k, deleted) := handleFinalizer (ar_Deleted route) (ar_HasFinalizer route) (λ k, (syncGateways route k).1)
    (λ on k, update_RouteFinalizer k route on) k in
  if deleted then (k, Ok tt) else syncRoute route k.

Definition Reconcile (namespace name : string) (k : K) : K * outcome unit :=
  match get_AIGatewayRouteIn k namespace name with
  | Fail e => (k, if errors_Is e KubeNotFound then Ok tt else Fail e)
  | Panic p => (k, Panic p)
  | Ok route =>
      match syncAIGatewayRoute route k with
      | (k, Ok _) => (update_RouteStatus k route ConditionTypeAccepted "AI Gateway Route reconciled successfully", Ok tt)
      | (k, Fail e) => (update_RouteStatus k route ConditionTypeNotAccepted (err_msg e), Fail e)
      | (k, Panic p) => (k, Panic p)
      end
  end.
End Reconcile.
