(* ===== verification/AiRouteProps.v ===== *)
(** * Properties of the HTTPRoutes of AIGatewayRoutes

    The hash of the quotas does not depend on the order in which a map is ranged over,
    and the HTTPRoute only refers to backends the route is permitted to refer to, also
    when a reference had to be dropped. *)

From Stdlib Require Import Ascii ZArith Lia.
From stdpp Require Import base gmap strings list sorting.
From S2P Require Import Prelude GoStrings GoNum InternalApi Kube RateLimit QuotaController FilterApi ConfigBundle FilterConfig FilterConfigProps AiRoute.

(** ** The order of policies *)

Lemma policyBefore_spec p q :
  policyBefore p q ↔ qp_Namespace p ≠ qp_Namespace q ∧ String.le (qp_Namespace p) (qp_Namespace q) ∨
                     qp_Namespace p = qp_Namespace q ∧ String.le (qp_Name p) (qp_Name q).
Proof. unfold policyBefore. case_bool_decide as E; tauto. Qed.

#[export] Instance policyBefore_trans : Transitive policyBefore.
Proof.
  intros p q r. rewrite !policyBefore_spec. intros [[N1 L1]|[E1 L1]] [[N2 L2]|[E2 L2]].
  - left. split; [|by transitivity (qp_Namespace q)]. intros E. apply N1. apply (anti_symm String.le); [done|by rewrite E].
  - left. by rewrite <-E2.
  - left. by rewrite E1.
  - right. split; [congruence|by transitivity (qp_Name q)].
Qed.

#[export] Instance policyBefore_total : Total policyBefore.
Proof.
  intros p q. rewrite !policyBefore_spec. destruct (decide (qp_Namespace p = qp_Namespace q)) as [E|N].
  - destruct (total String.le (qp_Name p) (qp_Name q)); auto.
  - destruct (total String.le (qp_Namespace p) (qp_Namespace q)); auto.
Qed.

Lemma policyBefore_same p q : policyBefore p q → policyBefore q p → qp_Namespace p = qp_Namespace q ∧ qp_Name p = qp_Name q.
Proof.
  rewrite !policyBefore_spec. intros [[N1 L1]|[E1 L1]] [[N2 L2]|[E2 L2]].
  - exfalso. apply N1. by apply (anti_symm String.le).
  - by destruct N1.
  - by destruct N2.
  - split; [done|]. by apply (anti_symm String.le).
Qed.

Section Hash.
Context `{GC : !GrantClient, CL : !GatewayClient}.

(** Effective policies are kept by their own key. *)
Definition keyedByName (m : gmap string QuotaPolicy) : Prop := ∀ k p, m !! k = Some p → k = NamespacedNameKey (qp_Namespace p) (qp_Name p).

Lemma addPolicy_keyed st p st' : addPolicy st p = Ok st' → keyedByName (qs_seen st) → keyedByName (qs_seen st').
Proof.
  unfold addPolicy. intros H Hk. case_match; [by injection H as <-|]. case_bool_decide; [by injection H as <-|]. outcome_inv. destruct x as [grants targets].
  outcome_inv. subst st'. cbn [qs_seen]. case_bool_decide; [|done]. intros k q. destruct (decide (k = NamespacedNameKey (qp_Namespace p) (qp_Name p))) as [->|Hne].
  - rewrite lookup_insert_eq. by intros [= <-].
  - rewrite lookup_insert_ne by done. apply Hk.
Qed.

Lemma addBackendRef_keyed route st ref st' : addBackendRef route st ref = Ok st' → keyedByName (qs_seen st) → keyedByName (qs_seen st').
Proof.
  unfold addBackendRef. intros H Hk. case_match; [by injection H as <-|]. cbv zeta in H. case_bool_decide; [by injection H as <-|]. outcome_inv.
  match goal with Hf : ofold _ _ _ = _ |- _ => refine (ofold_inv (λ st, keyedByName (qs_seen st)) _ _ _ _ _ _ Hf) end; [exact Hk|]. intros y a y' Hy _ Ha. by eapply addPolicy_keyed.
Qed.

Context (stdjson_Marshal : list (string * string * (list TargetReference * QuotaValue * list PerModelQuota)) → outcome string) (sha256 : string → string).

Lemma hash_permutation l1 l2 :
  l1 ≡ₚ l2 → (∀ p q, p ∈ l1 → q ∈ l1 → qp_Namespace p = qp_Namespace q → qp_Name p = qp_Name q → p = q) →
  hashQuotaPolicies stdjson_Marshal sha256 l1 = hashQuotaPolicies stdjson_Marshal sha256 l2.
Proof.
  intros Hp Hu. unfold hashQuotaPolicies. rewrite (bool_decide_ext (length l1 = 0) (length l2 = 0)) by (by rewrite Hp). case_bool_decide; [done|]. replace (merge_sort policyBefore l2) with (merge_sort policyBefore l1); [done|].
  apply (StronglySorted_unique_strong policyBefore).
  - intros p q Hin1 Hin2 H1 H2. destruct (policyBefore_same p q H1 H2). rewrite merge_sort_Permutation in Hin1. rewrite merge_sort_Permutation, <-Hp in Hin2. by apply Hu.
  - apply StronglySorted_merge_sort; apply _.
  - apply StronglySorted_merge_sort; apply _.
  - by rewrite !merge_sort_Permutation.
Qed.

(** The HTTPRoute is not rewritten for the order of a map: the hash of the quotas of a
    route is the same in whichever orders the effective policies are visited. *)
Lemma quota_hash_order_independent (range1 range2 : gmap string QuotaPolicy → list (string * QuotaPolicy)) `{!RangeOrder range1, !RangeOrder range2} route :
  computeQuotaPolicyHash range1 stdjson_Marshal sha256 route = computeQuotaPolicyHash range2 stdjson_Marshal sha256 route.
Proof.
  unfold computeQuotaPolicyHash, fetchEffectiveQuotaPoliciesForRoute. destruct (ofold _ _ _) as [st| |] eqn:E; [|done..]. cbn [obind owrap]. f_equal.
  assert (keyedByName (qs_seen st)) as Hk.
  { refine (ofold_inv (λ st, keyedByName (qs_seen st)) _ _ _ _ _ _ E); [intros k p H; cbn in H; by rewrite lookup_empty in H|].
    intros x a x' Hx _ Ha. by eapply addBackendRef_keyed. }
  apply hash_permutation; [by rewrite (range_perm (range := range1)), (range_perm (range := range2))|].
  intros p q ([k1 p'] & -> & H1)%list_elem_of_fmap ([k2 q'] & -> & H2)%list_elem_of_fmap. cbn. intros E1 E2.
  apply elem_of_range in H1, H2; [|done..]. pose proof (Hk _ _ H1). pose proof (Hk _ _ H2). congruence.
Qed.
End Hash.

(** ** References *)

Section References.
Context `{GC : !GrantClient, CL : !GatewayClient} (grants : list ReferenceGrant) `{GL : !GrantClientLaws GC grants}.
Context (namespaces : Forall (λ g, Contains (rg_Namespace g) "." = false) grants).

Lemma httpBackendRef_validated route ref br :
  httpBackendRef route ref = Ok br → validateBackendRef (ar_Namespace route) (GetNamespace ref (ar_Namespace route)) ref = Ok tt.
Proof.
  unfold httpBackendRef, validateBackendRef, validateAndGetBackend. destruct (IsInferencePool ref), (IsCrossNamespace ref (ar_Namespace route)); [|done| |done];
    intros H; outcome_inv; by repeat match goal with u : unit |- _ => destruct u end.
Qed.

(** The references that are kept come from those of the rule, in their order. *)
Lemma httpBackendRefs_kept route refs r :
  httpBackendRefs route refs = Ok r → Forall (λ br, ∃ ref, ref ∈ refs ∧ httpBackendRef route ref = Ok br) r.1.
Proof.
  unfold httpBackendRefs. intros H. refine (ofold_inv (λ acc, Forall (λ br, ∃ ref, ref ∈ refs ∧ httpBackendRef route ref = Ok br) acc.1) _ ([], []) _ _ _ _ H).
  - constructor.
  - intros acc ref acc' Ha Hin Hs. destruct (httpBackendRef route ref) as [br| |] eqn:E; [| |done]; injection Hs as <-; [|done].
    apply Forall_app. split; [done|]. constructor; [by exists ref|constructor].
Qed.

Context (rangePolicies : gmap string QuotaPolicy → list (string * QuotaPolicy)).
Context (stdjson_Marshal : list (string * string * (list TargetReference * QuotaValue * list PerModelQuota)) → outcome string) (sha256 : string → string).
Context {K : Type} `{RC : !RouteClient K} (rootPrefix : string).

Lemma newHTTPRoute_refs dst route http res :
  newHTTPRoute rangePolicies stdjson_Marshal sha256 rootPrefix dst route = (http, res) →
  http = dst ∧ is_ok res = false ∨
  ∀ hr br, hr ∈ ht_Rules http → br ∈ hr_BackendRefs hr → ∃ rule ref, rule ∈ ar_Rules route ∧ ref ∈ ru_BackendRefs rule ∧ httpBackendRef route ref = Ok br.
Proof.
  unfold newHTTPRoute. destruct (omapM _ _) as [rules| |] eqn:E; [|intros [= <- <-]; by left..].
  intros H. right. assert (ht_Rules http = rules.*1 ++ [notFoundRule rootPrefix route]) as -> by (by destruct (owrap _ _); simplify_eq). clear H.
  apply omapM_ok in E. intros hr br [(p & -> & Hp)%list_elem_of_fmap| ->%list_elem_of_singleton]%elem_of_app Hbr; [|by apply not_elem_of_nil in Hbr].
  apply list_elem_of_lookup in Hp as [k Hk]. destruct (Forall2_lookup_r _ _ _ _ _ E Hk) as (rule & Hr & Ho). unfold ruleOf in Ho. outcome_inv. subst p.
  match goal with Hb : httpBackendRefs _ _ = _ |- _ => apply httpBackendRefs_kept in Hb; rewrite Forall_forall in Hb; destruct (Hb _ Hbr) as (ref & ? & ?) end.
  exists rule, ref. split; [by eapply list_elem_of_lookup_2|done].
Qed.

(** A reference that is no longer permitted is taken out of the HTTPRoute, even though
    the reconcile reports it as an error. *)
Lemma revoked_reference_removed route k k1 k2 dst http res :
  ensureFilters (generateHTTPRouteFilters route) k = (k1, Ok tt) → currentHTTPRoute route k1 = Ok (dst, true) →
  newHTTPRoute rangePolicies stdjson_Marshal sha256 rootPrefix dst route = (http, res) → (∀ p, res ≠ Panic p) → http ≠ dst →
  update_HTTPRoute k1 http = (k2, Ok tt) →
  (syncRoute rangePolicies stdjson_Marshal sha256 rootPrefix route k).1 = (syncGateways route k2).1 ∧
  ∀ hr br, hr ∈ ht_Rules http → br ∈ hr_BackendRefs hr →
    ∃ rule ref, rule ∈ ar_Rules route ∧ ref ∈ ru_BackendRefs rule ∧ httpBackendRef route ref = Ok br ∧
      let ns := GetNamespace ref (ar_Namespace route) in
      (Contains ns "." = false → permitted grants routeKind (ar_Namespace route) (refKind ref) ns (rb_Name ref)).
Proof using GL namespaces.
  intros He Hc Hn Hp Hne Hu. split.
  - unfold syncRoute. rewrite He, Hc, Hn. destruct res as [?|?|s]; [| |by destruct (Hp s)]; rewrite Hu; cbn; destruct (syncGateways route k2) as [k3 [[]| |]]; done.
  - intros hr br Hr Hb. destruct (newHTTPRoute_refs _ _ _ _ Hn) as [[-> _]|Hrefs]; [done|]. destruct (Hrefs hr br Hr Hb) as (rule & ref & ? & ? & Href).
    exists rule, ref. split_and!; [done..|]. cbv zeta. intros Hdot. apply validateBackendRef_ok; [done|done|by eapply httpBackendRef_validated|done].
Qed.
End References.
