(* ===== verification/ExtServer.v ===== *)
(** * The extension server on clusters, routes and listeners

    Models [internal/extensionserver]: the edits of the xDS resources that Envoy
    Gateway generated from the HTTPRoutes ([post_translate_modify.go],
    [forward_proxy.go], [inferencepool.go], [post_cluster_modify.go],
    [post_route_modify.go]).  The quota part is in [QuotaRoutes], the filters of
    listeners and the MCP resources are in [XdsListeners].  Messages carry the fields the code
    reads or decides on; constants such as window sizes, buffer limits and the health
    status are left out, and so are the texts of the errors of net and strconv.  The
    marshalling of a message to [Any] and the Kubernetes client
    are classes, [net.ParseIP] and [time.ParseDuration] are arguments.  Log lines are
    left out. *)

From Stdlib Require Import Ascii ZArith Lia.
From stdpp Require Import base gmap strings list sorting.
From S2P Require Import Prelude GoStrings GoNum InternalApi Kube RateLimit GoCodec FilterApi EnvoyTypes ExtProcBuilder QuotaRoutes.

(** ** Names *)

Definition InternalEndpointMetadataNamespace : string := "aigateway.envoy.io".
Definition InternalMetadataBackendNameKey : string := "per_route_rule_backend_name".
Definition InternalMetadataUpstreamHostKey : string := "upstream_host".
Definition InternalMetadataRouteNameKey : string := "aigw_route_name".
Definition extProcUDSClusterName : string := "ai-gateway-extproc-uds".
Definition aiGatewayExtProcName : string := "envoy.filters.http.ext_proc/aigateway".
Definition aiGatewayHeaderMutationName : string := "envoy.filters.http.header_mutation".
Definition upstreamCodecName : string := "envoy.filters.http.upstream_codec".
Definition internalMetadataInferencePoolKey : string := "per_route_rule_inference_pool".

(** [noBackendRefIndex] is [None]. *)
Record aiGatewayClusterName := { an_namespace : string; an_routeName : string; an_ruleIndex : nat; an_backendRefIndex : option nat }.

(** A non-negative [strconv.Atoi]. *)
Definition atoiIndex (what s : string) : outcome nat :=
  match ParseInt64 s with
  | Some i => if (i <? 0)%Z then Fail (errors_New ("invalid HTTPRoute " +:+ what +:+ " index " +:+ Quote s)) else Ok (Z.to_nat i)
  | None => Fail (errors_New ("invalid HTTPRoute " +:+ what +:+ " index " +:+ Quote s))
  end.

Definition parseAIGatewayClusterName (name : string) : outcome aiGatewayClusterName :=
  let invalid := Fail (errors_New ("invalid AIGatewayRoute cluster name " +:+ Quote name)) in
  let rule namespace routeName index k :=
    let! ruleIndex := atoiIndex "rule" index in
    k {| an_namespace := namespace; an_routeName := routeName; an_ruleIndex := ruleIndex; an_backendRefIndex := None |} in
  match Split name "/" with
  | [h; namespace; routeName; r; index] =>
      if bool_decide (h = "httproute") && bool_decide (r = "rule") then rule namespace routeName index Ok else invalid
  | [h; namespace; routeName; r; index; b; backend] =>
      if bool_decide (h = "httproute") && bool_decide (r = "rule") then
        rule namespace routeName index (λ n,
          if bool_decide (b ≠ "backend") then Fail (errors_New ("invalid AIGatewayRoute backend cluster name " +:+ Quote name))
          else
            let! backendRefIndex := atoiIndex "backend" backend in
            Ok {| an_namespace := namespace; an_routeName := routeName; an_ruleIndex := an_ruleIndex n; an_backendRefIndex := Some backendRefIndex |})
      else invalid
  | _ => invalid
  end.

Definition hasAIGatewayClusterName (c : Cluster) : bool := is_ok (parseAIGatewayClusterName (cl_Name c)).

(** ** Metadata *)

(** A field of the struct of the AI Gateway in a metadata. *)
Definition setInternalField (key : string) (v : Value) (m : option Metadata) : option Metadata :=
  let m := default ∅ m in
  Some (<[InternalEndpointMetadataNamespace := <[key := v]> (default ∅ (m !! InternalEndpointMetadataNamespace))]> m).

Definition setMetadata (m : option Metadata) (c : Cluster) : Cluster :=
  {| cl_Name := cl_Name c; cl_Type := cl_Type c; cl_LbPolicy := cl_LbPolicy c; cl_ConnectTimeout := cl_ConnectTimeout c; cl_Http2 := cl_Http2 c;
     cl_OriginalDstHeader := cl_OriginalDstHeader c; cl_Metadata := m; cl_LoadAssignment := cl_LoadAssignment c; cl_TransportSocket := cl_TransportSocket c;
     cl_TransportSocketMatches := cl_TransportSocketMatches c; cl_ProtocolOptions := cl_ProtocolOptions c |}.
Definition setLoadAssignment (l : option (list LocalityLbEndpoints)) (c : Cluster) : Cluster :=
  {| cl_Name := cl_Name c; cl_Type := cl_Type c; cl_LbPolicy := cl_LbPolicy c; cl_ConnectTimeout := cl_ConnectTimeout c; cl_Http2 := cl_Http2 c;
     cl_OriginalDstHeader := cl_OriginalDstHeader c; cl_Metadata := cl_Metadata c; cl_LoadAssignment := l; cl_TransportSocket := cl_TransportSocket c;
     cl_TransportSocketMatches := cl_TransportSocketMatches c; cl_ProtocolOptions := cl_ProtocolOptions c |}.
Definition setSockets (s : option TransportSocket) (l : list (option TransportSocket)) (c : Cluster) : Cluster :=
  {| cl_Name := cl_Name c; cl_Type := cl_Type c; cl_LbPolicy := cl_LbPolicy c; cl_ConnectTimeout := cl_ConnectTimeout c; cl_Http2 := cl_Http2 c;
     cl_OriginalDstHeader := cl_OriginalDstHeader c; cl_Metadata := cl_Metadata c; cl_LoadAssignment := cl_LoadAssignment c; cl_TransportSocket := s;
     cl_TransportSocketMatches := l; cl_ProtocolOptions := cl_ProtocolOptions c |}.
Definition setProtocolOptions (po : HttpProtocolOptions) (c : Cluster) : Cluster :=
  {| cl_Name := cl_Name c; cl_Type := cl_Type c; cl_LbPolicy := cl_LbPolicy c; cl_ConnectTimeout := cl_ConnectTimeout c; cl_Http2 := cl_Http2 c;
     cl_OriginalDstHeader := cl_OriginalDstHeader c; cl_Metadata := cl_Metadata c; cl_LoadAssignment := cl_LoadAssignment c;
     cl_TransportSocket := cl_TransportSocket c; cl_TransportSocketMatches := cl_TransportSocketMatches c; cl_ProtocolOptions := Some (inr po) |}.

Definition setClusterMetadataBackendName (c : Cluster) (namespace name routeName : string) (routeRuleIndex refIndex : nat) : Cluster :=
  setMetadata (setInternalField InternalMetadataBackendNameKey
    (VString (PerRouteRuleRefBackendName namespace name routeName routeRuleIndex refIndex)) (cl_Metadata c)) c.

Definition setEndpointField (key : string) (v : Value) (e : LbEndpoint) : LbEndpoint :=
  {| le_Endpoint := le_Endpoint e; le_Metadata := setInternalField key v (le_Metadata e) |}.

Definition setEndpointMetadataBackendName (e : LbEndpoint) (namespace name routeName : string) (routeRuleIndex refIndex : nat) : LbEndpoint :=
  setEndpointField InternalMetadataBackendNameKey (VString (PerRouteRuleRefBackendName namespace name routeName routeRuleIndex refIndex)) e.

Definition setEndpointMetadataUpstreamHost (e : LbEndpoint) (host : string) : LbEndpoint :=
  setEndpointField InternalMetadataUpstreamHostKey (VString host) e.

(** ** Inference pools *)

(** A pool with its endpoint picker: the service and its port. *)
Record InferencePool := {
  ip_Namespace : string;
  ip_Name : string;
  ip_AppProtocol : string;
  ip_EndpointPicker : option (string * option Z);
  ip_Annotations : gmap string string;
}.

Definition defaultEndpointPickerPort : Z := 9002.
Definition processingBodyModeAnnotation : string := "aigateway.envoyproxy.io/processing-body-mode".
Definition allowModeOverrideAnnotation : string := "aigateway.envoyproxy.io/allow-mode-override".

(** [strconv.ParseInt(s, 10, 32)]. *)
Definition ParseInt32 (s : string) : option Z :=
  n ← ParseInt64 s; if (- 2 ^ 31 <=? n)%Z && (n <? 2 ^ 31)%Z then Some n else None.

Definition getInferencePoolByMetadata (meta : option Metadata) : option InferencePool :=
  let metadata := GetStringValue (m ← meta; f ← m !! InternalEndpointMetadataNamespace; f !! internalMetadataInferencePoolKey) in
  match Split metadata "/" with
  | [ns; name; serviceName; port; processingBodyMode; allowModeOverride] =>
      port ← ParseInt32 port;
      Some {| ip_Namespace := ns; ip_Name := name; ip_AppProtocol := ""; ip_EndpointPicker := Some (serviceName, Some port);
              ip_Annotations := <[processingBodyModeAnnotation := processingBodyMode]> {[allowModeOverrideAnnotation := allowModeOverride]} |}
  | _ => None
  end.

(** The picker of a pool that has one. *)
Definition pickerService (pool : InferencePool) : string := default "" (fst <$> ip_EndpointPicker pool).

Definition portForInferencePool (pool : InferencePool) : Z :=
  match ip_EndpointPicker pool ≫= snd with
  | Some p => if (p <? 0)%Z || (65535 <? p)%Z then defaultEndpointPickerPort else p
  | None => defaultEndpointPickerPort
  end.

Definition getProcessingBodyModeStringFromAnnotations (pool : InferencePool) : string :=
  default "duplex" (ip_Annotations pool !! processingBodyModeAnnotation).
Definition getAllowModeOverrideStringFromAnnotations (pool : InferencePool) : string :=
  default "false" (ip_Annotations pool !! allowModeOverrideAnnotation).
Definition getProcessingBodyModeFromAnnotations (pool : InferencePool) : BodySendMode :=
  if bool_decide (ip_Annotations pool !! processingBodyModeAnnotation = Some "buffered") then BodyBuffered else BodyFullDuplexStreamed.
Definition getAllowModeOverrideFromAnnotations (pool : InferencePool) : bool :=
  bool_decide (ip_Annotations pool !! allowModeOverrideAnnotation = Some "true").

Definition clusterRefInferencePool (namespace name serviceName : string) (servicePort : Z) (bodyMode allowModeOverride : string) : string :=
  namespace +:+ "/" +:+ name +:+ "/" +:+ serviceName +:+ "/" +:+ Itoa servicePort +:+ "/" +:+ bodyMode +:+ "/" +:+ allowModeOverride.

Definition buildEPPMetadata (metadata : option Metadata) (pool : InferencePool) : option Metadata :=
  setInternalField internalMetadataInferencePoolKey
    (VString (clusterRefInferencePool (ip_Namespace pool) (ip_Name pool) (pickerService pool) (portForInferencePool pool)
       (getProcessingBodyModeStringFromAnnotations pool) (getAllowModeOverrideStringFromAnnotations pool))) metadata.

Definition authorityForInferencePool (pool : InferencePool) : string :=
  pickerService pool +:+ "." +:+ ip_Namespace pool +:+ ".svc:" +:+ Itoa (portForInferencePool pool).
Definition dnsNameForInferencePool (pool : InferencePool) : string := pickerService pool +:+ "." +:+ ip_Namespace pool +:+ ".svc".
Definition clusterNameForInferencePool (pool : InferencePool) : string :=
  "envoy.clusters.endpointpicker_" +:+ ip_Name pool +:+ "_" +:+ ip_Namespace pool +:+ "_ext_proc".
Definition httpFilterNameForInferencePool (pool : InferencePool) : string :=
  "envoy.filters.http.ext_proc/endpointpicker/" +:+ ip_Name pool +:+ "_" +:+ ip_Namespace pool +:+ "_ext_proc".

(** [toAny] of a message; an error is from the protobuf library. *)
Class ToAny := {
  any_Filter : FilterConfig → outcome unit;
  any_ProtocolOptions : HttpProtocolOptions → outcome unit;
  any_Socket : TransportSocket → outcome unit;
  any_HCM : HttpConnectionManager → outcome unit;
  any_PerRoute : PerFilterConfig → outcome unit;
  any_Route : Route → outcome unit;
}.

Section Pools.
Context `{TA : !ToAny}.

(** The TLS socket accepts any certificate. *)
Definition pickerSocket : TransportSocket := Socket "envoy.transport_sockets.tls" "UpstreamTlsContext".

Definition buildExtProcClusterForInferencePoolEndpointPicker (pool : InferencePool) : outcome Cluster :=
  let name := clusterNameForInferencePool pool in
  let options := {| po_Http2 := true; po_HttpFilters := [] |} in
  let! _ := owrap ("failed to build TLS context for InferencePool cluster " +:+ name +:+ ": ") (any_Socket pickerSocket) in
  let! _ := owrap ("failed to build HTTP2 options for InferencePool cluster " +:+ name +:+ ": ") (any_ProtocolOptions options) in
  Ok (endpointCluster name "STRICT_DNS" "LEAST_REQUEST" 10 false
        {| en_Hostname := ""; en_Address := dnsNameForInferencePool pool; en_Port := Z.to_N (portForInferencePool pool); en_Pipe := "" |} (Some pickerSocket) (Some options)).

Definition buildClustersForInferencePoolEndpointPickers (clusters : list Cluster) : outcome (list Cluster) :=
  omapM buildExtProcClusterForInferencePoolEndpointPicker (omap (λ c, getInferencePoolByMetadata (cl_Metadata c)) clusters).

Definition AppProtocolH2C : string := "kubernetes.io/h2c".

Definition httpProtocolOptionsForInferencePoolBackend (pool : InferencePool) : outcome HttpProtocolOptions :=
  let options := {| po_Http2 := bool_decide (ip_AppProtocol pool = AppProtocolH2C); po_HttpFilters := [] |} in
  let! _ := owrap ("failed to build HTTP protocol options for InferencePool " +:+ ip_Namespace pool +:+ "/" +:+ ip_Name pool +:+ ": ")
    (any_ProtocolOptions options) in
  Ok options.

Definition buildHTTPFilterForInferencePool (pool : InferencePool) : ExternalProcessor :=
  {| xp_Cluster := clusterNameForInferencePool pool; xp_Authority := authorityForInferencePool pool; xp_Timeout := None;
     xp_ReceivingNamespaces := []; xp_ForwardingNamespaces := []; xp_RequestAttributes := []; xp_RequestHeaderMode := HeaderSend;
     xp_RequestBodyMode := getProcessingBodyModeFromAnnotations pool; xp_RequestTrailerMode := HeaderSend; xp_ResponseHeaderMode := HeaderSend;
     xp_ResponseBodyMode := getProcessingBodyModeFromAnnotations pool; xp_ResponseTrailerMode := HeaderSend; xp_MessageTimeout := 300;
     xp_FailureModeAllow := false; xp_AllowModeOverride := getAllowModeOverrideFromAnnotations pool |}.

Definition buildInferencePoolHTTPFilter (pool : InferencePool) : outcome HttpFilter :=
  let config := ExtProcFilter (buildHTTPFilterForInferencePool pool) in
  let! _ := owrap ("failed to build HTTP filter for InferencePool " +:+ ip_Namespace pool +:+ "/" +:+ ip_Name pool +:+ ": ") (any_Filter config) in
  Ok {| hf_Name := httpFilterNameForInferencePool pool; hf_Disabled := false; hf_Config := config |}.

(** The cluster of a pool goes to the address the endpoint picker chose. *)
Definition handleInferencePoolCluster (c : Cluster) (pool : InferencePool) : outcome Cluster :=
  let! options := httpProtocolOptionsForInferencePoolBackend pool in
  Ok {| cl_Name := cl_Name c; cl_Type := "ORIGINAL_DST"; cl_LbPolicy := "CLUSTER_PROVIDED"; cl_ConnectTimeout := 10; cl_Http2 := cl_Http2 c;
        cl_OriginalDstHeader := Some EndpointPickerHeaderKey; cl_Metadata := buildEPPMetadata (cl_Metadata c) pool;
        cl_LoadAssignment := cl_LoadAssignment c; cl_TransportSocket := cl_TransportSocket c; cl_TransportSocketMatches := cl_TransportSocketMatches c;
        cl_ProtocolOptions := Some (inr options) |}.

(** The pools among the extension resources of the request. *)
Definition PostClusterModify (cluster : option Cluster) (pools : list InferencePool) : outcome (option Cluster) :=
  match cluster, pools with
  | None, _ => Ok None
  | Some c, [] => Ok (Some c)
  | Some c, [pool] => match ip_EndpointPicker pool with None => Ok (Some c) | Some _ => let! c := handleInferencePoolCluster c pool in Ok (Some c) end
  | Some _, _ => Fail (errors_New "BUG: at most one inferencepool can be referenced per route rule")
  end.

Definition PostRouteModify (route : option Route) (pools : list InferencePool) : outcome (option Route) :=
  match route, pools with
  | None, _ => Ok None
  | Some r, [] => Ok (Some r)
  | Some r, [pool] =>
      match ro_Action r with
      | None => Fail (errors_New ("cannot configure InferencePool " +:+ ip_Namespace pool +:+ "/" +:+ ip_Name pool +:+ " on non-forwarding route " +:+ Quote (ro_Name r)))
      | Some _ =>
          match ip_EndpointPicker pool with
          | None => Ok (Some r)
          | Some _ => Ok (Some {| ro_Name := ro_Name r; ro_Metadata := buildEPPMetadata (ro_Metadata r) pool; ro_Action := ro_Action r;
                                  ro_TypedPerFilterConfig := ro_TypedPerFilterConfig r; ro_AutoHostRewrite := Some false;
                                  ro_PerTryIdleTimeout := ro_PerTryIdleTimeout r; ro_RequestHeadersToAdd := ro_RequestHeadersToAdd r |})
          end
      end
  | Some _, _ => Fail (errors_New ("BUG: at most one inferencepool can be referenced per route rule but found " +:+ itoa (length pools)))
  end.
End Pools.

(** ** Configuration of a Gateway *)

(** [client.Get] of a Gateway's annotations, a configuration and a route; the kind of
    a parent reference is not kept: parents are Gateways. *)
Class XdsClient := {
  xds_GatewayAnnotations : string → string → outcome (gmap string string);
  xds_GatewayConfig : string → string → outcome GatewayConfig;
  xds_AIGatewayRoute : string → string → outcome AIGatewayRoute;
}.

(** A read whose object may be missing. *)
Definition optionalRead {A} (what : string) (r : outcome A) : outcome (option A) :=
  match r with
  | Ok a => Ok (Some a)
  | Fail e => if errors_Is e KubeNotFound then Ok None else Fail (Errorf_w what e)
  | Panic p => Panic p
  end.

Section Clusters.
Context `{TA : !ToAny, XC : !XdsClient} (net_ParseIP : string → bool).

Definition gatewayConfigForGateway (gatewayName gatewayNamespace : string) : outcome (option GatewayConfig) :=
  let! gateway := optionalRead ("failed to get Gateway " +:+ gatewayNamespace +:+ "/" +:+ gatewayName +:+ ": ")
    (xds_GatewayAnnotations gatewayNamespace gatewayName) in
  match gateway with
  | None => Ok None
  | Some annotations =>
      let configName := mget annotations GatewayConfigAnnotationKey in
      if bool_decide (configName = "") then Ok None
      else optionalRead ("failed to get GatewayConfig " +:+ gatewayNamespace +:+ "/" +:+ configName +:+ ": ") (xds_GatewayConfig gatewayNamespace configName)
  end.

(** ** Forward proxy *)

Definition http11ProxyTransportSocketName : string := "envoy.transport_sockets.http_11_proxy".

Definition forwardProxyAddrForGateway (gatewayName gatewayNamespace : string) : outcome string :=
  let! gatewayConfig := gatewayConfigForGateway gatewayName gatewayNamespace in
  Ok (default "" (gatewayConfig ≫= gc_ForwardProxy)).

(** The first address that is set. *)
Definition resolveForwardProxyAddr (route : AIGatewayRoute) : outcome string :=
  ofold (λ resolved p,
    let! addr := forwardProxyAddrForGateway (pa_Name p) (default (ar_Namespace route) (pa_Namespace p)) in
    Ok (if bool_decide (resolved = "") then addr else resolved)) "" (ar_ParentRefs route).

(** [net.SplitHostPort] of the text to the last colon; a host in brackets loses them. *)
Definition splitHostPort (addr : string) : option (string * string) :=
  i ← LastIndex addr ":";
  let port := str_drop (S i) addr in
  match addr with
  | String "[" rest =>
      e ← Index addr "]";
      if bool_decide (S e = i) && negb (Contains rest "[") && negb (Contains (str_drop (S e) addr) "]") then Some (str_drop 1 (str_take e addr), port) else None
  | _ =>
      let host := str_take i addr in
      if Contains host ":" || Contains addr "[" || Contains addr "]" then None else Some (host, port)
  end.

(** [strconv.ParseUint(s, 10, 16)]. *)
Definition ParseUint16 (s : string) : option Z :=
  if bool_decide (s = "") then None
  else v ← parse_digits 0 s; if (v <=? 65535)%Z then Some v else None.

(** [strconv.ParseUint(s, 10, 32)]. *)
Definition ParseUint32 (s : string) : option Z :=
  if bool_decide (s = "") then None
  else v ← parse_digits 0 s; if (v <? 2 ^ 32)%Z then Some v else None.

Definition defaultQuotaRateLimitServicePort : Z := 8081.

(** The text of the error of [net.SplitHostPort] is left out. *)
Definition parseHostPort (hostPort : string) : outcome (string * Z) :=
  match splitHostPort hostPort with
  | None =>
      if bool_decide (hostPort ≠ "") && (negb (Contains hostPort ":") || net_ParseIP hostPort) then Ok (hostPort, defaultQuotaRateLimitServicePort)
      else Fail (errors_New "invalid host:port: ")
  | Some (host, portStr) =>
      if bool_decide (host = "") then Fail (errors_New "host must be non-empty")
      else
        match ParseUint32 portStr with
        | None => Fail (errors_New ("invalid port " +:+ Quote portStr))
        | Some port => if (port =? 0)%Z then Fail (errors_New "port must be non-zero") else Ok (host, port)
        end
  end.

(** [New]. *)
Definition newServer (udsPath : string) (isStandAloneMode : bool) (requestHeaderAttributes logRequestHeaderAttributes : option string)
    (quotaRateLimitServiceAddr : string) (quotaRateLimitTimeout : Z) (quotaRateLimitFailureModeDeny : bool) : outcome Server :=
  let! logAttrs := ResolveLog requestHeaderAttributes logRequestHeaderAttributes in
  let! hp := owrap ("invalid quotaRateLimitServiceAddr " +:+ Quote quotaRateLimitServiceAddr +:+ ": ") (parseHostPort quotaRateLimitServiceAddr) in
  Ok {| sv_udsPath := udsPath; sv_isStandAloneMode := isStandAloneMode; sv_logRequestHeaderAttributes := logAttrs;
        sv_quotaRateLimitServiceHost := hp.1; sv_quotaRateLimitServicePort := Z.to_N hp.2; sv_quotaRateLimitTimeout := quotaRateLimitTimeout;
        sv_quotaRateLimitFailureModeDeny := quotaRateLimitFailureModeDeny |}.

Definition parseForwardProxyAddress (addr : string) : outcome (string * Z) :=
  match splitHostPort addr with
  | None => Fail (errors_New "expected host:port")
  | Some (host, portStr) =>
      if bool_decide (host = "") then Fail (errors_New "host must not be empty")
      else
        match ParseUint16 portStr with
        | None => Fail (errors_New ("invalid port " +:+ Quote portStr))
        | Some port => if (port =? 0)%Z then Fail (errors_New "port must be non-zero") else Ok (host, port)
        end
  end.

Definition socketName (s : TransportSocket) : string := match s with Socket name _ => name | Http11Proxy _ _ _ => http11ProxyTransportSocketName end.

Definition wrapTransportSocket (inner : option TransportSocket) (proxy : string * Z) : outcome TransportSocket :=
  let wrap := let s := Http11Proxy inner proxy.1 proxy.2 in
              let! _ := owrap "failed to marshal http_11_proxy transport socket: " (any_Socket s) in Ok s in
  match inner with
  | Some s => if bool_decide (socketName s = http11ProxyTransportSocketName) then Ok s else wrap
  | None => wrap
  end.

Definition wrapClusterInForwardProxy (c : Cluster) (proxy : string * Z) : outcome Cluster :=
  let wrapSome s := match s with None => Ok None | Some s => let! s := wrapTransportSocket (Some s) proxy in Ok (Some s) end in
  let! socket := wrapSome (cl_TransportSocket c) in
  let! matches := omapM wrapSome (cl_TransportSocketMatches c) in
  if bool_decide (is_Some socket) || existsb (λ s, bool_decide (is_Some s)) matches then Ok (setSockets socket matches c)
  else let! s := wrapTransportSocket None proxy in Ok (setSockets (Some s) matches c).

Definition maybeWrapClusterInForwardProxy (c : Cluster) (route : AIGatewayRoute) : outcome Cluster :=
  let! addr := resolveForwardProxyAddr route in
  if bool_decide (addr = "") then Ok c
  else
    let! proxy := owrap ("invalid forward proxy address " +:+ Quote addr +:+ " for cluster " +:+ cl_Name c +:+ ": ") (parseForwardProxyAddress addr) in
    wrapClusterInForwardProxy c proxy.

(** ** Endpoints *)

Definition endpointUpstreamHost (e : LbEndpoint) : string :=
  match le_Endpoint e with
  | None => ""
  | Some e => if bool_decide (en_Hostname e ≠ "") then en_Hostname e
              else if bool_decide (en_Address e ≠ "") && negb (net_ParseIP (en_Address e)) then en_Address e else ""
  end.

Definition stampUpstreamHostMetadata (e : LbEndpoint) : LbEndpoint :=
  let host := endpointUpstreamHost e in if bool_decide (host ≠ "") then setEndpointMetadataUpstreamHost e host else e.

(** The endpoints of one reference. *)
Definition stampGroup (route : AIGatewayRoute) (ruleIndex refIndex : nat) (ref : AIGatewayRouteRuleBackendRef) (g : LocalityLbEndpoints) : LocalityLbEndpoints :=
  {| ll_Priority := default (ll_Priority g) (rb_Priority ref);
     ll_LbEndpoints := (λ e, stampUpstreamHostMetadata (setEndpointMetadataBackendName e (ar_Namespace route) (rb_Name ref) (ar_Name route) ruleIndex refIndex)) <$>
                       ll_LbEndpoints g |}.

(** References with a weight of zero have no group; the references that are left when
    the groups run out are not visited. *)
Fixpoint stampGroups (route : AIGatewayRoute) (ruleIndex : nat) (refs : list (nat * AIGatewayRouteRuleBackendRef)) (groups : list LocalityLbEndpoints) :
    list LocalityLbEndpoints :=
  match refs with
  | [] => groups
  | (i, ref) :: refs =>
      if bool_decide (rb_Weight ref = Some 0%Z) then stampGroups route ruleIndex refs groups
      else
        match groups with
        | [] => []
        | g :: groups => stampGroup route ruleIndex i ref g :: stampGroups route ruleIndex refs groups
        end
  end.

(** ** Filters of a cluster *)

Definition upstreamExtProc (metadataForwardingNamespaces : list string) : ExternalProcessor :=
  {| xp_Cluster := extProcUDSClusterName; xp_Authority := ""; xp_Timeout := Some 30%Z; xp_ReceivingNamespaces := [AIGatewayFilterMetadataNamespace];
     xp_ForwardingNamespaces := metadataForwardingNamespaces;
     xp_RequestAttributes := [XDSUpstreamHostMetadataBackendNamePath; XDSClusterMetadataBackendNamePath; XDSUpstreamHostMetadataUpstreamHostPath;
                              XDSRouteMetadataRouteNamePath];
     xp_RequestHeaderMode := HeaderSend; xp_RequestBodyMode := BodyNone; xp_RequestTrailerMode := HeaderDefault; xp_ResponseHeaderMode := HeaderSkip;
     xp_ResponseBodyMode := BodyNone; xp_ResponseTrailerMode := HeaderDefault; xp_MessageTimeout := 10; xp_FailureModeAllow := false;
     xp_AllowModeOverride := true |}.

Definition contentLengthMutation : FilterConfig := AddIfAbsent "content-length" ("%DYNAMIC_METADATA(" +:+ AIGatewayFilterMetadataNamespace +:+ ":content_length)%").

(** The two filters go before the last one, which is the upstream codec. *)
Definition addUpstreamFilters (extProc headerMutation : HttpFilter) (filters : list HttpFilter) : list HttpFilter :=
  match last filters with
  | Some codec => removelast filters ++ [extProc; headerMutation; codec]
  | None => [extProc; headerMutation; {| hf_Name := upstreamCodecName; hf_Disabled := false; hf_Config := UpstreamCodec |}]
  end.

Definition configureUpstreamFilters (metadataForwardingNamespaces : list string) (c : Cluster) : outcome Cluster :=
  let! po := match cl_ProtocolOptions c with
             | Some (inr po) => Ok po
             | Some (inl _) => Fail (errors_New "failed to unmarshal HttpProtocolOptions")
             | None => Ok {| po_Http2 := false; po_HttpFilters := [] |}
             end in
  let kept := filter (λ f, hf_Name f ≠ aiGatewayExtProcName ∧ hf_Name f ≠ aiGatewayHeaderMutationName) (po_HttpFilters po) in
  let extProcConfig := ExtProcFilter (upstreamExtProc metadataForwardingNamespaces) in
  let! _ := owrap "failed to marshal ExternalProcessor to Any: " (any_Filter extProcConfig) in
  let! _ := owrap "failed to marshal HeaderMutation to Any: " (any_Filter contentLengthMutation) in
  let! _ := if bool_decide (kept = []) then owrap "failed to marshal UpstreamCodec to Any: " (any_Filter UpstreamCodec) else Ok tt in
  let po := {| po_Http2 := po_Http2 po;
               po_HttpFilters := addUpstreamFilters {| hf_Name := aiGatewayExtProcName; hf_Disabled := false; hf_Config := extProcConfig |}
                 {| hf_Name := aiGatewayHeaderMutationName; hf_Disabled := false; hf_Config := contentLengthMutation |} kept |} in
  let! _ := owrap "failed to marshal HttpProtocolOptions to Any: " (any_ProtocolOptions po) in
  Ok (setProtocolOptions po c).

(** ** Clusters *)

(** An index past the references is a panic. *)
Definition refAt (rule : AIGatewayRouteRule) (i : nat) : outcome AIGatewayRouteRuleBackendRef :=
  match ru_BackendRefs rule !! i with Some ref => Ok ref | None => Panic "index out of range" end.

(** The name of the backend on the cluster or on its endpoints. *)
Definition stampCluster (route : AIGatewayRoute) (rule : AIGatewayRouteRule) (ruleIndex : nat) (backendRefIndex : option nat) (c : Cluster) : outcome Cluster :=
  let stampName i := let! ref := refAt rule i in
    Ok (setClusterMetadataBackendName c (ar_Namespace route) (rb_Name ref) (ar_Name route) ruleIndex i) in
  match getInferencePoolByMetadata (cl_Metadata c) with
  | Some _ => stampName (default 0 backendRefIndex)
  | None =>
      match cl_LoadAssignment c with
      | None => if bool_decide (ru_BackendRefs rule = []) then Ok c else stampName (default 0 backendRefIndex)
      | Some groups =>
          match backendRefIndex with
          | Some i => let! ref := refAt rule i in Ok (setLoadAssignment (Some (stampGroup route ruleIndex i ref <$> groups)) c)
          | None => Ok (setLoadAssignment (Some (stampGroups route ruleIndex (imap pair (ru_BackendRefs rule)) groups)) c)
          end
      end
  end.

Definition maybeModifyCluster (metadataForwardingNamespaces : list string) (c : Cluster) : outcome Cluster :=
  match parseAIGatewayClusterName (cl_Name c) with
  | Ok n =>
      match xds_AIGatewayRoute (an_namespace n) (an_routeName n) with
      | Fail e => if errors_Is e KubeNotFound then Ok c else Fail e
      | Panic p => Panic p
      | Ok route =>
          match ar_Rules route !! an_ruleIndex n with
          | None => Ok c
          | Some rule =>
              if match an_backendRefIndex n with Some i => length (ru_BackendRefs rule) <=? i | None => false end then Ok c
              else
                let! stamped := stampCluster route rule (an_ruleIndex n) (an_backendRefIndex n) c in
                let! wrapped := match getInferencePoolByMetadata (cl_Metadata c) with
                                | Some _ => Ok stamped
                                | None => owrap ("failed to configure forward proxy for cluster " +:+ cl_Name c +:+ ": ") (maybeWrapClusterInForwardProxy stamped route)
                                end in
                configureUpstreamFilters metadataForwardingNamespaces wrapped
          end
      end
  | _ => Ok c
  end.
End Clusters.
