(* ===== verification/XdsListeners.v ===== *)
(** * The extension server on listeners and routes

    Models the rest of [internal/extensionserver]: the filters that are put on the
    listeners and turned on or off per route ([post_translate_modify.go],
    [header_to_metadata.go]), the listener and the routes of the MCP backends
    ([mcproute.go]), and [PostTranslateModify] as a whole.  Resources that Go shares by
    pointer are looked up by name in lists; the orders in which maps are ranged over
    are arguments.  The names of Envoy Gateway's filters are a class; log lines are
    left out. *)

From Stdlib Require Import Ascii ZArith Lia.
From stdpp Require Import base gmap strings list sorting.
From S2P Require Import Prelude GoStrings GoNum InternalApi Kube RateLimit GoCodec McpController McpPost FilterApi EnvoyTypes ExtProcBuilder QuotaRoutes ExtServer.

(** ** Fields of messages *)

Definition GetListValues (v : option Value) : list Value := match v with Some (VList l) => l | _ => [] end.

Definition setTypedPerFilterConfig (m : gmap string PerFilterConfig) (r : Route) : Route :=
  {| ro_Name := ro_Name r; ro_Metadata := ro_Metadata r; ro_Action := ro_Action r; ro_TypedPerFilterConfig := m;
     ro_AutoHostRewrite := ro_AutoHostRewrite r; ro_PerTryIdleTimeout := ro_PerTryIdleTimeout r; ro_RequestHeadersToAdd := ro_RequestHeadersToAdd r |}.
Definition setRouteMetadata (m : option Metadata) (r : Route) : Route :=
  {| ro_Name := ro_Name r; ro_Metadata := m; ro_Action := ro_Action r; ro_TypedPerFilterConfig := ro_TypedPerFilterConfig r;
     ro_AutoHostRewrite := ro_AutoHostRewrite r; ro_PerTryIdleTimeout := ro_PerTryIdleTimeout r; ro_RequestHeadersToAdd := ro_RequestHeadersToAdd r |}.
Definition setPerTryIdleTimeout (d : Z) (r : Route) : Route :=
  {| ro_Name := ro_Name r; ro_Metadata := ro_Metadata r; ro_Action := ro_Action r; ro_TypedPerFilterConfig := ro_TypedPerFilterConfig r;
     ro_AutoHostRewrite := ro_AutoHostRewrite r; ro_PerTryIdleTimeout := Some d; ro_RequestHeadersToAdd := ro_RequestHeadersToAdd r |}.
Definition addRequestHeaders (hs : list (string * string)) (r : Route) : Route :=
  {| ro_Name := ro_Name r; ro_Metadata := ro_Metadata r; ro_Action := ro_Action r; ro_TypedPerFilterConfig := ro_TypedPerFilterConfig r;
     ro_AutoHostRewrite := ro_AutoHostRewrite r; ro_PerTryIdleTimeout := ro_PerTryIdleTimeout r;
     ro_RequestHeadersToAdd := ro_RequestHeadersToAdd r ++ hs |}.
Definition setRoutes (rs : list Route) (vh : VirtualHost) : VirtualHost :=
  {| vh_Name := vh_Name vh; vh_Domains := vh_Domains vh; vh_Metadata := vh_Metadata vh; vh_Routes := rs |}.
Definition setVirtualHosts (vhs : list VirtualHost) (rc : RouteConfiguration) : RouteConfiguration :=
  {| rcf_Name := rcf_Name rc; rcf_VirtualHosts := vhs |}.
Definition setHttpFilters (fs : list HttpFilter) (hcm : HttpConnectionManager) : HttpConnectionManager :=
  {| hcm_HttpFilters := fs; hcm_Rds := hcm_Rds hcm; hcm_SchemeMatchUpstream := hcm_SchemeMatchUpstream hcm; hcm_AccessLog := hcm_AccessLog hcm |}.
Definition matchUpstream (hcm : HttpConnectionManager) : HttpConnectionManager :=
  {| hcm_HttpFilters := hcm_HttpFilters hcm; hcm_Rds := hcm_Rds hcm; hcm_SchemeMatchUpstream := true; hcm_AccessLog := hcm_AccessLog hcm |}.

(** The chains of a listener, the default one last, and the listener with new ones. *)
Definition chainsOf (ln : Listener) : list FilterChain := ln_FilterChains ln ++ option_list (ln_DefaultFilterChain ln).
Definition withChains (ln : Listener) (chains : list FilterChain) : Listener :=
  let n := length (ln_FilterChains ln) in
  {| ln_Name := ln_Name ln; ln_Address := ln_Address ln; ln_FilterChains := take n chains; ln_DefaultFilterChain := chains !! n |}.

(** The first and the last index that satisfies a test. *)
Definition firstIndex {A} (p : A → bool) (l : list A) : option nat := fst <$> list_find (λ a, p a = true) l.
Fixpoint lastIndex {A} (p : A → bool) (l : list A) : option nat :=
  match l with
  | [] => None
  | a :: l => match lastIndex p l with Some i => Some (S i) | None => if p a then Some 0 else None end
  end.

(** ** Gateways of a snapshot *)

Definition envoyGatewayMetadataNamespace : string := "envoy-gateway".
Definition envoyGatewayMetadataResourcesKey : string := "resources".

Definition egResources (m : option Metadata) : option Value := m ← m; eg ← m !! envoyGatewayMetadataNamespace; eg !! envoyGatewayMetadataResourcesKey.

Definition addGateway (gateways : list (string * string)) (resource : Value) : list (string * string) :=
  let fields := GetStructFields (Some resource) in
  let key := (GetStringValue (fields !! "namespace"), GetStringValue (fields !! "name")) in
  if bool_decide (GetStringValue (fields !! "kind") ≠ "Gateway") || bool_decide (key.1 = "") || bool_decide (key.2 = "") || bool_decide (key ∈ gateways)
  then gateways else gateways ++ [key].

(** Namespaces and names. *)
Definition gatewaysInSnapshot (routes : list RouteConfiguration) : list (string * string) :=
  foldl addGateway [] (r ← routes; vh ← rcf_VirtualHosts r; GetListValues (egResources (vh_Metadata vh))).

(** [slices.Compact]. *)
Fixpoint slices_Compact (l : list string) : list string :=
  match l with
  | x :: ((y :: _) as l') => if bool_decide (x = y) then slices_Compact l' else x :: slices_Compact l'
  | _ => l
  end.

Section Snapshot.
Context `{XC : !XdsClient}.

Definition metadataForwardingNamespacesForSnapshot (routes : list RouteConfiguration) : outcome (list string) :=
  let! namespaces := ofold (λ namespaces key,
    let! gatewayConfig := gatewayConfigForGateway key.2 key.1 in
    Ok (namespaces ++ default [] (ge_MetadataForwardingNamespaces <$> (gatewayConfig ≫= gc_ExtProc)))) [] (gatewaysInSnapshot routes) in
  Ok (slices_Compact (merge_sort String.le namespaces)).

(** ** Idle timeouts *)

Context (ParseDuration : string → option Z).

Definition GetStreamIdleTimeout (r : AIGatewayRouteRule) : Z :=
  match ru_StreamIdleTimeout r ≫= ParseDuration with
  | Some d => if (d <=? 0)%Z then 0%Z else d
  | None => 0%Z
  end.

(** Routes that were read, [None] for one that is not there. *)
Definition routeCache := gmap (string * string) (option AIGatewayRoute).

Definition retrieveAndCacheAIGatewayRoute (cache : routeCache) (key : string * string) : outcome (routeCache * option AIGatewayRoute) :=
  match cache !! key with
  | Some cached => Ok (cache, cached)
  | None =>
      match xds_AIGatewayRoute key.1 key.2 with
      | Ok r => Ok (<[key := Some r]> cache, Some r)
      | Fail e => if errors_Is e KubeNotFound then Ok (<[key := None]> cache, None)
                  else Fail (Errorf_w ("failed to get AIGatewayRoute " +:+ key.1 +:+ "/" +:+ key.2 +:+ ": ") e)
      | Panic p => Panic p
      end
  end.

(** The rule a route was generated from: its route and its index. *)
Definition ruleOfRouteName (name : string) : option (string * string * Z) :=
  match Split name "/" with
  | h :: ns :: rname :: r :: index :: _ =>
      if bool_decide (h = "httproute") && bool_decide (r = "rule") && bool_decide (ns ≠ "") && bool_decide (rname ≠ "")
      then pair (ns, rname) <$> ParseInt64 index else None
  | _ => None
  end.

(** A negative index is an access out of range. *)
Definition maybeSetStreamIdleTimeout (cache : routeCache) (route : Route) : outcome (routeCache * Route) :=
  match ro_Action route, ruleOfRouteName (ro_Name route) with
  | Some _, Some (key, ruleIndex) =>
      let! r := retrieveAndCacheAIGatewayRoute cache key in
      match r.2 with
      | None => Ok (r.1, route)
      | Some aigwRoute =>
          if (Z.of_nat (length (ar_Rules aigwRoute)) <=? ruleIndex)%Z then Ok (r.1, route)
          else if (ruleIndex <? 0)%Z then Panic "index out of range"
          else
            let timeout := default 0%Z (GetStreamIdleTimeout <$> ar_Rules aigwRoute !! Z.to_nat ruleIndex) in
            Ok (r.1, if (timeout <=? 0)%Z then route else setPerTryIdleTimeout timeout route)
      end
  | _, _ => Ok (cache, route)
  end.

(** A loop that keeps a cache. *)
Fixpoint cachedMap {A} (f : routeCache → A → outcome (routeCache * A)) (cache : routeCache) (l : list A) : outcome (routeCache * list A) :=
  match l with
  | [] => Ok (cache, [])
  | a :: l => let! r := f cache a in let! rs := cachedMap f r.1 l in Ok (rs.1, r.2 :: rs.2)
  end.

Definition applyStreamIdleTimeouts (routeConfigs : list RouteConfiguration) : outcome (list RouteConfiguration) :=
  let! r := cachedMap (λ cache rc,
    let! vhs := cachedMap (λ cache vh,
      let! rs := cachedMap maybeSetStreamIdleTimeout cache (vh_Routes vh) in Ok (rs.1, setRoutes rs.2 vh)) cache (rcf_VirtualHosts rc) in
    Ok (vhs.1, setVirtualHosts vhs.2 rc)) ∅ routeConfigs in
  Ok r.2.
End Snapshot.

(** ** Filters of the listeners *)

(** [EnvoyFilter] constants of Envoy Gateway. *)
Class EnvoyFilterNames := {
  EnvoyFilterBuffer : string;
  EnvoyFilterExtProc : string;
  EnvoyFilterWasm : string;
  EnvoyFilterLua : string;
  EnvoyFilterRBAC : string;
  EnvoyFilterLocalRateLimit : string;
  EnvoyFilterRateLimit : string;
  EnvoyFilterCustomResponse : string;
  EnvoyFilterCredentialInjector : string;
  EnvoyFilterCompressor : string;
  EnvoyFilterRouter : string;
}.

Section Filters.
Context `{TA : !ToAny, EF : !EnvoyFilterNames}.

Definition afterExtProcFilterPrefixes : list string :=
  [EnvoyFilterExtProc; EnvoyFilterWasm; EnvoyFilterLua; EnvoyFilterRBAC; EnvoyFilterLocalRateLimit; EnvoyFilterRateLimit;
   EnvoyFilterCustomResponse; EnvoyFilterCredentialInjector; EnvoyFilterCompressor; EnvoyFilterRouter].

Definition isAfterExtProc (f : HttpFilter) : bool := existsb (HasPrefix (hf_Name f)) afterExtProcFilterPrefixes.
Definition isBuffer (f : HttpFilter) : bool := HasPrefix (hf_Name f) EnvoyFilterBuffer.

Definition insertAIGatewayExtProcFilter (filters : list HttpFilter) (filter : HttpFilter) : outcome (list HttpFilter) :=
  match firstIndex isAfterExtProc filters with
  | None => Fail (errors_New "failed to find insertion point for AI Gateway extproc filter")
  | Some insertIndex =>
      let insertIndex := match lastIndex isBuffer filters with
                         | Some lastBufferIndex => if insertIndex <=? lastBufferIndex then S lastBufferIndex else insertIndex
                         | None => insertIndex
                         end in
      Ok (take insertIndex filters ++ filter :: drop insertIndex filters)
  end.

Definition shouldAIGatewayExtProcBeInserted (filters : list HttpFilter) : bool :=
  forallb (λ f, bool_decide (hf_Name f ≠ aiGatewayExtProcName)) filters.

Definition routerLevelExtProc : ExternalProcessor :=
  {| xp_Cluster := extProcUDSClusterName; xp_Authority := ""; xp_Timeout := None; xp_ReceivingNamespaces := [AIGatewayFilterMetadataNamespace];
     xp_ForwardingNamespaces := []; xp_RequestAttributes := []; xp_RequestHeaderMode := HeaderSend; xp_RequestBodyMode := BodyBuffered;
     xp_RequestTrailerMode := HeaderSkip; xp_ResponseHeaderMode := HeaderSend; xp_ResponseBodyMode := BodyBuffered;
     xp_ResponseTrailerMode := HeaderSkip; xp_MessageTimeout := 10; xp_FailureModeAllow := false; xp_AllowModeOverride := true |}.

(** Disabled; the routes turn it on. *)
Definition routerLevelFilter : HttpFilter := {| hf_Name := aiGatewayExtProcName; hf_Disabled := true; hf_Config := ExtProcFilter routerLevelExtProc |}.

(** A chain that has the filter ends the loop. *)
Fixpoint insertIntoChains (chains : list FilterChain) : outcome (list FilterChain) :=
  match chains with
  | [] => Ok []
  | c :: chains =>
      match fc_HCM c with
      | None => let! cs := insertIntoChains chains in Ok (c :: cs)
      | Some hcm =>
          if negb (shouldAIGatewayExtProcBeInserted (hcm_HttpFilters hcm)) then Ok (c :: chains)
          else
            let! _ := owrap "failed to marshal ExternalProcessor to Any: " (any_Filter (hf_Config routerLevelFilter)) in
            let! fs := owrap "failed to insert AI Gateway extproc filter: " (insertAIGatewayExtProcFilter (hcm_HttpFilters hcm) routerLevelFilter) in
            let hcm := matchUpstream (setHttpFilters fs hcm) in
            let! _ := owrap "failed to marshal updated HCM to Any: " (any_HCM hcm) in
            let! cs := insertIntoChains chains in Ok ({| fc_HCM := Some hcm |} :: cs)
      end
  end.

Definition insertRouterLevelAIGatewayExtProc (ln : Listener) : outcome Listener :=
  let! chains := insertIntoChains (chainsOf ln) in Ok (withChains ln chains).

(** *** Endpoint pickers *)

(** Whether the filter of the pool is there; one that does not decode is an error. *)
Fixpoint searchInferencePoolInFilterChain (pool : InferencePool) (chain : list HttpFilter) : outcome bool :=
  match chain with
  | [] => Ok false
  | f :: chain =>
      if bool_decide (hf_Name f = httpFilterNameForInferencePool pool)
      then match hf_Config f with ExtProcFilter _ => Ok true | _ => Fail (errors_New "failed to unmarshal ExternalProcessor") end
      else searchInferencePoolInFilterChain pool chain
  end.

(** The filters that are added; errors skip the pool. *)
Definition addPoolFilter (filters : list HttpFilter) (poolFilters : list HttpFilter) (pool : InferencePool) : outcome (list HttpFilter) :=
  if existsb (λ f, bool_decide (hf_Name f = httpFilterNameForInferencePool pool)) poolFilters then Ok poolFilters
  else
    match searchInferencePoolInFilterChain pool filters with
    | Ok false => match buildInferencePoolHTTPFilter pool with Ok f => Ok (poolFilters ++ [f]) | Fail _ => Ok poolFilters | Panic p => Panic p end
    | Ok true | Fail _ => Ok poolFilters
    | Panic p => Panic p
    end.

Definition patchChainWithPools (pools : list InferencePool) (c : FilterChain) : outcome FilterChain :=
  match fc_HCM c with
  | None => Ok c
  | Some hcm =>
      let filters := hcm_HttpFilters hcm in
      let! poolFilters := ofold (addPoolFilter filters) [] pools in
      let! filters :=
        match poolFilters, last filters with
        | [], _ => Ok filters
        | _, Some router => Ok (removelast filters ++ poolFilters ++ [router])
        | _, None => Panic "index out of range"
        end in
      let hcm := setHttpFilters filters hcm in
      match any_HCM hcm with
      | Ok _ => Ok {| fc_HCM := Some hcm |}
      | Fail _ => Ok c
      | Panic p => Panic p
      end
  end.

Definition patchListenerWithInferencePoolFilters (ln : Listener) (pools : list InferencePool) : outcome Listener :=
  let! chains := omapM (patchChainWithPools pools) (chainsOf ln) in Ok (withChains ln chains).

(** The pickers of the other pools are off on a route. *)
Definition disablePickers (pools : list InferencePool) (r : Route) : Route :=
  let own := httpFilterNameForInferencePool <$> getInferencePoolByMetadata (ro_Metadata r) in
  setTypedPerFilterConfig
    (foldr (λ key m, if bool_decide (Some key = own) then m else <[key := ExtProcDisabled]> m) (ro_TypedPerFilterConfig r)
       (httpFilterNameForInferencePool <$> pools)) r.

Definition patchVirtualHostWithInferencePool (pools : list InferencePool) (vh : VirtualHost) : outcome VirtualHost :=
  let! rs := omapM (λ r, let! _ := owrap "failed to marshal ExtProcPerRoute to Any: " (any_PerRoute ExtProcDisabled) in Ok (disablePickers pools r))
    (vh_Routes vh) in
  Ok (setRoutes rs vh).

(** *** The external processor on routes *)

Definition routeNameFromRouteConfigName (routeConfigName : string) : string :=
  match Split routeConfigName "/" with
  | h :: ns :: name :: _ => if bool_decide (h = "httproute") then ns +:+ "/" +:+ name else ""
  | _ => ""
  end.

Fixpoint resourceName (resources : list Value) : string :=
  match resources with
  | [] => ""
  | resource :: resources =>
      let fields := GetStructFields (Some resource) in
      let namespace := GetStringValue (fields !! "namespace") in
      let name := GetStringValue (fields !! "name") in
      if bool_decide (name = "") then resourceName resources
      else if bool_decide (namespace ≠ "") then namespace +:+ "/" +:+ name else name
  end.

Definition routeNameFromEnvoyGatewayMetadata (route : Route) : string := resourceName (GetListValues (egResources (ro_Metadata route))).

Definition routeNameFor (routeConfigName : string) (route : Route) : string :=
  let fromMetadata := routeNameFromEnvoyGatewayMetadata route in
  if bool_decide (fromMetadata ≠ "") then fromMetadata
  else let fromConfig := routeNameFromRouteConfigName routeConfigName in
       if bool_decide (fromConfig ≠ "") then fromConfig else ro_Name route.

(** The route, and whether it was turned on. *)
Definition enableOnRoute (s : Server) (routeConfigName : string) (route : Route) : outcome (Route * bool) :=
  let! generated := isRouteGeneratedByAIGateway (sv_isStandAloneMode s) route in
  if generated then
    Ok (setRouteMetadata (setInternalField InternalMetadataRouteNameKey (VString (routeNameFor routeConfigName route)) (ro_Metadata route))
          (setTypedPerFilterConfig (<[aiGatewayExtProcName := ExtProcEnabled]> (ro_TypedPerFilterConfig route)) route), true)
  else Ok (route, false).

Definition enableRouterLevelAIGatewayExtProcOnRoute (s : Server) (rc : RouteConfiguration) : outcome (RouteConfiguration * bool) :=
  let! _ := owrap "failed to marshal FilterConfig to Any: " (any_PerRoute ExtProcEnabled) in
  let! vhs := omapM (λ vh, let! rs := omapM (enableOnRoute s (rcf_Name rc)) (vh_Routes vh) in Ok (setRoutes rs.*1 vh, existsb snd rs))
    (rcf_VirtualHosts rc) in
  Ok (setVirtualHosts vhs.*1 rc, existsb snd vhs).
End Filters.

(** ** Listeners and their routes *)

Definition allRoutes (rc : RouteConfiguration) : list Route := rcf_VirtualHosts rc ≫= vh_Routes.

(** The pools of the routes of a configuration, by the name of the route. *)
Definition addRoutePool (config : string) (m : gmap string (gmap string InferencePool)) (r : Route) : gmap string (gmap string InferencePool) :=
  match getInferencePoolByMetadata (ro_Metadata r) with
  | Some pool => <[config := <[ro_Name r := pool]> (default ∅ (m !! config))]> m
  | None => m
  end.
Definition poolsByConfig (routes : list RouteConfiguration) : gmap string (gmap string InferencePool) :=
  foldl (λ m rc, foldl (addRoutePool (rcf_Name rc)) m (allRoutes rc)) ∅ routes.

(** Each pool once. *)
Definition poolKey (pool : InferencePool) : string := ip_Namespace pool +:+ "/" +:+ ip_Name pool.
Definition addPool (pools : list InferencePool) (pool : InferencePool) : list InferencePool :=
  if bool_decide (poolKey pool ∈ poolKey <$> pools) then pools else pools ++ [pool].

(** The listeners of users, with their route configurations. *)
Definition isEnvoyGatewayListener (ln : Listener) : bool :=
  HasPrefix (ln_Name ln) "envoy-gateway-proxy-stats-" || HasPrefix (ln_Name ln) "envoy-gateway-proxy-ready-".
Definition listenerRouteNames (listeners : list Listener) : gmap string (list string) :=
  foldl (λ m ln, if isEnvoyGatewayListener ln then m else <[ln_Name ln := findListenerRouteConfigs ln]> m) ∅ listeners.

(** The value with a name is the last one. *)
Definition namedConfig (routes : list RouteConfiguration) (name : string) : option nat := lastIndex (λ rc, bool_decide (rcf_Name rc = name)) routes.
Definition namedListener (listeners : list Listener) (name : string) : option nat :=
  lastIndex (λ ln, bool_decide (ln_Name ln = name) && negb (isEnvoyGatewayListener ln)) listeners.

(** An edit of a configuration by name; nothing when it is not there. *)
Definition onConfig (f : RouteConfiguration → outcome (RouteConfiguration * bool)) (acc : list RouteConfiguration * bool) (name : string) :
    outcome (list RouteConfiguration * bool) :=
  match (i ← namedConfig acc.1 name; pair i <$> acc.1 !! i) with
  | Some (i, rc) => let! r := f rc in Ok (<[i := r.1]> acc.1, acc.2 || r.2)
  | None => Ok acc
  end.

Section Listeners.
Context `{TA : !ToAny, EF : !EnvoyFilterNames}.
Context (rangePools : gmap string InferencePool → list (string * InferencePool)).
Context (rangeListeners : gmap string (list InferencePool) → list (string * list InferencePool)).

Definition listenerPools (byConfig : gmap string (gmap string InferencePool)) (names : list string) : list InferencePool :=
  foldl addPool [] (name ← names; (rangePools (default ∅ (byConfig !! name))).*2).

Definition listenerToInferencePools (listeners : list Listener) (routes : list RouteConfiguration) : gmap string (list InferencePool) :=
  omap (λ names, match listenerPools (poolsByConfig routes) names with [] => None | pools => Some pools end) (listenerRouteNames listeners).

Definition patchConfigWithPools (pools : list InferencePool) (rc : RouteConfiguration) : outcome (RouteConfiguration * bool) :=
  let! vhs := omapM (λ vh, owrap ("failed to patch virtual host " +:+ vh_Name vh +:+ " in route config " +:+ rcf_Name rc +:+ ": ")
    (patchVirtualHostWithInferencePool pools vh)) (rcf_VirtualHosts rc) in
  Ok (setVirtualHosts vhs rc, false).

Definition patchWithPools (names : gmap string (list string)) (acc : list Listener * list RouteConfiguration) (entry : string * list InferencePool) :
    outcome (list Listener * list RouteConfiguration) :=
  let! listeners := match (i ← namedListener acc.1 entry.1; pair i <$> acc.1 !! i) with
                    | Some (i, ln) => let! ln := patchListenerWithInferencePoolFilters ln entry.2 in Ok (<[i := ln]> acc.1)
                    | None => Panic "nil pointer dereference"
                    end in
  let! r := ofold (onConfig (patchConfigWithPools entry.2)) (acc.2, false) (default [] (names !! entry.1)) in
  Ok (listeners, r.1).

Definition enableOnListener (s : Server) (names : gmap string (list string)) (routes : list RouteConfiguration) (ln : Listener) :
    outcome (Listener * list RouteConfiguration) :=
  let! r := ofold (λ acc name,
    onConfig (λ rc, owrap ("failed to enable router level AI Gateway extproc on route config " +:+ name +:+ ": ")
      (enableRouterLevelAIGatewayExtProcOnRoute s rc)) acc name) (routes, false) (default [] (names !! ln_Name ln)) in
  let! ln := if r.2 : bool then owrap ("failed to insert AI Gateway extproc filter into listener " +:+ ln_Name ln +:+ ": ") (insertRouterLevelAIGatewayExtProc ln)
             else Ok ln in
  Ok (ln, r.1).

Fixpoint enableOnListeners (s : Server) (names : gmap string (list string)) (routes : list RouteConfiguration) (listeners : list Listener) :
    outcome (list Listener * list RouteConfiguration) :=
  match listeners with
  | [] => Ok ([], routes)
  | ln :: listeners =>
      let! r := enableOnListener s names routes ln in
      let! rs := enableOnListeners s names r.2 listeners in
      Ok (r.1 :: rs.1, rs.2)
  end.

Definition maybeModifyListenerAndRoutes (s : Server) (listeners : list Listener) (routes : list RouteConfiguration) :
    outcome (list Listener * list RouteConfiguration) :=
  let names := listenerRouteNames listeners in
  let! r := ofold (patchWithPools names) (listeners, routes) (rangeListeners (listenerToInferencePools listeners routes)) in
  enableOnListeners s names r.2 r.1.

(** ** Request headers in the access log *)

Definition headerToMetadataFilterName : string := "envoy.filters.http.header_to_metadata".

Definition headerRule (attrs : gmap string string) (header : string) : HeaderToMetadataRule :=
  {| hm_Header := header; hm_Namespace := AIGatewayFilterMetadataNamespace; hm_Key := mget attrs header; hm_Remove := false |}.

Definition sortedHeaders (attrs : gmap string string) : list string := merge_sort String.le (map_to_list attrs).*1.

Definition buildHeaderToMetadataFilter (attrs : gmap string string) : outcome (option HttpFilter) :=
  if bool_decide (attrs = ∅) then Ok None
  else
    let cfg := HeaderToMetadata (headerRule attrs <$> sortedHeaders attrs) in
    let! _ := any_Filter cfg in
    Ok (Some {| hf_Name := headerToMetadataFilterName; hf_Disabled := false; hf_Config := cfg |}).

Fixpoint insertHeaderToMetadataFilter (filter : HttpFilter) (filters : list HttpFilter) : outcome (list HttpFilter) :=
  match filters with
  | [] => Fail (errors_New "failed to find router filter")
  | f :: filters => if bool_decide (hf_Name f = wellknown_Router) then Ok (filter :: f :: filters)
                    else let! fs := insertHeaderToMetadataFilter filter filters in Ok (f :: fs)
  end.

(** The rules with those that were missing, if any were. *)
Definition mergeHeaderToMetadataRules (rules : list HeaderToMetadataRule) (attrs : gmap string string) : option (list HeaderToMetadataRule) :=
  let existing := (λ r, ToLower (hm_Header r)) <$> rules in
  match filter (λ h, ToLower h ∉ existing) (sortedHeaders attrs) with
  | [] => None
  | missing => Some (rules ++ (headerRule attrs <$> missing))
  end.

(** A configuration of another kind is an error. *)
Definition headerToMetadataChain (attrs : gmap string string) (c : FilterChain) : outcome FilterChain :=
  match fc_HCM c with
  | None => Ok c
  | Some hcm =>
      let put fs := let hcm := setHttpFilters fs hcm in let! _ := any_HCM hcm in Ok {| fc_HCM := Some hcm |} in
      match list_find (λ f, hf_Name f = headerToMetadataFilterName) (hcm_HttpFilters hcm) with
      | Some (i, f) =>
          match hf_Config f with
          | HeaderToMetadata rules =>
              match mergeHeaderToMetadataRules rules attrs with
              | Some rules =>
                  let! _ := any_Filter (HeaderToMetadata rules) in
                  put (<[i := {| hf_Name := hf_Name f; hf_Disabled := hf_Disabled f; hf_Config := HeaderToMetadata rules |}]> (hcm_HttpFilters hcm))
              | None => Ok c
              end
          | _ => Fail (errors_New "header_to_metadata filter missing typed_config")
          end
      | None =>
          let! filter := buildHeaderToMetadataFilter attrs in
          let! fs := match filter with Some f => insertHeaderToMetadataFilter f (hcm_HttpFilters hcm) | None => Ok (hcm_HttpFilters hcm) end in
          put fs
      end
  end.

Definition insertRequestHeaderToMetadataFilter (attrs : gmap string string) (ln : Listener) : outcome Listener :=
  let! chains := omapM (headerToMetadataChain attrs) (chainsOf ln) in Ok (withChains ln chains).

Definition insertRequestHeaderToMetadataFilters (s : Server) (listeners : list Listener) : outcome (list Listener) :=
  if bool_decide (sv_logRequestHeaderAttributes s = ∅) then Ok listeners
  else omapM (insertRequestHeaderToMetadataFilter (sv_logRequestHeaderAttributes s)) listeners.

(** ** MCP backends *)

Definition mcpBackendListenerName : string := "aigateway-mcp-backend-listener".
Definition filterNameJWTAuthn : string := "envoy.filters.http.jwt_authn".
Definition filterNameAPIKeyAuth : string := "envoy.filters.http.api_key_auth".
Definition filterNameExtAuth : string := "envoy.filters.http.ext_authz".
Definition MCPMainHTTPRoutePrefix : string := MCPGeneratedResourceCommonPrefix +:+ "main-".
Definition MCPPerBackendRefHTTPRoutePrefix : string := MCPGeneratedResourceCommonPrefix +:+ "br-".
Definition MCPPerBackendHTTPRouteFilterPrefix : string := MCPGeneratedResourceCommonPrefix +:+ "brf-".
Definition MCPBackendSubsetHeader : string := EnvoyAIGatewayHeaderPrefix +:+ "mcp-backend-subset".
Definition MCPBackendSubsetMetadataKey : string := "mcp_backend_subset".
Definition MCPProxyPort : N := 9856.
Definition MCPInternalHeadersToMetadata : gmap string string :=
  list_to_map [(MCPBackendHeader, "mcp_backend"); (MCPMetadataHeaderMethod, "mcp_method"); (MCPMetadataHeaderRequestID, "mcp_request_id");
               (MCPMetadataHeaderToolName, "mcp_tool_name"); (MCPMetadataHeaderResourceURI, "mcp_resource_uri")].

(** A header that replaces any value, also when it is empty. *)
Definition dynamicMetadataHeader (header metadataKey : string) : string * string :=
  (header, "%DYNAMIC_METADATA([" +:+ Quote InternalEndpointMetadataNamespace +:+ ", " +:+ Quote metadataKey +:+ "])%").
Definition mcpProxyDynamicMetadataHeaders : list (string * string) := [dynamicMetadataHeader MCPBackendSubsetHeader MCPBackendSubsetMetadataKey].

Definition updateMCPRoute (r : Route) : Route :=
  if ContainsStr (ro_Name r) MCPMainHTTPRoutePrefix then
    if ContainsStr (ro_Name r) "rule/0" then addRequestHeaders mcpProxyDynamicMetadataHeaders r
    else setTypedPerFilterConfig (delete filterNameJWTAuthn (delete filterNameAPIKeyAuth (delete filterNameExtAuth (ro_TypedPerFilterConfig r)))) r
  else r.
Definition maybeUpdateMCPRoutes (routes : list RouteConfiguration) : list RouteConfiguration :=
  (λ rc, setVirtualHosts ((λ vh, setRoutes (updateMCPRoute <$> vh_Routes vh) vh) <$> rcf_VirtualHosts rc) rc) <$> routes.

(** A route of a backend that goes to one cluster is moved; one that cannot be copied
    is dropped. *)
Inductive mcpMove := Keep | Move | Drop.
Definition moveOf (r : Route) : mcpMove :=
  if ContainsStr (ro_Name r) MCPPerBackendRefHTTPRoutePrefix then
    match any_Route r with
    | Ok _ => match ro_Action r with Some (SingleCluster _) => Move | _ => Keep end
    | _ => Drop
    end
  else Keep.
#[global] Instance mcpMove_eq_dec : EqDecision mcpMove.
Proof. solve_decision. Defined.

(** The routes that stay, and the configuration of those that were moved. *)
Definition createRoutesForBackendListener (routes : list RouteConfiguration) : list RouteConfiguration * option RouteConfiguration :=
  ((λ rc, setVirtualHosts ((λ vh, setRoutes (filter (λ r, moveOf r = Keep) (vh_Routes vh)) vh) <$> rcf_VirtualHosts rc) rc) <$> routes,
   match filter (λ r, moveOf r = Move) (routes ≫= allRoutes) with
   | [] => None
   | rs => Some {| rcf_Name := mcpBackendListenerName +:+ "-route-config";
                   rcf_VirtualHosts := [{| vh_Name := mcpBackendListenerName +:+ "-wildcard"; vh_Domains := ["*"]; vh_Metadata := None; vh_Routes := rs |}] |}
   end).

Definition isMCPBackendHTTPFilter (f : HttpFilter) : bool := ContainsStr (hf_Name f) MCPPerBackendHTTPRouteFilterPrefix.

(** The filters so far, and the access log of the last connection manager. *)
Definition extractFromChain (acc : list HttpFilter * list string) (c : FilterChain) : outcome (list HttpFilter * list string * FilterChain) :=
  match fc_HCM c with
  | None => Ok (acc, c)
  | Some hcm =>
      let found := filter (λ f, isMCPBackendHTTPFilter f = true) (hcm_HttpFilters hcm) in
      let acc := (acc.1 ++ found, hcm_AccessLog hcm) in
      if bool_decide (found = []) then Ok (acc, c)
      else
        let hcm := setHttpFilters (filter (λ f, isMCPBackendHTTPFilter f = false) (hcm_HttpFilters hcm)) hcm in
        let! _ := any_HCM hcm in Ok (acc, {| fc_HCM := Some hcm |})
  end.

Fixpoint extractFromChains (acc : list HttpFilter * list string) (chains : list FilterChain) : outcome (list HttpFilter * list string * list FilterChain) :=
  match chains with
  | [] => Ok (acc, [])
  | c :: chains => let! r := extractFromChain acc c in let! rs := extractFromChains r.1 chains in Ok (rs.1, r.2 :: rs.2)
  end.

Fixpoint extractMCPBackendFiltersFromMCPProxyListener (acc : list HttpFilter * list string) (listeners : list Listener) :
    outcome (list HttpFilter * list string * list Listener) :=
  match listeners with
  | [] => Ok (acc, [])
  | ln :: listeners =>
      let! r := if bool_decide (ln_Name ln = mcpBackendListenerName) then Ok (acc, ln)
                else
                  let! r := owrap ("failed to marshal updated HCM for listener " +:+ ln_Name ln +:+ ": ") (extractFromChains acc (chainsOf ln)) in
                  Ok (r.1, withChains ln r.2) in
      let! rs := extractMCPBackendFiltersFromMCPProxyListener r.1 listeners in
      Ok (rs.1, r.2 :: rs.2)
  end.

Definition mcpHeaderRule (h : string) : HeaderToMetadataRule :=
  {| hm_Header := h; hm_Namespace := AIGatewayFilterMetadataNamespace; hm_Key := mget MCPInternalHeadersToMetadata h;
     hm_Remove := HasPrefix h MCPMetadataHeaderPrefix |}.

Definition createBackendListener (mcpHTTPFilters : list HttpFilter) (accessLogConfig : list string) : outcome Listener :=
  let headersToMetadata := HeaderToMetadata (mcpHeaderRule <$> sortedHeaders MCPInternalHeadersToMetadata) in
  let! _ := owrap "failed to marshal header to metadata filter config: " (any_Filter headersToMetadata) in
  let! _ := owrap "failed to marshal router filter config: " (any_Filter RouterFilter) in
  let hcm := {| hcm_HttpFilters := mcpHTTPFilters ++ [{| hf_Name := "envoy.filters.http.header_to_metadata"; hf_Disabled := false; hf_Config := headersToMetadata |};
                                                      {| hf_Name := wellknown_Router; hf_Disabled := false; hf_Config := RouterFilter |}];
                hcm_Rds := Some (mcpBackendListenerName +:+ "-route-config"); hcm_SchemeMatchUpstream := true; hcm_AccessLog := accessLogConfig |} in
  let! _ := owrap "failed to marshal HTTP Connection Manager for backend listener: " (any_HCM hcm) in
  Ok {| ln_Name := mcpBackendListenerName; ln_Address := Some ("127.0.0.1", MCPBackendListenerPort); ln_FilterChains := [{| fc_HCM := Some hcm |}];
        ln_DefaultFilterChain := None |}.

(** The cluster of the proxy is on the loopback address. *)
Definition modifyMCPGatewayGeneratedCluster (c : Cluster) : Cluster :=
  if ContainsStr (cl_Name c) MCPMainHTTPRoutePrefix && HasSuffix (cl_Name c) "/rule/0" then
    endpointCluster (cl_Name c) "STATIC" "" 10 false {| en_Hostname := ""; en_Address := "127.0.0.1"; en_Port := MCPProxyPort; en_Pipe := "" |} None None
  else c.

Definition maybeGenerateResourcesForMCPGateway (clusters : list Cluster) (listeners : list Listener) (routes : list RouteConfiguration) :
    outcome (list Cluster * list Listener * list RouteConfiguration) :=
  if bool_decide (listeners = []) || bool_decide (routes = []) then Ok (clusters, listeners, routes)
  else
    let '(routes, mcpBackendRoutes) := createRoutesForBackendListener (maybeUpdateMCPRoutes routes) in
    let! lr := match mcpBackendRoutes with
               | None => Ok (listeners, routes)
               | Some rc =>
                   let! r := owrap "failed to extract MCP backend filters from existing listeners: "
                     (extractMCPBackendFiltersFromMCPProxyListener ([], []) listeners) in
                   let! l := owrap "failed to create MCP backend listener: " (createBackendListener r.1.1 r.1.2) in
                   Ok (r.2 ++ [l], routes ++ [rc])
               end in
    Ok (modifyMCPGatewayGeneratedCluster <$> clusters, lr.1, lr.2).

(** ** The whole *)

Context `{XC : !XdsClient, SH : !SortHeaders, MA : !Marshal, GC : !GrantClient, QC : !QuotaClient}.
Context (net_ParseIP : string → bool) (ParseDuration : string → option Z).

(** The cluster of the external processor is a pipe. *)
Definition extProcCluster (s : Server) : Cluster :=
  endpointCluster extProcUDSClusterName "STATIC" "" 10 false {| en_Hostname := ""; en_Address := ""; en_Port := 0; en_Pipe := sv_udsPath s |} None
    (Some {| po_Http2 := true; po_HttpFilters := [] |}).

Definition modifyClusters (clusters : list Cluster) (routes : list RouteConfiguration) : outcome (list Cluster) :=
  let! metadataForwardingNamespaces :=
    if existsb hasAIGatewayClusterName clusters
    then owrap "failed to resolve the metadata forwarding namespaces: " (metadataForwardingNamespacesForSnapshot routes) else Ok [] in
  omapM (λ c, owrap ("failed to modify cluster " +:+ cl_Name c +:+ ": ") (maybeModifyCluster net_ParseIP metadataForwardingNamespaces c)) clusters.

Definition PostTranslateModify (s : Server) (clusters : list Cluster) (listeners : list Listener) (routes : list RouteConfiguration) :
    outcome (list Cluster * list Listener * list RouteConfiguration) :=
  let! modified := modifyClusters clusters routes in
  let! pickers := owrap "failed to build clusters for InferencePool endpoint pickers: " (buildClustersForInferencePoolEndpointPickers modified) in
  let! lr := owrap "failed to modify listeners and routes for InferencePool support: " (maybeModifyListenerAndRoutes s listeners routes) in
  let! routes := owrap "failed to apply stream idle timeouts: " (applyStreamIdleTimeouts ParseDuration lr.2) in
  let! uds := if existsb (λ c, bool_decide (cl_Name c = extProcUDSClusterName)) modified then Ok []
              else let! _ := owrap "failed to marshal HttpProtocolOptions to Any: " (any_ProtocolOptions {| po_Http2 := true; po_HttpFilters := [] |}) in
                   Ok [extProcCluster s] in
  let! mcp := owrap "failed to generate resources for MCP Gateway: " (maybeGenerateResourcesForMCPGateway (modified ++ pickers ++ uds) lr.1 routes) in
  let! listeners := owrap "failed to insert request header metadata filter: " (insertRequestHeaderToMetadataFilters s mcp.1.2) in
  owrap "failed to inject quota rate limiting: " (maybeInjectQuotaRateLimiting s mcp.1.1 listeners mcp.2).
End Listeners.
