(* ===== verification/EndpointProps.v ===== *)
(** * Endpoints and their credentials

    From the AIGatewayRoute to the endpoints of Envoy: the names the extension server
    puts on the endpoints of a rule select, in the configuration of the external
    processor, the backends the endpoints were generated from.  Envoy Gateway turns an
    HTTPRoute rule into one group of endpoints per reference with a weight; how it
    resolves a reference is an argument. *)

From Stdlib Require Import Ascii ZArith Lia.
From stdpp Require Import base gmap strings list sorting pretty.
From S2P Require Import Prelude GoStrings GoNum InternalApi Kube RateLimit GoCodec FilterApi EnvoyTypes Costs QuotaController ConfigBundle ExtProcBuilder QuotaRoutes FilterConfig FilterConfigProps AiRoute ExtServer.

(** The endpoint groups Envoy Gateway makes of the references of a rule. *)
Definition egGroups (resolve : HTTPBackendRef → LocalityLbEndpoints) (refs : list HTTPBackendRef) : list LocalityLbEndpoints :=
  resolve <$> filter (λ br, hb_Weight br ≠ Some 0%Z) refs.

(** The cluster of a rule. *)
Definition ruleClusterName (ns name : string) (ruleIndex : nat) : string :=
  "httproute/" +:+ ns +:+ "/" +:+ name +:+ "/rule/" +:+ itoa ruleIndex.

(** The name the external processor is given for an endpoint. *)
Definition stampedName (e : LbEndpoint) : option Value := m ← le_Metadata e; f ← m !! InternalEndpointMetadataNamespace; f !! InternalMetadataBackendNameKey.

Lemma setInternalField_lookup key v m key' :
  (m' ← setInternalField key v m; f ← m' !! InternalEndpointMetadataNamespace; f !! key') =
  if decide (key' = key) then Some v else (m' ← m; f ← m' !! InternalEndpointMetadataNamespace; f !! key').
Proof.
  unfold setInternalField, Metadata in *. cbn [mbind option_bind]. rewrite lookup_insert_eq. cbn [mbind option_bind].
  destruct (decide _) as [->|Hne]; [by rewrite lookup_insert_eq|]. rewrite lookup_insert_ne by done.
  destruct m as [m|]; cbn [from_option id mbind option_bind]; [|by rewrite !lookup_empty].
  destruct (m !! _); cbn [from_option id mbind option_bind]; [done|by rewrite lookup_empty].
Qed.

Section Stamp.
Context (net_ParseIP : string → bool) (resolve : HTTPBackendRef → LocalityLbEndpoints).

Lemma stampUpstreamHost_name e : stampedName (stampUpstreamHostMetadata net_ParseIP e) = stampedName e.
Proof.
  unfold stampUpstreamHostMetadata. case_bool_decide; [|done]. unfold stampedName, setEndpointMetadataUpstreamHost, setEndpointField. cbn [le_Metadata].
  rewrite setInternalField_lookup. by rewrite decide_False by done.
Qed.

Lemma stampUpstreamHost_endpoint e : le_Endpoint (stampUpstreamHostMetadata net_ParseIP e) = le_Endpoint e.
Proof. unfold stampUpstreamHostMetadata. by case_bool_decide. Qed.

Lemma stampGroup_endpoint route ri i ref g e :
  e ∈ ll_LbEndpoints (stampGroup net_ParseIP route ri i ref g) →
  ∃ e0, e0 ∈ ll_LbEndpoints g ∧ le_Endpoint e = le_Endpoint e0 ∧
    stampedName e = Some (VString (PerRouteRuleRefBackendName (ar_Namespace route) (rb_Name ref) (ar_Name route) ri i)).
Proof.
  unfold stampGroup. cbn [ll_LbEndpoints]. intros (e0 & -> & He)%list_elem_of_fmap. exists e0. split; [done|].
  rewrite stampUpstreamHost_name, stampUpstreamHost_endpoint. split; [done|].
  unfold stampedName, setEndpointMetadataBackendName, setEndpointField. cbn [le_Metadata]. rewrite setInternalField_lookup. by rewrite decide_True.
Qed.

(** Every reference with a weight stamps its own group. *)
Lemma stampGroups_own route ri refs brs :
  Forall2 (λ p br, hb_Weight br = rb_Weight p.2) refs brs →
  stampGroups net_ParseIP route ri refs (egGroups resolve brs) =
  omap (λ p, if bool_decide (rb_Weight p.1.2 = Some 0%Z) then None else Some (stampGroup net_ParseIP route ri p.1.1 p.1.2 (resolve p.2))) (zip refs brs).
Proof.
  induction 1 as [|[i ref] br refs brs Hw _ IH]; [done|]. unfold egGroups in *. cbn [stampGroups zip omap list_omap fst snd] in *. cbn [zip_with list_omap fst snd].
  case_bool_decide as Hz.
  - rewrite filter_cons_False by (rewrite Hw; naive_solver). exact IH.
  - rewrite filter_cons_True by (rewrite Hw; naive_solver). cbn [fmap list_fmap]. by rewrite IH.
Qed.
End Stamp.

Section Refs.
Context `{GC : !GrantClient, CL : !GatewayClient}.

Lemma httpBackendRef_weight route ref br : httpBackendRef route ref = Ok br → hb_Weight br = rb_Weight ref.
Proof. unfold httpBackendRef. intros H. case_match; outcome_inv; by subst br. Qed.

(** Without errors no reference is dropped. *)
Lemma httpBackendRefs_go route refs kept errs brs :
  ofold (λ acc ref, match httpBackendRef route ref with
                    | Ok br => Ok (acc.1 ++ [br], acc.2)
                    | Fail e => Ok (acc.1, acc.2 ++ [e])
                    | Panic p => Panic p
                    end) (kept, errs) refs = Ok (brs, []) →
  errs = [] ∧ ∃ rest, brs = kept ++ rest ∧ Forall2 (λ ref br, httpBackendRef route ref = Ok br) refs rest.
Proof.
  revert kept errs. induction refs as [|ref refs IH]; intros kept errs; cbn [ofold].
  - intros [= -> ->]. split; [done|]. exists []. by rewrite app_nil_r.
  - destruct (httpBackendRef route ref) as [br|e|p] eqn:E; cbn [obind]; [| |done].
    + intros (He & rest & -> & Hr)%IH. split; [done|]. exists (br :: rest). cbn [fst]. rewrite <-app_assoc. split; [done|]. by constructor.
    + intros (He & _)%IH. cbn in He. by destruct errs.
Qed.

Lemma httpBackendRefs_all route refs brs :
  httpBackendRefs route refs = Ok (brs, []) → Forall2 (λ ref br, httpBackendRef route ref = Ok br) refs brs.
Proof. intros (_ & rest & -> & Hr)%httpBackendRefs_go. done. Qed.

Lemma ruleOf_refs rootPrefix route rule hr :
  ruleOf rootPrefix route rule = Ok (hr, []) → Forall2 (λ ref br, httpBackendRef route ref = Ok br) (ru_BackendRefs rule) (hr_BackendRefs hr).
Proof. unfold ruleOf. intros H. outcome_inv. destruct x as [brs errs]. cbn in *. simplify_eq. by apply httpBackendRefs_all. Qed.
End Refs.

Lemma itoa_Itoa n : Itoa (Z.of_nat n) = itoa n.
Proof. unfold Itoa, itoa. destruct n as [|n]; [done|]. unfold pretty at 1, pretty_Z. cbn [Z.of_nat]. unfold pretty at 1, pretty_positive, pretty, pretty_nat. by f_equal. Qed.

(** ** Cluster names *)

Lemma parse_ruleClusterName ns name ri :
  Contains ns "/" = false → Contains name "/" = false → (Z.of_nat ri < 2 ^ 63)%Z →
  parseAIGatewayClusterName (ruleClusterName ns name ri) =
    Ok {| an_namespace := ns; an_routeName := name; an_ruleIndex := ri; an_backendRefIndex := None |}.
Proof.
  intros Hns Hname Hri. unfold parseAIGatewayClusterName, ruleClusterName.
  change ("httproute/" +:+ ?x) with ("httproute" +:+ String "/" x). change ("/rule/" +:+ ?x) with (String "/" ("rule" +:+ String "/" x)).
  change ("/" +:+ ?x) with (String "/" x). repeat (rewrite Split_app by done). rewrite Split_no_sep by apply pretty_nat_no_slash.
  rewrite !bool_decide_true by done. cbn [andb]. unfold atoiIndex. rewrite <-itoa_Itoa, ParseInt64_pretty by (unfold in_int64; lia).
  rewrite (proj2 (Z.ltb_ge _ _)) by lia. cbn [obind]. by rewrite Nat2Z.id.
Qed.

(** ** Clusters *)

Section Clusters.
Context `{TA : !ToAny, XC : !XdsClient} (net_ParseIP : string → bool).

Lemma wrap_load_assignment c proxy c' : wrapClusterInForwardProxy c proxy = Ok c' → cl_LoadAssignment c' = cl_LoadAssignment c.
Proof. unfold wrapClusterInForwardProxy. intros H. outcome_inv. case_match; outcome_inv; by subst c'. Qed.

Lemma maybeWrap_load_assignment c route c' : maybeWrapClusterInForwardProxy c route = Ok c' → cl_LoadAssignment c' = cl_LoadAssignment c.
Proof. unfold maybeWrapClusterInForwardProxy. intros H. outcome_inv. case_match; outcome_inv; [by subst c'|by eapply wrap_load_assignment]. Qed.

Lemma configure_load_assignment namespaces c c' : configureUpstreamFilters namespaces c = Ok c' → cl_LoadAssignment c' = cl_LoadAssignment c.
Proof. unfold configureUpstreamFilters. intros H. outcome_inv. by subst c'. Qed.

(** What becomes of the endpoints of the cluster of a rule. *)
Lemma maybeModifyCluster_rule namespaces c c' route rule ri groups :
  Contains (ar_Namespace route) "/" = false → Contains (ar_Name route) "/" = false → (Z.of_nat ri < 2 ^ 63)%Z →
  cl_Name c = ruleClusterName (ar_Namespace route) (ar_Name route) ri → xds_AIGatewayRoute (ar_Namespace route) (ar_Name route) = Ok route →
  ar_Rules route !! ri = Some rule → getInferencePoolByMetadata (cl_Metadata c) = None → cl_LoadAssignment c = Some groups →
  maybeModifyCluster net_ParseIP namespaces c = Ok c' →
  cl_LoadAssignment c' = Some (stampGroups net_ParseIP route ri (imap pair (ru_BackendRefs rule)) groups).
Proof.
  intros Hns Hname Hri Hc Hget Hrule Hpool Hla. unfold maybeModifyCluster. rewrite Hc, parse_ruleClusterName by done. cbn [an_namespace an_routeName].
  rewrite Hget. cbn [an_ruleIndex an_backendRefIndex]. rewrite Hrule. unfold stampCluster. rewrite Hpool, Hla. cbn [obind]. intros H.
  outcome_inv. apply configure_load_assignment in H0 as ->. by apply maybeWrap_load_assignment in H as ->.
Qed.
End Clusters.

(** ** Credentials *)

Section Credentials.
Context {H Prog Codec : Type} `{CE : !CelEnv Prog, GC : !GrantClient, CL : !GatewayClient}.
Context (policies : list BackendSecurityPolicy) (grants : list ReferenceGrant).
Context `{CLL : !GatewayClientLaws CL policies, GL : !GrantClientLaws GC grants}.
Context (namespaces : Forall (λ g, Contains (rg_Namespace g) "." = false) grants).
Context (range : gmap string (string * string) → list (string * (string * string))).
Context (rangeUnit : gmap string () → list (string * ())).
Context (rangeCosts : gmap string LLMRequestCost → list (string * LLMRequestCost)).
Context (fn : BackendAuth → outcome H) (NewCodec : string → Z → string → Z → outcome Codec).
Context `{TA : !ToAny, XC : !XdsClient} (net_ParseIP : string → bool) (resolve : HTTPBackendRef → LocalityLbEndpoints).

(** Names of Kubernetes objects have no slash. *)
Definition plainRoute (r : AIGatewayRoute) : Prop :=
  Contains (ar_Namespace r) "/" = false ∧ Contains (ar_Name r) "/" = false ∧
  Forall (λ p, Contains (rb_Name p.2) "/" = false) (indexedRefs r).

Definition routeKey (r : AIGatewayRoute) : string * string := (ar_Namespace r, ar_Name r).

Lemma elem_of_indexedRefs route i j ref :
  (i, j, ref) ∈ indexedRefs route ↔ ∃ rule, ar_Rules route !! i = Some rule ∧ ru_BackendRefs rule !! j = Some ref.
Proof.
  unfold indexedRefs. rewrite list_elem_of_bind. split.
  - intros ([i' rule] & Hin & Hr). apply list_elem_of_bind in Hin as ([j' ref'] & Hin & Hf). apply list_elem_of_singleton in Hin. cbn in *. simplify_eq.
    apply elem_of_lookup_imap in Hr as (? & ? & [= -> ->] & ?). apply elem_of_lookup_imap in Hf as (? & ? & [= -> ->] & ?). eauto.
  - intros (rule & Hr & Hf). exists (i, rule). split; [|apply elem_of_lookup_imap; eauto]. apply list_elem_of_bind. exists (j, ref).
    split; [by apply list_elem_of_singleton|apply elem_of_lookup_imap; eauto].
Qed.

(** A name of a configuration is the name of one reference. *)
Lemma name_of_one_ref routes r r' i j ref i' j' ref' :
  Forall plainRoute routes → NoDup (routeKey <$> routes) → r ∈ routes → r' ∈ routes →
  (i, j, ref) ∈ indexedRefs r → (i', j', ref') ∈ indexedRefs r' →
  PerRouteRuleRefBackendName (ar_Namespace r) (rb_Name ref) (ar_Name r) i j = PerRouteRuleRefBackendName (ar_Namespace r') (rb_Name ref') (ar_Name r') i' j' →
  r = r' ∧ ref = ref'.
Proof.
  intros Hp Hnd Hr Hr' Hin Hin' E. rewrite Forall_forall in Hp. destruct (Hp _ Hr) as (? & ? & Hf). destruct (Hp _ Hr') as (? & ? & Hf').
  rewrite Forall_forall in Hf, Hf'. pose proof (Hf _ Hin). pose proof (Hf' _ Hin').
  apply PerRouteRuleRefBackendName_inj in E as (E1 & _ & E2 & <- & <-); [|done..].
  assert (r = r') as <-.
  { apply list_elem_of_lookup in Hr as [k Hk]. apply list_elem_of_lookup in Hr' as [k' Hk'].
    assert (k = k') as <-; [|congruence]. apply (NoDup_lookup (routeKey <$> routes) k k' (routeKey r)); [done|by rewrite list_lookup_fmap, Hk|].
    rewrite list_lookup_fmap, Hk'. cbn. unfold routeKey. by rewrite E1, E2. }
  split; [done|]. apply elem_of_indexedRefs in Hin as (? & ? & ?). apply elem_of_indexedRefs in Hin' as (? & ? & ?). congruence.
Qed.

(** C5: An endpoint is called with the credentials of the backend it belongs to.  For
    the cluster of a rule none of whose references was dropped from the HTTPRoute,
    every endpoint, after the extension server has modified the cluster, is one Envoy
    Gateway resolved from a reference of the rule and bears the name of that same
    reference; and when the external processor, with the configuration of the
    Gateway, selects a backend by that name, its handler is made of exactly the
    credentials of the one security policy that targets the backend of the
    reference, or there is none and no policy targets it. *)
Theorem endpoint_gets_its_credentials rootPrefix builder version uuid routes mcpRoutes globals ec mcp eff (rc : RuntimeConfig H Prog Codec)
    route rule ri hr forwarded c c' :
  Forall plainRoute routes → NoDup (routeKey <$> routes) → route ∈ routes →
  filterConfig (Prog := Prog) range rangeUnit rangeCosts builder version uuid routes mcpRoutes globals = Ok (ec, mcp, eff) →
  NewRuntimeConfig fn NewCodec ec = Ok rc →
  ar_Rules route !! ri = Some rule → (Z.of_nat ri < 2 ^ 63)%Z → ruleOf rootPrefix route rule = Ok (hr, []) →
  xds_AIGatewayRoute (ar_Namespace route) (ar_Name route) = Ok route →
  cl_Name c = ruleClusterName (ar_Namespace route) (ar_Name route) ri → getInferencePoolByMetadata (cl_Metadata c) = None →
  cl_LoadAssignment c = Some (egGroups resolve (hr_BackendRefs hr)) → maybeModifyCluster net_ParseIP forwarded c = Ok c' →
  ∃ groups, cl_LoadAssignment c' = Some groups ∧
    ∀ g e, g ∈ groups → e ∈ ll_LbEndpoints g →
    ∃ j ref br e0 name, ru_BackendRefs rule !! j = Some ref ∧ httpBackendRef route ref = Ok br ∧ rb_Weight ref ≠ Some 0%Z ∧
      e0 ∈ ll_LbEndpoints (resolve br) ∧ le_Endpoint e = le_Endpoint e0 ∧ stampedName e = Some (VString name) ∧
      ∀ rb, rt_Backends rc !! name = Some rb →
        let ns := GetNamespace ref (ar_Namespace route) in
        match rb_Handler rb with
        | Some h => ∃ auth, fn auth = Ok h ∧ secured policies grants (rk_Group (refKind ref)) (rk_Kind (refKind ref)) ns (rb_Name ref) (Some auth)
        | None => ∀ q, q ∈ policies → ¬ targets (rk_Group (refKind ref)) (rk_Kind (refKind ref)) ns (rb_Name ref) q
        end.
Proof using CLL GL namespaces.
  intros Hplain Hnd Hin Hcfg Hrt Hrule Hri Hof Hget Hname Hpool Hla Hmod. apply ruleOf_refs in Hof.
  assert (Hp := Hplain). rewrite Forall_forall in Hp. destruct (Hp _ Hin) as (Hns & Hrn & _).
  eexists. split; [by eapply maybeModifyCluster_rule|]. intros g e Hg He. rewrite stampGroups_own in Hg.
  2:{ apply Forall2_same_length_lookup_2; [by rewrite length_imap, (Forall2_length _ _ _ Hof)|]. intros k [i ref] br Hk Hbr.
      rewrite list_lookup_imap in Hk. destruct (ru_BackendRefs rule !! k) as [ref'|] eqn:Er; [|done]. cbn in Hk. injection Hk as <- <-.
      eapply httpBackendRef_weight. exact (Forall2_lookup_lr _ _ _ _ _ _ Hof Er Hbr). }
  apply list_elem_of_omap in Hg as ([[j ref] br] & Hz & Hg). cbn [fst snd] in Hg. case_bool_decide as Hw; [done|]. injection Hg as <-.
  apply list_elem_of_lookup in Hz as [k Hk]. apply lookup_zip_Some in Hk as [Hk Hbr]. rewrite list_lookup_imap in Hk.
  destruct (ru_BackendRefs rule !! k) as [ref'|] eqn:Er; [|done]. cbn in Hk. injection Hk as <- <-.
  apply stampGroup_endpoint in He as (e0 & He0 & Heq & Hst). exists k, ref', br, e0. eexists. split_and!; [done| |done..|].
  { exact (Forall2_lookup_lr _ _ _ _ _ _ Hof Er Hbr). }
  intros rb Hrb. destruct (selectable_backend policies grants namespaces range rangeUnit rangeCosts fn NewCodec _ _ _ _ _ _ _ _ _ _ _ _ Hcfg Hrt Hrb)
    as (r' & Hr' & _ & (i' & j' & ref2 & Hin2 & Hbn & _ & Hsec) & _ & Hname' & Hof').
  assert (route = r' ∧ ref' = ref2) as [<- <-].
  { apply (name_of_one_ref routes route r' ri k ref' i' j' ref2); [done..| |exact Hin2|by rewrite <-Hbn]. apply elem_of_indexedRefs. eauto. }
  cbv zeta. destruct Hof' as (_ & Hh). destruct (be_Auth (rb_Backend rb)) as [auth|].
  - destruct Hh as (h & Hf & ->). by exists auth.
  - by rewrite Hh.
Qed.
End Credentials.

Module Sample.
Import FilterConfigProps.Sample.
#[local] Existing Instances cel grantClient grantLaws client clientLaws.

#[local] Instance toAny : ToAny :=
  {| any_Filter _ := Ok tt; any_ProtocolOptions _ := Ok tt; any_Socket _ := Ok tt; any_HCM _ := Ok tt; any_PerRoute _ := Ok tt; any_Route _ := Ok tt |}.
Definition xdsClient (r : AIGatewayRoute) : XdsClient :=
  {| xds_GatewayAnnotations _ _ := Ok ∅; xds_GatewayConfig _ _ := Fail (errors_Sentinel "not found" KubeNotFound); xds_AIGatewayRoute _ _ := Ok r |}.

(** The endpoint of a reference is the host of its name. *)
Definition host (br : HTTPBackendRef) : LocalityLbEndpoints :=
  {| ll_Priority := 0;
     ll_LbEndpoints := [{| le_Endpoint := Some {| en_Hostname := bo_Name (hb_Ref br) +:+ ".example.com"; en_Address := ""; en_Port := 443; en_Pipe := "" |};
                           le_Metadata := None |}] |}.
Definition cluster (groups : list LocalityLbEndpoints) : Cluster :=
  {| cl_Name := ruleClusterName "team" "r" 0; cl_Type := "STRICT_DNS"; cl_LbPolicy := ""; cl_ConnectTimeout := 10; cl_Http2 := false;
     cl_OriginalDstHeader := None; cl_Metadata := None; cl_LoadAssignment := Some groups; cl_TransportSocket := None; cl_TransportSocketMatches := [];
     cl_ProtocolOptions := None |}.
Definition modify (r : AIGatewayRoute) (c : Cluster) : Cluster :=
  match maybeModifyCluster (XC := xdsClient r) (λ _, false) [] c with Ok c => c | _ => c end.

Definition refsOf (r : AIGatewayRoute) : list HTTPBackendRef :=
  match ar_Rules r with rule :: _ => match httpBackendRefs r (ru_BackendRefs rule) with Ok (brs, _) => brs | _ => [] end | _ => [] end.

Lemma endpoint_gets_its_credentials_witness :
  ∃ groups, cl_LoadAssignment (modify scopedRoute (cluster (egGroups host (refsOf scopedRoute)))) = Some groups ∧ length groups = 2 ∧
    Forall (λ g, Forall (λ e, is_Some (stampedName e)) (ll_LbEndpoints g)) groups.
Proof.
  destruct (endpoint_gets_its_credentials policies [grant] namespaces map_to_list map_to_list map_to_list Ok (λ _ _ _ _, Ok tt) (XC := xdsClient scopedRoute)
    (λ _, false) host "/" builder "v" "id" [scopedRoute; openRoute] [] [] config None true loaded scopedRoute
    (rule "gpt-4" [ref "openai" None ""; ref "shared" (Some "infra") ""]) 0
    {| hr_Name := None; hr_BackendRefs := refsOf scopedRoute;
       hr_Matches := [([{| hx_Type := None; hx_Name := ModelNameHeaderKeyDefault; hx_Value := "gpt-4" |}], "/")];
       hr_Filters := [getHostRewriteFilterName "r"]; hr_Timeouts := Some {| to_Request := Some "60s"; to_BackendRequest := None |} |} []
    (cluster (egGroups host (refsOf scopedRoute))) (modify scopedRoute (cluster (egGroups host (refsOf scopedRoute))))) as (groups & Hg & Hall);
    [| | |vm_compute; reflexivity..|].
  - repeat constructor.
  - apply (bool_decide_unpack _). vm_compute. exact I.
  - left.
  - exists groups. split; [exact Hg|]. split; [by vm_compute in Hg; injection Hg as <-|]. apply Forall_forall. intros g Hin. apply Forall_forall.
    intros e He. destruct (Hall g e Hin He) as (? & ? & ? & ? & ? & _ & _ & _ & _ & _ & -> & _). eexists. reflexivity.
Defined.

(** A reference that is dropped from the HTTPRoute shifts the names of the endpoints
    after it: here the endpoint of [c] is called with the credentials of [b]. *)
Definition backends : GatewayClient :=
  {| get_AIServiceBackend _ name := Ok {| bs_BackendRef := {| bo_Group := None; bo_Kind := None; bo_Name := name; bo_Namespace := None |};
       bs_APISchema := bs_APISchema spec; bs_HeaderMutation := None; bs_BodyMutation := None; bs_HeaderValueFilters := [] |};
     list_BackendSecurityPolicies _ _ := Ok []; list_TargetingQuotaPolicies _ := Ok []; get_SecretIn _ _ := Fail (errors_Sentinel "not found" KubeNotFound) |}.
Definition noGrants : GrantClient := {| list_ReferenceGrants _ := Ok [] |}.
Definition revokedRoute : AIGatewayRoute := route "r" [] [rule "gpt-4" [ref "a" (Some "infra") ""; ref "b" None ""; ref "c" None ""]].

Lemma dropped_ref_shifts_credentials :
  let brs := match httpBackendRefs (GC := noGrants) (CL := backends) revokedRoute (ar_Rules revokedRoute ≫= ru_BackendRefs) with Ok (brs, [_]) => brs | _ => [] end in
  (λ br, bo_Name (hb_Ref br)) <$> brs = ["b"; "c"] ∧
  (e ← default [] (cl_LoadAssignment (modify revokedRoute (cluster (egGroups host brs)))) ≫= ll_LbEndpoints;
   [(en_Hostname <$> le_Endpoint e, stampedName e)]) =
  [(Some "b.example.com", Some (VString (PerRouteRuleRefBackendName "team" "a" "r" 0 0)));
   (Some "c.example.com", Some (VString (PerRouteRuleRefBackendName "team" "b" "r" 0 1)))].
Proof. vm_compute. done. Qed.
End Sample.
