(* ===== verification/XdsProps.v ===== *)
(** * Properties of the extension server on listeners and routes

    The chains of filters stay well formed through every edit; the external
    processor is placed before what it feeds and runs on exactly the routes of the AI
    Gateway; the routes and credentials of MCP backends are moved to a listener on the
    loopback address; caching the reads of routes changes nothing. *)

From Stdlib Require Import Ascii ZArith Lia.
From stdpp Require Import base gmap strings list sorting.
From S2P Require Import Prelude GoStrings GoNum InternalApi Kube RateLimit GoCodec McpController McpPost FilterApi EnvoyTypes ExtProcBuilder QuotaRoutes ExtServer XdsListeners.

(** ** Well-formed chains *)

(** The router is the last filter and the only one. *)
Definition wellFormed (fs : list HttpFilter) : Prop :=
  ∃ pre router, fs = pre ++ [router] ∧ hf_Name router = wellknown_Router ∧ Forall (λ f, hf_Name f ≠ wellknown_Router) pre.

Definition chainOk (c : FilterChain) : Prop := match fc_HCM c with Some hcm => wellFormed (hcm_HttpFilters hcm) | None => True end.
Definition listenerOk (ln : Listener) : Prop := Forall chainOk (chainsOf ln).

(** The filters of Envoy Gateway are told apart by their prefixes. *)
Class EnvoyFilterLaws (EF : EnvoyFilterNames) := { router_not_buffer : HasPrefix wellknown_Router EnvoyFilterBuffer = false }.

Lemma chainsOf_withChains ln chains : length chains = length (chainsOf ln) → chainsOf (withChains ln chains) = chains.
Proof.
  unfold chainsOf, withChains. cbn [ln_FilterChains ln_DefaultFilterChain]. rewrite length_app. intros Hl.
  rewrite <-(take_drop (length (ln_FilterChains ln)) chains) at 3. f_equal.
  destruct (ln_DefaultFilterChain ln); cbn in Hl.
  - destruct (chains !! length (ln_FilterChains ln)) as [c|] eqn:E; [|apply lookup_ge_None in E; lia]. cbn.
    rewrite (drop_S _ _ _ E). rewrite drop_ge by lia. done.
  - rewrite (lookup_ge_None_2 chains) by lia. cbn. by rewrite drop_ge by lia.
Qed.

Lemma omapM_chains f ln chains :
  omapM f (chainsOf ln) = Ok chains → chainsOf (withChains ln chains) = chains ∧ Forall2 (λ c c', f c = Ok c') (chainsOf ln) chains.
Proof. intros Hf%omapM_ok. split; [|done]. apply chainsOf_withChains. symmetry. by eapply Forall2_length. Qed.

(** An insertion that is not at the end. *)
Lemma wellFormed_insert f fs n : hf_Name f ≠ wellknown_Router → n < length fs → wellFormed fs → wellFormed (take n fs ++ f :: drop n fs).
Proof.
  intros Hf Hn (pre & router & -> & Hr & Hpre). rewrite length_app in Hn. cbn in Hn. exists (take n pre ++ f :: drop n pre), router.
  rewrite take_app_le, drop_app_le by lia. split; [by rewrite <-app_assoc|]. split; [done|].
  apply Forall_app. split; [by apply Forall_take|]. constructor; [done|by apply Forall_drop].
Qed.

Lemma wellFormed_insertBeforeRouter f fs : hf_Name f ≠ wellknown_Router → wellFormed fs → wellFormed (insertBeforeRouter f fs).
Proof.
  intros Hf (pre & router & -> & Hr & Hpre). exists (pre ++ [f]), router. split; [|split; [done|by apply Forall_app; split; [|constructor]]].
  rewrite <-app_assoc. cbn. induction Hpre as [|g pre Hg Hpre IH]; cbn; [by rewrite bool_decide_true|]. rewrite bool_decide_false by done. by rewrite IH.
Qed.

Lemma wellFormed_insertHeader f fs fs' :
  hf_Name f ≠ wellknown_Router → wellFormed fs → insertHeaderToMetadataFilter f fs = Ok fs' → wellFormed fs'.
Proof.
  intros Hf (pre & router & -> & Hr & Hpre) H. exists (pre ++ [f]), router. split; [|split; [done|by apply Forall_app; split; [|constructor]]].
  rewrite <-app_assoc. cbn. revert fs' H. induction Hpre as [|g pre Hg Hpre IH]; intros fs'; cbn.
  - rewrite bool_decide_true by done. by intros [= <-].
  - rewrite bool_decide_false by done. intros H. outcome_inv. subst fs'. f_equal. by apply IH.
Qed.

Lemma wellFormed_replace fs i f g :
  fs !! i = Some f → hf_Name g = hf_Name f → wellFormed fs → wellFormed (<[i := g]> fs).
Proof.
  intros Hi Hn (pre & router & -> & Hr & Hpre). destruct (decide (i < length pre)) as [Hl|Hl].
  - rewrite insert_app_l by done. exists (<[i := g]> pre), router. split; [done|]. split; [done|]. apply Forall_insert; [done|].
    rewrite lookup_app_l in Hi by done. rewrite Hn. by eapply Forall_lookup_1 in Hpre.
  - rewrite lookup_app_r in Hi by lia. destruct (i - length pre) as [|k] eqn:E; [|done]. cbn in Hi. injection Hi as <-.
    rewrite insert_app_r_alt by lia. rewrite E. cbn. exists pre, g. by rewrite Hn.
Qed.

Lemma wellFormed_filter (P : HttpFilter → Prop) `{∀ f, Decision (P f)} fs :
  (∀ f, hf_Name f = wellknown_Router → P f) → wellFormed fs → wellFormed (filter P fs).
Proof.
  intros HP (pre & router & -> & Hr & Hpre). rewrite filter_app, filter_cons_True, filter_nil by auto. exists (filter P pre), router.
  split; [done|]. split; [done|]. apply Forall_forall. intros f [_ Hf]%list_elem_of_filter. by eapply Forall_forall in Hpre.
Qed.

Section WellFormed.
Context `{TA : !ToAny, EF : !EnvoyFilterNames, EFL : !EnvoyFilterLaws EF}.

(** *** Endpoint pickers *)

Lemma pickerName_not_router pool : httpFilterNameForInferencePool pool ≠ wellknown_Router.
Proof. discriminate. Qed.
Lemma pickerName_not_processor pool : httpFilterNameForInferencePool pool ≠ aiGatewayExtProcName.
Proof. discriminate. Qed.

(** No picker has the name of another filter. *)
Lemma addPoolFilter_names n filters pools poolFilters acc :
  (∀ pool, httpFilterNameForInferencePool pool ≠ n) → ofold (addPoolFilter filters) acc pools = Ok poolFilters →
  Forall (λ f, hf_Name f ≠ n) acc → Forall (λ f, hf_Name f ≠ n) poolFilters.
Proof.
  intros Hn H Ha. refine (ofold_inv (λ l, Forall (λ f, hf_Name f ≠ n) l) _ _ _ _ Ha _ H). intros x pool x' Hx _ Hadd.
  unfold addPoolFilter, buildInferencePoolHTTPFilter in Hadd. repeat case_match; simplify_eq; [done|done| |done|done].
  apply Forall_app. split; [done|]. constructor; [|done]. outcome_inv. subst. apply Hn.
Qed.

Lemma wellFormed_patchChain pools c c' : patchChainWithPools pools c = Ok c' → chainOk c → chainOk c'.
Proof.
  unfold patchChainWithPools, chainOk. destruct (fc_HCM c) as [hcm|] eqn:E; [|intros [= <-]; by rewrite E].
  intros H (pre & router & Hfs & Hr & Hpre). outcome_inv. apply (addPoolFilter_names wellknown_Router) in H; [|apply pickerName_not_router|done]. case_match; simplify_eq; [|by rewrite E; exists pre, router].
  cbn [fc_HCM hcm_HttpFilters setHttpFilters]. rewrite Hfs, last_snoc in H0.
  destruct x as [|f fs]; injection H0 as <-; [by exists pre, router|]. rewrite removelast_last.
  exists (pre ++ f :: fs), router. split; [by rewrite <-app_assoc|]. split; [done|]. by apply Forall_app.
Qed.

Lemma patchListener_ok pools ln ln' : patchListenerWithInferencePoolFilters ln pools = Ok ln' → listenerOk ln → listenerOk ln'.
Proof.
  unfold patchListenerWithInferencePoolFilters, listenerOk. intros H Hok. outcome_inv. subst ln'. apply omapM_chains in H as [-> Hf].
  induction Hf; inversion Hok; constructor; eauto using wellFormed_patchChain.
Qed.

(** *** The external processor *)

Lemma lastIndex_lookup {A} (p : A → bool) l i : lastIndex p l = Some i → ∃ a, l !! i = Some a ∧ p a = true.
Proof.
  revert i. induction l as [|a l IH]; intros i; [done|]. cbn. destruct (lastIndex p l) as [j|]; [intros [= <-]; by apply IH|].
  destruct (p a) eqn:E; [|done]. intros [= <-]. eauto.
Qed.

Lemma lastIndex_last {A} (p : A → bool) l i j a : lastIndex p l = Some i → l !! j = Some a → i < j → p a = false.
Proof.
  revert i j. induction l as [|b l IH]; intros i j; [done|]. cbn. destruct (lastIndex p l) as [k|] eqn:E.
  - intros [= <-] Hj Hlt. destruct j as [|j]; [lia|]. cbn in Hj. apply (IH k j); [done|done|lia].
  - destruct (p b) eqn:Eb; [|done]. intros [= <-] Hj Hlt. destruct j as [|j]; [lia|]. cbn in Hj. clear IH Hlt. revert j Hj. clear Eb.
    induction l as [|d l IH]; intros j Hj; [done|]. cbn in E. destruct (lastIndex p l) eqn:El; [done|]. destruct (p d) eqn:Ed; [done|].
    destruct j as [|j]; cbn in Hj; [congruence|]. by eapply IH.
Qed.

Lemma lastIndex_none {A} (p : A → bool) l : lastIndex p l = None → Forall (λ a, p a = false) l.
Proof.
  induction l as [|a l IH]; [done|]. cbn. destruct (lastIndex p l); [done|]. destruct (p a) eqn:E; [done|]. intros _. constructor; auto.
Qed.

(** Where the filter goes: after every buffer filter, and before every filter it
    feeds or right after a buffer filter. *)
Lemma insert_position fs f fs' :
  insertAIGatewayExtProcFilter fs f = Ok fs' →
  ∃ pre post, fs = pre ++ post ∧ fs' = pre ++ f :: post ∧ Forall (λ g, isBuffer g = false) post ∧
    (Forall (λ g, isAfterExtProc g = false) pre ∧ post ≠ [] ∨ ∃ pre' b, pre = pre' ++ [b] ∧ isBuffer b = true).
Proof.
  unfold insertAIGatewayExtProcFilter, firstIndex. destruct (list_find _ fs) as [[i g]|] eqn:Ef; [|done]. cbn [fmap option_fmap option_map fst].
  apply list_find_Some in Ef as (Hi & Hg & Hbefore). intros [= <-].
  assert (Forall (λ g, isAfterExtProc g = false) (take i fs) ∧ drop i fs ≠ []) as Hfirst.
  { split; [|rewrite (drop_S _ _ _ Hi); done]. apply Forall_lookup_2. intros k x [Hk Hlt]%lookup_take_Some. specialize (Hbefore k x Hk Hlt).
    by destruct (isAfterExtProc x). }
  destruct (lastIndex isBuffer fs) as [b|] eqn:El.
  2:{ exists (take i fs), (drop i fs). rewrite take_drop. split_and!; [done..| |by left]. by apply Forall_drop, lastIndex_none. }
  destruct (lastIndex_lookup _ _ _ El) as (x & Hx & Hbx). destruct (Nat.leb_spec i b) as [Hle|Hlt].
  - exists (take (S b) fs), (drop (S b) fs). rewrite take_drop. split_and!; [done..| |].
    + apply Forall_lookup_2. intros k y Hy. rewrite lookup_drop in Hy. eapply lastIndex_last; [exact El|exact Hy|lia].
    + right. exists (take b fs), x. split; [by apply take_S_r|done].
  - exists (take i fs), (drop i fs). rewrite take_drop. split_and!; [done..| |by left].
    apply Forall_lookup_2. intros k y Hy. rewrite lookup_drop in Hy. eapply lastIndex_last; [exact El|exact Hy|lia].
Qed.

Lemma wellFormed_insertExtProc fs f fs' :
  hf_Name f ≠ wellknown_Router → insertAIGatewayExtProcFilter fs f = Ok fs' → wellFormed fs → wellFormed fs'.
Proof using EFL.
  intros Hf (pre & post & -> & -> & _ & Hpos)%insert_position Hw.
  assert (post ≠ []) as Hne.
  { destruct Hpos as [[_ ?]|(pre' & b & -> & Hb)]; [done|]. intros ->. destruct Hw as (pre & router & E & Hr & _). rewrite app_nil_r in E.
    apply app_inj_tail in E as [_ ->]. unfold isBuffer in Hb. rewrite Hr, router_not_buffer in Hb. done. }
  assert (length pre < length (pre ++ post)) as Hl by (rewrite length_app; destruct post; [done|cbn; lia]).
  pose proof (wellFormed_insert f _ _ Hf Hl Hw) as H. by rewrite take_app_length, drop_app_length in H.
Qed.

Lemma insertIntoChains_ok chains chains' :
  insertIntoChains chains = Ok chains' → Forall chainOk chains → Forall chainOk chains' ∧ length chains' = length chains.
Proof using EFL.
  revert chains'. induction chains as [|c chains IH]; intros chains'; cbn [insertIntoChains].
  { by intros [= <-]. }
  intros H (Hc & Hcs)%Forall_cons. destruct (fc_HCM c) as [hcm|] eqn:E.
  2:{ outcome_inv. subst chains'. edestruct IH as [? Hl]; [done..|]. split; [by constructor|cbn; by rewrite Hl]. }
  destruct (negb _); [outcome_inv; subst chains'; split; [by constructor|done]|]. outcome_inv. subst chains'.
  edestruct IH as [? Hl]; [done..|]. split; [|cbn; by rewrite Hl]. constructor; [|done]. unfold chainOk in *. rewrite E in Hc. cbn [fc_HCM hcm_HttpFilters matchUpstream setHttpFilters].
  eapply wellFormed_insertExtProc; [|done|done]. discriminate.
Qed.

Lemma insertRouterLevel_ok ln ln' : insertRouterLevelAIGatewayExtProc ln = Ok ln' → listenerOk ln → listenerOk ln'.
Proof using EFL.
  unfold insertRouterLevelAIGatewayExtProc, listenerOk. intros H Hok. outcome_inv. subst ln'.
  apply insertIntoChains_ok in H as [? Hl]; [|done]. by rewrite chainsOf_withChains.
Qed.

(** *** Listeners and routes *)

Lemma Forall_insert_Some {A} (P : A → Prop) (l : list A) i x : Forall P l → P x → Forall P (<[i := x]> l).
Proof. intros. by apply Forall_insert. Qed.

Lemma enableOnListeners_ok s names routes listeners ls rs :
  enableOnListeners s names routes listeners = Ok (ls, rs) → Forall listenerOk listeners → Forall listenerOk ls.
Proof using EFL.
  revert routes ls rs. induction listeners as [|ln listeners IH]; intros routes ls rs; cbn [enableOnListeners].
  { by intros [= <- _]. }
  intros H (Hln & Hls)%Forall_cons. outcome_inv. subst ls rs. destruct x as [ln' routes'], x0 as [ls' rs']. cbn [fst snd] in *.
  constructor; [|by eapply IH]. unfold enableOnListener in H. outcome_inv. subst ln'.
  destruct (x.2); outcome_inv; [by eapply insertRouterLevel_ok|by subst].
Qed.

Context (rangePools : gmap string InferencePool → list (string * InferencePool)).
Context (rangeListeners : gmap string (list InferencePool) → list (string * list InferencePool)).

Lemma maybeModifyListenerAndRoutes_ok s listeners routes ls rs :
  maybeModifyListenerAndRoutes rangePools rangeListeners s listeners routes = Ok (ls, rs) → Forall listenerOk listeners → Forall listenerOk ls.
Proof using EFL.
  unfold maybeModifyListenerAndRoutes. intros H Hok. outcome_inv. eapply enableOnListeners_ok; [done|].
  refine (ofold_inv (λ acc, Forall listenerOk acc.1) _ (listeners, routes) _ _ Hok _ H). clear -EFL.
  intros [ls rs] [name pools] acc' Hls _ Hp. unfold patchWithPools in Hp. outcome_inv. subst acc'. cbn [fst snd] in *.
  case_match; [|done]. destruct p as [i ln]. outcome_inv. subst x. apply Forall_insert_Some; [done|]. eapply patchListener_ok; [done|].
  destruct (namedListener ls name) as [k|]; [|done]. cbn in H1. destruct (ls !! k) eqn:El; [|done]. cbn in H1. injection H1 as <- <-.
  by eapply Forall_lookup_1 in Hls.
Qed.
End WellFormed.

Section Whole.
Context `{TA : !ToAny, EF : !EnvoyFilterNames, EFL : !EnvoyFilterLaws EF}.
Context (rangePools : gmap string InferencePool → list (string * InferencePool)).
Context (rangeListeners : gmap string (list InferencePool) → list (string * list InferencePool)).

(** *** Request headers *)

Lemma headerToMetadataChain_ok attrs c c' : headerToMetadataChain attrs c = Ok c' → chainOk c → chainOk c'.
Proof.
  unfold headerToMetadataChain, chainOk. destruct (fc_HCM c) as [hcm|] eqn:E; [|intros [= <-]; by rewrite E]. intros H Hw.
  destruct (list_find _ _) as [[i f]|] eqn:Ef.
  - apply list_find_Some in Ef as (Hi & _). destruct (hf_Config f); try done. destruct (mergeHeaderToMetadataRules _ _); outcome_inv; subst c'.
    + cbn. by eapply wellFormed_replace.
    + by rewrite E.
  - outcome_inv. subst c'. cbn. destruct x as [f|]; [|by outcome_inv; subst]. eapply wellFormed_insertHeader; [|exact Hw|done].
    unfold buildHeaderToMetadataFilter in H. case_bool_decide; [done|]. outcome_inv. by simplify_eq.
Qed.

Lemma insertRequestHeader_ok s listeners ls :
  insertRequestHeaderToMetadataFilters s listeners = Ok ls → Forall listenerOk listeners → Forall listenerOk ls.
Proof.
  unfold insertRequestHeaderToMetadataFilters. case_bool_decide; [by intros [= <-]|]. intros Hf%omapM_ok Hok.
  induction Hf as [|ln ln' listeners ls Hln _ IH]; [done|]. apply Forall_cons in Hok as [Ho Hos]. constructor; [|by apply IH].
  unfold insertRequestHeaderToMetadataFilter, listenerOk in *. outcome_inv. subst ln'. match goal with Hm : omapM _ _ = _ |- _ => apply omapM_chains in Hm as [-> Hc] end.
  clear -Hc Ho. induction Hc; inversion Ho; constructor; eauto using headerToMetadataChain_ok.
Qed.

(** *** MCP *)

Definition mcpFilters (fs : list HttpFilter) : Prop := Forall (λ f, isMCPBackendHTTPFilter f = true) fs.

Lemma mcp_not_router f : isMCPBackendHTTPFilter f = true → hf_Name f ≠ wellknown_Router.
Proof. unfold isMCPBackendHTTPFilter. intros H E. rewrite E in H. vm_compute in H. done. Qed.

Lemma extractFromChain_ok acc acc' c c' :
  extractFromChain acc c = Ok (acc', c') → mcpFilters acc.1 → mcpFilters acc'.1 ∧ (chainOk c → chainOk c').
Proof.
  unfold extractFromChain, chainOk, mcpFilters. destruct (fc_HCM c) as [hcm|] eqn:E; [|intros [= <- <-]; by rewrite E]. intros H Ha.
  assert (Forall (λ f, isMCPBackendHTTPFilter f = true) (acc.1 ++ filter (λ f, isMCPBackendHTTPFilter f = true) (hcm_HttpFilters hcm))) as Hall.
  { apply Forall_app. split; [done|]. apply Forall_forall. by intros f [? _]%list_elem_of_filter. }
  case_bool_decide; [injection H as <- <-; by rewrite E|]. outcome_inv. subst acc' c'. split; [done|]. cbn. apply wellFormed_filter.
  intros f Hf. unfold isMCPBackendHTTPFilter. rewrite Hf. by vm_compute.
Qed.

Lemma extractFromChains_ok acc acc' cs cs' :
  extractFromChains acc cs = Ok (acc', cs') → mcpFilters acc.1 → mcpFilters acc'.1 ∧ length cs' = length cs ∧ (Forall chainOk cs → Forall chainOk cs').
Proof.
  revert acc cs'. induction cs as [|c cs IH]; intros acc cs'; cbn [extractFromChains]; [by intros [= <- <-]|]. intros H Ha.
  outcome_inv. subst acc' cs'. destruct x as [acc1 c1], x0 as [acc2 cs2]. cbn [fst snd] in *.
  apply extractFromChain_ok in H as [H1 H2]; [|done]. apply IH in H0 as (H3 & H4 & H5); [|done]. split; [done|]. split; [cbn; by rewrite H4|].
  intros [? ?]%Forall_cons. constructor; auto.
Qed.

Lemma extractMCP_ok acc acc' listeners ls :
  extractMCPBackendFiltersFromMCPProxyListener acc listeners = Ok (acc', ls) → mcpFilters acc.1 →
  mcpFilters acc'.1 ∧ (Forall listenerOk listeners → Forall listenerOk ls).
Proof.
  revert acc ls. induction listeners as [|ln listeners IH]; intros acc ls; cbn [extractMCPBackendFiltersFromMCPProxyListener]; [by intros [= <- <-]|].
  intros H Ha. outcome_inv. subst acc' ls. destruct x as [acc1 ln1], x0 as [acc2 ls2]. cbn [fst snd] in *.
  assert (mcpFilters acc1.1 ∧ (listenerOk ln → listenerOk ln1)) as [H1 H2].
  { case_bool_decide; outcome_inv; [by subst|]. subst. destruct x as [acc3 cs]. cbn [fst snd] in *.
    apply extractFromChains_ok in H as (? & ? & ?); [|done]. split; [done|]. unfold listenerOk. by rewrite chainsOf_withChains. }
  apply IH in H0 as [H3 H4]; [|done]. split; [done|]. intros [? ?]%Forall_cons. constructor; auto.
Qed.

Lemma createBackendListener_ok fs log l : createBackendListener fs log = Ok l → mcpFilters fs → listenerOk l.
Proof.
  unfold createBackendListener. intros H Hf. outcome_inv. subst l. constructor; [|done]. unfold chainOk. cbn [fc_HCM hcm_HttpFilters].
  eexists (fs ++ [_]), _. split; [by rewrite <-app_assoc|]. split; [done|]. apply Forall_app. split; [|by constructor].
  eapply Forall_impl; [exact Hf|]. apply mcp_not_router.
Qed.

Lemma maybeGenerateMCP_ok clusters listeners routes cs ls rs :
  maybeGenerateResourcesForMCPGateway clusters listeners routes = Ok (cs, ls, rs) → Forall listenerOk listeners → Forall listenerOk ls.
Proof.
  unfold maybeGenerateResourcesForMCPGateway. intros H Hok. case_match; [by injection H as <- <- <-|].
  destruct (createRoutesForBackendListener _) as [routes' [rc|]]; outcome_inv; subst; [|done]. cbn [fst snd].
  destruct x0 as [[fs log] ls]. cbn [fst snd] in *. apply extractMCP_ok in H as [Hm Hls]; [|by constructor].
  apply Forall_app. split; [auto|]. constructor; [|done]. by eapply createBackendListener_ok.
Qed.

(** *** Quotas *)

Context `{XC : !XdsClient, SH : !SortHeaders, MA : !Marshal, GC : !GrantClient, QC : !QuotaClient}.

Lemma injectIntoChains_ok s domain chains :
  Forall chainOk chains → Forall chainOk (injectIntoChains s domain chains).1 ∧ length (injectIntoChains s domain chains).1 = length chains.
Proof.
  induction 1 as [|c chains Hc Hcs IH]; [done|]. cbn [injectIntoChains]. destruct (injectIntoChain s domain c) as [c'|e|p] eqn:E; [|by cbn; auto..].
  destruct (injectIntoChains s domain chains) as [cs r]. cbn [fst] in *. destruct IH as [? Hl]. split; [|cbn; by rewrite Hl]. constructor; [|done].
  unfold injectIntoChain, chainOk in *. destruct (fc_HCM c) as [hcm|] eqn:Eh; [|injection E as <-; by rewrite Eh].
  destruct (existsb _ _); [injection E as <-; by rewrite Eh|]. unfold buildQuotaRateLimitFilter in E. outcome_inv. subst. cbn.
  by apply wellFormed_insertBeforeRouter.
Qed.

Lemma injectQuota_ok s domain ln : listenerOk ln → listenerOk (injectQuotaRateLimitFilterIntoListener s domain ln).1.
Proof.
  unfold injectQuotaRateLimitFilterIntoListener, listenerOk. intros [H1 H2]%(injectIntoChains_ok s domain). fold (chainsOf ln) in *.
  destruct (injectIntoChains s domain (chainsOf ln)) as [cs r]. cbn [fst] in *. fold (withChains ln cs). by rewrite (chainsOf_withChains ln cs).
Qed.

Lemma maybeInjectQuota_ok s clusters listeners routes cs ls rs :
  maybeInjectQuotaRateLimiting s clusters listeners routes = Ok (cs, ls, rs) → Forall listenerOk listeners → Forall listenerOk ls.
Proof.
  unfold maybeInjectQuotaRateLimiting. intros H Hok. destruct list_QuotaPolicies as [policies|e|p]; [|by destruct (errors_Is e _); simplify_eq|done].
  case_bool_decide; [by injection H as <- <- <-|]. outcome_inv. subst. apply Forall_fmap.
  eapply Forall_impl; [exact Hok|]. intros ln Hln. cbn. case_match; [by apply injectQuota_ok|done].
Qed.

Context (net_ParseIP : string → bool) (ParseDuration : string → option Z).

(** C8: The filters of every connection manager stay well formed.  When each chain
    of the snapshot ends in its one router filter, so does each chain of what the
    extension server returns: after the filters of the endpoint pickers, of the
    external processor, of the request headers and of the quotas, after the filters
    of MCP backends have been taken out, and in the listener made for them. *)
Theorem router_stays_last s clusters listeners routes cs ls rs :
  Forall listenerOk listeners →
  PostTranslateModify rangePools rangeListeners net_ParseIP ParseDuration s clusters listeners routes = Ok (cs, ls, rs) →
  Forall listenerOk ls.
Proof using EFL.
  intros Hok H. unfold PostTranslateModify in H. outcome_inv. destruct x1 as [ls1 rs1], x4 as [[cs4 ls4] rs4]. cbn [fst snd] in *.
  eapply maybeInjectQuota_ok; [done|]. eapply insertRequestHeader_ok; [done|]. eapply maybeGenerateMCP_ok; [done|].
  by eapply maybeModifyListenerAndRoutes_ok.
Qed.
End Whole.

(** ** MCP backends *)

Definition chainFilters (c : FilterChain) : list HttpFilter := default [] (hcm_HttpFilters <$> fc_HCM c).
Definition filtersOf (ln : Listener) : list HttpFilter := chainsOf ln ≫= chainFilters.
Definition backendRouteConfig : string := mcpBackendListenerName +:+ "-route-config".

Lemma mbind_cons {A B} (f : A → list B) a l : (a :: l) ≫= f = f a ++ (l ≫= f).
Proof. done. Qed.

Lemma filter_all {A} (P : A → Prop) `{∀ x, Decision (P x)} (l : list A) : (∀ x, x ∈ l → P x) → filter P l = l.
Proof.
  intros Hl. induction l as [|x l IH]; [done|]. rewrite filter_cons_True by (apply Hl; constructor). f_equal. apply IH. intros y Hy. apply Hl. by constructor.
Qed.

Section Mcp.
Context `{TA : !ToAny}.

Notation isMcp := (λ f, isMCPBackendHTTPFilter f = true).
Notation notMcp := (λ f, isMCPBackendHTTPFilter f = false).

Lemma filter_not_mcp fs : filter isMcp fs = [] → filter notMcp fs = fs.
Proof.
  induction fs as [|f fs IH]; [done|]. destruct (isMCPBackendHTTPFilter f) eqn:E.
  - by rewrite filter_cons_True.
  - rewrite filter_cons_False, filter_cons_True by congruence. intros Hf. by rewrite IH.
Qed.

(** The filters are split, in order. *)
Lemma extractFromChain_split acc acc' c c' :
  extractFromChain acc c = Ok (acc', c') →
  acc'.1 = acc.1 ++ filter isMcp (chainFilters c) ∧ chainFilters c' = filter notMcp (chainFilters c).
Proof.
  unfold extractFromChain, chainFilters. destruct (fc_HCM c) as [hcm|] eqn:E; cbn [fmap option_fmap option_map from_option id].
  2:{ intros [= <- <-]. rewrite E. cbn. by rewrite app_nil_r. }
  case_bool_decide as Hn; intros H; [injection H as <- <-|outcome_inv; subst]; cbn [fst].
  - rewrite E. cbn. by rewrite filter_not_mcp.
  - done.
Qed.

Lemma extractFromChains_split acc acc' cs cs' :
  extractFromChains acc cs = Ok (acc', cs') →
  acc'.1 = acc.1 ++ filter isMcp (cs ≫= chainFilters) ∧ cs' ≫= chainFilters = filter notMcp (cs ≫= chainFilters) ∧ length cs' = length cs.
Proof.
  revert acc cs'. induction cs as [|c cs IH]; intros acc cs'; cbn [extractFromChains]; [intros [= <- <-]; cbn; by rewrite app_nil_r|].
  intros H. outcome_inv. subst acc' cs'. destruct x as [acc1 c1], x0 as [acc2 cs2]. cbn [fst snd] in *.
  apply extractFromChain_split in H as [H1 H2]. apply IH in H0 as (H3 & H4 & H5). rewrite !mbind_cons, !filter_app, H3, H1, H2, H4, <-app_assoc.
  split_and!; [done..|cbn; by rewrite H5].
Qed.

Lemma extractMCP_split acc acc' listeners ls :
  extractMCPBackendFiltersFromMCPProxyListener acc listeners = Ok (acc', ls) → Forall (λ ln, ln_Name ln ≠ mcpBackendListenerName) listeners →
  acc'.1 = acc.1 ++ filter isMcp (listeners ≫= filtersOf) ∧ Forall2 (λ ln ln', filtersOf ln' = filter notMcp (filtersOf ln)) listeners ls.
Proof.
  revert acc ls. induction listeners as [|ln listeners IH]; intros acc ls; cbn [extractMCPBackendFiltersFromMCPProxyListener].
  { intros [= <- <-]. cbn. by rewrite app_nil_r. }
  intros H (Hn & Hns)%Forall_cons. outcome_inv. subst acc' ls. destruct x as [acc1 ln1], x0 as [acc2 ls2]. cbn [fst snd] in *.
  rewrite bool_decide_false in H by done. outcome_inv. subst acc1 ln1. destruct x as [acc3 cs]. cbn [fst snd] in *.
  apply extractFromChains_split in H as (H1 & H2 & H3). apply IH in H0 as [H4 H5]; [|done].
  rewrite mbind_cons, filter_app, H4, H1, <-app_assoc. split; [done|]. constructor; [|done].
  unfold filtersOf at 1. by rewrite chainsOf_withChains.
Qed.

(** A route Envoy Gateway made from the HTTPRoute of one backend of an MCPRoute, and
    one that goes to a single cluster. *)
Definition mcpBackendRoute (r : Route) : bool := ContainsStr (ro_Name r) MCPPerBackendRefHTTPRoutePrefix.
Definition toOneCluster (r : Route) : Prop := ∃ c, ro_Action r = Some (SingleCluster c).

Lemma filter_in {A} (P Q : A → Prop) `{∀ x, Decision (P x), ∀ x, Decision (Q x)} l : Forall (λ x, P x ↔ Q x) l → filter P l = filter Q l.
Proof.
  induction 1 as [|x l Hx Hl IH]; [done|]. rewrite !filter_cons. destruct (decide (P x)), (decide (Q x)); [by rewrite IH|tauto..|done].
Qed.

Lemma moveOf_spec r : (mcpBackendRoute r = true → toOneCluster r) →
  (moveOf r = Keep ↔ mcpBackendRoute r = false) ∧ (moveOf r = Move ↔ mcpBackendRoute r = true ∧ is_ok (any_Route r) = true).
Proof.
  unfold moveOf, mcpBackendRoute. destruct (ContainsStr _ _); [|intros _; by split; [done|split; [done|intros [? ?]]]]. intros [c ->]; [done|].
  destruct (any_Route r); cbn; split; split; try done; by intros [_ ?].
Qed.

(** The update keeps the names and the actions. *)
Lemma updateMCPRoute_keeps r : ro_Name (updateMCPRoute r) = ro_Name r ∧ ro_Action (updateMCPRoute r) = ro_Action r.
Proof. unfold updateMCPRoute. by repeat case_match. Qed.

Lemma maybeUpdate_routes routes : maybeUpdateMCPRoutes routes ≫= allRoutes = updateMCPRoute <$> (routes ≫= allRoutes).
Proof.
  induction routes as [|rc routes IH]; [done|]. cbn. rewrite fmap_app. f_equal; [|exact IH]. unfold allRoutes. cbn.
  induction (rcf_VirtualHosts rc) as [|vh vhs IHv]; [done|]. cbn. by rewrite fmap_app, IHv.
Qed.

Lemma kept_routes rc :
  allRoutes (setVirtualHosts ((λ vh, setRoutes (filter (λ r, moveOf r = Keep) (vh_Routes vh)) vh) <$> rcf_VirtualHosts rc) rc) =
  filter (λ r, moveOf r = Keep) (allRoutes rc).
Proof. unfold allRoutes. cbn. induction (rcf_VirtualHosts rc) as [|vh vhs IH]; [done|]. cbn. by rewrite filter_app, IH. Qed.

(** What stays in a configuration. *)
Definition withoutBackends (rc rc' : RouteConfiguration) : Prop :=
  rcf_Name rc' = rcf_Name rc ∧ allRoutes rc' = filter (λ r, mcpBackendRoute r = false) (allRoutes rc).

Lemma moved_or_kept routes :
  Forall (λ r, mcpBackendRoute r = true → toOneCluster r) (routes ≫= allRoutes) →
  let '(kept, moved) := createRoutesForBackendListener routes in
  let mcp := filter (λ r, mcpBackendRoute r = true ∧ is_ok (any_Route r) = true) (routes ≫= allRoutes) in
  Forall2 withoutBackends routes kept ∧
  match moved with None => mcp = [] | Some rc => rcf_Name rc = backendRouteConfig ∧ allRoutes rc = mcp ∧ mcp ≠ [] end.
Proof.
  intros Hone. unfold createRoutesForBackendListener. cbv zeta. split.
  - apply Forall2_fmap_r, Forall_Forall2_diag, Forall_forall. intros rc Hrc. split; [done|]. rewrite kept_routes. apply filter_in, Forall_forall.
    intros r Hr. rewrite Forall_forall in Hone. apply moveOf_spec, Hone, list_elem_of_bind. by exists rc.
  - assert (∀ r, (mcpBackendRoute r = true → toOneCluster r) → moveOf r = Move ↔ mcpBackendRoute r = true ∧ is_ok (any_Route r) = true) as Hmv
      by (intros r Hr; by apply moveOf_spec).
    rewrite <-(filter_in _ _ _ (Forall_impl _ _ _ Hone Hmv)). destruct (filter _ _) as [|r rs]; [done|]. split; [done|]. split; [by apply app_nil_r|done].
Qed.

(** C6: The routes and the credentials of MCP backends are on the loopback listener
    only.  Let the snapshot have listeners and routes, and no MCP backend listener yet.
    When the routes made from the HTTPRoutes of MCP backends, which are known by their names, go to one cluster each and one of them can be copied, all of them are
    taken out of the route configurations, which keep their other routes; a listener
    bound to the loopback address is made that serves just the copies and has all the
    filters of MCP backends, which inject their credentials; none of those filters is
    left in another listener.  When there is no such route no listener is made and the
    listeners, with any filters of MCP backends in them, stay as they are; a route of
    an MCP backend that does not go to a single cluster is not covered. *)
Theorem mcp_backends_on_loopback clusters listeners routes cs ls rs :
  listeners ≠ [] → routes ≠ [] → Forall (λ ln, ln_Name ln ≠ mcpBackendListenerName) listeners →
  Forall (λ r, mcpBackendRoute r = true → toOneCluster r) (routes ≫= allRoutes) →
  maybeGenerateResourcesForMCPGateway clusters listeners routes = Ok (cs, ls, rs) →
  let updated := maybeUpdateMCPRoutes routes in
  let mcp := filter (λ r, mcpBackendRoute r = true ∧ is_ok (any_Route r) = true) (updated ≫= allRoutes) in
  ∃ kept, Forall2 withoutBackends updated kept ∧
    (mcp = [] ∧ ls = listeners ∧ rs = kept ∨
     mcp ≠ [] ∧ ∃ public l rc, ls = public ++ [l] ∧ rs = kept ++ [rc] ∧ ln_Address l = Some ("127.0.0.1", MCPBackendListenerPort) ∧
       findListenerRouteConfigs l = [rcf_Name rc] ∧ allRoutes rc = mcp ∧
       Forall2 (λ ln ln', filtersOf ln' = filter notMcp (filtersOf ln)) listeners public ∧
       filter isMcp (filtersOf l) = filter isMcp (listeners ≫= filtersOf)).
Proof.
  intros Hl Hr Hln Hone H updated mcp. unfold maybeGenerateResourcesForMCPGateway in H. rewrite !bool_decide_false in H by done. cbn [orb] in H.
  assert (Forall (λ r, mcpBackendRoute r = true → toOneCluster r) (updated ≫= allRoutes)) as Hone'.
  { unfold updated. rewrite maybeUpdate_routes. apply Forall_fmap. eapply Forall_impl; [exact Hone|]. intros r. cbn.
    unfold mcpBackendRoute, toOneCluster. by destruct (updateMCPRoute_keeps r) as [-> ->]. }
  pose proof (moved_or_kept updated Hone') as Hm. fold updated in H. destruct (createRoutesForBackendListener updated) as [kept mv].
  destruct Hm as (Hk & Hmv). fold mcp in Hmv. exists kept. split; [done|].
  destruct mv as [rc|]; outcome_inv; subst; cbn [fst snd]; [|by left].
  destruct Hmv as (Hn & Hall & Hne). destruct x0 as [[fs log] ls]. cbn [fst snd] in *. right. split; [done|].
  match goal with Hx : extractMCPBackendFiltersFromMCPProxyListener _ _ = _ |- _ => apply extractMCP_split in Hx as [Hfs Hsplit] end; [|done].
  match goal with Hc : createBackendListener _ _ = Ok ?l |- _ => unfold createBackendListener in Hc; exists ls, l, rc end. outcome_inv.
  match goal with Hc : _ = x1 |- _ => subst x1 end. rewrite Hn. split_and!; [done..|].
  unfold filtersOf at 1, chainsOf. cbn. rewrite app_nil_r, filter_app. cbn in Hfs. rewrite Hfs.
  rewrite (filter_all isMcp (filter isMcp _)) by by intros f [? _]%list_elem_of_filter. rewrite (filter_none isMcp [_; _]), app_nil_r; [done|].
  intros f [->|[->|Hf%not_elem_of_nil]%elem_of_cons]%elem_of_cons; [by vm_compute..|done].
Qed.
End Mcp.

(** ** Where the external processor runs *)

Definition generated (s : Server) (r : Route) : Prop := isRouteGeneratedByAIGateway (sv_isStandAloneMode s) r = Ok true.
Definition processorOn (r : Route) : option PerFilterConfig := ro_TypedPerFilterConfig r !! aiGatewayExtProcName.

(** An edit turns the processor on for routes of the AI Gateway only. *)
Definition routeKeeps (s : Server) (r r' : Route) : Prop :=
  isRouteGeneratedByAIGateway (sv_isStandAloneMode s) r' = isRouteGeneratedByAIGateway (sv_isStandAloneMode s) r ∧
  (processorOn r' = processorOn r ∨ generated s r ∧ processorOn r' = Some ExtProcEnabled).
Definition configKeeps (s : Server) (rc rc' : RouteConfiguration) : Prop :=
  rcf_Name rc' = rcf_Name rc ∧ Forall2 (routeKeeps s) (allRoutes rc) (allRoutes rc').
Definition allOn (s : Server) (rc : RouteConfiguration) : Prop := Forall (λ r, generated s r → processorOn r = Some ExtProcEnabled) (allRoutes rc).

#[export] Instance routeKeeps_preorder s : PreOrder (routeKeeps s).
Proof.
  split; [intros r; split; [done|by left]|]. intros r1 r2 r3 [G12 H12] [G23 H23]. split; [congruence|]. unfold generated in *.
  destruct H23 as [E|[? ?]]; [|right; split; congruence]. destruct H12 as [E'|[? ?]]; [left|right; split]; congruence.
Qed.
#[export] Instance configKeeps_preorder s : PreOrder (configKeeps s).
Proof. split; [intros rc; split; reflexivity|]. intros rc1 rc2 rc3 [E12 H12] [E23 H23]. split; [congruence|by transitivity (allRoutes rc2)]. Qed.

Lemma allOn_keeps s rc rc' : configKeeps s rc rc' → allOn s rc → allOn s rc'.
Proof.
  intros [_ Hf]. unfold allOn. induction Hf as [|r r' rs rs' [G H] _ IH]; [done|]. intros [Hr Hrs]%Forall_cons. constructor; [|by apply IH].
  unfold generated in *. rewrite G. intros Hg. destruct H as [->|[_ ?]]; auto.
Qed.

Lemma allRoutes_Forall2 (R : Route → Route → Prop) vhs vhs' rc :
  Forall2 (λ vh vh', Forall2 R (vh_Routes vh) (vh_Routes vh')) vhs vhs' → rcf_VirtualHosts rc = vhs → Forall2 R (allRoutes rc) (allRoutes (setVirtualHosts vhs' rc)).
Proof. intros Hf E. unfold allRoutes. rewrite E. clear E. cbn [rcf_VirtualHosts setVirtualHosts]. induction Hf; [constructor|]. rewrite !mbind_cons. by apply Forall2_app. Qed.

Section Runs.
Context `{TA : !ToAny, EF : !EnvoyFilterNames}.

(** *** Routes *)

Lemma disablePickers_keeps s pools r : routeKeeps s r (disablePickers pools r).
Proof.
  split; [done|left]. unfold processorOn, disablePickers, setTypedPerFilterConfig. cbn [ro_TypedPerFilterConfig].
  induction pools as [|pool pools IH]; [done|]. cbn [fmap list_fmap foldr]. case_bool_decide; [done|]. rewrite lookup_insert_ne by discriminate. done.
Qed.

Lemma patchConfig_keeps s pools rc r : patchConfigWithPools pools rc = Ok r → configKeeps s rc r.1.
Proof.
  unfold patchConfigWithPools. intros H. outcome_inv. subst r. cbn [fst]. split; [done|]. apply omapM_ok in H. eapply allRoutes_Forall2; [|done].
  eapply Forall2_impl; [exact H|]. intros vh vh' Hv. cbn in Hv. apply owrap_ok_inv in Hv. unfold patchVirtualHostWithInferencePool in Hv. outcome_inv.
  subst vh'. cbn [vh_Routes setRoutes]. match goal with Hm : omapM _ _ = _ |- _ => apply omapM_ok in Hm; eapply Forall2_impl; [exact Hm|] end.
  intros q q' Hq. cbn in Hq. outcome_inv. subst q'. apply disablePickers_keeps.
Qed.

Lemma generated_metadata mode r v :
  isRouteGeneratedByAIGateway mode (setRouteMetadata (setInternalField InternalMetadataRouteNameKey v (ro_Metadata r)) r) = isRouteGeneratedByAIGateway mode r.
Proof.
  unfold isRouteGeneratedByAIGateway. cbn [ro_Metadata setRouteMetadata]. unfold setInternalField, Metadata. cbn [mbind option_bind].
  rewrite lookup_insert_ne by done. destruct (ro_Metadata r) as [m|]; [done|]. cbn [from_option id]. by rewrite lookup_empty.
Qed.

Lemma enableOnRoute_spec s name r r' :
  enableOnRoute s name r = Ok r' →
  routeKeeps s r r'.1 ∧ (generated s r → processorOn r'.1 = Some ExtProcEnabled) ∧ (r'.2 = true ↔ generated s r).
Proof.
  unfold enableOnRoute, generated. destruct (isRouteGeneratedByAIGateway _ r) as [[]| |] eqn:E; cbn [obind]; [| |done..]; intros [= <-]; cbn [fst snd].
  - assert (processorOn (setRouteMetadata (setInternalField InternalMetadataRouteNameKey (VString (routeNameFor name r)) (ro_Metadata r))
      (setTypedPerFilterConfig (<[aiGatewayExtProcName := ExtProcEnabled]> (ro_TypedPerFilterConfig r)) r)) = Some ExtProcEnabled) as Hon
      by (unfold processorOn; cbn; apply lookup_insert_eq).
    split; [|by split]. split; [|right; by split]. rewrite <-(generated_metadata _ r (VString (routeNameFor name r))). done.
  - split; [reflexivity|]. split; [done|]. by split.
Qed.

Lemma existsb_snd {A} (l : list (A * bool)) : existsb snd l = true ↔ Exists (λ p, p.2 = true) l.
Proof. rewrite existsb_exists, Exists_exists. setoid_rewrite list_elem_of_In. done. Qed.

Lemma enableRoutes_spec s name rs qs :
  Forall2 (λ r q, enableOnRoute s name r = Ok q) rs qs →
  Forall2 (routeKeeps s) rs qs.*1 ∧ Forall (λ r, generated s r → processorOn r = Some ExtProcEnabled) qs.*1 ∧
  (Exists (λ p, p.2 = true) qs ↔ Exists (generated s) rs).
Proof.
  induction 1 as [|r q rs qs Hq _ (IH1 & IH2 & IH3)]; [by rewrite !Exists_nil|]. apply enableOnRoute_spec in Hq as (Hk & Hon & Hg). cbn [fmap list_fmap].
  split; [by constructor|]. split; [|by rewrite !Exists_cons, Hg, IH3]. constructor; [|done]. destruct Hk as [G _]. unfold generated in *. by rewrite G.
Qed.

Lemma enableConfig_spec s rc r :
  enableRouterLevelAIGatewayExtProcOnRoute s rc = Ok r →
  configKeeps s rc r.1 ∧ allOn s r.1 ∧ (r.2 = true ↔ Exists (generated s) (allRoutes rc)).
Proof.
  unfold enableRouterLevelAIGatewayExtProcOnRoute. intros H. outcome_inv. subst r. cbn [fst snd].
  match goal with Hm : omapM _ _ = _ |- _ => apply omapM_ok in Hm as Hvs end. rewrite existsb_snd. unfold configKeeps, allOn, allRoutes.
  cbn [rcf_Name rcf_VirtualHosts setVirtualHosts].
  enough (Forall2 (routeKeeps s) (rcf_VirtualHosts rc ≫= vh_Routes) (x0.*1 ≫= vh_Routes) ∧
    Forall (λ r, generated s r → processorOn r = Some ExtProcEnabled) (x0.*1 ≫= vh_Routes) ∧
    (Exists (λ p, p.2 = true) x0 ↔ Exists (generated s) (rcf_VirtualHosts rc ≫= vh_Routes))) by tauto.
  clear -Hvs. induction Hvs as [|vh p vhs ps Hp _ (IH1 & IH2 & IH3)]; [by rewrite !Exists_nil|].
  outcome_inv. subst p. match goal with Hm : omapM _ _ = _ |- _ => apply omapM_ok, enableRoutes_spec in Hm as (H1 & H2 & H3) end.
  cbn [fmap list_fmap fst snd]. rewrite !mbind_cons. split; [by apply Forall2_app|]. split; [by apply Forall_app|].
  rewrite Exists_cons, Exists_app. cbn [snd]. by rewrite existsb_snd, H3, IH3.
Qed.

(** *** Configurations *)

Lemma namedConfig_names rs rs' name : rcf_Name <$> rs = rcf_Name <$> rs' → namedConfig rs name = namedConfig rs' name.
Proof.
  unfold namedConfig. revert rs'. induction rs as [|rc rs IH]; intros [|rc' rs'] E; [done..|]. injection E as E1 E2. cbn. by rewrite (IH _ E2), E1.
Qed.

Lemma keeps_names s rs rs' : Forall2 (configKeeps s) rs rs' → rcf_Name <$> rs = rcf_Name <$> rs'.
Proof. induction 1 as [|? ? ? ? [E _] _ IH]; [done|]. cbn. by rewrite E, IH. Qed.

(** The configuration with a name. *)
Definition configOf (rs : list RouteConfiguration) (name : string) : option RouteConfiguration := i ← namedConfig rs name; rs !! i.

Lemma configOf_keeps s rs rs' name rc' :
  Forall2 (configKeeps s) rs rs' → configOf rs' name = Some rc' → ∃ rc, configOf rs name = Some rc ∧ configKeeps s rc rc'.
Proof.
  intros Hf. unfold configOf. rewrite (namedConfig_names rs rs' name) by by eapply keeps_names. destruct (namedConfig rs' name) as [i|]; [|done]. cbn.
  intros Hi. destruct (Forall2_lookup_r _ _ _ _ _ Hf Hi) as (rc & Hrc & Hk). eauto.
Qed.

Lemma insert_keeps s (rs : list RouteConfiguration) i rc rc' : rs !! i = Some rc → configKeeps s rc rc' → Forall2 (configKeeps s) rs (<[i := rc']> rs).
Proof.
  intros Hi Hk. rewrite <-(list_insert_id rs i rc Hi) at 1. apply Forall2_insert; [reflexivity|done].
Qed.

Lemma onConfig_keeps s f acc acc' name :
  (∀ rc r, f rc = Ok r → configKeeps s rc r.1) → onConfig f acc name = Ok acc' → Forall2 (configKeeps s) acc.1 acc'.1.
Proof.
  intros Hf. unfold onConfig. destruct (namedConfig acc.1 name) as [i|]; cbn [mbind option_bind]; [|intros [= <-]; reflexivity].
  destruct (acc.1 !! i) as [rc|] eqn:Ei; cbn [fmap option_fmap option_map]; [|intros [= <-]; reflexivity]. intros H. outcome_inv. subst acc'. cbn [fst].
  by eapply insert_keeps, Hf.
Qed.

Lemma foldConfig_keeps s f names acc acc' :
  (∀ name rc r, f name rc = Ok r → configKeeps s rc r.1) → ofold (λ acc name, onConfig (f name) acc name) acc names = Ok acc' →
  Forall2 (configKeeps s) acc.1 acc'.1.
Proof.
  intros Hf H. refine (ofold_inv (λ x, Forall2 (configKeeps s) acc.1 x.1) _ acc _ _ _ _ H); [reflexivity|].
  intros x name x' Hx _ Hon. transitivity x.1; [done|]. eapply onConfig_keeps; [by apply Hf|done].
Qed.

Definition enableNamed (s : Server) (name : string) (rc : RouteConfiguration) : outcome (RouteConfiguration * bool) :=
  owrap ("failed to enable router level AI Gateway extproc on route config " +:+ name +:+ ": ") (enableRouterLevelAIGatewayExtProcOnRoute s rc).

Lemma enableNamed_keeps s name rc r : enableNamed s name rc = Ok r → configKeeps s rc r.1.
Proof. intros H%owrap_ok_inv. by apply enableConfig_spec. Qed.

Lemma onConfig_enabled s acc acc' name rc :
  onConfig (enableNamed s name) acc name = Ok acc' → configOf acc'.1 name = Some rc →
  allOn s rc ∧ (Exists (generated s) (allRoutes rc) → acc'.2 = true).
Proof.
  intros H Hc. assert (Forall2 (configKeeps s) acc.1 acc'.1) as Hk by (eapply onConfig_keeps; [apply enableNamed_keeps|done]).
  unfold configOf in Hc. rewrite <-(namedConfig_names acc.1) in Hc by by eapply keeps_names. unfold onConfig in H.
  destruct (namedConfig acc.1 name) as [i|] eqn:En; [|done]. cbn [mbind option_bind] in *.
  destruct (acc.1 !! i) as [rc0|] eqn:Ei; cbn [fmap option_fmap option_map] in *.
  - outcome_inv. subst acc'. cbn [fst snd] in *. rewrite list_lookup_insert_eq in Hc by by eapply lookup_lt_Some. injection Hc as <-.
    match goal with He : enableNamed _ _ _ = _ |- _ => apply owrap_ok_inv, enableConfig_spec in He as ([_ Hr] & Hon & Hg) end. split; [done|].
    intros Hex. apply orb_true_iff. right. apply Hg. clear -Hr Hex. induction Hr as [|r r' rs rs' [G _] _ IH]; [by apply Exists_nil in Hex|].
    unfold generated in *. apply Exists_cons in Hex as [Hx|Hx]; [left; congruence|right; by apply IH].
  - injection H as <-. congruence.
Qed.

Lemma exists_generated_keeps s rc rc' : configKeeps s rc rc' → Exists (generated s) (allRoutes rc') → Exists (generated s) (allRoutes rc).
Proof.
  intros [_ Hr]. induction Hr as [|r r' rs rs' [G _] _ IH]; [done|]. unfold generated in *. rewrite !Exists_cons, G. tauto.
Qed.

Lemma enableFold s names acc acc' :
  ofold (λ acc name, onConfig (enableNamed s name) acc name) acc names = Ok acc' →
  (acc.2 = true → acc'.2 = true) ∧
  ∀ name rc, name ∈ names → configOf acc'.1 name = Some rc → allOn s rc ∧ (Exists (generated s) (allRoutes rc) → acc'.2 = true).
Proof.
  revert acc. induction names as [|n names IH]; intros acc; cbn [ofold]; [intros [= <-]; split; [done|by intros ? ? ?%not_elem_of_nil]|].
  intros H. outcome_inv. assert (acc.2 = true → x.2 = true) as Hmono.
  { unfold onConfig in H. case_match; [|by injection H as <-]. destruct p. outcome_inv. subst x. cbn. by intros ->. }
  destruct (IH _ H0) as [Hm Hall]. split; [auto|]. intros name rc [->|Hin]%elem_of_cons Hc; [|by eapply Hall].
  assert (Forall2 (configKeeps s) x.1 acc'.1) as Hk by (eapply foldConfig_keeps; [apply enableNamed_keeps|done]).
  destruct (configOf_keeps _ _ _ _ _ Hk Hc) as (rc1 & Hc1 & Hkeep). destruct (onConfig_enabled _ _ _ _ _ H Hc1) as [Hon Hex].
  split; [by eapply allOn_keeps|]. intros He. apply Hm, Hex. by eapply exists_generated_keeps.
Qed.

(** *** Listeners *)

(** The processor comes after every buffer filter, and before every filter it feeds
    or right after a buffer filter. *)
Definition placed (fs : list HttpFilter) : Prop :=
  ∃ pre post, fs = pre ++ routerLevelFilter :: post ∧ Forall (λ g, isBuffer g = false) post ∧
    (Forall (λ g, isAfterExtProc g = false) pre ∨ ∃ pre' b, pre = pre' ++ [b] ∧ isBuffer b = true).
Definition chainPlaced (c : FilterChain) : Prop := match fc_HCM c with Some hcm => placed (hcm_HttpFilters hcm) | None => True end.

Definition withoutProcessor (ln : Listener) : Prop := Forall (λ f, hf_Name f ≠ aiGatewayExtProcName) (filtersOf ln).

Lemma insertIntoChains_placed cs cs' :
  insertIntoChains cs = Ok cs' → Forall (λ f, hf_Name f ≠ aiGatewayExtProcName) (cs ≫= chainFilters) → Forall chainPlaced cs' ∧ length cs' = length cs.
Proof.
  revert cs'. induction cs as [|c cs IH]; intros cs'; cbn [insertIntoChains]; [by intros [= <-]|]. rewrite mbind_cons. intros H [Hc Hcs]%Forall_app.
  unfold chainFilters in Hc. destruct (fc_HCM c) as [hcm|] eqn:E.
  2:{ outcome_inv. subst cs'. edestruct IH as [? Hl]; [done..|]. split; [|cbn; by rewrite Hl]. constructor; [|done]. unfold chainPlaced. by rewrite E. }
  cbn in Hc. assert (shouldAIGatewayExtProcBeInserted (hcm_HttpFilters hcm) = true) as Hs.
  { apply forallb_forall. intros f Hf%list_elem_of_In. apply bool_decide_eq_true. by eapply Forall_forall in Hc. }
  rewrite Hs in H. cbn [negb] in H. outcome_inv. subst cs'. edestruct IH as [? Hl]; [done..|]. split; [|cbn; by rewrite Hl]. constructor; [|done].
  unfold chainPlaced. cbn [fc_HCM hcm_HttpFilters matchUpstream setHttpFilters].
  match goal with Hi : insertAIGatewayExtProcFilter _ _ = _ |- _ => apply insert_position in Hi as (pre & post & _ & -> & Hb & Hpos) end.
  exists pre, post. split; [done|]. split; [done|]. destruct Hpos as [[? _]|?]; [by left|by right].
Qed.

(** An edit of a listener by the pools. *)
Definition listenerKeeps (ln ln' : Listener) : Prop := ln_Name ln' = ln_Name ln ∧ (withoutProcessor ln → withoutProcessor ln').

#[export] Instance listenerKeeps_preorder : PreOrder listenerKeeps.
Proof. split; [by split|]. intros l1 l2 l3 [E1 H1] [E2 H2]. split; [congruence|auto]. Qed.

Lemma patchChain_processor pools c c' :
  patchChainWithPools pools c = Ok c' → Forall (λ f, hf_Name f ≠ aiGatewayExtProcName) (chainFilters c) →
  Forall (λ f, hf_Name f ≠ aiGatewayExtProcName) (chainFilters c').
Proof.
  unfold patchChainWithPools, chainFilters. destruct (fc_HCM c) as [hcm|] eqn:E; [|intros [= <-]; by rewrite E]. cbn [fmap option_fmap option_map from_option id].
  intros H Hfs. outcome_inv. apply (addPoolFilter_names aiGatewayExtProcName) in H; [|apply pickerName_not_processor|done].
  case_match; simplify_eq; [|by rewrite E]. cbn. destruct x as [|f fs]; [by injection H0 as <-|].
  destruct (last (hcm_HttpFilters hcm)) as [router|] eqn:El; [|done]. injection H0 as <-. apply last_Some in El as [l El]. rewrite El, removelast_last.
  rewrite El in Hfs. apply Forall_app in Hfs as [? ?]. rewrite !Forall_app. split; [done|]. by apply (Forall_app_2 _ (f :: fs)) .
Qed.

Lemma patchListener_keeps pools ln ln' : patchListenerWithInferencePoolFilters ln pools = Ok ln' → listenerKeeps ln ln'.
Proof.
  unfold patchListenerWithInferencePoolFilters, listenerKeeps, withoutProcessor, filtersOf. intros H. outcome_inv. subst ln'. split; [done|].
  apply omapM_chains in H as [-> Hf]. induction Hf as [|c c' cs cs' Hc _ IH]; [done|]. rewrite !mbind_cons, !Forall_app.
  intros [? ?]. split; [by eapply patchChain_processor|auto].
Qed.

Lemma patchWithPools_keeps s names acc acc' entry :
  patchWithPools names acc entry = Ok acc' → Forall2 listenerKeeps acc.1 acc'.1 ∧ Forall2 (configKeeps s) acc.2 acc'.2.
Proof.
  unfold patchWithPools. intros H. outcome_inv. subst acc'. cbn [fst snd]. split.
  - destruct (namedListener acc.1 entry.1) as [i|]; [|done]. cbn [mbind option_bind] in H. destruct (acc.1 !! i) as [ln|] eqn:Ei; [|done].
    cbn in H. outcome_inv. subst x. rewrite <-(list_insert_id acc.1 i ln Ei) at 1. apply Forall2_insert; [reflexivity|]. by eapply patchListener_keeps.
  - by eapply (foldConfig_keeps s (λ _, patchConfigWithPools entry.2)) in H0; [|intros _; apply patchConfig_keeps].
Qed.

(** What a listener gets for the configurations it serves. *)
Definition runsOn (s : Server) (rs : list RouteConfiguration) (names : list string) (ln' : Listener) : Prop :=
  ∀ name rc, name ∈ names → configOf rs name = Some rc →
    allOn s rc ∧ (Exists (generated s) (allRoutes rc) → Forall chainPlaced (chainsOf ln')).

Lemma runsOn_keeps s rs rs' names ln : Forall2 (configKeeps s) rs rs' → runsOn s rs names ln → runsOn s rs' names ln.
Proof.
  intros Hk Hr name rc Hin Hc. destruct (configOf_keeps _ _ _ _ _ Hk Hc) as (rc0 & Hc0 & Hk0). destruct (Hr _ _ Hin Hc0) as [Hon Hp].
  split; [by eapply allOn_keeps|]. intros He. apply Hp. by eapply exists_generated_keeps.
Qed.

Lemma enableOnListener_spec s names rs ln ln' rs' :
  enableOnListener s names rs ln = Ok (ln', rs') → withoutProcessor ln →
  Forall2 (configKeeps s) rs rs' ∧ runsOn s rs' (default [] (names !! ln_Name ln)) ln'.
Proof.
  unfold enableOnListener. intros H Hw. outcome_inv. subst ln' rs'. pose proof (enableFold _ _ _ _ H) as [_ Hall].
  split; [eapply foldConfig_keeps in H; [exact H|apply enableNamed_keeps]|]. intros name rc Hin Hc. destruct (Hall _ _ Hin Hc) as [Hon Hex].
  split; [done|]. intros He. rewrite (Hex He) in H0. outcome_inv. unfold insertRouterLevelAIGatewayExtProc in H0. outcome_inv. subst x0.
  match goal with Hi : insertIntoChains _ = _ |- _ => apply insertIntoChains_placed in Hi as [? ?] end; [|done]. by rewrite chainsOf_withChains.
Qed.

Lemma enableOnListeners_spec s names rs listeners ls rs' :
  enableOnListeners s names rs listeners = Ok (ls, rs') → Forall withoutProcessor listeners →
  Forall2 (configKeeps s) rs rs' ∧ Forall2 (λ ln ln', runsOn s rs' (default [] (names !! ln_Name ln)) ln') listeners ls.
Proof.
  revert rs ls. induction listeners as [|ln listeners IH]; intros rs ls; cbn [enableOnListeners].
  { intros [= <- <-]. split; [reflexivity|constructor]. }
  intros H (Hln & Hls)%Forall_cons. outcome_inv. subst ls rs'. destruct x as [ln1 rs1], x0 as [ls2 rs2]. cbn [fst snd] in *.
  apply enableOnListener_spec in H as [Hk1 Hr1]; [|done]. apply IH in H0 as [Hk2 Hr2]; [|done]. split; [by transitivity rs1|].
  constructor; [|done]. by eapply runsOn_keeps.
Qed.

Context (rangePools : gmap string InferencePool → list (string * InferencePool)).
Context (rangeListeners : gmap string (list InferencePool) → list (string * list InferencePool)).

(** C7: The external processor runs on exactly the routes of the AI Gateway.  Let no
    connection manager of the snapshot have the processor yet, as in one fresh from
    Envoy Gateway (a chain that has it ends the pass over its listener, and the chains
    after it do not get it).  After the pass over listeners and routes, a route that was
    not generated from an AIGatewayRoute has the processor turned on or off as before;
    every route that was, in a configuration that a listener serves, has it turned on,
    and every connection manager of that listener has the processor, after all buffer
    filters and, unless it is right after one, before all the filters that see what it
    makes of the request, the endpoint pickers among them. *)
Theorem processor_runs_on_generated_routes s listeners routes ls rs :
  Forall withoutProcessor listeners →
  maybeModifyListenerAndRoutes rangePools rangeListeners s listeners routes = Ok (ls, rs) →
  Forall2 (configKeeps s) routes rs ∧
  Forall2 (λ ln ln', runsOn s rs (default [] (listenerRouteNames listeners !! ln_Name ln)) ln') listeners ls.
Proof.
  intros Hw H. unfold maybeModifyListenerAndRoutes in H. outcome_inv. destruct x as [ls1 rs1]. cbn [fst snd] in *.
  assert (Forall2 listenerKeeps listeners ls1 ∧ Forall2 (configKeeps s) routes rs1) as [Hl Hc].
  { refine (ofold_inv (λ acc, Forall2 listenerKeeps listeners acc.1 ∧ Forall2 (configKeeps s) routes acc.2) _ (listeners, routes) _ (ls1, rs1) _ _ H).
    - split; reflexivity.
    - intros x entry x' [H1 H2] _ [H3 H4]%(patchWithPools_keeps s). split; [by transitivity x.1|by transitivity x.2]. }
  apply enableOnListeners_spec in H0 as [Hk Hr].
  - split; [by transitivity rs1|]. clear -Hl Hr. revert Hr. generalize (listenerRouteNames listeners) as names. intros names Hr. revert ls Hr.
    induction Hl as [|ln ln1 lns lns1 [E _] _ IH]; intros ls Hr; inversion Hr; subst; constructor; [by rewrite <-E|auto].
  - clear -Hl Hw. induction Hl as [|ln ln1 lns lns1 [_ Hk] _ IH]; [done|]. apply Forall_cons in Hw as [? ?]. constructor; auto.
Qed.
End Runs.

(** ** The cache of routes *)

Section Cache.
Context `{XC : !XdsClient} (ParseDuration : string → option Z).

(** A read of a route without a cache. *)
Definition readRoute (key : string * string) : outcome (option AIGatewayRoute) :=
  optionalRead ("failed to get AIGatewayRoute " +:+ key.1 +:+ "/" +:+ key.2 +:+ ": ") (xds_AIGatewayRoute key.1 key.2).

Definition coherent (cache : routeCache) : Prop := ∀ key v, cache !! key = Some v → readRoute key = Ok v.

(** [f] is [g] with a cache. *)
Definition caches {A} (f : routeCache → A → outcome (routeCache * A)) (g : A → outcome A) : Prop :=
  ∀ cache a, coherent cache → ∃ cache', coherent cache' ∧ f cache a = let! b := g a in Ok (cache', b).

Lemma retrieve_caches cache key :
  coherent cache → ∃ cache', coherent cache' ∧ retrieveAndCacheAIGatewayRoute cache key = let! v := readRoute key in Ok (cache', v).
Proof.
  intros Hc. unfold retrieveAndCacheAIGatewayRoute. destruct (cache !! key) as [v|] eqn:E; [exists cache; by rewrite (Hc _ _ E)|].
  destruct (readRoute key) as [v|e|p] eqn:Er.
  - exists (<[key := v]> cache). split.
    + unfold coherent, routeCache in *. intros k w Hk. destruct (decide (k = key)) as [->|Hne]; [rewrite lookup_insert_eq in Hk|rewrite lookup_insert_ne in Hk by done; by apply Hc]. congruence.
    + unfold readRoute, optionalRead in Er. destruct (xds_AIGatewayRoute _ _) as [r|e|p]; [by injection Er as <-| |done].
      destruct (errors_Is e KubeNotFound); [by injection Er as <-|done].
  - exists cache. split; [done|]. unfold readRoute, optionalRead in Er. destruct (xds_AIGatewayRoute _ _) as [r|e'|p]; [done| |done].
    destruct (errors_Is e' KubeNotFound); [done|by injection Er as <-].
  - exists cache. split; [done|]. unfold readRoute, optionalRead in Er. destruct (xds_AIGatewayRoute _ _) as [r|e'|p']; [done|by destruct (errors_Is e' _)|by injection Er as <-].
Qed.

(** The idle timeout of a route from a direct read of its rule. *)
Definition setIdleTimeout (route : Route) : outcome Route :=
  match ro_Action route, ruleOfRouteName (ro_Name route) with
  | Some _, Some (key, ruleIndex) =>
      let! r := readRoute key in
      match r with
      | None => Ok route
      | Some aigwRoute =>
          if (Z.of_nat (length (ar_Rules aigwRoute)) <=? ruleIndex)%Z then Ok route
          else if (ruleIndex <? 0)%Z then Panic "index out of range"
          else
            let timeout := default 0%Z (GetStreamIdleTimeout ParseDuration <$> ar_Rules aigwRoute !! Z.to_nat ruleIndex) in
            Ok (if (timeout <=? 0)%Z then route else setPerTryIdleTimeout timeout route)
      end
  | _, _ => Ok route
  end.

Lemma route_caches : caches (maybeSetStreamIdleTimeout ParseDuration) setIdleTimeout.
Proof.
  intros cache route Hc. unfold maybeSetStreamIdleTimeout, setIdleTimeout.
  destruct (ro_Action route); [|by exists cache]. destruct (ruleOfRouteName _) as [[key i]|]; [|by exists cache].
  destruct (retrieve_caches cache key Hc) as (cache' & Hc' & ->). exists cache'. split; [done|].
  destruct (readRoute key) as [[r|]| |]; [|done..]. cbn [obind fst snd]. by repeat case_match.
Qed.

Lemma list_caches {A} f (g : A → outcome A) : caches f g → caches (cachedMap f) (omapM g).
Proof.
  intros Hf cache l. revert cache. induction l as [|a l IH]; intros cache Hc; cbn [cachedMap omapM]; [by exists cache|].
  destruct (Hf cache a Hc) as (c1 & Hc1 & ->). destruct (g a); cbn [obind]; [|by exists c1..]. cbn [fst snd].
  destruct (IH c1 Hc1) as (c2 & Hc2 & ->). exists c2. split; [done|]. by destruct (omapM g l).
Qed.

Lemma caches_field {A B} f (g : A → outcome A) (get : B → A) (set : A → B → B) :
  caches f g → caches (λ cache b, let! r := f cache (get b) in Ok (r.1, set r.2 b)) (λ b, let! a := g (get b) in Ok (set a b)).
Proof. intros Hf cache b Hc. destruct (Hf cache (get b) Hc) as (c1 & Hc1 & ->). exists c1. split; [done|]. by destruct (g (get b)). Qed.

(** Reading each route once gives what reading it at each use would. *)
Lemma cached_reads_change_nothing rcs :
  applyStreamIdleTimeouts ParseDuration rcs =
  omapM (λ rc, let! vhs := omapM (λ vh, let! rs := omapM setIdleTimeout (vh_Routes vh) in Ok (setRoutes rs vh)) (rcf_VirtualHosts rc) in
               Ok (setVirtualHosts vhs rc)) rcs.
Proof.
  unfold applyStreamIdleTimeouts. destruct (list_caches _ _ (caches_field _ _ rcf_VirtualHosts setVirtualHosts
    (list_caches _ _ (caches_field _ _ vh_Routes setRoutes (list_caches _ _ route_caches)))) ∅ rcs) as (c & _ & ->).
  { unfold coherent, routeCache. intros key v H. by rewrite lookup_empty in H. }
  by destruct (omapM _ rcs).
Qed.
End Cache.

Module Sample.

#[local] Instance toAny : ToAny :=
  {| any_Filter _ := Ok tt; any_ProtocolOptions _ := Ok tt; any_Socket _ := Ok tt; any_HCM _ := Ok tt; any_PerRoute _ := Ok tt; any_Route _ := Ok tt |}.
#[local] Instance egNames : EnvoyFilterNames :=
  {| EnvoyFilterBuffer := "envoy.filters.http.buffer"; EnvoyFilterExtProc := "envoy.filters.http.ext_proc"; EnvoyFilterWasm := "envoy.filters.http.wasm";
     EnvoyFilterLua := "envoy.filters.http.lua"; EnvoyFilterRBAC := "envoy.filters.http.rbac"; EnvoyFilterLocalRateLimit := "envoy.filters.http.local_ratelimit";
     EnvoyFilterRateLimit := "envoy.filters.http.ratelimit"; EnvoyFilterCustomResponse := "envoy.filters.http.custom_response";
     EnvoyFilterCredentialInjector := "envoy.filters.http.credential_injector"; EnvoyFilterCompressor := "envoy.filters.http.compressor";
     EnvoyFilterRouter := "envoy.filters.http.router" |}.
#[local] Instance egLaws : EnvoyFilterLaws egNames.
Proof. split. reflexivity. Qed.
#[local] Instance xdsClient : XdsClient :=
  {| xds_GatewayAnnotations _ _ := Ok ∅; xds_GatewayConfig _ _ := Fail (errors_Sentinel "not found" KubeNotFound);
     xds_AIGatewayRoute _ _ := Fail (errors_Sentinel "not found" KubeNotFound) |}.
#[local] Instance sortHeaders : SortHeaders := {| sort_headers l := l |}.
#[local] Instance marshal : Marshal := {| marshal_PerRoute _ := Ok tt; marshal_Filter _ := Ok tt; marshal_HCM _ := Ok tt |}.
#[local] Instance noGrants : GrantClient := {| list_ReferenceGrants _ := Ok [] |}.
#[local] Instance quotaClient : QuotaClient := {| list_QuotaPolicies := Ok []; get_AIGatewayRoute _ _ := Fail (errors_New "") |}.

Definition server : Server :=
  {| sv_udsPath := "/etc/ai-gateway/run.sock"; sv_isStandAloneMode := false; sv_logRequestHeaderAttributes := {["agent-session-id" := "session.id"]};
     sv_quotaRateLimitServiceHost := "ratelimit"; sv_quotaRateLimitServicePort := 8081; sv_quotaRateLimitTimeout := 1;
     sv_quotaRateLimitFailureModeDeny := false |}.

Definition otherFilter (name : string) : HttpFilter := {| hf_Name := name; hf_Disabled := false; hf_Config := OtherFilter "" |}.
Definition brf : HttpFilter := otherFilter "envoy.filters.http.credential_injector/ai-eg-mcp-brf-gh".
Definition manager : HttpConnectionManager :=
  {| hcm_HttpFilters := [otherFilter "envoy.filters.http.cors"; otherFilter "envoy.filters.http.buffer"; brf; otherFilter "envoy.filters.http.lua/x";
                         otherFilter wellknown_Router];
     hcm_Rds := Some "rc"; hcm_SchemeMatchUpstream := false; hcm_AccessLog := ["log"] |}.
Definition listener : Listener :=
  {| ln_Name := "team/gw/http"; ln_Address := None; ln_FilterChains := [{| fc_HCM := Some manager |}; {| fc_HCM := None |}]; ln_DefaultFilterChain := None |}.

(** A route of the AI Gateway, one with a pool, one of an MCP backend, and another. *)
Definition egMetadata (annotations : Struct) : Metadata := {["envoy-gateway" := {["resources" := VList [VStruct {["annotations" := VStruct annotations]}]]}]}.
Definition plain (name : string) (m : option Metadata) : Route :=
  {| ro_Name := name; ro_Metadata := m; ro_Action := Some (SingleCluster "c"); ro_TypedPerFilterConfig := ∅; ro_AutoHostRewrite := None;
     ro_PerTryIdleTimeout := None; ro_RequestHeadersToAdd := [] |}.
Definition aiRoute : Route := plain "httproute/team/r/rule/0/match/0" (Some (egMetadata {[AIGatewayGeneratedHTTPRouteAnnotation := VString "true"]})).
Definition poolRoute (pool : string) : Route :=
  plain ("httproute/team/p/rule/0/match/0/" +:+ pool) (buildEPPMetadata None
    {| ip_Namespace := "team"; ip_Name := pool; ip_AppProtocol := ""; ip_EndpointPicker := Some ("epp", None); ip_Annotations := ∅ |}).
Definition mcpRoute : Route := plain "httproute/team/ai-eg-mcp-br-gh/rule/0/match/0" None.
Definition config (rs : list Route) : RouteConfiguration :=
  {| rcf_Name := "rc"; rcf_VirtualHosts := [{| vh_Name := "vh"; vh_Domains := ["*"]; vh_Metadata := None; vh_Routes := rs |}] |}.
Definition routes : list RouteConfiguration := [config [aiRoute; poolRoute "pool"; mcpRoute; plain "httproute/team/web/rule/0" None]].

Definition translated := PostTranslateModify map_to_list map_to_list (λ _, false) (λ _, None) server [] [listener] routes.
Definition modified := maybeModifyListenerAndRoutes map_to_list map_to_list server [listener] routes.
Definition generatedMcp := maybeGenerateResourcesForMCPGateway [] [listener] routes.
Definition get {A} (d : A) (o : outcome A) : A := match o with Ok a => a | _ => d end.

(** The filters of the listener, in order. *)
Lemma filter_order :
  hf_Name <$> ((get ([], [], []) translated).1.2 ≫= filtersOf) =
  ["envoy.filters.http.cors"; "envoy.filters.http.buffer"; aiGatewayExtProcName; "envoy.filters.http.lua/x";
   "envoy.filters.http.ext_proc/endpointpicker/pool_team_ext_proc"; "envoy.filters.http.header_to_metadata"; wellknown_Router;
   hf_Name brf; "envoy.filters.http.header_to_metadata"; wellknown_Router].
Proof. vm_compute. reflexivity. Qed.

Lemma listener_ok : Forall listenerOk [listener].
Proof.
  repeat constructor. eexists (removelast (hcm_HttpFilters manager)), _. split; [reflexivity|]. split; [reflexivity|]. by repeat constructor.
Qed.

Lemma router_stays_last_witness : Forall listenerOk (get ([], [], []) translated).1.2.
Proof.
  eapply (router_stays_last map_to_list map_to_list (λ _, false) (λ _, None) server [] [listener] routes); [exact listener_ok|].
  vm_compute. reflexivity.
Defined.

Lemma processor_runs_on_generated_routes_witness :
  Forall2 (λ ln ln', runsOn server (get ([], []) modified).2 (default [] (listenerRouteNames [listener] !! ln_Name ln)) ln') [listener]
    (get ([], []) modified).1 ∧ listenerRouteNames [listener] !! ln_Name listener = Some ["rc"].
Proof.
  destruct (processor_runs_on_generated_routes map_to_list map_to_list server [listener] routes (get ([], []) modified).1 (get ([], []) modified).2) as [_ H].
  - constructor; [|constructor]. unfold withoutProcessor. by repeat constructor.
  - vm_compute. reflexivity.
  - split; [exact H|vm_compute; reflexivity].
Defined.

Lemma mcp_backends_on_loopback_witness :
  ∃ kept public l rc, (get ([], [], []) generatedMcp).1.2 = public ++ [l] ∧ (get ([], [], []) generatedMcp).2 = kept ++ [rc] ∧
    ln_Address l = Some ("127.0.0.1", MCPBackendListenerPort) ∧ ro_Name <$> allRoutes rc = [ro_Name mcpRoute] ∧
    length kept = 1 ∧ Forall (λ rc', length (allRoutes rc') = 3) kept.
Proof.
  destruct (mcp_backends_on_loopback [] [listener] routes [] (get ([], [], []) generatedMcp).1.2 (get ([], [], []) generatedMcp).2)
    as (kept & Hk & [(H & _)|(_ & public & l & rc & H1 & H2 & H3 & _ & H4 & _)]).
  - discriminate.
  - discriminate.
  - by repeat constructor.
  - repeat constructor; intros Hm; vm_compute in Hm; try discriminate; eexists; reflexivity.
  - vm_compute. reflexivity.
  - vm_compute in H. discriminate.
  - exists kept, public, l, rc. split; [exact H1|]. split; [exact H2|]. split; [exact H3|]. split; [rewrite H4; vm_compute; reflexivity|].
    apply Forall2_cons_inv_l in Hk as (rc' & k' & [_ Hr] & Hk & ->). apply Forall2_nil_inv_l in Hk as ->. split; [done|].
    constructor; [|constructor]. rewrite Hr. vm_compute. reflexivity.
Defined.

(** The order of the filters of two pools is the order in which a map is ranged over. *)
Lemma picker_order_not_fixed :
  let pools range := hf_Name <$> ((get ([], []) (maybeModifyListenerAndRoutes range map_to_list server [listener]
    [config [poolRoute "p"; poolRoute "q"]])).1 ≫= filtersOf) in
  pools map_to_list ≠ pools (λ m, reverse (map_to_list m)).
Proof. vm_compute. discriminate. Qed.

(** The listener of MCP backends logs like the last connection manager, also when that
    one does not log. *)
Lemma access_log_of_last_manager :
  let ready := {| ln_Name := "envoy-gateway-proxy-ready-0.0.0.0-19003"; ln_Address := None;
                  ln_FilterChains := [{| fc_HCM := Some {| hcm_HttpFilters := [otherFilter wellknown_Router]; hcm_Rds := None;
                                                           hcm_SchemeMatchUpstream := false; hcm_AccessLog := [] |} |}];
                  ln_DefaultFilterChain := None |} in
  (snd ∘ fst) (get ([], [], []) (extractMCPBackendFiltersFromMCPProxyListener ([], []) [listener; ready])) = [].
Proof. vm_compute. reflexivity. Qed.

(** A chain that has the processor ends the pass over the listener. *)
Lemma later_chain_without_processor :
  let chain fs := {| fc_HCM := Some (setHttpFilters fs manager) |} in
  (λ c, existsb (λ f, bool_decide (hf_Name f = aiGatewayExtProcName)) (chainFilters c)) <$>
    get [] (insertIntoChains [chain [routerLevelFilter; otherFilter wellknown_Router]; chain [otherFilter wellknown_Router]]) = [true; false].
Proof. vm_compute. reflexivity. Qed.

(** Without references the cluster of a pool ends the translation in a panic. *)
Lemma pool_cluster_without_refs :
  let rule := {| ru_BackendRefs := []; ru_Matches := []; ru_ModelsOwnedBy := None; ru_ModelsCreatedAt := None; ru_ExcludeFromModelsEndpoint := false;
                 ru_Name := None; ru_Timeouts := None; ru_StreamIdleTimeout := None |} in
  let route := {| ar_Namespace := "team"; ar_Name := "r"; ar_Deleted := false; ar_CreationTimestamp := 0; ar_ParentRefs := []; ar_Hostnames := [];
                  ar_Rules := [rule]; ar_LLMRequestCosts := []; ar_HasFinalizer := true; ar_Labels := ∅; ar_Annotations := ∅ |} in
  let cluster := setMetadata (ro_Metadata (poolRoute "pool")) (endpointCluster "httproute/team/r/rule/0" "" "" 10 false
    {| en_Hostname := ""; en_Address := ""; en_Port := 0; en_Pipe := "" |} None None) in
  maybeModifyCluster (XC := {| xds_GatewayAnnotations _ _ := Ok ∅; xds_GatewayConfig _ _ := Fail (errors_New ""); xds_AIGatewayRoute _ _ := Ok route |})
    (λ _, false) [] cluster = Panic "index out of range".
Proof. vm_compute. reflexivity. Qed.

(** The cluster of one backend is an AI Gateway cluster for the names, and none for the
    quotas. *)
Lemma backend_cluster_has_no_quota :
  is_ok (parseAIGatewayClusterName "httproute/team/r/rule/0/backend/1") = true ∧
  backendKeysForCluster "httproute/team/r/rule/0/backend/1" = [].
Proof. vm_compute. done. Qed.
End Sample.
