(* ===== verification/Rollout.v ===== *)
(** * Rolling out the external processor

    Models the second half of [internal/controller/gateway.go]: which pods run a
    current external processor, when the workloads of a Gateway are rolled out, the
    objects that belong to a Gateway, and the hash of its configuration.  A call on
    the cluster is a patch; the patches an invocation sends are recorded in order
    with the answer of the API server an argument.  Log lines are left out. *)

From Stdlib Require Import Ascii ZArith Lia.
From stdpp Require Import base gmap strings list.
From S2P Require Import Prelude GoStrings GoNum InternalApi Kube RateLimit McpConfig McpController FilterApi ConfigBundle EnvoyTypes ExtProc ExtProcBuilder FilterConfig.

(** ** Objects *)

(** A deployment or a daemon set: the pods it has and those of the current
    template. *)
Record Workload := {
  wl_Namespace : string;
  wl_Name : string;
  wl_Generation : Z;
  wl_ObservedGeneration : Z;
  wl_Replicas : Z;
  wl_UpdatedReplicas : Z;
  wl_TemplateAnnotations : gmap string string;
}.

Definition aigatewayUUIDAnnotationKey : string := "aigateway.envoyproxy.io/uuid".
Definition extProcConfigHashAnnotationKey : string := "aigateway.envoyproxy.io/extproc-config-hash".

(** ** Which pods are current *)

Definition checkMCPAddr (mcpAddr : string) : bool := bool_decide (mcpAddr = MCPProxyAddr).

(** The arguments, each with the one before it: whether the log level is the
    configured one, and the last [-mcpAddr]; a wrong level ends the loop. *)
Fixpoint scanArgs (logLevel : string) (prev : option string) (mcpAddr : string) (args : list string) : bool * string :=
  match args with
  | [] => (true, mcpAddr)
  | a :: args =>
      if bool_decide (prev = Some "-logLevel") && bool_decide (a ≠ logLevel) then (false, mcpAddr)
      else scanArgs logLevel (Some a) (if bool_decide (prev = Some "-mcpAddr") then a else mcpAddr) args
  end.

Definition checkContainers (logLevel : string) (needMCP : bool) (desiredImage : string) (cs : list Container) : bool :=
  match filter (λ c, ct_Name c = extProcContainerName ∧ ct_Image c = desiredImage) cs with
  | [] => false
  | c :: _ => let '(level, mcpAddr) := scanArgs logLevel None "" (ct_Args c) in level && negb (needMCP && negb (checkMCPAddr mcpAddr))
  end.

Definition checkPodHasSideCar (extProcAsSideCar : bool) (logLevel : string) (pod : Pod) (needMCP : bool) (desiredImage : string) : bool :=
  checkContainers logLevel needMCP desiredImage (if extProcAsSideCar then po_InitContainers pod else po_Containers pod).

Definition isRolloutInProgress (deployments daemonSets : list Workload) : bool :=
  existsb (λ d, (wl_ObservedGeneration d <? wl_Generation d)%Z || (wl_UpdatedReplicas d <? wl_Replicas d)%Z) deployments ||
  existsb (λ d, bool_decide (wl_ObservedGeneration d ≠ 0%Z) &&
                ((wl_ObservedGeneration d <? wl_Generation d)%Z || (wl_UpdatedReplicas d <? wl_Replicas d)%Z)) daemonSets.

(** ** Patches *)

(** The annotations of a pod template a patch sets. *)
Inductive Patch :=
| PatchPod (ns name uuid : string)
| PatchDeployment (ns name : string) (annotations : list (string * string))
| PatchDaemonSet (ns name : string) (annotations : list (string * string)).

(** The annotations [workloadTemplateAnnotationPatch] writes, and its text. *)
Definition templateAnnotations (uuid desiredHash : string) (includeUUID includeHash : bool) : list (string * string) :=
  (if includeUUID then [(aigatewayUUIDAnnotationKey, uuid)] else []) ++ (if includeHash then [(extProcConfigHashAnnotationKey, desiredHash)] else []).

Definition annotationPairs (annotations : list (string * string)) : string :=
  Join ((λ kv, dquote +:+ kv.1 +:+ dquote +:+ ":" +:+ dquote +:+ kv.2 +:+ dquote) <$> annotations) ",".
Definition quoted (s : string) : string := dquote +:+ s +:+ dquote.

(** The body of the merge patch. *)
Definition patchText (p : Patch) : string :=
  match p with
  | PatchPod _ _ uuid => "{" +:+ quoted "metadata" +:+ ":{" +:+ quoted "annotations" +:+ ":{" +:+ annotationPairs [(aigatewayUUIDAnnotationKey, uuid)] +:+ "}}}"
  | PatchDeployment _ _ a | PatchDaemonSet _ _ a =>
      "{" +:+ quoted "spec" +:+ ":{" +:+ quoted "template" +:+ ":{" +:+ quoted "metadata" +:+ ":{" +:+ quoted "annotations" +:+ ":{" +:+
      annotationPairs a +:+ "}}}}}"
  end.

Section Annotate.
Context (patch : Patch → outcome unit).

Fixpoint sendAll (what : Patch → string) (ps : list Patch) : list Patch * outcome unit :=
  match ps with
  | [] => ([], Ok tt)
  | p :: ps =>
      match owrap (what p) (patch p) with
      | Ok _ => let '(sent, r) := sendAll what ps in (p :: sent, r)
      | r => ([p], r)
      end
  end.

Definition failedTo (p : Patch) : string :=
  match p with
  | PatchPod _ n _ => "failed to patch pod " +:+ n +:+ ": "
  | PatchDeployment _ n _ => "failed to patch deployment " +:+ n +:+ ": "
  | PatchDaemonSet _ n _ => "failed to patch daemonset " +:+ n +:+ ": "
  end.

Context (extProcAsSideCar : bool) (logLevel : string).

Notation current needMCP desiredImage := (λ p, checkPodHasSideCar extProcAsSideCar logLevel p needMCP desiredImage).

(** The patch of a workload whose template must change. *)
Definition workloadPatch (mk : string → string → list (string * string) → Patch) (hasEffectiveRoute needsStateRollout : bool) (uuid desiredHash : string)
    (w : Workload) : list Patch :=
  let needsHashRollout := hasEffectiveRoute && bool_decide (desiredHash ≠ "") &&
    bool_decide (mget (wl_TemplateAnnotations w) extProcConfigHashAnnotationKey ≠ desiredHash) in
  if negb needsStateRollout && negb needsHashRollout then []
  else [mk (wl_Namespace w) (wl_Name w) (templateAnnotations uuid desiredHash needsStateRollout needsHashRollout)].

Definition livePods (pods : list Pod) : list Pod := filter (λ p, po_Deleted p = false) pods.

(** Whether the external processor must be added, removed or made the same in all
    pods. *)
Definition stateRollout (pods : list Pod) (hasEffectiveRoute needMCP : bool) (desiredImage : string) : bool :=
  let seenWith := existsb (current needMCP desiredImage) (livePods pods) in
  let seenWithout := existsb (λ p, negb (current needMCP desiredImage p)) (livePods pods) in
  bool_decide (hasEffectiveRoute ≠ seenWith && negb seenWithout) || seenWith && seenWithout.

Definition rolloutPatches (pods : list Pod) (deployments daemonSets : list Workload) (uuid : string) (hasEffectiveRoute needMCP : bool)
    (desiredImage desiredHash : string) : list Patch :=
  let needsStateRollout := stateRollout pods hasEffectiveRoute needMCP desiredImage in
  (deployments ≫= workloadPatch PatchDeployment hasEffectiveRoute needsStateRollout uuid desiredHash) ++
  (daemonSets ≫= workloadPatch PatchDaemonSet hasEffectiveRoute needsStateRollout uuid desiredHash).

(** The patches that were sent, and whether to come back in five seconds. *)
Definition annotateGatewayPods (pods : list Pod) (deployments daemonSets : list Workload) (uuid : string) (hasEffectiveRoute needMCP : bool)
    (desiredImage desiredHash : string) : list Patch * outcome bool :=
  if isRolloutInProgress deployments daemonSets then ([], Ok true)
  else
    let '(sent, r) := sendAll failedTo
      (((λ p, PatchPod (po_Namespace p) (po_Name p) uuid) <$> livePods pods) ++
       rolloutPatches pods deployments daemonSets uuid hasEffectiveRoute needMCP desiredImage desiredHash) in
    (sent, let! _ := r in Ok false).
End Annotate.

(** ** The objects of a Gateway *)

(** The lists of a namespace with the labels of a Gateway. *)
Class GatewayObjects := {
  list_Pods : string → outcome (list Pod);
  list_Deployments : string → outcome (list Workload);
  list_DaemonSets : string → outcome (list Workload);
}.

Section Objects.
Context `{GO : !GatewayObjects}.

(** The objects found so far and the namespaces they were found in. *)
Record found := { fo_pods : list Pod; fo_deployments : list Workload; fo_daemonSets : list Workload; fo_namespaces : list string }.

Definition findIn (f : found) (ns : string) : outcome found :=
  let! ps := owrap ("failed to list pods in namespace " +:+ ns +:+ ": ") (list_Pods ns) in
  let! ds := owrap ("failed to list deployments in namespace " +:+ ns +:+ ": ") (list_Deployments ns) in
  let! dss := owrap ("failed to list daemonsets in namespace " +:+ ns +:+ ": ") (list_DaemonSets ns) in
  Ok {| fo_pods := fo_pods f ++ ps; fo_deployments := fo_deployments f ++ ds; fo_daemonSets := fo_daemonSets f ++ dss;
        fo_namespaces := fo_namespaces f ++ (if bool_decide (ps = []) && bool_decide (ds = []) && bool_decide (dss = []) then [] else [ns]) |}.

(** The namespace of the last kind of object there is. *)
Definition namespaceOf (f : found) : string :=
  match fo_daemonSets f, fo_deployments f, fo_pods f with
  | d :: _, _, _ => wl_Namespace d
  | [], d :: _, _ => wl_Namespace d
  | [], [], p :: _ => po_Namespace p
  | [], [], [] => ""
  end.

Definition getObjectsForGateway (envoyGatewayNamespace gwNamespace : string) : outcome (string * found) :=
  let candidates := gwNamespace :: (if bool_decide (envoyGatewayNamespace ≠ gwNamespace) then [envoyGatewayNamespace] else []) in
  let! f := ofold findIn {| fo_pods := []; fo_deployments := []; fo_daemonSets := []; fo_namespaces := [] |} candidates in
  if (1 <? length (fo_namespaces f))%nat then
    Fail (errors_New ("found gateway-labeled objects in multiple namespaces: [" +:+ Join (fo_namespaces f) " " +:+ "]"))
  else Ok (namespaceOf f, f).
End Objects.

(** ** The reconciler *)

Definition gatewayConfigHashAnnotationKey : string := "aigateway.envoyproxy.io/gateway-config-hash".

(** The namespaces of dynamic metadata a credential is read from that the
    configuration does not declare, each with its backends: what is logged. *)
Definition warnUndeclaredMetadataNamespaces (ec : Config) (declared : list string) : list (string * list string) :=
  let reads := b ← cfg_Backends ec;
    match be_Auth b ≫= ba_CredentialOverride with
    | Some o => let ns := co_DynamicMetadataNamespace o in if bool_decide (ns = "") || bool_decide (ns ∈ declared) then [] else [(ns, be_Name b)]
    | None => []
    end in
  (λ ns, (ns, (filter (λ r, r.1 = ns) reads).*2)) <$> foldl appendNew [] reads.*1.

Section GatewayConfig.
Context (stdjson_Marshal : GatewayConfig → outcome string) (sha256 : string → string) (client_Patch : gmap string string → outcome unit).

(** The annotations after the call and its result. *)
Definition stampGatewayConfigHash (annotations : gmap string string) (gwConfig : option GatewayConfig) : gmap string string * outcome unit :=
  match (match gwConfig with
         | None => Ok ""
         | Some spec => let! marshaled := owrap "failed to marshal GatewayConfig spec: " (stdjson_Marshal spec) in
                        Ok (hex_EncodeToString (str_take 8 (sha256 marshaled)))
         end) with
  | Ok desired =>
      if bool_decide (mget annotations gatewayConfigHashAnnotationKey = desired) then (annotations, Ok tt)
      else
        let annotations := if bool_decide (desired = "") then delete gatewayConfigHashAnnotationKey annotations
                           else <[gatewayConfigHashAnnotationKey := desired]> annotations in
        (annotations, owrap "failed to patch Gateway with GatewayConfig hash: " (client_Patch annotations))
  | Fail e => (annotations, Fail e)
  | Panic p => (annotations, Panic p)
  end.
End GatewayConfig.

Section Reconcile.
Context {Prog : Type} `{CE : !CelEnv Prog, GC : !GrantClient, CL : !GatewayClient, MC : !MutatorClient, GO : !GatewayObjects}.
Context (range : gmap string (string * string) → list (string * (string * string))).
Context (rangeUnit : gmap string () → list (string * ())).
Context (rangeCosts : gmap string LLMRequestCost → list (string * LLMRequestCost)).
Context (sha256 : string → string) (yaml_MarshalIndex : ConfigBundleIndex → outcome string).
Context (yaml_Marshal : Config → option MCPConfig → outcome string).
Context (marshalDigest : extProcConfigDigest → string) (marshalSpec : GatewayConfig → outcome string).
Context {K : Type} `{KS : !KubeSecrets K}.
Context (patchGateway : gmap string string → outcome unit) (patch : Patch → outcome unit).
(** [sort.Slice] by the creation timestamps. *)
Context (sortByCreation : list aigMCPRoute → list aigMCPRoute).
Context (b : extProcBuilder) (version envoyGatewayNamespace : string) (standAlone : bool).

Definition fetchGatewayConfig (gwNamespace : string) (annotations : gmap string string) : outcome (option GatewayConfig) :=
  configOf gwNamespace annotations.

(** The annotations of the Gateway, the Secrets by namespace and the patches sent. *)
Record cluster := { cl_annotations : gmap string string; cl_secrets : string → K; cl_patches : list Patch }.

Definition setSecrets (ns : string) (k : K) (secrets : string → K) : string → K := λ ns', if bool_decide (ns' = ns) then k else secrets ns'.

(** What is read before anything changes: the requeue of an early return, or the
    routes and the objects of the Gateway with its configuration. *)
Definition reconcileReads (name namespace : string) : outcome (bool + gmap string string * list AIGatewayRoute * list aigMCPRoute * string * found) :=
  match get_GatewayAnnotations namespace name with
  | Fail e => if errors_Is e KubeNotFound then Ok (inl false) else Fail e
  | Panic p => Panic p
  | Ok annotations =>
      let! aiRoutes := listAIGatewayRoutesForGateway cached_AIGatewayRoutes None name namespace in
      let! mcpRoutes := listMCPRoutesForGateway cached_MCPRoutes None name namespace in
      let! objects := owrap ("failed to get objects for gateway " +:+ name +:+ ": ") (getObjectsForGateway envoyGatewayNamespace namespace) in
      let '(ns, f) := objects in
      if bool_decide (fo_pods f = []) && bool_decide (fo_deployments f = []) && bool_decide (fo_daemonSets f = []) && negb standAlone
      then Ok (inl true)
      else Ok (inr (annotations, aiRoutes, sortByCreation mcpRoutes, ns, f))
  end.

Definition Reconcile (name namespace uid : string) (c : cluster) : cluster * outcome bool :=
  match reconcileReads name namespace with
  | Fail e => (c, Fail e)
  | Panic p => (c, Panic p)
  | Ok (inl requeue) => (c, Ok requeue)
  | Ok (inr (annotations, aiRoutes, mcpRoutes, ns, f)) =>
      match fetchGatewayConfig namespace annotations with
      | Fail e => (c, Fail e)
      | Panic p => (c, Panic p)
      | Ok gwConfig =>
          let '(annotations, r) := stampGatewayConfigHash marshalSpec sha256 patchGateway annotations gwConfig in
          let c := {| cl_annotations := annotations; cl_secrets := cl_secrets c; cl_patches := cl_patches c |} in
          match r with
          | Fail e => (c, Fail e)
          | Panic p => (c, Panic p)
          | Ok _ =>
              let '(k, r) := reconcileFilterConfigSecret range rangeUnit rangeCosts sha256 yaml_MarshalIndex yaml_Marshal b version
                name namespace aiRoutes mcpRoutes uid (default [] (gc_GlobalLLMRequestCosts <$> gwConfig)) (cl_secrets c ns) in
              let c := {| cl_annotations := annotations; cl_secrets := setSecrets ns k (cl_secrets c); cl_patches := cl_patches c |} in
              match r with
              | Fail e => (c, Fail e)
              | Panic p => (c, Panic p)
              | Ok hasEffectiveRoutes =>
                  let input := {| ci_gatewayConfig := gwConfig; ci_needMCP := bool_decide (mcpRoutes ≠ []) |} in
                  let '(sent, r) := annotateGatewayPods patch (eb_extProcAsSideCar b) (eb_logLevel b) (fo_pods f) (fo_deployments f) (fo_daemonSets f)
                    uid hasEffectiveRoutes (ci_needMCP input) (extProcImage b input) (extProcContainerHash marshalDigest sha256 b input) in
                  ({| cl_annotations := annotations; cl_secrets := cl_secrets c; cl_patches := cl_patches c ++ sent |}, r)
              end
          end
      end
  end.
End Reconcile.
