(* ===== verification/RolloutProps.v ===== *)
(** * Rollouts settle, and roll what changed

    The webhook's container is the one the reconciler looks for, so that a rollout
    settles; the hash on the workload templates covers everything of the container;
    and the objects the reconciler works on are in one namespace. *)

From Stdlib Require Import Ascii ZArith Lia.
From stdpp Require Import base gmap strings list pretty.
From S2P Require Import Prelude GoStrings GoNum InternalApi Kube RateLimit McpConfig McpController FilterApi ConfigBundle EnvoyTypes ExtProc ExtProcBuilder FilterConfig FilterConfigProps Rollout.

(** ** The arguments of the container *)

(** No value of an option is a flag the reconciler looks for. *)
Definition plain (v : string) : Prop := v ≠ "-logLevel" ∧ v ≠ "-mcpAddr".

Record plainOptions (b : extProcBuilder) : Prop := {
  plain_level : plain (eb_logLevel b);
  plain_format : plain (eb_logFormat b);
  plain_root : plain (eb_rootPrefix b);
  plain_endpoint : plain (eb_endpointPrefixes b);
  plain_request v : eb_requestHeaderAttributes b = Some v → plain v;
  plain_span v : eb_spanRequestHeaderAttributes b = Some v → plain v;
  plain_metrics v : eb_metricsRequestHeaderAttributes b = Some v → plain v;
  plain_log v : eb_logRequestHeaderAttributes b = Some v → plain v;
}.

Definition quiet (prev : option string) : Prop := prev ≠ Some "-logLevel" ∧ prev ≠ Some "-mcpAddr".

Lemma plain_quiet v : plain v → quiet (Some v).
Proof. intros [??]. split; congruence. Qed.

Lemma scan_plain xs level prev m rest :
  Forall plain xs → quiet prev →
  ∃ prev', quiet prev' ∧ scanArgs level prev m (xs ++ rest) = scanArgs level prev' m rest.
Proof.
  intros Hxs. revert prev. induction Hxs as [|x xs Hx Hxs IH]; intros prev [H1 H2]; [by exists prev|].
  destruct (IH (Some x) (plain_quiet _ Hx)) as (p & Hp & He). exists p. split; [done|].
  cbn [app scanArgs]. by rewrite !(bool_decide_false (prev = _)) by done.
Qed.

Lemma Itoa_no_char z c : digit_of c = None → c ≠ "-"%char → Contains (Itoa z) c = false.
Proof.
  intros Hc Hd. unfold Itoa, pretty, pretty_Z.
  assert (∀ n : N, Contains (pretty n) c = false) as Hn.
  { intros n. apply pretty_digits_no_char. intros d <-. destruct (pretty_N_char_digit d); congruence. }
  destruct z as [|p|p]; [exact (Hn 0%N)|exact (Hn (N.pos p))|]. apply (Contains_false_cons "-"%char). split; [congruence|exact (Hn (N.pos p))].
Qed.

Lemma plain_Itoa z : plain (Itoa z).
Proof.
  split; intros H.
  - pose proof (Itoa_no_char z "l" eq_refl ltac:(done)) as Hc. by rewrite H in Hc.
  - pose proof (Itoa_no_char z "m" eq_refl ltac:(done)) as Hc. by rewrite H in Hc.
Qed.

Lemma plain_optArg flag o : plain flag → (∀ v, o = Some v → plain v) → Forall plain (optArg flag o).
Proof. intros Hf Ho. destruct o as [v|]; [|constructor]. by constructor; [|constructor; [apply Ho|constructor]]. Qed.

Ltac plain_flag := by (split; vm_compute).

Lemma scan_level level prev m rest : quiet prev → scanArgs level prev m ("-logLevel" :: level :: rest) = scanArgs level (Some level) m rest.
Proof. intros [H1 H2]. cbn [scanArgs]. rewrite !(bool_decide_false (prev = _)) by done. rewrite (bool_decide_false (level ≠ level)) by congruence. by rewrite andb_false_r. Qed.

Lemma scan_mcp level prev m addr rest : quiet prev → scanArgs level prev m ("-mcpAddr" :: addr :: rest) = scanArgs level (Some addr) addr rest.
Proof. intros [H1 H2]. cbn [scanArgs]. by rewrite !(bool_decide_false (prev = _)) by done. Qed.

Lemma scan_all_plain level prev m xs : Forall plain xs → quiet prev → scanArgs level prev m xs = (true, m).
Proof. intros Hx Hp. destruct (scan_plain xs level prev m [] Hx Hp) as (p & _ & He). by rewrite app_nil_r in He. Qed.

Definition argsBefore (b : extProcBuilder) : list string :=
  ["-extProcAddr"; "unix://" +:+ eb_udsPath b; "-adminPort"; Itoa extProcAdminPort; "-rootPrefix"; eb_rootPrefix b; "-maxRecvMsgSize"; Itoa (eb_maxRecvMsgSize b)] ++
  (let f := nonDefaultLogFormat b in if bool_decide (f ≠ "") then ["-logFormat"; f] else []).
Definition argsAfter (b : extProcBuilder) : list string :=
  optArg "-requestHeaderAttributes" (eb_requestHeaderAttributes b) ++ optArg "-spanRequestHeaderAttributes" (eb_spanRequestHeaderAttributes b) ++
  optArg "-metricsRequestHeaderAttributes" (eb_metricsRequestHeaderAttributes b) ++ optArg "-logRequestHeaderAttributes" (eb_logRequestHeaderAttributes b) ++
  (if bool_decide (eb_endpointPrefixes b ≠ "") then ["-endpointPrefixes"; eb_endpointPrefixes b] else []) ++
  (if eb_enableRedaction b then ["-enableRedaction"] else []).

Lemma args_split b needMCP :
  buildExtProcBaseArgs b needMCP =
  "-logLevel" :: eb_logLevel b :: argsBefore b ++ (if needMCP then ["-mcpAddr"; MCPProxyAddr] else []) ++ argsAfter b.
Proof. unfold buildExtProcBaseArgs, argsBefore, argsAfter. by destruct needMCP. Qed.

Lemma argsBefore_plain b : plainOptions b → Forall plain (argsBefore b).
Proof.
  intros Hb. unfold argsBefore, nonDefaultLogFormat. cbv zeta. apply Forall_app_2.
  - repeat (constructor; [first [plain_flag|apply plain_Itoa|exact (plain_root _ Hb)]|]). constructor.
  - case_bool_decide; [|constructor]. constructor; [plain_flag|]. constructor; [|constructor]. case_bool_decide; [plain_flag|apply Hb].
Qed.

Lemma argsAfter_plain b : plainOptions b → Forall plain (argsAfter b).
Proof.
  intros Hb. unfold argsAfter. repeat apply Forall_app_2; try (apply plain_optArg; [plain_flag|apply Hb]).
  - case_bool_decide; [|constructor]. constructor; [plain_flag|]. constructor; [apply Hb|constructor].
  - destruct (eb_enableRedaction b); [|constructor]. constructor; [plain_flag|constructor].
Qed.

(** The reconciler finds its level and the address of the proxy among the arguments. *)
Lemma scan_injected b needMCP :
  plainOptions b →
  scanArgs (eb_logLevel b) None "" ("-configBundlePath" :: filterConfigBundleMountPath :: buildExtProcBaseArgs b needMCP) =
  (true, if needMCP then MCPProxyAddr else "").
Proof.
  intros Hb. rewrite args_split.
  destruct (scan_plain ["-configBundlePath"; filterConfigBundleMountPath] (eb_logLevel b) None ""
    ("-logLevel" :: eb_logLevel b :: argsBefore b ++ (if needMCP then ["-mcpAddr"; MCPProxyAddr] else []) ++ argsAfter b)) as (p & Hp & He).
  { repeat (constructor; [plain_flag|]). constructor. } { done. }
  cbn [app] in He. rewrite He, scan_level by done. clear p Hp He.
  destruct (scan_plain (argsBefore b) (eb_logLevel b) (Some (eb_logLevel b)) ""
    ((if needMCP then ["-mcpAddr"; MCPProxyAddr] else []) ++ argsAfter b)) as (p & Hp & ->).
  { by apply argsBefore_plain. } { apply plain_quiet, Hb. }
  destruct needMCP; cbn [app]; [rewrite scan_mcp by done|]; apply scan_all_plain; try done; by apply argsAfter_plain.
Qed.

(** ** The webhook and the reconciler agree *)

Definition hasExtProc (cs : list Container) : Prop := Exists (λ c, ct_Name c = extProcContainerName) cs.

(** A pod as the workload's template makes it, before the webhook. *)
Definition fresh (pod : Pod) : Prop := ¬ hasExtProc (po_InitContainers pod) ∧ ¬ hasExtProc (po_Containers pod).

Lemma checkContainers_other level needMCP image cs : ¬ hasExtProc cs → checkContainers level needMCP image cs = false.
Proof.
  intros H. unfold checkContainers. destruct (filter _ cs) as [|c l] eqn:E; [done|]. destruct H.
  assert (c ∈ filter (λ c, ct_Name c = extProcContainerName ∧ ct_Image c = image) cs) as [[Hn _] Hc]%list_elem_of_filter by (rewrite E; by left).
  apply Exists_exists. eauto.
Qed.

Lemma fresh_not_current side level pod needMCP image : fresh pod → checkPodHasSideCar side level pod needMCP image = false.
Proof. intros [H1 H2]. unfold checkPodHasSideCar. destruct side; by apply checkContainers_other. Qed.

Lemma checkContainers_last level needMCP image cs c :
  ¬ hasExtProc cs → ct_Name c = extProcContainerName → ct_Image c = image →
  checkContainers level needMCP image (cs ++ [c]) =
  (let '(ok, mcpAddr) := scanArgs level None "" (ct_Args c) in ok && negb (needMCP && negb (checkMCPAddr mcpAddr))).
Proof.
  intros H Hn Hi. unfold checkContainers. rewrite filter_app.
  destruct (filter _ cs) as [|c' l] eqn:E.
  - cbn [app]. by rewrite filter_cons_True.
  - destruct H. assert (c' ∈ filter (λ c, ct_Name c = extProcContainerName ∧ ct_Image c = image) cs) as [[Hn' _] Hc]%list_elem_of_filter
      by (rewrite E; by left). apply Exists_exists. eauto.
Qed.

Lemma hasExtProc_mount b cs : hasExtProc (mountEnvoy b <$> cs) ↔ hasExtProc cs.
Proof.
  unfold hasExtProc. rewrite Exists_fmap, !Exists_exists.
  assert (∀ c, ct_Name (mountEnvoy b c) = ct_Name c) as Hm by (intros c; unfold mountEnvoy; by case_bool_decide).
  split; intros (c & Hc & Hn); exists c; (split; [done|]); simpl in *; by rewrite ?Hm in *.
Qed.

(** The webhook's container passes the reconciler's check, for the same input. *)
Lemma injected_is_current sha256 b pod gw ns input :
  plainOptions b → fresh pod →
  checkPodHasSideCar (eb_extProcAsSideCar b) (eb_logLevel b) (injectInto sha256 b pod gw ns input) (ci_needMCP input) (extProcImage b input) = true.
Proof.
  intros Hb [H1 H2]. unfold checkPodHasSideCar, injectInto. cbn [po_InitContainers po_Containers].
  assert (mountEnvoy b (injectedContainer sha256 b gw ns input) = injectedContainer sha256 b gw ns input) as Hm by reflexivity.
  destruct (eb_extProcAsSideCar b); [|rewrite fmap_app; cbn [fmap list_fmap]; rewrite Hm];
    (rewrite checkContainers_last; [|by rewrite ?hasExtProc_mount|reflexivity|reflexivity]);
    cbn [ct_Args injectedContainer buildExtProcContainer]; rewrite scan_injected by done; by destruct (ci_needMCP input).
Qed.

(** ** Applying the patches *)

Definition templatePatched (a : list (string * string)) (w : Workload) : Workload :=
  {| wl_Namespace := wl_Namespace w; wl_Name := wl_Name w; wl_Generation := wl_Generation w; wl_ObservedGeneration := wl_ObservedGeneration w;
     wl_Replicas := wl_Replicas w; wl_UpdatedReplicas := wl_UpdatedReplicas w;
     wl_TemplateAnnotations := insert_all a (wl_TemplateAnnotations w) |}.

Inductive workloadKind := KindDeployment | KindDaemonSet.
Definition mkPatch (kind : workloadKind) : string → string → list (string * string) → Patch :=
  match kind with KindDeployment => PatchDeployment | KindDaemonSet => PatchDaemonSet end.

(** What the API server stores for a workload after a patch. *)
Definition patched (kind : workloadKind) (w : Workload) (p : Patch) : Workload :=
  match p, kind with
  | PatchDeployment ns n a, KindDeployment | PatchDaemonSet ns n a, KindDaemonSet =>
      if bool_decide (ns = wl_Namespace w) && bool_decide (n = wl_Name w) then templatePatched a w else w
  | _, _ => w
  end.

Definition templateHash (w : Workload) : string := mget (wl_TemplateAnnotations w) extProcConfigHashAnnotationKey.

(** The patches of a run write one hash, if any. *)
Definition writesHash (h : string) (p : Patch) : Prop :=
  match p with
  | PatchPod _ _ _ => True
  | PatchDeployment _ _ a | PatchDaemonSet _ _ a => last_binding extProcConfigHashAnnotationKey a ∈ [None; Some h]
  end.

Lemma templateHash_patched kind h w p : writesHash h p → templateHash (patched kind w p) = templateHash w ∨ templateHash (patched kind w p) = h.
Proof.
  intros Hp. destruct p, kind; simpl in *; try (by left); (destruct (_ && _); [|by left]);
    unfold templateHash, templatePatched, mget; cbn [wl_TemplateAnnotations]; rewrite lookup_insert_all;
    apply list_elem_of_In in Hp; destruct Hp as [<-|[<-|[]]]; auto.
Qed.

Lemma templateHash_kept kind h w ps :
  Forall (writesHash h) ps → templateHash w = h → templateHash (foldl (patched kind) w ps) = h.
Proof.
  intros Hps. revert w. induction Hps as [|p ps Hp Hps IH]; intros w Hw; [done|]. apply IH.
  destruct (templateHash_patched kind h w p Hp) as [->| ->]; done.
Qed.

Lemma patched_same_key kind w p : wl_Namespace (patched kind w p) = wl_Namespace w ∧ wl_Name (patched kind w p) = wl_Name w.
Proof. destruct p, kind; simpl; try done; by destruct (_ && _). Qed.

(** A workload whose patch with the hash was sent has the hash. *)
Lemma templateHash_written kind h ps w a :
  Forall (writesHash h) ps → mkPatch kind (wl_Namespace w) (wl_Name w) a ∈ ps → last_binding extProcConfigHashAnnotationKey a = Some h →
  templateHash (foldl (patched kind) w ps) = h.
Proof.
  intros Hps. revert w. induction Hps as [|p ps Hp Hps IH]; intros w Hin Ha; [by apply elem_of_nil in Hin|].
  cbn [foldl]. apply elem_of_cons in Hin as [<-|Hin].
  - apply templateHash_kept; [done|]. destruct kind; simpl; rewrite !bool_decide_true by done; simpl;
      unfold templateHash, mget; simpl; by rewrite lookup_insert_all, Ha.
  - apply IH; [|done]. destruct (patched_same_key kind w p) as [-> ->]. done.
Qed.

Lemma sendAll_ok patch what ps sent : sendAll patch what ps = (sent, Ok tt) → sent = ps.
Proof.
  revert sent. induction ps as [|p ps IH]; intros sent H; simpl in H; [by injection H|].
  destruct (owrap _ _); [|done..]. destruct (sendAll patch what ps) as [s r] eqn:E. injection H as <- ->. by rewrite (IH s).
Qed.

Lemma sendAll_sub patch what ps p : p ∈ (sendAll patch what ps).1 → p ∈ ps.
Proof.
  induction ps as [|q ps IH]; simpl; [done|]. destruct (owrap _ _).
  - destruct (sendAll patch what ps) as [s r]. simpl in *. rewrite !elem_of_cons. naive_solver.
  - simpl. rewrite list_elem_of_singleton. intros ->. by left.
  - simpl. rewrite list_elem_of_singleton. intros ->. by left.
Qed.

Lemma templateAnnotations_hash uuid h i j :
  last_binding extProcConfigHashAnnotationKey (templateAnnotations uuid h i j) = if j then Some h else None.
Proof. by destruct i, j. Qed.

Lemma workloadPatch_writes mk eff st uuid h w p :
  (mk = PatchDeployment ∨ mk = PatchDaemonSet) → p ∈ workloadPatch mk eff st uuid h w → writesHash h p.
Proof.
  intros Hmk. unfold workloadPatch. cbv zeta. destruct (_ && _); [by intros ?%elem_of_nil|]. intros ->%list_elem_of_singleton.
  destruct Hmk as [-> | ->]; simpl; rewrite templateAnnotations_hash; destruct (_ && _);
    auto using list_elem_of_here, list_elem_of_further.
Qed.

(** The patch of a workload that does not have the hash carries it. *)
Lemma workloadPatch_hash mk st uuid h w :
  h ≠ "" → templateHash w ≠ h → ∃ a, workloadPatch mk true st uuid h w = [mk (wl_Namespace w) (wl_Name w) a] ∧
    last_binding extProcConfigHashAnnotationKey a = Some h.
Proof.
  intros Hh Hw. unfold workloadPatch. rewrite (bool_decide_true (h ≠ "")), (bool_decide_true (_ ≠ h)) by done.
  cbn [andb negb]. rewrite andb_false_r. eexists. split; [done|]. by rewrite templateAnnotations_hash.
Qed.

Section Rolled.
Context (patch : Patch → outcome unit) (side : bool) (level : string).
Context (pods : list Pod) (deployments daemonSets : list Workload) (uuid : string) (eff needMCP : bool) (image hash : string).

Definition workloadsOf (kind : workloadKind) : list Workload := match kind with KindDeployment => deployments | KindDaemonSet => daemonSets end.

Lemma annotate_sent sent :
  annotateGatewayPods patch side level pods deployments daemonSets uuid eff needMCP image hash = (sent, Ok false) →
  sent = ((λ p, PatchPod (po_Namespace p) (po_Name p) uuid) <$> livePods pods) ++
         rolloutPatches side level pods deployments daemonSets uuid eff needMCP image hash.
Proof.
  unfold annotateGatewayPods. destruct (isRolloutInProgress _ _); [done|]. destruct (sendAll _ _ _) as [s r] eqn:E.
  intros H. injection H as <- Hr. destruct r as [[]| |]; [|done..]. by apply sendAll_ok in E.
Qed.

Lemma rolloutPatches_in kind w p :
  w ∈ workloadsOf kind → p ∈ workloadPatch (mkPatch kind) eff (stateRollout side level pods eff needMCP image) uuid hash w →
  p ∈ rolloutPatches side level pods deployments daemonSets uuid eff needMCP image hash.
Proof.
  intros Hw Hp. unfold rolloutPatches. apply elem_of_app. destruct kind; [left|right]; apply list_elem_of_bind; eauto.
Qed.

Lemma rolloutPatches_inv p :
  p ∈ rolloutPatches side level pods deployments daemonSets uuid eff needMCP image hash →
  ∃ kind w, w ∈ workloadsOf kind ∧ p ∈ workloadPatch (mkPatch kind) eff (stateRollout side level pods eff needMCP image) uuid hash w.
Proof.
  unfold rolloutPatches. cbv zeta. intros [H|H]%elem_of_app; apply list_elem_of_bind in H as (w & ? & ?);
    [exists KindDeployment|exists KindDaemonSet]; eauto.
Qed.

(** After a run all of whose patches were accepted every template has the hash. *)
Lemma templates_hashed sent kind w :
  annotateGatewayPods patch side level pods deployments daemonSets uuid eff needMCP image hash = (sent, Ok false) →
  eff = true → hash ≠ "" → w ∈ workloadsOf kind → templateHash (foldl (patched kind) w sent) = hash.
Proof.
  intros H He Hh Hw. apply annotate_sent in H as ->.
  match goal with |- context [foldl _ _ ?l] => assert (Forall (writesHash hash) l) as Hps end.
  { apply Forall_app. split; [by apply Forall_fmap, Forall_true|]. apply Forall_forall. intros p (k & w' & _ & Hp)%rolloutPatches_inv.
    eapply workloadPatch_writes; [|exact Hp]. destruct k; auto. }
  destruct (decide (templateHash w = hash)) as [Hw'|Hw']; [by apply templateHash_kept|].
  destruct (workloadPatch_hash (mkPatch kind) (stateRollout side level pods true needMCP image) uuid hash w Hh Hw') as (a & Hp & Ha).
  eapply templateHash_written; [done| |done]. apply elem_of_app. right. apply (rolloutPatches_in kind w); [done|].
  rewrite He, Hp. by left.
Qed.
End Rolled.

(** Pods in the state the routes ask for need no rollout. *)
Lemma settled_state side level pods eff needMCP image :
  (∀ p, p ∈ livePods pods → checkPodHasSideCar side level p needMCP image = eff) → (eff = true → livePods pods ≠ []) →
  stateRollout side level pods eff needMCP image = false.
Proof.
  intros Hp Hn. unfold stateRollout. cbv zeta. destruct eff.
  - destruct (livePods pods) as [|p l] eqn:E; [by destruct Hn|].
    assert (existsb (λ p, negb (checkPodHasSideCar side level p needMCP image)) (p :: l) = false) as ->.
    { apply not_true_iff_false. intros (q & Hq & Hc)%existsb_iff. by rewrite Hp in Hc. }
    cbn [existsb]. rewrite Hp by (by left). done.
  - assert (existsb (λ p, checkPodHasSideCar side level p needMCP image) (livePods pods) = false) as ->; [|done].
    apply not_true_iff_false. intros (q & Hq & Hc)%existsb_iff. by rewrite Hp in Hc.
Qed.

(** ** A rollout settles *)

Section Settles.
Context `{MC : !MutatorClient} (sha256 : string → string) (marshalDigest : extProcConfigDigest → string).
Context (b : extProcBuilder) (gw ns : string) (routes : list AIGatewayRoute) (mcpRoutes : list aigMCPRoute) (gwConfig : option GatewayConfig).

Definition attached : bool := bool_decide (routes ≠ [] ∨ mcpRoutes ≠ []).
Definition input : extProcContainerInput := {| ci_gatewayConfig := gwConfig; ci_needMCP := bool_decide (mcpRoutes ≠ []) |}.

(** What the webhook reads: the same routes and configuration as the reconciler, and
    the index of the bundle the reconciler wrote. *)
Record webhookSees : Prop := {
  sees_routes : listAIGatewayRoutesForGateway cached_AIGatewayRoutes all_AIGatewayRoutes gw ns = Ok routes;
  sees_mcpRoutes : listMCPRoutesForGateway cached_MCPRoutes all_MCPRoutes gw ns = Ok mcpRoutes;
  sees_config : mutator_fetchGatewayConfig gw ns = Ok gwConfig;
  sees_index podNs : get_BundleIndex podNs (FilterConfigBundleIndexSecretName sha256 gw ns) = Ok (Some tt);
}.

(** The webhook adds the container exactly when a route is attached. *)
Lemma mutatePod_spec pod :
  webhookSees → mutatePod sha256 b pod gw ns = Ok (if attached then injectInto sha256 b pod gw ns input else pod).
Proof.
  intros [Hr Hm Hc Hi]. unfold mutatePod, attached, input. rewrite Hr, Hm. cbn [owrap obind]. rewrite Hi, Hc. cbn [owrap obind].
  destruct routes as [|r l]; [destruct mcpRoutes as [|m l]|].
  - rewrite (bool_decide_false (_ ∨ _)); [done|]. by intros [H|H].
  - by rewrite (bool_decide_true (_ ∨ _)) by (by right).
  - by rewrite (bool_decide_true (_ ∨ _)) by (by left).
Qed.

Definition desiredHash : string := extProcContainerHash marshalDigest sha256 b input.

(** The run of the reconciler for the routes and the configuration, where the
    configuration says whether there is an effective route. *)
Definition annotate (eff : bool) (patch : Patch → outcome unit) (pods : list Pod) (deployments daemonSets : list Workload) (uuid : string) :
    list Patch * outcome bool :=
  annotateGatewayPods patch (eb_extProcAsSideCar b) (eb_logLevel b) pods deployments daemonSets uuid eff (ci_needMCP input)
    (extProcImage b input) desiredHash.

Lemma recreated_settled pods :
  plainOptions b → webhookSees →
  (∀ p, p ∈ livePods pods → ∃ pod, fresh pod ∧ mutatePod sha256 b pod gw ns = Ok p) → (attached = true → livePods pods ≠ []) →
  stateRollout (eb_extProcAsSideCar b) (eb_logLevel b) pods attached (ci_needMCP input) (extProcImage b input) = false.
Proof.
  intros Hb Hs Hp Hn. apply settled_state; [|done]. intros p (pod & Hf & Hm)%Hp. rewrite mutatePod_spec in Hm by done. injection Hm as <-.
  destruct attached; [by apply injected_is_current|by apply fresh_not_current].
Qed.

Lemma settles patch patch' uuid uuid' pods pods' deployments daemonSets sent :
  plainOptions b → webhookSees → desiredHash ≠ "" →
  annotate attached patch pods deployments daemonSets uuid = (sent, Ok false) →
  (∀ p, p ∈ livePods pods' → ∃ pod, fresh pod ∧ mutatePod sha256 b pod gw ns = Ok p) → (attached = true → livePods pods' ≠ []) →
  ∀ p, p ∈ (annotate attached patch' pods' ((λ w, foldl (patched KindDeployment) w sent) <$> deployments)
              ((λ w, foldl (patched KindDaemonSet) w sent) <$> daemonSets) uuid').1 →
    ∃ q, q ∈ livePods pods' ∧ p = PatchPod (po_Namespace q) (po_Name q) uuid'.
Proof.
  intros Hb Hs Hh Ha Hp Hn p. pose proof (recreated_settled pods' Hb Hs Hp Hn) as Hst.
  unfold annotate, annotateGatewayPods. destruct (isRolloutInProgress _ _); [by intros ?%elem_of_nil|].
  destruct (sendAll _ _ _) as [s r] eqn:E. intros Hin. cbn [fst] in Hin.
  pose proof (sendAll_sub patch' failedTo _ p (eq_rect_r (λ x, p ∈ x.1) Hin E)) as [H|H]%elem_of_app.
  - apply list_elem_of_fmap in H as (q & -> & Hq). eauto.
  - exfalso. apply rolloutPatches_inv in H as (kind & w & Hw & H). rewrite Hst in H.
    assert (∃ w0, w0 ∈ workloadsOf deployments daemonSets kind ∧ w = foldl (patched kind) w0 sent) as (w0 & Hw0 & ->).
    { destruct kind; apply list_elem_of_fmap in Hw as (w0 & -> & ?); eauto. }
    unfold workloadPatch in H. cbn [negb andb] in H. destruct attached eqn:Eat; [|by apply elem_of_nil in H].
    pose proof (templates_hashed _ _ _ _ _ _ _ _ _ _ _ sent kind w0 Ha eq_refl Hh Hw0) as Hw1. unfold templateHash in Hw1.
    rewrite Hw1, (bool_decide_false (desiredHash ≠ desiredHash)), andb_false_r in H by congruence. by apply elem_of_nil in H.
Qed.

Context {Prog : Type} `{CE : !CelEnv Prog, GC : !GrantClient, CL : !GatewayClient}.
Context (range : gmap string (string * string) → list (string * (string * string))) (rangeUnit : gmap string () → list (string * ())).
Context (rangeCosts : gmap string LLMRequestCost → list (string * LLMRequestCost)).

(** C15: A rollout settles.  Let a run publish the configuration of the routes of a
    Gateway, find by it whether there is an effective route, and have all its patches
    accepted, and let the webhook recreate the pods for the same routes and
    configuration.  Then a later run patches pods only: no workload is rolled again.
    This is for a Gateway with no route at all, or with a route that is not being
    deleted: when all its routes are being deleted the webhook adds the container and
    the reconciler removes it, again and again.  When there is a route, a live pod is
    needed, and no option of the builder may be worded like a flag. *)
Theorem rollout_settles patch patch' version globals uuid uuid' ec mcp eff pods pods' deployments daemonSets sent :
  plainOptions b → webhookSees → desiredHash ≠ "" →
  routes = [] ∧ mcpRoutes = [] ∨ Exists (λ r, ar_Deleted r = false) routes ∨ Exists (λ r, McpController.ro_Deleted r = false) mcpRoutes →
  filterConfig (Prog := Prog) range rangeUnit rangeCosts b version uuid routes mcpRoutes globals = Ok (ec, mcp, eff) →
  annotate eff patch pods deployments daemonSets uuid = (sent, Ok false) →
  (∀ p, p ∈ livePods pods' → ∃ pod, fresh pod ∧ mutatePod sha256 b pod gw ns = Ok p) → (eff = true → livePods pods' ≠ []) →
  ∀ p, p ∈ (annotate eff patch' pods' ((λ w, foldl (patched KindDeployment) w sent) <$> deployments)
              ((λ w, foldl (patched KindDaemonSet) w sent) <$> daemonSets) uuid').1 →
    ∃ q, q ∈ livePods pods' ∧ p = PatchPod (po_Namespace q) (po_Name q) uuid'.
Proof.
  intros Hb Hs Hh Hr He%filterConfig_effective. assert (eff = attached) as ->; [|by apply settles].
  unfold attached. apply eq_bool_prop_intro. rewrite bool_decide_spec, Is_true_true, He. unfold effective. split.
  - intros [H%Exists_exists|H%Exists_exists]; destruct H as (x & Hx & _); [left|right]; by intros ->; apply elem_of_nil in Hx.
  - intros Ha. destruct Hr as [[-> ->]|[H|H]]; [by destruct Ha|by left|by right].
Qed.
End Settles.

(** ** The hash covers the container *)

(** C16: The hash on the workload templates covers the container: two configurations
    with the same digest have the same container, its arguments, environment, mounts
    and resources included, and the same pull secrets.  So every change of what the
    webhook injects, apart from the bundle's mount, changes what is hashed. *)
Theorem digest_determines_container b b' i i' :
  digestOf b i = digestOf b' i' → buildExtProcContainer b i = buildExtProcContainer b' i' ∧ eb_imagePullSecrets b = eb_imagePullSecrets b'.
Proof.
  intros H. unfold digestOf in H. injection H as Hi Hpp Hl Hf Hr Hu H1 H2 H3 H4 Hroot He Henv Hps Hm Hside Hmcp Hspec.
  split; [|done]. unfold buildExtProcContainer. cbv zeta. rewrite Hspec, Hi, Hpp, Hu, Hside. f_equal.
  - rewrite !args_split. unfold argsBefore, argsAfter. by rewrite Hl, Hu, Hroot, Hm, Hf, Hmcp, H1, H2, H3, H4, He, Hr.
  - unfold mergeEnvVars, kubernetesOf. unfold extProcSpecFromInput in Hspec. congruence.
Qed.

(** ** The environment *)

Definition envPairs (l : list EnvVar) : list (string * string) := (λ e, (ev_Name e, ev_Value e)) <$> l.

(** The index holds the last position of each name. *)
Definition envIndexed (names : list string) (index : gmap string nat) : Prop :=
  ∀ n, match index !! n with
       | Some i => names !! i = Some n ∧ ∀ j, i < j → names !! j ≠ Some n
       | None => n ∉ names
       end.

Lemma envIndexed_snoc names index n : envIndexed names index → envIndexed (names ++ [n]) (<[n := length names]> index).
Proof.
  intros H m. rewrite lookup_insert. case_decide as Hm.
  - subst. split; [by apply list_lookup_middle|]. intros j Hj. rewrite lookup_ge_None_2; [done|]. rewrite length_app. simpl. lia.
  - specialize (H m). destruct (index !! m) as [i|].
    + destruct H as [Hi Hl]. pose proof (lookup_lt_Some _ _ _ Hi). split; [by rewrite lookup_app_l|].
      intros j Hj [Hjm|[_ Hjm]]%lookup_app_Some; [by eapply Hl|]. apply list_lookup_singleton_Some in Hjm as [_ ?]. congruence.
    + rewrite elem_of_app, list_elem_of_singleton. intros [?|?]; [done|congruence].
Qed.

Lemma last_binding_insert {V} n (v : V) l i :
  l.*1 !! i = Some n → (∀ j, i < j → l.*1 !! j ≠ Some n) →
  ∀ m, last_binding m (<[i := (n, v)]> l) = if decide (m = n) then Some v else last_binding m l.
Proof.
  revert i. induction l as [|p l IH] using rev_ind; intros i Hi Hl m; [done|].
  rewrite fmap_app in Hi. destruct (decide (i < length l)) as [Hlt|Hge].
  - rewrite insert_app_l, !last_binding_snoc, IH by
      (first [lia|by rewrite lookup_app_l in Hi by (by rewrite length_fmap)|
              intros j Hj Hj'; apply (Hl j Hj); rewrite fmap_app; by apply lookup_app_l_Some]).
    destruct (decide (p.1 = m)) as [<-|?]; [|done]. destruct (decide (p.1 = n)) as [Hpn|?]; [|done].
    destruct (Hl (length l)); [lia|]. rewrite fmap_app, <-Hpn. apply list_lookup_middle. by rewrite length_fmap.
  - rewrite lookup_app_r in Hi by (rewrite length_fmap; lia). apply list_lookup_singleton_Some in Hi as [Hi Hp].
    rewrite length_fmap in Hi. assert (i = length l + 0) as -> by lia. rewrite insert_app_r. cbn [list_insert insert].
    rewrite !last_binding_snoc. simpl. rewrite Hp. by repeat case_decide.
Qed.

Definition envState (acc : list EnvVar * gmap string nat) : Prop := envIndexed (ev_Name <$> acc.1) acc.2.

Lemma addGlobal_ok acc env : envState acc → envState (addGlobal acc env).
Proof.
  destruct acc as [result index]. unfold envState, addGlobal. simpl. intros H. rewrite fmap_app, <-(length_fmap ev_Name result).
  by apply envIndexed_snoc.
Qed.

Lemma addOverride_ok acc env :
  envState acc → envState (addOverride acc env) ∧
  (∀ m, last_binding m (envPairs (addOverride acc env).1) = if decide (m = ev_Name env) then Some (ev_Value env) else last_binding m (envPairs acc.1)) ∧
  (ev_Name <$> acc.1) `prefix_of` (ev_Name <$> (addOverride acc env).1).
Proof.
  destruct acc as [result index]. unfold envState, addOverride. simpl. intros H. pose proof (H (ev_Name env)) as Hn.
  destruct (index !! ev_Name env) as [i|] eqn:Ei; simpl.
  - destruct Hn as [Hi Hl]. rewrite list_fmap_insert, list_insert_id by done. split_and!; [done| |done].
    intros m. unfold envPairs. rewrite list_fmap_insert. apply last_binding_insert; rewrite <-list_fmap_compose; [done|apply Hl].
  - split_and!.
    + rewrite fmap_app, <-(length_fmap ev_Name result). by apply envIndexed_snoc.
    + intros m. unfold envPairs. rewrite fmap_app. cbn [fmap list_fmap]. rewrite last_binding_snoc. simpl. repeat case_decide; congruence.
    + rewrite fmap_app. by apply prefix_app_r.
Qed.

Lemma addGlobal_fold env acc : envState acc →
  envState (foldl addGlobal acc env) ∧ (foldl addGlobal acc env).1 = acc.1 ++ env.
Proof.
  revert acc. induction env as [|e env IH]; intros acc H; [by rewrite app_nil_r|]. cbn [foldl].
  destruct (IH _ (addGlobal_ok acc e H)) as [H1 H2]. split; [done|]. rewrite H2. destruct acc. simpl. by rewrite <-app_assoc.
Qed.

Lemma addOverride_fold env acc : envState acc →
  (∀ m, last_binding m (envPairs (foldl addOverride acc env).1) =
        match last_binding m (envPairs env) with Some v => Some v | None => last_binding m (envPairs acc.1) end) ∧
  (ev_Name <$> acc.1) `prefix_of` (ev_Name <$> (foldl addOverride acc env).1).
Proof.
  revert acc. induction env as [|e env IH]; intros acc H; [done|]. cbn [foldl].
  destruct (addOverride_ok acc e H) as (H1 & H2 & H3). destruct (IH _ H1) as [H4 H5]. split; [|by etrans].
  intros m. rewrite H4, H2. change (envPairs (e :: env)) with ([(ev_Name e, ev_Value e)] ++ envPairs env). rewrite last_binding_app.
  destruct (last_binding m (envPairs env)); [done|]. unfold last_binding at 2. simpl. repeat case_decide; congruence.
Qed.

(** The environment of the container: a variable has the value of the
    GatewayConfig, and otherwise that of the controller's options; the variables of
    the options keep their order and come first. *)
Theorem env_override b gatewayConfig n :
  let overrides := default [] (kc_Env <$> kubernetesOf gatewayConfig) in
  last_binding n (envPairs (mergeEnvVars b gatewayConfig)) =
    match last_binding n (envPairs overrides) with Some v => Some v | None => last_binding n (envPairs (eb_extraEnvVars b)) end ∧
  (ev_Name <$> eb_extraEnvVars b) `prefix_of` (ev_Name <$> mergeEnvVars b gatewayConfig).
Proof.
  intros overrides. unfold mergeEnvVars. fold overrides.
  destruct (addGlobal_fold (eb_extraEnvVars b) ([], ∅)) as [H1 H2].
  { intros m. cbn [fst snd]. rewrite lookup_empty. by apply not_elem_of_nil. }
  destruct (addOverride_fold overrides _ H1) as [H3 H4]. cbn [fst app] in H2. rewrite H2 in H3, H4. done.
Qed.

(** ** The image *)

Lemma LastIndex_none s c : Contains s c = false → LastIndex s (String c "") = None.
Proof.
  induction s as [|d s IH]; [done|]. intros [Hd Hs]%Contains_false_cons. cbn [LastIndex]. rewrite IH by done.
  unfold HasPrefix. by rewrite bool_decide_false by congruence.
Qed.

Lemma HasPrefix_head d t c : HasPrefix (String d t) (String c "") = bool_decide (d = c).
Proof.
  case_bool_decide as H; [subst; change (String c t) with (String c "" +:+ t); apply HasPrefix_app|].
  unfold HasPrefix. by rewrite bool_decide_false by congruence.
Qed.

Lemma HasPrefix_char c t : HasPrefix (String c t) (String c "") = true.
Proof. rewrite HasPrefix_head. by apply bool_decide_true. Qed.

Lemma LastIndex_app_char s t c : Contains t c = false → LastIndex (s +:+ String c t) (String c "") = Some (String.length s).
Proof.
  intros Ht. induction s as [|d s IH]; [|rewrite sapp_cons; cbn [LastIndex]; by rewrite IH].
  change ("" +:+ String c t) with (String c t). cbn [LastIndex]. by rewrite LastIndex_none, HasPrefix_char by done.
Qed.

Lemma LastIndex_app_ge s t c : ∃ j, LastIndex (s +:+ String c t) (String c "") = Some j ∧ String.length s ≤ j.
Proof.
  induction s as [|d s (j & Hj & Hl)].
  - change ("" +:+ String c t) with (String c t). cbn [LastIndex]. rewrite HasPrefix_char. destruct (LastIndex t _); eexists; split; simpl; try done; lia.
  - exists (S j). rewrite sapp_cons. cbn [LastIndex]. rewrite Hj. simpl. split; [done|lia].
Qed.

Lemma LastIndex_app_none s t c : Contains t c = false → LastIndex (s +:+ t) (String c "") = LastIndex s (String c "").
Proof.
  intros Ht. induction s as [|d s IH]; [by apply LastIndex_none|]. rewrite sapp_cons. cbn [LastIndex]. rewrite IH. by rewrite !HasPrefix_head.
Qed.

Lemma LastIndex_lt s c i : LastIndex s (String c "") = Some i → i < String.length s.
Proof.
  revert i. induction s as [|d s IH]; intros i H; cbn [LastIndex] in H; [done|].
  destruct (LastIndex s _) as [j|]; [injection H as <-; specialize (IH _ eq_refl); simpl; lia|].
  destruct (HasPrefix _ _); [injection H as <-; simpl; lia|done].
Qed.

Lemma Index_char_none s c : Contains s c = false → Index s (String c "") = None.
Proof.
  induction s as [|d s IH]; [done|]. intros [Hd Hs]%Contains_false_cons. cbn [Index]. rewrite HasPrefix_head, IH by done.
  by rewrite bool_decide_false.
Qed.

Lemma image_digest repo digest : Contains repo "@" = false → imageTagOrDigest (repo +:+ "@" +:+ digest) = "@" +:+ digest.
Proof.
  intros Hr. unfold imageTagOrDigest. rewrite bool_decide_false by (by destruct repo). change ("@" +:+ digest) with (String "@" "" +:+ digest).
  rewrite Index_app_fresh by done. by rewrite str_drop_app.
Qed.

(** The tag is after the last colon, unless that is the port of a registry. *)
Lemma image_tag repo tag :
  Contains repo "@" = false → Contains tag "@" = false → Contains tag ":" = false → Contains tag "/" = false →
  imageTagOrDigest (repo +:+ ":" +:+ tag) = ":" +:+ tag.
Proof.
  intros Hr Ha Hc Hs. unfold imageTagOrDigest. rewrite bool_decide_false by (by destruct repo). change (":" +:+ tag) with (String ":" tag).
  rewrite Index_char_none by (rewrite Contains_app, Hr; by apply Contains_false_cons). rewrite LastIndex_app_char by done.
  rewrite LastIndex_app_none by (by apply Contains_false_cons).
  destruct (LastIndex repo "/") as [i|] eqn:E; [|by rewrite str_drop_app].
  apply LastIndex_lt in E. by rewrite (proj2 (Nat.ltb_lt _ _) E), str_drop_app.
Qed.

Lemma image_untagged host name :
  Contains host "@" = false → Contains name "@" = false → Contains name ":" = false →
  imageTagOrDigest (host +:+ "/" +:+ name) = "".
Proof.
  intros Hh Ha Hc. unfold imageTagOrDigest. rewrite bool_decide_false by (by destruct host). change ("/" +:+ name) with (String "/" name).
  rewrite Index_char_none by (rewrite Contains_app, Hh; by apply Contains_false_cons).
  rewrite LastIndex_app_none by (by apply Contains_false_cons). destruct (LastIndex host ":") as [i|] eqn:E; [|done]. apply LastIndex_lt in E.
  destruct (LastIndex_app_ge host name "/") as (j & -> & Hj). by rewrite (proj2 (Nat.ltb_ge _ _)) by lia.
Qed.

(** ** The objects of a Gateway *)

(** A list of a namespace holds objects of that namespace. *)
Class GatewayObjectsLaws (GO : GatewayObjects) := {
  list_Pods_ns ns l : list_Pods ns = Ok l → Forall (λ p, po_Namespace p = ns) l;
  list_Deployments_ns ns l : list_Deployments ns = Ok l → Forall (λ w, wl_Namespace w = ns) l;
  list_DaemonSets_ns ns l : list_DaemonSets ns = Ok l → Forall (λ w, wl_Namespace w = ns) l;
}.

Definition namespacesOf (f : found) : list string :=
  (po_Namespace <$> fo_pods f) ++ (wl_Namespace <$> fo_deployments f) ++ (wl_Namespace <$> fo_daemonSets f).

Lemma findIn_namespaces `{GL : !GatewayObjectsLaws GO} f ns f' :
  findIn f ns = Ok f' → (∀ m, m ∈ namespacesOf f → m ∈ fo_namespaces f) → ∀ m, m ∈ namespacesOf f' → m ∈ fo_namespaces f'.
Proof.
  unfold findIn. destruct (list_Pods ns) as [ps| |] eqn:E1; [|done..]. destruct (list_Deployments ns) as [ds| |] eqn:E2; [|done..].
  destruct (list_DaemonSets ns) as [dss| |] eqn:E3; [|done..]. cbn [owrap obind]. intros H Hf m. injection H as <-.
  apply list_Pods_ns in E1. apply list_Deployments_ns in E2. apply list_DaemonSets_ns in E3.
  unfold namespacesOf. cbn [fo_pods fo_deployments fo_daemonSets fo_namespaces]. rewrite !fmap_app, !elem_of_app.
  specialize (Hf m). unfold namespacesOf in Hf. rewrite !elem_of_app in Hf.
  assert (∀ {A} (g : A → string) l, Forall (λ x, g x = ns) l → m ∈ g <$> l → l ≠ [] ∧ m = ns) as Hin.
  { intros A g l Hl (x & -> & Hx)%list_elem_of_fmap. rewrite Forall_forall in Hl. split; [by intros ->; apply elem_of_nil in Hx|by apply Hl]. }
  assert (ps ≠ [] ∨ ds ≠ [] ∨ dss ≠ [] → ns ∈ if bool_decide (ps = []) && bool_decide (ds = []) && bool_decide (dss = []) then [] else [ns]) as Hns.
  { intros Hne. repeat case_bool_decide; simpl; try (by left). by destruct Hne as [?|[?|?]]. }
  intros [[?|H]|[[?|H]|[?|H]]]; try (left; tauto); right; apply Hin in H as [? ->]; tauto.
Qed.

Lemma ofold_findIn `{GL : !GatewayObjectsLaws GO} nss f f' :
  ofold findIn f nss = Ok f' → (∀ m, m ∈ namespacesOf f → m ∈ fo_namespaces f) → ∀ m, m ∈ namespacesOf f' → m ∈ fo_namespaces f'.
Proof.
  revert f. induction nss as [|ns nss IH]; intros f H Hf; simpl in H; [by injection H as <-|].
  destruct (findIn f ns) as [f1| |] eqn:E; [|done..]. cbn [obind] in H. eapply IH; [exact H|]. by eapply findIn_namespaces.
Qed.

Lemma namespaceOf_elem f : namespacesOf f ≠ [] → namespaceOf f ∈ namespacesOf f.
Proof.
  unfold namespaceOf, namespacesOf. rewrite !elem_of_app. destruct (fo_daemonSets f) as [|d l]; [|right; right; by left].
  destruct (fo_deployments f) as [|d l]; [|right; left; by left]. destruct (fo_pods f); [done|left; by left].
Qed.

(** The namespace the Secrets are written to is the one of every pod and workload. *)
Lemma objects_in_one_namespace `{GL : !GatewayObjectsLaws GO} envoyGatewayNamespace gwNamespace ns f :
  getObjectsForGateway envoyGatewayNamespace gwNamespace = Ok (ns, f) → ∀ m, m ∈ namespacesOf f → m = ns.
Proof.
  unfold getObjectsForGateway. destruct (ofold _ _ _) as [f'| |] eqn:E; [|done..]. cbn [obind]. destruct (1 <? length _)%nat eqn:El; [done|].
  intros H m Hm. injection H as <- ->. apply Nat.ltb_ge in El. pose proof (ofold_findIn _ _ _ E (λ m H, H)) as Hall.
  assert (namespaceOf f ∈ namespacesOf f) as Hn by (apply namespaceOf_elem; intros Hz; rewrite Hz in Hm; by apply elem_of_nil in Hm).
  apply Hall in Hm, Hn. destruct (fo_namespaces f) as [|a [|? ?]]; [by apply elem_of_nil in Hm| |simpl in El; lia].
  apply list_elem_of_singleton in Hm as ->, Hn as ->. done.
Qed.

(** ** From the routes to the external processor *)

Section Published.
Context {Prog : Type} `{CE : !CelEnv Prog, GC : !GrantClient, CL : !GatewayClient, MC : !MutatorClient, GO : !GatewayObjects}.
Context (range : gmap string (string * string) → list (string * (string * string))).
Context (rangeUnit : gmap string () → list (string * ())).
Context (rangeCosts : gmap string LLMRequestCost → list (string * LLMRequestCost)).
Context (sha256 : string → string) (sha256_len : ∀ s, String.length (sha256 s) = 32).
Context (yaml_MarshalIndex : ConfigBundleIndex → outcome string) (yaml_UnmarshalIndex : string → outcome ConfigBundleIndex).
Context (yaml_Marshal : Config → option MCPConfig → outcome string) (yaml_UnmarshalConfig : string → outcome Config).
(** The YAML codecs read back what they wrote. *)
Context (yaml_index_roundtrip : ∀ index raw, yaml_MarshalIndex index = Ok raw → yaml_UnmarshalIndex raw = Ok index).
Context (yaml_config_roundtrip : ∀ ec mcp raw, yaml_Marshal ec mcp = Ok raw → yaml_UnmarshalConfig raw = Ok ec).
Context (marshalDigest : extProcConfigDigest → string) (marshalSpec : GatewayConfig → outcome string).
Context {K : Type} `{KS : !KubeSecrets K, KL : !KubeSecretsLaws K}.
Context (patchGateway : gmap string string → outcome unit) (patch : Patch → outcome unit).
Context (sortByCreation : list aigMCPRoute → list aigMCPRoute).
Context (b : extProcBuilder) (version envoyGatewayNamespace : string) (standAlone : bool).

Notation config := (filterConfig (Prog := Prog) range rangeUnit rangeCosts b version).

Lemma filterConfig_version uid ai mcp costs ec m eff : config uid ai mcp costs = Ok (ec, m, eff) → cfg_Version ec = version.
Proof.
  unfold filterConfig. destruct (omapM _ _); [|done..]. cbn [obind]. destruct (ofold _ _ _) as [st| |]; [|done..]. cbn [obind].
  destruct (promote st), (mcpConfig mcp). intros H. by injection H as <- _ _.
Qed.

Lemma reconcileFilterConfigSecret_ok gw ns ai mcp uid costs (k k' : K) eff :
  reconcileFilterConfigSecret (Prog := Prog) range rangeUnit rangeCosts sha256 yaml_MarshalIndex yaml_Marshal b version gw ns ai mcp uid costs k = (k', Ok eff) →
  ∃ ec m raw, config uid ai mcp costs = Ok (ec, m, eff) ∧ yaml_Marshal ec m = Ok raw ∧
    writeFilterConfigBundle sha256 yaml_MarshalIndex version gw ns raw uid k = (k', Ok tt).
Proof.
  unfold reconcileFilterConfigSecret. destruct (filterConfig _ _ _ _ _ _ _ _) as [[[ec m] eff']| |]; [|done..].
  destruct (yaml_Marshal ec m) as [raw| |] eqn:Em; [|done..]. cbn [owrap].
  destruct (writeFilterConfigBundle _ _ _ _ _ _ _ _) as [k1 [[]| |]] eqn:Ew; [|done..]. cbn [obind]. intros H. injection H as <- <-. eauto 10.
Qed.

(** C14: The controller publishes before it rolls.  When a reconcile of a Gateway that
    has objects succeeds or sends a patch, the configuration of the Gateway's current
    routes is in the Secrets, and the external processor that sees them mounted loads
    that configuration. *)
Theorem published_before_rolled {R} name namespace uid (c c' : cluster (K := K)) r annotations ai mcp ns f fs (cw : bundleConfigWatcher (R := R)) t0 :
  reconcileReads sortByCreation envoyGatewayNamespace standAlone name namespace = Ok (inr (annotations, ai, mcp, ns, f)) →
  Reconcile (Prog := Prog) range rangeUnit rangeCosts sha256 yaml_MarshalIndex yaml_Marshal marshalDigest marshalSpec patchGateway patch sortByCreation
    b version envoyGatewayNamespace standAlone name namespace uid c = (c', r) →
  is_ok r = true ∨ cl_patches c' ≠ cl_patches c →
  mounts sha256 name namespace (cl_secrets c' ns) fs →
  fs_statIndex fs = Ok t0 → (∀ p, is_ok (fs_stat fs p) = true) → (cw_lastMod cw < t0)%Z → cw_versionStr cw = version →
  ∃ gwConfig ec m eff t,
    fetchGatewayConfig namespace annotations = Ok gwConfig ∧
    config uid ai mcp (default [] (gc_GlobalLLMRequestCosts <$> gwConfig)) = Ok (ec, m, eff) ∧
    loadConfig_check sha256 yaml_UnmarshalConfig yaml_UnmarshalIndex cw fs = Ok (Some (ec, t)) ∧ (t0 ≤ t)%Z.
Proof using sha256_len yaml_index_roundtrip yaml_config_roundtrip KL.
  intros Hr. unfold Reconcile. rewrite Hr. intros H Hok Hm Hs Hst Hnew Hver.
  assert (∀ (r0 : outcome bool) (c0 : cluster), is_ok r0 = false → cl_patches c0 = cl_patches c → (c0, r0) ≠ (c', r)) as Hstop.
  { intros r0 c0 H1 H2 H3. injection H3 as <- <-. rewrite H1 in Hok. by destruct Hok. }
  destruct (fetchGatewayConfig namespace annotations) as [gwConfig| |]; [|by eapply Hstop in H..].
  destruct (stampGatewayConfigHash _ _ _ _ _) as [an [[]| |]]; [|by eapply Hstop in H..].
  destruct (reconcileFilterConfigSecret _ _ _ _ _ _ _ _ _ _ _ _ _ _ _) as [k [eff| |]] eqn:Ek;
    [|by eapply Hstop in H..].
  apply reconcileFilterConfigSecret_ok in Ek as (ec & m & raw & Hc & Hy & Hw). exists gwConfig, ec, m, eff.
  destruct (annotateGatewayPods _ _ _ _ _ _ _ _ _ _ _) as [sent r']. injection H as <- <-. cbn [cl_secrets] in Hm.
  unfold setSecrets in Hm. rewrite bool_decide_true in Hm by done.
  destruct (bundle_end_to_end sha256 sha256_len yaml_MarshalIndex yaml_UnmarshalConfig yaml_UnmarshalIndex yaml_index_roundtrip
    version name namespace raw uid _ k fs ec cw t0 Hw Hm Hs Hst Hnew (yaml_config_roundtrip _ _ _ Hy)) as (t & Ht & Hle).
  { rewrite Hver. by eapply filterConfig_version. }
  by exists t.
Qed.
End Published.

(** ** Limits of the code *)

(** With an effective route and no live pod, as in a deployment scaled to zero,
    every run writes a new identifier to every workload. *)
Lemma no_pods_always_rolls side level deployments daemonSets uuid needMCP image hash pods :
  livePods pods = [] →
  length (rolloutPatches side level pods deployments daemonSets uuid true needMCP image hash) = length deployments + length daemonSets.
Proof.
  intros Hp. unfold rolloutPatches. assert (stateRollout side level pods true needMCP image = true) as ->.
  { unfold stateRollout. by rewrite Hp. }
  assert (∀ mk l, length (l ≫= workloadPatch mk true true uuid hash) = length l) as Hl.
  { intros mk l. induction l as [|w l IH]; [done|]. cbn [mbind list_bind]. rewrite length_app. by rewrite IH. }
  by rewrite length_app, !Hl.
Qed.

(** While a route is being deleted the webhook still adds the container: a Gateway
    whose only route it is has no effective route, its new pods have the container,
    and the next run rolls the workloads again. *)
Lemma deleting_route_rolls_again sha256 b pod gw ns input deployments uuid hash :
  plainOptions b → fresh pod → po_Deleted pod = false → deployments ≠ [] →
  rolloutPatches (eb_extProcAsSideCar b) (eb_logLevel b) [injectInto sha256 b pod gw ns input] deployments [] uuid false (ci_needMCP input)
    (extProcImage b input) hash ≠ [].
Proof.
  intros Hb Hf Hd Hw. unfold rolloutPatches.
  assert (stateRollout (eb_extProcAsSideCar b) (eb_logLevel b) [injectInto sha256 b pod gw ns input] false (ci_needMCP input) (extProcImage b input) = true) as ->.
  { unfold stateRollout, livePods. rewrite filter_cons_True by done. rewrite filter_nil. cbn [existsb]. by rewrite injected_is_current. }
  destruct deployments as [|w l]; [done|]. done.
Qed.

Module Sample.

Definition builder (format : string) : extProcBuilder :=
  Build_extProcBuilder "docker.io/envoyproxy/ai-gateway-extproc:v1" "IfNotPresent" "info" format false "/etc/uds/run.sock" None (Some "x-user:user") None None
    "/" "" [{| ev_Name := "A"; ev_Value := "1" |}] [] 4194304 true "" 0 "" 0 "" 0 "" 0.

Lemma builder_plain format : plain format → plainOptions (builder format).
Proof. intros H. split; simpl; try plain_flag; try done; intros v [= <-]; plain_flag. Qed.

(** The images and the environment of some configurations. *)
Definition spec (image repository : option string) (env : list EnvVar) : GatewayConfig :=
  {| gc_ExtProc := Some {| ge_Kubernetes := Some {| kc_Image := image; kc_ImageRepository := repository; kc_Env := env; kc_Resources := None;
       kc_SecurityContext := None; kc_VolumeMounts := [] |}; ge_MetadataForwardingNamespaces := [] |};
     gc_GlobalLLMRequestCosts := []; gc_ForwardProxy := None |}.
Example image_of_repository :
  extProcImage (builder "") {| ci_gatewayConfig := Some (spec None (Some "registry:5000/extproc") []); ci_needMCP := false |} = "registry:5000/extproc:v1".
Proof. reflexivity. Qed.
Example env_replaced :
  mergeEnvVars (builder "") (Some (spec None None [{| ev_Name := "B"; ev_Value := "2" |}; {| ev_Name := "A"; ev_Value := "3" |}])) =
  [{| ev_Name := "A"; ev_Value := "3" |}; {| ev_Name := "B"; ev_Value := "2" |}].
Proof. reflexivity. Qed.
Example env_parsed :
  ParseExtraEnvVars "A=1; B=x=y;" = Ok [{| ev_Name := "A"; ev_Value := "1" |}; {| ev_Name := "B"; ev_Value := "x=y" |}] ∧
  is_ok (ParseExtraEnvVars "A=1;=2") = false ∧ ParseImagePullSecrets "a; b;;" = ["a"; "b"].
Proof. vm_compute. done. Qed.

(** Asking for the default log format is not a change. *)
Lemma digest_determines_container_witness :
  let i := {| ci_gatewayConfig := None; ci_needMCP := true |} in
  digestOf (builder "text") i = digestOf (builder "") i ∧ buildExtProcContainer (builder "text") i = buildExtProcContainer (builder "") i.
Proof. split; [vm_compute; reflexivity|]. eapply (digest_determines_container (builder "text") (builder "")). vm_compute. reflexivity. Defined.

Definition route : AIGatewayRoute :=
  {| ar_Namespace := "ns"; ar_Name := "r"; ar_Deleted := false; ar_CreationTimestamp := 0;
     ar_ParentRefs := [{| pa_Name := "gw"; pa_Namespace := None |}]; ar_Hostnames := []; ar_Rules := []; ar_LLMRequestCosts := []; ar_HasFinalizer := true; ar_Labels := ∅;
     ar_Annotations := ∅ |}.

#[local] Instance webhook : MutatorClient :=
  {| cached_AIGatewayRoutes _ := Ok []; all_AIGatewayRoutes := Some (Ok [route]); cached_MCPRoutes _ := Ok []; all_MCPRoutes := Some (Ok []);
     get_BundleIndex _ _ := Ok (Some tt); get_GatewayAnnotations _ _ := Ok ∅; get_GatewayConfig _ _ := Fail (errors_New "no config") |}.

Definition envoy : Container :=
  {| ct_Name := "envoy"; ct_Image := "envoy:v1"; ct_ImagePullPolicy := ""; ct_Ports := []; ct_Args := []; ct_Env := []; ct_VolumeMounts := [];
     ct_SecurityContext := None; ct_ReadinessProbe := None; ct_Resources := {| rq_Limits := []; rq_Requests := [] |}; ct_RestartPolicy := None |}.
Definition pod (name : string) : Pod :=
  {| po_Namespace := "ns"; po_Name := name; po_Deleted := false; po_Labels := ∅; po_InitContainers := []; po_Containers := [envoy]; po_Volumes := [];
     po_ImagePullSecrets := [] |}.
Definition deployment : Workload :=
  {| wl_Namespace := "ns"; wl_Name := "envoy"; wl_Generation := 1; wl_ObservedGeneration := 1; wl_Replicas := 1; wl_UpdatedReplicas := 1;
     wl_TemplateAnnotations := ∅ |}.
Definition sha (_ : string) : string := "0123456789abcdef0123456789abcdef".
Definition newPod : Pod := injectInto sha (builder "") (pod "new") "gw" "ns" (input [] None).

Lemma sees : webhookSees sha "gw" "ns" [route] [] None.
Proof. by split. Qed.

Lemma pod_fresh name : fresh (pod name).
Proof. split; intros H; [inversion H|]. inversion H as [? ? Hn|? ? H']; [discriminate Hn|inversion H']. Qed.

(** The first run adds the container to a Gateway with a route; the second, with the
    pod the webhook made, patches that pod only. *)
Definition run (pods : list Pod) (deployments : list Workload) (uuid : string) : list Patch * outcome bool :=
  annotate sha (λ _, "digest") (builder "") [] None true (λ _, Ok tt) pods deployments [] uuid.
Definition sent : list Patch := Eval vm_compute in (run [pod "old"] [deployment] "u1").1.

Example first_run_rolls : length sent = 2.
Proof. reflexivity. Qed.

#[local] Existing Instances FilterConfigProps.Sample.cel FilterConfigProps.Sample.grantClient FilterConfigProps.Sample.client.

(** The configuration of the route: it is effective. *)
Definition routeConfig : Config * option MCPConfig * bool :=
  match filterConfig (Prog := unit) map_to_list map_to_list map_to_list (builder "") "v1" "u1" [route] [] [] with
  | Ok c => c
  | _ => (FilterConfigProps.Sample.config, None, false)
  end.

Lemma rollout_settles_witness :
  Forall (λ p, p = PatchPod "ns" "new" "u2") (run [newPod] [foldl (patched KindDeployment) deployment sent] "u2").1.
Proof.
  apply Forall_forall. intros p Hp.
  destruct (rollout_settles (Prog := unit) sha (λ _, "digest") (builder "") "gw" "ns" [route] [] None map_to_list map_to_list map_to_list
    (λ _, Ok tt) (λ _, Ok tt) "v1" [] "u1" "u2" routeConfig.1.1 routeConfig.1.2 true [pod "old"] [newPod]
    [deployment] [] sent) with (p := p) as (q & Hq & ->).
  - apply builder_plain. plain_flag.
  - exact sees.
  - vm_compute. discriminate.
  - right. left. constructor. reflexivity.
  - vm_compute. reflexivity.
  - vm_compute. reflexivity.
  - intros q Hq. apply list_elem_of_singleton in Hq as ->. exists (pod "new"). split; [apply pod_fresh|]. rewrite (mutatePod_spec _ _ _ _ _ _ _ _ sees). reflexivity.
  - intros _. discriminate.
  - exact Hp.
  - apply list_elem_of_singleton in Hq as ->. reflexivity.
Defined.

(** A Gateway without routes: its configuration is empty, and the pod is told of it. *)
#[local] Instance objects : GatewayObjects :=
  {| list_Pods ns := Ok (if bool_decide (ns = "ns") then [pod "p"] else []); list_Deployments _ := Ok []; list_DaemonSets _ := Ok [] |}.
#[local] Instance noRoutes : MutatorClient :=
  {| cached_AIGatewayRoutes _ := Ok []; all_AIGatewayRoutes := None; cached_MCPRoutes _ := Ok []; all_MCPRoutes := None;
     get_BundleIndex _ _ := Ok (Some tt); get_GatewayAnnotations _ _ := Ok ∅; get_GatewayConfig _ _ := Fail (errors_New "no config") |}.
#[local] Existing Instances ConfigBundle.Sample.kube ConfigBundle.Sample.kube_laws.

(** A codec that knows the empty configuration. *)
Definition marshal (ec : Config) (_ : option MCPConfig) : outcome string :=
  match ec with
  | {| cfg_Version := v; cfg_UUID := u; cfg_GlobalLLMRequestCosts := []; cfg_LLMRequestCosts := []; cfg_Backends := []; cfg_Models := [];
       cfg_ModelsByHost := m; cfg_UnscopedModels := []; cfg_FileIDEncryption := None |} =>
      if bool_decide (v = "v1") && bool_decide (u = "u") && match map_to_list m with [] => true | _ => false end then Ok ConfigBundle.Sample.payload
      else Fail (errors_New "unknown config")
  | _ => Fail (errors_New "unknown config")
  end.

Lemma marshal_roundtrip ec mcp raw : marshal ec mcp = Ok raw → ConfigBundle.Sample.unmarshalConfig raw = Ok ec.
Proof.
  destruct ec as [v u [|] [|] [|] [|] m [|] [|]]; try done. cbn. repeat case_bool_decide; try done. subst. cbn.
  destruct (map_to_list m) eqn:E; [|done]. apply map_to_list_empty_iff in E as ->. intros H. injection H as <-. reflexivity.
Qed.

Lemma index_roundtrip i raw : ConfigBundle.Sample.marshalIndex i = Ok raw → ConfigBundle.Sample.unmarshalIndex raw = Ok i.
Proof. unfold ConfigBundle.Sample.marshalIndex. case_decide; [|done]. intros [= <-]. by subst. Qed.

Definition start : cluster (K := ConfigBundle.Sample.store) := {| cl_annotations := ∅; cl_secrets _ := ∅; cl_patches := [] |}.
Definition reconciled : cluster (K := ConfigBundle.Sample.store) * outcome bool :=
  Reconcile (Prog := unit) map_to_list map_to_list map_to_list ConfigBundle.Sample.hash ConfigBundle.Sample.marshalIndex marshal (λ _, "digest")
    (λ _, Ok "spec") (λ _, Ok tt) (λ _, Ok tt) id (builder "") "v1" "system" false "gw" "ns" "u" start.

Lemma reconciled_ok : reconciled.2 = Ok false ∧ cl_secrets reconciled.1 "ns" = ConfigBundle.Sample.written.1.
Proof. split; vm_compute; reflexivity. Qed.

Lemma published_before_rolled_witness :
  ∃ ec t, loadConfig_check ConfigBundle.Sample.hash ConfigBundle.Sample.unmarshalConfig ConfigBundle.Sample.unmarshalIndex
    ConfigBundle.Sample.watcher ConfigBundle.Sample.fs = Ok (Some (ec, t)) ∧ cfg_UUID ec = "u".
Proof.
  destruct (published_before_rolled (Prog := unit) map_to_list map_to_list map_to_list ConfigBundle.Sample.hash (λ _, eq_refl)
    ConfigBundle.Sample.marshalIndex ConfigBundle.Sample.unmarshalIndex marshal ConfigBundle.Sample.unmarshalConfig index_roundtrip marshal_roundtrip
    (λ _, "digest") (λ _, Ok "spec") (λ _, Ok tt) (λ _, Ok tt) id (builder "") "v1" "system" false "gw" "ns" "u" start reconciled.1 reconciled.2
    ∅ [] [] "ns" {| fo_pods := [pod "p"]; fo_deployments := []; fo_daemonSets := []; fo_namespaces := ["ns"] |}
    ConfigBundle.Sample.fs ConfigBundle.Sample.watcher 5%Z) as (g & ec & m & eff & t & Hg & Hc & Ht & _).
  - vm_compute. reflexivity.
  - apply surjective_pairing.
  - left. by rewrite (proj1 reconciled_ok).
  - rewrite (proj2 reconciled_ok). exact ConfigBundle.Sample.sample_mounts.
  - reflexivity.
  - intros p. reflexivity.
  - reflexivity.
  - reflexivity.
  - exists ec, t. split; [exact Ht|]. vm_compute in Hg. injection Hg as <-. vm_compute in Hc. injection Hc as <- _ _. reflexivity.
Defined.
End Sample.
