(* ===== verification/Files.v ===== *)
(** * The Files endpoints

    Models [internal/extproc/files_processor.go], the translators of
    [internal/translator/files.go] and [openai_openai_files.go], and
    [FileNewParams.UnmarshalMultipart] of [internal/apischema/openai].  A request
    has one router instance of the processor and one upstream instance per
    attempt; the upstream instance only holds a reference to the router instance,
    so its operations are on the router's record and that reference.  The
    multipart package is a class on parts, [gjson], [sjson] and the JSON form of a
    list page are a class; the translators are a class with the OpenAI instance.
    Logging is left out. *)

From Stdlib Require Import Ascii ZArith Lia.
From stdpp Require Import base gmap strings list.
From S2P Require Import Prelude GoStrings GoUrl InternalApi Crypto IdCodec GoCodec TokenUsage FilterApi HeaderMutator EnvoyTypes BackendAuth Costs ExtProc.

Definition filesPathMarker : string := "/v1/files".
Definition uploadModelFormField : string := "model".

Inductive filesOperation := filesOpUpload | filesOpList | filesOpRetrieve | filesOpContent | filesOpDelete.

#[export] Instance filesOperation_eq : EqDecision filesOperation.
Proof. solve_decision. Defined.

(** [translator.FilesRequest]. *)
Record FilesRequest := {
  fr_NativeID : string;
  fr_Path : string;
  fr_Method : string;
  fr_ContentType : string;
  fr_Model : string;
  fr_Query : string;
}.

Record backendKey := { bk_namespace : string; bk_name : string }.

#[export] Instance backendKey_eq : EqDecision backendKey.
Proof. solve_decision. Defined.

(** ** Paths and queries *)

Definition splitQuery (path : string) : string * string :=
  match Index path "?" with
  | Some i => (str_take i path, str_drop i path)
  | None => (path, "")
  end.

Definition queryParam (path name : string) : string :=
  match ParseQuery (TrimPrefix (splitQuery path).2 "?") with
  | Ok values => values_Get values name
  | _ => ""
  end.

Definition setQueryParam (path name value : string) : string :=
  let '(pathOnly, rawQuery) := splitQuery path in
  let encode (values : url_Values) :=
    let encoded := Encode_Values values in
    if bool_decide (encoded ≠ "") then pathOnly +:+ "?" +:+ encoded else pathOnly in
  match ParseQuery (TrimPrefix rawQuery "?") with
  | Ok values =>
      if bool_decide (value = "") then
        match values !! name with
        | None => path
        | Some _ => encode (delete name values)
        end
      else encode (<[name := [value]]> values)
  | _ => path
  end.

Definition unsupportedMethod (method rawPath : string) : error :=
  errors_New ("unsupported method " +:+ method +:+ " for " +:+ rawPath).

Definition classifyFilesRequest (method rawPath : string) : outcome (filesOperation * string) :=
  let pathOnly := (splitQuery rawPath).1 in
  match Index pathOnly filesPathMarker with
  | None => Fail (errors_New ("not a files path: " +:+ rawPath))
  | Some idx =>
      let suffix := str_drop (idx + String.length filesPathMarker) pathOnly in
      let unsupported := Fail (unsupportedMethod method rawPath) in
      if bool_decide (suffix = "") || bool_decide (suffix = "/") then
        if bool_decide (method = "POST") then Ok (filesOpUpload, "")
        else if bool_decide (method = "GET") then Ok (filesOpList, "")
        else unsupported
      else
        match Split (TrimPrefix suffix "/") "/" with
        | [id] =>
            if bool_decide (id = "") then unsupported
            else if bool_decide (method = "GET") then Ok (filesOpRetrieve, id)
            else if bool_decide (method = "DELETE") then Ok (filesOpDelete, id)
            else unsupported
        | [id; c] =>
            if bool_decide (id = "") || bool_decide (c ≠ "content") then unsupported
            else if bool_decide (method = "GET") then Ok (filesOpContent, id)
            else unsupported
        | _ => unsupported
        end
  end.

(** [path] has been classified, so the marker is found. *)
Definition rewrittenPath (path : string) (op : filesOperation) (nativeID : string) : string :=
  let '(pathOnly, query) := splitQuery path in
  let idx := default 0 (Index pathOnly filesPathMarker) in
  let base := str_take (idx + String.length filesPathMarker) pathOnly in
  let suffix := "/" +:+ nativeID in
  let suffix := if bool_decide (op = filesOpContent) then suffix +:+ "/content" else suffix in
  base +:+ suffix +:+ query.

(** ** The rule of a backend *)

Definition routeRuleKey (composite : string) : option string :=
  match Index composite "/route/" with
  | None => None
  | Some ri =>
      let rest := str_drop (ri + 1) composite in
      (λ ref, str_take ref rest) <$> LastIndex rest "/ref/"
  end.

(** ** Multipart bodies *)

(** A part of a form: its name, its header and its content. *)
Record part := { pt_FormName : string; pt_Header : string; pt_Content : string }.

(** [mime/multipart]: all parts of a body, and the body of parts. *)
Class Multipart := {
  readParts : string → string → outcome (list part);
  writeParts : string → list part → outcome string;
}.

(** The fields of [openai.FileNewParams]; what a reader of the file would get is
    not used. *)
Record FileNewParams := {
  fn_File : option string;
  fn_Purpose : string;
  fn_Anchor : string;
  fn_Seconds : Z;
  fn_ExtraBody : gmap string string;
}.

Definition emptyFileNewParams : FileNewParams :=
  {| fn_File := None; fn_Purpose := ""; fn_Anchor := ""; fn_Seconds := 0; fn_ExtraBody := ∅ |}.

Definition fileNewParamsMultipartFieldMaxBytes : N := 2 ^ 20.

Definition readMultipartFieldWithLimit (p : part) (fieldName : string) (maxBytes : N) : outcome string :=
  if (maxBytes <? N.of_nat (String.length (pt_Content p)))%N
  then Fail (errors_New ("multipart field " +:+ Quote fieldName +:+ " exceeds maximum allowed size"))
  else Ok (pt_Content p).

Definition unmarshalPart (f : FileNewParams) (p : part) : outcome FileNewParams :=
  let field := readMultipartFieldWithLimit p (pt_FormName p) fileNewParamsMultipartFieldMaxBytes in
  let name := pt_FormName p in
  if bool_decide (name = "file") then
    Ok {| fn_File := Some (pt_Content p); fn_Purpose := fn_Purpose f; fn_Anchor := fn_Anchor f; fn_Seconds := fn_Seconds f;
          fn_ExtraBody := fn_ExtraBody f |}
  else if bool_decide (name = "purpose") then
    let! purpose := field in
    Ok {| fn_File := fn_File f; fn_Purpose := purpose; fn_Anchor := fn_Anchor f; fn_Seconds := fn_Seconds f;
          fn_ExtraBody := fn_ExtraBody f |}
  else if bool_decide (name = "expires_after.anchor") then
    let! anchor := field in
    Ok {| fn_File := fn_File f; fn_Purpose := fn_Purpose f; fn_Anchor := anchor; fn_Seconds := fn_Seconds f;
          fn_ExtraBody := fn_ExtraBody f |}
  else if bool_decide (name = "expires_after.seconds") then
    let! seconds := field in
    match ParseInt64 seconds with
    | Some z => Ok {| fn_File := fn_File f; fn_Purpose := fn_Purpose f; fn_Anchor := fn_Anchor f; fn_Seconds := z;
                      fn_ExtraBody := fn_ExtraBody f |}
    | None => Fail (errors_New "strconv.ParseInt")
    end
  else
    let! extra := field in
    Ok {| fn_File := fn_File f; fn_Purpose := fn_Purpose f; fn_Anchor := fn_Anchor f; fn_Seconds := fn_Seconds f;
          fn_ExtraBody := <[name := extra]> (fn_ExtraBody f) |}.

Section Multiparts.
Context `{MP : !Multipart}.

Definition UnmarshalMultipart (f : FileNewParams) (data boundary : string) : outcome FileNewParams :=
  let! parts := readParts data boundary in ofold unmarshalPart f parts.

Definition extraBodyModel (params : FileNewParams) : string := default "" (fn_ExtraBody params !! uploadModelFormField).

Definition stripMultipartField (body boundary field : string) : outcome string :=
  let! parts := readParts body boundary in
  writeParts boundary (filter (λ p, pt_FormName p ≠ field) parts).

(** [mime.ParseMediaType] is an argument: the media type and its parameters. *)
Definition multipartBoundary (parseMediaType : string → outcome (string * gmap string string)) (contentType : string) : string :=
  if bool_decide (contentType = "") then ""
  else
    match parseMediaType contentType with
    | Ok (mediaType, params) => if HasPrefix mediaType "multipart/" then mget params "boundary" else ""
    | _ => ""
    end.
End Multiparts.

(** ** The processor *)

(** A page of [GET /v1/files]: the objects by id, the cursors, the rest. *)
Record FileObject := { fo_ID : string; fo_rest : string }.
Record FileListResponse := { fl_Data : option (list FileObject); fl_FirstID : string; fl_LastID : string; fl_rest : string }.

Class FilesJson := {
  gjson_id : string → string;
  sjson_set_id : string → string → outcome string;
  unmarshalPage : string → outcome FileListResponse;
  marshalPage : FileListResponse → outcome string;
}.

(** [NewFile*Translator] of [internal/translator/files.go]. *)
Class FilesTranslators (T : Type) := {
  NewFileUploadTranslator : VersionedAPISchema → outcome T;
  NewFileListTranslator : VersionedAPISchema → outcome T;
  NewFileRetrieveTranslator : VersionedAPISchema → outcome T;
  NewFileContentTranslator : VersionedAPISchema → outcome T;
  NewFileDeleteTranslator : VersionedAPISchema → outcome T;
}.

Section Processor.
Context `{CR : !Crypto} {T H Prog : Type} `{TR : !Translator FilesRequest T unit} `{FT : !FilesTranslators T}.
Context `{MP : !Multipart} `{FJ : !FilesJson} (parseMediaType : string → outcome (string * gmap string string)).

Record filesProcessor := {
  fp_codec : codec;
  fp_config : option (RuntimeConfig H Prog codec);
  fp_requestHeaders : gmap string string;
  fp_op : filesOperation;
  fp_backend : option backendKey;
  fp_decodedBackend : option backendKey;
  fp_routingModel : string;
  fp_translator : option T;
  fp_responseHeaders : option (gmap string string);
  fp_request : FilesRequest;
  fp_requestBody : option string;
}.

Definition emptyFilesRequest : FilesRequest :=
  {| fr_NativeID := ""; fr_Path := ""; fr_Method := ""; fr_ContentType := ""; fr_Model := ""; fr_Query := "" |}.

Definition NewFilesProcessor (flagCodec : codec) (config : option (RuntimeConfig H Prog codec)) (requestHeaders : gmap string string) :
    filesProcessor :=
  {| fp_codec := default flagCodec (config ≫= rt_FileIDCodec); fp_config := config; fp_requestHeaders := requestHeaders;
     fp_op := filesOpUpload; fp_backend := None; fp_decodedBackend := None; fp_routingModel := ""; fp_translator := None;
     fp_responseHeaders := None; fp_request := emptyFilesRequest; fp_requestBody := None |}.

Definition set_op (op : filesOperation) (req : FilesRequest) (p : filesProcessor) : filesProcessor :=
  {| fp_codec := fp_codec p; fp_config := fp_config p; fp_requestHeaders := fp_requestHeaders p; fp_op := op;
     fp_backend := fp_backend p; fp_decodedBackend := fp_decodedBackend p; fp_routingModel := fp_routingModel p;
     fp_translator := fp_translator p; fp_responseHeaders := fp_responseHeaders p; fp_request := req;
     fp_requestBody := fp_requestBody p |}.
Definition set_request (req : FilesRequest) (p : filesProcessor) : filesProcessor := set_op (fp_op p) req p.
Definition set_decoded (d : backendKey) (p : filesProcessor) : filesProcessor :=
  {| fp_codec := fp_codec p; fp_config := fp_config p; fp_requestHeaders := fp_requestHeaders p; fp_op := fp_op p;
     fp_backend := fp_backend p; fp_decodedBackend := Some d; fp_routingModel := fp_routingModel p;
     fp_translator := fp_translator p; fp_responseHeaders := fp_responseHeaders p; fp_request := fp_request p;
     fp_requestBody := fp_requestBody p |}.
Definition set_model (model : string) (hs : gmap string string) (p : filesProcessor) : filesProcessor :=
  {| fp_codec := fp_codec p; fp_config := fp_config p; fp_requestHeaders := hs; fp_op := fp_op p;
     fp_backend := fp_backend p; fp_decodedBackend := fp_decodedBackend p; fp_routingModel := model;
     fp_translator := fp_translator p; fp_responseHeaders := fp_responseHeaders p; fp_request := fp_request p;
     fp_requestBody := fp_requestBody p |}.
Definition set_body (body : option string) (p : filesProcessor) : filesProcessor :=
  {| fp_codec := fp_codec p; fp_config := fp_config p; fp_requestHeaders := fp_requestHeaders p; fp_op := fp_op p;
     fp_backend := fp_backend p; fp_decodedBackend := fp_decodedBackend p; fp_routingModel := fp_routingModel p;
     fp_translator := fp_translator p; fp_responseHeaders := fp_responseHeaders p; fp_request := fp_request p;
     fp_requestBody := body |}.
Definition set_backend (k : backendKey) (p : filesProcessor) : filesProcessor :=
  {| fp_codec := fp_codec p; fp_config := fp_config p; fp_requestHeaders := fp_requestHeaders p; fp_op := fp_op p;
     fp_backend := Some k; fp_decodedBackend := fp_decodedBackend p; fp_routingModel := fp_routingModel p;
     fp_translator := fp_translator p; fp_responseHeaders := fp_responseHeaders p; fp_request := fp_request p;
     fp_requestBody := fp_requestBody p |}.
Definition set_translator (t : T) (p : filesProcessor) : filesProcessor :=
  {| fp_codec := fp_codec p; fp_config := fp_config p; fp_requestHeaders := fp_requestHeaders p; fp_op := fp_op p;
     fp_backend := fp_backend p; fp_decodedBackend := fp_decodedBackend p; fp_routingModel := fp_routingModel p;
     fp_translator := Some t; fp_responseHeaders := fp_responseHeaders p; fp_request := fp_request p;
     fp_requestBody := fp_requestBody p |}.
Definition set_responseHeaders (hs : gmap string string) (p : filesProcessor) : filesProcessor :=
  {| fp_codec := fp_codec p; fp_config := fp_config p; fp_requestHeaders := fp_requestHeaders p; fp_op := fp_op p;
     fp_backend := fp_backend p; fp_decodedBackend := fp_decodedBackend p; fp_routingModel := fp_routingModel p;
     fp_translator := fp_translator p; fp_responseHeaders := Some hs; fp_request := fp_request p;
     fp_requestBody := fp_requestBody p |}.

(** *** The request *)

Definition requestPath (p : filesProcessor) : string := mget (fp_requestHeaders p) ":path".

Definition newRequestHeaderMutation (p : filesProcessor) : HeaderMutation :=
  setHeader emptyHeaderMutation OriginalPathHeader (requestPath p).

Definition routeByModel (hm : HeaderMutation) (model : string) (p : filesProcessor) : filesProcessor * HeaderMutation :=
  (set_model model (<[ModelNameHeaderKeyDefault := model]> (fp_requestHeaders p)) p,
   setHeader hm ModelNameHeaderKeyDefault model).

Definition requestHeadersResponse (hm : HeaderMutation) (clearRouteCache : bool) : ProcessingResponse :=
  plainResponse (RespRequestHeaders (Some (Some
    {| cm_HeaderMutation := Some hm; cm_BodyMutation := None; cm_Status := CONTINUE; cm_ClearRouteCache := clearRouteCache |}))).

(** A gateway id of a file; everything else is refused alike. *)
Definition decodeFileID (p : filesProcessor) (id : string) : option BackendID :=
  match Decode (fp_codec p) id with
  | Ok decoded => if bool_decide (bid_Kind decoded = KindFile) then Some decoded else None
  | _ => None
  end.

Definition ownerOf (b : BackendID) : backendKey := {| bk_namespace := bid_Namespace b; bk_name := bid_Name b |}.

Definition with_path (req : FilesRequest) (path query nativeID : string) : FilesRequest :=
  {| fr_NativeID := nativeID; fr_Path := path; fr_Method := fr_Method req; fr_ContentType := fr_ContentType req;
     fr_Model := fr_Model req; fr_Query := query |}.

(** The routing of a list request, once the cursor is decoded. *)
Definition routeList (p : filesProcessor) (model upstreamPath : string) : filesProcessor * ProcessingResponse :=
  if bool_decide (model = "") then
    (p, createUserFacingErrorResponse 400 "invalid_request_error" "the 'model' query parameter is required")
  else
    let '(p, hm) := routeByModel (newRequestHeaderMutation p) model p in
    let hm := setHeader hm ":path" upstreamPath in
    (set_request (with_path (fp_request p) upstreamPath (splitQuery upstreamPath).2 (fr_NativeID (fp_request p))) p,
     requestHeadersResponse hm true).

Definition handleListRequestHeaders (p : filesProcessor) : filesProcessor * ProcessingResponse :=
  let path := requestPath p in
  let model := queryParam path "model" in
  let upstreamPath := setQueryParam path "model" "" in
  let after := queryParam path "after" in
  if bool_decide (after = "") then routeList p model upstreamPath
  else
    match decodeFileID p after with
    | None => (p, createUserFacingErrorResponse 400 "invalid_request_error" "invalid after cursor")
    | Some decoded =>
        routeList (set_decoded (ownerOf decoded) p) (if bool_decide (model = "") then bid_Model decoded else model)
          (setQueryParam upstreamPath "after" (bid_NativeID decoded))
    end.

Definition handleIDBearingRequestHeaders (p : filesProcessor) (op : filesOperation) (gatewayID : string) :
    filesProcessor * ProcessingResponse :=
  match decodeFileID p gatewayID with
  | None => (p, createUserFacingErrorResponse 404 "NotFoundError" ("No such File object: " +:+ gatewayID))
  | Some decoded =>
      let nativePath := rewrittenPath (requestPath p) op (bid_NativeID decoded) in
      let hm := setHeader (newRequestHeaderMutation p) ":path" nativePath in
      let p := set_model (bid_Model decoded) (fp_requestHeaders p) (set_decoded (ownerOf decoded) p) in
      let p := set_request (with_path (fp_request p) nativePath (fr_Query (fp_request p)) (bid_NativeID decoded)) p in
      let '(p, hm) := if bool_decide (bid_Model decoded ≠ "") then routeByModel hm (bid_Model decoded) p else (p, hm) in
      (p, requestHeadersResponse hm true)
  end.

Definition files_ProcessRequestHeaders (p : filesProcessor) : filesProcessor * ProcessingResponse :=
  let method := mget (fp_requestHeaders p) ":method" in
  let path := requestPath p in
  match classifyFilesRequest method path with
  | Ok (op, id) =>
      let p := set_op op {| fr_NativeID := ""; fr_Path := path; fr_Method := method;
                            fr_ContentType := mget (fp_requestHeaders p) "content-type"; fr_Model := ""; fr_Query := "" |} p in
      match op with
      | filesOpUpload => (p, requestHeadersResponse (newRequestHeaderMutation p) false)
      | filesOpList => handleListRequestHeaders p
      | _ => handleIDBearingRequestHeaders p op id
      end
  | _ => (p, createUserFacingErrorResponse 404 "NotFoundError" "unsupported Files API request")
  end.

(** The routing model of an upload; a body that cannot be read has none. *)
Definition uploadModel (p : filesProcessor) (body : string) : string :=
  let boundary := multipartBoundary parseMediaType (mget (fp_requestHeaders p) "content-type") in
  if bool_decide (boundary = "") then ""
  else
    match UnmarshalMultipart emptyFileNewParams body boundary with
    | Ok params => extraBodyModel params
    | _ => ""
    end.

Definition with_model (req : FilesRequest) (model : string) : FilesRequest :=
  {| fr_NativeID := fr_NativeID req; fr_Path := fr_Path req; fr_Method := fr_Method req; fr_ContentType := fr_ContentType req;
     fr_Model := model; fr_Query := fr_Query req |}.

Definition requestBodyResponse (hm : HeaderMutation) (bm : option BodyMutation) : ProcessingResponse :=
  plainResponse (RespRequestBody (Some (Some
    {| cm_HeaderMutation := Some hm; cm_BodyMutation := bm; cm_Status := CONTINUE; cm_ClearRouteCache := true |}))).

Definition files_ProcessRequestBody (p : filesProcessor) (rawBody : HttpBody) : filesProcessor * ProcessingResponse :=
  if bool_decide (fp_op p ≠ filesOpUpload) then (p, plainResponse (RespRequestBody None))
  else
    let body := default "" (hb_Body rawBody) in
    let boundary := multipartBoundary parseMediaType (mget (fp_requestHeaders p) "content-type") in
    let model := uploadModel p body in
    if bool_decide (model = "") then
      (p, createUserFacingErrorResponse 400 "invalid_request_error" "the 'model' field is required")
    else
      let '(p, hm) := routeByModel (newRequestHeaderMutation p) model p in
      let p := set_request (with_model (fp_request p) model) p in
      match stripMultipartField body boundary uploadModelFormField with
      | Ok stripped =>
          (set_body (Some stripped) p,
           requestBodyResponse (setHeader hm "content-length" (itoa (String.length stripped))) (Some {| bmut_Body := Some stripped |}))
      | _ => (set_body (hb_Body rawBody) p, requestBodyResponse hm None)
      end.

(** *** The backend *)

Definition routeRuleBackendCount (config : option (RuntimeConfig H Prog codec)) (composite : string) : nat :=
  match routeRuleKey composite, config with
  | Some key, Some config =>
      length (filter (λ other, routeRuleKey other = Some key) (map_to_list (rt_Backends config)).*1)
  | _, _ => 0
  end.

Definition resolveTranslator (op : filesOperation) (schema : VersionedAPISchema) : outcome T :=
  match op with
  | filesOpUpload => NewFileUploadTranslator schema
  | filesOpList => NewFileListTranslator schema
  | filesOpRetrieve => NewFileRetrieveTranslator schema
  | filesOpContent => NewFileContentTranslator schema
  | filesOpDelete => NewFileDeleteTranslator schema
  end.

(** On the router's record; the upstream instance keeps the reference when it
    succeeds. *)
Definition files_SetBackend (rp : filesProcessor) (backend : RuntimeBackend H) : filesProcessor * outcome unit :=
  let name := be_Name (rb_Backend backend) in
  let n := routeRuleBackendCount (fp_config rp) name in
  if 1 <? n then
    (rp, Fail (errors_New ("files API supports exactly one backend per route rule, but the rule serving " +:+ Quote name +:+
                           " has " +:+ itoa n +:+ " backends")))
  else
    let '(ns, nm, ok) := NamespaceAndNameFromBackendName name in
    if negb ok then (rp, Fail (errors_New ("could not parse backend identity " +:+ Quote name +:+ " for files request")))
    else
      let selected := {| bk_namespace := ns; bk_name := nm |} in
      let mismatch := fp_decodedBackend rp ≫= λ d, if bool_decide (d ≠ selected) then Some d else None in
      match mismatch with
      | Some d =>
          (rp, Fail (errors_New ("file id belongs to backend " +:+ bk_namespace d +:+ "/" +:+ bk_name d +:+
                                 ", but the request was routed to " +:+ ns +:+ "/" +:+ nm)))
      | None =>
          let rp := set_backend selected rp in
          let schema := be_Schema (rb_Backend backend) in
          match resolveTranslator (fp_op rp) schema with
          | Ok t => (set_translator t rp, Ok tt)
          | Fail err => (rp, Fail (Errorf_w ("files API not supported for schema " +:+ sc_Name schema +:+ ": ") err))
          | Panic m => (rp, Panic m)
          end
      end.

(** [rp] is [None] when [SetBackend] did not succeed. *)
Definition translateUpstreamRequest (rp : option filesProcessor) : option filesProcessor * outcome ProcessingResponse :=
  match rp with
  | Some p =>
      match fp_translator p with
      | None => (rp, Ok passThroughRequestHeaders)
      | Some t =>
          match tr_RequestBody t (fp_requestBody p) (Some (fp_request p)) false with
          | (t, Fail err) =>
              (Some (set_translator t p),
               match GetUserFacingError err with
               | Some e => Ok (createUserFacingErrorResponse 422 "UnprocessableEntity" (err_msg e))
               | None => Fail (Errorf_w "failed to transform files request: " err)
               end)
          | (t, Panic m) => (Some (set_translator t p), Panic m)
          | (t, Ok (newHeaders, newBody)) =>
              let '(hm, bm) := mutationsFromTranslationResult newHeaders newBody in
              (Some (set_translator t p),
               Ok match newBody with
                  | None => plainResponse (RespRequestHeaders (Some (Some
                      {| cm_HeaderMutation := Some hm; cm_BodyMutation := None; cm_Status := CONTINUE; cm_ClearRouteCache := false |})))
                  | Some b =>
                      {| pr_Response := RespRequestHeaders (Some (Some
                           {| cm_HeaderMutation := Some (setHeader hm "content-length" (itoa (String.length b)));
                              cm_BodyMutation := bm; cm_Status := CONTINUE_AND_REPLACE; cm_ClearRouteCache := false |}));
                         pr_DynamicMetadata := Some (buildContentLengthDynamicMetadataOnRequest (String.length b));
                         pr_StreamedMode := false |}
                  end)
          end
      end
  | None => (rp, Ok passThroughRequestHeaders)
  end.

(** *** The response *)

Definition files_ProcessResponseHeaders (p : filesProcessor) (headers : HeaderMap) : filesProcessor * outcome ProcessingResponse :=
  let hs := foldl (λ hs '(key, _, raw), <[key := raw]> hs) ∅ headers in
  let p := set_responseHeaders hs p in
  match fp_translator p with
  | None => (p, Ok passThroughResponseHeaders)
  | Some t =>
      let '(t, r) := tr_ResponseHeaders t hs in
      (set_translator t p,
       let! newHeaders := owrap "failed to transform files response headers: " r in
       match newHeaders with
       | [] => Ok passThroughResponseHeaders
       | _ => Ok (plainResponse (RespResponseHeaders (Some (Some
                {| cm_HeaderMutation := Some (mutationsFromTranslationResult newHeaders None).1; cm_BodyMutation := None;
                   cm_Status := CONTINUE; cm_ClearRouteCache := false |}))))
       end)
  end.

Definition filesReEncodeError (msg : string) : ProcessingResponse := createUserFacingErrorResponse 502 "upstream_error" msg.

Definition bodyMutationResponse (newBody : string) : ProcessingResponse :=
  plainResponse (commonBody (Some (setHeader emptyHeaderMutation "content-length" (itoa (String.length newBody))))
                            (Some {| bmut_Body := Some newBody |})).

Definition translatedBodyResponse (newHeaders : list Header) (newBody : option string) : ProcessingResponse :=
  match newHeaders, newBody with
  | [], None => passThroughResponseBody
  | _, _ =>
      let '(hm, bm) := mutationsFromTranslationResult newHeaders newBody in
      let hm := match newBody with Some b => setHeader hm "content-length" (itoa (String.length b)) | None => hm end in
      plainResponse (commonBody (Some hm) bm)
  end.

Definition isSuccessResponse (p : filesProcessor) : bool :=
  match fp_responseHeaders p ≫= lookup ":status" with
  | None => true
  | Some status =>
      match ParseInt64 status with
      | None => true
      | Some code => isGoodStatusCode code
      end
  end.

Definition translateResponseError (p : filesProcessor) (raw : string) : filesProcessor * outcome ProcessingResponse :=
  match fp_translator p with
  | None => (p, Ok passThroughResponseBody)
  | Some t =>
      let '(t, r) := tr_ResponseError t (default ∅ (fp_responseHeaders p)) (bytes_NewReader raw) in
      (set_translator t p,
       let! nb := owrap "failed to transform files response error: " r in Ok (translatedBodyResponse nb.1 nb.2))
  end.

Definition translateContentResponse (p : filesProcessor) (raw : string) : filesProcessor * outcome ProcessingResponse :=
  match fp_translator p, fp_responseHeaders p with
  | Some t, Some hs =>
      let '(t, (newHeaders, newBody, _, _, err)) := tr_ResponseBody t hs (bytes_NewReader raw) true None in
      (set_translator t p,
       match err with
       | Some _ => Ok (filesReEncodeError "failed to process upstream files content response")
       | None => Ok (translatedBodyResponse newHeaders newBody)
       end)
  | _, _ => (p, Ok passThroughResponseBody)
  end.

(** The body to re-encode with its owner, or the error response. *)
Definition translatedResponseBody (p : filesProcessor) (raw kind : string) :
    filesProcessor * outcome (backendKey * string + ProcessingResponse) :=
  match fp_backend p with
  | None =>
      (p, Ok (inr (filesReEncodeError
        (if bool_decide (fp_op p = filesOpUpload) && bool_decide (fp_routingModel p ≠ "")
         then "no backend route found for model " +:+ Quote (fp_routingModel p)
         else "backend unknown for upstream " +:+ kind))))
  | Some key =>
      if bool_decide (raw = "") then (p, Ok (inr (filesReEncodeError ("empty body in upstream " +:+ kind))))
      else
        match fp_responseHeaders p with
        | None => (p, Ok (inl (key, raw)))
        | Some hs =>
            match fp_translator p with
            | None => (p, Panic "nil pointer dereference")
            | Some t =>
                let '(t, (_, mutatedBody, _, _, err)) := tr_ResponseBody t hs (bytes_NewReader raw) true None in
                (set_translator t p,
                 match err with
                 | Some _ => Ok (inr (filesReEncodeError ("failed to process upstream " +:+ kind)))
                 | None => Ok (inl (key, default raw mutatedBody))
                 end)
            end
        end
  end.

Definition encodeFileID (p : filesProcessor) (owner : backendKey) (nativeID : string) : outcome string :=
  Encode (fp_codec p)
    {| bid_Namespace := bk_namespace owner; bid_Name := bk_name owner; bid_Kind := KindFile; bid_Model := fp_routingModel p;
       bid_NativeID := nativeID |}.

Definition reEncodeResponse (p : filesProcessor) (raw : string) : filesProcessor * outcome ProcessingResponse :=
  let '(p, r) := translatedResponseBody p raw "files response" in
  (p,
   let! w := r in
   match w with
   | inr errResp => Ok errResp
   | inl (owner, workingBody) =>
       let nativeID := gjson_id workingBody in
       if bool_decide (nativeID = "") then Ok (filesReEncodeError "missing id in upstream files response")
       else
         match encodeFileID p owner nativeID with
         | Ok gw =>
             match sjson_set_id workingBody gw with
             | Ok newBody => Ok (bodyMutationResponse newBody)
             | Fail _ => Ok (filesReEncodeError "failed to encode file id in upstream files response")
             | Panic m => Panic m
             end
         | Fail _ => Ok (filesReEncodeError "failed to encode file id in upstream files response")
         | Panic m => Panic m
         end
   end).

(** An id of a page: an empty one stays. *)
Definition encodePageID (p : filesProcessor) (owner : backendKey) (id : string) : outcome string :=
  if bool_decide (id = "") then Ok "" else encodeFileID p owner id.

Definition encodePage (p : filesProcessor) (owner : backendKey) (page : FileListResponse) (data : list FileObject) :
    outcome FileListResponse :=
  let! data := ofold (λ acc o, let! id := encodePageID p owner (fo_ID o) in Ok (acc ++ [{| fo_ID := id; fo_rest := fo_rest o |}])) [] data in
  let! first := encodePageID p owner (fl_FirstID page) in
  let! last := encodePageID p owner (fl_LastID page) in
  Ok {| fl_Data := Some data; fl_FirstID := first; fl_LastID := last; fl_rest := fl_rest page |}.

Definition reEncodeListResponse (p : filesProcessor) (raw : string) : filesProcessor * outcome ProcessingResponse :=
  let '(p, r) := translatedResponseBody p raw "files list response" in
  (p,
   let! w := r in
   match w with
   | inr errResp => Ok errResp
   | inl (owner, workingBody) =>
       match unmarshalPage workingBody with
       | Ok page =>
           match fl_Data page with
           | None => Ok (filesReEncodeError "invalid or non-list body in upstream files list response")
           | Some data =>
               match encodePage p owner page data with
               | Ok page =>
                   match marshalPage page with
                   | Ok newBody => Ok (bodyMutationResponse newBody)
                   | Fail _ => Ok (filesReEncodeError "failed to encode upstream files list response")
                   | Panic m => Panic m
                   end
               | Fail _ => Ok (filesReEncodeError "failed to encode file id in upstream files list response")
               | Panic m => Panic m
               end
           end
       | Fail _ => Ok (filesReEncodeError "invalid or non-list body in upstream files list response")
       | Panic m => Panic m
       end
   end).

Definition files_ProcessResponseBody (p : filesProcessor) (body : HttpBody) : filesProcessor * outcome ProcessingResponse :=
  let raw := default "" (hb_Body body) in
  if negb (isSuccessResponse p) then translateResponseError p raw
  else
    match fp_op p with
    | filesOpContent => translateContentResponse p raw
    | filesOpList => reEncodeListResponse p raw
    | _ => reEncodeResponse p raw
    end.
End Processor.
Arguments filesProcessor {CR} T H Prog.

(** ** The OpenAI translators

    One type per operation, all of which pass everything through. *)

Inductive openAIFileTranslator :=
| openAIFileUploadTranslator
| openAIFileRetrieveTranslator
| openAIFileContentTranslator
| openAIFileDeleteTranslator
| openAIFileListTranslator.

Definition errUnsupportedFilesSchema (schema : VersionedAPISchema) : error :=
  errors_New ("unsupported API schema for files: backend=" +:+ sc_Name schema).

(** The constructors differ in the type only. *)
Definition forOpenAI (t : openAIFileTranslator) (schema : VersionedAPISchema) : outcome openAIFileTranslator :=
  if bool_decide (sc_Name schema = APISchemaOpenAI) then Ok t else Fail (errUnsupportedFilesSchema schema).

#[export] Instance openAIFiles : FilesTranslators openAIFileTranslator := {
  NewFileUploadTranslator := forOpenAI openAIFileUploadTranslator;
  NewFileListTranslator := forOpenAI openAIFileListTranslator;
  NewFileRetrieveTranslator := forOpenAI openAIFileRetrieveTranslator;
  NewFileContentTranslator := forOpenAI openAIFileContentTranslator;
  NewFileDeleteTranslator := forOpenAI openAIFileDeleteTranslator;
}.

#[export] Instance openAIFileTranslation : Translator FilesRequest openAIFileTranslator unit := {
  tr_RequestBody t _ _ _ := (t, Ok ([], None));
  tr_ResponseHeaders t _ := (t, Ok []);
  tr_ResponseBody t _ _ _ _ := (t, ([], None, zeroUsage, "", None));
  tr_ResponseError t _ _ := (t, Ok ([], None));
  tr_SetContentType t _ := t;
  tr_SetRequestHeaders t _ := t;
  tr_SetHeaderValueFilter t _ _ _ := t;
  tr_SetRedactionConfig t _ _ := t;
}.
