(* ===== verification/FilesProps.v ===== *)
(** * Properties of the Files endpoints

    Which ids a client sees, and where a request on such an id goes: the
    definitions are in [Files]. *)

From Stdlib Require Import Ascii ZArith Lia.
From stdpp Require Import base gmap strings list.
From S2P Require Import Prelude GoStrings GoUrl InternalApi Crypto IdCodec GoCodec TokenUsage FilterApi HeaderMutator EnvoyTypes BackendAuth Costs ExtProc Files.

(** ** Paths *)

Definition is_query (q : string) : Prop := q = "" ∨ ∃ q', q = String "?" q'.

Lemma splitQuery_app path q : Contains path "?" = false → is_query q → splitQuery (path +:+ q) = (path, q).
Proof.
  intros Hp [->|[q' ->]]; unfold splitQuery.
  - by rewrite sapp_nil_r, Index_fresh.
  - change (String "?" q') with (String "?" "" +:+ q'). rewrite Index_app_fresh by done.
    by rewrite str_take_app, str_drop_app.
Qed.

Lemma Index_char s c :
  match Index s (String c "") with Some i => Contains (str_take i s) c = false | None => Contains s c = false end.
Proof.
  induction s as [|d s IH]; [done|]. cbn [Index]. rewrite HasPrefix_cons. case_bool_decide as Hc; cbn [andb].
  - by destruct s.
  - destruct (Index s (String c "")) as [n|]; cbn [fmap option_fmap option_map str_take]; apply Contains_false_cons; split; congruence.
Qed.

(** The query of a path. *)
Lemma splitQuery_inv path : let '(a, q) := splitQuery path in path = a +:+ q ∧ Contains a "?" = false ∧ is_query q.
Proof.
  unfold splitQuery. pose proof (Index_char path "?") as Hc. destruct (Index path "?") as [i|] eqn:E.
  - apply Index_Some in E. split_and!; [by rewrite str_take_drop|done|right]. exists (str_drop (i + 1) path).
    apply (sapp_inj_l (str_take i path)). rewrite str_take_drop. exact E.
  - split_and!; [by rewrite sapp_nil_r|done|by left].
Qed.

(** The parameters of a path, when its query can be parsed. *)
Definition params (path : string) : option url_Values :=
  match ParseQuery (TrimPrefix (splitQuery path).2 "?") with Ok v => Some v | _ => None end.

Lemma params_encoded path vs :
  Contains path "?" = false → values_ok vs →
  let encoded := Encode_Values vs in
  let result := if bool_decide (encoded ≠ "") then path +:+ "?" +:+ encoded else path in
  params result = Some vs ∧ (splitQuery result).1 = path.
Proof.
  intros Hp Hv. cbn zeta. pose proof (parse_encode vs Hv) as Hr. unfold params. case_bool_decide as He.
  - change ("?" +:+ Encode_Values vs) with (String "?" (Encode_Values vs)).
    rewrite splitQuery_app by (done || (right; eauto)). cbn [fst snd].
    change (String "?" (Encode_Values vs)) with ("?" +:+ Encode_Values vs). rewrite TrimPrefix_app. by rewrite Hr.
  - assert (Encode_Values vs = "") as E by (by destruct (Encode_Values vs)). rewrite E in Hr.
    assert (splitQuery path = (path, "")) as -> by (rewrite <-(sapp_nil_r path) at 1; apply splitQuery_app; [done|by left]).
    cbn [fst snd]. change (TrimPrefix "" "?") with "". by rewrite Hr.
Qed.

(** Setting or removing a parameter leaves the path and the other parameters. *)
Lemma setQueryParam_params path name value vs :
  params path = Some vs →
  params (setQueryParam path name value) = Some (if bool_decide (value = "") then delete name vs else <[name := [value]]> vs) ∧
  (splitQuery (setQueryParam path name value)).1 = (splitQuery path).1.
Proof.
  unfold setQueryParam. pose proof (splitQuery_inv path) as Hs. unfold params at 1.
  destruct (splitQuery path) as [a q] eqn:E. cbn [fst snd]. destruct Hs as (_ & Ha & _).
  destruct (ParseQuery (TrimPrefix q "?")) as [vs'| |] eqn:Ep; [|done..]. intros [= ->]. apply ParseQuery_ok in Ep as Hv.
  case_bool_decide as Hval.
  - destruct (vs !! name) as [l|] eqn:El.
    + by apply params_encoded; [|apply map_Forall_delete].
    + rewrite delete_id by done. unfold params. rewrite E. cbn [fst snd]. by rewrite Ep.
  - apply params_encoded; [done|]. by apply map_Forall_insert_2.
Qed.

Lemma queryParam_params path name vs : params path = Some vs → queryParam path name = values_Get vs name.
Proof. unfold params, queryParam. destruct (ParseQuery _); [|done..]. by intros [= ->]. Qed.

(** ** Gateway ids in a path *)


Section Props.
Context `{CR : !Crypto} `{CL : !CryptoLaws CR} {T H Prog : Type} `{TR : !Translator FilesRequest T unit} `{FT : !FilesTranslators T}.
Context `{MP : !Multipart} `{FJ : !FilesJson} (parseMediaType : string → outcome (string * gmap string string)).

Notation processor := (filesProcessor T H Prog).



Definition filePath (base id suffix : string) : string := base +:+ filesPathMarker +:+ "/" +:+ id +:+ suffix.





(** ** Following up on an id *)





(** ** The ids of a response *)

(** The id the gateway issues for a native id of the backend. *)
Definition issued (p : processor) (owner : backendKey) (native id : string) : Prop := encodeFileID p owner native = Ok id.

(** An id in a page: an empty one stays empty. *)
Definition page_id (p : processor) (owner : backendKey) (native id : string) : Prop :=
  native = "" ∧ id = "" ∨ native ≠ "" ∧ issued p owner native id.

Definition page_encoded (p : processor) (owner : backendKey) (page page' : FileListResponse) : Prop :=
  (∃ data data', fl_Data page = Some data ∧ fl_Data page' = Some data' ∧
     Forall2 (λ o o', page_id p owner (fo_ID o) (fo_ID o') ∧ fo_rest o' = fo_rest o) data data') ∧
  page_id p owner (fl_FirstID page) (fl_FirstID page') ∧ page_id p owner (fl_LastID page) (fl_LastID page') ∧
  fl_rest page' = fl_rest page.

Lemma encodePageID_inv (p : processor) owner native id : encodePageID p owner native = Ok id → page_id p owner native id.
Proof. unfold encodePageID, page_id. case_bool_decide as Hn; [intros [= <-]; by left|by right]. Qed.

Lemma encodePage_inv (p : processor) owner page data page' :
  fl_Data page = Some data → encodePage p owner page data = Ok page' → page_encoded p owner page page'.
Proof.
  intros Hd (data' & Hf & (first & Hfirst & (last & Hlast & [= <-])%obind_ok_inv)%obind_ok_inv)%obind_ok_inv.
  split; [|split_and!; [by apply encodePageID_inv..|done]]. exists data, data'. split_and!; [done..|].
  apply (ofold_append (λ o o', page_id p owner (fo_ID o) (fo_ID o') ∧ fo_rest o' = fo_rest o)) in Hf as (bs & -> & Hbs); [done|].
  intros acc o acc' (id & Hid%encodePageID_inv & [= <-])%obind_ok_inv. eexists. split; [reflexivity|]. done.
Qed.

(** The translator may change its state; codec, model and backend stay. *)
Definition same_issuer (p p' : processor) : Prop :=
  fp_codec p' = fp_codec p ∧ fp_routingModel p' = fp_routingModel p ∧ fp_backend p' = fp_backend p.

(** What the translator makes of the body of a backend: the body itself when it has no
    headers or is not changed. *)
Definition translatedBody (p : processor) (raw working : string) : Prop :=
  raw ≠ "" ∧
  match fp_responseHeaders p with
  | None => working = raw
  | Some hs => ∃ t t' newHeaders mutated usage model, fp_translator p = Some t ∧
      tr_ResponseBody t hs (bytes_NewReader raw) true None = (t', (newHeaders, mutated, usage, model, None)) ∧ working = default raw mutated
  end.

Lemma translatedResponseBody_inv (p p' : processor) raw kind o :
  translatedResponseBody p raw kind = (p', Ok o) →
  same_issuer p p' ∧ match o with
                     | inl (owner, working) => fp_backend p = Some owner ∧ translatedBody p raw working
                     | inr r => ∃ msg, r = filesReEncodeError msg
                     end.
Proof.
  unfold translatedResponseBody, same_issuer, translatedBody. destruct (fp_backend p) as [key|] eqn:Eb; [|intros [= <- <-]; rewrite Eb; eauto].
  case_bool_decide as Hraw; [intros [= <- <-]; rewrite Eb; eauto|].
  destruct (fp_responseHeaders p) as [hs|]; [|intros [= <- <-]; rewrite Eb; eauto 10].
  destruct (fp_translator p) as [t|]; [|done]. destruct (tr_ResponseBody _ _ _ _ _) as [t' [[[[hd mb] u] m] [err|]]] eqn:Et;
    intros [= <- <-]; cbn; rewrite Eb; eauto 15.
Qed.

Lemma issued_same (p p' : processor) owner native id : same_issuer p p' → issued p' owner native id → issued p owner native id.
Proof. intros (Hc & Hm & _). unfold issued, encodeFileID. by rewrite Hc, Hm. Qed.

Lemma page_encoded_same (p p' : processor) owner page page' :
  same_issuer p p' → page_encoded p' owner page page' → page_encoded p owner page page'.
Proof.
  intros Hs. assert (∀ n i, page_id p' owner n i → page_id p owner n i) as Hi.
  { intros n i [|[? ?]]; [by left|right]. split; [done|]. by eapply issued_same. }
  intros ((data & data' & Hd & Hd' & Hf) & H1 & H2 & H3). split; [|by eauto]. exists data, data'. split_and!; [done..|].
  eapply Forall2_impl; [exact Hf|]. intros o o' [? ?]. auto.
Qed.

(** C39: a client never sees an id of a backend.  The answer to a successful upload,
    retrieval, deletion or listing is a 502 error of the gateway, or it is made from
    the body this backend answered with, as its translator gives it: in an answer for
    one file the id of the file is replaced, in a page the ids of its files and its
    first and last ids that are not empty, each by the one the gateway issues for that
    backend, the request's model and the native id; nothing else is put into it. *)
Theorem client_sees_issued_ids (p : processor) body p' r :
  isSuccessResponse p = true → fp_op p ≠ filesOpContent → files_ProcessResponseBody p body = (p', Ok r) →
  (∃ msg, r = filesReEncodeError msg) ∨
  ∃ owner working newBody, fp_backend p = Some owner ∧ translatedBody p (default "" (hb_Body body)) working ∧ r = bodyMutationResponse newBody ∧
    if bool_decide (fp_op p = filesOpList) then
      ∃ page page', unmarshalPage working = Ok page ∧ page_encoded p owner page page' ∧ marshalPage page' = Ok newBody
    else ∃ id, gjson_id working ≠ "" ∧ issued p owner (gjson_id working) id ∧ sjson_set_id working id = Ok newBody.
Proof using Type.
  unfold files_ProcessResponseBody. intros -> Hop. cbn [negb]. case_bool_decide as Hl.
  - rewrite Hl. unfold reEncodeListResponse. destruct (translatedResponseBody _ _ _) as [p1 o] eqn:E. intros [= <- Hr].
    apply obind_ok_inv in Hr as (w & -> & Hr). apply translatedResponseBody_inv in E as [Hs Hw].
    destruct w as [[owner working]|e]; [destruct Hw as [Hw Hbody]|injection Hr as <-; by left].
    destruct (unmarshalPage working) as [page| |] eqn:Eu; [|injection Hr as <-; left; by eexists|done].
    destruct (fl_Data page) as [data|] eqn:Ed; [|injection Hr as <-; left; by eexists].
    destruct (encodePage p1 owner page data) as [page'| |] eqn:Ee; [|injection Hr as <-; left; by eexists|done].
    destruct (marshalPage page') as [newBody| |] eqn:Em; [|injection Hr as <-; left; by eexists|done].
    injection Hr as <-. right. exists owner, working, newBody. split_and!; [done..|]. exists page, page'. split_and!; [done| |done].
    eapply page_encoded_same; [done|]. by eapply encodePage_inv.
  - intros Hre. assert (reEncodeResponse p (default "" (hb_Body body)) = (p', Ok r)) as H1.
    { revert Hre. by destruct (fp_op p). }
    clear Hre. revert H1. unfold reEncodeResponse. destruct (translatedResponseBody _ _ _) as [p1 o] eqn:E. intros [= <- Hr].
    apply obind_ok_inv in Hr as (w & -> & Hr). apply translatedResponseBody_inv in E as [Hs Hw].
    destruct w as [[owner working]|e]; [destruct Hw as [Hw Hbody]|injection Hr as <-; by left].
    revert Hr. case_bool_decide as Hn; [intros [= <-]; left; by eexists|].
    destruct (encodeFileID p1 owner (gjson_id working)) as [id| |] eqn:Ee; [|intros [= <-]; left; by eexists|done].
    destruct (sjson_set_id working id) as [newBody| |] eqn:Em; [|intros [= <-]; left; by eexists|done].
    intros [= <-]. right. exists owner, working, newBody. split_and!; [done..|]. exists id. split_and!; [done| |done].
    by eapply issued_same.
Qed.

(** ** Listing *)

(** The headers a list request goes on with. *)
Definition listHeaders (path model upstream : string) : HeaderMutation :=
  setHeader (setHeader (setHeader emptyHeaderMutation OriginalPathHeader path) ModelNameHeaderKeyDefault model) ":path" upstream.

Lemma decodeFileID_native (p : processor) id b : decodeFileID p id = Some b → bid_NativeID b ≠ "".
Proof.
  unfold decodeFileID, Decode. destruct (splitID id) as [[kind body]|]; [|done]. destruct (DecodeString _ body) as [raw|]; [|done].
  destruct (openAny _ raw) as [text|]; [|done]. destruct (parsePayload kind text) as [b'| |] eqn:E; [|done..].
  case_bool_decide; [|done]. intros [= ->]. by apply parsePayload_sound in E as (_ & _ & _ & _ & _ & ?).
Qed.

Lemma routeList_response (p : processor) model upstream :
  (routeList p model upstream).2 =
    if bool_decide (model = "") then createUserFacingErrorResponse 400 "invalid_request_error" "the 'model' query parameter is required"
    else requestHeadersResponse (listHeaders (requestPath p) model upstream) true.
Proof. unfold routeList. by case_bool_decide. Qed.

(** A list request reaches the backend as it expects it: the routing
    parameter is gone, a cursor that the gateway issued is replaced by the native
    id it stands for, all other parameters and the path are as the client sent
    them, and a cursor of another kind or origin is refused. *)
Theorem list_request_translated (p : processor) path vs :
  fp_requestHeaders p !! ":path" = Some path → params path = Some vs →
  classifyFilesRequest (mget (fp_requestHeaders p) ":method") path = Ok (filesOpList, "") →
  let r := (files_ProcessRequestHeaders p).2 in
  let after := values_Get vs "after" in
  (∃ msg, r = createUserFacingErrorResponse 400 "invalid_request_error" msg) ∨
  ∃ model upstream vs', r = requestHeadersResponse (listHeaders path model upstream) true ∧
    (splitQuery upstream).1 = (splitQuery path).1 ∧ params upstream = Some vs' ∧
    vs' !! "model" = None ∧ (∀ k, k ∉ ["model"; "after"] → vs' !! k = vs !! k) ∧
    if bool_decide (after = "") then vs' !! "after" = vs !! "after" ∧ model = values_Get vs "model"
    else ∃ b, decodeFileID p after = Some b ∧ vs' !! "after" = Some [bid_NativeID b] ∧
           model = (if bool_decide (values_Get vs "model" = "") then bid_Model b else values_Get vs "model").
Proof using Type.
  intros Hp Hv Hc. cbn zeta. assert (requestPath p = path) as Hp' by (unfold requestPath, mget; by rewrite Hp).
  unfold files_ProcessRequestHeaders. rewrite Hp', Hc. set (p0 := set_op _ _ p).
  unfold handleListRequestHeaders. change (requestPath p0) with (requestPath p). rewrite Hp'.
  rewrite !(queryParam_params _ _ _ Hv). destruct (setQueryParam_params path "model" "" vs Hv) as [Hv1 Hs1].
  rewrite bool_decide_true in Hv1 by done. case_bool_decide as Ha.
  - rewrite routeList_response. case_bool_decide as Hm; [left; by eexists|right].
    change (requestPath p0) with (requestPath p). rewrite Hp'. do 3 eexists. split; [reflexivity|]. split_and!; [exact Hs1|exact Hv1| | | |done].
    + apply lookup_delete_eq.
    + intros k [Hk _]%not_elem_of_cons. by apply lookup_delete_ne.
    + by apply lookup_delete_ne.
  - change (decodeFileID p0) with (decodeFileID p). destruct (decodeFileID p _) as [b|] eqn:Ed; [|left; by eexists].
    pose proof (decodeFileID_native _ _ _ Ed) as Hn.
    destruct (setQueryParam_params _ "after" (bid_NativeID b) _ Hv1) as [Hv2 Hs2]. rewrite bool_decide_false in Hv2 by done.
    rewrite routeList_response. case_bool_decide as Hm; [left; by eexists|right].
    change (requestPath (set_decoded _ p0)) with (requestPath p). rewrite Hp'. do 3 eexists. split; [reflexivity|].
    split_and!; [by rewrite Hs2|exact Hv2| | |].
    + rewrite lookup_insert_ne by done. apply lookup_delete_eq.
    + intros k [Hk [Hk' _]%not_elem_of_cons]%not_elem_of_cons. by rewrite lookup_insert_ne, lookup_delete_ne.
    + exists b. split_and!; [done| |done]. apply lookup_insert_eq.
Qed.

(** ** Uploading *)

(** The content of the last part with a name. *)
Definition lastField (name : string) (parts : list part) : string :=
  default "" (pt_Content <$> last (filter (λ pt, pt_FormName pt = name) parts)).

Lemma unmarshalPart_extra f pt f' :
  unmarshalPart f pt = Ok f' →
  fn_ExtraBody f' !! uploadModelFormField =
    if bool_decide (pt_FormName pt = uploadModelFormField) then Some (pt_Content pt) else fn_ExtraBody f !! uploadModelFormField.
Proof.
  unfold unmarshalPart. case_bool_decide as H1; [rewrite H1; by intros [= <-]|].
  case_bool_decide as H2; [rewrite H2; by intros (? & _ & [= <-])%obind_ok_inv|].
  case_bool_decide as H3; [rewrite H3; by intros (? & _ & [= <-])%obind_ok_inv|].
  case_bool_decide as H4; [rewrite H4; intros (? & _ & Hs)%obind_ok_inv; destruct (ParseInt64 _); by simplify_eq|].
  intros (c & Hc & [= <-])%obind_ok_inv. unfold readMultipartFieldWithLimit in Hc. destruct (_ <? _)%N; [done|].
  injection Hc as <-. cbn. case_bool_decide as Hn; [by rewrite Hn, lookup_insert_eq|by rewrite lookup_insert_ne].
Qed.

Lemma unmarshal_model parts f f' :
  ofold unmarshalPart f parts = Ok f' →
  fn_ExtraBody f' !! uploadModelFormField =
    match last (filter (λ pt, pt_FormName pt = uploadModelFormField) parts) with
    | Some pt => Some (pt_Content pt)
    | None => fn_ExtraBody f !! uploadModelFormField
    end.
Proof.
  revert f. induction parts as [|pt parts IH]; intros f; [by intros [= ->]|].
  intros (f1 & H1%unmarshalPart_extra & H2%IH)%obind_ok_inv. rewrite H2, filter_cons, H1.
  destruct (decide (pt_FormName pt = uploadModelFormField)) as [Hd|Hd].
  - rewrite bool_decide_true by done. rewrite last_cons. by destruct (last _).
  - by rewrite bool_decide_false.
Qed.

(** The headers an upload goes on with, before its length is set. *)
Definition uploadHeaders (p : processor) (model : string) : HeaderMutation :=
  setHeader (newRequestHeaderMutation p) ModelNameHeaderKeyDefault model.

(** An upload whose form can be read is routed by the last model field of
    the form and goes upstream without any model field, all other parts kept in
    order; when the field is missing or empty it is refused, and when the form
    cannot be written again the body goes on as the client sent it. *)
Theorem upload_routed_by_model (p : processor) body boundary parts params :
  fp_op p = filesOpUpload →
  multipartBoundary parseMediaType (mget (fp_requestHeaders p) "content-type") = boundary → boundary ≠ "" →
  readParts (default "" (hb_Body body)) boundary = Ok parts → ofold unmarshalPart emptyFileNewParams parts = Ok params →
  let model := lastField uploadModelFormField parts in
  let '(p', r) := files_ProcessRequestBody parseMediaType p body in
  if bool_decide (model = "") then
    p' = p ∧ r = createUserFacingErrorResponse 400 "invalid_request_error" "the 'model' field is required"
  else
    fp_routingModel p' = model ∧ fr_Model (fp_request p') = model ∧
    match writeParts boundary (filter (λ pt, pt_FormName pt ≠ uploadModelFormField) parts) with
    | Ok stripped =>
        fp_requestBody p' = Some stripped ∧
        r = requestBodyResponse (setHeader (uploadHeaders p model) "content-length" (itoa (String.length stripped)))
              (Some {| bmut_Body := Some stripped |})
    | _ => fp_requestBody p' = hb_Body body ∧ r = requestBodyResponse (uploadHeaders p model) None
    end.
Proof using Type.
  intros Hop Hb Hne Hr Hu. cbn zeta. unfold files_ProcessRequestBody. rewrite bool_decide_false by (intros []; done).
  rewrite Hb. assert (uploadModel parseMediaType p (default "" (hb_Body body)) = lastField uploadModelFormField parts) as ->.
  { unfold uploadModel. rewrite Hb, bool_decide_false by done. unfold UnmarshalMultipart. rewrite Hr. cbn. rewrite Hu.
    unfold extraBodyModel. rewrite (unmarshal_model _ _ _ Hu). unfold lastField. by destruct (last _). }
  case_bool_decide; [done|]. unfold stripMultipartField. rewrite Hr. cbn [obind routeByModel].
  destruct (writeParts _ _); cbn; split_and!; done.
Qed.
End Props.

(** The rule of a backend is known by the name of its route alone: two routes
    of that name in different namespaces count as one rule, so that both are
    refused although each of them has a single backend. *)
Lemma route_rule_ignores_namespace ns1 ns2 backend route (rule ref : nat) :
  let name ns := PerRouteRuleRefBackendName ns backend route rule ref in
  Index (ns1 +:+ "/" +:+ backend +:+ "/route/") "/route/" = Some (String.length (ns1 +:+ "/" +:+ backend)) →
  Index (ns2 +:+ "/" +:+ backend +:+ "/route/") "/route/" = Some (String.length (ns2 +:+ "/" +:+ backend)) →
  routeRuleKey (name ns1) = routeRuleKey (name ns2).
Proof.
  cbn zeta. assert (∀ ns, Index (ns +:+ "/" +:+ backend +:+ "/route/") "/route/" = Some (String.length (ns +:+ "/" +:+ backend)) →
    ∃ k, routeRuleKey (PerRouteRuleRefBackendName ns backend route rule ref) = k ∧
         k = let rest := str_drop 1 ("/route/" +:+ route +:+ "/rule/" +:+ itoa rule +:+ "/ref/" +:+ itoa ref) in
             (λ n, str_take n rest) <$> LastIndex rest "/ref/") as Hk.
  { intros ns Hi. eexists. split; [|reflexivity]. unfold routeRuleKey, PerRouteRuleRefBackendName.
    replace (ns +:+ "/" +:+ backend +:+ "/route/" +:+ route +:+ "/rule/" +:+ itoa rule +:+ "/ref/" +:+ itoa ref)
      with ((ns +:+ "/" +:+ backend +:+ "/route/") +:+ (route +:+ "/rule/" +:+ itoa rule +:+ "/ref/" +:+ itoa ref))
      by (by rewrite <-!sapp_assoc).
    rewrite (Index_app_l _ _ _ _ Hi). cbn zeta.
    replace ((ns +:+ "/" +:+ backend +:+ "/route/") +:+ (route +:+ "/rule/" +:+ itoa rule +:+ "/ref/" +:+ itoa ref))
      with ((ns +:+ "/" +:+ backend) +:+ ("/route/" +:+ route +:+ "/rule/" +:+ itoa rule +:+ "/ref/" +:+ itoa ref))
      by (by rewrite <-!sapp_assoc).
    rewrite <-str_drop_drop, str_drop_app. reflexivity. }
  intros (k1 & -> & ->)%Hk (k2 & -> & ->)%Hk. reflexivity.
Qed.

(** ** Samples *)
Module Sample.
Import Toy.

(** A form is its parts, one line each: the name, a colon and the content. *)
#[local] Instance multipart : Multipart :=
  {| readParts body _ :=
       Ok ((λ l, match Index l ":" with
                 | Some i => {| pt_FormName := str_take i l; pt_Header := ""; pt_Content := str_drop (i + 1) l |}
                 | None => {| pt_FormName := l; pt_Header := ""; pt_Content := "" |}
                 end) <$> Split body ";");
     writeParts _ parts := Ok (Join ((λ pt, pt_FormName pt +:+ ":" +:+ pt_Content pt) <$> parts) ";") |}.

(** An object is its id; a page is one object. *)
#[local] Instance filesJson : FilesJson :=
  {| gjson_id b := b; sjson_set_id _ id := Ok id;
     unmarshalPage b := Ok {| fl_Data := Some [{| fo_ID := b; fo_rest := "" |}]; fl_FirstID := b; fl_LastID := ""; fl_rest := "" |};
     marshalPage page := Ok (fl_FirstID page) |}.

Definition mediaType (ct : string) : outcome (string * gmap string string) :=
  Ok ("multipart/form-data", <["boundary" := "b"]> ∅).

Definition backendNamed (name : string) : RuntimeBackend unit :=
  {| rb_Backend := {| be_Name := name; be_AIServiceBackendName := "";
                      be_ModelNameOverride := ""; be_Schema := {| sc_Name := APISchemaOpenAI;
                      sc_Version := ""; sc_Prefix := "" |}; be_Auth := None; be_HeaderMutation := None;
                      be_BodyMutation := None; be_HeaderValueFilters := [] |};
     rb_Handler := None |}.

Definition config (names : list string) : RuntimeConfig unit unit codec :=
  {| rt_UUID := "id"; rt_GlobalRequestCosts := []; rt_RequestCosts := [];
     rt_DeclaredModels := []; rt_ModelsByHost := ∅; rt_UnscopedModels := [];
     rt_Backends := list_to_map ((λ n, (n, backendNamed n)) <$> names); rt_FileIDCodec := None |}.

Definition own : string := PerRouteRuleRefBackendName "default" "openai" "r" 0 0.

Definition processor (names : list string) (method path : string) : filesProcessor openAIFileTranslator unit unit :=
  NewFilesProcessor IdCodec.Sample.after (Some (config names)) (<[":method" := method]> (<[":path" := path]> ∅)).

(** An id issued before the seed was rotated, downloaded after. *)
Definition contentPath : string := filePath "" IdCodec.Sample.id "/content" +:+ "?x=1".


(** A file retrieved from the backend that owns it. *)
Definition retrieved : filesProcessor openAIFileTranslator unit unit :=
  set_responseHeaders (<[":status" := "200"]> ∅)
    (files_SetBackend (files_ProcessRequestHeaders (processor [own] "GET" (filePath "" IdCodec.Sample.id ""))).1 (backendNamed own)).1.

Definition served := files_ProcessResponseBody retrieved {| hb_Body := Some "file|abc"; hb_EndOfStream := true |}.

(** The body of an answer that replaces it. *)
Definition served_id (o : outcome ProcessingResponse) : option string :=
  match o with
  | Ok r => match pr_Response r with RespResponseBody (Some (Some c)) => cm_BodyMutation c ≫= bmut_Body | _ => None end
  | _ => None
  end.

Lemma client_sees_issued_ids_witness :
  ∃ p' r working id, served = (p', Ok r) ∧ r = bodyMutationResponse id ∧ issued retrieved (ownerOf IdCodec.Sample.backend) working id.
Proof.
  assert (served_id served.2 ≠ None) as Hok by (vm_compute; discriminate).
  destruct served as [p' o] eqn:E. destruct o as [r| |]; [|by destruct Hok..].
  destruct (client_sees_issued_ids retrieved {| hb_Body := Some "file|abc"; hb_EndOfStream := true |} p' r) as [[msg Hm]|Hr].
  - vm_compute; reflexivity.
  - vm_compute. discriminate.
  - exact E.
  - exfalso. subst r. by apply Hok.
  - destruct Hr as (owner & working & newBody & Ho & _ & Hr & Hid). rewrite bool_decide_false in Hid by (vm_compute; discriminate).
    destruct Hid as (id & _ & Hi & Hs). cbn in Hs. injection Hs as <-.
    assert (fp_backend retrieved = Some (ownerOf IdCodec.Sample.backend)) as Ho' by (vm_compute; reflexivity).
    rewrite Ho' in Ho. injection Ho as <-.
    exists p', r, working, id. exact (conj eq_refl (conj Hr Hi)).
Defined.

(** A page after a cursor. *)
Definition listPath : string := "/v1/files?after=" +:+ IdCodec.Sample.id +:+ "&limit=2".
Definition listParams : url_Values := default ∅ (params listPath).

Lemma list_request_translated_witness :
  ∃ model upstream vs',
    (files_ProcessRequestHeaders (processor [own] "GET" listPath)).2 = requestHeadersResponse (listHeaders listPath model upstream) true ∧
    params upstream = Some vs' ∧ vs' !! "after" = Some ["file|abc"] ∧ vs' !! "limit" = Some ["2"] ∧ model = "gpt-4o".
Proof.
  destruct (list_request_translated (processor [own] "GET" listPath) listPath listParams) as [[msg Hm]|Hr].
  - reflexivity.
  - vm_compute. reflexivity.
  - vm_compute. reflexivity.
  - exfalso. vm_compute in Hm. discriminate.
  - destruct Hr as (model & upstream & vs' & Hr & _ & Hv & _ & Hk & Ha).
    rewrite bool_decide_false in Ha by (vm_compute; discriminate). destruct Ha as (b & Hb & Ha & Hm).
    assert (decodeFileID (processor [own] "GET" listPath) (values_Get listParams "after") = Some IdCodec.Sample.backend) as Hb'
      by (vm_compute; reflexivity).
    rewrite Hb' in Hb. injection Hb as <-. exists model, upstream, vs'. split_and!; [exact Hr|exact Hv|exact Ha| |].
    + rewrite Hk by (apply (bool_decide_unpack _); vm_compute; exact I). vm_compute. reflexivity.
    + rewrite Hm. vm_compute. reflexivity.
Defined.

Definition uploading : filesProcessor openAIFileTranslator unit unit :=
  NewFilesProcessor IdCodec.Sample.after (Some (config [own]))
    (<[":method" := "POST"]> (<["content-type" := "multipart/form-data"]> (<[":path" := "/v1/files"]> ∅))).

Lemma upload_routed_by_model_witness :
  fp_requestBody (files_ProcessRequestBody mediaType uploading
    {| hb_Body := Some "model:a;file:data;model:b;purpose:batch"; hb_EndOfStream := true |}).1 = Some "file:data;purpose:batch" ∧
  fp_routingModel (files_ProcessRequestBody mediaType uploading
    {| hb_Body := Some "model:a;file:data;model:b;purpose:batch"; hb_EndOfStream := true |}).1 = "b".
Proof.
  pose proof (upload_routed_by_model mediaType uploading {| hb_Body := Some "model:a;file:data;model:b;purpose:batch"; hb_EndOfStream := true |}
    "b" _ _ eq_refl eq_refl ltac:(done) eq_refl eq_refl) as Hu. cbv zeta in Hu.
  destruct (files_ProcessRequestBody mediaType uploading _) as [p' r].
  rewrite bool_decide_false in Hu by (vm_compute; discriminate). destruct Hu as (Hm & _ & Hb).
  split; [exact (proj1 Hb)|exact Hm].
Defined.

(** Two routes of one name, in two namespaces, with one backend each. *)
Lemma same_route_name_refused :
  let other := PerRouteRuleRefBackendName "other" "openai" "r" 0 0 in
  routeRuleBackendCount (Some (config [own])) own = 1 ∧ routeRuleBackendCount (Some (config [own; other])) own = 2 ∧
  is_ok (files_SetBackend (processor [own; other] "GET" contentPath) (backendNamed own)).2 = false.
Proof. vm_compute. done. Qed.
End Sample.
